(* ===== verification/_CoqProject ===== *)
-Q . S2P
Prelude.v
GoStrings.v
GoTime.v
GoParse.v
XTrinodeTypes.v
RuntimeShape.v
DataSize.v
ControlEndpoint.v
Status.v
QueryState.v
CircuitBreaker.v
RateLimit.v
QueryActivity.v
ConnErrors.v
HttpRetry.v
Health.v
Routes.v
Retry.v
CatalogTypes.v
World.v
Scheduling.v
Shutdown.v
Operator.v
Guardrails.v
NodePool.v
Suspend.v
Finalizer.v
Autosuspend.v
Commands.v
Resume.v
Catalogs.v
Readiness.v
Reconcile.v
ReconcileSound.v
RouteRegistry.v
RouteCache.v
Selection.v
Sticky.v
Gateway.v
Lease.v
ApiAuth.v
GatewayAuth.v
BearerAuth.v
ApiServer.v
WakeRequest.v
Admission.v
AdmissionSound.v
AdmissionUpdate.v
CatalogAdmission.v
Connectors.v
ConnectorUnion.v
CatalogSound.v
CatalogFile.v
CatalogController.v
Rollout.v
RolloutSound.v
ResourceSet.v
ResourceSound.v
Keda.v
KedaSound.v
