(* ===== verification/Prelude.v ===== *)
(** * A verification of the XTrinode control plane

    XTrinode runs Trino clusters on Kubernetes ([src/xtrinode]).  A custom
    resource describes a cluster, called a runtime: its size, workers, node
    pool, routing and overlays.  A second one describes a
    catalog: the connector and credentials of a data source.  Four programs work
    on them:

    - the _admission webhooks_ ([api/v1]) fill in defaults and refuse invalid or
      breaking specifications;
    - the _operator_ ([controllers], [internal]) reconciles a runtime: it applies
      the Deployments, autoscalers, quotas and node pools, suspends an idle
      runtime, wakes it again and takes it down on deletion;
    - the _gateway_ ([pkg/gateway]) proxies client queries to a runtime's
      coordinator, chosen by hostname or header from a routing table the operator
      publishes in a ConfigMap;
    - the _API server_ ([pkg/api-server]) accepts resume and suspend requests,
      also from a gateway that found every backend asleep, and passes them on as
      annotations under a lease.

    They share state through the API server of Kubernetes only: the runtime
    object with its annotations and status, the ConfigMap with the routes, and
    Lease objects.

    ** Files

    Shared: [Prelude] (integers, lists, options, tactics, hints), [GoStrings],
    [GoTime], [GoParse] (the parts of Go's [strings], [time] and [strconv] the
    program uses), [DataSize] (floating-point data sizes).

    Data: [XTrinodeTypes] (the custom resource, [api/v1/xtrinode_types.go]),
    [RuntimeShape] ([internal/runtimeshape], [internal/sizing]: what a
    specification amounts to), [ControlEndpoint], [Status] (phases and
    conditions, [internal/status]), [CatalogTypes] (the catalog resource).

    Gateway: [QueryState], [CircuitBreaker], [RateLimit], [QueryActivity],
    [ConnErrors], [Health], [Routes] (the routing table), [RouteRegistry]
    (publication), [RouteCache] (loading and lookup), [Selection] (choice of a
    backend), [Sticky] (queries bound to backends), [Gateway] (a request from
    arrival to answer), [GatewayAuth] and [BearerAuth] ([pkg/gateway/auth]: API
    keys and bearer tokens).

    Catalogs: [Catalogs] ([internal/catalog]: selection and Secret references),
    [CatalogAdmission] (the catalog webhook), [Connectors] (the connector
    registry and the generated file), [ConnectorUnion] (a connector as one of its
    kinds), [CatalogSound] and [CatalogFile] (their theorems),
    [CatalogController] (the catalog controller's pass).

    Objects: [Rollout] ([internal/rollout], [internal/digest]: the hashes that
    roll the pods), [ResourceSet] ([internal/trino/resources]: names, applying,
    pruning and deletion), [Keda] ([internal/keda]), with [RolloutSound],
    [ResourceSound] and [KedaSound] for their theorems; [HttpRetry]
    ([internal/httpclient]).

    Operator: [Retry] (conflict retries), [World] (the calls an operator makes),
    [Operator] (status writes and scaling), [Shutdown] (queries before scaling
    down), [Scheduling] (why a pod does not run), [Guardrails] (namespace quotas),
    [NodePool], [Suspend], [Resume], [Autosuspend], [Finalizer], [Commands],
    [Readiness], [Reconcile] (the whole pass) and [ReconcileSound] (its theorem).

    API server: [Lease], [ApiAuth], [ApiServer]; [WakeRequest] joins it with the
    operator.

    Webhooks: [Admission] (defaults and validation), [AdmissionUpdate] (updates,
    break-glass and privileged changes), [AdmissionSound] (what accepted
    specifications promise the operator).

    ** How the code is modelled

    Pure functions are Rocq functions with the names of the source.  A method
    that mutates its receiver returns the new one.  Code that calls out of the
    process is a state-passing program over an interface: the gateway and the
    API server over small classes of client operations, the operator over the
    class [World], whose single operation performs a call and whose history
    records every call with its answer.  [runs m Q] says that [m] returns in
    every world and that its result and calls satisfy [Q]; [emits], [before] and
    [lasting] express what is called and in which order.  Loops that retry are
    driven by the step count of their backoff, so they end by construction.
    Errors are values of a type [E] with the tests the code applies to them.
    Integers are [Z] with their width written out where it matters; times and
    durations are nanoseconds; [float64] is a mantissa and an exponent.

    Interfaces to code outside the repository, each with the documented laws the
    proofs use and an instance that shows they can hold: [KubeErrors] and
    [ErrorKinds] (error tests), [WaitBackoff] ([wait.ExponentialBackoff]),
    [ConflictRetry], [ConfigMapClient], [YamlCodec], [StickyStore] (Redis and its
    cache), [LeaseClient], [RuntimeClient], [ApiWorld], [World], [QuantityParser]
    and [QuantityArith] ([resource.Quantity]).  Further parameters are functions:
    hashes, the texts of errors, JSON decoding of queries, metric samples,
    [time.Parse], the environment, label selectors, tolerations, scaled values and
    the access review of the API server; [url.Parse], the syntax of label keys and
    values, SHA-256 and RSA, the JSON text of pod templates and access rules, JSON
    decoding of tokens and key sets, the wrapped HTTP transport and the
    server-side apply.  The objects of [ResourceSet] and [Keda] are finite maps,
    and a list of faults says which calls of the API server fail.

    ** What is proved

    - Routing: publication never loses another client's update
      ([registry_no_lost_update]); registration, refusal and draining mean what
      they say ([register_refines], [register_refusal], [drain_refines]); a
      registered runtime is found by the gateway ([registered_runtime_is_routed],
      [load_refines_policy], [load_keeps_last_good]).
    - Requests: the chosen backend is routable and least loaded
      ([selectBackend_optimal], [target_is_routable],
      [drained_gets_no_new_queries]); a request is let in only with a current key or a
      rightful token ([api_keys_current], [bearer_tokens_rightful]); a query
      follows its backend ([query_follows_backend]); breakers probe one at a time,
      recover and hold their invariant ([single_probe], [open_recovers],
      [breaker_invariant], [guard_refuses_unselectable], [probe_slot_resolution]);
      the rate limiter is an ideal bucket ([limiter_refines_ideal],
      [bucket_rate_bound], [redis_script_refines_bucket]).
    - API server: mutations are authorised and leased
      ([api_mutations_authorised], [token_policy], [unified_resume_gated],
      [leased_operation_effect], [lease_windows_disjoint],
      [acquire_never_steals]); what it writes is what the operator reads
      ([wake_request_roundtrip]).
    - Operator: a runtime is declared ready only after it was seen running
      ([ready_after_running]); suspending and deleting respect running queries
      and their order ([suspend_order], [suspended_pass_enforces],
      [finalize_order], [auto_suspend_sound]); resuming only scales up
      ([resume_effect]); commands follow the policy ([process_commands_policy]);
      node pools gate the resources and are retained ([node_pool_gate],
      [observed_pool_roundtrip], [removed_pool_retained],
      [node_pool_env_bounds]); namespace quotas cover the runtimes and the mode
      is honoured ([guardrails_cover_runtimes], [guardrail_modes_honoured]); the
      diagnosis of pending pods is right ([scheduling_diagnosis]); phases and
      retries behave ([phase_discipline], [OnConflict_retries],
      [round_trip_proper]).
    - Objects: applying changes nothing foreign and leaves the set as applied
      ([apply_exact], [delete_exact], [revision_history]); equal rollout hashes
      mean equal templates and equal contents of what the pods read
      ([rollout_hash_covers]); the ScaledObject follows the resolved shape and the
      wake floor ([scaled_object_sound], [wake_floor_scaled]).
    - Catalogs: the file of an accepted catalog holds what the user wrote and no
      credential in the clear ([catalog_properties], [catalog_file_roundtrip]);
      its Secrets are authorised and delivered ([catalog_secrets_authorised],
      [catalog_secrets_delivered]); its status is [Ready] only after the ConfigMap
      was applied ([catalog_ready]).
    - Webhooks: what is accepted resolves and stays controllable
      ([accepted_resolves], [accepted_stays_controllable]); updates pass exactly
      when they break nothing or carry the annotation ([update_gate]); privileged
      changes are authorised ([privileged_changes_authorised]); defaults are
      complete and idempotent ([defaults_complete]); data sizes are exact
      ([data_size_exact]); resolved shapes are consistent ([resolve_sound]).

    Lemmas such as [half_open_probe_wedge], [lease_name_collision],
    [watch_loses_failed_reload], [auto_suspend_drops_status], [surge_overflows],
    [keda_minimum_unchecked], [line_break_injects], [nul_hides_a_key] or
    [replaced_password_secret_stays] show where the code does not do what it means
    to.

    ** Bounds

    Loads and capacities below [2^31] in [selectBackend_optimal], probe times
    below [2^60] nanoseconds; at most 500 workers per shape; a hundred thousand
    workers of ten thousand cores in [accepted_resolves]; a million pods and
    cores and [2^42] bytes per runtime in [guardrails_cover_runtimes]; sizes
    below [2^53] in [data_size_exact]; printed years from 0 to 9999.  Each is far
    beyond a real cluster and each is needed: beyond it the code's machine
    arithmetic wraps or rounds.  Parsers recurse on their input or use its length
    as fuel.  Conversions of out-of-range floats are those of amd64.

    ** Not modelled

    Metrics, logs, status pages and event filters (nothing reads them back);
    generated deep copies (values are immutable here); flag parsing and wiring;
    the network exchange itself; the rendering of manifests and configuration
    files for Kubernetes and the cloud providers from a resolved shape
    ([internal/trino/resources], apart from names, applying and pruning), which
    are values of the set that is applied; the proxy for Trino's web page
    ([trino_ui_rewrite.go]), which rewrites a third party's HTML. *)

From Stdlib Require Export ZArith Lia Ascii String.
From stdpp Require Export base gmap list strings option.
Open Scope string_scope.
Open Scope list_scope.
Open Scope Z_scope.

Declare Scope xt_scope.
Delimit Scope xt_scope with xt.
Open Scope xt_scope.

(** Decidable equality as a Go [==] test. *)
Notation "x ≡? y" := (bool_decide (x = y)) (at level 70, no associativity) : xt_scope.

(** ** Machine integers

    Go's [int] and [int64] are 64-bit two's complement on every platform the
    images are built for; [int32] is used by the Kubernetes types. *)

Definition int64_min : Z := - 2 ^ 63.
Definition int64_max : Z := 2 ^ 63 - 1.
Definition wrap64 (z : Z) : Z := (z + 2 ^ 63) mod 2 ^ 64 - 2 ^ 63.
Definition in_int64 (z : Z) : Prop := int64_min <= z <= int64_max.

Definition int_add (a b : Z) : Z := wrap64 (a + b).
Definition int_mul (a b : Z) : Z := wrap64 (a * b).

Lemma wrap64_id z : in_int64 z -> wrap64 z = z.
Proof.
  unfold in_int64, int64_min, int64_max, wrap64. intros H.
  rewrite Z.mod_small; lia.
Qed.

Lemma wrap64_range z : in_int64 (wrap64 z).
Proof.
  unfold in_int64, int64_min, int64_max, wrap64.
  pose proof (Z.mod_pos_bound (z + 2 ^ 63) (2 ^ 64) ltac:(lia)). lia.
Qed.

Lemma int_add_small a b : in_int64 (a + b) -> int_add a b = a + b.
Proof. apply wrap64_id. Qed.

Lemma int_mul_small a b : in_int64 (a * b) -> int_mul a b = a * b.
Proof. apply wrap64_id. Qed.

(** [int32(n)] for a wider [n] keeps the low 32 bits. *)
Definition int32_min : Z := - 2 ^ 31.
Definition int32_max : Z := 2 ^ 31 - 1.
Definition wrap32 (z : Z) : Z := (z + 2 ^ 31) mod 2 ^ 32 - 2 ^ 31.

Lemma wrap32_id z : int32_min <= z <= int32_max -> wrap32 z = z.
Proof. unfold int32_min, int32_max, wrap32. intros H. rewrite Z.mod_small; lia. Qed.

(** ** Time

    [time.Time] is an instant in nanoseconds since the Unix epoch and
    [time.Duration] a 64-bit number of nanoseconds.  [time.Sub] saturates at
    the ends of the [Duration] range, which matters for the zero time. *)

Abbreviation Time := Z (only parsing).
Abbreviation Duration := Z (only parsing).

Definition Microsecond : Duration := 1000.
Definition Millisecond : Duration := 1000000.
Definition Second : Duration := 1000000000.
Definition Minute : Duration := 60 * Second.
Definition Hour : Duration := 60 * Minute.

(** January 1, year 1, the zero value of [time.Time]. *)
Definition zeroTime : Time := - 62135596800 * Second.

Definition time_sub (t u : Time) : Duration :=
  Z.max int64_min (Z.min int64_max (t - u)).

Definition time_before (t u : Time) : bool := t <? u.
Definition time_after (t u : Time) : bool := u <? t.
Definition time_add (t : Time) (d : Duration) : Time := t + d.

Lemma time_sub_mono t t' u : t <= t' -> time_sub t u <= time_sub t' u.
Proof. unfold time_sub. lia. Qed.

Lemma time_sub_ge t u d : in_int64 d -> (d <= time_sub t u <-> d <= t - u \/ d = int64_min).
Proof. unfold time_sub, in_int64, int64_min, int64_max. lia. Qed.

Lemma time_sub_ge_pos t u d :
  0 <= d <= int64_max -> (d <=? time_sub t u) = (d <=? t - u).
Proof. unfold time_sub, int64_min, int64_max. lia. Qed.

Lemma time_sub_gt_pos t u d :
  0 <= d < int64_max -> (d <? time_sub t u) = (d <? t - u).
Proof. unfold time_sub, int64_min, int64_max. lia. Qed.

(** ** Results

    A Go function returning [(T, error)] is a [result]; the error type is a
    parameter so that components can keep their own error constructors. *)

Inductive result (E A : Type) : Type :=
| Ok (a : A)
| Err (e : E).
Arguments Ok {E A} a.
Arguments Err {E A} e.

#[export] Instance result_ret {E} : MRet (result E) := fun _ a => Ok a.
#[export] Instance result_bind {E} : MBind (result E) := fun _ _ f r =>
  match r with Ok a => f a | Err e => Err e end.
#[export] Instance result_fmap {E} : FMap (result E) := fun _ _ f r =>
  match r with Ok a => Ok (f a) | Err e => Err e end.

#[export] Instance result_eq_dec {E A} `{EqDecision E, EqDecision A} :
  EqDecision (result E A).
Proof. solve_decision. Defined.

Definition is_Ok {E A} (r : result E A) : bool :=
  match r with Ok _ => true | Err _ => false end.

Lemma bind_Ok {E A B} (r : result E A) (f : A -> result E B) b :
  r ≫= f = Ok b <-> exists a, r = Ok a /\ f a = Ok b.
Proof. destruct r; naive_solver. Qed.

(** ** Lists *)

Section lists.
Context {A : Type}.

(** The shape of a Go range loop that keeps the best element seen so far:
    [better x y] says that [x] replaces the current [y]. *)
Definition keep_best (better : A -> A -> bool) (acc : option A) (x : A) : option A :=
  match acc with
  | None => Some x
  | Some y => if better x y then Some x else Some y
  end.

Definition fold_best (better : A -> A -> bool) (l : list A) : option A :=
  fold_left (keep_best better) l None.

Lemma fold_best_some better l x :
  exists y, fold_left (keep_best better) l (Some x) = Some y /\ y ∈ x :: l.
Proof.
  revert x; induction l as [|a l IH]; intros x; simpl.
  - exists x. split; [done|]. left.
  - destruct (better a x); [destruct (IH a) as (y & Hy & Hin) | destruct (IH x) as (y & Hy & Hin)];
      exists y; (split; [done|]); set_solver.
Qed.

Lemma fold_best_None better l : fold_best better l = None <-> l = [].
Proof.
  destruct l as [|a l]; [done|]. unfold fold_best; simpl.
  destruct (fold_best_some better l a) as (y & -> & _). done.
Qed.

Lemma fold_best_elem better l y : fold_best better l = Some y -> y ∈ l.
Proof.
  destruct l as [|a l]; [done|]. unfold fold_best; simpl.
  destruct (fold_best_some better l a) as (z & -> & Hz). by intros [= <-].
Qed.

(** [fold_best] returns a minimum whenever "not better" is a total preorder
    on the elements that satisfy [P]. *)
Section minimum.
Context (better : A -> A -> bool) (P : A -> Prop).
Context (better_irrefl : forall x, P x -> better x x = false).
Context (better_trans : forall x y z, P x -> P y -> P z ->
  better y x = false -> better z y = false -> better z x = false).
Context (better_asym : forall x y, P x -> P y -> better x y = true -> better y x = false).

Lemma fold_best_min_from l x y :
  P x -> Forall P l -> fold_left (keep_best better) l (Some x) = Some y ->
  P y /\ Forall (fun z => better z y = false) (x :: l).
Proof.
  revert x; induction l as [|a l IH]; intros x Hx Hl; simpl.
  - intros [= <-]. split; [done|]. constructor; [by apply better_irrefl|constructor].
  - inversion Hl as [|? ? Ha Hl']; subst. destruct (better a x) eqn:E; intros Hf.
    + destruct (IH a Ha Hl' Hf) as [Py Hy]. split; [done|].
      inversion Hy; subst. constructor; [|done].
      apply (better_trans y a x); auto.
    + destruct (IH x Hx Hl' Hf) as [Py Hy]. split; [done|].
      inversion Hy; subst. constructor; [done|]. constructor; [|done].
      apply (better_trans y x a); auto.
Qed.

Lemma fold_best_min l y :
  Forall P l -> fold_best better l = Some y ->
  Forall (fun z => better z y = false) l.
Proof.
  destruct l as [|a l]; [done|]. intros Hl. inversion Hl; subst.
  unfold fold_best; simpl. intros H. by apply fold_best_min_from in H as [_ H].
Qed.
End minimum.

(** The index a Go search loop returns: the first element satisfying [p]. *)
Fixpoint find_first (p : A -> bool) (l : list A) : option A :=
  match l with
  | [] => None
  | x :: l' => if p x then Some x else find_first p l'
  end.

Lemma find_first_Some p l x :
  find_first p l = Some x -> x ∈ l /\ p x = true.
Proof.
  induction l as [|a l IH]; simpl; [done|].
  destruct (p a) eqn:E; [intros [= ->]; split; [left|done] | intros H].
  destruct (IH H). split; [by right|done].
Qed.

Lemma find_first_None p l :
  find_first p l = None <-> Forall (fun x => p x = false) l.
Proof.
  induction l as [|a l IH]; simpl; [split; constructor|].
  rewrite list.Forall_cons. destruct (p a) eqn:E; [naive_solver|]. naive_solver.
Qed.

Lemma find_first_app p l1 l2 :
  find_first p (l1 ++ l2) =
  match find_first p l1 with Some x => Some x | None => find_first p l2 end.
Proof. induction l1 as [|a l1 IH]; simpl; [done|]. by destruct (p a). Qed.

Lemma find_first_unique p l x :
  x ∈ l -> p x = true -> (forall y, y ∈ l -> p y = true -> y = x) -> find_first p l = Some x.
Proof.
  intros Hx Hp Hu. destruct (find_first p l) as [y|] eqn:E.
  - apply find_first_Some in E as [Hy Hpy]. by rewrite (Hu y Hy Hpy).
  - apply find_first_None in E. rewrite list.Forall_forall in E. by rewrite (E x Hx) in Hp.
Qed.

Definition filterb (p : A -> bool) (l : list A) : list A := List.filter p l.

Lemma elem_of_filterb p l x : x ∈ filterb p l <-> p x = true /\ x ∈ l.
Proof. unfold filterb. rewrite !list_elem_of_In, List.filter_In. tauto. Qed.

Lemma Permutation_filterb p (l l' : list A) : l ≡ₚ l' -> filterb p l ≡ₚ filterb p l'.
Proof.
  unfold filterb. induction 1 as [|x l l' _ IH|x y l|l1 l2 l3 _ IH1 _ IH2]; simpl.
  - done.
  - destruct (p x); by rewrite IH.
  - destruct (p x), (p y); try done. apply Permutation_swap.
  - by rewrite IH1.
Qed.

Lemma filterb_sublist p l : sublist (filterb p l) l.
Proof.
  unfold filterb. induction l as [|x l IH]; simpl; [done|].
  destruct (p x); [by apply sublist_skip|by apply sublist_cons].
Qed.

(** [len(l) == 0] *)
Definition is_empty (l : list A) : bool := match l with [] => true | _ => false end.

Lemma filterb_empty p l : is_empty (filterb p l) = negb (existsb p l).
Proof. unfold filterb. induction l as [|x l IH]; simpl; [done|]. by destruct (p x). Qed.
End lists.

Lemma option_match_id {A} (o : option A) : match o with Some x => Some x | None => None end = o.
Proof. by destruct o. Qed.

Lemma existsb_false {A} (p : A -> bool) l : existsb p l = false <-> Forall (fun x => p x = false) l.
Proof.
  induction l as [|x l IH]; simpl; [by split|].
  rewrite orb_false_iff, list.Forall_cons, IH. done.
Qed.

(** ** Automation *)

Create HintDb xt.
#[export] Hint Resolve wrap64_range wrap64_id : xt.

(** Split a goal on the innermost test or match of the computation. *)
Ltac split_tests :=
  repeat (case_bool_decide || case_decide || case_match); simplify_eq/=.

(** Close goals that are arithmetic after splitting tests. *)
Ltac tests_lia := split_tests; try done; try lia.

(** Case split on an integer comparison of the goal, by its specification. *)
Ltac case_cmp :=
  match goal with
  | |- context [?a <=? ?b] => destruct (Z.leb_spec a b)
  | |- context [?a <? ?b] => destruct (Z.ltb_spec a b)
  | |- context [?a =? ?b] => destruct (Z.eqb_spec a b)
  end.

(** ** Pairwise relations on the positions of a list *)

Section pairwise.
Context {A : Type} (R : A -> A -> Prop).

Fixpoint pairwise (l : list A) : Prop :=
  match l with
  | [] => True
  | x :: l' => Forall (R x) l' /\ pairwise l'
  end.

Lemma pairwise_app l1 l2 :
  pairwise (l1 ++ l2) <->
  pairwise l1 /\ pairwise l2 /\ Forall (fun x => Forall (R x) l2) l1.
Proof.
  induction l1 as [|x l1 IH]; simpl; [naive_solver|].
  rewrite Forall_app, list.Forall_cons, IH. naive_solver.
Qed.

(** With a symmetric relation an element can be singled out. *)
Lemma pairwise_middle `{!Symmetric R} l1 x l2 :
  pairwise (l1 ++ x :: l2) <-> pairwise (l1 ++ l2) /\ Forall (R x) (l1 ++ l2).
Proof.
  rewrite !pairwise_app, Forall_app. simpl. rewrite !Forall_forall.
  split.
  - intros (H1 & (H2 & H3) & H4). split_and!; try done.
    + intros y Hy. specialize (H4 y Hy). inversion H4; subst. done.
    + intros y Hy. specialize (H4 y Hy). inversion H4; subst. by symmetry.
  - intros ((H1 & H2 & H3) & H4 & H5). split_and!; try done.
    intros y Hy. constructor; [symmetry; auto|auto].
Qed.
End pairwise.

Lemma pairwise_omap {A B} (R : A -> A -> Prop) (S : B -> B -> Prop) (f : A -> option B) l :
  (forall x y x' y', f x = Some x' -> f y = Some y' -> R x y -> S x' y') ->
  pairwise R l -> pairwise S (omap f l).
Proof.
  intros Hf. induction l as [|x l IH]; simpl; [done|]. intros [Hx Hl].
  destruct (f x) as [x'|] eqn:E; simpl; [|by apply IH]. split; [|by apply IH].
  apply list.Forall_forall. intros y' Hy'. apply list_elem_of_omap in Hy' as (y & Hy & Ey).
  rewrite list.Forall_forall in Hx. eauto.
Qed.

(** A symmetric relation holds between any two elements at different places. *)
Lemma pairwise_elem {A} (R : A -> A -> Prop) l x y :
  Symmetric R -> pairwise R l -> x ∈ l -> y ∈ l -> x = y \/ R x y.
Proof.
  intros Hs. induction l as [|a l IH]; simpl; [by intros _ ?%elem_of_nil|].
  intros [Ha Hl]. rewrite list.Forall_forall in Ha.
  intros [->|Hx]%elem_of_cons [->|Hy]%elem_of_cons; auto.
Qed.

(** ** Orders given by a comparison

    Selection loops replace the current best by an element that is smaller in
    a lexicographic order of several keys. *)

Class TotalCompare {A} (c : A -> A -> comparison) := {
  tc_antisym x y : c y x = CompOpp (c x y);
  tc_trans x y z : c x y = Lt -> c y z = Lt -> c x z = Lt;
  tc_eq x y z : c x y = Eq -> c x z = c y z
}.

Definition cmp_lt {A} (c : A -> A -> comparison) (x y : A) : bool :=
  match c x y with Lt => true | _ => false end.

Definition lex {A} (c1 c2 : A -> A -> comparison) (x y : A) : comparison :=
  match c1 x y with Eq => c2 x y | o => o end.

Definition on {A B} (f : A -> B) (c : B -> B -> comparison) (x y : A) : comparison := c (f x) (f y).

#[export] Instance on_total {A B} (f : A -> B) c `{!TotalCompare c} : TotalCompare (on f c).
Proof. split; unfold on; intros; [apply tc_antisym|by eapply tc_trans|by apply tc_eq]. Qed.

#[export] Instance lex_total {A} (c1 c2 : A -> A -> comparison)
  `{!TotalCompare c1, !TotalCompare c2} : TotalCompare (lex c1 c2).
Proof.
  split; unfold lex.
  - intros x y. rewrite (tc_antisym x y). destruct (c1 x y); simpl; [apply tc_antisym|done..].
  - intros x y z. destruct (c1 x y) eqn:E1; try done.
    + rewrite (tc_eq x y z E1). destruct (c1 y z); try done. apply tc_trans.
    + intros _. destruct (c1 y z) eqn:E2; try done.
      * assert (E3 : c1 z y = Eq) by (by rewrite (tc_antisym y z), E2).
        pose proof (tc_eq z y x E3) as E4. rewrite (tc_antisym x z), (tc_antisym x y), E1 in E4.
        simpl in E4. by destruct (c1 x z).
      * intros _. by rewrite (tc_trans x y z E1 E2).
  - intros x y z. destruct (c1 x y) eqn:E1; try done. intros E2.
    rewrite (tc_eq x y z E1). destruct (c1 y z); try done. by apply tc_eq.
Qed.

#[export] Instance Z_total : TotalCompare Z.compare.
Proof.
  split.
  - intros x y. apply Z.compare_antisym.
  - intros x y z. rewrite !Z.compare_lt_iff. lia.
  - intros x y z ->%Z.compare_eq. done.
Qed.

Section least.
Context {A : Type} (c : A -> A -> comparison) `{!TotalCompare c}.

Lemma cmp_refl x : c x x = Eq.
Proof. pose proof (tc_antisym x x). by destruct (c x x). Qed.

Lemma not_lt_trans x y z : cmp_lt c y x = false -> cmp_lt c z y = false -> cmp_lt c z x = false.
Proof.
  unfold cmp_lt. intros H1 H2. destruct (c z x) eqn:E; try done.
  destruct (c y x) eqn:E1; try done.
  - assert (E1' : c x y = Eq) by (by rewrite (tc_antisym y x), E1).
    pose proof (tc_eq x y z E1') as E3. rewrite (tc_antisym z x), (tc_antisym z y), E in E3.
    simpl in E3. by destruct (c z y).
  - assert (E1' : c x y = Lt) by (by rewrite (tc_antisym y x), E1).
    by rewrite (tc_trans z x y E E1') in H2.
Qed.

(** The loop returns an element no other one is smaller than. *)
Lemma fold_best_least l m :
  fold_best (cmp_lt c) l = Some m -> m ∈ l /\ Forall (fun x => c x m <> Lt) l.
Proof.
  intros Hf. split; [by eapply fold_best_elem|].
  assert (Hm : Forall (fun x => cmp_lt c x m = false) l).
  { eapply (fold_best_min (cmp_lt c) (fun _ => True)); try done.
    - intros x _. unfold cmp_lt. by rewrite cmp_refl.
    - intros x y z _ _ _. apply not_lt_trans.
    - intros x y _ _. unfold cmp_lt. rewrite (tc_antisym x y). by destruct (c x y).
    - by apply Forall_true. }
  eapply list.Forall_impl; [exact Hm|]. intros x. unfold cmp_lt. by destruct (c x m).
Qed.

(** Two least elements are equivalent. *)
Lemma least_eq l m m' :
  m ∈ l -> m' ∈ l -> Forall (fun x => c x m <> Lt) l -> Forall (fun x => c x m' <> Lt) l ->
  c m m' = Eq.
Proof.
  rewrite !list.Forall_forall. intros Hm Hm' H1 H2.
  specialize (H1 m' Hm'). specialize (H2 m Hm). rewrite (tc_antisym m m') in H1.
  by destruct (c m m').
Qed.
End least.

(** A loop with [continue] is a loop over the elements it does not skip. *)
Lemma fold_best_filter {A} better (p : A -> bool) l acc :
  fold_left (fun acc x => if p x then keep_best better acc x else acc) l acc =
  fold_left (keep_best better) (filterb p l) acc.
Proof.
  revert acc. induction l as [|x l IH]; intros acc; simpl; [done|].
  unfold filterb. simpl. destruct (p x); apply IH.
Qed.

Lemma fold_best_ext {A} (b1 b2 : A -> A -> bool) l :
  (forall x y, x ∈ l -> y ∈ l -> b1 x y = b2 x y) -> fold_best b1 l = fold_best b2 l.
Proof.
  intros H. unfold fold_best.
  assert (Hg : forall l' acc, (forall x, x ∈ l' -> x ∈ l) -> (forall y, acc = Some y -> y ∈ l) ->
    fold_left (keep_best b1) l' acc = fold_left (keep_best b2) l' acc).
  { induction l' as [|x l' IH]; intros acc Hl Hacc; simpl; [done|].
    assert (E : keep_best b1 acc x = keep_best b2 acc x).
    { destruct acc as [y|]; simpl; [|done]. rewrite H; [done|apply Hl; left|by apply Hacc]. }
    rewrite E. apply IH; [intros z Hz; apply Hl; by right|].
    intros y. destruct acc as [a|]; simpl; [|intros [= <-]; apply Hl; left].
    destruct (b2 x a); intros [= <-]; [apply Hl; left|by apply Hacc]. }
  apply Hg; [done|]. by intros y [=].
Qed.
