(* ===== verification/GoStrings.v ===== *)
(** * The string functions the program uses from Go's standard library

    Go strings are byte strings; a byte is an [ascii].  [ToLower], [ToUpper]
    and [TrimSpace] are given on ASCII text, the only text that occurs in
    hostnames, Kubernetes names, header values and Trino query states;
    multi-byte Unicode case mapping and spaces are outside the model. *)

From Stdlib Require OrderedTypeEx.
From stdpp Require sorting.
From S2P Require Import Prelude.

Definition byte_in (lo hi : N) (c : ascii) : bool :=
  ((lo <=? N_of_ascii c) && (N_of_ascii c <=? hi))%N.

Definition lower_byte (c : ascii) : ascii :=
  if byte_in 65 90 c then ascii_of_N (N_of_ascii c + 32) else c.
Definition upper_byte (c : ascii) : ascii :=
  if byte_in 97 122 c then ascii_of_N (N_of_ascii c - 32) else c.

Fixpoint map_bytes (f : ascii -> ascii) (s : string) : string :=
  match s with
  | EmptyString => EmptyString
  | String c s' => String (f c) (map_bytes f s')
  end.

Definition ToLower : string -> string := map_bytes lower_byte.
Definition ToUpper : string -> string := map_bytes upper_byte.

(** Index of the first and of the last occurrence of a byte. *)
Fixpoint IndexByte (c : ascii) (s : string) : option nat :=
  match s with
  | EmptyString => None
  | String a s' => if a ≡? c then Some 0%nat else S <$> IndexByte c s'
  end.

Fixpoint LastIndexByte (c : ascii) (s : string) : option nat :=
  match s with
  | EmptyString => None
  | String a s' =>
      match LastIndexByte c s' with
      | Some n => Some (S n)
      | None => if a ≡? c then Some 0%nat else None
      end
  end.

(** [s[n:]] and [s[:n]] for [n] within the string. *)
Fixpoint str_drop (n : nat) (s : string) : string :=
  match n, s with
  | O, _ => s
  | S n', String _ s' => str_drop n' s'
  | S _, EmptyString => EmptyString
  end.

Fixpoint str_take (n : nat) (s : string) : string :=
  match n, s with
  | S n', String c s' => String c (str_take n' s')
  | _, _ => EmptyString
  end.

Fixpoint Join (sep : string) (l : list string) : string :=
  match l with
  | [] => ""
  | [s] => s
  | s :: l => s +:+ sep +:+ Join sep l
  end.

Definition HasPrefix (s p : string) : bool := String.prefix p s.

Fixpoint Contains (s sub : string) : bool :=
  String.prefix sub s ||
  match s with
  | EmptyString => false
  | String _ s' => Contains s' sub
  end.

Fixpoint str_rev_onto (s acc : string) : string :=
  match s with
  | EmptyString => acc
  | String c s' => str_rev_onto s' (String c acc)
  end.

Definition HasSuffix (s p : string) : bool :=
  String.prefix (str_rev_onto p EmptyString) (str_rev_onto s EmptyString).

Definition is_space (c : ascii) : bool := byte_in 9 13 c || (c ≡? " "%char).

(** [strings.TrimLeft], [TrimRight] and [Trim] with the bytes [p] accepts. *)
Fixpoint TrimLeftFunc (p : ascii -> bool) (s : string) : string :=
  match s with
  | EmptyString => EmptyString
  | String c s' => if p c then TrimLeftFunc p s' else s
  end.

Fixpoint TrimRightFunc (p : ascii -> bool) (s : string) : string :=
  match s with
  | EmptyString => EmptyString
  | String c s' =>
      match TrimRightFunc p s' with
      | EmptyString => if p c then EmptyString else String c EmptyString
      | r => String c r
      end
  end.

Definition TrimFunc (p : ascii -> bool) (s : string) : string :=
  TrimRightFunc p (TrimLeftFunc p s).

Definition TrimSpace : string -> string := TrimFunc is_space.

(** The first element of [strings.Split(s, sep)] for a one-byte separator. *)
Fixpoint SplitFirst (sep : ascii) (s : string) : string :=
  match s with
  | EmptyString => EmptyString
  | String c s' => if c ≡? sep then EmptyString else String c (SplitFirst sep s')
  end.

(** [net.SplitHostPort]: host and port, or [None] for its [AddrError]s. *)
Definition SplitHostPort (hostport : string) : option (string * string) :=
  match LastIndexByte ":" hostport with
  | None => None
  | Some i =>
      if HasPrefix hostport "[" then
        match IndexByte "]" hostport with
        | None => None
        | Some e =>
            if (S e =? i)%nat
               && (IndexByte "[" (str_drop 1 hostport) ≡? None)
               && (IndexByte "]" (str_drop (S e) hostport) ≡? None)
            then Some (str_take (e - 1) (str_drop 1 hostport), str_drop (S i) hostport)
            else None
        end
      else
        let host := str_take i hostport in
        if (IndexByte ":" host ≡? None)
           && (IndexByte "[" hostport ≡? None)
           && (IndexByte "]" hostport ≡? None)
        then Some (host, str_drop (S i) hostport)
        else None
  end.

(** ** Facts *)

Lemma map_bytes_map_bytes f g s : map_bytes f (map_bytes g s) = map_bytes (f ∘ g) s.
Proof. induction s as [|c s IH]; simpl; [done|]. by rewrite IH. Qed.

Lemma map_bytes_ext f g s : (forall c, f c = g c) -> map_bytes f s = map_bytes g s.
Proof. intros H. induction s as [|c s IH]; simpl; [done|]. by rewrite H, IH. Qed.

Lemma map_bytes_app f s t : map_bytes f (s +:+ t) = map_bytes f s +:+ map_bytes f t.
Proof. induction s as [|c s IH]; simpl; [done|]. by rewrite IH. Qed.

(** Statements about one byte are decided by running through the 256 bytes. *)
Ltac by_bytes := let c := fresh in intros c; destruct c as [[] [] [] [] [] [] [] []]; reflexivity.

Lemma lower_byte_idemp c : lower_byte (lower_byte c) = lower_byte c.
Proof. revert c. by_bytes. Qed.

Lemma upper_byte_idemp c : upper_byte (upper_byte c) = upper_byte c.
Proof. revert c. by_bytes. Qed.

Lemma ToLower_idemp s : ToLower (ToLower s) = ToLower s.
Proof.
  unfold ToLower. rewrite map_bytes_map_bytes. apply map_bytes_ext, lower_byte_idemp.
Qed.

Lemma ToUpper_idemp s : ToUpper (ToUpper s) = ToUpper s.
Proof.
  unfold ToUpper. rewrite map_bytes_map_bytes. apply map_bytes_ext, upper_byte_idemp.
Qed.

Lemma IndexByte_app c s t :
  IndexByte c (s +:+ t) = None <-> IndexByte c s = None /\ IndexByte c t = None.
Proof.
  induction s as [|a s IH]; simpl; [naive_solver|].
  case_bool_decide; [naive_solver|]. rewrite !fmap_None. exact IH.
Qed.

Lemma LastIndexByte_absent c s : IndexByte c s = None -> LastIndexByte c s = None.
Proof.
  induction s as [|a s IH]; simpl; [done|].
  case_bool_decide; [done|]. rewrite fmap_None. intros Hn. by rewrite IH.
Qed.

Lemma LastIndexByte_app c s t :
  IndexByte c t = None -> LastIndexByte c (s +:+ String c t) = Some (String.length s).
Proof.
  intros Ht. induction s as [|a s IH]; simpl.
  - rewrite LastIndexByte_absent by done. by rewrite bool_decide_eq_true_2.
  - by rewrite IH.
Qed.

Lemma str_app_assoc (a b c : string) : (a +:+ b) +:+ c = a +:+ (b +:+ c).
Proof. induction a as [|x a IH]; [done|]. exact (f_equal (String x) IH). Qed.

Lemma str_take_app s t : str_take (String.length s) (s +:+ t) = s.
Proof. induction s as [|a s IH]; simpl; [by destruct t|]. by rewrite IH. Qed.

Lemma str_drop_app s c t : str_drop (S (String.length s)) (s +:+ String c t) = t.
Proof. induction s as [|a s IH]; [done|]. exact IH. Qed.

Lemma HasPrefix_absent c s : IndexByte c s = None -> HasPrefix s (String c "") = false.
Proof.
  unfold HasPrefix. destruct s as [|a s]; simpl; [done|].
  case_bool_decide as H; [done|]. intros _. destruct (ascii_dec c a); congruence.
Qed.

(** A host and a port separated by the only colon split as expected. *)
Lemma SplitHostPort_simple h p :
  IndexByte ":" h = None -> IndexByte ":" p = None ->
  IndexByte "[" (h +:+ p) = None -> IndexByte "]" (h +:+ p) = None ->
  SplitHostPort (h +:+ ":" +:+ p) = Some (h, p).
Proof.
  rewrite !IndexByte_app. intros Hh Hp [Hl1 Hl2] [Hr1 Hr2]. unfold SplitHostPort.
  change (h +:+ ":" +:+ p) with (h +:+ String ":" p).
  rewrite LastIndexByte_app by done.
  assert (Hl : IndexByte "[" (h +:+ String ":" p) = None).
  { apply IndexByte_app. split; [done|]. simpl. by rewrite Hl2. }
  assert (Hr : IndexByte "]" (h +:+ String ":" p) = None).
  { apply IndexByte_app. split; [done|]. simpl. by rewrite Hr2. }
  rewrite HasPrefix_absent by done. rewrite str_take_app, str_drop_app.
  by rewrite !bool_decide_eq_true_2.
Qed.

Lemma SplitHostPort_no_colon h : IndexByte ":" h = None -> SplitHostPort h = None.
Proof. intros H. unfold SplitHostPort. by rewrite LastIndexByte_absent. Qed.

(** Lower-casing does not move bytes that are not letters. *)
Lemma IndexByte_ToLower d s :
  (forall c, bool_decide (lower_byte c = d) = bool_decide (c = d)) ->
  IndexByte d (ToLower s) = IndexByte d s.
Proof.
  intros H. induction s as [|c s IH]; simpl; [done|]. rewrite H.
  case_bool_decide; [done|]. unfold ToLower in IH. by rewrite IH.
Qed.

Lemma IndexByte_ToLower_punct d s :
  d = ":"%char \/ d = "["%char \/ d = "]"%char ->
  IndexByte d (ToLower s) = IndexByte d s.
Proof. intros Hd. apply IndexByte_ToLower. destruct Hd as [-> | [-> | ->]]; by_bytes. Qed.

Lemma TrimRightFunc_idemp p s : TrimRightFunc p (TrimRightFunc p s) = TrimRightFunc p s.
Proof.
  induction s as [|c s IH]; simpl; [done|].
  destruct (TrimRightFunc p s) as [|a r] eqn:E.
  - destruct (p c) eqn:Ep; simpl; [done|]. by rewrite Ep.
  - simpl in *. by rewrite IH.
Qed.

Lemma TrimLeftFunc_idemp p s : TrimLeftFunc p (TrimLeftFunc p s) = TrimLeftFunc p s.
Proof.
  induction s as [|c s IH]; simpl; [done|].
  destruct (p c) eqn:E; [done|]. simpl. by rewrite E.
Qed.

Lemma TrimLeftRightFunc p s :
  TrimLeftFunc p (TrimRightFunc p (TrimLeftFunc p s)) = TrimRightFunc p (TrimLeftFunc p s).
Proof.
  induction s as [|c s IH]; simpl; [done|].
  destruct (p c) eqn:E; [done|]. simpl.
  destruct (TrimRightFunc p s); simpl; rewrite ?E; simpl; by rewrite ?E.
Qed.

Lemma TrimFunc_idemp p s : TrimFunc p (TrimFunc p s) = TrimFunc p s.
Proof. unfold TrimFunc. by rewrite TrimLeftRightFunc, TrimRightFunc_idemp. Qed.

Lemma TrimFunc_map_bytes p f s :
  (forall c, p (f c) = p c) -> TrimFunc p (map_bytes f s) = map_bytes f (TrimFunc p s).
Proof.
  intros Hp. unfold TrimFunc.
  assert (HL : TrimLeftFunc p (map_bytes f s) = map_bytes f (TrimLeftFunc p s)).
  { induction s as [|c s IH]; simpl; [done|]. rewrite Hp. by destruct (p c). }
  rewrite HL. generalize (TrimLeftFunc p s). intros t.
  induction t as [|c t IH]; simpl; [done|]. rewrite IH, Hp.
  destruct (TrimRightFunc p t); simpl; by destruct (p c).
Qed.

(** ** Ordering

    Go compares strings byte by byte. *)

Definition str_ltb (s t : string) : bool := cmp_lt String.compare s t.

#[export] Instance string_total : TotalCompare String.compare.
Proof.
  assert (Hlt : forall x y, String.compare x y = Lt <-> OrderedTypeEx.String_as_OT.lt x y).
  { intros x y. apply OrderedTypeEx.String_as_OT.cmp_lt. }
  split.
  - intros x y. apply String.compare_antisym.
  - intros x y z. rewrite !Hlt. apply OrderedTypeEx.String_as_OT.lt_trans.
  - intros x y z ->%String.compare_eq_iff. done.
Qed.

Definition str_le (s t : string) : Prop := str_ltb t s = false.

#[export] Instance str_le_dec : RelDecision str_le.
Proof. intros s t. unfold str_le. apply _. Defined.

(** [sort.Strings] *)
Definition SortStrings : list string -> list string := sorting.merge_sort str_le.

(** [strings.TrimPrefix] *)
Definition TrimPrefix (s p : string) : string := if HasPrefix s p then str_drop (String.length p) s else s.

(** ** Classes of bytes *)

Fixpoint all_bytes (p : ascii -> bool) (s : string) : bool :=
  match s with EmptyString => true | String c s => p c && all_bytes p s end.

Lemma all_bytes_app p a b : all_bytes p (a +:+ b) = all_bytes p a && all_bytes p b.
Proof. induction a as [|c a IH]; simpl; [done|]. by rewrite IH, andb_assoc. Qed.

Lemma all_bytes_take p n s : all_bytes p s = true -> all_bytes p (str_take n s) = true.
Proof.
  revert n. induction s as [|c s IH]; intros [|n]; simpl; try done.
  intros [Hc Hs]%andb_true_iff. by rewrite Hc, IH.
Qed.
