(* ===== verification/GoTime.v ===== *)
(** * Printing instants and numbers ([time.Format], [fmt] verbs)

    [time.RFC3339] in UTC, the zone the containers run in, and the [%d] verb. *)

From stdpp Require Import pretty.
From S2P Require Import Prelude.

(** [fmt.Sprintf("%d", n)] *)
Definition fmt_d (n : Z) : string := pretty n.

(** Zero-padded decimal of width 2 and 4, for values in range. *)
Definition pad2 (n : Z) : string := if n <? 10 then "0" +:+ pretty n else pretty n.
Definition pad4 (n : Z) : string :=
  if n <? 10 then "000" +:+ pretty n
  else if n <? 100 then "00" +:+ pretty n
  else if n <? 1000 then "0" +:+ pretty n
  else pretty n.

(** Civil date (year, month, day) of a day number since the Unix epoch in the
    proleptic Gregorian calendar, by 400-year eras that begin in March. *)
Definition civil_from_days (days : Z) : Z * Z * Z :=
  let z := days + 719468 in
  let era := z / 146097 in
  let doe := z mod 146097 in
  let yoe := (doe - doe / 1460 + doe / 36524 - doe / 146096) / 365 in
  let doy := doe - (365 * yoe + yoe / 4 - yoe / 100) in
  let mp := (5 * doy + 2) / 153 in
  let d := doy - (153 * mp + 2) / 5 + 1 in
  let m := if mp <? 10 then mp + 3 else mp - 9 in
  let y := yoe + era * 400 in
  ((if m <=? 2 then y + 1 else y), m, d).

Definition FormatRFC3339 (t : Time) : string :=
  let secs := t / Second in
  let '(y, mo, d) := civil_from_days (secs / 86400) in
  let s := secs mod 86400 in
  pad4 y +:+ "-" +:+ pad2 mo +:+ "-" +:+ pad2 d +:+ "T" +:+
  pad2 (s / 3600) +:+ ":" +:+ pad2 (s / 60 mod 60) +:+ ":" +:+ pad2 (s mod 60) +:+ "Z".

Example rfc3339_epoch : FormatRFC3339 0 = "1970-01-01T00:00:00Z".
Proof. vm_compute. reflexivity. Qed.

Example rfc3339_leap_day : FormatRFC3339 (1709210096 * Second + 5) = "2024-02-29T12:34:56Z".
Proof. vm_compute. reflexivity. Qed.

Lemma str_app_nonempty s c t : s +:+ String c t <> "".
Proof. by destruct s. Qed.

Lemma FormatRFC3339_nonempty t : FormatRFC3339 t <> "".
Proof.
  unfold FormatRFC3339. destruct (civil_from_days _) as [[y mo] d].
  apply str_app_nonempty.
Qed.

(** ** [Duration.String] *)

(** The fraction of [v / 10^prec] without trailing zeros, before [acc]; returns
    the integer part too. *)
Fixpoint fmt_frac (prec : nat) (v : Z) (print : bool) (acc : string) : string * Z :=
  match prec with
  | O => ((if print then String "." acc else acc), v)
  | S prec =>
      let digit := v mod 10 in
      let print := print || negb (digit =? 0) in
      fmt_frac prec (v / 10) print (if print then pretty digit +:+ acc else acc)
  end.

Definition duration_abs_string (u : Z) : string :=
  if u <? Second then
    if u =? 0 then "0s" else
    if u <? Microsecond then pretty u +:+ "ns" else
    if u <? Millisecond then let '(f, n) := fmt_frac 3 u false ("µs") in pretty n +:+ f else
    let '(f, n) := fmt_frac 6 u false "ms" in pretty n +:+ f
  else
    let '(f, secs) := fmt_frac 9 u false "s" in
    let s := pretty (secs mod 60) +:+ f in
    let mins := secs / 60 in
    if mins =? 0 then s else
    let s := pretty (mins mod 60) +:+ "m" +:+ s in
    let hours := mins / 60 in
    if hours =? 0 then s else pretty hours +:+ "h" +:+ s.

Definition duration_String (d : Duration) : string :=
  if d <? 0 then "-" +:+ duration_abs_string (- d) else duration_abs_string d.

Example duration_minutes : duration_String (10 * Minute) = "10m0s".
Proof. vm_compute. reflexivity. Qed.

Example duration_mixed : duration_String (Hour + 1500 * Millisecond) = "1h0m1.5s".
Proof. vm_compute. reflexivity. Qed.

Example duration_small : duration_String (- 1500 * Microsecond) = "-1.5ms".
Proof. vm_compute. reflexivity. Qed.
