(* ===== verification/GoParse.v ===== *)
(** * Reading numbers, durations and instants ([strconv], [time])

    [strconv.ParseInt] in base 10, [time.ParseDuration] and [time.Parse] with
    the layout [time.RFC3339], as the operator applies them to annotations,
    and the round trips with the printers of [GoTime].  [time.ParseDuration]
    computes fractions in [float64]: the first part models the rounding of the
    operations it uses. *)

From stdpp Require Import pretty.
From S2P Require Import Prelude GoStrings GoTime.

(** ** [float64]

    A non-negative finite number [m * 2^e].  Exponents stay far inside the
    range of the format for every value the code builds. *)

Definition float64 := (Z * Z)%type.

(** [n / d], to the nearest integer, ties to even. *)
Definition round_half_even (n d : Z) : Z :=
  let q := n / d in
  let r := n mod d in
  match 2 * r ?= d with
  | Lt => q
  | Gt => q + 1
  | Eq => if Z.even q then q else q + 1
  end.

(** [n / d / 2^e] as a quotient of integers. *)
Definition scaled (n d e : Z) : Z * Z := if 0 <=? e then (n, d * 2 ^ e) else (n * 2 ^ (- e), d).

(** The float nearest to the rational [n / d]: 53 significant bits. *)
Definition round53 (n d : Z) : float64 :=
  if n <=? 0 then (0, 0) else
  let e0 := Z.log2 n - Z.log2 d - 52 in
  let '(a, b) := scaled n d e0 in
  let e := if a / b <? 2 ^ 52 then e0 - 1 else e0 in
  let '(a, b) := scaled n d e in
  (round_half_even a b, e).

Definition float_of_Z (n : Z) : float64 := round53 n 1.

Definition float_div (x y : float64) : float64 :=
  let '(m1, e1) := x in let '(m2, e2) := y in
  let '(m, e) := round53 m1 m2 in (m, e + e1 - e2).

Definition float_mul (x y : float64) : float64 :=
  let '(m1, e1) := x in let '(m2, e2) := y in
  let '(m, e) := round53 (m1 * m2) 1 in (m, e + e1 + e2).

Definition float64_trunc (x : float64) : Z :=
  let '(m, e) := x in if 0 <=? e then m * 2 ^ e else m / 2 ^ (- e).

Definition float_positive (x : float64) : bool := 0 <? x.1.

Example float_third : float64_trunc (float_mul (float_of_Z (3 * 2 ^ 60)) (float_div (1, 0) (3, 0))) = 2 ^ 60.
Proof. vm_compute. reflexivity. Qed.

(** ** Digits *)

Definition digit (c : ascii) : option Z :=
  if byte_in 48 57 c then Some (Z.of_N (N_of_ascii c) - 48) else None.

(** The longest prefix of digits and what follows it. *)
Fixpoint leading_digits (s : string) : list Z * string :=
  match s with
  | EmptyString => ([], s)
  | String c t =>
      match digit c with
      | Some d => let '(ds, r) := leading_digits t in (d :: ds, r)
      | None => ([], s)
      end
  end.

Definition digits_value (ds : list Z) : Z := fold_left (fun x d => x * 10 + d) ds 0.

(** ** [strconv.ParseInt(s, 10, bits)] *)

Definition split_sign (s : string) : bool * string :=
  match s with
  | String "-" t => (true, t)
  | String "+" t => (false, t)
  | _ => (false, s)
  end.

Definition ParseInt (bits : Z) (s : string) : option Z :=
  let '(neg, t) := split_sign s in
  match leading_digits t with
  | ([], _) => None
  | (ds, EmptyString) =>
      let n := digits_value ds in
      if neg then (if n <=? 2 ^ (bits - 1) then Some (- n) else None)
      else if n <? 2 ^ (bits - 1) then Some n else None
  | (_, _) => None
  end.

Example parse_int_min : ParseInt 32 "-2147483648" = Some (- 2 ^ 31).
Proof. reflexivity. Qed.

Example parse_int_range : ParseInt 32 "2147483648" = None /\ ParseInt 32 "" = None /\ ParseInt 32 "1x" = None.
Proof. done. Qed.

(** ** [time.ParseDuration] *)

(** [leadingInt]: fails as soon as the value exceeds [2^63]. *)
Definition leadingInt (s : string) : option (Z * string) :=
  let '(ds, rest) := leading_digits s in
  fold_left (fun acc d =>
      match acc with
      | Some (x, r) =>
          if 2 ^ 63 / 10 <? x then None else
          let x := x * 10 + d in if 2 ^ 63 <? x then None else Some (x, r)
      | None => None
      end) ds (Some (0, rest)).

(** [leadingFraction]: digits that do not fit are dropped; [scale] is the power
    of ten of the digits kept. *)
Record fraction := mkFraction { fr_x : Z; fr_scale : Z; fr_overflow : bool }.

Definition leadingFraction (s : string) : fraction * string :=
  let '(ds, rest) := leading_digits s in
  (fold_left (fun f d =>
      if fr_overflow f then f else
      if (2 ^ 63 - 1) / 10 <? fr_x f then mkFraction (fr_x f) (fr_scale f) true else
      let y := fr_x f * 10 + d in
      if 2 ^ 63 <? y then mkFraction (fr_x f) (fr_scale f) true
      else mkFraction y (fr_scale f * 10) false) ds (mkFraction 0 1 false), rest).

Definition unitMap (u : string) : option Z :=
  if u ≡? "ns" then Some 1 else
  if (u ≡? "us") || (u ≡? "µs") || (u ≡? "μs") then Some Microsecond else
  if u ≡? "ms" then Some Millisecond else
  if u ≡? "s" then Some Second else
  if u ≡? "m" then Some Minute else
  if u ≡? "h" then Some Hour else None.

Definition unit_end (c : ascii) : bool := (c ≡? "."%char) || byte_in 48 57 c.

(** The unit and what follows it. *)
Fixpoint leading_unit (s : string) : string * string :=
  match s with
  | EmptyString => ("", s)
  | String c t => if unit_end c then ("", s) else let '(u, r) := leading_unit t in (String c u, r)
  end.

Definition duration_fraction (f : fraction) (unit : Z) : Z :=
  float64_trunc (float_mul (float_of_Z (fr_x f)) (float_div (float_of_Z unit) (float_of_Z (fr_scale f)))).

(** One [number unit] element: its value and the rest. *)
Definition duration_element (s : string) : option (Z * string) :=
  match s with
  | EmptyString => None
  | String c _ =>
      if negb (unit_end c) then None else
      match leadingInt s with
      | None => None
      | Some (v, s1) =>
          let pre := negb (Nat.eqb (String.length s) (String.length s1)) in
          let '(f, post, s2) :=
            match s1 with
            | String "." t =>
                let '(f, r) := leadingFraction t in
                (f, negb (Nat.eqb (String.length t) (String.length r)), r)
            | _ => (mkFraction 0 1 false, false, s1)
            end in
          if negb pre && negb post then None else
          let '(u, s3) := leading_unit s2 in
          match unitMap u with
          | None => None
          | Some unit =>
              if 2 ^ 63 / unit <? v then None else
              let v := v * unit in
              let v := if 0 <? fr_x f then v + duration_fraction f unit else v in
              if (0 <? fr_x f) && (2 ^ 63 <? v) then None else Some (v, s3)
          end
      end
  end.

(** The loop: every element consumes a byte, so the length is enough fuel. *)
Fixpoint duration_elements (fuel : nat) (d : Z) (s : string) : option Z :=
  match s, fuel with
  | EmptyString, _ => Some d
  | _, O => None
  | _, S fuel =>
      match duration_element s with
      | None => None
      | Some (v, s) =>
          let d := (d + v) mod 2 ^ 64 in
          if 2 ^ 63 <? d then None else duration_elements fuel d s
      end
  end.

Definition ParseDuration (s : string) : option Duration :=
  let '(neg, s) := split_sign s in
  if s ≡? "0" then Some 0 else
  if s ≡? "" then None else
  match duration_elements (String.length s) 0 s with
  | None => None
  | Some d => if neg then Some (wrap64 (- d)) else if 2 ^ 63 - 1 <? d then None else Some d
  end.

Example parse_duration_mixed : ParseDuration "1h0m1.5s" = Some (Hour + 1500 * Millisecond).
Proof. vm_compute. reflexivity. Qed.

Example parse_duration_fraction_of_hour : ParseDuration "-.3333333333333333333h" = Some (- 1200000000000).
Proof. vm_compute. reflexivity. Qed.

Example parse_duration_min : ParseDuration (duration_String int64_min) = Some int64_min.
Proof. vm_compute. reflexivity. Qed.

Example parse_duration_bad : ParseDuration "5" = None /\ ParseDuration "3d" = None /\ ParseDuration ".s" = None.
Proof. vm_compute. done. Qed.

(** ** [time.Parse(time.RFC3339, s)]

    The layout is [2006-01-02T15:04:05Z07:00].  The parser is more liberal
    than the printer: one-digit hours, fractions of seconds after a dot or a
    comma and numeric zones are accepted. *)

(** [getnum] *)
Definition getnum (s : string) (fixed : bool) : option (Z * string) :=
  match s with
  | EmptyString => None
  | String c t =>
      match digit c with
      | None => None
      | Some a =>
          match t with
          | String c' t' =>
              match digit c' with
              | Some b => Some (a * 10 + b, t')
              | None => if fixed then None else Some (a, t)
              end
          | EmptyString => if fixed then None else Some (a, t)
          end
      end
  end.

Definition skip (c : ascii) (s : string) : option string :=
  match s with
  | String c' t => if c ≡? c' then Some t else None
  | EmptyString => None
  end.

Definition getyear (s : string) : option (Z * string) :=
  match leading_digits (str_take 4 s) with
  | (ds, EmptyString) => if Nat.eqb (length ds) 4 then Some (digits_value ds, str_drop 4 s) else None
  | _ => None
  end.

Definition in_range (lo hi n : Z) : bool := (lo <=? n) && (n <=? hi).

(** [parseNanoseconds] over the digits after the dot or comma. *)
Definition nanoseconds (ds : list Z) : Z :=
  let ds := take 9 ds in digits_value ds * 10 ^ (9 - Z.of_nat (length ds)).

Definition fractional_seconds (s : string) : Z * string :=
  match s with
  | String c t =>
      if (c ≡? "."%char) || (c ≡? ","%char) then
        match leading_digits t with
        | ([], _) => (0, s)
        | (ds, r) => (nanoseconds ds, r)
        end
      else (0, s)
  | EmptyString => (0, s)
  end.

(** The zone offset in seconds. *)
Definition zone (s : string) : option (Z * string) :=
  match s with
  | String "Z" t => Some (0, t)
  | String sign t =>
      '(hr, t) ← getnum t true;
      t ← skip ":" t;
      '(mm, t) ← getnum t true;
      if negb (in_range 0 24 hr && in_range 0 60 mm) then None else
      let offset := (hr * 60 + mm) * 60 in
      if sign ≡? "+"%char then Some (offset, t) else if sign ≡? "-"%char then Some (- offset, t) else None
  | EmptyString => None
  end.

Definition isLeap (y : Z) : bool := (y mod 4 =? 0) && (negb (y mod 100 =? 0) || (y mod 400 =? 0)).

Definition daysIn (m y : Z) : Z :=
  if m =? 2 then (if isLeap y then 29 else 28)
  else if (m =? 4) || (m =? 6) || (m =? 9) || (m =? 11) then 30 else 31.

(** The day number of a civil date, by eras of 400 years that begin in March. *)
Definition days_from_civil (y m d : Z) : Z :=
  let y := if m <=? 2 then y - 1 else y in
  let era := y / 400 in
  let yoe := y mod 400 in
  let mp := if m <=? 2 then m + 9 else m - 3 in
  let doy := (153 * mp + 2) / 5 + d - 1 in
  let doe := yoe * 365 + yoe / 4 - yoe / 100 + doy in
  era * 146097 + doe - 719468.

Definition ParseRFC3339 (s : string) : option Time :=
  '(y, s) ← getyear s;
  s ← skip "-" s;
  '(mo, s) ← getnum s true;
  s ← skip "-" s;
  '(d, s) ← getnum s true;
  s ← skip "T" s;
  '(hh, s) ← getnum s false;
  s ← skip ":" s;
  '(mi, s) ← getnum s true;
  s ← skip ":" s;
  '(ss, s) ← getnum s true;
  let '(ns, s) := fractional_seconds s in
  '(offset, s) ← zone s;
  if negb (s ≡? "") then None else
  if negb (in_range 1 12 mo && in_range 1 (daysIn mo y) d && in_range 0 23 hh &&
           in_range 0 59 mi && in_range 0 59 ss) then None else
  Some ((days_from_civil y mo d * 86400 + hh * 3600 + mi * 60 + ss - offset) * Second + ns).

Example parse_rfc3339_zone :
  ParseRFC3339 "2024-02-29T12:34:56.5+01:00" = ParseRFC3339 "2024-02-29T11:34:56,500Z".
Proof. vm_compute. reflexivity. Qed.

Example parse_rfc3339_bad :
  ParseRFC3339 "2023-02-29T00:00:00Z" = None /\ ParseRFC3339 "2023-02-28T24:00:00Z" = None /\
  ParseRFC3339 "" = None /\ is_Some (ParseRFC3339 "2023-02-28T7:00:00Z").
Proof. vm_compute. eauto. Qed.

(** ** Printed numbers are digits *)

Fixpoint string_of_digits (ds : list Z) : string :=
  match ds with
  | [] => ""
  | d :: ds => String (ascii_of_N (Z.to_N (d + 48))) (string_of_digits ds)
  end.

Definition is_digit (d : Z) : Prop := 0 <= d <= 9.

Lemma digit_ascii d : is_digit d -> digit (ascii_of_N (Z.to_N (d + 48))) = Some d.
Proof.
  intros Hd. assert (d = 0 \/ d = 1 \/ d = 2 \/ d = 3 \/ d = 4 \/ d = 5 \/ d = 6 \/ d = 7 \/ d = 8 \/ d = 9)
    as Hcases by (unfold is_digit in Hd; lia).
  destruct Hcases as [->|[->|[->|[->|[->|[->|[->|[->|[->| ->]]]]]]]]]; reflexivity.
Qed.

Definition starts_with_digit (s : string) : bool :=
  match s with String c _ => match digit c with Some _ => true | None => false end | EmptyString => false end.

Lemma leading_digits_app ds s :
  Forall is_digit ds -> starts_with_digit s = false ->
  leading_digits (string_of_digits ds +:+ s) = (ds, s).
Proof.
  intros Hds Hs. induction Hds as [|d ds Hd Hds IH].
  - simpl. destruct s as [|c t]; [done|]. simpl in *. by destruct (digit c).
  - change (string_of_digits (d :: ds) +:+ s)
      with (String (ascii_of_N (Z.to_N (d + 48))) (string_of_digits ds +:+ s)).
    simpl. by rewrite digit_ascii, IH.
Qed.

Lemma digits_value_app ds ds' :
  digits_value (ds ++ ds') = digits_value ds * 10 ^ Z.of_nat (length ds') + digits_value ds'.
Proof.
  unfold digits_value. rewrite fold_left_app. generalize (fold_left (fun x d => x * 10 + d) ds 0) as a.
  induction ds' as [|d ds' IH] using rev_ind; intros a; simpl; [lia|].
  rewrite !fold_left_app, length_app. simpl. rewrite IH.
  replace (Z.of_nat (length ds' + 1)) with (Z.succ (Z.of_nat (length ds'))) by lia.
  rewrite Z.pow_succ_r by lia. lia.
Qed.

Lemma string_of_digits_app ds ds' :
  string_of_digits (ds ++ ds') = string_of_digits ds +:+ string_of_digits ds'.
Proof. induction ds as [|d ds IH]; [done|]. exact (f_equal (String _) IH). Qed.

Lemma string_app_assoc (a b c : string) : (a +:+ b) +:+ c = a +:+ (b +:+ c).
Proof. induction a as [|x a IH]; [done|]. exact (f_equal (String x) IH). Qed.

Lemma pretty_N_char_digit x : (x < 10)%N -> pretty_N_char x = ascii_of_N (Z.to_N (Z.of_N x + 48)).
Proof.
  intros Hx. assert (x = 0 \/ x = 1 \/ x = 2 \/ x = 3 \/ x = 4 \/ x = 5 \/ x = 6 \/ x = 7 \/ x = 8 \/ x = 9)%N
    as Hcases by lia.
  destruct Hcases as [->|[->|[->|[->|[->|[->|[->|[->|[->| ->]]]]]]]]]; reflexivity.
Qed.

Lemma pretty_N_go_digits x s :
  exists ds, pretty_N_go x s = string_of_digits ds +:+ s /\ Forall is_digit ds /\
    digits_value ds = Z.of_N x /\ (ds = [] -> x = 0%N).
Proof.
  revert s. induction x as [x IH] using (well_founded_induction N.lt_wf_0); intros s.
  destruct (decide (x = 0)%N) as [->|Hx].
  { exists []. by rewrite pretty_N_go_0. }
  rewrite pretty_N_go_step by lia.
  destruct (IH (x `div` 10)%N ltac:(apply N.div_lt; lia) (String (pretty_N_char (x `mod` 10)) s))
    as (ds & -> & Hds & Hv & _).
  pose proof (N.mod_lt x 10 ltac:(lia)) as Hm.
  exists (ds ++ [Z.of_N (x `mod` 10)]). rewrite string_of_digits_app, string_app_assoc. simpl.
  rewrite pretty_N_char_digit by lia. split; [done|]. split.
  { apply Forall_app. split; [done|]. constructor; [|constructor].
    revert Hm. generalize (x `mod` 10)%N. unfold is_digit. lia. }
  split; [|by destruct ds].
  rewrite digits_value_app, Hv. change (digits_value [?d]) with (0 * 10 + d). simpl length.
  change (10 ^ Z.of_nat 1) with 10. rewrite N2Z.inj_div, N2Z.inj_mod.
  pose proof (Z.div_mod (Z.of_N x) 10 ltac:(lia)). lia.
Qed.

(** The decimal digits of a non-negative number. *)
Lemma pretty_digits n :
  0 <= n -> exists ds, pretty n = string_of_digits ds /\ Forall is_digit ds /\
    digits_value ds = n /\ ds <> [].
Proof.
  intros Hn. destruct n as [|p|p]; [| |lia].
  { exists [0]. repeat split; [|done]. constructor; [unfold is_digit; lia|constructor]. }
  change (pretty (Z.pos p)) with (pretty_N_go (N.pos p) "").
  destruct (pretty_N_go_digits (N.pos p) "") as (ds & -> & Hds & Hv & Hne).
  exists ds. split; [|split; [done|split; [done|intros ->; by specialize (Hne eq_refl)]]].
  rewrite <- (app_nil_r ds) at 2. rewrite string_of_digits_app. done.
Qed.

Lemma starts_digits ds s : Forall is_digit ds -> ds <> [] -> starts_with_digit (string_of_digits ds +:+ s) = true.
Proof. intros Hds Hne. destruct Hds as [|d ds Hd Hds]; [done|]. simpl. by rewrite digit_ascii. Qed.

(** ** Round trips *)

Lemma pretty_neg n : n < 0 -> pretty n = String "-" (pretty (- n)).
Proof. intros Hn. destruct n as [|p|p]; [lia|lia|]. reflexivity. Qed.

Lemma split_sign_digits ds s : Forall is_digit ds -> ds <> [] ->
  split_sign (string_of_digits ds +:+ s) = (false, string_of_digits ds +:+ s).
Proof.
  intros Hds Hne. destruct Hds as [|d ds Hd Hds]; [done|].
  assert (d = 0 \/ d = 1 \/ d = 2 \/ d = 3 \/ d = 4 \/ d = 5 \/ d = 6 \/ d = 7 \/ d = 8 \/ d = 9)
    as Hcases by (unfold is_digit in Hd; lia).
  destruct Hcases as [->|[->|[->|[->|[->|[->|[->|[->|[->| ->]]]]]]]]]; reflexivity.
Qed.

Lemma string_app_nil_r (s : string) : s +:+ "" = s.
Proof. induction s as [|c s IH]; [done|]. exact (f_equal (String c) IH). Qed.

(** [ParseInt] reads back what [%d] prints, for every 32-bit number. *)
Lemma ParseInt_fmt_d n : int32_min <= n <= int32_max -> ParseInt 32 (fmt_d n) = Some n.
Proof.
  unfold fmt_d, int32_min, int32_max. intros Hn. destruct (Z_lt_le_dec n 0) as [Hneg|Hpos].
  - rewrite pretty_neg by done. unfold ParseInt. simpl split_sign. cbv beta iota.
    destruct (pretty_digits (- n) ltac:(lia)) as (ds & -> & Hds & Hv & Hne).
    rewrite <- (string_app_nil_r (string_of_digits ds)), leading_digits_app by done.
    destruct ds as [|d ds]; [done|]. rewrite Hv. change (2 ^ (32 - 1)) with (2 ^ 31).
    destruct (Z.leb_spec (- n) (2 ^ 31)); [f_equal; lia|lia].
  - destruct (pretty_digits n Hpos) as (ds & -> & Hds & Hv & Hne). unfold ParseInt.
    rewrite <- (string_app_nil_r (string_of_digits ds)), split_sign_digits, leading_digits_app by done.
    destruct ds as [|d ds]; [done|]. rewrite Hv. change (2 ^ (32 - 1)) with (2 ^ 31).
    destruct (Z.ltb_spec n (2 ^ 31)); [done|lia].
Qed.

(** *** Dates *)

(** The first day of a year of an era and the number of its days. *)
Definition year_start (y : Z) : Z := 365 * y + y / 4 - y / 100.
Definition year_days (y : Z) : Z := if isLeap (y + 1) then 366 else 365.

(** The year of a day of an era, as [civil_from_days] computes it. *)
Definition year_of_day (doe : Z) : Z := (doe - doe / 1460 + doe / 36524 - doe / 146096) / 365.

Lemma shrunk_day_step x : 0 <= x < 146096 ->
  x - x / 1460 + x / 36524 - x / 146096 <=
  (x + 1) - (x + 1) / 1460 + (x + 1) / 36524 - (x + 1) / 146096.
Proof.
  intros Hx. assert (x / 146096 = 0) as -> by (apply Z.div_small; lia).
  assert ((x + 1) / 1460 <= x / 1460 + 1).
  { pose proof (Z.mod_pos_bound x 1460 ltac:(lia)). pose proof (Z.div_mod x 1460 ltac:(lia)).
    apply Z.lt_succ_r, Z.div_lt_upper_bound; lia. }
  assert (x / 36524 <= (x + 1) / 36524) by (apply Z.div_le_mono; lia).
  destruct (decide (x + 1 = 146096)) as [He|Hne].
  - rewrite He. assert (x = 146095) as -> by lia. vm_compute. discriminate.
  - assert ((x + 1) / 146096 = 0) as -> by (apply Z.div_small; lia). lia.
Qed.

Lemma year_of_day_mono a b : 0 <= a <= b -> b < 146097 -> year_of_day a <= year_of_day b.
Proof.
  intros [Ha Hab] Hb. apply Z.div_le_mono; [lia|].
  assert (Hk : forall k, 0 <= k -> a + k < 146097 ->
    a - a / 1460 + a / 36524 - a / 146096 <=
    (a + k) - (a + k) / 1460 + (a + k) / 36524 - (a + k) / 146096).
  { intros k Hk. pattern k. apply natlike_ind; [| |done].
    - intros. replace (a + 0) with a by lia. lia.
    - intros i Hi IH Hai. specialize (IH ltac:(lia)). etrans; [exact IH|].
      replace (a + Z.succ i) with (a + i + 1) by lia. apply shrunk_day_step. lia. }
  specialize (Hk (b - a) ltac:(lia) ltac:(lia)). by replace (a + (b - a)) with b in Hk by lia.
Qed.

Definition check_year (y : Z) : bool :=
  (year_of_day (year_start y) =? y) && (year_of_day (year_start y + year_days y - 1) =? y) &&
  ((y =? 399) || (year_start (y + 1) =? year_start y + year_days y)).

Lemma forall_below p n k : forallb p (seqZ 0 n) = true -> 0 <= k < n -> p k = true.
Proof. rewrite forallb_forall. intros Hall Hk. apply Hall, list_elem_of_In, elem_of_seqZ. lia. Qed.

Lemma year_bounds y : 0 <= y < 400 ->
  year_of_day (year_start y) = y /\ year_of_day (year_start y + year_days y - 1) = y /\
  (y <> 399 -> year_start (y + 1) = year_start y + year_days y).
Proof.
  intros Hy. assert (Hall : forallb check_year (seqZ 0 400) = true) by (vm_compute; reflexivity).
  pose proof (forall_below _ _ y Hall Hy) as Hc. unfold check_year in Hc.
  rewrite !andb_true_iff, orb_true_iff, !Z.eqb_eq in Hc. destruct Hc as ((Hs & He) & [Hl|Hl]); (split; [exact Hs|split; [exact He|intros Hne]]);
    [by destruct Hne|exact Hl].
Qed.

(** Every day of an era lies in its year. *)
Lemma day_in_year doe : 0 <= doe < 146097 ->
  let y := year_of_day doe in 0 <= y < 400 /\ 0 <= doe - year_start y < year_days y.
Proof.
  intros Hd y.
  assert (0 <= y < 400) as Hy.
  { pose proof (year_of_day_mono 0 doe ltac:(lia) ltac:(lia)) as H0.
    pose proof (year_of_day_mono doe 146096 ltac:(lia) ltac:(lia)) as H1.
    change (year_of_day 0) with 0 in H0. change (year_of_day 146096) with 399 in H1. unfold y. lia. }
  split; [done|]. destruct (year_bounds y Hy) as (Hs & He & Hn).
  assert (0 <= year_start y) by (unfold year_start; pose proof (Z.div_le_mono (y * 25) (y * 100) 100); pose proof (Z.div_pos y 4); pose proof (Z.div_le_upper_bound y 100 y); lia).
  split.
  - destruct (Z_lt_le_dec doe (year_start y)) as [Hlt|]; [|lia]. exfalso.
    destruct (decide (y = 0)) as [E|E]; [rewrite E in Hlt; change (year_start 0) with 0 in Hlt; lia|].
    destruct (year_bounds (y - 1) ltac:(lia)) as (_ & He' & Hn').
    specialize (Hn' ltac:(lia)). replace (y - 1 + 1) with y in Hn' by lia.
    assert (year_start y < 146097).
    { destruct (Z_lt_le_dec (year_start y) 146097); [done|].
      assert (year_start y <= 365 * 399 + 399 / 4) by (unfold year_start; pose proof (Z.div_le_mono y 399 4); pose proof (Z.div_pos y 100); lia).
      change (399 / 4) with 99 in *. lia. }
    pose proof (year_of_day_mono doe (year_start y - 1) ltac:(lia) ltac:(lia)) as Hm.
    replace (year_start y - 1) with (year_start (y - 1) + year_days (y - 1) - 1) in Hm by lia.
    rewrite He' in Hm. fold y in Hm. lia.
  - destruct (Z_lt_le_dec doe (year_start y + year_days y)) as [|Hge]; [lia|]. exfalso.
    destruct (decide (y = 399)) as [E|E].
    { rewrite E in Hge. change (year_start 399 + year_days 399) with 146097 in Hge. lia. }
    specialize (Hn E). destruct (year_bounds (y + 1) ltac:(lia)) as (Hs' & _).
    assert (0 < year_days y) by (unfold year_days; destruct (isLeap _); lia).
    pose proof (year_of_day_mono (year_start (y + 1)) doe ltac:(lia) ltac:(lia)) as Hm.
    rewrite Hs' in Hm. fold y in Hm. lia.
Qed.

Definition month_index (doy : Z) : Z := (5 * doy + 2) / 153.

(** What the days of a year have to satisfy: month, day and length of the
    month, February taken with 29 days. *)
Definition check_doy (doy : Z) : bool :=
  let mp := month_index doy in
  let d := doy - (153 * mp + 2) / 5 + 1 in
  let m := if mp <? 10 then mp + 3 else mp - 9 in
  in_range 1 12 m && in_range 1 (daysIn m 0) d && (mp =? (if m <=? 2 then m + 9 else m - 3)) &&
  Bool.eqb (m <=? 2) (306 <=? doy) && ((doy =? 365) || negb ((m =? 2) && (d =? 29))).

Lemma doy_bounds doy : 0 <= doy < 366 -> check_doy doy = true.
Proof.
  intros Hd. assert (Hall : forallb check_doy (seqZ 0 366) = true) by (vm_compute; reflexivity).
  exact (forall_below _ _ doy Hall Hd).
Qed.

Definition check_day (doe : Z) : Prop :=
  let '(y, m, d) := civil_from_days (doe - 719468) in
  0 <= y /\ (if doe <=? 146036 then y <= 399 else y = 400) /\ 1 <= m <= 12 /\
  1 <= d <= daysIn m y /\ days_from_civil y m d = doe - 719468.

Lemma days_of_era doe : 0 <= doe < 146097 -> check_day doe.
Proof.
  intros Hd. destruct (day_in_year doe Hd) as [Hy Hdoy]. unfold check_day, civil_from_days.
  replace (doe - 719468 + 719468) with doe by lia.
  assert (doe / 146097 = 0) as -> by (apply Z.div_small; lia).
  assert (doe mod 146097 = doe) as -> by (apply Z.mod_small; lia). cbv zeta.
  fold (year_of_day doe). set (yoe := year_of_day doe) in *. fold (year_start yoe).
  set (doy := doe - year_start yoe) in *. fold (month_index doy).
  assert (Hlen : year_days yoe <= 366) by (unfold year_days; destruct (isLeap _); lia).
  pose proof (doy_bounds doy ltac:(lia)) as Hc. unfold check_doy in Hc. cbv zeta in Hc.
  set (mp := month_index doy) in *. set (m := if mp <? 10 then mp + 3 else mp - 9) in *.
  set (d := doy - (153 * mp + 2) / 5 + 1) in *. unfold in_range in Hc.
  rewrite !andb_true_iff, !Z.leb_le, Z.eqb_eq, eqb_true_iff in Hc.
  destruct Hc as ((((Hm & Hdd) & Hmp) & Hm2) & H29).
  replace (yoe + 0 * 400) with yoe by lia.
  assert (Hdm : d <= daysIn m (if m <=? 2 then yoe + 1 else yoe)).
  { clearbody m d. unfold daysIn in *. destruct (Z.eqb_spec m 2) as [->|E2]; [|apply Hdd].
    simpl (2 <=? 2) in *. change (d <= if isLeap (yoe + 1) then 29 else 28).
    change (1 <= d <= 29) in Hdd. unfold year_days in Hdoy. destruct (isLeap (yoe + 1)); [lia|].
    destruct (Z.eqb_spec doy 365); [lia|]. destruct (Z.eqb_spec d 29); [done|lia]. }
  split_and!; [destruct (m <=? 2); lia| |lia|lia|lia|done|].
  - assert (year_start 399 = 145731) by reflexivity.
    destruct (Z.leb_spec doe 146036).
    + destruct (m <=? 2) eqn:Em; [|lia]. symmetry in Hm2. apply Z.leb_le in Hm2.
      assert (yoe <> 399) by (intros E; unfold doy in Hm2; rewrite E in Hm2; lia). lia.
    + assert (yoe = 399) as E.
      { pose proof (year_of_day_mono 146037 doe ltac:(lia) ltac:(lia)) as Hmono.
        change (year_of_day 146037) with 399 in Hmono. fold yoe in Hmono. lia. }
      assert (Hle : (306 <=? doy) = true) by (apply Z.leb_le; unfold doy; rewrite E; lia).
      rewrite Hm2, Hle. lia.
  - unfold days_from_civil. cbv zeta. rewrite <- Hmp.
    replace (if m <=? 2 then (if m <=? 2 then yoe + 1 else yoe) - 1 else if m <=? 2 then yoe + 1 else yoe)
      with yoe by (destruct (m <=? 2); lia).
    assert (yoe / 400 = 0) as -> by (apply Z.div_small; lia).
    assert (yoe mod 400 = yoe) as -> by (apply Z.mod_small; lia).
    unfold d, doy, year_start. lia.
Qed.

Lemma civil_from_days_shift days era :
  civil_from_days (days + era * 146097) =
  let '(y, m, d) := civil_from_days days in (y + era * 400, m, d).
Proof.
  unfold civil_from_days.
  replace (days + era * 146097 + 719468) with (days + 719468 + era * 146097) by lia.
  rewrite Z.div_add, Z.mod_add by lia. cbv zeta.
  destruct (_ <=? 2); f_equal; f_equal; lia.
Qed.

Lemma days_from_civil_shift y m d era :
  days_from_civil (y + era * 400) m d = days_from_civil y m d + era * 146097.
Proof.
  unfold days_from_civil. cbv zeta.
  replace (if m <=? 2 then y + era * 400 - 1 else y + era * 400)
    with ((if m <=? 2 then y - 1 else y) + era * 400) by (destruct (m <=? 2); lia).
  rewrite Z.div_add, Z.mod_add by lia. lia.
Qed.

Lemma daysIn_shift m y era : daysIn m (y + era * 400) = daysIn m y.
Proof.
  unfold daysIn, isLeap. rewrite Z.mod_add by lia.
  replace (y + era * 400) with (y + era * 4 * 100) by lia. rewrite Z.mod_add by lia.
  replace (y + era * 4 * 100) with (y + era * 100 * 4) by lia. by rewrite Z.mod_add by lia.
Qed.

(** A civil date is valid and determines its day; days of the years 0 to 9999
    have a year in that range. *)
Lemma civil_roundtrip days :
  let '(y, m, d) := civil_from_days days in
  1 <= m <= 12 /\ 1 <= d <= daysIn m y /\ days_from_civil y m d = days /\
  (-719528 <= days <= 2932896 -> 0 <= y <= 9999).
Proof.
  set (era := (days + 719468) / 146097). set (doe := (days + 719468) mod 146097).
  assert (Hdoe : 0 <= doe < 146097) by (apply Z.mod_pos_bound; lia).
  assert (Hd : days = doe - 719468 + era * 146097)
    by (pose proof (Z.div_mod (days + 719468) 146097 ltac:(lia)); lia).
  clearbody era doe. rewrite Hd, civil_from_days_shift.
  pose proof (days_of_era doe Hdoe) as Hc. unfold check_day in Hc.
  destruct (civil_from_days (doe - 719468)) as [[y m] d].
  destruct Hc as (Hy & Hy' & Hm & Hd1 & He).
  rewrite daysIn_shift, days_from_civil_shift. split_and!; [lia..|].
  intros Hr. destruct (Z.leb_spec doe 146036); lia.
Qed.

(** *** Padded numbers *)

Lemma pretty_N_go_app x s : pretty_N_go x s = pretty_N_go x "" +:+ s.
Proof.
  revert s. induction x as [x IH] using (well_founded_induction N.lt_wf_0); intros s.
  destruct (decide (x = 0)%N) as [->|Hx]; [by rewrite !pretty_N_go_0|].
  rewrite !(pretty_N_go_step x) by lia. assert (x `div` 10 < x)%N by (apply N.div_lt; lia).
  rewrite IH by done. rewrite (IH _ ltac:(done) (String _ "")), string_app_assoc. done.
Qed.

Lemma pretty_digit n : 0 <= n < 10 -> pretty n = string_of_digits [n].
Proof.
  intros Hn. assert (Hk : (Z.to_nat n < 10)%nat) by lia. rewrite <- (Z2Nat.id n) by lia. revert Hk.
  generalize (Z.to_nat n). intros k Hk. do 10 (destruct k as [|k]; [reflexivity|]). lia.
Qed.

Lemma pretty_last n : 10 <= n -> pretty n = pretty (n / 10) +:+ string_of_digits [n mod 10].
Proof.
  intros Hn. assert (0 < n / 10) by (apply Z.div_str_pos; lia).
  pose proof (Z.mod_pos_bound n 10 ltac:(lia)) as Hm.
  destruct n as [|p|p]; [lia| |lia]. change (pretty (Z.pos p)) with (pretty_N_go (N.pos p) "").
  rewrite pretty_N_go_step by lia. rewrite pretty_N_go_app.
  assert (E : Z.pos p / 10 = Z.of_N (N.pos p `div` 10)) by (by rewrite N2Z.inj_div).
  assert (E' : Z.pos p mod 10 = Z.of_N (N.pos p `mod` 10)) by (by rewrite N2Z.inj_mod).
  rewrite pretty_N_char_digit by (apply N.mod_lt; lia). rewrite E, E'.
  destruct (N.pos p `div` 10)%N; [simpl in E; lia|]. done.
Qed.

Lemma pad2_digits n : 0 <= n < 100 -> pad2 n = string_of_digits [n / 10; n mod 10].
Proof.
  intros Hn. unfold pad2. destruct (Z.ltb_spec n 10).
  - rewrite pretty_digit, Z.div_small, Z.mod_small by lia. done.
  - assert (0 <= n / 10 < 10) by (split; [apply Z.div_pos|apply Z.div_lt_upper_bound]; lia).
    rewrite pretty_last, pretty_digit by lia. done.
Qed.

Lemma pad4_digits n : 0 <= n <= 9999 ->
  pad4 n = string_of_digits [n / 10 / 10 / 10; n / 10 / 10 mod 10; n / 10 mod 10; n mod 10].
Proof.
  intros Hn. unfold pad4.
  assert (0 <= n / 10 <= 999) by (split; [apply Z.div_pos|apply Z.lt_succ_r, Z.div_lt_upper_bound]; lia).
  assert (0 <= n / 10 / 10 <= 99) by (split; [apply Z.div_pos|apply Z.lt_succ_r, Z.div_lt_upper_bound]; lia).
  assert (0 <= n / 10 / 10 / 10 < 10) by (split; [apply Z.div_pos|apply Z.div_lt_upper_bound]; lia).
  destruct (Z.ltb_spec n 10); [|destruct (Z.ltb_spec n 100); [|destruct (Z.ltb_spec n 1000)]].
  - rewrite (pretty_digit n), (Z.div_small n), (Z.mod_small n) by lia. done.
  - assert (1 <= n / 10 < 10) by (split; [apply Z.div_le_lower_bound|apply Z.div_lt_upper_bound]; lia).
    rewrite (pretty_last n), (pretty_digit (n / 10)), (Z.div_small (n / 10)), (Z.mod_small (n / 10)) by lia. done.
  - assert (10 <= n / 10 < 100) by (split; [apply Z.div_le_lower_bound|apply Z.div_lt_upper_bound]; lia).
    assert (1 <= n / 10 / 10 < 10) by (split; [apply Z.div_le_lower_bound|apply Z.div_lt_upper_bound]; lia).
    rewrite (pretty_last n), (pretty_last (n / 10)), (pretty_digit (n / 10 / 10)),
      (Z.div_small (n / 10 / 10)), (Z.mod_small (n / 10 / 10)) by lia. done.
  - assert (100 <= n / 10) by (apply Z.div_le_lower_bound; lia).
    assert (10 <= n / 10 / 10) by (apply Z.div_le_lower_bound; lia).
    rewrite (pretty_last n), (pretty_last (n / 10)), (pretty_last (n / 10 / 10)),
      (pretty_digit (n / 10 / 10 / 10)) by lia. done.
Qed.

Lemma string_of_digits_cons d ds s :
  string_of_digits (d :: ds) +:+ s = String (ascii_of_N (Z.to_N (d + 48))) (string_of_digits ds +:+ s).
Proof. done. Qed.

Lemma getnum_pad2 n s fixed : 0 <= n < 100 -> getnum (pad2 n +:+ s) fixed = Some (n, s).
Proof.
  intros Hn. rewrite pad2_digits, !string_of_digits_cons by done. simpl.
  pose proof (Z.div_mod n 10 ltac:(lia)). pose proof (Z.mod_pos_bound n 10 ltac:(lia)).
  assert (0 <= n / 10 < 10) by (split; [apply Z.div_pos|apply Z.div_lt_upper_bound]; lia).
  rewrite !digit_ascii by (unfold is_digit; lia). do 2 f_equal. lia.
Qed.

Lemma getyear_pad4 n s : 0 <= n <= 9999 -> getyear (pad4 n +:+ s) = Some (n, s).
Proof.
  intros Hn. rewrite pad4_digits by done.
  assert (Hds : Forall is_digit [n / 10 / 10 / 10; n / 10 / 10 mod 10; n / 10 mod 10; n mod 10]).
  { assert (0 <= n / 10 / 10 / 10 < 10).
    { split; [repeat apply Z.div_pos; lia|]. repeat (apply Z.div_lt_upper_bound; [lia|]). lia. }
    pose proof (Z.mod_pos_bound (n / 10 / 10) 10). pose proof (Z.mod_pos_bound (n / 10) 10).
    pose proof (Z.mod_pos_bound n 10). repeat constructor; unfold is_digit; lia. }
  assert (Hv : digits_value [n / 10 / 10 / 10; n / 10 / 10 mod 10; n / 10 mod 10; n mod 10] = n).
  { unfold digits_value. simpl fold_left. pose proof (Z.div_mod n 10). pose proof (Z.div_mod (n / 10) 10).
    pose proof (Z.div_mod (n / 10 / 10) 10). lia. }
  unfold getyear. pose proof (leading_digits_app _ "" Hds eq_refl) as Hl.
  rewrite string_app_nil_r in Hl.
  replace (str_take 4 (string_of_digits [n / 10 / 10 / 10; n / 10 / 10 mod 10; n / 10 mod 10; n mod 10] +:+ s))
    with (string_of_digits [n / 10 / 10 / 10; n / 10 / 10 mod 10; n / 10 mod 10; n mod 10]) by done.
  rewrite Hl. simpl length. cbv iota beta. simpl Nat.eqb. cbv iota. rewrite Hv. by do 2 f_equal.
Qed.

Lemma string_nil_app (s : string) : "" +:+ s = s.
Proof. done. Qed.

Lemma bind_skip {A} c s (f : string -> option A) : (skip c (String c "" +:+ s) ≫= f) = f s.
Proof. simpl. by rewrite bool_decide_true. Qed.

Lemma bind_Some_pair {A B C} (a : A) (b : B) (f : A * B -> option C) : (Some (a, b) ≫= f) = f (a, b).
Proof. done. Qed.

(** Instants of the years 0 to 9999, the ones the layout prints in four
    digits. *)
Definition printable (t : Time) : Prop := - 62167219200 * Second <= t < 253402300800 * Second.

(** [time.Parse] reads back what [Format] prints, to the second. *)
Lemma ParseRFC3339_Format t :
  printable t -> ParseRFC3339 (FormatRFC3339 t) = Some (t / Second * Second).
Proof.
  intros Ht. unfold FormatRFC3339. cbv zeta. set (secs := t / Second).
  assert (Hs : - 62167219200 <= secs < 253402300800).
  { unfold printable, Second in *. split; [apply Z.div_le_lower_bound|apply Z.div_lt_upper_bound]; lia. }
  assert (Hdays : -719528 <= secs / 86400 <= 2932896).
  { split; [apply Z.div_le_lower_bound|apply Z.lt_succ_r, Z.div_lt_upper_bound]; lia. }
  pose proof (civil_roundtrip (secs / 86400)) as Hc.
  destruct (civil_from_days (secs / 86400)) as [[y mo] d]. destruct Hc as (Hmo & Hd & Hday & Hy).
  specialize (Hy Hdays). set (s := secs mod 86400).
  assert (0 <= s < 86400) by (apply Z.mod_pos_bound; lia).
  assert (0 <= s / 3600 < 24) by (split; [apply Z.div_pos|apply Z.div_lt_upper_bound]; lia).
  assert (0 <= s / 60 mod 60 < 60) by (apply Z.mod_pos_bound; lia).
  assert (0 <= s mod 60 < 60) by (apply Z.mod_pos_bound; lia).
  assert (daysIn mo y <= 31).
  { unfold daysIn. destruct (mo =? 2); [destruct (isLeap y); lia|]. destruct (_ || _); lia. }
  unfold ParseRFC3339. rewrite getyear_pad4, bind_Some_pair, bind_skip by lia.
  do 5 (rewrite getnum_pad2, bind_Some_pair, ?bind_skip by lia).
  change (fractional_seconds "Z") with (0, "Z"). cbv iota beta.
  change (zone "Z") with (Some (0, "")). rewrite bind_Some_pair. cbv iota beta.
  change (negb ("" ≡? "")) with false. cbv iota.
  unfold in_range. rewrite !(proj2 (Z.leb_le _ _)) by lia. simpl. f_equal.
  rewrite Hday. f_equal. rewrite Z.add_0_r. f_equal.
  pose proof (Z.div_mod secs 86400 ltac:(lia)) as Hsecs. pose proof (Z.div_mod s 60 ltac:(lia)).
  pose proof (Z.div_mod (s / 60) 60 ltac:(lia)).
  assert (s / 60 / 60 = s / 3600) by (rewrite Z.div_div by lia; done).
  fold s in Hsecs. lia.
Qed.

(** *** Exact [float64] computations *)

(** [x] is exactly the positive integer [n]. *)
Definition exactly (x : float64) (n : Z) : Prop := x.2 <= 0 /\ x.1 = n * 2 ^ (- x.2).

Lemma round_half_even_exact q b : 0 < b -> round_half_even (q * b) b = q.
Proof.
  intros Hb. unfold round_half_even. rewrite Z.div_mul, Z.mod_mul by lia.
  destruct (Z.compare_spec (2 * 0) b); [lia|done|lia].
Qed.

Lemma round53_exact n d N j k :
  0 < N < 2 ^ 53 -> 0 < d -> 0 <= j -> 0 <= k -> n * 2 ^ j = N * 2 ^ k * d ->
  exists e, e <= k - j /\ round53 n d = (N * 2 ^ (k - j - e), e).
Proof.
  intros HN Hd Hj Hk Hn.
  assert (0 < 2 ^ j) by (apply Z.pow_pos_nonneg; lia). assert (0 < 2 ^ k) by (apply Z.pow_pos_nonneg; lia).
  assert (Hnpos : 0 < n) by nia.
  unfold round53. destruct (Z.leb_spec n 0); [lia|].
  set (e0 := Z.log2 n - Z.log2 d - 52).
  assert (Hscaled : forall e, e <= k - j ->
    exists b, 0 < b /\ scaled n d e = (N * 2 ^ (k - j - e) * b, b)).
  { intros e He. unfold scaled. destruct (Z.leb_spec 0 e).
    - exists (d * 2 ^ e). assert (0 < 2 ^ e) by (apply Z.pow_pos_nonneg; lia). split; [nia|]. f_equal.
      apply (Z.mul_reg_r _ _ (2 ^ j)); [lia|]. rewrite Hn.
      replace k with (k - j - e + e + j) at 1 by lia. rewrite !Z.pow_add_r by lia. ring.
    - exists d. split; [done|]. f_equal. apply (Z.mul_reg_r _ _ (2 ^ j)); [lia|].
      replace (n * 2 ^ (- e) * 2 ^ j) with (n * 2 ^ j * 2 ^ (- e)) by ring. rewrite Hn.
      replace (N * 2 ^ k * d * 2 ^ (- e)) with (N * (2 ^ k * 2 ^ (- e)) * d) by ring.
      replace (N * 2 ^ (k - j - e) * d * 2 ^ j) with (N * (2 ^ (k - j - e) * 2 ^ j) * d) by ring.
      rewrite <- !Z.pow_add_r by lia. do 3 f_equal. lia. }
  assert (He0 : e0 <= k - j + 1).
  { assert (Hl : Z.log2 n + j = k + Z.log2 (N * d)).
    { pose proof (Z.log2_mul_pow2 n j Hnpos Hj) as Hl. rewrite Hn in Hl.
      replace (N * 2 ^ k * d) with (N * d * 2 ^ k) in Hl by ring.
      rewrite Z.log2_mul_pow2 in Hl by nia. lia. }
    pose proof (Z.log2_mul_above N d ltac:(lia) ltac:(lia)).
    assert (Z.log2 N <= 52) by (apply Z.lt_succ_r, Z.log2_lt_pow2; lia). unfold e0. lia. }
  assert (Hfin : forall e, e <= k - j -> (let '(a, b) := scaled n d e in (round_half_even a b, e)) = (N * 2 ^ (k - j - e), e)).
  { intros e He. destruct (Hscaled e He) as (b & Hb & ->). by rewrite round_half_even_exact. }
  destruct (scaled n d e0) as [a b] eqn:Es.
  destruct (Z_lt_le_dec (k - j) e0) as [Hgt|Hle].
  - assert (He : e0 = k - j + 1) by lia. assert (Hab : 2 * a = N * b /\ 0 < b).
    { unfold scaled in Es. destruct (Z.leb_spec 0 e0); injection Es as <- <-.
      - assert (0 < 2 ^ e0) by (apply Z.pow_pos_nonneg; lia). split; [|nia].
        apply (Z.mul_reg_r _ _ (2 ^ j)); [lia|]. replace (2 * n * 2 ^ j) with (2 * (n * 2 ^ j)) by ring.
        rewrite Hn. replace (N * (d * 2 ^ e0) * 2 ^ j) with (N * d * (2 ^ e0 * 2 ^ j)) by ring.
        rewrite <- Z.pow_add_r by lia. replace (e0 + j) with (Z.succ k) by lia. rewrite Z.pow_succ_r by lia. ring.
      - split; [|done]. apply (Z.mul_reg_r _ _ (2 ^ j)); [lia|].
        replace (2 * (n * 2 ^ (- e0)) * 2 ^ j) with (2 * (n * 2 ^ j) * 2 ^ (- e0)) by ring. rewrite Hn.
        replace (2 * (N * 2 ^ k * d) * 2 ^ (- e0)) with (N * d * (2 * 2 ^ k * 2 ^ (- e0))) by ring.
        rewrite <- Z.pow_succ_r, <- Z.pow_add_r by lia. replace (Z.succ k + - e0) with j by lia. ring. }
    assert (Hlt : a / b < 2 ^ 52) by (apply Z.div_lt_upper_bound; nia).
    destruct (Z.ltb_spec (a / b) (2 ^ 52)); [|lia]. exists (e0 - 1). split; [lia|]. apply Hfin. lia.
  - destruct (a / b <? 2 ^ 52); [exists (e0 - 1)|exists e0]; (split; [lia|]); apply Hfin; lia.
Qed.

Lemma float_of_Z_exact n : 0 < n < 2 ^ 53 -> exactly (float_of_Z n) n.
Proof.
  intros Hn. destruct (round53_exact n 1 n 0 0 Hn) as (e & He & Hr); [lia..|].
  unfold float_of_Z, exactly. rewrite Hr. simpl. split; [lia|]. do 2 f_equal; lia.
Qed.

Lemma float_div_exact x y j n :
  exactly x (j * n) -> exactly y n -> 0 < n -> 0 < j < 2 ^ 53 -> exactly (float_div x y) j.
Proof.
  destruct x as [m1 e1], y as [m2 e2]. unfold exactly; simpl. intros [He1 ->] [He2 ->] Hn Hj.
  assert (0 < 2 ^ (- e2)) by (apply Z.pow_pos_nonneg; lia).
  destruct (round53_exact (j * n * 2 ^ (- e1)) (n * 2 ^ (- e2)) j (- e2) (- e1) Hj) as (e & He & ->);
    [nia|lia|lia|ring|]. simpl. split; [lia|]. do 2 f_equal. lia.
Qed.

Lemma float_mul_exact x y a b :
  exactly x a -> exactly y b -> 0 < a * b < 2 ^ 53 -> exactly (float_mul x y) (a * b).
Proof.
  destruct x as [m1 e1], y as [m2 e2]. unfold exactly; simpl. intros [He1 ->] [He2 ->] Hab.
  destruct (round53_exact (a * 2 ^ (- e1) * (b * 2 ^ (- e2))) 1 (a * b) 0 (- e1 + - e2) Hab) as (e & He & ->);
    [lia..| |].
  - rewrite Z.pow_add_r by lia. ring.
  - simpl. split; [lia|]. do 2 f_equal. lia.
Qed.

Lemma float64_trunc_exact x n : exactly x n -> float64_trunc x = n.
Proof.
  destruct x as [m e]. unfold exactly; simpl. intros [He ->]. destruct (Z.leb_spec 0 e).
  - replace e with 0 by lia. simpl. lia.
  - apply Z.div_mul. pose proof (Z.pow_pos_nonneg 2 (- e)). lia.
Qed.

(** The fraction of a unit that its scale divides is computed exactly. *)
Lemma duration_fraction_exact x scale k o :
  0 < x < 2 ^ 30 -> 0 < scale < 2 ^ 53 -> 0 < k <= 10 ^ 9 -> k * scale < 2 ^ 53 -> x * k < 2 ^ 53 ->
  duration_fraction (mkFraction x scale o) (k * scale) = x * k.
Proof.
  intros. unfold duration_fraction. simpl. apply float64_trunc_exact, float_mul_exact; [| |nia].
  - apply float_of_Z_exact. lia.
  - apply (float_div_exact _ _ _ scale); [| |lia|lia]; apply float_of_Z_exact; nia.
Qed.

(** *** Durations *)

Lemma leading_digits_length s : (String.length (leading_digits s).2 <= String.length s)%nat.
Proof.
  induction s as [|c s IH]; simpl; [lia|]. destruct (digit c); simpl; [|lia].
  destruct (leading_digits s); simpl in *; lia.
Qed.

Lemma leadingInt_rest s v r : leadingInt s = Some (v, r) -> r = (leading_digits s).2.
Proof.
  unfold leadingInt. destruct (leading_digits s) as [ds rest]; simpl.
  assert (Hn : forall (f : option (Z * string) -> Z -> option (Z * string)) l,
    (forall d, f None d = None) -> fold_left f l None = None).
  { intros f l Hf. induction l as [|d l IH]; simpl; [done|]. by rewrite Hf. }
  generalize 0 as x. induction ds as [|d ds IH]; intros x; simpl; [by intros [= _ <-]|].
  destruct (_ <? x); [by rewrite Hn|]. destruct (_ <? x * 10 + d); [by rewrite Hn|]. apply IH.
Qed.

Lemma leading_unit_length s :
  (String.length (leading_unit s).1 + String.length (leading_unit s).2 = String.length s)%nat.
Proof.
  induction s as [|c s IH]; simpl; [done|]. destruct (unit_end c); simpl; [done|].
  destruct (leading_unit s); simpl in *; lia.
Qed.

(** Every element consumes its unit at least. *)
Lemma duration_element_shorter s v r :
  duration_element s = Some (v, r) -> (String.length r < String.length s)%nat.
Proof.
  unfold duration_element. destruct s as [|c s']; [done|]. set (s := String c s').
  destruct (negb (unit_end c)); [done|]. destruct (leadingInt s) as [[x s1]|] eqn:E1; [|done].
  assert (Hs1 : (String.length s1 <= String.length s)%nat)
    by (rewrite (leadingInt_rest _ _ _ E1); apply leading_digits_length).
  set (q := match s1 with String "." _ => _ | _ => _ end). intros Hq.
  assert (Hs2 : (String.length q.2 <= String.length s1)%nat).
  { subst q. clear. destruct s1 as [|[[] [] [] [] [] [] [] []] t]; simpl; try lia.
    unfold leadingFraction. pose proof (leading_digits_length t).
    destruct (leading_digits t); simpl in *; lia. }
  destruct q as [[f post] s2]. simpl in Hs2. destruct (_ && _); [done|].
  pose proof (leading_unit_length s2) as Hu. destruct (leading_unit s2) as [u s3]. simpl in Hu.
  destruct (unitMap u) as [unit|] eqn:Eu; [|done].
  assert (u <> "") by (intros ->; done). assert (0 < String.length u)%nat by (destruct u; simpl; [done|lia]).
  destruct (_ <? x); [done|]. destruct (_ && _); [done|]. injection Hq as <- <-. lia.
Qed.

Lemma duration_elements_S f d s : duration_elements (S f) d s =
  if s ≡? "" then Some d else
  match duration_element s with
  | None => None
  | Some (v, s) =>
      let d := (d + v) mod 2 ^ 64 in if 2 ^ 63 <? d then None else duration_elements f d s
  end.
Proof. by destruct s. Qed.

(** The loop of [ParseDuration] ends: more fuel than bytes changes nothing. *)
Lemma duration_elements_fuel s d f :
  (String.length s <= f)%nat -> duration_elements f d s = duration_elements (String.length s) d s.
Proof.
  remember (String.length s) as n eqn:En. revert s d f En.
  induction n as [n IH] using (well_founded_induction lt_wf). intros s d f -> Hf.
  destruct s as [|c s]; [by destruct f|]. destruct f as [|f]; simpl in Hf; [lia|].
  simpl String.length. rewrite !duration_elements_S, bool_decide_false by done.
  destruct (duration_element (String c s)) as [[v r]|] eqn:Ee; [|done]. cbv zeta.
  destruct (_ <? _); [done|]. apply duration_element_shorter in Ee. simpl in Ee.
  rewrite (IH (String.length r)) by (simpl; lia). symmetry. apply (IH (String.length r)); simpl; lia.
Qed.

Lemma duration_elements_step s d f v r :
  (String.length s <= f)%nat -> duration_element s = Some (v, r) -> 0 <= d -> 0 <= v -> d + v <= 2 ^ 63 ->
  duration_elements f d s = duration_elements (String.length r) (d + v) r.
Proof.
  intros Hf He Hd Hv Hs. pose proof (duration_element_shorter _ _ _ He) as Hl.
  destruct f as [|f]; [lia|]. rewrite duration_elements_S, He.
  destruct (bool_decide_reflect (s = "")) as [->|]; [discriminate He|]. cbv zeta.
  rewrite Z.mod_small by lia. destruct (Z.ltb_spec (2 ^ 63) (d + v)); [lia|].
  apply duration_elements_fuel. lia.
Qed.

Lemma fold_digits_ge ds x : Forall is_digit ds -> 0 <= x -> x <= fold_left (fun x d => x * 10 + d) ds x.
Proof.
  intros Hds. revert x. induction Hds as [|d ds Hd Hds IH]; intros x Hx; simpl; [lia|].
  unfold is_digit in Hd. specialize (IH (x * 10 + d) ltac:(lia)). lia.
Qed.

Lemma leadingInt_digits ds s :
  Forall is_digit ds -> starts_with_digit s = false -> digits_value ds <= 2 ^ 63 ->
  leadingInt (string_of_digits ds +:+ s) = Some (digits_value ds, s).
Proof.
  intros Hds Hs. unfold leadingInt. rewrite leading_digits_app by done. unfold digits_value.
  assert (H0 : 0 <= 0) by lia. revert H0. generalize 0 at 2 3 4 5 as x.
  induction Hds as [|d ds Hd Hds IH]; intros x Hx Hv; simpl in *; [done|].
  unfold is_digit in Hd. pose proof (fold_digits_ge ds (x * 10 + d) Hds ltac:(lia)).
  assert (x <= 2 ^ 63 / 10) by (apply Z.div_le_lower_bound; lia).
  destruct (Z.ltb_spec (2 ^ 63 / 10) x); [lia|]. destruct (Z.ltb_spec (2 ^ 63) (x * 10 + d)); [lia|].
  apply IH; lia.
Qed.

Lemma leadingFraction_digits ds s :
  Forall is_digit ds -> starts_with_digit s = false -> (length ds <= 9)%nat ->
  leadingFraction (string_of_digits ds +:+ s) =
    (mkFraction (digits_value ds) (10 ^ Z.of_nat (length ds)) false, s).
Proof.
  intros Hds Hs Hl. unfold leadingFraction. rewrite leading_digits_app by done. f_equal.
  assert (Hgen : forall ds x n, Forall is_digit ds -> 0 <= x < 10 ^ Z.of_nat n -> (n + length ds <= 9)%nat ->
    fold_left (fun f d =>
      if fr_overflow f then f else
      if (2 ^ 63 - 1) / 10 <? fr_x f then mkFraction (fr_x f) (fr_scale f) true else
      let y := fr_x f * 10 + d in
      if 2 ^ 63 <? y then mkFraction (fr_x f) (fr_scale f) true
      else mkFraction y (fr_scale f * 10) false) ds (mkFraction x (10 ^ Z.of_nat n) false) =
    mkFraction (fold_left (fun x d => x * 10 + d) ds x) (10 ^ Z.of_nat (n + length ds)) false);
    [|exact (Hgen ds 0 0%nat Hds ltac:(simpl; lia) ltac:(lia))].
  clear. induction ds as [|d ds IH]; intros x n Hds Hx Hn; [simpl; by rewrite Nat.add_0_r|].
  inversion_clear Hds as [|? ? Hd Hds']. unfold is_digit in Hd.
  assert (10 ^ Z.of_nat n <= 10 ^ 9) by (apply Z.pow_le_mono_r; simpl in Hn; lia).
  assert (Hs : 10 ^ Z.of_nat n * 10 = 10 ^ Z.of_nat (S n)).
  { rewrite Nat2Z.inj_succ, Z.pow_succ_r by lia. lia. }
  cbn [fold_left fr_overflow fr_x fr_scale length].
  destruct (Z.ltb_spec ((2 ^ 63 - 1) / 10) x); [change ((2 ^ 63 - 1) / 10) with 922337203685477580 in *; lia|].
  cbv zeta. destruct (Z.ltb_spec (2 ^ 63) (x * 10 + d)); [lia|].
  rewrite Hs, IH; [by rewrite Nat.add_succ_comm|done|lia|simpl in Hn; lia].
Qed.

(** What follows an element: nothing, or the digits of the next one. *)
Definition next_element (r : string) : Prop := r = "" \/ starts_with_digit r = true.

(** A unit: known, and free of digits and dots. *)
Definition is_unit (u : string) (unit : Z) : Prop :=
  unitMap u = Some unit /\ all_bytes (fun c => negb (unit_end c)) u = true /\ 0 < unit.

Lemma digit_unit_end c : unit_end c = false -> digit c = None.
Proof. unfold unit_end, digit. intros [_ ->]%orb_false_iff. done. Qed.

Lemma leading_unit_app u unit r : is_unit u unit -> next_element r -> leading_unit (u +:+ r) = (u, r).
Proof.
  intros (Hm & Hb & _) Hr. clear Hm. induction u as [|c u IH].
  - change ("" +:+ r) with r. destruct Hr as [->|Hr]; [done|]. destruct r as [|c r]; [done|]. simpl in *.
    unfold digit in Hr. unfold unit_end. destruct (byte_in 48 57 c); [|done]. by rewrite orb_true_r.
  - change (String c u +:+ r) with (String c (u +:+ r)). simpl in *. apply andb_true_iff in Hb as [Hc Hb].
    apply negb_true_iff in Hc. by rewrite Hc, (IH Hb).
Qed.

Lemma unit_start u unit r : is_unit u unit ->
  starts_with_digit (u +:+ r) = false /\ forall t, u +:+ r <> String "." t.
Proof.
  intros (Hm & Hb & _). destruct u as [|c u]; [done|]. simpl in Hb. apply andb_true_iff in Hb as [Hc _].
  apply negb_true_iff in Hc. split; [simpl; by rewrite (digit_unit_end _ Hc)|].
  intros t Ht. change (String c (u +:+ r) = String "." t) in Ht. injection Ht as -> _. done.
Qed.

Lemma digits_unit_end ds s : Forall is_digit ds -> ds <> [] ->
  exists c t, string_of_digits ds +:+ s = String c t /\ unit_end c = true.
Proof.
  intros Hds Hne. destruct Hds as [|d ds Hd Hds]; [done|]. eexists _, _. split; [done|].
  unfold unit_end. pose proof (digit_ascii d Hd) as Hc. unfold digit in Hc.
  destruct (byte_in 48 57 _); [|done]. by rewrite orb_true_r.
Qed.

Lemma string_app_length (a b : string) : String.length (a +:+ b) = (String.length a + String.length b)%nat.
Proof. induction a as [|c a IH]; [done|]. exact (f_equal S IH). Qed.

Lemma string_of_digits_length ds : String.length (string_of_digits ds) = length ds.
Proof. induction ds; simpl; congruence. Qed.

Lemma digits_consumed ds s : ds <> [] ->
  negb (Nat.eqb (String.length (string_of_digits ds +:+ s)) (String.length s)) = true.
Proof.
  intros Hne. apply negb_true_iff, Nat.eqb_neq. rewrite string_app_length, string_of_digits_length.
  destruct ds; simpl; [done|lia].
Qed.

Lemma match_dot {A} s (f : string -> A) (g : A) :
  (forall t, s <> String "." t) -> match s with String "." t => f t | _ => g end = g.
Proof.
  intros Hs. destruct s as [|[[] [] [] [] [] [] [] []] t]; try done. by destruct (Hs t).
Qed.

(** A whole number of units. *)
Lemma element_whole v u unit r :
  0 <= v -> is_unit u unit -> next_element r -> v * unit <= 2 ^ 63 ->
  duration_element (pretty v +:+ u +:+ r) = Some (v * unit, r).
Proof.
  intros Hv Hu Hr Hb. destruct (pretty_digits v Hv) as (ds & -> & Hds & Hval & Hne).
  destruct (unit_start u unit r Hu) as [Hs Hdot].
  assert (Hle : v <= 2 ^ 63) by (destruct Hu as (_ & _ & ?); nia).
  destruct (digits_unit_end ds (u +:+ r) Hds Hne) as (c & t & Heq & Hc).
  pose proof (digits_consumed ds (u +:+ r) Hne) as Hpre.
  pose proof (leadingInt_digits ds (u +:+ r) Hds Hs ltac:(lia)) as Hli.
  rewrite Heq in *. unfold duration_element. rewrite Hc. change (negb true) with false. cbv iota. rewrite Hli.
  rewrite match_dot by done. rewrite Hpre. change (negb true && negb false) with false. cbv iota.
  rewrite (leading_unit_app u unit r Hu Hr). destruct Hu as (-> & _ & Hpos). simpl fr_x.
  assert (v <= 2 ^ 63 / unit) by (apply Z.div_le_lower_bound; lia).
  rewrite Hval. destruct (Z.ltb_spec (2 ^ 63 / unit) v); [lia|]. done.
Qed.

Lemma digits_value_bound ds : Forall is_digit ds -> 0 <= digits_value ds < 10 ^ Z.of_nat (length ds).
Proof.
  induction ds as [|d ds IH] using rev_ind; intros Hds; [done|].
  apply Forall_app in Hds as [Hds Hd]. inversion_clear Hd as [|? ? Hd' _]. unfold is_digit in Hd'.
  specialize (IH Hds). rewrite digits_value_app, length_app. simpl length.
  replace (Z.of_nat (length ds + 1)) with (Z.succ (Z.of_nat (length ds))) by lia.
  rewrite Z.pow_succ_r by lia. change (10 ^ Z.of_nat 1) with 10.
  change (digits_value [d]) with (0 * 10 + d). lia.
Qed.

(** A number of units with a fraction that is a whole number of nanoseconds. *)
Lemma element_fraction v fs u k r :
  0 <= v -> Forall is_digit fs -> (length fs <= 9)%nat -> 0 < digits_value fs -> 0 < k <= 10 ^ 9 ->
  let unit := k * 10 ^ Z.of_nat (length fs) in
  unit <= 10 ^ 9 -> is_unit u unit -> next_element r -> v * unit + digits_value fs * k <= 2 ^ 63 ->
  duration_element (pretty v +:+ "." +:+ string_of_digits fs +:+ u +:+ r) =
    Some (v * unit + digits_value fs * k, r).
Proof.
  intros Hv Hfs Hlen Hf Hk unit Hunit Hu Hr Hb.
  destruct (pretty_digits v Hv) as (ds & -> & Hds & Hval & Hne).
  destruct (unit_start u unit r Hu) as [Hs _]. pose proof (digits_value_bound fs Hfs).
  assert (Hfne : fs <> []) by (intros ->; simpl in Hf; unfold digits_value in Hf; simpl in Hf; lia).
  set (tail := string_of_digits fs +:+ u +:+ r).
  assert (Hsd : starts_with_digit ("." +:+ tail) = false) by done.
  assert (0 < 10 ^ Z.of_nat (length fs)) by (apply Z.pow_pos_nonneg; lia).
  assert (Hle : v <= 2 ^ 63) by nia.
  destruct (digits_unit_end ds ("." +:+ tail) Hds Hne) as (c & t & Heq & Hc).
  pose proof (digits_consumed ds ("." +:+ tail) Hne) as Hpre.
  pose proof (leadingInt_digits ds ("." +:+ tail) Hds Hsd ltac:(lia)) as Hli.
  rewrite Heq in *. unfold duration_element. rewrite Hc. change (negb true) with false. cbv iota. rewrite Hli.
  change ("." +:+ tail) with (String "." tail). cbv iota. unfold tail.
  rewrite (leadingFraction_digits fs (u +:+ r) Hfs Hs Hlen).
  rewrite (digits_consumed fs (u +:+ r) Hfne). rewrite andb_false_r.
  rewrite (leading_unit_app u unit r Hu Hr). destruct Hu as (-> & _ & Hpos). simpl fr_x.
  rewrite Hval. assert (v <= 2 ^ 63 / unit) by (apply Z.div_le_lower_bound; nia).
  destruct (Z.ltb_spec (2 ^ 63 / unit) v); [lia|].
  destruct (Z.ltb_spec 0 (digits_value fs)); [|lia].
  assert (digits_value fs * k < unit) by (unfold unit; nia).
  assert (digits_value fs < 2 ^ 30) by (unfold unit in Hunit; nia).
  assert (10 ^ Z.of_nat (length fs) < 2 ^ 53) by (unfold unit in Hunit; nia).
  unfold unit in *. rewrite duration_fraction_exact by lia.
  destruct (Z.ltb_spec (2 ^ 63) (v * (k * 10 ^ Z.of_nat (length fs)) + digits_value fs * k)); [lia|].
  done.
Qed.

Lemma fmt_frac_true prec v ds acc :
  0 <= v ->
  exists ds', Forall is_digit ds' /\ length ds' = prec /\ digits_value ds' = v mod 10 ^ Z.of_nat prec /\
    fmt_frac prec v true (string_of_digits ds +:+ acc) =
      ("." +:+ string_of_digits (ds' ++ ds) +:+ acc, v / 10 ^ Z.of_nat prec).
Proof.
  revert v ds. induction prec as [|prec IH]; intros v ds Hv.
  { exists []. rewrite Z.mod_1_r, Z.div_1_r. done. }
  pose proof (Z.mod_pos_bound v 10 ltac:(lia)) as Hm.
  assert (0 <= v / 10) by (apply Z.div_pos; lia).
  destruct (IH (v / 10) (v mod 10 :: ds)) as (ds' & Hds & Hlen & Hval & Heq); [done|].
  exists (ds' ++ [v mod 10]). rewrite Nat2Z.inj_succ, Z.pow_succ_r by lia.
  assert (0 < 10 ^ Z.of_nat prec) by (apply Z.pow_pos_nonneg; lia). split_and!.
  - apply Forall_app. split; [done|]. constructor; [unfold is_digit; lia|constructor].
  - rewrite length_app. simpl. lia.
  - rewrite digits_value_app, Hval. change (digits_value [?d]) with (0 * 10 + d). simpl length.
    change (10 ^ Z.of_nat 1) with 10. rewrite Z.rem_mul_r by lia. lia.
  - simpl fmt_frac. rewrite pretty_digit, <- string_app_assoc, <- string_of_digits_app by lia. simpl app.
    rewrite Heq, <- app_assoc, Z.div_div by lia. done.
Qed.

(** The fraction [fmtFrac] prints: nothing for zero, otherwise its digits
    without trailing zeros. *)
Lemma fmt_frac_false prec v acc :
  0 <= v ->
  let r := v mod 10 ^ Z.of_nat prec in
  (r = 0 /\ fmt_frac prec v false acc = (acc, v / 10 ^ Z.of_nat prec)) \/
  exists ds, Forall is_digit ds /\ (length ds <= prec)%nat /\ 0 < digits_value ds /\
    digits_value ds * 10 ^ Z.of_nat (prec - length ds) = r /\
    fmt_frac prec v false acc = ("." +:+ string_of_digits ds +:+ acc, v / 10 ^ Z.of_nat prec).
Proof.
  revert v. induction prec as [|prec IH]; intros v Hv.
  { left. rewrite Z.mod_1_r, Z.div_1_r. done. }
  pose proof (Z.mod_pos_bound v 10 ltac:(lia)) as Hm.
  assert (0 <= v / 10) by (apply Z.div_pos; lia).
  assert (Hp : 0 < 10 ^ Z.of_nat prec) by (apply Z.pow_pos_nonneg; lia).
  rewrite Nat2Z.inj_succ, Z.pow_succ_r by lia. cbv zeta. rewrite Z.rem_mul_r, <- Z.div_div by lia.
  simpl fmt_frac. destruct (Z.eqb_spec (v mod 10) 0) as [E|E].
  - rewrite E. simpl. destruct (IH (v / 10)) as [[Hr ->]|(ds & Hds & Hlen & Hpos & Hr & ->)]; [done| |].
    + left. split; [lia|done].
    + right. exists ds. split_and!; [done|lia|done| |done].
      rewrite Nat.sub_succ_l, Nat2Z.inj_succ, Z.pow_succ_r by lia. lia.
  - right. simpl. rewrite pretty_digit by lia.
    destruct (fmt_frac_true prec (v / 10) [v mod 10] acc) as (ds & Hds & Hlen & Hval & ->); [done|].
    pose proof (digits_value_bound ds Hds).
    assert (Hv' : digits_value (ds ++ [v mod 10]) = v mod 10 + 10 * ((v / 10) mod 10 ^ Z.of_nat prec)).
    { rewrite digits_value_app, Hval. change (digits_value [?d]) with (0 * 10 + d). simpl length.
      change (10 ^ Z.of_nat 1) with 10. lia. }
    exists (ds ++ [v mod 10]). rewrite Hv', length_app. simpl length. split_and!; [|lia|lia| |done].
    + apply Forall_app. split; [done|]. constructor; [unfold is_digit; lia|constructor].
    + replace (S prec - (length ds + 1))%nat with 0%nat by lia. simpl. lia.
Qed.

(** A number with the fraction of [u] is one element. *)
Lemma element_frac_string prec us u n r :
  (prec <= 9)%nat -> let unit := 10 ^ Z.of_nat prec in
  is_unit us unit -> 0 <= u -> 0 <= n -> next_element r -> n * unit + u mod unit <= 2 ^ 63 ->
  let '(f, q) := fmt_frac prec u false us in
  q = u / unit /\ duration_element (pretty n +:+ f +:+ r) = Some (n * unit + u mod unit, r).
Proof.
  intros Hprec unit Hu Hu0 Hn Hr Hb.
  destruct (fmt_frac_false prec u us Hu0) as [[Hz ->]|(ds & Hds & Hlen & Hpos & Hval & ->)]; (split; [done|]).
  - fold unit in Hz. rewrite Hz, Z.add_0_r in *. by apply element_whole.
  - fold unit in Hval. rewrite !string_app_assoc.
    set (k := 10 ^ Z.of_nat (prec - length ds)).
    assert (Hk : unit = k * 10 ^ Z.of_nat (length ds)).
    { unfold unit, k. rewrite <- Z.pow_add_r by lia. f_equal. lia. }
    assert (0 < 10 ^ Z.of_nat (length ds)) by (apply Z.pow_pos_nonneg; lia).
    assert (0 < k) by (apply Z.pow_pos_nonneg; lia).
    assert (unit <= 10 ^ 9) by (apply Z.pow_le_mono_r; lia).
    fold k in Hval. rewrite <- Hval in *. rewrite Hk in *.
    apply (element_fraction n ds us k r); [done|done|lia|done|nia|done|done|done|done].
Qed.

Lemma pretty_starts n s : 0 <= n -> starts_with_digit (pretty n +:+ s) = true.
Proof. intros Hn. destruct (pretty_digits n Hn) as (ds & -> & Hds & _ & Hne). by apply starts_digits. Qed.

Ltac solve_unit := repeat split; vm_compute; reflexivity.

(** The elements of a printed duration, after [d] was read. *)
Definition reads (s : string) (v : Z) : Prop :=
  starts_with_digit s = true /\
  forall d f, 0 <= d -> d + v <= 2 ^ 63 -> (String.length s <= f)%nat -> duration_elements f d s = Some (d + v).

Lemma reads_one s v : starts_with_digit s = true -> 0 <= v -> duration_element s = Some (v, "") -> reads s v.
Proof.
  intros Hs Hv He. split; [done|]. intros d f Hd Hb Hf.
  rewrite (duration_elements_step s d f v "") by done. done.
Qed.

Lemma reads_cons n u unit s v :
  0 <= n -> is_unit u unit -> 0 <= v -> n * unit <= 2 ^ 63 -> reads s v ->
  reads (pretty n +:+ u +:+ s) (n * unit + v).
Proof.
  intros Hn Hu Hv Hb [Hs Hr]. split; [by apply pretty_starts|]. intros d f Hd Hsum Hf.
  assert (0 <= n * unit) by (destruct Hu as (_ & _ & ?); nia).
  rewrite (duration_elements_step _ d f (n * unit) s); [|done|apply element_whole; [done|done|by right|done]|lia..].
  rewrite Hr by lia. f_equal. lia.
Qed.

Lemma frac_one prec us u n :
  (prec <= 9)%nat -> let unit := 10 ^ Z.of_nat prec in
  is_unit us unit -> 0 <= u -> 0 <= n -> n * unit + u mod unit <= 2 ^ 63 ->
  let '(f, q) := fmt_frac prec u false us in
  q = u / unit /\ reads (pretty n +:+ f) (n * unit + u mod unit).
Proof.
  intros Hp unit Hu Hu0 Hn Hb. assert (0 < unit) by (apply Z.pow_pos_nonneg; lia).
  pose proof (Z.mod_pos_bound u unit ltac:(lia)).
  pose proof (element_frac_string prec us u n "" Hp Hu Hu0 Hn (or_introl eq_refl) Hb) as He.
  destruct (fmt_frac prec u false us) as [f q]. destruct He as [-> He]. split; [done|].
  rewrite string_app_nil_r in He. apply reads_one; [by apply pretty_starts|nia|done].
Qed.

Lemma duration_abs_reads u : 0 <= u <= 2 ^ 63 -> reads (duration_abs_string u) u.
Proof.
  intros Hu. unfold duration_abs_string.
  destruct (Z.ltb_spec u Second) as [Hs|Hs].
  - destruct (Z.eqb_spec u 0) as [->|Hne]; [apply reads_one; [done|lia|vm_compute; reflexivity]|].
    destruct (Z.ltb_spec u Microsecond).
    { apply reads_one; [apply pretty_starts; lia|lia|].
      pose proof (element_whole u "ns" 1 "" ltac:(lia) ltac:(solve_unit) (or_introl eq_refl) ltac:(lia)) as He.
      rewrite string_app_nil_r, Z.mul_1_r in He. done. }
    destruct (Z.ltb_spec u Millisecond).
    + pose proof (frac_one 3 "µs" u (u / 1000) ltac:(lia) ltac:(solve_unit) ltac:(lia)
        ltac:(apply Z.div_pos; lia)) as Hf.
      pose proof (Z.div_mod u 1000 ltac:(lia)). change (10 ^ Z.of_nat 3) with 1000 in Hf. specialize (Hf ltac:(lia)).
      destruct (fmt_frac 3 u false "µs") as [f q]. destruct Hf as [-> Hf].
      by replace (u / 1000 * 1000 + u mod 1000) with u in Hf by lia.
    + pose proof (frac_one 6 "ms" u (u / 1000000) ltac:(lia) ltac:(solve_unit) ltac:(lia)
        ltac:(apply Z.div_pos; lia)) as Hf.
      pose proof (Z.div_mod u 1000000 ltac:(lia)). change (10 ^ Z.of_nat 6) with 1000000 in Hf. specialize (Hf ltac:(lia)).
      destruct (fmt_frac 6 u false "ms") as [f q]. destruct Hf as [-> Hf].
      by replace (u / 1000000 * 1000000 + u mod 1000000) with u in Hf by lia.
  - set (secs := u / Second). pose proof (Z.div_mod u Second ltac:(done)) as Eu. fold secs in Eu.
    pose proof (Z.div_mod secs 60 ltac:(lia)) as Es. set (mins := secs / 60) in *.
    pose proof (Z.div_mod mins 60 ltac:(lia)) as Em. set (hours := mins / 60) in *.
    pose proof (Z.mod_pos_bound secs 60 ltac:(lia)). pose proof (Z.mod_pos_bound mins 60 ltac:(lia)).
    pose proof (Z.mod_pos_bound u Second ltac:(done)).
    assert (0 <= secs) by (apply Z.div_pos; unfold Second; lia). assert (0 <= mins) by (apply Z.div_pos; lia).
    assert (0 <= hours) by (apply Z.div_pos; lia).
    pose proof (frac_one 9 "s" u (secs mod 60) ltac:(lia) ltac:(solve_unit) ltac:(lia) ltac:(lia)) as Hf.
    change (10 ^ Z.of_nat 9) with Second in Hf. specialize (Hf ltac:(unfold Second in *; lia)).
    destruct (fmt_frac 9 u false "s") as [f q]. destruct Hf as [-> Hf]. fold secs mins hours. cbv zeta.
    destruct (Z.eqb_spec mins 0) as [E0|E0].
    { replace (secs mod 60 * Second + u mod Second) with u in Hf by lia. done. }
    apply (reads_cons (mins mod 60) "m" Minute) in Hf; [|lia|solve_unit|unfold Second in *; lia|unfold Minute, Second in *; lia].
    destruct (Z.eqb_spec hours 0) as [Eh|Eh].
    { replace (mins mod 60 * Minute + (secs mod 60 * Second + u mod Second)) with u in Hf
        by (unfold Minute, Second in *; lia). done. }
    apply (reads_cons hours "h" Hour) in Hf; [|lia|solve_unit|unfold Minute, Second in *; lia|unfold Hour, Minute, Second in *; lia].
    replace (hours * Hour + (mins mod 60 * Minute + (secs mod 60 * Second + u mod Second))) with u in Hf
      by (unfold Hour, Minute, Second in *; lia). done.
Qed.

(** [time.ParseDuration] reads back what [Duration.String] prints. *)
Lemma ParseDuration_String d : in_int64 d -> ParseDuration (duration_String d) = Some d.
Proof.
  unfold in_int64, int64_min, int64_max. intros Hd.
  assert (Hread : forall u, 0 <= u <= 2 ^ 63 -> let s := duration_abs_string u in
    split_sign s = (false, s) /\ s <> "0" /\ s <> "" /\ duration_elements (String.length s) 0 s = Some u).
  { intros u Hu s. destruct (duration_abs_reads u Hu) as [Hs Hr]. fold s in Hs, Hr. split_and!.
    - clear Hr. destruct s as [|c s]; [done|]. destruct c as [[] [] [] [] [] [] [] []]; done.
    - intros E. specialize (Hr 0 1%nat ltac:(lia) ltac:(lia)). rewrite E in Hr. specialize (Hr ltac:(simpl; lia)).
      vm_compute in Hr. discriminate.
    - intros E. by rewrite E in Hs.
    - rewrite (Hr 0 _) by lia. done. }
  unfold ParseDuration, duration_String. destruct (Z.ltb_spec d 0) as [Hneg|Hpos].
  - destruct (Hread (- d) ltac:(lia)) as (_ & H0 & H1 & He).
    change ("-" +:+ duration_abs_string (- d)) with (String "-" (duration_abs_string (- d))).
    simpl split_sign. cbv iota beta. rewrite !bool_decide_false, He by done. rewrite Z.opp_involutive, wrap64_id; [done|].
    unfold in_int64, int64_min, int64_max. lia.
  - destruct (Hread d ltac:(lia)) as (-> & H0 & H1 & He). rewrite !bool_decide_false, He by done.
    destruct (Z.ltb_spec (2 ^ 63 - 1) d); [lia|done].
Qed.
