(* ===== verification/XTrinodeTypes.v ===== *)
(** * The custom resource ([api/v1/xtrinode_types.go])

    The fields of [XTrinode] that the modelled components read or write.  A
    pointer field is an [option]. *)

From S2P Require Import Prelude.

Record RoutingSpec := mkRouting {
  rs_RoutingGroup : string;
  rs_HostnameDomain : string;
  rs_Hostname : string;
  rs_Header : string;
  rs_Default : bool;
  rs_CapacityUnits : option Z
}.

Record JMXExporterSpec := mkJMXExporter {
  jmx_Enabled : bool;
  jmx_Image : string;
  jmx_Port : option Z;
  jmx_ConfigMap : string
}.

Record KEDASpec := mkKEDAFull {
  keda_Enabled : option bool;
  keda_ScalerType : string;
  keda_ScalingMetric : string;
  keda_PrometheusServer : option string;
  keda_PrometheusQuery : option string;
  keda_HTTPEndpoint : option string;
  keda_Threshold : option string;
  keda_HTTPValueLocation : option string;
  keda_ScaleDownCooldown : option Duration;
  keda_ScaleUpCooldown : option Duration;
  keda_JMXExporter : option JMXExporterSpec
}.

(** A literal that names only the first fields leaves the others at zero. *)
Definition mkKEDA en ty metric server query endpoint : KEDASpec :=
  mkKEDAFull en ty metric server query endpoint None None None None None.

Record AzureNodePoolSpec := mkAzureNodePool { az_VMSize : string; az_OSDiskType : string }.
Record AWSNodePoolSpec := mkAWSNodePool { aws_InstanceType : string; aws_VolumeType : string }.
Record GCPNodePoolSpec := mkGCPNodePool { gcp_MachineType : string; gcp_DiskType : string }.

Record SpotSpec := mkSpot { spot_Enabled : bool; spot_MaxPrice : string }.
Record PrewarmSpec := mkPrewarm { pw_Nodes : option Z; pw_TTL : option Duration }.

(** [corev1.Taint] and [corev1.ObjectReference] are copied and compared, never
    inspected here: each stands for itself as its serialised text. *)
Definition Taint := string.
Definition ObjectReference := string.

Record NodePoolSpec := mkNodePoolFull {
  np_Name : string;
  np_Provider : string;
  np_MinNodes : option Z;
  np_MaxNodes : option Z;
  np_SchedulePods : bool;
  np_ProviderMode : string;
  np_ScaleDownOnSuspend : option bool;
  np_DeletionPolicy : string;
  np_Azure : option AzureNodePoolSpec;
  np_AWS : option AWSNodePoolSpec;
  np_GCP : option GCPNodePoolSpec;
  np_OSDiskGB : option Z;
  np_ClusterName : string;
  np_ResourceNotFoundRequeueInterval : option Duration;
  np_StatusNotAvailableRequeueInterval : option Duration;
  np_NoNodesReadyRequeueInterval : option Duration;
  np_NodesReadyRequeueInterval : option Duration;
  np_ErrorRequeueInterval : option Duration;
  np_MinRequiredReplicasWhenMinNodesZero : option Z;
  np_Zones : option (list string);
  np_Spot : option SpotSpec;
  np_NodeLabels : option (gmap string string);
  np_NodeTaints : option (list Taint);
  np_ResourceTags : option (gmap string string);
  np_Prewarm : option PrewarmSpec;
  np_ProvisioningTimeout : option Duration;
  np_KubernetesVersion : string;
  np_BootstrapConfigRef : option ObjectReference;
  np_AutoscalerEnabled : option bool
}.

(** A literal that leaves the scheduling and bootstrap fields at zero. *)
Definition mkNodePool nm provider mn mx sched mode sdos policy azure aws gcp disk cluster i1 i2 i3 i4 i5 minr :
    NodePoolSpec :=
  mkNodePoolFull nm provider mn mx sched mode sdos policy azure aws gcp disk cluster i1 i2 i3 i4 i5 minr
    None None None None None None None "" None None.

Record OperatorNodePoolDefaultsSpec := mkOperatorNodePoolDefaults {
  ond_DefaultMinNodes : option Z;
  ond_DefaultMaxNodes : option Z;
  ond_DefaultOSDiskGB : option Z
}.

(** [resource.Quantity]: a fixed-point number, here in units of 10^-9, with the
    text it is printed as. *)
Record Quantity := mkQuantity { q_nano : Z; q_text : string }.

(** [corev1.ResourceRequirements]; resource names are strings. *)
Record ResourceRequirements := mkResources {
  res_Requests : gmap string Quantity;
  res_Limits : gmap string Quantity
}.

Record RuntimeResourcesSpec := mkRuntimeResources {
  rr_Coordinator : option ResourceRequirements;
  rr_Worker : option ResourceRequirements
}.

(** Scheduler constraints are copied and never inspected: each stands for
    itself as its serialised text. *)
Definition Toleration := string.
Definition Affinity := string.
Record TopologySpreadConstraint := mkSpread { tsc_TopologyKey : string; tsc_rest : string }.

(** A map or slice field is an [option]: nil differs from empty. *)
Record RolePlacementSpec := mkRolePlacement {
  rp_NodeSelector : option (gmap string string);
  rp_Tolerations : option (list Toleration);
  rp_Affinity : option Affinity;
  rp_TopologySpreadConstraints : option (list TopologySpreadConstraint)
}.

Record ExistingNodePoolPlacementSpec := mkExistingNodePool {
  enp_Provider : string;
  enp_Name : string
}.

Record PlacementSpec := mkPlacement {
  pl_NodeSelector : option (gmap string string);
  pl_ExistingNodePool : option ExistingNodePoolPlacementSpec;
  pl_Tolerations : option (list Toleration);
  pl_Affinity : option Affinity;
  pl_Coordinator : option RolePlacementSpec;
  pl_Worker : option RolePlacementSpec
}.

(** [interface{}] values as [encoding/json] builds them.  A number is a finite
    [float64], given by its mantissa and binary exponent; an object is a map,
    given by its bindings. *)
Inductive json :=
| JNull
| JBool (b : bool)
| JNumber (mantissa exponent : Z)
| JString (s : string)
| JArray (l : list json)
| JObject (bindings : list (string * json)).

(** [m[k]] on [map[string]interface{}]: a missing key reads as nil. *)
Definition json_get (m : list (string * json)) (k : string) : json :=
  match list_find (fun kv => kv.1 = k) m with
  | Some (_, (_, v)) => v
  | None => JNull
  end.

(** [TrinoControlAuthSpec]; the secret is a name and a key in it. *)
Record TrinoControlAuthSpec := mkControlAuth {
  ca_Username : string;
  ca_PasswordSecret : option (string * string)
}.

(** [apiextensionsv1.JSON]: the raw bytes with what [json.Unmarshal] makes of
    them, [None] when they are empty or not JSON. *)
Record RawJSON := mkRawJSON { raw_Raw : string; raw_value : option json }.

(** ** Limits, fault tolerance, TLS and rollouts *)

Record SessionLimits := mkSession {
  sl_MaxQueryMemory : string;
  sl_MaxTotalMemoryPerNode : string
}.

Record LimitsSpec := mkLimits {
  lim_HardConcurrencyPerGroup : option Z;
  lim_MaxQueuedPerGroup : option Z;
  lim_Session : option SessionLimits
}.

Record ExchangeManagerSpec := mkExchange {
  em_Enabled : option bool;
  em_Name : string;
  em_BaseDirectories : option (list string);
  em_Properties : option (gmap string string)
}.

Record FaultTolerantExecutionSpec := mkFaultTolerant {
  fte_RetryPolicy : string;
  fte_ExchangeManager : option ExchangeManagerSpec
}.

Record TLSSpec := mkTLS { tls_ServerSecretClass : string; tls_InternalSecretClass : string }.

(** [intstr.IntOrString]: type 0 is an integer, type 1 a string. *)
Record IntOrString := mkIntOrString { ios_Type : Z; ios_IntVal : Z; ios_StrVal : string }.
Definition intstr_Int : Z := 0.
Definition intstr_String : Z := 1.

Record RollingUpdateStrategySpec := mkRollingUpdate {
  ru_MaxSurge : option IntOrString;
  ru_MaxUnavailable : option IntOrString
}.

Record RolloutPolicySpec := mkRollout {
  rp_RevisionHistoryLimit : option Z;
  rp_RollingUpdateStrategy : option RollingUpdateStrategySpec
}.

(** ** Chart settings

    Parts of the core API that are only copied stand for themselves as text. *)

(** [corev1.EnvVar]: name, Secret (name and key) or ConfigMap its value is taken
    from, and the rest; [corev1.EnvFromSource]: the ConfigMap and the Secret. *)
Record EnvVar := mkEnvVarSpec {
  env_Name : string;
  env_SecretKeyRef : option (string * string);
  env_ConfigMapKeyRef : option string;
  env_rest : string
}.
Record EnvFromSource := mkEnvFrom {
  ef_ConfigMapRef : option string;
  ef_SecretRef : option string;
  ef_rest : string
}.
Definition Container := string.
Definition LocalObjectReference := string.
Definition LabelSelector := string.
Definition NetworkPolicyRule := string.

Record AccessControlSpec := mkAccessControl {
  ac_Type : string;
  ac_RefreshPeriod : string;
  ac_ConfigFile : string;
  ac_Rules : option (gmap string string);
  ac_Properties : string
}.

Record SecretMountSpec := mkSecretMount {
  sm_Name : string;
  sm_SecretName : string;
  sm_Path : string;
  sm_SubPath : string
}.

Record ServiceAccountSpec := mkServiceAccount {
  sa_Create : option bool;
  sa_Name : string;
  sa_Annotations : option (gmap string string)
}.

Record IngressPathSpec := mkIngressPath { ip_Path : string; ip_PathType : string }.
Record IngressHostSpec := mkIngressHost { ih_Host : string; ih_Paths : option (list IngressPathSpec) }.
Record IngressTLSSpec := mkIngressTLS { it_SecretName : string; it_Hosts : option (list string) }.

Record IngressSpec := mkIngress {
  ing_Enabled : bool;
  ing_ClassName : string;
  ing_Annotations : option (gmap string string);
  ing_Hosts : option (list IngressHostSpec);
  ing_TLS : option (list IngressTLSSpec)
}.

Record NetworkPolicySpec := mkNetworkPolicy {
  netp_Enabled : bool;
  netp_Ingress : option (list NetworkPolicyRule);
  netp_Egress : option (list NetworkPolicyRule)
}.

Record ServiceMonitorRoleSpec := mkMonitorRole {
  smr_Enabled : bool;
  smr_Labels : option (gmap string string);
  smr_ScrapeTimeout : string
}.

Record ServiceMonitorSpec := mkServiceMonitor {
  smon_Enabled : bool;
  smon_APIVersion : string;
  smon_Labels : option (gmap string string);
  smon_Interval : string;
  smon_ScrapeTimeout : string;
  smon_Coordinator : option ServiceMonitorRoleSpec;
  smon_Worker : option ServiceMonitorRoleSpec
}.

Record CoordinatorHelmConfigSpec := mkCoordinatorHelm {
  ch_SecretMounts : option (list SecretMountSpec);
  ch_AdditionalConfigFiles : option (gmap string string)
}.

Record GracefulShutdownSpec := mkGraceful { gs_Enabled : bool; gs_GracePeriodSeconds : Z }.

Record WorkerHelmConfigSpec := mkWorkerHelm {
  wh_GracefulShutdown : option GracefulShutdownSpec;
  wh_SecretMounts : option (list SecretMountSpec);
  wh_AdditionalConfigFiles : option (gmap string string);
  wh_TopologySpreadConstraints : option (list TopologySpreadConstraint)
}.

Record HelmChartConfigSpec := mkHelm {
  hc_AccessControl : option AccessControlSpec;
  hc_SecretMounts : option (list SecretMountSpec);
  hc_ImagePullSecrets : option (list LocalObjectReference);
  hc_ServiceAccount : option ServiceAccountSpec;
  hc_Ingress : option IngressSpec;
  hc_NetworkPolicy : option NetworkPolicySpec;
  hc_ServiceMonitor : option ServiceMonitorSpec;
  hc_Coordinator : option CoordinatorHelmConfigSpec;
  hc_Worker : option WorkerHelmConfigSpec;
  hc_Env : option (list EnvVar);
  hc_EnvFrom : option (list EnvFromSource);
  hc_InitContainers : option (gmap string (list Container))
}.

Record XTrinodeSpec := mkSpecFull {
  spec_Size : string;
  spec_MaxWorkers : option Z;
  spec_MinWorkers : option Z;
  spec_Suspended : bool;
  spec_AutoSuspendAfter : option Duration;
  spec_WakeMinWorkers : option Z;
  spec_WakeTTL : option Duration;
  spec_Resources : option RuntimeResourcesSpec;
  spec_Placement : option PlacementSpec;
  spec_NodePool : option NodePoolSpec;
  spec_Routing : option RoutingSpec;
  spec_ValuesOverlay : option RawJSON;
  spec_KEDA : option KEDASpec;
  spec_TrinoControlAuth : option TrinoControlAuthSpec;
  spec_OperatorNodePoolDefaults : option OperatorNodePoolDefaultsSpec;
  spec_CatalogSelector : option LabelSelector;
  spec_ResourceGroupsProfile : string;
  spec_CustomConfigMaps : option (list string);
  spec_Limits : option LimitsSpec;
  spec_FaultTolerantExecution : option FaultTolerantExecutionSpec;
  spec_TLS : option TLSSpec;
  spec_HelmChartConfig : option HelmChartConfigSpec;
  spec_RolloutPolicy : option RolloutPolicySpec
}.

(** A literal that leaves the fields after the defaults at zero. *)
Definition mkSpec size maxw minw susp auto wmin wttl res pl np rt vo keda auth dflt : XTrinodeSpec :=
  mkSpecFull size maxw minw susp auto wmin wttl res pl np rt vo keda auth dflt
    None "" None None None None None None.

Definition GetValuesOverlayMap (s : XTrinodeSpec) : option (list (string * json)) :=
  match spec_ValuesOverlay s with
  | Some (mkRawJSON _ (Some (JObject m))) => Some m
  | _ => None
  end.

Record WakeState := mkWake {
  wake_MinWorkers : Z;
  wake_ExpiresAt : Time
}.

(** [metav1.ConditionStatus] and [metav1.Condition]. *)
Inductive ConditionStatus := ConditionTrue | ConditionFalse | ConditionUnknown.

#[export] Instance ConditionStatus_eq_dec : EqDecision ConditionStatus.
Proof. solve_decision. Defined.

Record Condition := mkCondition {
  cond_Type : string;
  cond_Status : ConditionStatus;
  cond_ObservedGeneration : Z;
  cond_LastTransitionTime : Time;
  cond_Reason : string;
  cond_Message : string
}.

(** [ObservedRuntimeShapeStatus] and its parts; a resource list is [None] when
    it is empty. *)
Record ObservedRuntimeResourcesStatus := mkObservedResources {
  ors_Requests : option (gmap string Quantity);
  ors_Limits : option (gmap string Quantity)
}.

Record ObservedRuntimeWorkersStatus := mkObservedWorkers {
  orw_Fixed : option Z;
  orw_Min : Z;
  orw_Max : Z;
  orw_Quota : Z;
  orw_Capacity : Z
}.

Record ObservedRuntimeNodePoolStatus := mkObservedNodePool {
  orn_ProvisioningRequested : bool;
  orn_Provider : string;
  orn_ProviderMode : string;
  orn_Name : string;
  orn_SchedulePods : bool;
  orn_DeletionPolicy : string
}.

Record ObservedRuntimeShapeStatus := mkObservedShape {
  ors_Version : string;
  ors_Hash : string;
  ors_Preset : string;
  ors_AutoscalingMode : string;
  ors_Coordinator : ObservedRuntimeResourcesStatus;
  ors_Worker : ObservedRuntimeResourcesStatus;
  ors_Workers : ObservedRuntimeWorkersStatus;
  ors_CapacityUnits : Z;
  ors_NodePool : ObservedRuntimeNodePoolStatus
}.

Record XTrinodeStatus := mkStatus {
  st_Phase : string;
  st_CoordinatorURL : string;
  st_Workers : Z;
  st_LastActivity : option Time;
  st_CurrentRevision : string;
  st_ObservedGeneration : Z;
  st_BaseRevision : string;
  st_CoordinatorRolloutHash : string;
  st_WorkerRolloutHash : string;
  st_ObservedCatalogs : option (list string);
  st_ObservedCatalogDigest : string;
  st_ObservedAccessControlDigest : string;
  st_ObservedSessionPropsDigest : string;
  st_ObservedRuntimeShape : option ObservedRuntimeShapeStatus;
  st_Wake : option WakeState;
  st_Conditions : list Condition
}.

(** A status that holds nothing but a phase. *)
Definition status_of_phase (phase : string) : XTrinodeStatus :=
  mkStatus phase "" 0 None "" 0 "" "" "" None "" "" "" None None [].

Record XTrinode := mkXTrinode {
  xt_Name : string;
  xt_Namespace : string;
  xt_Generation : Z;
  xt_ResourceVersion : Z;
  xt_CreationTimestamp : Time;
  xt_DeletionTimestamp : option Time;
  xt_Finalizers : list string;
  xt_Labels : gmap string string;
  xt_Annotations : gmap string string;
  xt_Spec : XTrinodeSpec;
  xt_Status : XTrinodeStatus
}.

(** ** Assignments to fields *)

Definition set_ResourceVersion (v : Z) (x : XTrinode) : XTrinode :=
  mkXTrinode (xt_Name x) (xt_Namespace x) (xt_Generation x) v (xt_CreationTimestamp x)
    (xt_DeletionTimestamp x) (xt_Finalizers x) (xt_Labels x) (xt_Annotations x) (xt_Spec x) (xt_Status x).

Definition set_Finalizers (fs : list string) (x : XTrinode) : XTrinode :=
  mkXTrinode (xt_Name x) (xt_Namespace x) (xt_Generation x) (xt_ResourceVersion x) (xt_CreationTimestamp x)
    (xt_DeletionTimestamp x) fs (xt_Labels x) (xt_Annotations x) (xt_Spec x) (xt_Status x).

Definition set_Annotations (m : gmap string string) (x : XTrinode) : XTrinode :=
  mkXTrinode (xt_Name x) (xt_Namespace x) (xt_Generation x) (xt_ResourceVersion x) (xt_CreationTimestamp x)
    (xt_DeletionTimestamp x) (xt_Finalizers x) (xt_Labels x) m (xt_Spec x) (xt_Status x).

Definition set_Spec (s : XTrinodeSpec) (x : XTrinode) : XTrinode :=
  mkXTrinode (xt_Name x) (xt_Namespace x) (xt_Generation x) (xt_ResourceVersion x) (xt_CreationTimestamp x)
    (xt_DeletionTimestamp x) (xt_Finalizers x) (xt_Labels x) (xt_Annotations x) s (xt_Status x).

Definition set_Status (st : XTrinodeStatus) (x : XTrinode) : XTrinode :=
  mkXTrinode (xt_Name x) (xt_Namespace x) (xt_Generation x) (xt_ResourceVersion x) (xt_CreationTimestamp x)
    (xt_DeletionTimestamp x) (xt_Finalizers x) (xt_Labels x) (xt_Annotations x) (xt_Spec x) st.

Definition set_Suspended (b : bool) (x : XTrinode) : XTrinode :=
  let s := xt_Spec x in
  set_Spec (mkSpecFull (spec_Size s) (spec_MaxWorkers s) (spec_MinWorkers s) b (spec_AutoSuspendAfter s)
    (spec_WakeMinWorkers s) (spec_WakeTTL s) (spec_Resources s) (spec_Placement s) (spec_NodePool s)
    (spec_Routing s) (spec_ValuesOverlay s) (spec_KEDA s) (spec_TrinoControlAuth s)
    (spec_OperatorNodePoolDefaults s) (spec_CatalogSelector s) (spec_ResourceGroupsProfile s)
    (spec_CustomConfigMaps s) (spec_Limits s) (spec_FaultTolerantExecution s) (spec_TLS s)
    (spec_HelmChartConfig s) (spec_RolloutPolicy s)) x.

Definition set_NodePool (np : option NodePoolSpec) (x : XTrinode) : XTrinode :=
  let s := xt_Spec x in
  set_Spec (mkSpecFull (spec_Size s) (spec_MaxWorkers s) (spec_MinWorkers s) (spec_Suspended s) (spec_AutoSuspendAfter s)
    (spec_WakeMinWorkers s) (spec_WakeTTL s) (spec_Resources s) (spec_Placement s) np
    (spec_Routing s) (spec_ValuesOverlay s) (spec_KEDA s) (spec_TrinoControlAuth s)
    (spec_OperatorNodePoolDefaults s) (spec_CatalogSelector s) (spec_ResourceGroupsProfile s)
    (spec_CustomConfigMaps s) (spec_Limits s) (spec_FaultTolerantExecution s) (spec_TLS s)
    (spec_HelmChartConfig s) (spec_RolloutPolicy s)) x.

(** The status fields the operator assigns one by one. *)
Definition update_status (f : XTrinodeStatus -> XTrinodeStatus) (x : XTrinode) : XTrinode :=
  set_Status (f (xt_Status x)) x.

Definition set_Phase (p : string) : XTrinode -> XTrinode := update_status (fun st =>
  mkStatus p (st_CoordinatorURL st) (st_Workers st) (st_LastActivity st) (st_CurrentRevision st)
    (st_ObservedGeneration st) (st_BaseRevision st) (st_CoordinatorRolloutHash st) (st_WorkerRolloutHash st)
    (st_ObservedCatalogs st) (st_ObservedCatalogDigest st) (st_ObservedAccessControlDigest st)
    (st_ObservedSessionPropsDigest st) (st_ObservedRuntimeShape st) (st_Wake st) (st_Conditions st)).

Definition set_CoordinatorURL (u : string) : XTrinode -> XTrinode := update_status (fun st =>
  mkStatus (st_Phase st) u (st_Workers st) (st_LastActivity st) (st_CurrentRevision st)
    (st_ObservedGeneration st) (st_BaseRevision st) (st_CoordinatorRolloutHash st) (st_WorkerRolloutHash st)
    (st_ObservedCatalogs st) (st_ObservedCatalogDigest st) (st_ObservedAccessControlDigest st)
    (st_ObservedSessionPropsDigest st) (st_ObservedRuntimeShape st) (st_Wake st) (st_Conditions st)).

Definition set_Workers (n : Z) : XTrinode -> XTrinode := update_status (fun st =>
  mkStatus (st_Phase st) (st_CoordinatorURL st) n (st_LastActivity st) (st_CurrentRevision st)
    (st_ObservedGeneration st) (st_BaseRevision st) (st_CoordinatorRolloutHash st) (st_WorkerRolloutHash st)
    (st_ObservedCatalogs st) (st_ObservedCatalogDigest st) (st_ObservedAccessControlDigest st)
    (st_ObservedSessionPropsDigest st) (st_ObservedRuntimeShape st) (st_Wake st) (st_Conditions st)).

Definition set_LastActivity (t : option Time) : XTrinode -> XTrinode := update_status (fun st =>
  mkStatus (st_Phase st) (st_CoordinatorURL st) (st_Workers st) t (st_CurrentRevision st)
    (st_ObservedGeneration st) (st_BaseRevision st) (st_CoordinatorRolloutHash st) (st_WorkerRolloutHash st)
    (st_ObservedCatalogs st) (st_ObservedCatalogDigest st) (st_ObservedAccessControlDigest st)
    (st_ObservedSessionPropsDigest st) (st_ObservedRuntimeShape st) (st_Wake st) (st_Conditions st)).

Definition set_ObservedGeneration (g : Z) : XTrinode -> XTrinode := update_status (fun st =>
  mkStatus (st_Phase st) (st_CoordinatorURL st) (st_Workers st) (st_LastActivity st) (st_CurrentRevision st)
    g (st_BaseRevision st) (st_CoordinatorRolloutHash st) (st_WorkerRolloutHash st)
    (st_ObservedCatalogs st) (st_ObservedCatalogDigest st) (st_ObservedAccessControlDigest st)
    (st_ObservedSessionPropsDigest st) (st_ObservedRuntimeShape st) (st_Wake st) (st_Conditions st)).

Definition set_ObservedRuntimeShape (o : option ObservedRuntimeShapeStatus) : XTrinode -> XTrinode :=
  update_status (fun st =>
  mkStatus (st_Phase st) (st_CoordinatorURL st) (st_Workers st) (st_LastActivity st) (st_CurrentRevision st)
    (st_ObservedGeneration st) (st_BaseRevision st) (st_CoordinatorRolloutHash st) (st_WorkerRolloutHash st)
    (st_ObservedCatalogs st) (st_ObservedCatalogDigest st) (st_ObservedAccessControlDigest st)
    (st_ObservedSessionPropsDigest st) o (st_Wake st) (st_Conditions st)).

Definition set_Wake (wake : option WakeState) : XTrinode -> XTrinode := update_status (fun st =>
  mkStatus (st_Phase st) (st_CoordinatorURL st) (st_Workers st) (st_LastActivity st) (st_CurrentRevision st)
    (st_ObservedGeneration st) (st_BaseRevision st) (st_CoordinatorRolloutHash st) (st_WorkerRolloutHash st)
    (st_ObservedCatalogs st) (st_ObservedCatalogDigest st) (st_ObservedAccessControlDigest st)
    (st_ObservedSessionPropsDigest st) (st_ObservedRuntimeShape st) wake (st_Conditions st)).

Definition set_Conditions (cs : list Condition) : XTrinode -> XTrinode := update_status (fun st =>
  mkStatus (st_Phase st) (st_CoordinatorURL st) (st_Workers st) (st_LastActivity st) (st_CurrentRevision st)
    (st_ObservedGeneration st) (st_BaseRevision st) (st_CoordinatorRolloutHash st) (st_WorkerRolloutHash st)
    (st_ObservedCatalogs st) (st_ObservedCatalogDigest st) (st_ObservedAccessControlDigest st)
    (st_ObservedSessionPropsDigest st) (st_ObservedRuntimeShape st) (st_Wake st) cs).

(** ** Command annotations ([internal/config/config.go]) *)

Definition ResumeRequestedAnnotation : string := "xtrinode.analytics.xtrinode.io/resume-requested".
Definition ResumeRequestedAtAnnotation : string := "xtrinode.analytics.xtrinode.io/resume-requested-at".
Definition SuspendRequestedAnnotation : string := "xtrinode.analytics.xtrinode.io/suspend-requested".
Definition SuspendRequestedAtAnnotation : string := "xtrinode.analytics.xtrinode.io/suspend-requested-at".
Definition AutoSuspendRequestedAnnotation : string := "xtrinode.analytics.xtrinode.io/auto-suspend-requested".
Definition AutoSuspendRequestedAtAnnotation : string := "xtrinode.analytics.xtrinode.io/auto-suspend-requested-at".
Definition WakeMinWorkersAnnotation : string := "xtrinode.analytics.xtrinode.io/wake-min-workers".
Definition WakeTTLAnnotation : string := "xtrinode.analytics.xtrinode.io/wake-ttl".
