(* ===== verification/RuntimeShape.v ===== *)
(** * Runtime shapes ([internal/runtimeshape/resolved.go], [internal/sizing])

    [Resolve] turns the specification of a runtime into its resources, worker
    counts, routing capacity, placement and node pool.  Its result feeds the
    gateway's routes and the ranking of resume candidates.  Parsing of
    quantities is a library: [ParseQuantity] is a parameter with the documented
    meaning of the two notations the presets use. *)

From stdpp Require Import pretty.
From S2P Require Import Prelude GoStrings GoTime GoParse XTrinodeTypes.

(** ** Size presets *)

Record MachineTypeRecommendations := mkMachineTypes {
  mt_Azure : string;
  mt_AWS : string;
  mt_GCP : string
}.

Record SizePreset := mkPreset {
  WorkerCPUReq : string;
  WorkerMemReq : string;
  WorkerCPULim : string;
  WorkerMemLim : string;
  MaxWorkers : Z;
  CoordinatorCPUReq : string;
  CoordinatorMemReq : string;
  CoordinatorCPULim : string;
  CoordinatorMemLim : string;
  RecommendedMachineTypes : MachineTypeRecommendations
}.

Definition Presets : gmap string SizePreset :=
  {[ "xs" := mkPreset "1" "4Gi" "2" "8Gi" 5 "1" "4Gi" "2" "8Gi"
               (mkMachineTypes "Standard_D2as_v5" "m5.large" "n1-standard-2");
     "s" := mkPreset "2" "8Gi" "8" "32Gi" 24 "1" "4Gi" "2" "8Gi"
               (mkMachineTypes "Standard_D8as_v5" "m5.2xlarge" "n1-standard-8");
     "m" := mkPreset "4" "16Gi" "16" "64Gi" 50 "1" "4Gi" "2" "8Gi"
               (mkMachineTypes "Standard_D16as_v5" "m5.4xlarge" "n1-standard-16");
     "l" := mkPreset "8" "32Gi" "32" "128Gi" 100 "1" "4Gi" "2" "8Gi"
               (mkMachineTypes "Standard_D32as_v5" "m5.8xlarge" "n1-standard-32");
     "xl" := mkPreset "16" "64Gi" "64" "256Gi" 200 "1" "4Gi" "2" "8Gi"
               (mkMachineTypes "Standard_D64as_v5" "m5.16xlarge" "n1-standard-64") ]}.

Definition GetPreset (size : string) : option SizePreset := Presets !! size.

Definition GetRecommendedMachineType (size provider : string) : string :=
  match Presets !! size with
  | None => ""
  | Some preset =>
      if provider ≡? "azure" then mt_Azure (RecommendedMachineTypes preset) else
      if provider ≡? "aws" then mt_AWS (RecommendedMachineTypes preset) else
      if provider ≡? "gcp" then mt_GCP (RecommendedMachineTypes preset) else ""
  end.

(** ** Quantities *)

Definition q_Sign (q : Quantity) : Z := Z.sgn (q_nano q).
Definition q_Cmp (x y : Quantity) : comparison := Z.compare (q_nano x) (q_nano y).

(** The value in thousandths, rounded up. *)
Definition MilliValue (q : Quantity) : Z := wrap64 (- ((- q_nano q) / 1000000)).

Definition nano_per_unit : Z := 1000000000.

Class QuantityParser := {
  ParseQuantity : string -> option Quantity;
  parse_decimal : forall n, 0 <= n < 2 ^ 31 ->
    exists q, ParseQuantity (pretty n) = Some q /\ q_nano q = n * nano_per_unit;
  parse_gibi : forall n, 0 <= n < 2 ^ 31 ->
    exists q, ParseQuantity (pretty n +:+ "Gi") = Some q /\ q_nano q = n * 2 ^ 30 * nano_per_unit
}.

(** ** Numbers of an overlay *)

(** The integer part of a [float64]. *)
Definition float_trunc (mantissa exponent : Z) : Z :=
  if 0 <=? exponent then mantissa * 2 ^ exponent else Z.quot mantissa (2 ^ (- exponent)).

(** [int32(f)]; out of range the language leaves the value to the platform, and
    amd64 gives the least integer. *)
Definition float_int32 (mantissa exponent : Z) : Z :=
  let t := float_trunc mantissa exponent in
  if (int32_min <=? t) && (t <=? int32_max) then t else int32_min.

Definition ParseInt32 (value : json) : option Z :=
  match value with
  | JNumber m e => Some (float_int32 m e)
  | JString s => ParseInt 32 (TrimSpace s)
  | _ => None
  end.

(** ** The resolved shape *)

Inductive role := Coordinator | Worker.

Inductive shape_error :=
| InvalidSizePreset (size : string)
| InvalidQuantity (r : role) (field text : string)
| UnsupportedExistingNodePool (provider : string)
| ExistingNodePoolConflict (r : role) (key existing value : string)
| KEDAMaxBelowMin (maxWorkers minWorkers : Z)
| HPAServerMissing
| HPAAutoscalingMissing
| HPAMinNegative
| HPAMaxBelowOne
| HPAMaxBelowMin (maxWorkers minWorkers : Z)
| FixedNegative
| NodePoolNameMissing
| SchedulePodsConflict (r : role) (key existing value : string)
| NegativeRequest (r : role) (resource : string)
| NegativeLimit (r : role) (resource : string)
| LimitBelowRequest (r : role) (resource limit request : string)
| NegativeWorkers
| MaxBelowMin (maxWorkers minWorkers : Z)
| CapacityBelowOne.

Definition SourcePreset : string := "preset".
Definition SourceTyped : string := "typed".
Definition SourceOverlay : string := "valuesOverlay".

Definition AutoscalingModeFixed : string := "fixed".
Definition AutoscalingModeKEDA : string := "keda".
Definition AutoscalingModeHPA : string := "hpa".

Record SchedulingShape := mkScheduling {
  NodeSelector : option (gmap string string);
  Tolerations : option (list Toleration);
  sched_Affinity : option Affinity;
  TopologySpreadConstraints : option (list TopologySpreadConstraint)
}.

Record NodePoolShape := mkNodePoolShape {
  ProvisioningRequested : bool;
  Provider : string;
  ProviderMode : string;
  nps_Name : string;
  MinNodes : Z;
  MaxNodes : Z;
  MachineType : string;
  SchedulePods : bool;
  DeletionPolicy : string
}.

Record RuntimeShapeSource := mkSource {
  src_CoordinatorResources : string;
  src_WorkerResources : string;
  src_WorkerCount : string;
  src_Capacity : string;
  src_Placement : string;
  src_NodePool : string
}.

Record ResolvedRuntimeShape := mkShape {
  sh_PresetName : string;
  sh_Preset : SizePreset;
  sh_Coordinator : ResourceRequirements;
  sh_Worker : ResourceRequirements;
  sh_MinWorkers : Z;
  sh_MaxWorkers : Z;
  sh_FixedWorkers : option Z;
  sh_QuotaWorkers : Z;
  sh_CapacityWorkers : Z;
  sh_CapacityUnits : Z;
  sh_AutoscalingMode : string;
  sh_PlacementCoordinator : SchedulingShape;
  sh_PlacementWorker : SchedulingShape;
  sh_NodePool : NodePoolShape;
  sh_Source : RuntimeShapeSource;
  sh_Hash : string
}.

(** The steps of [Resolve] each write some fields of the shape. *)
Definition set_Coordinator r s (sh : ResolvedRuntimeShape) : ResolvedRuntimeShape :=
  mkShape (sh_PresetName sh) (sh_Preset sh) r (sh_Worker sh) (sh_MinWorkers sh) (sh_MaxWorkers sh)
    (sh_FixedWorkers sh) (sh_QuotaWorkers sh) (sh_CapacityWorkers sh) (sh_CapacityUnits sh)
    (sh_AutoscalingMode sh) (sh_PlacementCoordinator sh) (sh_PlacementWorker sh) (sh_NodePool sh)
    (mkSource s (src_WorkerResources (sh_Source sh)) (src_WorkerCount (sh_Source sh))
       (src_Capacity (sh_Source sh)) (src_Placement (sh_Source sh)) (src_NodePool (sh_Source sh)))
    (sh_Hash sh).

Definition set_Worker r s (sh : ResolvedRuntimeShape) : ResolvedRuntimeShape :=
  mkShape (sh_PresetName sh) (sh_Preset sh) (sh_Coordinator sh) r (sh_MinWorkers sh) (sh_MaxWorkers sh)
    (sh_FixedWorkers sh) (sh_QuotaWorkers sh) (sh_CapacityWorkers sh) (sh_CapacityUnits sh)
    (sh_AutoscalingMode sh) (sh_PlacementCoordinator sh) (sh_PlacementWorker sh) (sh_NodePool sh)
    (mkSource (src_CoordinatorResources (sh_Source sh)) s (src_WorkerCount (sh_Source sh))
       (src_Capacity (sh_Source sh)) (src_Placement (sh_Source sh)) (src_NodePool (sh_Source sh)))
    (sh_Hash sh).

Definition set_Placement c w (sh : ResolvedRuntimeShape) : ResolvedRuntimeShape :=
  mkShape (sh_PresetName sh) (sh_Preset sh) (sh_Coordinator sh) (sh_Worker sh) (sh_MinWorkers sh)
    (sh_MaxWorkers sh) (sh_FixedWorkers sh) (sh_QuotaWorkers sh) (sh_CapacityWorkers sh)
    (sh_CapacityUnits sh) (sh_AutoscalingMode sh) c w (sh_NodePool sh)
    (mkSource (src_CoordinatorResources (sh_Source sh)) (src_WorkerResources (sh_Source sh))
       (src_WorkerCount (sh_Source sh)) (src_Capacity (sh_Source sh)) SourceTyped
       (src_NodePool (sh_Source sh)))
    (sh_Hash sh).

Definition set_NodePool np (sh : ResolvedRuntimeShape) : ResolvedRuntimeShape :=
  mkShape (sh_PresetName sh) (sh_Preset sh) (sh_Coordinator sh) (sh_Worker sh) (sh_MinWorkers sh)
    (sh_MaxWorkers sh) (sh_FixedWorkers sh) (sh_QuotaWorkers sh) (sh_CapacityWorkers sh)
    (sh_CapacityUnits sh) (sh_AutoscalingMode sh) (sh_PlacementCoordinator sh) (sh_PlacementWorker sh) np
    (mkSource (src_CoordinatorResources (sh_Source sh)) (src_WorkerResources (sh_Source sh))
       (src_WorkerCount (sh_Source sh)) (src_Capacity (sh_Source sh)) (src_Placement (sh_Source sh))
       SourceTyped)
    (sh_Hash sh).

(** Quota and capacity workers are always the maximum. *)
Definition set_Workers (minW maxW : Z) fixed mode source (sh : ResolvedRuntimeShape) :
    ResolvedRuntimeShape :=
  mkShape (sh_PresetName sh) (sh_Preset sh) (sh_Coordinator sh) (sh_Worker sh) minW maxW fixed maxW maxW
    (sh_CapacityUnits sh) mode (sh_PlacementCoordinator sh) (sh_PlacementWorker sh) (sh_NodePool sh)
    (mkSource (src_CoordinatorResources (sh_Source sh)) (src_WorkerResources (sh_Source sh)) source
       (src_Capacity (sh_Source sh)) (src_Placement (sh_Source sh)) (src_NodePool (sh_Source sh)))
    (sh_Hash sh).

Definition set_Capacity units source (sh : ResolvedRuntimeShape) : ResolvedRuntimeShape :=
  mkShape (sh_PresetName sh) (sh_Preset sh) (sh_Coordinator sh) (sh_Worker sh) (sh_MinWorkers sh)
    (sh_MaxWorkers sh) (sh_FixedWorkers sh) (sh_QuotaWorkers sh) (sh_CapacityWorkers sh) units
    (sh_AutoscalingMode sh) (sh_PlacementCoordinator sh) (sh_PlacementWorker sh) (sh_NodePool sh)
    (mkSource (src_CoordinatorResources (sh_Source sh)) (src_WorkerResources (sh_Source sh))
       (src_WorkerCount (sh_Source sh)) source (src_Placement (sh_Source sh)) (src_NodePool (sh_Source sh)))
    (sh_Hash sh).

Definition set_Hash h (sh : ResolvedRuntimeShape) : ResolvedRuntimeShape :=
  mkShape (sh_PresetName sh) (sh_Preset sh) (sh_Coordinator sh) (sh_Worker sh) (sh_MinWorkers sh)
    (sh_MaxWorkers sh) (sh_FixedWorkers sh) (sh_QuotaWorkers sh) (sh_CapacityWorkers sh)
    (sh_CapacityUnits sh) (sh_AutoscalingMode sh) (sh_PlacementCoordinator sh) (sh_PlacementWorker sh)
    (sh_NodePool sh) (sh_Source sh) h.

(** ** Worker counts *)

Definition DefaultWorkerReplicas : Z := 2.
Definition KEDADefaultMaxWorkers : Z := 24.
Definition DefaultHPAMinReplicas : Z := 2.
Definition DefaultHPAMaxReplicas : Z := 5.
Definition DefaultHPACPUTargetPercentage : Z := 50.
Definition DefaultHPAMemoryTargetPercentage : Z := 80.

Definition set_nonblank (s : option string) : bool :=
  match s with Some s => negb (TrimSpace s ≡? "") | None => false end.

Definition hasKEDAMetricConfig (k : KEDASpec) : bool :=
  negb (keda_ScalerType k ≡? "") || negb (keda_ScalingMetric k ≡? "") ||
  set_nonblank (keda_PrometheusServer k) || set_nonblank (keda_PrometheusQuery k) ||
  set_nonblank (keda_HTTPEndpoint k).

Definition IsKEDAActive (x : XTrinode) : bool :=
  match spec_KEDA (xt_Spec x) with
  | Some k => match keda_Enabled k with Some b => b && hasKEDAMetricConfig k | None => false end
  | None => false
  end.

Definition overlayServer (valuesOverlay : option (list (string * json))) :
    option (list (string * json)) :=
  match valuesOverlay with
  | None => None
  | Some m => match json_get m "server" with JObject s => Some s | _ => None end
  end.

Definition overlayAutoscaling (valuesOverlay : option (list (string * json))) :
    option (list (string * json)) :=
  match overlayServer valuesOverlay with
  | None => None
  | Some server => match json_get server "autoscaling" with JObject a => Some a | _ => None end
  end.

(** A target percentage: a number, or switched off by the empty string. *)
Definition hpa_target (v : json) (dflt : Z) : Z :=
  match ParseInt32 v with
  | Some parsed => parsed
  | None => match v with JString s => if s ≡? "" then 0 else dflt | _ => dflt end
  end.

Definition IsNativeHPAActive (valuesOverlay : option (list (string * json))) : bool :=
  match overlayAutoscaling valuesOverlay with
  | None => false
  | Some autoscaling =>
      match json_get autoscaling "enabled" with
      | JBool true =>
          let cpuTarget := hpa_target (json_get autoscaling "targetCPUUtilizationPercentage")
                             DefaultHPACPUTargetPercentage in
          let memoryTarget := hpa_target (json_get autoscaling "targetMemoryUtilizationPercentage")
                                DefaultHPAMemoryTargetPercentage in
          (0 <? cpuTarget) || (0 <? memoryTarget)
      | _ => false
      end
  end.

Definition resolveNativeHPAWorkers (valuesOverlay : option (list (string * json))) :
    result shape_error (Z * Z) :=
  match overlayServer valuesOverlay with
  | None => Err HPAServerMissing
  | Some server =>
      match json_get server "autoscaling" with
      | JObject autoscaling =>
          let maxWorkers := default DefaultHPAMaxReplicas (ParseInt32 (json_get autoscaling "maxReplicas")) in
          let minWorkers := default DefaultHPAMinReplicas (ParseInt32 (json_get autoscaling "minReplicas")) in
          if minWorkers <? 0 then Err HPAMinNegative else
          if maxWorkers <? 1 then Err HPAMaxBelowOne else
          if maxWorkers <? minWorkers then Err (HPAMaxBelowMin maxWorkers minWorkers) else
          Ok (minWorkers, maxWorkers)
      | _ => Err HPAAutoscalingMissing
      end
  end.

Definition resolveFixedWorkers (x : XTrinode) : result shape_error (Z * string) :=
  let '(workers, source) :=
    match spec_MaxWorkers (xt_Spec x) with
    | Some n => (n, SourceTyped)
    | None => (DefaultWorkerReplicas, SourcePreset)
    end in
  let '(workers, source) :=
    match spec_MinWorkers (xt_Spec x) with
    | Some n => if workers <? n then (n, SourceTyped) else (workers, source)
    | None => (workers, source)
    end in
  if workers <? 0 then Err FixedNegative else Ok (workers, source).

Definition resolveWorkerCounts (x : XTrinode) (valuesOverlay : option (list (string * json)))
    (shape : ResolvedRuntimeShape) : result shape_error ResolvedRuntimeShape :=
  if IsKEDAActive x then
    let minWorkers := default 0 (spec_MinWorkers (xt_Spec x)) in
    let maxWorkers := default KEDADefaultMaxWorkers (spec_MaxWorkers (xt_Spec x)) in
    if maxWorkers <? minWorkers then Err (KEDAMaxBelowMin maxWorkers minWorkers)
    else Ok (set_Workers minWorkers maxWorkers None AutoscalingModeKEDA SourceTyped shape)
  else if IsNativeHPAActive valuesOverlay then
    '(minWorkers, maxWorkers) ← resolveNativeHPAWorkers valuesOverlay;
    Ok (set_Workers minWorkers maxWorkers None AutoscalingModeHPA SourceOverlay shape)
  else
    '(fixedWorkers, source) ← resolveFixedWorkers x;
    Ok (set_Workers fixedWorkers fixedWorkers (Some fixedWorkers) AutoscalingModeFixed source shape).

(** ** Placement and node pool *)

Definition copy_nonempty {A} (l : option (list A)) : option (list A) :=
  match l with Some [] => None | _ => l end.

Definition copyStringMap (m : option (gmap string string)) : option (gmap string string) :=
  match m with Some m => if m ≡? ∅ then None else Some m | None => None end.

Definition copySchedulingShape (s : SchedulingShape) : SchedulingShape :=
  mkScheduling (copyStringMap (NodeSelector s)) (copy_nonempty (Tolerations s)) (sched_Affinity s)
    (copy_nonempty (TopologySpreadConstraints s)).

Definition applyRolePlacementSpec (spec : option RolePlacementSpec) (shape : SchedulingShape) :
    SchedulingShape :=
  match spec with
  | None => shape
  | Some spec =>
      mkScheduling
        (match rp_NodeSelector spec with Some _ => copyStringMap (rp_NodeSelector spec)
         | None => NodeSelector shape end)
        (match rp_Tolerations spec with Some _ => copy_nonempty (rp_Tolerations spec)
         | None => Tolerations shape end)
        (match rp_Affinity spec with Some a => Some a | None => sched_Affinity shape end)
        (match rp_TopologySpreadConstraints spec with
         | Some _ => copy_nonempty (rp_TopologySpreadConstraints spec)
         | None => TopologySpreadConstraints shape end)
  end.

(** The error carries the value the selector has already. *)
Definition addSelectorWithConflict (key value : string) (shape : SchedulingShape) :
    result string SchedulingShape :=
  let m := default ∅ (NodeSelector shape) in
  let shape' := mkScheduling (Some (<[key := value]> m)) (Tolerations shape) (sched_Affinity shape)
                  (TopologySpreadConstraints shape) in
  match m !! key with
  | Some existing => if existing ≡? value then Ok shape' else Err existing
  | None => Ok shape'
  end.

Definition ExistingNodePoolSelector (provider name : string) : option (string * string) :=
  let name := TrimSpace name in
  if name ≡? "" then None else
  let provider := ToLower (TrimSpace provider) in
  if provider ≡? "azure" then Some ("kubernetes.azure.com/agentpool", name) else
  if provider ≡? "aws" then Some ("eks.amazonaws.com/nodegroup", name) else
  if provider ≡? "gcp" then Some ("cloud.google.com/gke-nodepool", name) else
  None.

(** Adds a selector to both roles, the coordinator first. *)
Definition addToRoles (conflict : role -> string -> string -> string -> shape_error)
    (key value : string) (c w : SchedulingShape) :
    result shape_error (SchedulingShape * SchedulingShape) :=
  match addSelectorWithConflict key value c with
  | Err existing => Err (conflict Coordinator key existing value)
  | Ok c =>
      match addSelectorWithConflict key value w with
      | Err existing => Err (conflict Worker key existing value)
      | Ok w => Ok (c, w)
      end
  end.

Definition applyTypedPlacement (x : XTrinode) (shape : ResolvedRuntimeShape) :
    result shape_error ResolvedRuntimeShape :=
  match spec_Placement (xt_Spec x) with
  | None => Ok shape
  | Some placement =>
      let common := mkScheduling (copyStringMap (pl_NodeSelector placement))
        (copy_nonempty (pl_Tolerations placement)) (pl_Affinity placement) None in
      let c := applyRolePlacementSpec (pl_Coordinator placement) (copySchedulingShape common) in
      let w := applyRolePlacementSpec (pl_Worker placement) (copySchedulingShape common) in
      '(c, w) ←
        match pl_ExistingNodePool placement with
        | None => Ok (c, w)
        | Some e =>
            match ExistingNodePoolSelector (enp_Provider e) (enp_Name e) with
            | None => Err (UnsupportedExistingNodePool (enp_Provider e))
            | Some (key, value) => addToRoles ExistingNodePoolConflict key value c w
            end
        end;
      Ok (set_Placement c w shape)
  end.

Definition NodePoolNameSuffix : string := "-pool".
Definition NodePoolSchedulingLabel : string := "xtrinode.analytics.xtrinode.io/node-pool".
Definition NodePoolDeletionPolicyDelete : string := "Delete".

Definition nodePoolMachineType (nodePool : NodePoolSpec) : string :=
  let provider := ToLower (TrimSpace (np_Provider nodePool)) in
  if provider ≡? "azure" then from_option az_VMSize "" (np_Azure nodePool) else
  if provider ≡? "aws" then from_option aws_InstanceType "" (np_AWS nodePool) else
  if provider ≡? "gcp" then from_option gcp_MachineType "" (np_GCP nodePool) else
  "".

Definition resolvedNodePoolDeletionPolicy (nodePool : NodePoolSpec) : string :=
  if np_DeletionPolicy nodePool ≡? "" then NodePoolDeletionPolicyDelete else np_DeletionPolicy nodePool.

Definition applyNodePoolShape (x : XTrinode) (shape : ResolvedRuntimeShape) : ResolvedRuntimeShape :=
  match spec_NodePool (xt_Spec x) with
  | None => shape
  | Some nodePool =>
      let poolName := if np_Name nodePool ≡? "" then xt_Name x +:+ NodePoolNameSuffix
                      else np_Name nodePool in
      set_NodePool (mkNodePoolShape true (ToLower (TrimSpace (np_Provider nodePool)))
        (ToLower (TrimSpace (np_ProviderMode nodePool))) poolName
        (default 0 (np_MinNodes nodePool)) (default 0 (np_MaxNodes nodePool))
        (nodePoolMachineType nodePool) (np_SchedulePods nodePool)
        (resolvedNodePoolDeletionPolicy nodePool)) shape
  end.

Definition applyNodePoolSchedulingBinding (shape : ResolvedRuntimeShape) :
    result shape_error ResolvedRuntimeShape :=
  if negb (ProvisioningRequested (sh_NodePool shape)) || negb (SchedulePods (sh_NodePool shape))
  then Ok shape else
  if nps_Name (sh_NodePool shape) ≡? "" then Err NodePoolNameMissing else
  '(c, w) ← addToRoles SchedulePodsConflict NodePoolSchedulingLabel (nps_Name (sh_NodePool shape))
              (sh_PlacementCoordinator shape) (sh_PlacementWorker shape);
  Ok (set_Placement c w shape).

(** ** Resources and capacity *)

Definition ResourceCPU : string := "cpu".
Definition ResourceMemory : string := "memory".

Definition applyTypedResources (x : XTrinode) (shape : ResolvedRuntimeShape) : ResolvedRuntimeShape :=
  match spec_Resources (xt_Spec x) with
  | None => shape
  | Some r =>
      let shape := match rr_Coordinator r with
                   | Some c => set_Coordinator c SourceTyped shape | None => shape end in
      match rr_Worker r with Some w => set_Worker w SourceTyped shape | None => shape end
  end.

Definition BaselineCPUMilliPerCapacityUnit : Z := 2000.

Definition deriveCapacityUnits (worker : ResourceRequirements) (workers : Z) : Z :=
  if workers <=? 0 then 1 else
  match res_Requests worker !! ResourceCPU with
  | None => 1
  | Some cpuRequest =>
      if q_Sign cpuRequest <=? 0 then 1 else
      let totalMilli := int_mul (MilliValue cpuRequest) workers in
      let units := Z.quot (int_add totalMilli (BaselineCPUMilliPerCapacityUnit - 1))
                     BaselineCPUMilliPerCapacityUnit in
      if units <? 1 then 1 else wrap32 units
  end.

Definition resolveCapacity (x : XTrinode) (shape : ResolvedRuntimeShape) : ResolvedRuntimeShape :=
  match spec_Routing (xt_Spec x) ≫= rs_CapacityUnits with
  | Some units => set_Capacity units SourceTyped shape
  | None => set_Capacity (deriveCapacityUnits (sh_Worker shape) (sh_CapacityWorkers shape))
              (src_WorkerResources (sh_Source shape)) shape
  end.

Definition validate_resource (r : role) (requirements : ResourceRequirements) (name : string) :
    option shape_error :=
  let request := res_Requests requirements !! name in
  let limit := res_Limits requirements !! name in
  if from_option (fun q => q_Sign q <? 0) false request then Some (NegativeRequest r name) else
  if from_option (fun q => q_Sign q <? 0) false limit then Some (NegativeLimit r name) else
  match request, limit with
  | Some request, Some limit =>
      match q_Cmp limit request with
      | Lt => Some (LimitBelowRequest r name (q_text limit) (q_text request))
      | _ => None
      end
  | _, _ => None
  end.

Definition validateResourceRequirements (r : role) (requirements : ResourceRequirements) :
    option shape_error :=
  match validate_resource r requirements ResourceCPU with
  | Some e => Some e
  | None => validate_resource r requirements ResourceMemory
  end.

Definition validate (shape : ResolvedRuntimeShape) : option shape_error :=
  match validateResourceRequirements Coordinator (sh_Coordinator shape) with
  | Some e => Some e
  | None =>
  match validateResourceRequirements Worker (sh_Worker shape) with
  | Some e => Some e
  | None =>
      if (sh_MinWorkers shape <? 0) || (sh_MaxWorkers shape <? 0) || (sh_QuotaWorkers shape <? 0) ||
         (sh_CapacityWorkers shape <? 0) then Some NegativeWorkers else
      if sh_MaxWorkers shape <? sh_MinWorkers shape
      then Some (MaxBelowMin (sh_MaxWorkers shape) (sh_MinWorkers shape)) else
      if sh_CapacityUnits shape <? 1 then Some CapacityBelowOne else None
  end end.

(** What the hash covers: everything but the preset's own content. *)
Record resourceRequirementsHash := mkResHash {
  rh_Requests : option (gmap string string);
  rh_Limits : option (gmap string string)
}.

Definition hashResourceList (l : gmap string Quantity) : option (gmap string string) :=
  if q_text <$> l ≡? ∅ then None else Some (q_text <$> l).

Definition hashResources (r : ResourceRequirements) : resourceRequirementsHash :=
  mkResHash (hashResourceList (res_Requests r)) (hashResourceList (res_Limits r)).

Record hash_input := mkHashInput {
  hi_PresetName : string;
  hi_Coordinator : resourceRequirementsHash;
  hi_Worker : resourceRequirementsHash;
  hi_MinWorkers : Z;
  hi_MaxWorkers : Z;
  hi_FixedWorkers : option Z;
  hi_QuotaWorkers : Z;
  hi_CapacityWorkers : Z;
  hi_CapacityUnits : Z;
  hi_AutoscalingMode : string;
  hi_Placement : SchedulingShape * SchedulingShape;
  hi_NodePool : NodePoolShape;
  hi_Source : RuntimeShapeSource
}.

Definition emptyScheduling : SchedulingShape := mkScheduling None None None None.
Definition emptyNodePool : NodePoolShape := mkNodePoolShape false "" "" "" 0 0 "" false "".

Section resolve.
Context `{QuantityParser}.

(** The first sixteen hex digits of the SHA-256 of the JSON of its argument. *)
Context (hash16 : hash_input -> string).

Definition hashShape (shape : ResolvedRuntimeShape) : string :=
  hash16 (mkHashInput (sh_PresetName shape) (hashResources (sh_Coordinator shape))
    (hashResources (sh_Worker shape)) (sh_MinWorkers shape) (sh_MaxWorkers shape)
    (sh_FixedWorkers shape) (sh_QuotaWorkers shape) (sh_CapacityWorkers shape)
    (sh_CapacityUnits shape) (sh_AutoscalingMode shape)
    (sh_PlacementCoordinator shape, sh_PlacementWorker shape) (sh_NodePool shape) (sh_Source shape)).

Definition parse_field (r : role) (field text : string) : result shape_error Quantity :=
  match ParseQuantity text with Some q => Ok q | None => Err (InvalidQuantity r field text) end.

Definition resourcesFromStrings (cpuReq memReq cpuLimit memLimit : string) (r : role) :
    result shape_error ResourceRequirements :=
  parsedCPUReq ← parse_field r "CPU request" cpuReq;
  parsedMemReq ← parse_field r "memory request" memReq;
  parsedCPULimit ← parse_field r "CPU limit" cpuLimit;
  parsedMemLimit ← parse_field r "memory limit" memLimit;
  Ok (mkResources {[ ResourceCPU := parsedCPUReq; ResourceMemory := parsedMemReq ]}
        {[ ResourceCPU := parsedCPULimit; ResourceMemory := parsedMemLimit ]}).

Definition coordinatorResourcesFromPreset (p : SizePreset) : result shape_error ResourceRequirements :=
  resourcesFromStrings (CoordinatorCPUReq p) (CoordinatorMemReq p) (CoordinatorCPULim p)
    (CoordinatorMemLim p) Coordinator.

Definition workerResourcesFromPreset (p : SizePreset) : result shape_error ResourceRequirements :=
  resourcesFromStrings (WorkerCPUReq p) (WorkerMemReq p) (WorkerCPULim p) (WorkerMemLim p) Worker.

Definition Resolve (x : XTrinode) : result shape_error ResolvedRuntimeShape :=
  let presetName := ToLower (TrimSpace (spec_Size (xt_Spec x))) in
  match GetPreset presetName with
  | None => Err (InvalidSizePreset (spec_Size (xt_Spec x)))
  | Some preset =>
      coordinatorResources ← coordinatorResourcesFromPreset preset;
      workerResources ← workerResourcesFromPreset preset;
      let shape := mkShape presetName preset coordinatorResources workerResources 0 0 None 0 0 0
        AutoscalingModeFixed emptyScheduling emptyScheduling emptyNodePool
        (mkSource SourcePreset SourcePreset SourcePreset SourcePreset SourcePreset SourcePreset) "" in
      let shape := applyTypedResources x shape in
      shape ← applyTypedPlacement x shape;
      let shape := applyNodePoolShape x shape in
      shape ← resolveWorkerCounts x (GetValuesOverlayMap (xt_Spec x)) shape;
      shape ← applyNodePoolSchedulingBinding shape;
      let shape := resolveCapacity x shape in
      match validate shape with
      | Some e => Err e
      | None => Ok (set_Hash (hashShape shape) shape)
      end
  end.

(** ** The status form of a shape *)

Definition ObservedRuntimeShapeStatusVersion : string := "v1".

Definition copyResourceList (l : gmap string Quantity) : option (gmap string Quantity) :=
  if decide (l = ∅) then None else Some l.

Definition observedResources (r : ResourceRequirements) : ObservedRuntimeResourcesStatus :=
  mkObservedResources (copyResourceList (res_Requests r)) (copyResourceList (res_Limits r)).

Definition ObservedStatus (shape : ResolvedRuntimeShape) : ObservedRuntimeShapeStatus :=
  let np := sh_NodePool shape in
  mkObservedShape ObservedRuntimeShapeStatusVersion (sh_Hash shape) (sh_PresetName shape) (sh_AutoscalingMode shape)
    (observedResources (sh_Coordinator shape)) (observedResources (sh_Worker shape))
    (mkObservedWorkers (sh_FixedWorkers shape) (sh_MinWorkers shape) (sh_MaxWorkers shape)
       (sh_QuotaWorkers shape) (sh_CapacityWorkers shape))
    (sh_CapacityUnits shape)
    (mkObservedNodePool (ProvisioningRequested np) (Provider np) (ProviderMode np) (nps_Name np)
       (SchedulePods np) (DeletionPolicy np)).

(** ** What a resolved shape guarantees *)

Definition selects (s : SchedulingShape) (key value : string) : Prop :=
  default ∅ (NodeSelector s) !! key = Some value.

Lemma addSelector_selects key value s s' :
  addSelectorWithConflict key value s = Ok s' ->
  selects s' key value /\ (forall k v, selects s k v -> selects s' k v).
Proof.
  unfold addSelectorWithConflict, selects.
  assert (Hok : forall m, m = default ∅ (NodeSelector s) ->
    (m !! key = None \/ m !! key = Some value) ->
    <[key := value]> m !! key = Some value /\
    (forall k v, m !! k = Some v -> <[key := value]> m !! k = Some v)).
  { intros m _ Hm. split; [apply lookup_insert_eq|]. intros k v Hk.
    destruct (decide (key = k)) as [->|Hne]; [rewrite lookup_insert_eq|by rewrite lookup_insert_ne].
    destruct Hm; congruence. }
  destruct (default ∅ (NodeSelector s) !! key) as [ex|] eqn:Ek.
  - destruct (bool_decide_reflect (ex = value)) as [->|]; [|done]. intros [= <-]. simpl. eauto.
  - intros [= <-]. simpl. eauto.
Qed.

Lemma addToRoles_selects conflict key value c w c' w' :
  addToRoles conflict key value c w = Ok (c', w') ->
  selects c' key value /\ selects w' key value /\
  (forall k v, selects c k v -> selects c' k v) /\ (forall k v, selects w k v -> selects w' k v).
Proof.
  unfold addToRoles. destruct (addSelectorWithConflict key value c) eqn:Ec; [|done].
  destruct (addSelectorWithConflict key value w) eqn:Ew; [|done]. intros [= <- <-].
  apply addSelector_selects in Ec as []. apply addSelector_selects in Ew as []. eauto.
Qed.

(** Both roles of a shape are bound to a pool by [key] and [value]. *)
Definition bound_to (shape : ResolvedRuntimeShape) (key value : string) : Prop :=
  selects (sh_PlacementCoordinator shape) key value /\ selects (sh_PlacementWorker shape) key value.

(** The two placement steps replace the placement only. *)
Definition placed (shape shape' : ResolvedRuntimeShape) : Prop :=
  shape' = shape \/ exists c w, shape' = set_Placement c w shape.

Lemma applyTypedPlacement_spec x shape shape' :
  applyTypedPlacement x shape = Ok shape' ->
  placed shape shape' /\
  (forall p e, spec_Placement (xt_Spec x) = Some p -> pl_ExistingNodePool p = Some e ->
     exists key value, ExistingNodePoolSelector (enp_Provider e) (enp_Name e) = Some (key, value) /\
       bound_to shape' key value).
Proof.
  unfold applyTypedPlacement. destruct (spec_Placement (xt_Spec x)) as [p|].
  - intros ([c w] & Hcw & [= <-])%bind_Ok. split; [right; eauto|].
    intros p' e [= <-] He. rewrite He in Hcw.
    destruct (ExistingNodePoolSelector _ _) as [[key value]|]; [|done].
    apply addToRoles_selects in Hcw as (Hc & Hw & _). exists key, value. done.
  - intros [= <-]. split; [by left|done].
Qed.

Lemma binding_spec shape shape' :
  applyNodePoolSchedulingBinding shape = Ok shape' ->
  placed shape shape' /\
  (forall k v, bound_to shape k v -> bound_to shape' k v) /\
  (ProvisioningRequested (sh_NodePool shape) = true -> SchedulePods (sh_NodePool shape) = true ->
     bound_to shape' NodePoolSchedulingLabel (nps_Name (sh_NodePool shape))).
Proof.
  unfold applyNodePoolSchedulingBinding.
  destruct (ProvisioningRequested (sh_NodePool shape)), (SchedulePods (sh_NodePool shape)); simpl;
    try (intros [= <-]; split; [by left|]; split; [done|]; done).
  destruct (_ ≡? _); [done|]. intros ([c w] & Hcw & [= <-])%bind_Ok.
  apply addToRoles_selects in Hcw as (Hc & Hw & Hmc & Hmw). split; [right; eauto|]. split.
  - intros k v [H1 H2]. split; simpl; eauto.
  - intros _ _. split; simpl; done.
Qed.

(** The worker counts of each mode. *)
Definition counts_ok (shape : ResolvedRuntimeShape) : Prop :=
  sh_QuotaWorkers shape = sh_MaxWorkers shape /\ sh_CapacityWorkers shape = sh_MaxWorkers shape /\
  match sh_FixedWorkers shape with
  | Some n => sh_AutoscalingMode shape = AutoscalingModeFixed /\
              sh_MinWorkers shape = n /\ sh_MaxWorkers shape = n
  | None => sh_AutoscalingMode shape = AutoscalingModeKEDA \/
            sh_AutoscalingMode shape = AutoscalingModeHPA
  end.

Lemma resolveWorkerCounts_spec x overlay shape shape' :
  resolveWorkerCounts x overlay shape = Ok shape' ->
  counts_ok shape' /\ exists a b f m s, shape' = set_Workers a b f m s shape.
Proof.
  unfold resolveWorkerCounts. destruct (IsKEDAActive x).
  - destruct (_ <? _); [done|]. intros [= <-]. split; [|eauto 10]. repeat split. by left.
  - destruct (IsNativeHPAActive overlay).
    + intros ([a b] & _ & [= <-])%bind_Ok. split; [|eauto 10]. repeat split. by right.
    + intros ([n s] & _ & [= <-])%bind_Ok. split; [|eauto 10]. repeat split.
Qed.

Definition resources_ok (r : ResourceRequirements) : Prop :=
  forall name, name = ResourceCPU \/ name = ResourceMemory ->
    (forall q, res_Requests r !! name = Some q -> 0 <= q_nano q) /\
    (forall q, res_Limits r !! name = Some q -> 0 <= q_nano q) /\
    (forall q l, res_Requests r !! name = Some q -> res_Limits r !! name = Some l ->
       q_nano q <= q_nano l).

Lemma validate_resource_ok ro r name :
  validate_resource ro r name = None <->
  (forall q, res_Requests r !! name = Some q -> 0 <= q_nano q) /\
  (forall q, res_Limits r !! name = Some q -> 0 <= q_nano q) /\
  (forall q l, res_Requests r !! name = Some q -> res_Limits r !! name = Some l ->
     q_nano q <= q_nano l).
Proof.
  unfold validate_resource, q_Sign, q_Cmp.
  destruct (res_Requests r !! name) as [q|], (res_Limits r !! name) as [l|]; simpl;
    repeat match goal with
    | |- context [Z.sgn ?z <? 0] => destruct (Z.ltb_spec (Z.sgn z) 0)
    | |- context [(?a ?= ?b)%Z] => destruct (Z.compare_spec a b)
    end; split; intros Hx; try discriminate Hx; try reflexivity;
    try (split_and!; intros; simplify_eq; lia);
    destruct Hx as (Hq & Hl & Hle);
    try (pose proof (Hq _ eq_refl)); try (pose proof (Hl _ eq_refl));
    try (pose proof (Hle _ _ eq_refl eq_refl)); lia.
Qed.

Lemma validateResources_ok ro r : validateResourceRequirements ro r = None <-> resources_ok r.
Proof.
  unfold validateResourceRequirements, resources_ok.
  destruct (validate_resource ro r ResourceCPU) eqn:Ec.
  - split; [done|]. intros Hok.
    assert (validate_resource ro r ResourceCPU = None) by (apply validate_resource_ok, Hok; by left).
    congruence.
  - rewrite validate_resource_ok. apply validate_resource_ok in Ec.
    split; [intros Hm name [->| ->]; done|]. intros Hok. apply Hok. by right.
Qed.

(** A shape [validate] accepts. *)
Definition shape_ok (shape : ResolvedRuntimeShape) : Prop :=
  resources_ok (sh_Coordinator shape) /\ resources_ok (sh_Worker shape) /\
  0 <= sh_MinWorkers shape <= sh_MaxWorkers shape /\
  0 <= sh_QuotaWorkers shape /\ 0 <= sh_CapacityWorkers shape /\ 1 <= sh_CapacityUnits shape.

Lemma validate_ok shape : validate shape = None <-> shape_ok shape.
Proof.
  unfold validate, shape_ok. rewrite <- (validateResources_ok Coordinator), <- (validateResources_ok Worker).
  destruct (validateResourceRequirements Coordinator _); [split; [done|by intros []]|].
  destruct (validateResourceRequirements Worker _); [split; [done|intros (_ & ? & _); done]|].
  destruct (Z.ltb_spec (sh_MinWorkers shape) 0), (Z.ltb_spec (sh_MaxWorkers shape) 0),
    (Z.ltb_spec (sh_QuotaWorkers shape) 0), (Z.ltb_spec (sh_CapacityWorkers shape) 0); simpl;
    try (split; [done|intros; lia]).
  destruct (Z.ltb_spec (sh_MaxWorkers shape) (sh_MinWorkers shape)); [split; [done|lia]|].
  destruct (Z.ltb_spec (sh_CapacityUnits shape) 1); split; try done; lia.
Qed.

Definition preset_shape (x : XTrinode) (preset : SizePreset) (cr wr : ResourceRequirements) :
    ResolvedRuntimeShape :=
  mkShape (ToLower (TrimSpace (spec_Size (xt_Spec x)))) preset cr wr 0 0 None 0 0 0
    AutoscalingModeFixed emptyScheduling emptyScheduling emptyNodePool
    (mkSource SourcePreset SourcePreset SourcePreset SourcePreset SourcePreset SourcePreset) "".

(** The intermediate shapes of a successful resolution. *)
Lemma resolve_stages x shape :
  Resolve x = Ok shape ->
  exists preset cr wr sh1 sh2 sh3,
    GetPreset (ToLower (TrimSpace (spec_Size (xt_Spec x)))) = Some preset /\
    applyTypedPlacement x (applyTypedResources x (preset_shape x preset cr wr)) = Ok sh1 /\
    resolveWorkerCounts x (GetValuesOverlayMap (xt_Spec x)) (applyNodePoolShape x sh1) = Ok sh2 /\
    applyNodePoolSchedulingBinding sh2 = Ok sh3 /\
    shape_ok (resolveCapacity x sh3) /\
    shape = set_Hash (hashShape (resolveCapacity x sh3)) (resolveCapacity x sh3).
Proof.
  unfold Resolve. destruct (GetPreset _) as [preset|] eqn:Ep; [|done].
  intros (cr & _ & (wr & _ & Hr)%bind_Ok)%bind_Ok.
  apply bind_Ok in Hr as (sh1 & H1 & (sh2 & H2 & (sh3 & H3 & Hr)%bind_Ok)%bind_Ok).
  destruct (validate (resolveCapacity x sh3)) eqn:Hv; [done|]. injection Hr as <-.
  apply validate_ok in Hv. by exists preset, cr, wr, sh1, sh2, sh3.
Qed.

Lemma resolveCapacity_spec x shape :
  exists u v, resolveCapacity x shape = set_Capacity u v shape /\
    (forall r units, spec_Routing (xt_Spec x) = Some r -> rs_CapacityUnits r = Some units -> u = units).
Proof.
  unfold resolveCapacity. destruct (spec_Routing (xt_Spec x)) as [r|]; simpl.
  - destruct (rs_CapacityUnits r) eqn:Er; simpl; eexists _, _; (split; [done|]);
      intros r' u' [= <-]; congruence.
  - eexists _, _. split; [done|]. intros r' u' [=].
Qed.

Lemma applyTypedResources_preset x shape :
  sh_PresetName (applyTypedResources x shape) = sh_PresetName shape /\
  sh_Preset (applyTypedResources x shape) = sh_Preset shape.
Proof. unfold applyTypedResources. by destruct (spec_Resources (xt_Spec x)) as [[[] []]|]. Qed.

Lemma placed_frame shape shape' :
  placed shape shape' ->
  sh_PresetName shape' = sh_PresetName shape /\ sh_Preset shape' = sh_Preset shape /\
  sh_NodePool shape' = sh_NodePool shape /\ (counts_ok shape -> counts_ok shape').
Proof. intros [->|(? & ? & ->)]; done. Qed.

Lemma applyNodePoolShape_spec x shape :
  sh_PresetName (applyNodePoolShape x shape) = sh_PresetName shape /\
  sh_Preset (applyNodePoolShape x shape) = sh_Preset shape /\
  (forall k v, bound_to shape k v -> bound_to (applyNodePoolShape x shape) k v) /\
  (forall np, spec_NodePool (xt_Spec x) = Some np ->
    ProvisioningRequested (sh_NodePool (applyNodePoolShape x shape)) = true /\
    SchedulePods (sh_NodePool (applyNodePoolShape x shape)) = np_SchedulePods np /\
    (np_Name np <> "" -> nps_Name (sh_NodePool (applyNodePoolShape x shape)) = np_Name np)).
Proof.
  unfold applyNodePoolShape. destruct (spec_NodePool (xt_Spec x)) as [np|]; [|done].
  split_and!; try done. intros np' [= <-]. simpl. split_and!; try done.
  intros Hne. by rewrite bool_decide_false.
Qed.


(** The node pool of a resolved shape is the one of the specification. *)
Lemma resolve_node_pool x shape :
  Resolve x = Ok shape ->
  match spec_NodePool (xt_Spec x) with
  | None => sh_NodePool shape = emptyNodePool
  | Some np =>
      ProvisioningRequested (sh_NodePool shape) = true /\
      Provider (sh_NodePool shape) = ToLower (TrimSpace (np_Provider np)) /\
      ProviderMode (sh_NodePool shape) = ToLower (TrimSpace (np_ProviderMode np)) /\
      SchedulePods (sh_NodePool shape) = np_SchedulePods np /\
      nps_Name (sh_NodePool shape) =
        (if np_Name np ≡? "" then xt_Name x +:+ NodePoolNameSuffix else np_Name np)
  end.
Proof.
  intros (preset & cr & wr & sh1 & sh2 & sh3 & Hp & H1 & H2 & H3 & Hv & ->)%resolve_stages.
  apply applyTypedPlacement_spec in H1 as [Hpl1 _].
  apply resolveWorkerCounts_spec in H2 as [_ (a & b & f & m & s & ->)].
  apply binding_spec in H3 as (Hpl3 & _ & _).
  apply placed_frame in Hpl1 as (_ & _ & Hnp1 & _).
  apply placed_frame in Hpl3 as (_ & _ & Hnp3 & _).
  destruct (resolveCapacity_spec x sh3) as (u & v & Hcap & _). rewrite Hcap. simpl. rewrite Hnp3. simpl.
  unfold applyNodePoolShape. destruct (spec_NodePool (xt_Spec x)) as [np|]; [by simpl|].
  rewrite Hnp1. unfold applyTypedResources. by destruct (spec_Resources (xt_Spec x)) as [[[] []]|].
Qed.

(** ** Preset runtimes always resolve *)

Lemma preset_resources a b c d ro :
  0 <= a <= c -> 0 <= b <= d -> c < 2 ^ 31 -> d < 2 ^ 31 ->
  exists r, resourcesFromStrings (pretty a) (pretty b +:+ "Gi") (pretty c) (pretty d +:+ "Gi") ro = Ok r /\
    resources_ok r /\ exists q, res_Requests r !! ResourceCPU = Some q /\ q_nano q = a * nano_per_unit.
Proof.
  intros Ha Hb Hc Hd. unfold resourcesFromStrings, parse_field.
  destruct (parse_decimal a) as (qa & -> & Ea); [lia|].
  destruct (parse_gibi b) as (qb & -> & Eb); [lia|].
  destruct (parse_decimal c) as (qc & -> & Ec); [lia|].
  destruct (parse_gibi d) as (qd & -> & Ed); [lia|]. simpl. eexists. split; [done|]. split.
  - assert (H1 : q_nano qa <= q_nano qc) by (rewrite Ea, Ec; unfold nano_per_unit; lia).
    assert (H2 : q_nano qb <= q_nano qd) by (rewrite Eb, Ed; unfold nano_per_unit; lia).
    assert (H3 : 0 <= q_nano qa) by (rewrite Ea; unfold nano_per_unit; lia).
    assert (H4 : 0 <= q_nano qb) by (rewrite Eb; unfold nano_per_unit; lia).
    intros name [->| ->]; simpl; split_and!; intros q *; simplify_map_eq; intros; simplify_map_eq; lia.
  - exists qa. split; [by simplify_map_eq|done].
Qed.

Definition preset_cores : list (string * Z) := [("xs", 1); ("s", 2); ("m", 4); ("l", 8); ("xl", 16)].

(** The presets in terms of the numbers they are written with. *)
Definition preset_of (a b c d mw : Z) (mt : MachineTypeRecommendations) : SizePreset :=
  mkPreset (pretty a) (pretty b +:+ "Gi") (pretty c) (pretty d +:+ "Gi") mw
    (pretty 1) (pretty 4 +:+ "Gi") (pretty 2) (pretty 8 +:+ "Gi") mt.

Lemma preset_form size cores :
  (size, cores) ∈ preset_cores ->
  1 <= cores <= 16 /\
  exists b c d mw mt, GetPreset size = Some (preset_of cores b c d mw mt) /\
    cores <= c < 2 ^ 31 /\ 0 <= b <= d /\ d < 2 ^ 31.
Proof.
  unfold preset_cores. intros Hin.
  repeat (apply elem_of_cons in Hin as [[= -> ->]|Hin]); [..|by apply elem_of_nil in Hin];
    (split; [lia|]); [exists 4, 2, 8|exists 8, 8, 32|exists 16, 16, 64|exists 32, 32, 128|exists 64, 64, 256];
    eexists _, _; (split; [vm_compute; reflexivity|lia]).
Qed.

Lemma preset_resolves_resources size cores :
  (size, cores) ∈ preset_cores ->
  exists p cr wr q, GetPreset size = Some p /\ coordinatorResourcesFromPreset p = Ok cr /\
    workerResourcesFromPreset p = Ok wr /\ resources_ok cr /\ resources_ok wr /\
    res_Requests wr !! ResourceCPU = Some q /\ q_nano q = cores * nano_per_unit.
Proof.
  intros (Hcores & b & c & d & mw & mt & Hp & Hc & Hb & Hd)%preset_form.
  destruct (preset_resources 1 4 2 8 Coordinator) as (cr & Hcr & Hokc & _); try lia.
  destruct (preset_resources cores b c d Worker) as (wr & Hwr & Hokw & q & Hq & Hn); try lia.
  by exists (preset_of cores b c d mw mt), cr, wr, q.
Qed.

(** The capacity is the CPU of all workers in units of two cores, rounded up. *)
Lemma deriveCapacityUnits_exact r workers q cores :
  res_Requests r !! ResourceCPU = Some q -> q_nano q = cores * nano_per_unit ->
  1 <= cores <= 2 ^ 20 -> 0 <= workers <= 2 ^ 10 ->
  deriveCapacityUnits r workers = Z.max 1 ((cores * workers + 1) / 2).
Proof.
  intros Hq Hn Hc Hw. unfold deriveCapacityUnits. rewrite Hq. unfold q_Sign, MilliValue. rewrite Hn.
  unfold nano_per_unit, BaselineCPUMilliPerCapacityUnit.
  destruct (Z.leb_spec workers 0); [assert (workers = 0) as -> by lia; by rewrite Z.mul_0_r|].
  rewrite Z.sgn_pos by lia. simpl.
  replace (- (cores * 1000000000)) with (- (cores * 1000) * 1000000) by lia.
  rewrite Z.div_mul by lia. rewrite Z.opp_involutive, wrap64_id by (unfold in_int64, int64_min, int64_max; lia).
  unfold int_mul, int_add. rewrite (wrap64_id (cores * 1000 * workers)) by (unfold in_int64, int64_min, int64_max; nia).
  rewrite wrap64_id by (unfold in_int64, int64_min, int64_max; nia).
  rewrite Z.quot_div_nonneg by nia.
  replace ((cores * 1000 * workers + (2000 - 1)) / 2000) with ((cores * workers + 1) / 2).
  - destruct (Z.ltb_spec ((cores * workers + 1) / 2) 1); [lia|].
    rewrite wrap32_id; [lia|]. unfold int32_min, int32_max.
    assert ((cores * workers + 1) / 2 <= cores * workers) by (apply Z.div_le_upper_bound; nia). nia.
  - replace (cores * 1000 * workers) with (cores * workers * 1000) by lia.
    generalize (cores * workers) as z. intros z.
    pose proof (Z.div_mod (z + 1) 2). pose proof (Z.mod_pos_bound (z + 1) 2).
    apply Z.div_unique with (z * 1000 + 1999 - 2000 * ((z + 1) / 2)); lia.
Qed.

(** The worker count of a runtime without autoscaling. *)
Definition fixed_workers (x : XTrinode) : Z :=
  Z.max (default DefaultWorkerReplicas (spec_MaxWorkers (xt_Spec x)))
        (default 0 (spec_MinWorkers (xt_Spec x))).

Lemma resolveFixedWorkers_exact x :
  0 <= default 0 (spec_MaxWorkers (xt_Spec x)) -> 0 <= default 0 (spec_MinWorkers (xt_Spec x)) ->
  exists src, resolveFixedWorkers x = Ok (fixed_workers x, src).
Proof.
  unfold resolveFixedWorkers, fixed_workers, DefaultWorkerReplicas.
  destruct (spec_MaxWorkers (xt_Spec x)) as [a|], (spec_MinWorkers (xt_Spec x)) as [b|]; simpl; intros Ha Hb.
  - destruct (Z.ltb_spec a b); [destruct (Z.ltb_spec b 0); [lia|]|destruct (Z.ltb_spec a 0); [lia|]];
      eexists; do 2 f_equal; lia.
  - destruct (Z.ltb_spec a 0); [lia|]. eexists. do 2 f_equal; lia.
  - destruct (Z.ltb_spec 2 b); [destruct (Z.ltb_spec b 0); [lia|]|]; eexists; simpl; do 2 f_equal; lia.
  - by eexists.
Qed.

(** Uses the preset only: size and worker bounds, no overrides. *)
Definition preset_only (x : XTrinode) : Prop :=
  spec_Resources (xt_Spec x) = None /\ spec_Placement (xt_Spec x) = None /\
  spec_NodePool (xt_Spec x) = None /\ spec_Routing (xt_Spec x) ≫= rs_CapacityUnits = None /\
  IsKEDAActive x = false /\ IsNativeHPAActive (GetValuesOverlayMap (xt_Spec x)) = false.

(** A runtime that only names one of the five sizes, in any case and with
    any surrounding blanks, and worker bounds within the limits of the API
    always resolves.  It gets the number of workers it asks for and a capacity
    of all its workers' cores in units of two, rounded up, computed without
    overflow; with the default of two workers that is the number of cores of
    one worker. *)
Theorem preset_capacity x size cores :
  (size, cores) ∈ preset_cores -> ToLower (TrimSpace (spec_Size (xt_Spec x))) = size ->
  preset_only x ->
  0 <= default 0 (spec_MaxWorkers (xt_Spec x)) <= 500 ->
  0 <= default 0 (spec_MinWorkers (xt_Spec x)) <= 500 ->
  exists shape, Resolve x = Ok shape /\
    sh_FixedWorkers shape = Some (fixed_workers x) /\
    sh_CapacityUnits shape = Z.max 1 ((cores * fixed_workers x + 1) / 2) /\
    (fixed_workers x = 2 -> sh_CapacityUnits shape = cores).
Proof.
  intros Hin Hsize (Hres & Hpl & Hnp & Hcap & Hk & Hh) Hmax Hmin.
  destruct (preset_form size cores Hin) as (Hcores & _).
  destruct (preset_resolves_resources size cores Hin) as (p & cr & wr & q & Hp & Hcr & Hwr & Hokc & Hokw & Hq & Hn).
  destruct (resolveFixedWorkers_exact x) as [src Hf]; [lia|lia|].
  assert (Hw : 0 <= fixed_workers x <= 500).
  { unfold fixed_workers, DefaultWorkerReplicas.
    destruct (spec_MaxWorkers (xt_Spec x)), (spec_MinWorkers (xt_Spec x)); simpl in *; lia. }
  pose proof (deriveCapacityUnits_exact wr (fixed_workers x) q cores Hq Hn ltac:(lia) ltac:(lia)) as Hu.
  unfold Resolve. rewrite Hsize, Hp, Hcr. simpl. rewrite Hwr. simpl.
  unfold applyTypedResources, applyTypedPlacement, applyNodePoolShape, resolveWorkerCounts.
  rewrite Hres, Hpl. simpl. rewrite Hnp, Hk, Hh, Hf. simpl.
  unfold resolveCapacity. rewrite Hcap. simpl. rewrite Hu.
  rewrite (proj2 (validate_ok _)).
  - eexists. split; [done|]. simpl. split; [done|]. split; [done|]. intros ->.
    replace (cores * 2 + 1) with (1 + cores * 2) by lia. rewrite Z.div_add by lia.
    change (1 / 2) with 0. lia.
  - unfold shape_ok; simpl. split_and!; try done; lia.
Qed.

End resolve.

(** ** A concrete parser *)

Fixpoint scan_digits (acc : Z) (s : string) : Z * string :=
  match s with
  | EmptyString => (acc, "")
  | String c t => match digit c with Some d => scan_digits (10 * acc + d) t | None => (acc, s) end
  end.

Definition simple_ParseQuantity (s : string) : option Quantity :=
  let '(n, rest) := scan_digits 0 s in
  if s ≡? "" then None else
  if rest ≡? "" then Some (mkQuantity (n * nano_per_unit) s) else
  if rest ≡? "Gi" then Some (mkQuantity (n * 2 ^ 30 * nano_per_unit) s) else
  None.

Lemma digit_value_pretty (d : N) : (d < 10)%N -> digit (pretty_N_char d) = Some (Z.of_N d).
Proof.
  intros Hd. destruct d as [|p]; [done|].
  do 4 (destruct p as [p|p|]; try done; try lia).
Qed.

Lemma scan_pretty_go x s : scan_digits 0 (pretty_N_go x s) = scan_digits (Z.of_N x) s.
Proof.
  revert s. induction (N.lt_wf_0 x) as [x _ IH]. intros s.
  destruct (decide (0 < x)%N) as [Hx|Hx]; [|by assert (x = 0)%N as -> by lia].
  rewrite pretty_N_go_step, IH by (try apply N.div_lt; lia). cbn [scan_digits].
  rewrite digit_value_pretty by (apply N.mod_lt; lia). f_equal.
  pose proof (N.div_mod x 10 ltac:(lia)). lia.
Qed.

Lemma pretty_go_app x s : pretty_N_go x s = pretty_N_go x "" +:+ s.
Proof.
  revert s. induction (N.lt_wf_0 x) as [x _ IH]. intros s.
  destruct (decide (0 < x)%N) as [Hx|Hx]; [|by assert (x = 0)%N as -> by lia].
  assert (Hlt : (x `div` 10 < x)%N) by (apply N.div_lt; lia).
  rewrite pretty_N_go_step, (IH _ Hlt) by lia.
  rewrite (pretty_N_go_step x ""), (IH _ Hlt (String _ "")) by lia.
  generalize (pretty_N_go (x `div` 10) "") as t, (pretty_N_char (x `mod` 10)) as c. clear. intros t c.
  induction t as [|c' t IH]; [done|]. exact (f_equal (String c') IH).
Qed.

Lemma scan_pretty n suffix :
  0 <= n -> scan_digits 0 (pretty n +:+ suffix) = scan_digits n suffix.
Proof.
  intros Hn. destruct n as [|p|p]; [done| |lia].
  change (pretty (Z.pos p)) with (pretty (N.pos p)). unfold pretty, pretty_N.
  rewrite decide_False by done. rewrite <- pretty_go_app, scan_pretty_go. done.
Qed.

Lemma pretty_Z_nonempty n : 0 <= n -> pretty n <> "".
Proof.
  intros Hn H0. pose proof (scan_pretty n "" Hn) as Hs. rewrite H0 in Hs. simpl in Hs.
  injection Hs as <-. by vm_compute in H0.
Qed.

#[export] Program Instance simple_quantities : QuantityParser := {
  ParseQuantity := simple_ParseQuantity
}.
Next Obligation.
  intros n Hn. pose proof (scan_pretty n "" ltac:(lia)) as Hs.
  assert (Happ : pretty n +:+ "" = pretty n) by (generalize (pretty n); clear; induction s as [|c s IH]; [done|exact (f_equal (String c) IH)]).
  rewrite Happ in Hs. unfold simple_ParseQuantity. rewrite Hs. simpl.
  rewrite bool_decide_false by (apply pretty_Z_nonempty; lia). eexists. split; [done|done].
Qed.
Next Obligation.
  intros n Hn. unfold simple_ParseQuantity. rewrite (scan_pretty n "Gi") by lia. simpl.
  rewrite bool_decide_false by (pose proof (pretty_Z_nonempty n ltac:(lia)); by destruct (pretty n)).
  eexists. split; [done|done].
Qed.

(** ** Witnesses *)

Definition ex_hash16 (_ : hash_input) : string := "0123456789abcdef".

Definition ex_bound_pool : NodePoolSpec :=
  mkNodePool "" "aws" (Some 1) (Some 3) true "managed" None "" None
    (Some (mkAWSNodePool "m5.large" "")) None None "" None None None None None None.

Definition ex_runtime (size : string) (np : option NodePoolSpec) : XTrinode :=
  mkXTrinode "x" "a" 1 0 0 None [] ∅ ∅
    (mkSpec size None None false None None None None None np None None None None None)
    (status_of_phase "Ready").


Lemma preset_capacity_witness :
  exists shape, Resolve ex_hash16 (ex_runtime "L" None) = Ok shape /\ sh_CapacityUnits shape = 8.
Proof.
  destruct (preset_capacity ex_hash16 (ex_runtime "L" None) "l" 8) as (shape & Hr & _ & _ & Hc).
  - vm_compute. do 3 right. left.
  - reflexivity.
  - repeat split; reflexivity.
  - simpl. lia.
  - simpl. lia.
  - exists shape. split; [exact Hr|]. apply Hc. reflexivity.
Defined.
