(* ===== verification/DataSize.v ===== *)
(** * Data sizes ([api/v1/xtrinode_webhook.go], [strconv.ParseFloat])

    Trino writes memory sizes as a decimal number with a unit.  The webhook
    reads them with [strconv.ParseFloat], which accepts exponents, hexadecimal
    numbers, digit separators, infinities and NaN. *)

From S2P Require Import Prelude GoStrings GoTime GoParse XTrinodeTypes RuntimeShape.

(** ** [strconv.ParseFloat(s, 64)] *)

Inductive parsed_float :=
| Finite (neg : bool) (x : float64)
| Infinite (neg : bool)
| NotANumber.

(** [special]: infinities, with a sign, and NaN, without. *)
Definition special (s : string) : option parsed_float :=
  let '(neg, t) := split_sign s in
  let word := ToLower t in
  if (word ≡? "inf") || (word ≡? "infinity") then Some (Infinite neg) else
  if ToLower s ≡? "nan" then Some NotANumber else None.

Definition hex_digit (c : ascii) : option Z :=
  match digit c with
  | Some d => Some d
  | None =>
      let l := lower_byte c in
      if byte_in 97 102 l then Some (Z.of_N (N_of_ascii l) - 87) else None
  end.

(** What the digit loop of [readFloat] has seen: the digits as one number, how
    many of them follow the dot, and which kinds of bytes occurred. *)
Record mantissa := mkMantissa {
  ma_value : Z;
  ma_places : Z;
  ma_sawdigits : bool;
  ma_sawdot : bool;
  ma_underscores : bool
}.

Fixpoint scan_mantissa (hex : bool) (m : mantissa) (s : string) : mantissa * string :=
  match s with
  | EmptyString => (m, s)
  | String c t =>
      if c ≡? "_"%char then
        scan_mantissa hex (mkMantissa (ma_value m) (ma_places m) (ma_sawdigits m) (ma_sawdot m) true) t
      else if c ≡? "."%char then
        if ma_sawdot m then (m, s)
        else scan_mantissa hex (mkMantissa (ma_value m) (ma_places m) (ma_sawdigits m) true (ma_underscores m)) t
      else
        match (if hex then hex_digit c else digit c) with
        | Some d =>
            scan_mantissa hex (mkMantissa (ma_value m * (if hex then 16 else 10) + d)
              (if ma_sawdot m then ma_places m + 1 else ma_places m) true (ma_sawdot m) (ma_underscores m)) t
        | None => (m, s)
        end
  end.

(** The digits of an exponent; beyond 10000 they are skipped. *)
Fixpoint scan_exponent (e : Z) (underscores : bool) (s : string) : Z * bool * string :=
  match s with
  | EmptyString => (e, underscores, s)
  | String c t =>
      if c ≡? "_"%char then scan_exponent e true t else
      match digit c with
      | Some d => scan_exponent (if e <? 10000 then e * 10 + d else e) underscores t
      | None => (e, underscores, s)
      end
  end.

(** [underscoreOK] after the sign and the base prefix: [saw] is the last kind of
    byte, a digit, an underscore or anything else. *)
Inductive seen := SawDigit | SawUnderscore | SawOther.

Fixpoint underscores_separate (hex : bool) (saw : seen) (s : string) : bool :=
  match s with
  | EmptyString => match saw with SawUnderscore => false | _ => true end
  | String c t =>
      if match (if hex then hex_digit c else digit c) with Some _ => true | None => false end
      then underscores_separate hex SawDigit t
      else if c ≡? "_"%char then
        match saw with SawDigit => underscores_separate hex SawUnderscore t | _ => false end
      else match saw with SawUnderscore => false | _ => underscores_separate hex SawOther t end
  end.

(** The base of a number without its sign, and its digits: a prefix counts when
    something follows it. *)
Definition base_prefix (s : string) : bool * string :=
  match s with
  | String "0" (String x (String c t)) =>
      if lower_byte x ≡? "x"%char then (true, String c t) else (false, s)
  | _ => (false, s)
  end.

Definition underscoreOK (s : string) : bool :=
  match s with
  | String "0" (String x t) =>
      let b := lower_byte x in
      if (b ≡? "b"%char) || (b ≡? "o"%char) || (b ≡? "x"%char)
      then underscores_separate (b ≡? "x"%char) SawDigit t
      else underscores_separate false SawOther s
  | _ => underscores_separate false SawOther s
  end.

(** [n / d * b ^ e] as a float; [None] when it is out of range. *)
Definition float_of_ratio (n d b e : Z) : option float64 :=
  let '(m, ex) := if 0 <=? e then round53 (n * b ^ e) d else round53 n (d * b ^ (- e)) in
  if 1024 <? Z.log2 m + ex + 1 then None else Some (m, ex).

(** [readFloat]: an exponent is optional in base 10 and required in base 16. *)
Definition read_float (s : string) : option float64 :=
  let '(hex, body) := base_prefix s in
  let '(m, rest) := scan_mantissa hex (mkMantissa 0 0 false false false) body in
  if negb (ma_sawdigits m) then None else
  let finish (e : Z) (underscores : bool) (rest : string) :=
    if negb (rest ≡? "") then None else
    if underscores && negb (underscoreOK s) then None else
    float_of_ratio (ma_value m) ((if hex then 16 else 10) ^ ma_places m) (if hex then 2 else 10) e in
  match rest with
  | String c t =>
      if lower_byte c ≡? (if hex then "p"%char else "e"%char) then
        let '(eneg, t) := split_sign t in
        match t with
        | String d _ =>
            match digit d with
            | None => None
            | Some _ =>
                let '(e, under, rest) := scan_exponent 0 (ma_underscores m) t in
                finish (if eneg then - e else e) under rest
            end
        | EmptyString => None
        end
      else None
  | EmptyString => if hex then None else finish 0 (ma_underscores m) rest
  end.

Definition ParseFloat (s : string) : option parsed_float :=
  match special s with
  | Some f => Some f
  | None => let '(neg, t) := split_sign s in Finite neg <$> read_float t
  end.

Example parse_float_forms :
  ParseFloat "1_23.50e+1_2" = Some (Finite false (round53 123500000000000 1)) /\
  ParseFloat "0x1p-2" = Some (Finite false (round53 1 4)) /\ ParseFloat "-iNf" = Some (Infinite true) /\
  ParseFloat "1e400" = None /\ ParseFloat "1_" = None /\ ParseFloat "." = None /\ ParseFloat "0x1" = None.
Proof. vm_compute. done. Qed.

(** ** Decimal numbers are read exactly *)

Definition is_digit_byte (c : ascii) : bool := byte_in 48 57 c.

Lemma TrimFunc_none p s : all_bytes (fun c => negb (p c)) s = true -> TrimFunc p s = s.
Proof.
  intros Hs. assert (HL : TrimLeftFunc p s = s).
  { destruct s as [|c s]; [done|]. simpl in *. by destruct (p c). }
  unfold TrimFunc. rewrite HL. clear HL.
  induction s as [|c s IH]; [done|]. simpl in *. apply andb_true_iff in Hs as [Hc Hs].
  rewrite IH by done. destruct s; [|done]. by destruct (p c).
Qed.

Lemma map_bytes_id f s : all_bytes (fun c => f c ≡? c) s = true -> map_bytes f s = s.
Proof.
  induction s as [|c s IH]; simpl; [done|]. intros [Hc%bool_decide_eq_true Hs]%andb_true_iff.
  by rewrite Hc, IH.
Qed.

Lemma all_bytes_impl (p q : ascii -> bool) s :
  (forall c, p c = true -> q c = true) -> all_bytes p s = true -> all_bytes q s = true.
Proof.
  intros Hpq. induction s as [|c s IH]; simpl; [done|]. intros [Hc Hs]%andb_true_iff.
  by rewrite Hpq, IH.
Qed.

Lemma digits_are_bytes ds : Forall is_digit ds -> all_bytes is_digit_byte (string_of_digits ds) = true.
Proof.
  induction 1 as [|d ds Hd _ IH]; simpl; [done|]. rewrite IH, andb_true_r.
  pose proof (digit_ascii d Hd) as H. unfold digit in H. unfold is_digit_byte. by destruct (byte_in _ _ _).
Qed.

Lemma special_digits s : all_bytes is_digit_byte s = true -> s <> "" -> split_sign s = (false, s) -> special s = None.
Proof.
  intros Hd Hne Hsplit. unfold special. rewrite Hsplit. destruct s as [|c s]; [done|].
  simpl in Hd. apply andb_true_iff in Hd as [Hc _]. revert Hc.
  destruct c as [[] [] [] [] [] [] [] []]; done.
Qed.

Lemma scan_mantissa_digits ds m :
  Forall is_digit ds -> ma_sawdot m = false -> ds <> [] ->
  scan_mantissa false m (string_of_digits ds) =
    (mkMantissa (fold_left (fun x d => x * 10 + d) ds (ma_value m)) (ma_places m) true false (ma_underscores m), "").
Proof.
  intros Hds. revert m. induction Hds as [|d ds Hd Hds IH]; intros m Hm Hne; [done|].
  cbn [string_of_digits scan_mantissa]. rewrite digit_ascii by done.
  rewrite !bool_decide_false by
    (intros Hc; pose proof (digit_ascii d Hd) as H; rewrite Hc in H; discriminate H).
  rewrite Hm. destruct ds as [|d' ds']; [done|]. by rewrite IH.
Qed.

Lemma base_prefix_digits s : all_bytes is_digit_byte s = true -> base_prefix s = (false, s).
Proof.
  intros Hs. destruct s as [|c [|x [|y s]]];
    [done|by destruct c as [[] [] [] [] [] [] [] []]|by destruct c as [[] [] [] [] [] [] [] []]|].
  simpl in Hs. apply andb_true_iff in Hs as [_ [Hx _]%andb_true_iff].
  destruct c as [[] [] [] [] [] [] [] []]; try reflexivity. simpl.
  case_bool_decide as E; [exfalso|done].
  revert Hx E. clear. by destruct x as [[] [] [] [] [] [] [] []].
Qed.

(** A number below [2^53] written in decimal is read without rounding. *)
Lemma ParseFloat_decimal n :
  0 <= n < 2 ^ 53 -> ParseFloat (fmt_d n) = Some (Finite false (float_of_Z n)).
Proof.
  intros Hn. unfold fmt_d. destruct (pretty_digits n ltac:(lia)) as (ds & -> & Hds & Hv & Hne).
  pose proof (digits_are_bytes ds Hds) as Hb.
  pose proof (split_sign_digits ds "" Hds Hne) as Hsplit. rewrite string_app_nil_r in Hsplit.
  assert (Hs : string_of_digits ds <> "") by (by destruct ds).
  unfold ParseFloat. rewrite special_digits, Hsplit by done. unfold read_float.
  rewrite base_prefix_digits by done. rewrite scan_mantissa_digits by done. cbn.
  fold (digits_value ds). rewrite Hv. unfold float_of_ratio, float_of_Z. cbn [Z.leb].
  change (0 <=? 0) with true. cbv iota. rewrite Z.mul_1_r.
  rewrite bool_decide_true by done. change (10 ^ 0) with 1. cbn [negb andb].
  destruct (decide (n = 0)) as [->|Hz]; [done|].
  pose proof (float_of_Z_exact n ltac:(lia)) as He. unfold float_of_Z, exactly in He.
  destruct (round53 n 1) as [m ex]. simpl in He. destruct He as [Hex ->].
  rewrite Z.log2_mul_pow2 by lia.
  assert (Z.log2 n < 53) by (apply Z.log2_lt_pow2; lia).
  by rewrite (proj2 (Z.ltb_ge 1024 _)) by lia.
Qed.

(** ** [parseTrinoDataSizeBytes] *)

(** [parsed < 0]: minus zero and NaN are not. *)
Definition float_negative (f : parsed_float) : bool :=
  match f with
  | Finite neg (m, _) => neg && (0 <? m)
  | Infinite neg => neg
  | NotANumber => false
  end.

(** [int64(f * multiplier)]: out of range, and for NaN, amd64 gives the least
    integer. *)
Definition scaled_int64 (f : parsed_float) (multiplier : Z) : Z :=
  match f with
  | Finite neg x =>
      let t := float64_trunc (float_mul x (float_of_Z multiplier)) in
      let t := if neg then - t else t in
      if (int64_min <=? t) && (t <=? int64_max) then t else int64_min
  | _ => int64_min
  end.

Definition size_units : list (string * Z) :=
  [("TIB", 1024 ^ 4); ("TB", 1000 ^ 4); ("GIB", 1024 ^ 3); ("GB", 1000 ^ 3); ("MIB", 1024 ^ 2);
   ("MB", 1000 ^ 2); ("KIB", 1024); ("KB", 1000); ("B", 1)].

(** [Quantity.Value]: rounded up to the unit. *)
Definition q_Value (q : Quantity) : Z := wrap64 (- ((- q_nano q) / nano_per_unit)).

Section sizes.
Context `{QuantityParser}.

Definition parseTrinoDataSizeBytes (value : string) : option Z :=
  let trimmed := TrimSpace value in
  if trimmed ≡? "" then None else
  match find_first (fun u => HasSuffix (ToUpper trimmed) u.1) size_units with
  | Some (suffix, multiplier) =>
      let number := TrimSpace (str_take (String.length trimmed - String.length suffix) trimmed) in
      if number ≡? "" then None else
      match ParseFloat number with
      | None => None
      | Some f => if float_negative f then None else Some (scaled_int64 f multiplier)
      end
  | None =>
      match ParseQuantity trimmed with
      | None => None
      | Some q => if q_Sign q <? 0 then None else Some (q_Value q)
      end
  end.

End sizes.

(** ** Sizes are exact below [2^53] bytes *)

Lemma rev_onto_app a b acc : str_rev_onto (a +:+ b) acc = str_rev_onto b (str_rev_onto a acc).
Proof. revert acc. induction a as [|c a IH]; intros acc; [done|]. exact (IH (String c acc)). Qed.

Lemma last_digit s : all_bytes is_digit_byte s = true -> s <> "" ->
  exists c r, str_rev_onto s "" = String c r /\ is_digit_byte c = true.
Proof.
  intros Hs Hne. assert (H : forall acc, all_bytes is_digit_byte s = true -> s <> "" ->
    exists c r, str_rev_onto s acc = String c r /\ is_digit_byte c = true); [|by apply H].
  clear. induction s as [|c s IH]; intros acc Hs Hne; [done|]. simpl in *.
  apply andb_true_iff in Hs as [Hc Hs]. destruct s as [|c' s']; [by exists c, acc|]. by apply IH.
Qed.

(** The unit after the digits is found. *)
Lemma find_unit s unit multiplier :
  all_bytes is_digit_byte s = true -> s <> "" -> (unit, multiplier) ∈ size_units ->
  find_first (fun u => HasSuffix (s +:+ unit) u.1) size_units = Some (unit, multiplier).
Proof.
  intros Hs Hne Hin. destruct (last_digit s Hs Hne) as (c & r & Hr & Hc).
  assert (Hsuf : forall u, HasSuffix (s +:+ unit) u = String.prefix (str_rev_onto u "") (str_rev_onto unit (String c r))).
  { intros u. unfold HasSuffix. by rewrite rev_onto_app, Hr. }
  unfold size_units in *. cbn [find_first fst]. rewrite !Hsuf. clear -Hc Hin.
  repeat (apply elem_of_cons in Hin as [[= -> ->]|Hin]); try by apply elem_of_nil in Hin.
  all: revert Hc; destruct c as [[] [] [] [] [] [] [] []]; try discriminate; reflexivity.
Qed.

Example size_forms :
  parseTrinoDataSizeBytes "1.5 GB" = Some 1500000000 /\ parseTrinoDataSizeBytes " 512mib" = Some 536870912 /\
  parseTrinoDataSizeBytes "GB" = None /\ parseTrinoDataSizeBytes "-1MB" = None /\
  parseTrinoDataSizeBytes "4Gi" = Some 4294967296.
Proof. vm_compute. done. Qed.

(** A whole number followed by any of the nine units is read as exactly that
    many bytes, without rounding, as long as the result is below [2^53]. *)
Theorem data_size_exact `{QuantityParser} n unit multiplier :
  0 <= n -> (unit, multiplier) ∈ size_units -> n * multiplier < 2 ^ 53 ->
  parseTrinoDataSizeBytes (fmt_d n +:+ unit) = Some (n * multiplier).
Proof.
  intros Hn Hin Hb. 
  assert (Hm : 1 <= multiplier <= 1024 ^ 4).
  { clear -Hin. unfold size_units in Hin.
    repeat (apply elem_of_cons in Hin as [[= -> ->]|Hin]); [lia..|by apply elem_of_nil in Hin]. }
  pose proof (ParseFloat_decimal n ltac:(nia)) as Hf.
  unfold fmt_d in *. destruct (pretty_digits n Hn) as (ds & Hds & Hd & Hv & Hne). rewrite Hds in *.
  pose proof (digits_are_bytes ds Hd) as Hbytes. assert (Hs : string_of_digits ds <> "") by (by destruct ds).
  set (s := string_of_digits ds) in *. clearbody s.
  assert (Hu : all_bytes (fun c => is_digit_byte c || byte_in 65 90 c) unit = true /\ unit <> "").
  { clear -Hin. unfold size_units in Hin.
    repeat (apply elem_of_cons in Hin as [[= -> ->]|Hin]); [done..|by apply elem_of_nil in Hin]. }
  assert (Hall : all_bytes (fun c => is_digit_byte c || byte_in 65 90 c) (s +:+ unit) = true).
  { rewrite all_bytes_app, (proj1 Hu), andb_true_r. revert Hbytes. apply all_bytes_impl. by intros c ->. }
  assert (Htrim : forall t, all_bytes (fun c => is_digit_byte c || byte_in 65 90 c) t = true -> TrimSpace t = t).
  { intros t Ht. apply TrimFunc_none. revert Ht. apply all_bytes_impl.
    intros c. by destruct c as [[] [] [] [] [] [] [] []]. }
  assert (Hup : ToUpper (s +:+ unit) = s +:+ unit).
  { apply map_bytes_id. revert Hall. apply all_bytes_impl.
    intros c. by destruct c as [[] [] [] [] [] [] [] []]. }
  unfold parseTrinoDataSizeBytes. rewrite Htrim, Hup by done.
  rewrite bool_decide_false by (by destruct s). rewrite (find_unit s unit multiplier) by done.
  rewrite string_app_length, Nat.add_sub, str_take_app.
  rewrite Htrim by (revert Hbytes; apply all_bytes_impl; by intros c ->).
  rewrite bool_decide_false by done. rewrite Hf.
  assert (Hneg : float_negative (Finite false (float_of_Z n)) = false) by (by destruct (float_of_Z n)).
  rewrite Hneg. f_equal. unfold scaled_int64.
  assert (Ht : float64_trunc (float_mul (float_of_Z n) (float_of_Z multiplier)) = n * multiplier).
  { destruct (decide (n = 0)) as [->|Hz].
    { unfold float_of_Z. destruct (round53 multiplier 1) as [m e]. cbn.
      change (float64_trunc (0, e) = 0). simpl. by destruct (0 <=? e). }
    apply float64_trunc_exact, float_mul_exact; [| |nia]; apply float_of_Z_exact; nia. }
  rewrite Ht, (proj2 (Z.leb_le _ _)), (proj2 (Z.leb_le _ _)) by (unfold int64_min, int64_max; nia). done.
Qed.

Lemma data_size_exact_witness : parseTrinoDataSizeBytes "512GIB" = Some (512 * 1024 ^ 3).
Proof.
  apply (data_size_exact 512 "GIB" (1024 ^ 3)); [lia| |lia]. unfold size_units.
  right. right. left.
Defined.

(** Infinite, undefined and huge sizes are accepted, and all of them are read as
    the least integer, which is below every limit. *)
Lemma huge_sizes_are_negative :
  parseTrinoDataSizeBytes "infGB" = Some int64_min /\ parseTrinoDataSizeBytes "nanB" = Some int64_min /\
  parseTrinoDataSizeBytes "1e10GB" = Some int64_min.
Proof. vm_compute. done. Qed.
