(* ===== verification/ControlEndpoint.v ===== *)
(** * Coordinator addresses ([internal/trino/controlendpoint])

    The URL under which the gateway and the operator reach a coordinator.  The
    gateway keys its circuit breakers, health records and load figures by it. *)

From stdpp Require Import pretty.
From S2P Require Import Prelude GoStrings GoTime GoParse XTrinodeTypes RuntimeShape.

Definition TrinoPortHTTP : Z := 8080.
Definition ServiceNamePrefix : string := "trino-".

(** [v > 0 && v == float64(int(v))] for a finite [float64]: a positive integer
    in the range of [int]; beyond it the conversion gives the least integer. *)
Definition float_port (mantissa exponent : Z) : option Z :=
  let t := float_trunc mantissa exponent in
  let integral := if 0 <=? exponent then true else mantissa =? t * 2 ^ (- exponent) in
  if (0 <? mantissa) && integral && (t <=? int64_max) then Some t else None.

Definition parsePort (value : json) : option Z :=
  match value with
  | JNumber m e => float_port m e
  | JString s => match ParseInt 64 s with Some n => if 0 <? n then Some n else None | None => None end
  | _ => None
  end.

Definition HTTPPort (x : XTrinode) : Z :=
  match GetValuesOverlayMap (xt_Spec x) with
  | None => TrinoPortHTTP
  | Some values =>
      match json_get values "service" with
      | JObject service => default TrinoPortHTTP (parsePort (json_get service "port"))
      | _ => TrinoPortHTTP
      end
  end.

Definition BuildCoordinatorServiceName (xtrinodeName : string) : string :=
  ServiceNamePrefix +:+ xtrinodeName.

Definition BuildCoordinatorURLWithPort (xtrinodeName namespace : string) (port : Z) : string :=
  "http://" +:+ BuildCoordinatorServiceName xtrinodeName +:+ "." +:+ namespace +:+
  ".svc.cluster.local:" +:+ fmt_d port.

Definition CoordinatorURL (x : XTrinode) : string :=
  BuildCoordinatorURLWithPort (xt_Name x) (xt_Namespace x) (HTTPPort x).

(** ** Distinct runtimes have distinct addresses *)

Lemma float_port_pos m e p : float_port m e = Some p -> 0 <= p.
Proof.
  unfold float_port, float_trunc. destruct (Z.ltb_spec 0 m); [|done]. simpl.
  destruct (Z.leb_spec 0 e); simpl.
  - destruct (_ <=? int64_max); [|done]. intros [= <-]. pose proof (Z.pow_nonneg 2 e). nia.
  - destruct (_ && _); [|done]. intros [= <-]. apply Z.quot_pos; [lia|]. apply Z.pow_pos_nonneg; lia.
Qed.

Lemma HTTPPort_nonneg x : 0 <= HTTPPort x.
Proof.
  unfold HTTPPort, TrinoPortHTTP. destruct (GetValuesOverlayMap _) as [values|]; [|lia].
  destruct (json_get values "service"); try lia. destruct (parsePort _) as [p|] eqn:Ep; simpl; [|lia].
  destruct (json_get bindings "port"); simpl in Ep; try done.
  - by eapply float_port_pos.
  - destruct (ParseInt 64 s); [|done]. destruct (Z.ltb_spec 0 z); naive_solver lia.
Qed.

Lemma pretty_go_no_byte c x s :
  is_Some (digit c) \/ (IndexByte c s = None -> IndexByte c (pretty_N_go x s) = None).
Proof.
  destruct (digit c) eqn:Ed; [left; eauto|right]. revert s.
  induction (N.lt_wf_0 x) as [x _ IH]. intros s Hs.
  destruct (decide (0 < x)%N) as [Hx|Hx]; [|by assert (x = 0)%N as -> by lia].
  rewrite pretty_N_go_step by lia. apply IH; [apply N.div_lt; lia|]. simpl.
  case_bool_decide as Hc; [subst c|by rewrite Hs].
  rewrite digit_value_pretty in Ed by (apply N.mod_lt; lia). done.
Qed.

Lemma fmt_d_no_colon n : 0 <= n -> IndexByte ":" (fmt_d n) = None.
Proof.
  intros Hn. unfold fmt_d. destruct n as [|p|p]; [done| |lia].
  change (pretty (Z.pos p)) with (pretty (N.pos p)). unfold pretty, pretty_N.
  rewrite decide_False by done.
  destruct (pretty_go_no_byte ":" (N.pos p) "") as [[v Hv]|H]; [by vm_compute in Hv|by apply H].
Qed.

(** The text after the last occurrence of a byte determines both parts. *)
Lemma split_last c a b a' b' :
  a +:+ String c b = a' +:+ String c b' -> IndexByte c b = None -> IndexByte c b' = None ->
  a = a' /\ b = b'.
Proof.
  assert (Hin : forall t u, IndexByte c (t +:+ String c u) <> None).
  { intros t u [_ Hu]%IndexByte_app. simpl in Hu. by rewrite bool_decide_true in Hu. }
  intros H Hb Hb'. revert a' H. induction a as [|x a IH]; intros [|y a'] H; simpl in H.
  - by injection H as ->.
  - injection H as -> ->. by apply Hin in Hb.
  - injection H as -> <-. by apply Hin in Hb'.
  - injection H as -> H. apply IH in H as [-> ->]. done.
Qed.

(** No two runtimes share a coordinator address.  Namespaces contain no
    dot, so an address determines the name, the namespace and the port of its
    runtime, and breakers, health and load of different runtimes never mix. *)
Theorem coordinator_url_injective x y :
  IndexByte "." (xt_Namespace x) = None -> IndexByte "." (xt_Namespace y) = None ->
  CoordinatorURL x = CoordinatorURL y ->
  xt_Name x = xt_Name y /\ xt_Namespace x = xt_Namespace y /\ HTTPPort x = HTTPPort y.
Proof.
  intros Hx Hy H. unfold CoordinatorURL, BuildCoordinatorURLWithPort, BuildCoordinatorServiceName in H.
  rewrite !str_app_assoc in H. injection H as H.
  assert (Hform : forall n ns p,
    n +:+ "." +:+ ns +:+ ".svc.cluster.local:" +:+ p =
    ((((n +:+ String "." ns) +:+ String "." "svc") +:+ String "." "cluster") +:+ String "." "local")
      +:+ String ":" p).
  { intros. by rewrite !str_app_assoc. }
  rewrite !Hform in H. apply split_last in H as [H Hp]; try apply fmt_d_no_colon, HTTPPort_nonneg.
  do 3 (apply split_last in H as [H _]; [|done..]). apply split_last in H as [Hn Hns]; [|done..].
  split_and!; try done. by apply (inj pretty).
Qed.

(** ** Witness *)

Lemma coordinator_url_injective_witness :
  CoordinatorURL (ex_runtime "s" None) = "http://trino-x.a.svc.cluster.local:8080" /\
  HTTPPort (ex_runtime "s" None) = HTTPPort (ex_runtime "m" None).
Proof.
  split; [reflexivity|].
  exact (proj2 (proj2 (coordinator_url_injective (ex_runtime "s" None) (ex_runtime "m" None)
    eq_refl eq_refl eq_refl))).
Defined.
