(* ===== verification/Status.v ===== *)
(** * Status of a runtime ([internal/status])

    Phases and their transitions, the condition list kept in the status, the
    events its changes raise, and the replica floors each phase calls for. *)

From S2P Require Import Prelude GoStrings XTrinodeTypes RuntimeShape.

(** ** Phases

    A [Phase] is a string: a stored status may hold any. *)

Definition PhasePending : string := "Pending".
Definition PhaseReconciling : string := "Reconciling".
Definition PhaseReady : string := "Ready".
Definition PhaseSuspending : string := "Suspending".
Definition PhaseSuspended : string := "Suspended".
Definition PhaseResuming : string := "Resuming".
Definition PhaseError : string := "Error".

Definition ValidPhases : list string :=
  [PhasePending; PhaseReconciling; PhaseReady; PhaseSuspending; PhaseSuspended; PhaseResuming; PhaseError].

Definition phase_IsValid (p : string) : bool := existsb (fun valid => p ≡? valid) ValidPhases.

Definition validTransitions : gmap string (list string) :=
  {[ PhasePending := [PhaseReconciling; PhaseError];
     PhaseReconciling := [PhaseReady; PhaseSuspending; PhaseError];
     PhaseReady := [PhaseSuspending; PhaseReconciling; PhaseError];
     PhaseSuspending := [PhaseSuspended; PhaseError];
     PhaseSuspended := [PhaseResuming; PhaseError];
     PhaseResuming := [PhaseReconciling; PhaseError];
     PhaseError := [PhaseReconciling; PhaseSuspending; PhaseResuming] ]}.

Definition TransitionTo (p next : string) : option string :=
  if negb (phase_IsValid next) then Some ("invalid target phase: " +:+ next) else
  if existsb (fun valid => next ≡? valid) (default [] (validTransitions !! p)) then None else
  Some ("invalid phase transition: " +:+ p +:+ " -> " +:+ next).

Definition CanTransitionTo (p next : string) : bool := TransitionTo p next ≡? None.
Definition phase_IsTerminal (p : string) : bool := p ≡? PhaseError.
Definition RequiresAction (p : string) : bool :=
  (p ≡? PhasePending) || (p ≡? PhaseReconciling) || (p ≡? PhaseSuspending) || (p ≡? PhaseResuming).

(** ** Conditions *)

Definition ConditionTypeReady : string := "Ready".
Definition ConditionTypeError : string := "Error".
Definition ConditionTypeSuspended : string := "Suspended".

(** The loop over the list: the first condition of the type is updated in
    place, and a new one is appended when there is none. *)
Fixpoint put_condition (condition : Condition) (cs : list Condition) : list Condition :=
  match cs with
  | [] => [condition]
  | c :: cs =>
      if cond_Type c ≡? cond_Type condition then
        (if negb (cond_Status c ≡? cond_Status condition) || negb (cond_Reason c ≡? cond_Reason condition)
         then condition
         else mkCondition (cond_Type c) (cond_Status c) (cond_ObservedGeneration condition)
                (cond_LastTransitionTime c) (cond_Reason c) (cond_Message condition)) :: cs
      else c :: put_condition condition cs
  end.

Definition SetCondition (now : Time) (conditionType : string) (status : ConditionStatus)
    (reason message : string) (x : XTrinode) : XTrinode :=
  let condition := mkCondition conditionType status (xt_Generation x) now reason message in
  set_Conditions (put_condition condition (st_Conditions (xt_Status x))) x.

Definition GetCondition (x : XTrinode) (conditionType : string) : option Condition :=
  find_first (fun c => cond_Type c ≡? conditionType) (st_Conditions (xt_Status x)).

Definition condition_true (x : XTrinode) (conditionType : string) : bool :=
  match GetCondition x conditionType with
  | Some condition => cond_Status condition ≡? ConditionTrue
  | None => false
  end.

Definition IsReady (x : XTrinode) : bool := condition_true x ConditionTypeReady.
Definition HasError (x : XTrinode) : bool := condition_true x ConditionTypeError.

(** ** Events *)

Inductive event := Normal (reason message : string) | Warning (reason message : string).

Definition transition_event (conditionType : string) (status : ConditionStatus) (message : string) :
    option event :=
  if conditionType ≡? ConditionTypeReady then
    match status with
    | ConditionTrue => Some (Normal "ConditionReadyTrue" ("Ready condition became True: " +:+ message))
    | ConditionFalse => Some (Warning "ConditionReadyFalse" ("Ready condition became False: " +:+ message))
    | ConditionUnknown => None
    end
  else if conditionType ≡? ConditionTypeError then
    match status with
    | ConditionTrue => Some (Warning "ConditionErrorTrue" ("Error condition became True: " +:+ message))
    | ConditionFalse => Some (Normal "ConditionErrorFalse" ("Error condition became False: " +:+ message))
    | ConditionUnknown => None
    end
  else if conditionType ≡? ConditionTypeSuspended then
    match status with
    | ConditionTrue => Some (Normal "ConditionSuspendedTrue" ("Suspended condition became True: " +:+ message))
    | ConditionFalse => Some (Normal "ConditionSuspendedFalse" ("Suspended condition became False: " +:+ message))
    | ConditionUnknown => None
    end
  else None.

(** [recorder] is [None] when the caller passes no recorder, and otherwise the
    events recorded so far. *)
Definition SetConditionWithEvents (now : Time) (conditionType : string) (status : ConditionStatus)
    (reason message : string) (x : XTrinode) (recorder : option (list event)) :
    XTrinode * option (list event) :=
  let oldStatus := from_option cond_Status ConditionUnknown (GetCondition x conditionType) in
  let x := SetCondition now conditionType status reason message x in
  match recorder with
  | None => (x, None)
  | Some events =>
      if oldStatus ≡? status then (x, Some events) else
      (x, Some (events ++ option_list (transition_event conditionType status message)))
  end.

(** ** Phase invariants *)

Record PhaseInvariants := mkInvariants {
  inv_KEDAEnabled : bool;
  inv_KEDAMinReplicas : Z;
  inv_KEDAMaxReplicas : Z;
  inv_CoordReplicas : Z;
  inv_MinWorkerReplicas : Z;
  inv_NodePoolMinNodes : option Z;
  inv_GatewayEnabled : bool
}.

Definition set_nonempty (s : option string) : bool :=
  match s with Some s => negb (s ≡? "") | None => false end.

Definition status_hasKEDAMetricConfig (k : KEDASpec) : bool :=
  negb (keda_ScalerType k ≡? "") || negb (keda_ScalingMetric k ≡? "") ||
  set_nonempty (keda_PrometheusServer k) || set_nonempty (keda_PrometheusQuery k) ||
  set_nonempty (keda_HTTPEndpoint k).

Definition isKEDAEnabled (x : XTrinode) : bool :=
  match spec_KEDA (xt_Spec x) with
  | Some k => match keda_Enabled k with Some b => b && status_hasKEDAMetricConfig k | None => false end
  | None => false
  end.

Definition getSuspendedInvariants (x : XTrinode) : PhaseInvariants :=
  mkInvariants false 0 0 0 0
    (match spec_NodePool (xt_Spec x) with
     | Some np => if default true (np_ScaleDownOnSuspend np) then Some 0 else None
     | None => None
     end) true.

Definition getReadyInvariants (now : Time) (x : XTrinode) : PhaseInvariants :=
  let keda := isKEDAEnabled x in
  mkInvariants keda
    (if keda then
       match st_Wake (xt_Status x) with
       | Some wake => if time_before now (wake_ExpiresAt wake) then wake_MinWorkers wake else 0
       | None => 0
       end
     else 0)
    (if keda then default 10 (spec_MaxWorkers (xt_Spec x)) else 0)
    1
    (if keda then 0 else default 0 (spec_MaxWorkers (xt_Spec x)))
    (spec_NodePool (xt_Spec x) ≫= np_MinNodes)
    true.

Definition GetInvariants (now : Time) (phase : string) (x : XTrinode) : PhaseInvariants :=
  if phase ≡? PhaseSuspended then getSuspendedInvariants x else
  if phase ≡? PhaseReady then getReadyInvariants now x else
  if phase ≡? PhaseSuspending then getSuspendedInvariants x else
  if phase ≡? PhaseResuming then getReadyInvariants now x else
  if phase ≡? PhaseReconciling then getReadyInvariants now x else
  mkInvariants false 0 0 0 0 None false.

(** ** Reachability of phases *)

Inductive phase_path : list string -> Prop :=
| path_one p : phase_path [p]
| path_step p q l : CanTransitionTo p q = true -> phase_path (q :: l) -> phase_path (p :: q :: l).

Lemma CanTransitionTo_iff p q :
  CanTransitionTo p q = true <-> q ∈ ValidPhases /\ q ∈ default [] (validTransitions !! p).
Proof.
  assert (He : forall l, existsb (fun v => q ≡? v) l = true <-> q ∈ l).
  { intros l. rewrite existsb_exists. split.
    - intros (v & Hv & ->%bool_decide_eq_true). by apply list_elem_of_In.
    - intros Hq. exists q. split; [by apply list_elem_of_In|by apply bool_decide_eq_true]. }
  unfold CanTransitionTo, TransitionTo, phase_IsValid. rewrite bool_decide_eq_true.
  rewrite <- !He. destruct (existsb _ ValidPhases); simpl; [|naive_solver].
  destruct (existsb _ (default [] _)); naive_solver.
Qed.

(** All transitions, listed. *)
Definition transitions : list (string * string) :=
  Eval vm_compute in (map_to_list validTransitions ≫= fun '(p, l) => map (pair p) l).

Lemma transition_cases p q : CanTransitionTo p q = true -> (p, q) ∈ transitions.
Proof.
  rewrite CanTransitionTo_iff. intros [_ Hq].
  destruct (validTransitions !! p) as [l|] eqn:El; simpl in Hq; [|by apply elem_of_nil in Hq].
  replace transitions with (map_to_list validTransitions ≫= fun '(p, l) => map (pair p) l)
    by (vm_compute; reflexivity).
  apply list_elem_of_bind. exists (p, l). split; [|by apply elem_of_map_to_list].
  apply list_elem_of_In, in_map, list_elem_of_In, Hq.
Qed.

Ltac transition_inversion H :=
  apply transition_cases in H; unfold transitions in H;
  repeat (apply elem_of_cons in H as [H|H]; [simplify_eq|]);
  [..|by apply elem_of_nil in H].

(** A path to a goal found by following the transitions. *)
Fixpoint pathb (p : string) (l : list string) : bool :=
  match l with [] => true | q :: l => CanTransitionTo p q && pathb q l end.

Lemma pathb_path p l : pathb p l = true -> phase_path (p :: l).
Proof.
  revert p. induction l as [|q l IH]; intros p; simpl; [constructor|].
  intros [Hq Hl]%andb_true_iff. constructor; [done|by apply IH].
Qed.

Definition wake_up : list string := [PhaseResuming; PhaseReconciling; PhaseReady].
Definition go_to_sleep : list string := [PhaseReconciling; PhaseSuspending; PhaseSuspended].

Lemma reaches p goal :
  p ∈ ValidPhases -> goal = PhaseReady \/ goal = PhaseSuspended ->
  exists l, phase_path (p :: l) /\ list.last (p :: l) = Some goal.
Proof.
  intros Hp Hg. unfold ValidPhases in Hp.
  assert (Hl : exists l, pathb p l = true /\ list.last (p :: l) = Some goal).
  { repeat (apply elem_of_cons in Hp as [->|Hp]); [..|by apply elem_of_nil in Hp];
      destruct Hg as [-> | ->];
      first
        [ by exists [] | by exists wake_up | by exists (drop 1 wake_up) | by exists (drop 2 wake_up)
        | by exists (PhaseSuspended :: wake_up) | by exists go_to_sleep
        | by exists (drop 1 go_to_sleep) | by exists (drop 2 go_to_sleep) ]. }
  destruct Hl as (l & Hl & Hlast). exists l. split; [by apply pathb_path|done].
Qed.

Lemma leave_suspended q : CanTransitionTo PhaseSuspended q = true -> q = PhaseResuming \/ q = PhaseError.
Proof. intros H. transition_inversion H; vm_compute; auto. Qed.

Lemma leave_resuming q : CanTransitionTo PhaseResuming q = true -> q = PhaseReconciling \/ q = PhaseError.
Proof. intros H. transition_inversion H; vm_compute; auto. Qed.

Lemma enter_ready p : CanTransitionTo p PhaseReady = true -> p = PhaseReconciling.
Proof. intros H. by transition_inversion H. Qed.

(** The phase machine.  Transitions lead to valid phases; [Ready] is only
    entered from [Reconciling]; a suspended runtime that gets to [Ready]
    without an error has resumed and reconciled first; and every valid phase
    has a path to [Ready] and one to [Suspended]. *)
Theorem phase_discipline :
  (forall p q, CanTransitionTo p q = true -> q ∈ ValidPhases /\ p ∈ ValidPhases /\
     (q = PhaseReady -> p = PhaseReconciling)) /\
  (forall l, phase_path (PhaseSuspended :: l) -> PhaseError ∉ l -> list.last l = Some PhaseReady ->
     exists l', l = PhaseResuming :: PhaseReconciling :: l') /\
  (forall p goal, p ∈ ValidPhases -> goal = PhaseReady \/ goal = PhaseSuspended ->
     exists l, phase_path (p :: l) /\ list.last (p :: l) = Some goal).
Proof.
  split_and!.
  - intros p q H. split; [by apply CanTransitionTo_iff in H as []|]. split.
    + transition_inversion H; unfold ValidPhases; set_solver.
    + intros ->. by apply enter_ready.
  - intros l Hp He Hl. inversion Hp as [|? q l' Hq Hp']; subst; [done|].
    destruct (leave_suspended q Hq) as [->| ->]; [|by destruct He; left].
    inversion Hp' as [|? q' l'' Hq' _]; subst; [done|].
    destruct (leave_resuming q' Hq') as [->| ->]; [eauto|]. destruct He. right. left.
  - apply reaches.
Qed.

(** ** The condition list *)

Definition conditions_wf (x : XTrinode) : Prop :=
  NoDup (cond_Type <$> st_Conditions (xt_Status x)).

Definition of_type (t : string) (c : Condition) : bool := cond_Type c ≡? t.

Lemma put_condition_types c cs :
  cond_Type <$> put_condition c cs =
  if existsb (of_type (cond_Type c)) cs then cond_Type <$> cs else (cond_Type <$> cs) ++ [cond_Type c].
Proof.
  induction cs as [|a cs IH]; [done|]. cbn [put_condition existsb]. unfold of_type at 1.
  case_bool_decide as Ht; cbn [orb]; rewrite !fmap_cons.
  - f_equal. by destruct (_ || _).
  - rewrite IH. by destruct (existsb _ cs).
Qed.

Lemma existsb_of_type t cs : existsb (of_type t) cs = true <-> t ∈ cond_Type <$> cs.
Proof.
  rewrite existsb_exists, list_elem_of_fmap. unfold of_type. split.
  - intros (c & Hc & Ht%bool_decide_eq_true). exists c. split; [done|by apply list_elem_of_In].
  - intros (c & -> & Hc). exists c. split; [by apply list_elem_of_In|by apply bool_decide_eq_true].
Qed.

Lemma put_condition_NoDup c cs : NoDup (cond_Type <$> cs) -> NoDup (cond_Type <$> put_condition c cs).
Proof.
  intros Hnd. rewrite put_condition_types. destruct (existsb _ cs) eqn:E; [done|].
  apply list.NoDup_app. split; [done|]. split; [|apply NoDup_singleton].
  intros t Ht Hc%list_elem_of_singleton. subst. apply existsb_of_type in Ht. congruence.
Qed.

Lemma put_condition_other c cs t : cond_Type c <> t ->
  find_first (of_type t) (put_condition c cs) = find_first (of_type t) cs.
Proof.
  intros Ht. assert (Hc : of_type t c = false) by (by apply bool_decide_eq_false).
  induction cs as [|a cs IH]; cbn [put_condition find_first]; [by rewrite Hc|].
  case_bool_decide as Ha; cbn [find_first]; [|by rewrite IH].
  assert (Hat : of_type t a = false) by (apply bool_decide_eq_false; congruence). rewrite Hat.
  destruct (_ || _); [by rewrite Hc|]. unfold of_type; simpl. rewrite bool_decide_eq_false_2; congruence.
Qed.

(** What is stored for the type just set: the old entry keeps its transition
    time when neither status nor reason changes. *)
Definition merged (c : Condition) (old : option Condition) : Condition :=
  mkCondition (cond_Type c) (cond_Status c) (cond_ObservedGeneration c)
    (match old with
     | Some o => if (cond_Status o ≡? cond_Status c) && (cond_Reason o ≡? cond_Reason c)
                 then cond_LastTransitionTime o else cond_LastTransitionTime c
     | None => cond_LastTransitionTime c
     end) (cond_Reason c) (cond_Message c).

Lemma put_condition_same c cs :
  find_first (of_type (cond_Type c)) (put_condition c cs) =
  Some (merged c (find_first (of_type (cond_Type c)) cs)).
Proof.
  assert (Hc : of_type (cond_Type c) c = true) by (by apply bool_decide_eq_true).
  induction cs as [|a cs IH]; cbn [put_condition find_first].
  - rewrite Hc. by destruct c.
  - unfold of_type at 2. case_bool_decide as Ha; cbn [find_first].
    + unfold merged. destruct (bool_decide (cond_Status a = _)) eqn:Es,
        (bool_decide (cond_Reason a = _)) eqn:Er; cbn [negb orb andb];
        rewrite ?Hc; try (by destruct c).
      apply bool_decide_eq_true in Es, Er. unfold of_type; simpl.
      rewrite bool_decide_eq_true_2 by done. congruence.
    + rewrite IH. unfold of_type at 1. by rewrite bool_decide_eq_false_2.
Qed.

(** [SetCondition] on a list with one condition per type keeps that; the
    condition reads back with the status, reason, message and generation just
    given; its transition time is the clock exactly when the type is new or its
    status or reason changes, and otherwise stays; conditions of other types
    and the rest of the runtime are untouched. *)
Theorem set_condition_exact now t status reason message x :
  conditions_wf x ->
  let x' := SetCondition now t status reason message x in
  conditions_wf x' /\
  (exists time, GetCondition x' t =
     Some (mkCondition t status (xt_Generation x) time reason message) /\
     (time = now \/ exists o, GetCondition x t = Some o /\ time = cond_LastTransitionTime o) /\
     ((forall o, GetCondition x t = Some o -> cond_Status o <> status \/ cond_Reason o <> reason) ->
        time = now) /\
     (forall o, GetCondition x t = Some o -> cond_Status o = status -> cond_Reason o = reason ->
        time = cond_LastTransitionTime o)) /\
  (forall t', t' <> t -> GetCondition x' t' = GetCondition x t') /\
  set_Conditions (st_Conditions (xt_Status x)) x' = x.
Proof.
  intros Hwf x'. split_and!.
  - by apply put_condition_NoDup.
  - subst x'. unfold GetCondition, SetCondition. simpl.
    pose proof (put_condition_same (mkCondition t status (xt_Generation x) now reason message)
                  (st_Conditions (xt_Status x))) as Hs. simpl in Hs.
    change (fun c => cond_Type c ≡? t) with (of_type t). rewrite Hs.
    eexists. split; [unfold merged; simpl; reflexivity|]. clear Hs.
    destruct (find_first (of_type t) (st_Conditions (xt_Status x))) as [o|]; [|naive_solver].
    do 2 case_bool_decide; simpl; naive_solver.
  - intros t' Ht. apply put_condition_other. simpl. done.
  - by destruct x as [? ? ? ? ? ? ? ? ? ? []].
Qed.

(** ** Events report the changes *)

Record condition_update := mkUpdate {
  up_now : Time;
  up_status : ConditionStatus;
  up_reason : string;
  up_message : string
}.

Fixpoint run_updates (t : string) (ups : list condition_update) (x : XTrinode)
    (recorder : option (list event)) : XTrinode * option (list event) :=
  match ups with
  | [] => (x, recorder)
  | u :: ups =>
      let '(x, recorder) :=
        SetConditionWithEvents (up_now u) t (up_status u) (up_reason u) (up_message u) x recorder in
      run_updates t ups x recorder
  end.

(** The updates whose status differs from the one before. *)
Fixpoint changes (old : ConditionStatus) (ups : list condition_update) : list condition_update :=
  match ups with
  | [] => []
  | u :: ups => (if old ≡? up_status u then [] else [u]) ++ changes (up_status u) ups
  end.

Definition current_status (x : XTrinode) (t : string) : ConditionStatus :=
  from_option cond_Status ConditionUnknown (GetCondition x t).

Lemma set_condition_status now t status reason message x :
  current_status (SetCondition now t status reason message x) t = status.
Proof.
  unfold current_status, GetCondition, SetCondition. simpl.
  change (fun c => cond_Type c ≡? t) with (of_type t).
  pose proof (put_condition_same (mkCondition t status (xt_Generation x) now reason message)
                (st_Conditions (xt_Status x))) as Hs. simpl in Hs. by rewrite Hs.
Qed.

(** Over any run of updates of one condition the recorder receives exactly
    one event for each update whose status differs from the status before it,
    in order, starting from Unknown when the condition is absent; repeated
    updates raise nothing, and without a recorder nothing is recorded. *)
Theorem events_report_changes t ups x evs :
  (run_updates t ups x (Some evs)).2 =
    Some (evs ++ (changes (current_status x t) ups ≫=
                    fun u => option_list (transition_event t (up_status u) (up_message u)))) /\
  (run_updates t ups x None).2 = None /\
  (run_updates t ups x None).1 = (run_updates t ups x (Some evs)).1.
Proof.
  revert x evs. induction ups as [|u ups IH]; intros x evs; simpl; [by rewrite app_nil_r|].
  fold (current_status x t). set (x1 := SetCondition _ _ _ _ _ x).
  assert (Hc : current_status x1 t = up_status u) by apply set_condition_status.
  case_bool_decide as Ho; simpl.
  - destruct (IH x1 evs) as (H1 & H2 & H3). by rewrite H1, Hc.
  - destruct (IH x1 (evs ++ option_list (transition_event t (up_status u) (up_message u)))) as (H1 & H2 & H3).
    rewrite H1, Hc. by rewrite (assoc_L (++)).
Qed.

(** ** Floors *)

(** The replica floors.  Suspended and suspending runtimes call for no
    coordinator, no workers and no autoscaling; ready, resuming and reconciling
    ones for exactly one coordinator; the autoscaling floor is the wake floor
    while the wake window is open and zero after it; the node pool is brought
    to zero on suspension unless the runtime opts out. *)
Theorem invariants_floors now phase x :
  let inv := GetInvariants now phase x in
  (phase = PhaseSuspended \/ phase = PhaseSuspending ->
     inv_CoordReplicas inv = 0 /\ inv_MinWorkerReplicas inv = 0 /\ inv_KEDAEnabled inv = false /\
     inv_KEDAMaxReplicas inv = 0 /\
     (inv_NodePoolMinNodes inv = Some 0 <->
        exists np, spec_NodePool (xt_Spec x) = Some np /\ np_ScaleDownOnSuspend np <> Some false)) /\
  (phase = PhaseReady \/ phase = PhaseResuming \/ phase = PhaseReconciling ->
     inv_CoordReplicas inv = 1 /\
     (forall wake, st_Wake (xt_Status x) = Some wake -> isKEDAEnabled x = true ->
        inv_KEDAMinReplicas inv = if now <? wake_ExpiresAt wake then wake_MinWorkers wake else 0) /\
     (st_Wake (xt_Status x) = None -> inv_KEDAMinReplicas inv = 0)).
Proof.
  intros inv. split.
  - intros Hp. assert (E : GetInvariants now phase x = getSuspendedInvariants x) by (destruct Hp as [-> | ->]; done).
    subst inv. rewrite E. split_and!; try done. unfold getSuspendedInvariants; simpl.
    destruct (spec_NodePool (xt_Spec x)) as [np|]; [|naive_solver].
    destruct (np_ScaleDownOnSuspend np) as [[]|] eqn:En; simpl; naive_solver.
  - intros Hp. assert (E : GetInvariants now phase x = getReadyInvariants now x)
      by (destruct Hp as [->|[-> | ->]]; done).
    subst inv. rewrite E. unfold getReadyInvariants; simpl. split; [done|]. split.
    + intros wake -> ->. done.
    + intros ->. by destruct (isKEDAEnabled x).
Qed.

(** The two packages disagree on blank settings: for a runtime whose only
    scaler setting is a blank Prometheus address the phase invariants treat
    the workers as autoscaled while the resolved shape gives them a fixed
    count. *)
Definition ex_blank_keda : XTrinode :=
  mkXTrinode "x" "a" 1 0 0 None [] ∅ ∅
    (mkSpec "s" None None false None None None None None None None None
       (Some (mkKEDA (Some true) "" "" (Some " ") None None)) None None)
    (status_of_phase "Ready").

Lemma keda_checks_disagree :
  isKEDAEnabled ex_blank_keda = true /\ IsKEDAActive ex_blank_keda = false.
Proof. split; reflexivity. Qed.

(** An autoscaled runtime without a maximum has two of them. *)
Definition ex_default_max : XTrinode :=
  mkXTrinode "x" "a" 1 0 0 None [] ∅ ∅
    (mkSpec "s" None None false None None None None None None None None
       (Some (mkKEDA (Some true) "prometheus" "" None None None)) None None)
    (status_of_phase "Ready").

Lemma keda_default_max_disagrees :
  inv_KEDAMaxReplicas (GetInvariants 0 PhaseReady ex_default_max) = 10 /\
  sh_MaxWorkers <$> Resolve ex_hash16 ex_default_max = Ok 24.
Proof. split; vm_compute; reflexivity. Qed.

(** ** Witnesses *)

Lemma set_condition_exact_witness :
  let x := SetCondition 5 "Ready" ConditionFalse "Starting" "m" (ex_runtime "s" None) in
  cond_LastTransitionTime <$>
    GetCondition (SetCondition 7 "Ready" ConditionFalse "Starting" "n" x) "Ready" = Some 5 /\
  conditions_wf x.
Proof.
  assert (H0 : conditions_wf (ex_runtime "s" None)) by constructor.
  destruct (set_condition_exact 5 "Ready" ConditionFalse "Starting" "m" (ex_runtime "s" None) H0) as (H1 & _).
  intros x. split; [|exact H1].
  destruct (set_condition_exact 7 "Ready" ConditionFalse "Starting" "n" x H1) as (_ & (time & Hg & _ & _ & Ho) & _).
  rewrite Hg. simpl. f_equal. apply (Ho (mkCondition "Ready" ConditionFalse 1 5 "Starting" "m")); reflexivity.
Defined.
