(* ===== verification/QueryState.v ===== *)
(** * Query states ([internal/trino/querystate])

    Shared by the gateway's tracker and the operator's shutdown and idle
    checks: a state counts as active unless it is a known terminal one. *)

From S2P Require Import Prelude GoStrings.

Definition Normalize (state : string) : string :=
  let state := ToUpper (TrimSpace state) in
  if state ≡? "" then "UNKNOWN" else state.

Definition IsTerminal (state : string) : bool :=
  let s := Normalize state in
  (s ≡? "FINISHED") || (s ≡? "FAILED") || (s ≡? "CANCELED") || (s ≡? "CANCELLED").

Definition IsActive (state : string) : bool := negb (IsTerminal state).

