(* ===== verification/CircuitBreaker.v ===== *)
(** * Circuit breakers of the gateway ([pkg/gateway/circuitbreaker.go])

    A [CircuitBreaker] is the struct of the same name; each method is a
    function on it that takes the value [time.Now()] has inside the method.
    Every method runs under the breaker's mutex, so a concurrent execution is
    a sequence of method calls: [event] and [run] below.  The manager maps a
    backend URL to its breaker; a breaker is never replaced once created, so
    the URL stands for the pointer the Go code shares. *)

From S2P Require Import Prelude.

(** [CircuitState] is a string type with three constants; the methods have a
    [default] branch for any other value. *)
Inductive CircuitState :=
| CircuitClosed
| CircuitOpen
| CircuitHalfOpen
| CircuitStateOther (s : string).

#[export] Instance CircuitState_eq_dec : EqDecision CircuitState.
Proof. solve_decision. Defined.

Record CircuitBreaker := mkBreaker {
  BackendURL : string;
  State : CircuitState;
  FailureThreshold : Z;
  SuccessThreshold : Z;
  Timeout : Duration;
  ConsecutiveFailures : Z;
  ConsecutiveSuccesses : Z;
  ConsecutiveOverloads : Z;
  LastFailure : Time;
  LastSuccess : Time;
  halfOpenProbeActive : bool
}.

(** Field assignments. *)
Definition set_State s cb := mkBreaker (BackendURL cb) s (FailureThreshold cb)
  (SuccessThreshold cb) (Timeout cb) (ConsecutiveFailures cb) (ConsecutiveSuccesses cb)
  (ConsecutiveOverloads cb) (LastFailure cb) (LastSuccess cb) (halfOpenProbeActive cb).
Definition set_probe b cb := mkBreaker (BackendURL cb) (State cb) (FailureThreshold cb)
  (SuccessThreshold cb) (Timeout cb) (ConsecutiveFailures cb) (ConsecutiveSuccesses cb)
  (ConsecutiveOverloads cb) (LastFailure cb) (LastSuccess cb) b.
Definition set_LastFailure t cb := mkBreaker (BackendURL cb) (State cb) (FailureThreshold cb)
  (SuccessThreshold cb) (Timeout cb) (ConsecutiveFailures cb) (ConsecutiveSuccesses cb)
  (ConsecutiveOverloads cb) t (LastSuccess cb) (halfOpenProbeActive cb).
Definition set_LastSuccess t cb := mkBreaker (BackendURL cb) (State cb) (FailureThreshold cb)
  (SuccessThreshold cb) (Timeout cb) (ConsecutiveFailures cb) (ConsecutiveSuccesses cb)
  (ConsecutiveOverloads cb) (LastFailure cb) t (halfOpenProbeActive cb).
Definition set_counts f s o cb := mkBreaker (BackendURL cb) (State cb) (FailureThreshold cb)
  (SuccessThreshold cb) (Timeout cb) f s o
  (LastFailure cb) (LastSuccess cb) (halfOpenProbeActive cb).

Definition OverloadThresholdMultiplier : Z := 3.

(** [config.GatewayCircuitBreaker*], the values every caller passes. *)
Definition GatewayCircuitBreakerFailureThreshold : Z := 5.
Definition GatewayCircuitBreakerSuccessThreshold : Z := 2.
Definition GatewayCircuitBreakerTimeout : Duration := 30 * Second.

(** The breaker [GetOrCreateBreaker] allocates. *)
Definition newBreaker (url : string) (failureThreshold successThreshold : Z)
    (timeout : Duration) : CircuitBreaker :=
  {| BackendURL := url; State := CircuitClosed;
     FailureThreshold := failureThreshold; SuccessThreshold := successThreshold;
     Timeout := timeout; ConsecutiveFailures := 0; ConsecutiveSuccesses := 0;
     ConsecutiveOverloads := 0; LastFailure := zeroTime; LastSuccess := zeroTime;
     halfOpenProbeActive := false |}.

Definition Allow (now : Time) (cb : CircuitBreaker) : bool * CircuitBreaker :=
  match State cb with
  | CircuitClosed => (true, cb)
  | CircuitOpen =>
      if Timeout cb <=? time_sub now (LastFailure cb) then
        (true, set_probe true
                 (set_counts (ConsecutiveFailures cb) 0 (ConsecutiveOverloads cb)
                    (set_State CircuitHalfOpen cb)))
      else (false, cb)
  | CircuitHalfOpen =>
      if halfOpenProbeActive cb then (false, cb) else (true, set_probe true cb)
  | CircuitStateOther _ => (false, cb)
  end.

Definition RecordSuccess (now : Time) (cb : CircuitBreaker) : CircuitBreaker :=
  let cb := set_counts 0 (int_add (ConsecutiveSuccesses cb) 1) 0 (set_LastSuccess now cb) in
  match State cb with
  | CircuitHalfOpen =>
      let cb := set_probe false cb in
      if SuccessThreshold cb <=? ConsecutiveSuccesses cb
      then set_State CircuitClosed cb else cb
  | _ => cb
  end.

Definition RecordOverload (now : Time) (cb : CircuitBreaker) : CircuitBreaker :=
  let cb := set_counts (ConsecutiveFailures cb) 0 (int_add (ConsecutiveOverloads cb) 1) cb in
  let overloadThreshold := int_mul (FailureThreshold cb) OverloadThresholdMultiplier in
  match State cb with
  | CircuitClosed =>
      if overloadThreshold <=? ConsecutiveOverloads cb
      then set_LastFailure now (set_State CircuitOpen cb) else cb
  | CircuitHalfOpen => set_LastFailure now (set_State CircuitOpen (set_probe false cb))
  | _ => cb
  end.

Definition recordFailureLocked (now : Time) (cb : CircuitBreaker) : CircuitBreaker :=
  let cb := set_counts (int_add (ConsecutiveFailures cb) 1) 0 0 (set_LastFailure now cb) in
  match State cb with
  | CircuitClosed =>
      if FailureThreshold cb <=? ConsecutiveFailures cb
      then set_State CircuitOpen cb else cb
  | CircuitHalfOpen => set_State CircuitOpen (set_probe false cb)
  | _ => cb
  end.

Definition RecordFailure := recordFailureLocked.

Definition RecordProxyFailure (now : Time) (countFailure : bool) (cb : CircuitBreaker) :
    CircuitBreaker :=
  if (State cb ≡? CircuitHalfOpen) || countFailure then recordFailureLocked now cb else cb.

Definition Selectable (now : Time) (cb : CircuitBreaker) : bool :=
  match State cb with
  | CircuitClosed => true
  | CircuitOpen => Timeout cb <=? time_sub now (LastFailure cb)
  | CircuitHalfOpen => negb (halfOpenProbeActive cb)
  | CircuitStateOther _ => false
  end.

(** ** The manager *)

Abbreviation CircuitBreakerManager := (gmap string CircuitBreaker).

Definition GetOrCreateBreaker (url : string) (failureThreshold successThreshold : Z)
    (timeout : Duration) (m : CircuitBreakerManager) :
    CircuitBreaker * CircuitBreakerManager :=
  match m !! url with
  | Some cb => (cb, m)
  | None =>
      let cb := newBreaker url failureThreshold successThreshold timeout in
      (cb, <[url := cb]> m)
  end.

(** [GetOrCreateBreaker] with the configured thresholds followed by a call of
    [f] on the breaker it returned, the way every caller uses the manager. *)
Definition with_breaker {A} (url : string) (f : CircuitBreaker -> A * CircuitBreaker)
    (m : CircuitBreakerManager) : A * CircuitBreakerManager :=
  let '(cb, m) := GetOrCreateBreaker url GatewayCircuitBreakerFailureThreshold
                    GatewayCircuitBreakerSuccessThreshold GatewayCircuitBreakerTimeout m in
  let '(a, cb') := f cb in
  (a, <[url := cb']> m).

(** ** Executions

    Calls that arrive at one breaker, in the order its mutex serialises them.
    [run] returns the answers given to the [Allow] calls. *)

Inductive event :=
| EAllow (now : Time)
| ESuccess (now : Time)
| EOverload (now : Time)
| EFailure (now : Time)
| EProxyFailure (now : Time) (countFailure : bool).

Definition step (cb : CircuitBreaker) (e : event) : CircuitBreaker :=
  match e with
  | EAllow now => (Allow now cb).2
  | ESuccess now => RecordSuccess now cb
  | EOverload now => RecordOverload now cb
  | EFailure now => RecordFailure now cb
  | EProxyFailure now c => RecordProxyFailure now c cb
  end.

Definition run (cb : CircuitBreaker) (es : list event) : CircuitBreaker :=
  fold_left step es cb.

(** The number of the calls of a burst of [Allow]s that are let through. *)
Fixpoint granted (cb : CircuitBreaker) (ts : list Time) : nat :=
  match ts with
  | [] => 0
  | t :: ts' =>
      let '(ok, cb') := Allow t cb in
      ((if ok then 1 else 0) + granted cb' ts')%nat
  end.

(** ** The state invariant *)

Record breaker_wf (cb : CircuitBreaker) : Prop := {
  wf_state : match State cb with CircuitStateOther _ => False | _ => True end;
  wf_probe : halfOpenProbeActive cb = true -> State cb = CircuitHalfOpen;
  wf_closed : State cb = CircuitClosed ->
    0 <= ConsecutiveFailures cb < FailureThreshold cb /\
    0 <= ConsecutiveOverloads cb < FailureThreshold cb * OverloadThresholdMultiplier;
  wf_half : State cb = CircuitHalfOpen ->
    0 <= ConsecutiveSuccesses cb < SuccessThreshold cb;
  wf_thresholds : 0 < FailureThreshold cb <= 2 ^ 60 /\ 0 < SuccessThreshold cb <= 2 ^ 60
}.

Lemma newBreaker_wf url ft st to :
  0 < ft <= 2 ^ 60 -> 0 < st <= 2 ^ 60 -> breaker_wf (newBreaker url ft st to).
Proof. intros. split; simpl; try done; unfold OverloadThresholdMultiplier; lia. Qed.

Ltac breaker_ints :=
  unfold OverloadThresholdMultiplier in *;
  repeat match goal with
  | H : context [int_add ?a ?b] |- _ =>
      rewrite (int_add_small a b) in H by (unfold in_int64, int64_min, int64_max; lia)
  | H : context [int_mul ?a ?b] |- _ =>
      rewrite (int_mul_small a b) in H by (unfold in_int64, int64_min, int64_max; lia)
  | |- context [int_add ?a ?b] =>
      rewrite (int_add_small a b) by (unfold in_int64, int64_min, int64_max; lia)
  | |- context [int_mul ?a ?b] =>
      rewrite (int_mul_small a b) by (unfold in_int64, int64_min, int64_max; lia)
  end.

Ltac wf_split cb Hwf :=
  destruct Hwf as [Hs Hp Hc Hh [Hf Hst]]; destruct cb as [u st f s t cf cs co lf ls p];
  simpl in *;
  try (specialize (Hc eq_refl)); try (specialize (Hh eq_refl)).

(** Re-establish each field of the invariant after the fields are known. *)
Ltac wf_close :=
  split; simpl; try done; try (intros; breaker_ints; lia);
  match goal with
  | H : ?p = true -> _ |- ?p = true -> _ => intros Hprobe; by specialize (H Hprobe)
  end.

Lemma Allow_wf now cb : breaker_wf cb -> breaker_wf (Allow now cb).2.
Proof.
  intros Hwf. pose proof Hwf as H. unfold Allow.
  destruct (State cb) eqn:E; [done| | |done].
  - case_match; [|done]. destruct H. split; simpl; try done; lia.
  - case_match; [done|]. destruct H. split; simpl; try done.
    all: rewrite E; try done; auto.
Qed.

Lemma RecordSuccess_wf now cb : breaker_wf cb -> breaker_wf (RecordSuccess now cb).
Proof.
  intros Hwf. wf_split cb Hwf. unfold RecordSuccess; simpl.
  destruct st as [| | |x]; [| | |done].
  - specialize (Hc eq_refl). wf_close.
  - wf_close.
  - specialize (Hh eq_refl). case_match; wf_close.
Qed.

Lemma RecordOverload_wf now cb : breaker_wf cb -> breaker_wf (RecordOverload now cb).
Proof.
  intros Hwf. wf_split cb Hwf. unfold RecordOverload; simpl.
  destruct st as [| | |x]; [| | |done].
  - specialize (Hc eq_refl). breaker_ints. case_match; wf_close.
  - wf_close.
  - wf_close.
Qed.

Lemma recordFailureLocked_wf now cb :
  breaker_wf cb -> breaker_wf (recordFailureLocked now cb).
Proof.
  intros Hwf. wf_split cb Hwf. unfold recordFailureLocked; simpl.
  destruct st as [| | |x]; [| | |done].
  - specialize (Hc eq_refl). case_match; wf_close.
  - wf_close.
  - wf_close.
Qed.

#[export] Hint Resolve Allow_wf RecordSuccess_wf RecordOverload_wf recordFailureLocked_wf
  newBreaker_wf : xt.

Lemma step_wf cb e : breaker_wf cb -> breaker_wf (step cb e).
Proof.
  destruct e; simpl; unfold RecordFailure, RecordProxyFailure; auto with xt.
  case_match; auto with xt.
Qed.

Lemma run_wf cb es : breaker_wf cb -> breaker_wf (run cb es).
Proof.
  revert cb. unfold run. induction es as [|e es IH]; intros cb H; simpl; [done|].
  apply IH. by apply step_wf.
Qed.

(** ** Bursts of requests *)

Lemma Allow_blocked_granted cb ts :
  (forall t, Allow t cb = (false, cb)) -> granted cb ts = 0%nat.
Proof. intros H. induction ts as [|t ts IH]; simpl; [done|]. by rewrite H. Qed.

Lemma probe_active_blocked cb t :
  State cb = CircuitHalfOpen -> halfOpenProbeActive cb = true -> Allow t cb = (false, cb).
Proof. unfold Allow. by intros -> ->. Qed.

Lemma granted_probe_active cb ts :
  State cb = CircuitHalfOpen -> halfOpenProbeActive cb = true -> granted cb ts = 0%nat.
Proof. intros. apply Allow_blocked_granted. intros. by apply probe_active_blocked. Qed.

Lemma open_cooldown_granted cb ts :
  State cb = CircuitOpen ->
  Forall (fun t => time_sub t (LastFailure cb) < Timeout cb) ts ->
  granted cb ts = 0%nat.
Proof.
  intros Hs. induction 1 as [|t ts Ht _ IH]; simpl; [done|].
  unfold Allow. rewrite Hs. case_cmp; [lia|]. by rewrite IH.
Qed.

(** ** Runs of failures *)

Lemma run_app cb es es' : run cb (es ++ es') = run (run cb es) es'.
Proof. apply fold_left_app. Qed.

Lemma run_failures_open cb ts : State cb = CircuitOpen ->
  State (run cb (EFailure <$> ts)) = CircuitOpen.
Proof.
  revert cb. induction ts as [|t ts IH]; intros cb H; simpl; [done|]. apply IH.
  unfold RecordFailure, recordFailureLocked; simpl. by rewrite H.
Qed.

Lemma run_failures_closed cb ts :
  breaker_wf cb -> State cb = CircuitClosed ->
  State (run cb (EFailure <$> ts)) =
    if FailureThreshold cb <=? ConsecutiveFailures cb + Z.of_nat (length ts)
    then CircuitOpen else CircuitClosed.
Proof.
  revert cb. induction ts as [|t ts IH]; intros cb Hwf Hs; cbn [fmap list_fmap length].
  - destruct Hwf as [_ _ Hc _ _]. specialize (Hc Hs). cbn [run fold_left]. rewrite Hs.
    case_cmp; [lia|done].
  - change (run cb (EFailure t :: ?l)) with (run (step cb (EFailure t)) l).
    pose proof (step_wf cb (EFailure t) Hwf) as Hwf'.
    pose proof Hwf as [_ _ Hc _ Hth]. specialize (Hc Hs).
    unfold step, RecordFailure, recordFailureLocked in *; simpl in *. rewrite Hs in *.
    destruct (Z.leb_spec (FailureThreshold cb) (int_add (ConsecutiveFailures cb) 1)) as [Hle|Hlt];
      breaker_ints.
    + rewrite run_failures_open by done. case_cmp; [done|lia].
    + rewrite IH by done. simpl. breaker_ints.
      repeat case_cmp; done || lia.
Qed.

Lemma run_overloads_open cb ts : State cb = CircuitOpen ->
  State (run cb (EOverload <$> ts)) = CircuitOpen.
Proof.
  revert cb. induction ts as [|t ts IH]; intros cb H; simpl; [done|]. apply IH.
  unfold RecordOverload; simpl. by rewrite H.
Qed.

Lemma run_overloads_closed cb ts :
  breaker_wf cb -> State cb = CircuitClosed ->
  State (run cb (EOverload <$> ts)) =
    if FailureThreshold cb * OverloadThresholdMultiplier
         <=? ConsecutiveOverloads cb + Z.of_nat (length ts)
    then CircuitOpen else CircuitClosed.
Proof.
  revert cb. induction ts as [|t ts IH]; intros cb Hwf Hs; cbn [fmap list_fmap length].
  - destruct Hwf as [_ _ Hc _ _]. specialize (Hc Hs). cbn [run fold_left]. rewrite Hs.
    case_cmp; [lia|done].
  - change (run cb (EOverload t :: ?l)) with (run (step cb (EOverload t)) l).
    pose proof (step_wf cb (EOverload t) Hwf) as Hwf'.
    pose proof Hwf as [_ _ Hc _ Hth]. specialize (Hc Hs).
    unfold step, RecordOverload in *; simpl in *. rewrite Hs in *. breaker_ints.
    destruct (Z.leb_spec (FailureThreshold cb * 3) (ConsecutiveOverloads cb + 1)) as [Hle|Hlt].
    + rewrite run_overloads_open by done. case_cmp; [done|lia].
    + rewrite IH by done. simpl. breaker_ints. repeat case_cmp; done || lia.
Qed.

(** ** Recovery probes *)

(** A request admitted at [p.1] whose success is recorded at [p.2]. *)
Definition probe_cycle (p : Time * Time) : list event := [EAllow p.1; ESuccess p.2].

Definition probe_cycles (ps : list (Time * Time)) : list event := ps ≫= probe_cycle.

Lemma half_open_cycle cb p :
  breaker_wf cb -> State cb = CircuitHalfOpen -> halfOpenProbeActive cb = false ->
  let cb' := run cb (probe_cycle p) in
  (Allow p.1 cb).1 = true /\ halfOpenProbeActive cb' = false /\
  ConsecutiveSuccesses cb' = ConsecutiveSuccesses cb + 1 /\
  SuccessThreshold cb' = SuccessThreshold cb /\
  State cb' = if SuccessThreshold cb <=? ConsecutiveSuccesses cb + 1
              then CircuitClosed else CircuitHalfOpen.
Proof.
  intros [_ _ _ Hh Hth] Hs Hp. specialize (Hh Hs).
  unfold run, probe_cycle, step, Allow, RecordSuccess; simpl. rewrite Hs, Hp; simpl.
  rewrite Hs; simpl. breaker_ints. by case_cmp.
Qed.

Lemma half_open_recovers cb ps :
  breaker_wf cb -> State cb = CircuitHalfOpen -> halfOpenProbeActive cb = false ->
  ConsecutiveSuccesses cb + Z.of_nat (length ps) <= SuccessThreshold cb ->
  State (run cb (probe_cycles ps)) =
    if SuccessThreshold cb <=? ConsecutiveSuccesses cb + Z.of_nat (length ps)
    then CircuitClosed else CircuitHalfOpen.
Proof.
  revert cb. induction ps as [|p ps IH]; intros cb Hwf Hs Hp Hlen.
  - destruct Hwf as [_ _ _ Hh _]. specialize (Hh Hs). cbn in *. rewrite Hs.
    case_cmp; [lia|done].
  - change (probe_cycles (p :: ps)) with (probe_cycle p ++ probe_cycles ps). rewrite run_app.
    destruct (half_open_cycle cb p Hwf Hs Hp) as (_ & Hp' & Hcs & Hst & Hs').
    simpl length in *. destruct (Z.leb_spec (SuccessThreshold cb) (ConsecutiveSuccesses cb + 1)).
    + destruct ps; simpl in *; [|lia]. rewrite Hs'. by case_cmp; [|lia].
    + rewrite IH; try done; [|by apply run_wf|lia]. rewrite Hst, Hcs.
      repeat case_cmp; done || lia.
Qed.

(** ** Properties *)

(** C20: every execution of a breaker created with positive thresholds keeps
    the state invariant: the state is one of the three constants, a probe is
    marked in flight only while half-open, a closed breaker is strictly below
    its failure and overload thresholds, and a half-open breaker strictly
    below its success threshold. *)
Theorem breaker_invariant url ft st to es :
  0 < ft <= 2 ^ 60 -> 0 < st <= 2 ^ 60 ->
  breaker_wf (run (newBreaker url ft st to) es).
Proof. intros. apply run_wf. by apply newBreaker_wf. Qed.

Lemma breaker_invariant_witness :
  breaker_wf (run (newBreaker "http://trino" 2 1 Second)
    [EFailure 0; EFailure 1; EAllow (2 * Second); EProxyFailure (3 * Second) false]).
Proof. apply breaker_invariant; lia. Defined.

(** A breaker that is not closed lets at most one request of any burst
    through, at whatever times the requests arrive: a tripped backend is
    probed by a single request. *)
Theorem single_probe cb ts :
  State cb <> CircuitClosed -> (granted cb ts <= 1)%nat.
Proof.
  revert cb. induction ts as [|t ts IH]; intros cb Hs; simpl; [lia|].
  unfold Allow. destruct (State cb) eqn:E; [done| | |].
  - case_cmp.
    + rewrite granted_probe_active; simpl; done || lia.
    + by apply IH; rewrite E.
  - destruct (halfOpenProbeActive cb) eqn:Ep; [by apply IH; rewrite E|].
    rewrite granted_probe_active; simpl; done || lia.
  - by apply IH; rewrite E.
Qed.

Lemma single_probe_witness :
  (granted (run (newBreaker "u" 1 2 Second) [EFailure 0])%Z [0; Second; Second; 2 * Second]%Z <= 1)%nat.
Proof. apply single_probe. vm_compute. discriminate. Defined.

(** [Selectable], the read-only filter used during backend selection,
    gives exactly the answer [Allow] would give at the same instant. *)
Theorem selectable_agrees_with_allow now cb : Selectable now cb = (Allow now cb).1.
Proof. unfold Selectable, Allow. by repeat (case_match; simplify_eq/=). Qed.

(** A fresh breaker fed only hard failures is open exactly when their
    number has reached [FailureThreshold]; fed only 503 overloads, exactly
    when it has reached three times [FailureThreshold]. *)
Theorem trips_at_threshold url ft st to ts :
  0 < ft <= 2 ^ 60 -> 0 < st <= 2 ^ 60 ->
  State (run (newBreaker url ft st to) (EFailure <$> ts)) =
    (if ft <=? Z.of_nat (length ts) then CircuitOpen else CircuitClosed) /\
  State (run (newBreaker url ft st to) (EOverload <$> ts)) =
    (if ft * 3 <=? Z.of_nat (length ts) then CircuitOpen else CircuitClosed).
Proof.
  intros Hft Hst. split.
  - by rewrite run_failures_closed by auto with xt.
  - by rewrite run_overloads_closed by auto with xt.
Qed.

Lemma trips_at_threshold_witness :
  State (run (newBreaker "u" 2 1 Second) (EFailure <$> [5; 6])) = CircuitOpen /\
  State (run (newBreaker "u" 2 1 Second) (EOverload <$> [5; 6])) = CircuitClosed.
Proof.
  destruct (trips_at_threshold "u" 2 1 Second [5; 6]) as [H1 H2]; [lia|lia|].
  split; [exact H1|exact H2].
Defined.

(** C30: An open breaker refuses every request during its timeout; once the
    timeout has passed, [SuccessThreshold] successful probes in a row are each
    admitted and close it, and fewer leave it half-open. *)
Theorem open_recovers cb t0 t1 ps cooldown :
  breaker_wf cb -> State cb = CircuitOpen ->
  Forall (fun t => time_sub t (LastFailure cb) < Timeout cb) cooldown ->
  Timeout cb <= time_sub t0 (LastFailure cb) ->
  Z.of_nat (length ps) < SuccessThreshold cb ->
  granted cb cooldown = 0%nat /\ (Allow t0 cb).1 = true /\
  State (run cb (probe_cycles ((t0, t1) :: ps))) =
    if Z.of_nat (length ps) + 1 =? SuccessThreshold cb then CircuitClosed else CircuitHalfOpen.
Proof.
  intros Hwf Hs Hcool Ht Hlen. split; [by apply open_cooldown_granted|].
  pose proof Hwf as [_ _ _ _ Hth].
  assert (Hal : Allow t0 cb = (true, set_probe true
    (set_counts (ConsecutiveFailures cb) 0 (ConsecutiveOverloads cb)
       (set_State CircuitHalfOpen cb)))) by (unfold Allow; rewrite Hs; case_cmp; [done|lia]).
  split; [by rewrite Hal|].
  change (probe_cycles ((t0, t1) :: ps)) with ([EAllow t0; ESuccess t1] ++ probe_cycles ps).
  rewrite run_app. set (cb1 := run cb [EAllow t0; ESuccess t1]).
  assert (Hcb1 : breaker_wf cb1) by by apply run_wf.
  assert (Heq : cb1 = RecordSuccess t1 (Allow t0 cb).2) by done.
  rewrite Hal in Heq. unfold RecordSuccess in Heq; simpl in Heq.
  change (int_add 0 1) with 1 in Heq.
  destruct (Z.leb_spec (SuccessThreshold cb) 1).
  - destruct ps; cbn [length] in *; [|lia]. change (run cb1 (probe_cycles [])) with cb1.
    rewrite Heq. case_cmp; [done|lia].
  - assert (Hs1 : State cb1 = CircuitHalfOpen) by by rewrite Heq.
    assert (Hst1 : SuccessThreshold cb1 = SuccessThreshold cb) by by rewrite Heq.
    assert (Hcs1 : ConsecutiveSuccesses cb1 = 1) by by rewrite Heq.
    rewrite half_open_recovers by (done || lia || by rewrite Heq).
    rewrite Hst1, Hcs1. repeat case_cmp; done || lia.
Qed.

Lemma open_recovers_witness :
  State (run (run (newBreaker "u" 1 2 Second) [EFailure 0])
           (probe_cycles [(2 * Second, 3 * Second); (4 * Second, 5 * Second)])) = CircuitClosed.
Proof.
  destruct (open_recovers (run (newBreaker "u" 1 2 Second) [EFailure 0])
    (2 * Second) (3 * Second) [(4 * Second, 5 * Second)] [1; 2])
    as (_ & _ & H); [|reflexivity| | | |exact H].
  - apply run_wf, newBreaker_wf; lia.
  - repeat constructor; vm_compute; reflexivity.
  - vm_compute. discriminate.
  - vm_compute. reflexivity.
Defined.

(** Whatever ends a half-open probe badly - a 503, a hard failure or any
    proxy error, counted or not - reopens the breaker, frees the probe slot
    and restarts the timeout: every request of the next [Timeout] is
    refused. *)
Theorem failed_probe_reopens cb now e ts :
  State cb = CircuitHalfOpen ->
  e = EOverload now \/ e = EFailure now \/ (exists c, e = EProxyFailure now c) ->
  Forall (fun t => time_sub t now < Timeout cb) ts ->
  State (step cb e) = CircuitOpen /\ halfOpenProbeActive (step cb e) = false /\
  granted (step cb e) ts = 0%nat.
Proof.
  intros Hs He Hts.
  assert (Hst : State (step cb e) = CircuitOpen /\ halfOpenProbeActive (step cb e) = false /\
                LastFailure (step cb e) = now /\ Timeout (step cb e) = Timeout cb).
  { destruct He as [->|[->|[c ->]]]; simpl;
      unfold RecordOverload, RecordFailure, RecordProxyFailure, recordFailureLocked; simpl.
    - by rewrite Hs.
    - by rewrite Hs.
    - rewrite (bool_decide_eq_true_2 _ Hs); simpl. by rewrite Hs. }
  destruct Hst as (H1 & H2 & H3 & H4). repeat split; [done..|].
  apply open_cooldown_granted; [done|]. by rewrite H3, H4.
Qed.

Lemma failed_probe_reopens_witness :
  State (step (run (newBreaker "u" 1 2 Second) [EFailure 0; EAllow (2 * Second)])
           (EProxyFailure (3 * Second) false)) = CircuitOpen.
Proof.
  destruct (failed_probe_reopens (run (newBreaker "u" 1 2 Second) [EFailure 0; EAllow (2 * Second)])
    (3 * Second) (EProxyFailure (3 * Second) false) []) as [H _]; [reflexivity|eauto|constructor|].
  exact H.
Defined.
