(* ===== verification/RateLimit.v ===== *)
(** * Rate limiting ([pkg/gateway/ratelimit.go])

    The local token bucket, the per-key limiter with its cleanup pass, the
    Lua script that implements the distributed bucket in Redis, and the
    middleware's key extraction and decision.  Redis itself is a parameter: the
    reply of [Eval] is an argument of the calls that use it. *)

From Stdlib Require Import Sorted.
From S2P Require Import Prelude GoStrings.

(** ** Token bucket *)

Record TokenBucket := mkBucket {
  Capacity : Z;
  Tokens : Z;
  RefillRate : Duration;
  LastRefill : Time;
  LastSeen : Time
}.

#[export] Instance TokenBucket_eq_dec : EqDecision TokenBucket.
Proof. solve_decision. Defined.

Definition NewTokenBucket (now : Time) (capacity : Z) (refillRate : Duration) : TokenBucket :=
  let refillRate := if refillRate <=? 0 then Second else refillRate in
  {| Capacity := capacity; Tokens := capacity; RefillRate := refillRate;
     LastRefill := now; LastSeen := now |}.

(** [TokenBucket.Allow]; Go's integer division truncates ([Z.quot]). *)
Definition bucket_Allow (now : Time) (tb : TokenBucket) : bool * TokenBucket :=
  let elapsed := time_sub now (LastRefill tb) in
  let tokensToAdd := Z.quot elapsed (RefillRate tb) in
  let '(tokens, lastRefill) :=
    if 0 <? tokensToAdd then
      let tokens := int_add (Tokens tb) tokensToAdd in
      ((if Capacity tb <? tokens then Capacity tb else tokens), now)
    else (Tokens tb, LastRefill tb) in
  if 0 <? tokens
  then (true, mkBucket (Capacity tb) (tokens - 1) (RefillRate tb) lastRefill now)
  else (false, mkBucket (Capacity tb) tokens (RefillRate tb) lastRefill now).

(** ** The distributed bucket

    [redisTokenBucketScript]: the value of the key is [tokens:last_refill],
    [None] when the key is absent or unreadable.  Lua 5.1 prints numbers with
    ["%.14g"], so the timestamp is stored rounded to 14 significant digits. *)

Definition pow10 (n : nat) : Z := 10 ^ Z.of_nat n.

Fixpoint digits (fuel : nat) (z : Z) : nat :=
  match fuel with
  | O => 0
  | S f => if z =? 0 then 0 else S (digits f (z / 10))
  end.

(** Round half to even, as [printf] does. *)
Definition lua_tostring (z : Z) : Z :=
  let d := digits 20 (Z.abs z) in
  if (d <=? 14)%nat then z
  else
    let u := pow10 (d - 14) in
    let q := Z.abs z / u in
    let r := Z.abs z mod u in
    let q := if (u <? 2 * r) || ((2 * r =? u) && Z.odd q) then q + 1 else q in
    Z.sgn z * (q * u).

Inductive script_reply :=
| ScriptError
| ScriptAllowed (allowed : bool) (stored : Z * Z).

Definition redisTokenBucketScript (capacity refill_micros now_micros : Z)
    (raw : option (Z * Z)) : script_reply :=
  if (capacity <=? 0) || (refill_micros <=? 0) then ScriptError else
  let '(tokens, last_refill) := default (capacity, now_micros) raw in
  let elapsed := now_micros - last_refill in
  let elapsed := if elapsed <? 0 then 0 else elapsed in
  let tokens_to_add := elapsed / refill_micros in
  let '(tokens, last_refill) :=
    if 0 <? tokens_to_add then
      let tokens := tokens + tokens_to_add in
      ((if capacity <? tokens then capacity else tokens), now_micros)
    else (tokens, last_refill) in
  let '(tokens, allowed) := if 0 <? tokens then (tokens - 1, true) else (tokens, false) in
  ScriptAllowed allowed (lua_tostring tokens, lua_tostring last_refill).

Definition redisTTLSeconds (duration : Duration) : Z :=
  if duration <=? 0 then 1 else
  let seconds := Z.quot duration Second in
  let seconds := if Z.rem duration Second =? 0 then seconds else seconds + 1 in
  if seconds <? 1 then 1 else seconds.

(** ** The limiter *)

Record RateLimiter := mkLimiter {
  limiters : gmap string TokenBucket;
  capacity : Z;
  refillRate : Duration;
  cleanupTTL : Duration;
  redisEnabled : bool;
  windowSize : Duration
}.

Definition set_limiters l rl :=
  mkLimiter l (capacity rl) (refillRate rl) (cleanupTTL rl) (redisEnabled rl) (windowSize rl).

Definition NewRateLimiter (capacity : Z) (refillRate : Duration) : RateLimiter :=
  mkLimiter ∅ capacity refillRate (10 * Minute) false 0.

(** [hasClient] says that the caller passed a Redis client. *)
Definition NewDistributedRateLimiter (capacity : Z) (refillRate : Duration)
    (hasClient : bool) : RateLimiter :=
  let rl := NewRateLimiter capacity refillRate in
  if hasClient then
    let windowSize := int_mul capacity refillRate in
    mkLimiter (limiters rl) capacity refillRate (cleanupTTL rl) true
      (if windowSize <? Second then Second else windowSize)
  else rl.

Definition cleanup (now : Time) (rl : RateLimiter) : RateLimiter :=
  set_limiters
    (filter (fun kb => ~ (cleanupTTL rl < time_sub now (LastSeen kb.2))) (limiters rl)) rl.

(** The local part of [RateLimiter.Allow]. *)
Definition allowLocal (now : Time) (key : string) (rl : RateLimiter) : bool * RateLimiter :=
  let bucket := match limiters rl !! key with
                | Some b => b
                | None => NewTokenBucket now (capacity rl) (refillRate rl)
                end in
  let '(ok, bucket) := bucket_Allow now bucket in
  (ok, set_limiters (<[key := bucket]> (limiters rl)) rl).

(** The arguments [allowRedis] passes to [Eval]: key, capacity, refill,
    now in microseconds, time to live in seconds. *)
Record redis_args := mkRedisArgs {
  redisKey : string; argCapacity : Z; argRefill : Z; argNow : Z; argTTL : Z }.

Definition allowRedis (redisEval : redis_args -> result string Z) (now : Time) (key : string)
    (rl : RateLimiter) : result string bool :=
  let refillMicros := Z.quot (refillRate rl) Microsecond in
  let refillMicros := if refillMicros <=? 0 then Z.quot Second Microsecond else refillMicros in
  let ttlSeconds := redisTTLSeconds (int_add (windowSize rl) Second) in
  allowed ← redisEval (mkRedisArgs ("rl:" +:+ key) (capacity rl) refillMicros
                         (now / Microsecond) ttlSeconds);
  Ok (allowed =? 1).

(** [RateLimiter.Allow]: Redis when enabled, the local bucket on any error. *)
Definition limiter_Allow (redisEval : redis_args -> result string Z) (now : Time)
    (key : string) (rl : RateLimiter) : bool * RateLimiter :=
  if redisEnabled rl then
    match allowRedis redisEval now key rl with
    | Ok allowed => (allowed, rl)
    | Err _ => allowLocal now key rl
    end
  else allowLocal now key rl.

(** ** Middleware *)

Definition extractIPFromAddr (addr : string) : string :=
  match SplitHostPort addr with Some (host, _) => host | None => addr end.

Definition extractForwardedForIP (xff : string) : string :=
  if xff ≡? "" then "" else TrimSpace (SplitFirst "," xff).

Definition extractRateLimitKey (remoteAddr xff : string) : string :=
  let ip := extractIPFromAddr remoteAddr in
  if negb (ip ≡? "") then "ip:" +:+ ip else
  let ip := extractForwardedForIP xff in
  if negb (ip ≡? "") then "ip:" +:+ ip else "unknown".

Inductive middleware_outcome :=
| TooManyRequests (retryAfter : Z)
| NextHandler.

Definition RateLimitMiddleware (redisEval : redis_args -> result string Z) (now : Time)
    (remoteAddr xff : string) (rl : RateLimiter) : middleware_outcome * RateLimiter :=
  let '(ok, rl) := limiter_Allow redisEval now (extractRateLimitKey remoteAddr xff) rl in
  ((if ok then NextHandler else TooManyRequests 60), rl).

(** ** Executions of one bucket and of the limiter *)

Fixpoint bucket_granted (tb : TokenBucket) (ts : list Time) : Z :=
  match ts with
  | [] => 0
  | t :: ts' =>
      let '(ok, tb') := bucket_Allow t tb in
      (if ok then 1 else 0) + bucket_granted tb' ts'
  end.

Definition bucket_run (tb : TokenBucket) (ts : list Time) : TokenBucket :=
  fold_left (fun tb t => (bucket_Allow t tb).2) ts tb.

Record bucket_wf (tb : TokenBucket) : Prop := {
  bwf_tokens : 0 <= Tokens tb <= Capacity tb;
  bwf_capacity : Capacity tb <= 2 ^ 61;
  bwf_rate : 0 < RefillRate tb;
  bwf_seen : LastRefill tb <= LastSeen tb
}.

(** Instants a clock can show: a century either side of the epoch fits, and
    differences stay far from the ends of [Duration]. *)
Definition clock_range (t : Time) : Prop := - 2 ^ 61 <= t <= 2 ^ 61.

Lemma NewTokenBucket_wf now cap rate :
  0 <= cap <= 2 ^ 61 -> bucket_wf (NewTokenBucket now cap rate).
Proof.
  intros. unfold NewTokenBucket. split; simpl; try lia.
  unfold Second. case_cmp; lia.
Qed.

(** The refill on a well-formed bucket, with the machine arithmetic gone. *)
Lemma bucket_Allow_spec now tb :
  bucket_wf tb -> clock_range now -> clock_range (LastRefill tb) -> LastRefill tb <= now ->
  let add := (now - LastRefill tb) / RefillRate tb in
  let tokens := if 0 <? add then Z.min (Capacity tb) (Tokens tb + add) else Tokens tb in
  let last := if 0 <? add then now else LastRefill tb in
  0 <= add /\
  bucket_Allow now tb =
    ((0 <? tokens),
     mkBucket (Capacity tb) (if 0 <? tokens then tokens - 1 else tokens)
       (RefillRate tb) last now).
Proof.
  intros [Ht Hc Hr Hs] Hn Hl Hle add tokens last. unfold clock_range in Hn, Hl.
  assert (Hadd : 0 <= add) by (apply Z.div_pos; lia).
  assert (Hadd' : add <= now - LastRefill tb) by (apply Z.div_le_upper_bound; nia).
  split; [done|]. unfold bucket_Allow.
  assert (Hsub : time_sub now (LastRefill tb) = now - LastRefill tb)
    by (unfold time_sub, int64_min, int64_max; lia).
  rewrite Hsub, Z.quot_div_nonneg by lia. fold add.
  subst tokens last. destruct (Z.ltb_spec 0 add); [|by case_cmp].
  rewrite int_add_small by (unfold in_int64, int64_min, int64_max; lia).
  destruct (Z.ltb_spec (Capacity tb) (Tokens tb + add)).
  - rewrite Z.min_l by lia. by case_cmp.
  - rewrite Z.min_r by lia. by case_cmp.
Qed.

Lemma bucket_Allow_wf now tb :
  bucket_wf tb -> clock_range now -> clock_range (LastRefill tb) -> LastRefill tb <= now ->
  bucket_wf (bucket_Allow now tb).2 /\ LastRefill (bucket_Allow now tb).2 <= now /\
  clock_range (LastRefill (bucket_Allow now tb).2) /\
  Capacity (bucket_Allow now tb).2 = Capacity tb /\
  RefillRate (bucket_Allow now tb).2 = RefillRate tb /\
  LastSeen (bucket_Allow now tb).2 = now.
Proof.
  intros Hwf Hn Hl Hle. destruct (bucket_Allow_spec now tb Hwf Hn Hl Hle) as [Hadd ->].
  destruct Hwf as [Ht Hc Hr Hs]. cbn [snd Capacity Tokens RefillRate LastRefill LastSeen].
  repeat split; cbn [Capacity Tokens RefillRate LastRefill LastSeen];
    try done; repeat case_cmp; unfold clock_range in *; lia.
Qed.

(** What one call can add to the grants: the potential
    [Tokens + (T - LastRefill) / RefillRate] pays for every grant. *)
Definition potential (T : Time) (tb : TokenBucket) : Z :=
  Tokens tb + (T - LastRefill tb) / RefillRate tb.

Lemma div_add_le a b r : 0 < r -> 0 <= a -> 0 <= b -> a / r + b / r <= (a + b) / r.
Proof.
  intros. apply Z.div_le_lower_bound; [lia|].
  pose proof (Z.mul_div_le a r ltac:(lia)). pose proof (Z.mul_div_le b r ltac:(lia)). lia.
Qed.

Lemma bucket_Allow_potential now T tb :
  bucket_wf tb -> clock_range now -> clock_range (LastRefill tb) ->
  LastRefill tb <= now <= T ->
  (if (bucket_Allow now tb).1 then 1 else 0) + potential T (bucket_Allow now tb).2
    <= potential T tb.
Proof.
  intros Hwf Hn Hl [Hle HT]. destruct (bucket_Allow_spec now tb Hwf Hn Hl Hle) as [Hadd ->].
  destruct Hwf as [Ht Hc Hr Hs]. unfold potential.
  cbn [fst snd Capacity Tokens RefillRate LastRefill LastSeen].
  pose proof (div_add_le (now - LastRefill tb) (T - now) (RefillRate tb) Hr ltac:(lia) ltac:(lia))
    as Hdiv.
  replace (now - LastRefill tb + (T - now)) with (T - LastRefill tb) in Hdiv by lia.
  set (add := (now - LastRefill tb) / RefillRate tb) in *.
  destruct (Z.ltb_spec 0 add); case_cmp; lia.
Qed.

#[export] Hint Resolve NewTokenBucket_wf : xt.

(** ** Lua's number printing *)

Lemma digits_le f n z : 0 <= z < pow10 n -> (digits f z <= n)%nat.
Proof.
  revert n z. induction f as [|f IH]; intros n z Hz; simpl; [lia|].
  destruct (Z.eqb_spec z 0); [lia|]. destruct n as [|n]; [unfold pow10 in Hz; simpl in Hz; lia|].
  apply le_n_S, IH. unfold pow10 in *. rewrite Nat2Z.inj_succ, Z.pow_succ_r in Hz by lia.
  split; [apply Z.div_pos; lia|]. apply Z.div_lt_upper_bound; lia.
Qed.

Lemma lua_tostring_small z : Z.abs z < pow10 14 -> lua_tostring z = z.
Proof.
  intros H. unfold lua_tostring.
  pose proof (digits_le 20 14 (Z.abs z) ltac:(lia)) as Hd.
  by rewrite (proj2 (Nat.leb_le _ _) Hd).
Qed.

(** ** Requests and cleanup passes at the limiter *)

Inductive limiter_event :=
| EvRequest (t : Time) (key : string)
| EvCleanup (t : Time).

Definition ev_time (e : limiter_event) : Time :=
  match e with EvRequest t _ => t | EvCleanup t => t end.

(** Grants to [key] in an execution of the local limiter. *)
Fixpoint key_granted (key : string) (rl : RateLimiter) (es : list limiter_event) : Z :=
  match es with
  | [] => 0
  | EvRequest t k :: es' =>
      let '(ok, rl') := allowLocal t k rl in
      (if ok && (k ≡? key) then 1 else 0) + key_granted key rl' es'
  | EvCleanup t :: es' => key_granted key (cleanup t rl) es'
  end.

(** The request times of [key]. *)
Fixpoint times_of (key : string) (es : list limiter_event) : list Time :=
  match es with
  | [] => []
  | EvRequest t k :: es' => if k ≡? key then t :: times_of key es' else times_of key es'
  | EvCleanup _ :: es' => times_of key es'
  end.

(** The specification of the limiter: one bucket per key, created at the
    key's first request and never discarded. *)
Definition ideal_granted (cap : Z) (rate : Duration) (tb : option TokenBucket)
    (ts : list Time) : Z :=
  match ts with
  | [] => 0
  | t :: _ => bucket_granted (default (NewTokenBucket t cap rate) tb) ts
  end.

Section refinement.
Context (cap : Z) (rate ttl : Duration) (key : string).
Context (cap_range : 0 < cap <= 2 ^ 61) (rate_pos : 0 < rate)
        (ttl_covers : cap * rate <= ttl < 2 ^ 62).

Definition own_bucket (tb : TokenBucket) (t : Time) : Prop :=
  bucket_wf tb /\ Capacity tb = cap /\ RefillRate tb = rate /\
  LastSeen tb <= t /\ clock_range (LastRefill tb) /\ clock_range (LastSeen tb).

Lemma own_bucket_mono tb t t' : own_bucket tb t -> t <= t' -> own_bucket tb t'.
Proof. unfold own_bucket. intuition lia. Qed.

Lemma own_bucket_new t : clock_range t -> own_bucket (NewTokenBucket t cap rate) t.
Proof.
  intros Ht. unfold own_bucket. split_and; [apply NewTokenBucket_wf; lia|].
  simpl. case_cmp; [lia|]. by split_and?; try lia.
Qed.

Lemma own_bucket_Allow tb t t' :
  own_bucket tb t -> t <= t' -> clock_range t' -> own_bucket (bucket_Allow t' tb).2 t'.
Proof.
  intros (Hwf & Hc & Hr & Hs & Hl & Hls) Ht Ht'.
  pose proof (bwf_seen _ Hwf) as Hseen.
  destruct (bucket_Allow_wf t' tb) as (H1 & H2 & H3 & H4 & H5 & H6); try done; [lia|].
  unfold own_bucket. rewrite H4, H5, H6. by split_and?; try lia.
Qed.

(** A bucket idle for longer than the cleanup period has refilled, so
    discarding it and starting a new one changes nothing. *)
Lemma stale_bucket_full tb t :
  own_bucket tb t -> clock_range t -> ttl < t - LastSeen tb ->
  bucket_Allow t tb = bucket_Allow t (NewTokenBucket t cap rate).
Proof.
  intros (Hwf & Hc & Hr & Hs & Hl & Hls) Ht Hstale.
  pose proof (bwf_seen _ Hwf) as Hseen. pose proof (bwf_tokens _ Hwf) as Htok.
  destruct (own_bucket_new t Ht) as (Hwf' & _ & _ & _ & Hl' & _).
  destruct (bucket_Allow_spec t tb) as [_ ->]; try done; [lia|].
  destruct (bucket_Allow_spec t (NewTokenBucket t cap rate)) as [_ ->]; try done.
  rewrite Hc, Hr in *. simpl. destruct (Z.leb_spec rate 0) as [|_]; [lia|].
  rewrite Z.sub_diag, Z.div_0_l by lia. simpl.
  assert (Hadd : cap <= (t - LastRefill tb) / rate)
    by (apply Z.div_le_lower_bound; nia).
  destruct (Z.ltb_spec 0 ((t - LastRefill tb) / rate)); [|lia].
  by rewrite Z.min_l by lia.
Qed.

(** The limiter's bucket for [key] against the ideal one. *)
Definition tracks (rl : RateLimiter) (g : option TokenBucket) (t : Time) : Prop :=
  capacity rl = cap /\ refillRate rl = rate /\ cleanupTTL rl = ttl /\
  match limiters rl !! key, g with
  | Some b, Some b' => b = b' /\ own_bucket b t
  | None, Some b => own_bucket b t /\ ttl < t - LastSeen b
  | None, None => True
  | Some _, None => False
  end.

Lemma tracks_mono rl g t t' : tracks rl g t -> t <= t' -> tracks rl g t'.
Proof.
  unfold tracks. intros (H1 & H2 & H3 & H) Ht. repeat split; [done..|].
  destruct (limiters rl !! key), g; try done.
  - destruct H as [-> H]. split; [done|]. by eapply own_bucket_mono.
  - destruct H as [H Hst]. split; [by eapply own_bucket_mono|lia].
Qed.

Lemma tracks_cleanup rl g t : tracks rl g t -> clock_range t -> tracks (cleanup t rl) g t.
Proof.
  unfold tracks. intros (H1 & H2 & H3 & H) Ht. repeat split; [done..|]. simpl.
  rewrite map_lookup_filter. rewrite H3. destruct (limiters rl !! key) as [b|]; simpl; [|done].
  destruct g as [b'|]; [|done]. destruct H as [<- H].
  pose proof H as (_ & _ & _ & Hs & _ & Hls).
  assert (Hsub : time_sub t (LastSeen b) = t - LastSeen b)
    by (unfold clock_range in *; unfold time_sub, int64_min, int64_max; lia).
  destruct (decide (ttl < time_sub t (LastSeen b))) as [Hd|Hd].
  - rewrite option_guard_False by naive_solver. simpl. split; [done|lia].
  - rewrite option_guard_True by naive_solver. done.
Qed.

Lemma tracks_request_other rl g t k :
  tracks rl g t -> k <> key -> tracks (allowLocal t k rl).2 g t.
Proof.
  unfold tracks, allowLocal. intros H Hk. destruct (bucket_Allow _ _) as [ok b]; simpl.
  by rewrite lookup_insert_ne.
Qed.

Lemma tracks_request rl g t t' :
  tracks rl g t -> t <= t' -> clock_range t' ->
  let b := default (NewTokenBucket t' cap rate) g in
  (allowLocal t' key rl).1 = (bucket_Allow t' b).1 /\
  tracks (allowLocal t' key rl).2 (Some (bucket_Allow t' b).2) t'.
Proof.
  intros Htr Ht Ht'. pose proof (tracks_mono _ _ _ _ Htr Ht) as Htr'. clear Htr.
  destruct Htr' as (H1 & H2 & H3 & H).
  assert (Hown : own_bucket (bucket_Allow t' (default (NewTokenBucket t' cap rate) g)).2 t').
  { apply (own_bucket_Allow _ t'); try lia; try done.
    destruct g as [b|]; simpl; [|by apply own_bucket_new].
    destruct (limiters rl !! key) as [b'|]; [by destruct H as [<- H]|by destruct H]. }
  assert (Heq : bucket_Allow t' (default (NewTokenBucket t' (capacity rl) (refillRate rl))
                                   (limiters rl !! key))
                = bucket_Allow t' (default (NewTokenBucket t' cap rate) g)).
  { rewrite H1, H2. destruct (limiters rl !! key) as [b|], g as [b'|]; simpl; try done.
    - by destruct H as [-> _].
    - destruct H as [Hb Hst]. symmetry. by apply stale_bucket_full. }
  unfold allowLocal, default in *. destruct (limiters rl !! key) eqn:E; simpl in Heq;
    rewrite Heq; destruct (bucket_Allow t' _) as [ok b] eqn:Eb; simpl in *;
    (split; [done|]); repeat split; try done; simpl; by rewrite lookup_insert_eq.
Qed.

Lemma limiter_tracks rl g t es :
  tracks rl g t -> Forall (fun e => clock_range (ev_time e)) es ->
  Sorted Z.le (t :: map ev_time es) ->
  key_granted key rl es = ideal_granted cap rate g (times_of key es).
Proof.
  revert rl g t. induction es as [|e es IH]; intros rl g t Htr Hr Hs; [done|].
  inversion Hr as [|? ? He Hr']; subst. inversion Hs as [|? ? Hs' Hhd]; subst.
  inversion Hhd as [|? ? Hle]; subst. destruct e as [t' k|t']; simpl in *.
  - destruct (decide (k = key)) as [->|Hk].
    + rewrite (bool_decide_eq_true_2 (key = key)) by done.
      destruct (tracks_request rl g t t' Htr Hle He) as [Hok Htr'].
      destruct (allowLocal t' key rl) as [ok rl'] eqn:Ea; simpl in *.
      rewrite (IH _ _ _ Htr' Hr' Hs').
      destruct (bucket_Allow t' _) as [ok' b'] eqn:Eb; simpl in *. subst ok'.
      rewrite andb_true_r. f_equal. by destruct (times_of key es).
    + rewrite bool_decide_eq_false_2 by done.
      pose proof (tracks_request_other rl g t' k (tracks_mono _ _ _ _ Htr Hle) Hk) as Htr'.
      destruct (allowLocal t' k rl) as [ok rl'] eqn:Ea; simpl in *.
      rewrite andb_false_r. rewrite (IH _ _ _ Htr' Hr' Hs'). lia.
  - apply (IH _ _ t'); try done. apply tracks_cleanup; [by eapply tracks_mono|done].
Qed.
End refinement.

Lemma bucket_granted_bound tb T ts :
  bucket_wf tb -> clock_range (LastRefill tb) -> Forall clock_range ts ->
  Sorted Z.le (LastSeen tb :: ts) -> Forall (fun t => t <= T) ts -> LastRefill tb <= T ->
  bucket_granted tb ts <= potential T tb.
Proof.
  revert tb. induction ts as [|t ts IH]; intros tb Hwf Hl Hr Hs HT HlT; simpl.
  - unfold potential. pose proof (bwf_tokens _ Hwf). pose proof (bwf_rate _ Hwf).
    pose proof (Z.div_pos (T - LastRefill tb) (RefillRate tb)). lia.
  - inversion Hr; subst. inversion HT; subst. inversion Hs as [|? ? Hs' Hhd]; subst.
    inversion Hhd as [|? ? Hle]; subst. pose proof (bwf_seen _ Hwf).
    destruct (bucket_Allow_wf t tb) as (H1' & H2' & H3' & _ & _ & H6'); try done; [lia|].
    pose proof (bucket_Allow_potential t T tb Hwf) as Hpot.
    destruct (bucket_Allow t tb) as [ok tb'] eqn:E; simpl in *.
    specialize (IH tb' H1' H3'). rewrite H6' in IH.
    assert (bucket_granted tb' ts <= potential T tb') by (apply IH; done || lia).
    specialize (Hpot ltac:(done) ltac:(done) ltac:(lia)). lia.
Qed.

(** ** Properties *)

(** C27: With the cleanup period at least the time a bucket takes to refill,
    the limiter - any interleaving of requests of any keys with cleanup
    passes - grants each key exactly what one bucket per key that is never
    discarded would grant: dropping idle buckets is invisible. *)
Theorem limiter_refines_ideal cap rate key t0 es :
  0 < cap <= 2 ^ 61 -> 0 < rate -> cap * rate <= 10 * Minute ->
  Forall (fun e => clock_range (ev_time e)) es ->
  Sorted Z.le (t0 :: map ev_time es) ->
  key_granted key (NewRateLimiter cap rate) es =
  ideal_granted cap rate None (times_of key es).
Proof.
  intros Hc Hr Httl Hcl Hs.
  apply (limiter_tracks cap rate (10 * Minute) key Hc Hr) with (t := t0); try done.
Qed.

Lemma limiter_refines_ideal_witness :
  key_granted "ip:a" (NewRateLimiter 2 Second)
    [EvRequest 0 "ip:a"; EvRequest 1 "ip:b"; EvCleanup (20 * Minute); EvRequest (21 * Minute) "ip:a"]
  = ideal_granted 2 Second None [0; 21 * Minute].
Proof.
  apply (limiter_refines_ideal 2 Second "ip:a" 0
    [EvRequest 0 "ip:a"; EvRequest 1 "ip:b"; EvCleanup (20 * Minute);
     EvRequest (21 * Minute) "ip:a"]); try (unfold Minute, Second; lia).
  - repeat constructor; vm_compute; discriminate.
  - repeat constructor; vm_compute; discriminate.
Defined.

(** A key that is limited to [cap] tokens refilled every [rate] is
    granted at most [cap + (T - t1) / rate] requests between its first request
    [t1] and [T], whatever the arrival pattern. *)
Theorem bucket_rate_bound cap rate t1 ts T :
  0 <= cap <= 2 ^ 61 -> 0 < rate ->
  Forall clock_range (t1 :: ts) -> Sorted Z.le (t1 :: ts) -> Forall (fun t => t <= T) (t1 :: ts) ->
  bucket_granted (NewTokenBucket t1 cap rate) (t1 :: ts) <= cap + (T - t1) / rate.
Proof.
  intros Hc Hr Hcl Hs HT. inversion Hcl; subst. inversion HT; subst.
  pose proof (bucket_granted_bound (NewTokenBucket t1 cap rate) T (t1 :: ts)
                (NewTokenBucket_wf t1 cap rate Hc)) as H'.
  unfold potential in H'. simpl in H'. destruct (Z.leb_spec rate 0); [lia|].
  apply H'; try done. constructor; [done|]. constructor. lia.
Qed.

Lemma bucket_rate_bound_witness :
  bucket_granted (NewTokenBucket 0 1 Second) [0; 1; Second; Second + 1] <= 1 + (2 * Second - 0) / Second.
Proof.
  apply (bucket_rate_bound 1 Second 0 [1; Second; Second + 1] (2 * Second)); try (unfold Second; lia).
  all: repeat constructor; vm_compute; discriminate.
Defined.

(** The bucket never starves a patient client: once [RefillRate] has
    passed since the last refill, the next request is granted. *)
Theorem bucket_refill_grants now tb :
  bucket_wf tb -> clock_range now -> clock_range (LastRefill tb) ->
  0 < Capacity tb -> LastRefill tb + RefillRate tb <= now ->
  (bucket_Allow now tb).1 = true.
Proof.
  intros Hwf Hn Hl Hc Hw. pose proof Hwf as [Ht _ Hr _].
  destruct (bucket_Allow_spec now tb) as [_ ->]; try done; [lia|]. simpl.
  assert (Hadd : 1 <= (now - LastRefill tb) / RefillRate tb)
    by (apply Z.div_le_lower_bound; lia).
  destruct (Z.ltb_spec 0 ((now - LastRefill tb) / RefillRate tb)); [|lia].
  apply Z.ltb_lt. lia.
Qed.

Lemma bucket_refill_grants_witness :
  (bucket_Allow (3 * Second) (mkBucket 5 0 Second (2 * Second) (2 * Second))).1 = true.
Proof.
  apply bucket_refill_grants; [split; simpl; unfold Second; lia|..];
    vm_compute; try discriminate; try (split; discriminate); reflexivity.
Defined.

(** C31: The Redis script makes the decision of the local bucket and stores
    its next state, for timestamps that survive Lua's number printing. *)
Theorem redis_script_refines_bucket cap refill now tokens last :
  0 < cap < pow10 14 -> 0 < refill < 2 ^ 50 -> 0 <= tokens <= cap ->
  0 <= last <= now -> now < 2 ^ 51 ->
  lua_tostring now = now -> lua_tostring last = last ->
  exists ok tb',
    bucket_Allow (now * 1000) (mkBucket cap tokens (refill * 1000) (last * 1000) (last * 1000))
      = (ok, tb') /\
    exists last', LastRefill tb' = last' * 1000 /\
    redisTokenBucketScript cap refill now (Some (tokens, last))
      = ScriptAllowed ok (Tokens tb', last').
Proof.
  intros Hcap Href Htok Hlast Hnow Hln Hll.
  assert (Hp14 : pow10 14 < 2 ^ 61) by (vm_compute; reflexivity).
  destruct (bucket_Allow_spec (now * 1000)
    (mkBucket cap tokens (refill * 1000) (last * 1000) (last * 1000))) as [_ ->];
    [split; simpl; lia|unfold clock_range; simpl; lia..|].
  do 2 eexists; split; [reflexivity|]. simpl.
  replace (now * 1000 - last * 1000) with ((now - last) * 1000) by lia.
  rewrite Z.div_mul_cancel_r by lia.
  unfold redisTokenBucketScript. destruct (Z.leb_spec cap 0); [lia|].
  destruct (Z.leb_spec refill 0); [lia|]. simpl. destruct (Z.ltb_spec (now - last) 0); [lia|].
  set (add := (now - last) / refill). destruct (Z.ltb_spec 0 add) as [Ha|Ha].
  - exists now. split; [done|]. rewrite Hln.
    assert (Htk : (if cap <? tokens + add then cap else tokens + add) = Z.min cap (tokens + add))
      by (case_cmp; lia).
    rewrite Htk. case_cmp; rewrite lua_tostring_small by lia; done.
  - exists last. split; [done|]. rewrite Hll.
    case_cmp; rewrite lua_tostring_small by lia; done.
Qed.

Lemma redis_script_refines_bucket_witness :
  exists ok tb', bucket_Allow (1767225600123500 * 1000)
      (mkBucket 10 0 (1000 * 1000) (1767225600121400 * 1000) (1767225600121400 * 1000)) = (ok, tb') /\
    exists last', LastRefill tb' = last' * 1000 /\
    redisTokenBucketScript 10 1000 1767225600123500 (Some (0, 1767225600121400))
      = ScriptAllowed ok (Tokens tb', last').
Proof.
  apply (redis_script_refines_bucket 10 1000 1767225600123500 0 1767225600121400);
    try lia; try (vm_compute; reflexivity).
  split; vm_compute; reflexivity.
Defined.

(** Today's microsecond timestamps have sixteen digits and are rounded when
    they are stored, so the distributed bucket can refuse a request that the
    local bucket, driven by the same calls, grants: here two requests exactly
    one refill period apart on a bucket of one token. *)
Lemma redis_script_rounds_timestamps :
  lua_tostring 1767225600123456 = 1767225600123500 /\
  (let t0 := 1767225600123456 in
   redisTokenBucketScript 1 1000 t0 None = ScriptAllowed true (0, 1767225600123500) /\
   redisTokenBucketScript 1 1000 (t0 + 1000) (Some (0, 1767225600123500))
     = ScriptAllowed false (0, 1767225600123500) /\
   bucket_granted (NewTokenBucket (t0 * 1000) 1 (1000 * 1000)) [t0 * 1000; (t0 + 1000) * 1000] = 2).
Proof. vm_compute. repeat split. Qed.

(** The time to live the script sets is the whole number of seconds
    that just covers the refill window, and never zero. *)
Theorem redis_ttl_covers d :
  1 <= redisTTLSeconds d /\ d <= redisTTLSeconds d * Second /\
  (0 < d -> redisTTLSeconds d * Second < d + Second).
Proof.
  unfold redisTTLSeconds. assert (HS : 0 < Second) by (unfold Second; lia).
  destruct (Z.leb_spec d 0); [lia|].
  rewrite Z.quot_div_nonneg, Z.rem_mod_nonneg by lia.
  pose proof (Z.div_mod d Second ltac:(lia)). pose proof (Z.mod_pos_bound d Second HS).
  pose proof (Z.div_pos d Second ltac:(lia) HS).
  unfold Second in *. destruct (Z.eqb_spec (d mod 1000000000) 0); repeat case_cmp; lia.
Qed.

(** A client with a network address is limited by that address: no
    [X-Forwarded-For] value it sends changes the key its requests count
    against. *)
Theorem forwarded_for_cannot_evade remoteAddr xff xff' :
  extractIPFromAddr remoteAddr <> "" ->
  extractRateLimitKey remoteAddr xff = extractRateLimitKey remoteAddr xff'.
Proof. intros H. unfold extractRateLimitKey. by rewrite bool_decide_eq_false_2. Qed.

Lemma forwarded_for_cannot_evade_witness :
  extractRateLimitKey "10.0.0.7:5112" "1.2.3.4" = extractRateLimitKey "10.0.0.7:5112" "".
Proof. apply forwarded_for_cannot_evade. vm_compute. discriminate. Defined.
