(* ===== verification/QueryActivity.v ===== *)
(** * Query activity ([pkg/gateway/query_activity.go])

    The tracker of queries seen in Trino responses: it feeds the gateway's load
    balancer ([BackendLoads]) and the in-flight gauge that drives
    scale-from-zero.  The Prometheus gauge vector is part of the state, as the
    finite map from its label values to its value. *)

From S2P Require Import Prelude GoStrings QueryState.

(** ** The tracker *)

Record queryActivity := mkActivity {
  namespace : string;
  xtrinode : string;
  routingGroup : string;
  backendURL : string;
  state : string;
  lastSeen : Time
}.

Record BackendLoad := mkLoad {
  RunningQueries : Z;
  QueuedQueries : Z;
  LastUpdate : Time
}.

(** The zero value of [BackendLoad]. *)
Definition zeroLoad : BackendLoad := mkLoad 0 0 zeroTime.

(** Label values of the gauge: namespace, runtime, routing group, state. *)
Abbreviation gauge_labels := (string * string * string * string)%type.

Record QueryActivityTracker := mkTracker {
  queries : gmap string queryActivity;
  ttl : Duration;
  gauges : gmap gauge_labels Z
}.

Definition defaultQueryActivityTTL : Duration := 10 * Minute.

Definition NewQueryActivityTracker (ttl : Duration) : QueryActivityTracker :=
  mkTracker ∅ (if ttl <=? 0 then defaultQueryActivityTTL else ttl) ∅.

Definition labels_of (a : queryActivity) : gauge_labels :=
  (namespace a, xtrinode a, routingGroup a, state a).

(** [counts[key]++] over the tracked queries; the gauge is reset and set from
    the result. *)
Definition activity_counts (qs : gmap string queryActivity) : gmap gauge_labels Z :=
  map_fold (fun _ a counts =>
    <[labels_of a := default 0 (counts !! labels_of a) + 1]> counts) ∅ qs.

Definition recomputeGaugesLocked (t : QueryActivityTracker) : QueryActivityTracker :=
  mkTracker (queries t) (ttl t) (activity_counts (queries t)).

Definition set_queries qs t := mkTracker qs (ttl t) (gauges t).

Definition Observe (now : Time) (queryID ns xt rg url st : string)
    (t : QueryActivityTracker) : QueryActivityTracker :=
  if (queryID ≡? "") || (ns ≡? "") || (xt ≡? "") then t else
  let st := Normalize st in
  if IsTerminal st then recomputeGaugesLocked (set_queries (delete queryID (queries t)) t)
  else recomputeGaugesLocked
         (set_queries (<[queryID := mkActivity ns xt rg url st now]> (queries t)) t).

Definition expired (now : Time) (ttl : Duration) (a : queryActivity) : bool :=
  ttl <? time_sub now (lastSeen a).

(** Body of the loop of [BackendLoads]: the map being pruned, the loads, and
    the [changed] flag. *)
Definition loads_body (now : Time) (ttl : Duration) (queryID : string) (a : queryActivity)
    (acc : gmap string queryActivity * gmap string BackendLoad * bool) :
    gmap string queryActivity * gmap string BackendLoad * bool :=
  let '(qs, loads, changed) := acc in
  if expired now ttl a then (delete queryID qs, loads, true) else
  if backendURL a ≡? "" then (qs, loads, changed) else
  let load := default zeroLoad (loads !! backendURL a) in
  let load := if state a ≡? "QUEUED"
              then mkLoad (RunningQueries load) (QueuedQueries load + 1) now
              else mkLoad (RunningQueries load + 1) (QueuedQueries load) now in
  (qs, <[backendURL a := load]> loads, changed).

Definition BackendLoads (now : Time) (t : QueryActivityTracker) :
    gmap string BackendLoad * QueryActivityTracker :=
  let '(qs, loads, changed) :=
    map_fold (loads_body now (ttl t)) (queries t, ∅, false) (queries t) in
  let t := set_queries qs t in
  (loads, if changed : bool then recomputeGaugesLocked t else t).

Definition CleanupExpired (now : Time) (t : QueryActivityTracker) : QueryActivityTracker :=
  let '(qs, changed) :=
    map_fold (fun queryID a (acc : gmap string queryActivity * bool) =>
      if expired now (ttl t) a then (delete queryID acc.1, true) else acc)
      (queries t, false) (queries t) in
  let t := set_queries qs t in
  if changed : bool then recomputeGaugesLocked t else t.

(** ** What the loops compute *)

(** Queries a predicate selects, counted. *)
Definition count_queries (p : queryActivity -> bool) (qs : gmap string queryActivity) : Z :=
  map_fold (fun _ a n => n + if p a then 1 else 0) 0 qs.

Lemma count_queries_empty p : count_queries p ∅ = 0.
Proof. apply map_fold_empty. Qed.

Lemma count_queries_insert p qs i a :
  qs !! i = None ->
  count_queries p (<[i := a]> qs) = count_queries p qs + if p a then 1 else 0.
Proof.
  intros Hi. unfold count_queries. rewrite map_fold_insert_L; [done| |done].
  intros; lia.
Qed.

Lemma count_queries_nonneg p qs : 0 <= count_queries p qs.
Proof.
  induction qs as [|i a qs Hi IH] using map_ind; [by rewrite count_queries_empty|].
  rewrite count_queries_insert by done. destruct (p a); lia.
Qed.

(** The queries a pruning pass keeps. *)
Definition live (now : Time) (ttl : Duration) (qs : gmap string queryActivity) :
    gmap string queryActivity :=
  filter (fun ka => expired now ttl ka.2 = false) qs.

Definition at_backend (now : Time) (ttl : Duration) (url : string) (queued : bool)
    (a : queryActivity) : bool :=
  negb (expired now ttl a) && (backendURL a ≡? url) &&
  Bool.eqb (state a ≡? "QUEUED") queued.

Lemma activity_counts_lookup qs l :
  activity_counts qs !! l =
    let n := count_queries (fun a => bool_decide (labels_of a = l)) qs in
    if n =? 0 then None else Some n.
Proof.
  unfold activity_counts.
  apply (map_fold_weak_ind (fun r m => r !! l =
    let n := count_queries (fun a => bool_decide (labels_of a = l)) m in
    if n =? 0 then None else Some n)); [done|].
  intros i a m r Hi IH. cbv zeta in *. rewrite count_queries_insert by done.
  pose proof (count_queries_nonneg (fun a => bool_decide (labels_of a = l)) m).
  destruct (decide (labels_of a = l)) as [<-|Hne].
  - rewrite lookup_insert_eq, IH, bool_decide_eq_true_2 by done.
    repeat case_cmp; simpl; try lia; f_equal; lia.
  - rewrite lookup_insert_ne, IH, bool_decide_eq_false_2 by done. by rewrite Z.add_0_r.
Qed.

Definition load_spec (now : Time) (ttl : Duration) (url : string)
    (qs : gmap string queryActivity) : option BackendLoad :=
  let r := count_queries (at_backend now ttl url false) qs in
  let q := count_queries (at_backend now ttl url true) qs in
  if (url ≡? "") || (r + q =? 0) then None else Some (mkLoad r q now).

Lemma load_spec_insert_skip now ttl url qs i a :
  qs !! i = None -> (expired now ttl a = true \/ backendURL a <> url) ->
  load_spec now ttl url (<[i := a]> qs) = load_spec now ttl url qs.
Proof.
  intros Hi Ha. unfold load_spec. rewrite !count_queries_insert by done.
  assert (H : forall b, at_backend now ttl url b a = false).
  { intros b. unfold at_backend. destruct Ha as [->|Ha]; [done|].
    rewrite bool_decide_eq_false_2 by done. by rewrite andb_false_r. }
  rewrite !H. by rewrite !Z.add_0_r.
Qed.

Lemma load_spec_insert_hit now ttl qs i a :
  qs !! i = None -> expired now ttl a = false -> backendURL a <> "" ->
  let load := default zeroLoad (load_spec now ttl (backendURL a) qs) in
  load_spec now ttl (backendURL a) (<[i := a]> qs) =
    Some (if state a ≡? "QUEUED"
          then mkLoad (RunningQueries load) (QueuedQueries load + 1) now
          else mkLoad (RunningQueries load + 1) (QueuedQueries load) now).
Proof.
  intros Hi He Hu. cbv zeta. unfold load_spec. rewrite !count_queries_insert by done.
  pose proof (count_queries_nonneg (at_backend now ttl (backendURL a) false) qs).
  pose proof (count_queries_nonneg (at_backend now ttl (backendURL a) true) qs).
  assert (H' : forall b, at_backend now ttl (backendURL a) b a = Bool.eqb (state a ≡? "QUEUED") b).
  { intros b. unfold at_backend. rewrite He, bool_decide_eq_true_2 by done. done. }
  rewrite !H'. rewrite (bool_decide_eq_false_2 (backendURL a = "")) by done. simpl.
  case_bool_decide; simpl; repeat case_cmp; simpl; try lia; f_equal; f_equal; lia.
Qed.

Lemma loads_loop now ttl qs0 m :
  let '(qs, loads, changed) := map_fold (loads_body now ttl) (qs0, ∅, false) m in
  (forall i, qs !! i = match m !! i with
                       | Some a => if expired now ttl a then None else qs0 !! i
                       | None => qs0 !! i end) /\
  (forall url, loads !! url = load_spec now ttl url m) /\
  (changed = false -> qs = qs0).
Proof.
  apply (map_fold_weak_ind (fun r m => let '(qs, loads, changed) := r in
    (forall i, qs !! i = match m !! i with
                       | Some a => if expired now ttl a then None else qs0 !! i
                       | None => qs0 !! i end) /\
    (forall url, loads !! url = load_spec now ttl url m) /\
    (changed = false -> qs = qs0))).
  - split_and!; [done| |done]. intros url. unfold load_spec.
    rewrite !count_queries_empty. by rewrite orb_true_r.
  - intros i a m' [[qs loads] changed] Hi (IHq & IHl & IHc). unfold loads_body.
    destruct (expired now ttl a) eqn:He; [|destruct (decide (backendURL a = "")) as [Hu|Hu]].
    + split_and!; [| |done].
      * intros j. destruct (decide (i = j)) as [<-|Hj].
        -- by rewrite lookup_delete_eq, lookup_insert_eq, He.
        -- by rewrite lookup_delete_ne, lookup_insert_ne.
      * intros url. rewrite load_spec_insert_skip by auto. apply IHl.
    + rewrite bool_decide_eq_true_2 by done. split_and!; [| |done].
      * intros j. destruct (decide (i = j)) as [<-|Hj].
        -- by rewrite lookup_insert_eq, He, IHq, Hi.
        -- by rewrite lookup_insert_ne.
      * intros url. rewrite IHl. destruct (decide (url = "")) as [->|Hne].
        -- unfold load_spec. by rewrite bool_decide_eq_true_2.
        -- rewrite load_spec_insert_skip; [done..|]. right. congruence.
    + rewrite bool_decide_eq_false_2 by done. split_and!; [| |done].
      * intros j. destruct (decide (i = j)) as [<-|Hj].
        -- by rewrite lookup_insert_eq, He, IHq, Hi.
        -- by rewrite lookup_insert_ne.
      * intros url. destruct (decide (backendURL a = url)) as [<-|Hne].
        -- rewrite lookup_insert_eq, load_spec_insert_hit by done. by rewrite IHl.
        -- rewrite lookup_insert_ne, load_spec_insert_skip by auto. apply IHl.
Qed.

Lemma live_lookup now ttl qs i :
  live now ttl qs !! i =
    match qs !! i with Some a => if expired now ttl a then None else Some a | None => None end.
Proof.
  unfold live. rewrite map_lookup_filter. destruct (qs !! i) as [a|]; simpl; [|done].
  destruct (expired now ttl a) eqn:E.
  - by rewrite option_guard_False by (simpl; congruence).
  - by rewrite option_guard_True.
Qed.

Lemma BackendLoads_queries now t :
  queries (BackendLoads now t).2 = live now (ttl t) (queries t) /\ ttl (BackendLoads now t).2 = ttl t.
Proof.
  unfold BackendLoads. pose proof (loads_loop now (ttl t) (queries t) (queries t)) as H.
  destruct (map_fold _ _ _) as [[qs loads] changed]. destruct H as (Hq & _ & Hc).
  assert (qs = live now (ttl t) (queries t)) as ->.
  { apply map_eq. intros i. rewrite Hq, live_lookup. by destruct (queries t !! i). }
  by destruct changed.
Qed.

Lemma CleanupExpired_loop now d qs0 m :
  let '(qs, changed) := map_fold (fun queryID a (acc : gmap string queryActivity * bool) =>
      if expired now d a then (delete queryID acc.1, true) else acc) (qs0, false) m in
  (forall i, qs !! i = match m !! i with
                       | Some a => if expired now d a then None else qs0 !! i
                       | None => qs0 !! i end) /\ (changed = false -> qs = qs0).
Proof.
  apply (map_fold_weak_ind (fun r m => let '(qs, changed) := r in
    (forall i, qs !! i = match m !! i with
                       | Some a => if expired now d a then None else qs0 !! i
                       | None => qs0 !! i end) /\ (changed = false -> qs = qs0))); [done|].
  intros i a m' [qs changed] Hi [IHq IHc]. destruct (expired now d a) eqn:He; simpl.
  - split; [|done]. intros j. destruct (decide (i = j)) as [<-|Hj].
    + by rewrite lookup_delete_eq, lookup_insert_eq, He.
    + by rewrite lookup_delete_ne, lookup_insert_ne.
  - split; [|done]. intros j. destruct (decide (i = j)) as [<-|Hj].
    + by rewrite lookup_insert_eq, He, IHq, Hi.
    + by rewrite lookup_insert_ne.
Qed.

(** The gauge shows the tracked queries. *)
Definition gauges_exact (t : QueryActivityTracker) : Prop :=
  gauges t = activity_counts (queries t).

(** ** Executions *)

Inductive tracker_event :=
| EvObserve (now : Time) (queryID ns xt rg url st : string)
| EvLoads (now : Time)
| EvExpire (now : Time).

Definition tracker_step (t : QueryActivityTracker) (e : tracker_event) : QueryActivityTracker :=
  match e with
  | EvObserve now q ns xt rg url st => Observe now q ns xt rg url st t
  | EvLoads now => (BackendLoads now t).2
  | EvExpire now => CleanupExpired now t
  end.

Lemma tracker_step_gauges t e : gauges_exact t -> gauges_exact (tracker_step t e).
Proof.
  unfold gauges_exact. intros H. destruct e; simpl.
  - unfold Observe. repeat case_match; done.
  - unfold BackendLoads. pose proof (loads_loop now (ttl t) (queries t) (queries t)) as Hl.
    destruct (map_fold _ _ _) as [[qs loads] changed]. destruct Hl as (_ & _ & Hc).
    destruct changed; simpl; [done|]. by rewrite (Hc eq_refl).
  - unfold CleanupExpired. pose proof (CleanupExpired_loop now (ttl t) (queries t) (queries t)) as Hl.
    destruct (map_fold _ _ _) as [qs changed]. destruct Hl as (_ & Hc).
    destruct changed; simpl; [done|]. by rewrite (Hc eq_refl).
Qed.

(** ** Properties *)

(** [BackendLoads] returns, for every backend with at least one
    unexpired query, the exact numbers of its running and queued queries, has
    no entry for any other backend, and leaves the tracker with exactly the
    unexpired queries. *)
Theorem backend_loads_exact now t url :
  (BackendLoads now t).1 !! url = load_spec now (ttl t) url (queries t) /\
  queries (BackendLoads now t).2 = live now (ttl t) (queries t).
Proof.
  split; [|apply BackendLoads_queries].
  unfold BackendLoads. pose proof (loads_loop now (ttl t) (queries t) (queries t)) as H.
  destruct (map_fold _ _ _) as [[qs loads] changed]. by destruct H as (_ & Hl & _).
Qed.

(** After any sequence of observations, load reads and cleanups the
    in-flight gauge has exactly one entry per label combination with tracked
    queries, and its value is their number. *)
Theorem gauge_counts_queries d es l :
  let t := fold_left tracker_step es (NewQueryActivityTracker d) in
  gauges t !! l =
    let n := count_queries (fun a => bool_decide (labels_of a = l)) (queries t) in
    if n =? 0 then None else Some n.
Proof.
  cbv zeta. assert (H : gauges_exact (fold_left tracker_step es (NewQueryActivityTracker d))).
  { assert (H0 : gauges_exact (NewQueryActivityTracker d)) by done.
    revert H0. generalize (NewQueryActivityTracker d).
    induction es as [|e es IH]; intros t Ht; simpl; [done|]. apply IH. by apply tracker_step_gauges. }
  unfold gauges_exact in H. rewrite H. apply activity_counts_lookup.
Qed.

Lemma Normalize_idemp s : Normalize (Normalize s) = Normalize s.
Proof.
  unfold Normalize at 2 3. case_bool_decide as H; [done|].
  unfold Normalize. unfold TrimSpace, ToUpper.
  rewrite TrimFunc_map_bytes by by_bytes. rewrite TrimFunc_idemp.
  fold ToUpper. rewrite ToUpper_idemp. by rewrite bool_decide_eq_false_2.
Qed.

(** A query id is tracked after an observation exactly when its state is
    not terminal: a finished, failed or cancelled query - in any spelling of
    case and surrounding space - stops counting at once, any other state
    (re)starts its expiry clock. *)
Theorem observe_tracks_active now q ns xt rg url st t :
  q <> "" -> ns <> "" -> xt <> "" ->
  queries (Observe now q ns xt rg url st t) !! q =
    (if IsActive st then Some (mkActivity ns xt rg url (Normalize st) now) else None) /\
  (forall q', q' <> q -> queries (Observe now q ns xt rg url st t) !! q' = queries t !! q').
Proof.
  intros Hq Hns Hxt. unfold Observe. rewrite !bool_decide_eq_false_2 by done. simpl.
  unfold IsActive. assert (IsTerminal (Normalize st) = IsTerminal st) as ->.
  { unfold IsTerminal. by rewrite Normalize_idemp. }
  destruct (IsTerminal st); simpl; split; intros.
  - by rewrite lookup_delete_eq.
  - by rewrite lookup_delete_ne.
  - by rewrite lookup_insert_eq.
  - by rewrite lookup_insert_ne.
Qed.

Lemma observe_tracks_active_witness :
  queries (Observe 5 "q1" "team" "rt" "rg" "http://b" " finished "
             (Observe 1 "q1" "team" "rt" "rg" "http://b" "RUNNING" (NewQueryActivityTracker 0)))
    !! "q1" = None.
Proof.
  destruct (observe_tracks_active 5 "q1" "team" "rt" "rg" "http://b" " finished "
    (Observe 1 "q1" "team" "rt" "rg" "http://b" "RUNNING" (NewQueryActivityTracker 0)))
    as [H _]; [discriminate..|]. exact H.
Defined.
