(* ===== verification/ConnErrors.v ===== *)
(** * Transport error classification ([pkg/gateway/connection_errors.go])

    A Go error is modelled by what [errors.As] and [Error()] can see of it:
    the chain of wrapped errors with the dynamic types the code asks for. *)

From S2P Require Import Prelude GoStrings.

Inductive go_error :=
| ErrUrl (msg : string) (inner : go_error)        (* [*url.Error], [Err] is [inner] *)
| ErrDNS (msg : string)                           (* [*net.DNSError] *)
| ErrOp (msg : string) (op : string) (timeout : bool) (inner : option go_error)
                                                  (* [*net.OpError] *)
| ErrWrap (msg : string) (inner : go_error)       (* [fmt.Errorf("...%w")] *)
| ErrMsg (msg : string).                          (* any other error *)

(** [err.Error()]. *)
Definition Error (e : go_error) : string :=
  match e with
  | ErrUrl m _ | ErrDNS m | ErrOp m _ _ _ | ErrWrap m _ | ErrMsg m => m
  end.

(** [errors.As(err, &dnsErr)]. *)
Fixpoint as_dns (e : go_error) : bool :=
  match e with
  | ErrDNS _ => true
  | ErrUrl _ i | ErrWrap _ i | ErrOp _ _ _ (Some i) => as_dns i
  | _ => false
  end.

(** [errors.As(err, &opErr)]: [Op], [Timeout()] and [Err]. *)
Fixpoint as_op (e : go_error) : option (string * bool * option go_error) :=
  match e with
  | ErrOp _ op t i => Some (op, t, i)
  | ErrUrl _ i | ErrWrap _ i => as_op i
  | _ => None
  end.

(** [isConnectionError] after the [url.Error] test. *)
Definition isConnectionError_rest (e : go_error) : bool :=
  if as_dns e then true else
  match as_op e with
  | Some (op, timeout, inner) =>
      if timeout then op ≡? "dial" else
      match inner with
      | Some i =>
          let errStr := Error i in
          Contains errStr "connection refused" ||
          (Contains errStr "connection reset" && (op ≡? "dial"))
      | None => false
      end
  | None =>
      let errStr := ToLower (Error e) in
      Contains errStr "no such host" || Contains errStr "connection refused" ||
      (Contains errStr "dial tcp" && Contains errStr "i/o timeout")
  end.

(** [errors.As(err, &urlErr)] followed by the recursive call on [urlErr.Err]:
    [None] when the chain has no [url.Error]. *)
Fixpoint isConnectionError_url (e : go_error) : option bool :=
  match e with
  | ErrUrl _ i =>
      Some (match isConnectionError_url i with
            | Some b => b
            | None => isConnectionError_rest i
            end)
  | ErrWrap _ i | ErrOp _ _ _ (Some i) => isConnectionError_url i
  | _ => None
  end.

Definition isConnectionError (err : option go_error) : bool :=
  match err with
  | None => false
  | Some e =>
      match isConnectionError_url e with
      | Some b => b
      | None => isConnectionError_rest e
      end
  end.

Inductive ErrorType := ErrorTypePaused | ErrorTypeOverload | ErrorTypeOther.

#[export] Instance ErrorType_eq_dec : EqDecision ErrorType.
Proof. solve_decision. Defined.

Definition classifyError (err : option go_error) (statusCode : Z) : ErrorType :=
  if isConnectionError err then ErrorTypePaused else
  if negb (statusCode =? 503) then ErrorTypeOther else
  match err with
  | None => ErrorTypeOverload
  | Some e =>
      let errMsg := ToLower (Error e) in
      if Contains errMsg "too many queries" || Contains errMsg "server overloaded" ||
         Contains errMsg "queue full" then ErrorTypeOverload else
      if Contains errMsg "connection refused" then ErrorTypePaused else
      ErrorTypeOverload
  end.

(** Wrapping an error that contains a [url.Error] - what [http.Client] returns -
    in further context never changes the verdict. *)
Lemma isConnectionError_wrap m e b :
  isConnectionError_url e = Some b ->
  isConnectionError (Some (ErrWrap m e)) = isConnectionError (Some e).
Proof. simpl. by intros ->. Qed.

(** Proxy errors carry no status: they are paused or other, never overload. *)
Lemma classifyError_proxy e :
  classifyError (Some e) 0 =
    if isConnectionError (Some e) then ErrorTypePaused else ErrorTypeOther.
Proof. unfold classifyError. by destruct (isConnectionError (Some e)). Qed.
