(* ===== verification/HttpRetry.v ===== *)
(** * The retrying HTTP transport ([internal/httpclient/retry_transport.go])

    One round trip over an underlying transport: what each attempt is answered,
    how long each wait is and whether the caller gives up during it are given by
    the surroundings. *)

From S2P Require Import Prelude GoStrings GoTime GoParse.

(** ** Configuration and classification *)

Record RetryConfig := mkRetryConfig {
  MaxRetries : Z;
  BaseDelay : Duration;
  MaxDelay : Duration;
  rc_Timeout : Duration
}.

Definition DefaultRetryConfig : RetryConfig := mkRetryConfig 3 (100 * Millisecond) (2 * Second) (5 * Second).

Definition isIdempotent (method : string) : bool :=
  existsb (fun m => m ≡? method) ["GET"; "HEAD"; "OPTIONS"; "PUT"; "DELETE"].

Definition isRetryableStatusCode (statusCode : Z) : bool :=
  existsb (Z.eqb statusCode) [408; 429; 500; 502; 503; 504].

(** What the code asks of an error: the error a [url.Error] in its chain wraps,
    [Timeout()] of a [net.Error] in its chain, its text. *)
Class NetErrors (E : Type) := {
  as_url_error : E -> option E;
  as_net_timeout : E -> option bool;
  net_error_text : E -> string;
  exhausted_retries : Z -> option E -> E;
  unreadable_body : E -> E
}.

Section transport.
Context {E : Type} `{NetErrors E}.

Definition isRetryableError (err : E) : bool :=
  let err := default err (as_url_error err) in
  match as_net_timeout err with
  | Some true => true
  | _ =>
      existsb (Contains (net_error_text err))
        ["connection refused"; "connection reset"; "broken pipe"; "no such host"; "timeout"; "temporary failure";
         "TLS handshake timeout"; "i/o timeout"; "EOF"]
  end.

(** ** Delays *)

(** Conversion of a float to [time.Duration], out of range on amd64 too. *)
Definition duration_of_float (x : float64) : Duration :=
  let n := float64_trunc x in if in_range int64_min int64_max n then n else int64_min.

(** Sign and magnitude of [x - 1], for [x] below 2. *)
Definition float_minus_one (x : float64) : Z * float64 :=
  let '(m, e) := x in
  let d := m - 2 ^ (- e) in
  let '(m', e') := round53 (Z.abs d) 1 in (Z.sgn d, (m', e' + e)).

(** [nano] is the clock reading. *)
Definition jitter (delay : Duration) (nano : Z) : Duration :=
  let '(s, t) := float_minus_one (float_div (float_of_Z (2 * (nano mod 100))) (float_of_Z 100)) in
  Z.sgn delay * s * float64_trunc (float_mul (float_mul (float_of_Z (Z.abs delay)) (1, -2)) t).

Definition calculateDelay (attempt : nat) (baseDelay maxDelay : Duration) (nano : Z) : Duration :=
  let delay := duration_of_float (float_mul (float_of_Z baseDelay) (float_of_Z (2 ^ Z.of_nat attempt))) in
  let delay := if maxDelay <? delay then maxDelay else delay in
  let delay := int_add delay (jitter delay nano) in
  if delay <? 0 then baseDelay else delay.

(** ** A round trip *)

(** What happens: an attempt with a body, its response body is closed, its
    context is cancelled, a wait. *)
Inductive trip_event := Attempt (i : nat) (body : option string) | CloseBody (i : nat) | Cancel (i : nat) | Sleep (d : Duration).

(** The response of attempt [i], whose context is cancelled when its body is
    closed if [owned]; or an error. *)
Inductive trip_outcome := Respond (i : nat) (owned : bool) | Fail (e : E).

(** [answer i]: error or status of attempt [i]; [nano i] and [done_ctx i]: the
    clock before the wait after attempt [i], and the error of the context if it
    ends during that wait. *)
Context (answer : nat -> result E Z) (nano : nat -> Z) (done_ctx : nat -> option E).

Fixpoint attempts (cfg : RetryConfig) (body : option string) (n i : nat) (lastErr : option E) : list trip_event * trip_outcome :=
  match n with
  | O => ([], Fail (exhausted_retries (MaxRetries cfg + 1) lastErr))
  | S n =>
      let wait_and (evs : list trip_event) (lastErr : option E) :=
        if Z.of_nat i <? MaxRetries cfg then
          let delay := calculateDelay i (BaseDelay cfg) (MaxDelay cfg) (nano i) in
          match done_ctx i with
          | Some e => (evs ++ [Sleep delay], Fail e)
          | None => let '(rest, o) := attempts cfg body n (S i) lastErr in (evs ++ Sleep delay :: rest, o)
          end
        else let '(rest, o) := attempts cfg body n (S i) lastErr in (evs ++ rest, o) in
      match answer i with
      | Err e =>
          if negb (isRetryableError e) then ([Attempt i body; Cancel i], Fail e)
          else wait_and [Attempt i body; Cancel i] (Some e)
      | Ok status =>
          if negb (isRetryableStatusCode status) then ([Attempt i body], Respond i true) else
          if Z.of_nat i <? MaxRetries cfg then wait_and [Attempt i body; CloseBody i; Cancel i] lastErr
          else ([Attempt i body], Respond i true)
      end
  end.

(** [body] is [None] for a request without one, else what reading it gives. *)
Definition RoundTrip (cfg : RetryConfig) (method : string) (body : option (result E string)) : list trip_event * trip_outcome :=
  if negb (isIdempotent method) then
    ([Attempt 0 (body ≫= fun b => match b with Ok s => Some s | Err _ => None end)],
     match answer 0 with Ok _ => Respond 0 false | Err e => Fail e end)
  else
    match body with
    | Some (Err e) => ([], Fail (unreadable_body e))
    | Some (Ok s) => attempts cfg (Some s) (Z.to_nat (MaxRetries cfg + 1)) 0 None
    | None => attempts cfg None (Z.to_nat (MaxRetries cfg + 1)) 0 None
    end.

(** ** What a round trip guarantees *)

Definition attempts_of (evs : list trip_event) : list (nat * option string) :=
  omap (fun ev => match ev with Attempt i b => Some (i, b) | _ => None end) evs.

Lemma attempts_of_app a b : attempts_of (a ++ b) = attempts_of a ++ attempts_of b.
Proof. apply omap_app. Qed.

(** Nothing is left open: the context of every attempt has been cancelled or
    belongs to the response that is returned, and every other response has been
    closed. *)
Definition tidy (evs : list trip_event) (o : trip_outcome) : Prop :=
  forall i b, Attempt i b ∈ evs ->
  (Cancel i ∈ evs /\ (forall status, answer i = Ok status -> CloseBody i ∈ evs)) \/ o = Respond i true.

(** The answer of attempt [i] calls for another one. *)
Definition retryable (i : nat) : bool :=
  match answer i with Ok status => isRetryableStatusCode status | Err e => isRetryableError e end.

(** The attempts [i .. j], which stop at the first answer that is final. *)
Record proper_trip (cfg : RetryConfig) (body : option string) (i : nat) (evs : list trip_event) (o : trip_outcome) : Prop := {
  pt_attempts : exists k, attempts_of evs = (fun j => (j, body)) <$> seq i (S k) /\
    Z.of_nat (i + k) <= MaxRetries cfg /\
    (forall j, (i <= j < i + k)%nat -> retryable j = true) /\
    match o with
    | Respond j owned => j = (i + k)%nat /\ owned = true /\ exists status, answer j = Ok status
    | Fail e => (retryable (i + k) = false /\ answer (i + k)%nat = Err e) \/
                (done_ctx (i + k) = Some e /\ retryable (i + k) = true) \/
                (Z.of_nat (i + k) = MaxRetries cfg /\ retryable (i + k) = true /\
                 exists e', answer (i + k)%nat = Err e' /\ e = exhausted_retries (MaxRetries cfg + 1) (Some e'))
    end;
  pt_tidy : tidy evs o
}.

(** The events [pre] of attempt [i] alone, which leave nothing open. *)
Definition settled (body : option string) (i : nat) (pre : list trip_event) : Prop :=
  attempts_of pre = [(i, body)] /\ (forall j b, Attempt j b ∈ pre -> j = i) /\ Cancel i ∈ pre /\
  (forall status, answer i = Ok status -> CloseBody i ∈ pre).

Lemma settled_tidy body i pre o : settled body i pre -> tidy pre o.
Proof. intros (_ & Hj & Hc & Hb) j b Hin. apply Hj in Hin as ->. by left. Qed.

Lemma settled_error body i e d : answer i = Err e -> d = [] \/ (exists t, d = [Sleep t]) ->
  settled body i ([Attempt i body; Cancel i] ++ d).
Proof.
  intros Ha Hd. repeat split; [by destruct Hd as [->|[t ->]]| |set_solver|congruence].
  intros j b. destruct Hd as [->|[t ->]]; simpl; rewrite !elem_of_cons, elem_of_nil; naive_solver.
Qed.

Lemma settled_status body i d : d = [] \/ (exists t, d = [Sleep t]) ->
  settled body i ([Attempt i body; CloseBody i; Cancel i] ++ d).
Proof.
  intros Hd. repeat split; [by destruct Hd as [->|[t ->]]| |set_solver|intros; set_solver].
  intros j b. destruct Hd as [->|[t ->]]; simpl; rewrite !elem_of_cons, elem_of_nil; naive_solver.
Qed.

(** The trip ends with attempt [i]. *)
Lemma last_proper cfg body i pre e : settled body i pre -> Z.of_nat i <= MaxRetries cfg ->
  (retryable i = false /\ answer i = Err e) \/ (done_ctx i = Some e /\ retryable i = true) \/
  (Z.of_nat i = MaxRetries cfg /\ retryable i = true /\
   exists e', answer i = Err e' /\ e = exhausted_retries (MaxRetries cfg + 1) (Some e')) ->
  proper_trip cfg body i pre (Fail e).
Proof.
  intros Hs Hi He. split; [|by eapply settled_tidy]. exists O. rewrite Nat.add_0_r. split; [apply Hs|]. split; [done|].
  split; [lia|done].
Qed.

Lemma response_proper cfg body i status : answer i = Ok status -> Z.of_nat i <= MaxRetries cfg ->
  proper_trip cfg body i [Attempt i body] (Respond i true).
Proof.
  intros Ha Hi. split.
  - exists O. rewrite Nat.add_0_r. split; [done|]. split; [done|]. split; [lia|eauto].
  - intros j b [Hj|[]%not_elem_of_nil]%elem_of_cons. right. congruence.
Qed.

(** It goes on after attempt [i]. *)
Lemma next_proper cfg body i pre evs o : settled body i pre -> retryable i = true ->
  proper_trip cfg body (S i) evs o -> proper_trip cfg body i (pre ++ evs) o.
Proof.
  intros Hs Hr [(k & Hk & Hm & Hb & Ho) Ht]. split.
  - exists (S k). replace (i + S k)%nat with (S i + k)%nat by lia. split; [|split; [done|split; [|done]]].
    + rewrite attempts_of_app, Hk. by rewrite (proj1 Hs).
    + intros j Hj. destruct (decide (j = i)) as [->|]; [done|]. apply Hb. lia.
  - intros j b [Hin|Hin]%elem_of_app.
    + destruct (settled_tidy _ _ _ o Hs j b Hin) as [[Hc Hcl]|?]; [left|by right]. set_solver.
    + destruct (Ht j b Hin) as [[Hc Hcl]|?]; [left|by right]. set_solver.
Qed.

Lemma retryable_error i e : answer i = Err e -> retryable i = isRetryableError e.
Proof. unfold retryable. by intros ->. Qed.

Lemma retryable_status i status : answer i = Ok status -> retryable i = isRetryableStatusCode status.
Proof. unfold retryable. by intros ->. Qed.

Lemma attempts_proper cfg body n i lastErr :
  MaxRetries cfg = Z.of_nat (i + n) ->
  proper_trip cfg body i (attempts cfg body (S n) i lastErr).1 (attempts cfg body (S n) i lastErr).2.
Proof.
  revert i lastErr. induction n as [|n IH]; intros i lastErr Hn.
  - assert ((Z.of_nat i <? MaxRetries cfg) = false) as Hlt by (apply Z.ltb_ge; lia).
    cbn [attempts]. rewrite Hlt. destruct (answer i) as [status|e] eqn:Ha.
    + destruct (isRetryableStatusCode status); simpl; by eapply response_proper; [|lia].
    + pose proof (retryable_error i e Ha) as Hr. destruct (isRetryableError e); simpl;
        (apply last_proper; [by apply (settled_error _ _ e []); [|left]|lia|]); [right; right|left; done].
      split; [lia|]. split; [done|]. by exists e.
  - assert ((Z.of_nat i <? MaxRetries cfg) = true) as Hlt by (apply Z.ltb_lt; lia).
    assert (forall lastErr, proper_trip cfg body (S i) (attempts cfg body (S n) (S i) lastErr).1
      (attempts cfg body (S n) (S i) lastErr).2) as Hrest by (intros; apply IH; lia). clear IH.
    remember (S n) as m eqn:Hm. cbn [attempts]. rewrite Hlt. destruct (answer i) as [status|e] eqn:Ha.
    + pose proof (retryable_status i status Ha) as Hr. destruct (isRetryableStatusCode status); simpl;
        [|by eapply response_proper; [|lia]].
      destruct (done_ctx i) as [ce|] eqn:Hd; [apply last_proper; [apply (settled_status _ _ [Sleep _]); eauto|lia|auto]|].
      specialize (Hrest lastErr). destruct (attempts _ _ _ _ _) as [rest o].
      apply (next_proper _ _ _ [_; _; _; _]); [apply (settled_status _ _ [Sleep _]); eauto|done|done].
    + pose proof (retryable_error i e Ha) as Hr. destruct (isRetryableError e); simpl;
        [|apply last_proper; [by apply (settled_error _ _ e []); [|left]|lia|auto]].
      destruct (done_ctx i) as [ce|] eqn:Hd; [apply last_proper; [apply (settled_error _ _ e [Sleep _]); eauto|lia|auto]|].
      specialize (Hrest (Some e)). destruct (attempts _ _ _ _ _) as [rest o].
      apply (next_proper _ _ _ [_; _; _]); [apply (settled_error _ _ e [Sleep _]); eauto|done|done].
Qed.

(** C32: A round trip of an idempotent request makes at most [MaxRetries + 1] attempts,
    each with the whole body, and goes on after retryable answers only.  It
    returns the response of its last attempt, or the error that ended it, and
    leaves no response open and no context uncancelled but that of the response
    it returns.  Any other request is passed on once. *)
Theorem round_trip_proper cfg method (body : option (result E string)) :
  0 <= MaxRetries cfg -> (forall e, body <> Some (Err e)) ->
  let text := body ≫= fun b => match b with Ok s => Some s | Err _ => None end in
  let '(evs, o) := RoundTrip cfg method body in
  if isIdempotent method then proper_trip cfg text 0 evs o
  else evs = [Attempt 0 text] /\ o = match answer 0 with Ok _ => Respond 0 false | Err e => Fail e end.
Proof.
  intros Hm Hb. cbv zeta. unfold RoundTrip. destruct (isIdempotent method); cbn [negb]; [|done].
  replace (Z.to_nat (MaxRetries cfg + 1)) with (S (Z.to_nat (MaxRetries cfg))) by lia.
  assert (forall text, let '(evs, o) := attempts cfg text (S (Z.to_nat (MaxRetries cfg))) 0 None in proper_trip cfg text 0 evs o) as Hp.
  { intros text. pose proof (attempts_proper cfg text (Z.to_nat (MaxRetries cfg)) 0 None ltac:(lia)) as Hp.
    by destruct (attempts cfg text _ 0 None). }
  destruct body as [[s|e]|]; [apply Hp|by destruct (Hb e)|apply Hp].
Qed.
End transport.

(** With the default configuration a wait is the doubled base delay, give or take
    a quarter. *)
Lemma default_delays attempt nano : (attempt < 3)%nat ->
  let d := 100 * Millisecond * 2 ^ Z.of_nat attempt in
  3 * d <= 4 * calculateDelay attempt (BaseDelay DefaultRetryConfig) (MaxDelay DefaultRetryConfig) nano <= 5 * d.
Proof.
  intros Ha d. set (n := nano mod 100).
  assert (calculateDelay attempt (BaseDelay DefaultRetryConfig) (MaxDelay DefaultRetryConfig) nano =
          calculateDelay attempt (BaseDelay DefaultRetryConfig) (MaxDelay DefaultRetryConfig) n) as ->.
  { unfold calculateDelay, jitter, n. by rewrite Zmod_mod. }
  assert (0 <= n < 100) as Hn by (apply Z.mod_pos_bound; lia).
  assert (forallb (fun k => forallb (fun m =>
    let d := 100 * Millisecond * 2 ^ Z.of_nat k in
    let c := calculateDelay k (BaseDelay DefaultRetryConfig) (MaxDelay DefaultRetryConfig) m in
    (3 * d <=? 4 * c) && (4 * c <=? 5 * d)) (seqZ 0 100)) (seq 0 3) = true) as Hall by (vm_compute; reflexivity).
  rewrite forallb_forall in Hall. assert (In attempt (seq 0 3)) as Hin by (apply in_seq; lia). specialize (Hall attempt Hin). cbv beta in Hall.
  apply (forall_below _ _ n) in Hall; [|done]. apply andb_true_iff in Hall as [H1%Z.leb_le H2%Z.leb_le]. done.
Qed.

(** Two refused connections and then an answer. *)
#[local] Instance text_errors : NetErrors string := {|
  as_url_error := fun _ => None; as_net_timeout := fun _ => None; net_error_text := fun e => e;
  exhausted_retries := fun _ e => default "" e; unreadable_body := fun e => e |}.

Definition demo_trip_answer (i : nat) : result string Z := match i with O => Err "connection refused" | S O => Ok 503 | _ => Ok 200 end.

Lemma round_trip_proper_witness :
  let '(evs, o) := RoundTrip demo_trip_answer (fun _ => 50) (fun _ => None) DefaultRetryConfig "PUT" (Some (Ok "body")) in
  length evs = 8%nat /\ o = Respond 2 true /\
  proper_trip demo_trip_answer (fun _ => None) DefaultRetryConfig (Some "body") 0 evs o.
Proof.
  pose proof (round_trip_proper demo_trip_answer (fun _ => 50) (fun _ => None) DefaultRetryConfig "PUT" (Some (Ok "body"))
    ltac:(vm_compute; discriminate) ltac:(discriminate)) as Hp.
  revert Hp. cbv zeta. destruct (RoundTrip _ _ _ _ _ _) as [evs o] eqn:Heq. vm_compute in Heq.
  injection Heq as <- <-. intros Hp. split; [reflexivity|]. split; [reflexivity|]. exact Hp.
Defined.
