(* ===== verification/Health.v ===== *)
(** * Active health checking ([pkg/gateway/health.go])

    The checker's map of per-backend records.  A probe's network exchange is a
    parameter: [probe_result] is what [http.Client.Do] reported.  Every
    recording method holds the checker's lock, so concurrent probes are a
    sequence of recordings. *)

From Stdlib Require Import Permutation.
From S2P Require Import Prelude GoStrings ConnErrors.

Inductive HealthState :=
| HealthStateUnknown
| HealthStateHealthy
| HealthStateUnhealthy
| HealthStateSleeping.

#[export] Instance HealthState_eq_dec : EqDecision HealthState.
Proof. solve_decision. Defined.

Record BackendHealth := mkHealth {
  URL : string;
  HState : HealthState;
  LastCheck : Time;
  HLastSuccess : Time;
  LastError : string;
  LastStatus : Z;
  HConsecutiveFailures : Z
}.

(** A record allocated with only [URL] and [State] set. *)
Definition newHealth (url : string) (s : HealthState) : BackendHealth :=
  mkHealth url s zeroTime zeroTime "" 0 0.

Record BackendHealthChecker := mkChecker {
  healthStatus : gmap string BackendHealth;
  interval : Duration;
  timeout : Duration;
  failureThreshold : Z;
  maxConcurrent : Z;
  staleThreshold : Duration
}.

Definition NewBackendHealthChecker (interval timeout : Duration) (failureThreshold : Z) :
    BackendHealthChecker :=
  mkChecker ∅ interval timeout failureThreshold 20 (int_mul interval 3).

(** [config.GatewayHealthCheck*] *)
Definition GatewayHealthCheckInterval : Duration := 5 * Second.
Definition GatewayHealthCheckTimeout : Duration := 2 * Second.
Definition GatewayHealthCheckFailureThreshold : Z := 3.

Definition set_healthStatus m hc := mkChecker m (interval hc) (timeout hc)
  (failureThreshold hc) (maxConcurrent hc) (staleThreshold hc).

(** Store [h] as the record of [url]. *)
Definition put_health (url : string) (h : BackendHealth) (hc : BackendHealthChecker) :=
  set_healthStatus (<[url := h]> (healthStatus hc)) hc.

Definition recordSuccess (now : Time) (url : string) (hc : BackendHealthChecker) :
    BackendHealthChecker :=
  let health := default (newHealth url HealthStateHealthy) (healthStatus hc !! url) in
  put_health url (mkHealth (URL health) HealthStateHealthy now now "" 200 0) hc.

Definition recordFailure (now : Time) (url : string) (statusCode : Z) (errMsg : string)
    (hc : BackendHealthChecker) : BackendHealthChecker :=
  let health := default (newHealth url HealthStateUnknown) (healthStatus hc !! url) in
  let failures := int_add (HConsecutiveFailures health) 1 in
  let st := if failureThreshold hc <=? failures then HealthStateUnhealthy else HState health in
  put_health url (mkHealth (URL health) st now (HLastSuccess health) errMsg statusCode failures) hc.

Definition recordSleeping (now : Time) (url errMsg : string) (hc : BackendHealthChecker) :
    BackendHealthChecker :=
  let health := default (newHealth url HealthStateSleeping) (healthStatus hc !! url) in
  put_health url (mkHealth (URL health) HealthStateSleeping now (HLastSuccess health) errMsg 0
                    (int_add (HConsecutiveFailures health) 1)) hc.

Definition clear_sleeping (hc : BackendHealthChecker) (url : string) : BackendHealthChecker :=
  match healthStatus hc !! url with
  | Some health =>
      if HState health ≡? HealthStateSleeping
      then put_health url (mkHealth (URL health) HealthStateUnknown (LastCheck health)
                             (HLastSuccess health) "" 0 0) hc
      else hc
  | None => hc
  end.

Definition resetSleeping (urls : list string) (hc : BackendHealthChecker) :
    BackendHealthChecker := fold_left clear_sleeping urls hc.

Definition fresh (now : Time) (hc : BackendHealthChecker) (h : BackendHealth) : bool :=
  negb (staleThreshold hc <? time_sub now (LastCheck h)).

Definition IsHealthy (now : Time) (url : string) (hc : BackendHealthChecker) : bool :=
  match healthStatus hc !! url with
  | None => true
  | Some health =>
      if staleThreshold hc <? time_sub now (LastCheck health) then true else
      (HState health ≡? HealthStateHealthy) || (HState health ≡? HealthStateUnknown)
  end.

Definition IsSleeping (now : Time) (url : string) (hc : BackendHealthChecker) : bool :=
  match healthStatus hc !! url with
  | None => false
  | Some health =>
      if staleThreshold hc <? time_sub now (LastCheck health) then false else
      HState health ≡? HealthStateSleeping
  end.

Definition GetState (now : Time) (url : string) (hc : BackendHealthChecker) : HealthState :=
  match healthStatus hc !! url with
  | None => HealthStateUnknown
  | Some health =>
      if staleThreshold hc <? time_sub now (LastCheck health) then HealthStateUnknown else
      HState health
  end.

(** ** Probes *)

Inductive probe_result :=
| ProbeSetupError (msg : string)        (* URL or request could not be built *)
| ProbeTransportError (err : go_error)  (* [Do] failed *)
| ProbeStatus (statusCode : Z).

(** [probeBackend]; [now] is the clock inside the recording method. *)
Definition probeBackend (now : Time) (url : string) (r : probe_result)
    (hc : BackendHealthChecker) : bool * BackendHealthChecker :=
  match r with
  | ProbeSetupError msg => (false, recordFailure now url 0 msg hc)
  | ProbeTransportError err =>
      if isConnectionError (Some err)
      then (false, recordSleeping now url (Error err) hc)
      else (false, recordFailure now url 0 (Error err) hc)
  | ProbeStatus code =>
      if (200 <=? code) && (code <? 300)
      then (true, recordSuccess now url hc)
      else (false, recordFailure now url code "non-2xx status" hc)
  end.

(** [checkAllBackends]: one probe per URL; the list gives the order in which
    the goroutines reach the lock, each with its own clock reading. *)
Definition checkAllBackends (probes : list (string * (Time * probe_result)))
    (hc : BackendHealthChecker) : BackendHealthChecker :=
  fold_left (fun hc p => (probeBackend p.2.1 p.1 p.2.2 hc).2) probes hc.

(** ** Facts *)

Lemma put_health_comm u1 u2 h1 h2 hc :
  u1 <> u2 -> put_health u1 h1 (put_health u2 h2 hc) = put_health u2 h2 (put_health u1 h1 hc).
Proof.
  intros Hne. unfold put_health, set_healthStatus; simpl. f_equal. by apply insert_insert_ne.
Qed.

(** A probe is a function of the backend's own record. *)
Definition probe_update (now : Time) (url : string) (r : probe_result) (threshold : Z)
    (old : option BackendHealth) : BackendHealth :=
  let h := default (newHealth url HealthStateUnknown) old in
  let failures := int_add (HConsecutiveFailures h) 1 in
  let failed code msg :=
    mkHealth (URL h) (if threshold <=? failures then HealthStateUnhealthy else HState h)
      now (HLastSuccess h) msg code failures in
  match r with
  | ProbeSetupError msg => failed 0 msg
  | ProbeTransportError err =>
      if isConnectionError (Some err)
      then mkHealth (URL h) HealthStateSleeping now (HLastSuccess h) (Error err) 0 failures
      else failed 0 (Error err)
  | ProbeStatus code =>
      if (200 <=? code) && (code <? 300)
      then mkHealth (URL h) HealthStateHealthy now now "" 200 0
      else failed code "non-2xx status"
  end.

Lemma probeBackend_put now url r hc :
  (probeBackend now url r hc).2 =
    put_health url (probe_update now url r (failureThreshold hc) (healthStatus hc !! url)) hc.
Proof.
  unfold probe_update, probeBackend.
  destruct r as [msg|err|code];
    [|destruct (isConnectionError (Some err))|destruct ((200 <=? code) && (code <? 300))];
    unfold recordSuccess, recordFailure, recordSleeping; simpl;
    by destruct (healthStatus hc !! url).
Qed.

Lemma probeBackend_other now url r hc u :
  u <> url -> healthStatus (probeBackend now url r hc).2 !! u = healthStatus hc !! u.
Proof. intros. rewrite probeBackend_put. simpl. by rewrite lookup_insert_ne. Qed.

Lemma probeBackend_swap t1 u1 r1 t2 u2 r2 hc :
  u1 <> u2 ->
  (probeBackend t1 u1 r1 (probeBackend t2 u2 r2 hc).2).2 =
  (probeBackend t2 u2 r2 (probeBackend t1 u1 r1 hc).2).2.
Proof.
  intros Hne. rewrite !probeBackend_put. simpl.
  rewrite !lookup_insert_ne by done. by apply put_health_comm.
Qed.

Lemma checkAllBackends_other probes hc u :
  u ∉ probes.*1 -> healthStatus (checkAllBackends probes hc) !! u = healthStatus hc !! u.
Proof.
  unfold checkAllBackends. revert hc. induction probes as [|[u' [t r]] ps IH]; intros hc Hu; [done|].
  simpl in *. rewrite IH by set_solver. apply probeBackend_other. set_solver.
Qed.

(** ** The per-backend invariant *)

Record health_wf (threshold : Z) (h : BackendHealth) : Prop := {
  hwf_below : HState h = HealthStateHealthy \/ HState h = HealthStateUnknown ->
    HConsecutiveFailures h < threshold;
  hwf_above : HState h = HealthStateUnhealthy -> threshold <= HConsecutiveFailures h;
  hwf_nonneg : 0 <= HConsecutiveFailures h
}.

Definition checker_wf (hc : BackendHealthChecker) : Prop :=
  0 < failureThreshold hc /\
  map_Forall (fun _ h => health_wf (failureThreshold hc) h) (healthStatus hc).

(** Recordings of one backend, for counting arguments. *)
Definition failure_count (hc : BackendHealthChecker) (url : string) : Z :=
  match healthStatus hc !! url with Some h => HConsecutiveFailures h | None => 0 end.

Inductive health_event :=
| EvProbe (now : Time) (url : string) (r : probe_result)
| EvReset (urls : list string).

Definition health_step (hc : BackendHealthChecker) (e : health_event) : BackendHealthChecker :=
  match e with
  | EvProbe now url r => (probeBackend now url r hc).2
  | EvReset urls => resetSleeping urls hc
  end.

(** The counters stay in range while fewer than [2^60] probes have run. *)
Definition counters_below (b : Z) (hc : BackendHealthChecker) : Prop :=
  map_Forall (fun _ h => HConsecutiveFailures h <= b) (healthStatus hc).

Lemma health_wf_update now url r th old b :
  0 < th -> (forall h, old = Some h -> health_wf th h /\ HConsecutiveFailures h <= b) ->
  0 <= b < 2 ^ 60 ->
  health_wf th (probe_update now url r th old) /\
  HConsecutiveFailures (probe_update now url r th old) <= b + 1.
Proof.
  intros Hth Hold Hb.
  set (h := default (newHealth url HealthStateUnknown) old).
  assert (Hh : health_wf th h /\ HConsecutiveFailures h <= b).
  { subst h. destruct old as [h|]; simpl; [by apply Hold|]. split; [split; simpl; naive_solver lia|lia]. }
  destruct Hh as [[Hlo Hhi Hnn] Hle]. unfold probe_update. fold h.
  rewrite int_add_small by (unfold in_int64, int64_min, int64_max; lia).
  assert (Hfail : forall code msg, health_wf th
    (mkHealth (URL h) (if th <=? HConsecutiveFailures h + 1 then HealthStateUnhealthy else HState h)
       now (HLastSuccess h) msg code (HConsecutiveFailures h + 1))).
  { intros code msg. split; simpl; repeat case_cmp; try lia; intros; simpl; try naive_solver lia. }
  destruct r as [msg|err|code]; [|destruct (isConnectionError _)|destruct (_ && _)];
    try (split; [apply Hfail|simpl; lia]); (split; [split; simpl; naive_solver lia|simpl; lia]).
Qed.

Lemma checker_wf_put url h hc b :
  checker_wf hc -> counters_below b hc -> health_wf (failureThreshold hc) h ->
  HConsecutiveFailures h <= b + 1 ->
  checker_wf (put_health url h hc) /\ counters_below (b + 1) (put_health url h hc).
Proof.
  intros [Hth Hwf] Hb Hh Hhb. split; [split; [done|]|]; simpl; apply map_Forall_insert_2; try done.
  intros i x Hi. specialize (Hb i x Hi). simpl in Hb. lia.
Qed.

Lemma clear_sleeping_lookup hc url u :
  healthStatus (clear_sleeping hc url) !! u =
    if u ≡? url then
      (fun h => if HState h ≡? HealthStateSleeping
                then mkHealth (URL h) HealthStateUnknown (LastCheck h) (HLastSuccess h) "" 0 0
                else h) <$> healthStatus hc !! u
    else healthStatus hc !! u.
Proof.
  unfold clear_sleeping. case_bool_decide as Hu.
  - subst u. destruct (healthStatus hc !! url) as [h|] eqn:E; simpl; [|by rewrite E].
    case_bool_decide; simpl; [by rewrite lookup_insert_eq|by rewrite E].
  - destruct (healthStatus hc !! url) as [h|]; [|done]. case_bool_decide; [|done].
    simpl. by rewrite lookup_insert_ne.
Qed.

Lemma resetSleeping_lookup urls hc u :
  healthStatus (resetSleeping urls hc) !! u =
    if bool_decide (u ∈ urls) then
      (fun h => if HState h ≡? HealthStateSleeping
                then mkHealth (URL h) HealthStateUnknown (LastCheck h) (HLastSuccess h) "" 0 0
                else h) <$> healthStatus hc !! u
    else healthStatus hc !! u.
Proof.
  unfold resetSleeping. revert hc. induction urls as [|v urls IH]; intros hc; simpl; [done|].
  rewrite IH, clear_sleeping_lookup.
  destruct (decide (u = v)) as [->|Hne].
  - rewrite (bool_decide_eq_true_2 (v = v)), (bool_decide_eq_true_2 (v ∈ v :: urls)) by set_solver.
    case_bool_decide; [|done]. destruct (healthStatus hc !! v) as [h|]; simpl; [|done]. f_equal.
    destruct (decide (HState h = HealthStateSleeping)) as [Hs|Hs].
    + by rewrite (bool_decide_eq_true_2 (HState h = _)).
    + by rewrite !(bool_decide_eq_false_2 (HState h = _)).
  - rewrite (bool_decide_eq_false_2 (u = v)) by done.
    by rewrite (bool_decide_ext (u ∈ v :: urls) (u ∈ urls)) by set_solver.
Qed.

Lemma clear_sleeping_params hc url :
  failureThreshold (clear_sleeping hc url) = failureThreshold hc /\
  staleThreshold (clear_sleeping hc url) = staleThreshold hc.
Proof. unfold clear_sleeping. by repeat case_match. Qed.

Lemma resetSleeping_params urls hc :
  failureThreshold (resetSleeping urls hc) = failureThreshold hc /\
  staleThreshold (resetSleeping urls hc) = staleThreshold hc.
Proof.
  unfold resetSleeping. revert hc. induction urls as [|v urls IH]; intros hc; simpl; [done|].
  destruct (IH (clear_sleeping hc v)) as [-> ->]. apply clear_sleeping_params.
Qed.

Lemma health_step_wf hc e b :
  checker_wf hc -> counters_below b hc -> 0 <= b < 2 ^ 60 ->
  checker_wf (health_step hc e) /\ counters_below (b + 1) (health_step hc e).
Proof.
  intros Hwf Hb Hrange. destruct e as [now url r|urls]; simpl.
  - rewrite probeBackend_put. destruct Hwf as [Hth Hm].
    destruct (health_wf_update now url r (failureThreshold hc) (healthStatus hc !! url) b)
      as [H1 H2]; [done| |done|].
    { intros h Hh. split; [by apply (Hm url h)|by apply (Hb url h)]. }
    by apply checker_wf_put.
  - destruct Hwf as [Hth Hm]. split; [split|]; rewrite ?(proj1 (resetSleeping_params urls hc)); [done|..];
      intros u h; rewrite resetSleeping_lookup; case_bool_decide; intros Hh.
    + apply fmap_Some in Hh as (h' & Hh & ->). case_bool_decide; [|by apply (Hm u)].
      split; simpl; naive_solver lia.
    + by apply (Hm u).
    + apply fmap_Some in Hh as (h' & Hh & ->). specialize (Hb u h' Hh). simpl in Hb.
      case_bool_decide; simpl; lia.
    + specialize (Hb u h Hh). simpl in Hb. lia.
Qed.

(** ** Properties *)

(** For every backend, through any sequence of fewer than [2^60] probes
    and resets: a backend reported healthy or unknown has failed fewer than
    [failureThreshold] checks in a row, and one reported unhealthy at least
    that many. *)
Theorem health_invariant interval timeout th es :
  0 < th -> Z.of_nat (length es) < 2 ^ 60 ->
  checker_wf (fold_left health_step es (NewBackendHealthChecker interval timeout th)).
Proof.
  intros Hth Hlen.
  assert (H : forall es hc b, checker_wf hc -> counters_below b hc -> 0 <= b ->
    b + Z.of_nat (length es) < 2 ^ 60 -> checker_wf (fold_left health_step es hc)).
  { clear. induction es as [|e es IH]; intros hc b Hwf Hb H0 Hl; simpl; [done|].
    simpl in Hl. destruct (health_step_wf hc e b Hwf Hb) as [H1 H2]; [lia|].
    apply (IH _ (b + 1)); try done; lia. }
  apply (H es _ 0); try lia.
  - split; [done|]. apply map_Forall_empty.
  - apply map_Forall_empty.
Qed.

Lemma health_invariant_witness :
  checker_wf (fold_left health_step
    [EvProbe 1 "http://b" (ProbeStatus 500); EvProbe 2 "http://b" (ProbeStatus 500); EvReset ["http://b"]]
    (NewBackendHealthChecker (5 * Second) (2 * Second) 2)).
Proof. apply health_invariant; [lia|reflexivity]. Defined.

(** The three readings of the checker agree: [IsHealthy] holds exactly
    when [GetState] is healthy or unknown, [IsSleeping] exactly when it is
    sleeping, so no backend is both; and a record older than the staleness
    threshold reads as unknown, hence healthy and awake (fail-open). *)
Theorem health_readings_agree now url hc :
  IsHealthy now url hc =
    ((GetState now url hc ≡? HealthStateHealthy) || (GetState now url hc ≡? HealthStateUnknown)) /\
  IsSleeping now url hc = (GetState now url hc ≡? HealthStateSleeping) /\
  IsHealthy now url hc && IsSleeping now url hc = false /\
  (forall h, healthStatus hc !! url = Some h -> staleThreshold hc < time_sub now (LastCheck h) ->
     GetState now url hc = HealthStateUnknown).
Proof.
  unfold IsHealthy, IsSleeping, GetState. destruct (healthStatus hc !! url) as [h|]; [|by split_and!].
  case_cmp; split_and!; try done.
  - by destruct (HState h).
  - intros h' [= ->]. lia.
Qed.

(** The probes of one round commute: [checkAllBackends] over distinct
    URLs leaves the same state in whatever order its goroutines take the
    lock, and touches no other backend. *)
Theorem check_round_order_irrelevant probes probes' hc :
  NoDup probes.*1 -> Permutation probes probes' ->
  checkAllBackends probes hc = checkAllBackends probes' hc /\
  (forall u, u ∉ probes.*1 ->
     healthStatus (checkAllBackends probes hc) !! u = healthStatus hc !! u).
Proof.
  intros Hnd Hp. split; [|intros; by apply checkAllBackends_other].
  unfold checkAllBackends. revert hc.
  induction Hp as [|[u [t r]] l l' Hp IH|[u1 [t1 r1]] [u2 [t2 r2]] l|l1 l2 l3 Hp1 IH1 Hp2 IH2];
    intros hc; simpl; [done| | |].
  - apply IH. by inversion Hnd.
  - f_equal. simpl in Hnd. apply probeBackend_swap. inversion Hnd; subst. set_solver.
  - rewrite IH1 by done. apply IH2. by rewrite <- Hp1.
Qed.

Lemma check_round_order_irrelevant_witness :
  checkAllBackends [("a", (1, ProbeStatus 200)); ("b", (2, ProbeStatus 503))]
    (NewBackendHealthChecker Second Second 1) =
  checkAllBackends [("b", (2, ProbeStatus 503)); ("a", (1, ProbeStatus 200))]
    (NewBackendHealthChecker Second Second 1).
Proof.
  apply check_round_order_irrelevant; [|constructor].
  apply (bool_decide_unpack _). vm_compute. exact I.
Defined.

(** After a route reload has reset a list of backends, none of them reads
    as sleeping; every record that was not sleeping is untouched. *)
Theorem reset_wakes now urls hc url :
  (url ∈ urls -> IsSleeping now url (resetSleeping urls hc) = false) /\
  (forall h, healthStatus hc !! url = Some h -> HState h <> HealthStateSleeping ->
     healthStatus (resetSleeping urls hc) !! url = Some h).
Proof.
  unfold IsSleeping. rewrite resetSleeping_lookup. split.
  - intros Hin. rewrite bool_decide_eq_true_2 by done.
    destruct (healthStatus hc !! url) as [h|]; simpl; [|done].
    case_cmp; [done|]. by case_bool_decide; simpl; [|rewrite bool_decide_eq_false_2].
  - intros h -> Hh. simpl. rewrite (bool_decide_eq_false_2 (HState h = _)) by done. by case_bool_decide.
Qed.
