(* ===== verification/Routes.v ===== *)
(** * The gateway route table ([pkg/gateway/gateway.go], [pkg/gateway/helpers.go])

    The table is the list of route entries stored as YAML in the gateway
    ConfigMap.  The operator owns it: registering, draining and deregistering a
    runtime are functions on the table; the gateway reads it ([RouteCache]).
    [RouteRegistry] wraps these functions in the ConfigMap read-modify-write
    loop. *)

From S2P Require Import Prelude GoStrings GoTime XTrinodeTypes RuntimeShape ControlEndpoint.

(** [BackendState] is a string type: values other than the constants can
    come from a hand-edited ConfigMap. *)
Abbreviation BackendState := string (only parsing).
Definition StateRunning : BackendState := "RUNNING".
Definition StatePaused : BackendState := "PAUSED".
Definition StateResuming : BackendState := "RESUMING".
Definition StateDraining : BackendState := "DRAINING".
Definition StateRemoved : BackendState := "REMOVED".

Record Backend := mkBackend {
  b_Name : string;
  b_Namespace : string;
  b_CoordinatorURL : string;
  b_State : BackendState;
  b_Active : bool;
  b_Tier : string;
  b_CapacityUnits : Z;
  b_RuntimeShapeVersion : string;
  b_RuntimeShapeHash : string;
  b_ObservedGeneration : Z;
  b_DrainUntil : string
}.

#[export] Instance Backend_eq_dec : EqDecision Backend.
Proof. solve_decision. Defined.

Record RouteEntry := mkRoute {
  r_Name : string;
  r_RoutingGroup : string;
  r_Backends : list Backend;
  r_Header : string;
  r_Hostname : string;
  r_Default : bool
}.

#[export] Instance RouteEntry_eq_dec : EqDecision RouteEntry.
Proof. solve_decision. Defined.

Definition set_Backends bs r :=
  mkRoute (r_Name r) (r_RoutingGroup r) bs (r_Header r) (r_Hostname r) (r_Default r).

(** The identity under which the table knows a runtime. *)
Definition has_id (name ns : string) (b : Backend) : bool :=
  (b_Name b ≡? name) && (b_Namespace b ≡? ns).

(** ** Routing identity of a runtime *)

Definition GatewayDefaultRoutingGroupSeparator : string := "--".

Definition DefaultDedicatedRoutingGroup (namespace name : string) : string :=
  if namespace ≡? "" then name
  else namespace +:+ GatewayDefaultRoutingGroupSeparator +:+ name.

Definition defaultDedicatedRoutingGroup (x : XTrinode) : string :=
  DefaultDedicatedRoutingGroup (xt_Namespace x) (xt_Name x).

Definition extractRoutingGroup (x : XTrinode) : string :=
  match spec_Routing (xt_Spec x) with
  | Some r => if negb (rs_RoutingGroup r ≡? "") then rs_RoutingGroup r
              else defaultDedicatedRoutingGroup x
  | None => defaultDedicatedRoutingGroup x
  end.

Definition isDedicatedRoutingGroup (x : XTrinode) (routingGroup : string) : bool :=
  match spec_Routing (xt_Spec x) with
  | Some r => if rs_RoutingGroup r ≡? "" then true
              else routingGroup ≡? defaultDedicatedRoutingGroup x
  | None => true
  end.

Definition buildHostname (x : XTrinode) : string :=
  match spec_Routing (xt_Spec x) with
  | None => ""
  | Some r =>
      if negb (rs_Hostname r ≡? "") then rs_Hostname r else
      if negb (rs_HostnameDomain r ≡? "")
      then extractRoutingGroup x +:+ "." +:+ rs_HostnameDomain r
      else ""
  end.

Definition normalizeHostname (hostname : string) : string :=
  let hostname := ToLower hostname in
  match SplitHostPort hostname with Some (h, _) => h | None => hostname end.

(** The text after the first [c] that is not the last byte of [s]. *)
Definition value_after (c : ascii) (s : string) : option string :=
  match IndexByte c s with
  | Some idx => if (S idx <? String.length s)%nat then Some (str_drop (S idx) s) else None
  | None => None
  end.

Definition parseHeaderValue (headerSpec : string) : string :=
  match value_after "=" headerSpec with
  | Some v => TrimSpace v
  | None =>
      match value_after ":" headerSpec with
      | Some v => TrimSpace v
      | None => TrimSpace headerSpec
      end
  end.

Definition computeBackendState (x : XTrinode) : BackendState :=
  if spec_Suspended (xt_Spec x) then StatePaused else
  let phase := st_Phase (xt_Status x) in
  if phase ≡? "Suspended" then StatePaused else
  if phase ≡? "Reconciling" then StateResuming else
  if phase ≡? "Ready" then StateRunning else
  if phase ≡? "Error" then StatePaused else
  StateResuming.

(** ** Table operations *)

Inductive route_error :=
| HostnameConflict (routingGroup : string)
| HeaderConflict (routingGroup : string)
| DefaultConflict (routingGroup : string)
| ExclusivityViolated (routingGroup existingNamespace existingName : string).

Fixpoint findRouteByRoutingGroup (routes : list RouteEntry) (routingGroup : string) :
    option (RouteEntry * nat) :=
  match routes with
  | [] => None
  | r :: rs =>
      if r_RoutingGroup r ≡? routingGroup then Some (r, 0%nat)
      else (fun '(r, i) => (r, S i)) <$> findRouteByRoutingGroup rs routingGroup
  end.

(** The search loop: replace the first backend with [backend]'s identity. *)
Fixpoint replace_backend (backend : Backend) (bs : list Backend) : option (list Backend) :=
  match bs with
  | [] => None
  | b :: bs' =>
      if has_id (b_Name backend) (b_Namespace backend) b then Some (backend :: bs')
      else cons b <$> replace_backend backend bs'
  end.

Definition updateBackendInRouteWithMode (route : RouteEntry) (backend : Backend)
    (header hostname : string) (defaultRoute dedicatedRoute : bool) :
    result route_error RouteEntry :=
  route ←
    match replace_backend backend (r_Backends route) with
    | Some bs => Ok (set_Backends bs route)
    | None =>
        match dedicatedRoute, r_Backends route with
        | true, existing :: _ =>
            Err (ExclusivityViolated (r_RoutingGroup route) (b_Namespace existing) (b_Name existing))
        | _, _ => Ok (set_Backends (r_Backends route ++ [backend]) route)
        end
    end;
  let owns :=
    match r_Backends route with
    | [b] => has_id (b_Name backend) (b_Namespace backend) b
    | _ => false
    end in
  if owns : bool then
    Ok (mkRoute (r_Name route) (r_RoutingGroup route) (r_Backends route) header hostname defaultRoute)
  else
    Ok (mkRoute (r_Name route) (r_RoutingGroup route) (r_Backends route)
          (if header ≡? "" then r_Header route else header)
          (if hostname ≡? "" then r_Hostname route else hostname)
          (if defaultRoute then true else r_Default route)).

Definition createRouteEntry (name routingGroup header hostname : string) (backend : Backend)
    (defaultRoute : bool) : RouteEntry :=
  mkRoute name routingGroup [backend] header hostname defaultRoute.

(** One iteration of the loop of [validateRouteUniqueness]. *)
Definition route_conflict (newRoutingGroup newHostname newHeader : string) (newDefault : bool)
    (route : RouteEntry) : option route_error :=
  let normalizedNew := if newHostname ≡? "" then "" else normalizeHostname newHostname in
  if r_RoutingGroup route ≡? newRoutingGroup then None else
  if negb (normalizedNew ≡? "") && negb (r_Hostname route ≡? "") &&
     (normalizeHostname (r_Hostname route) ≡? normalizedNew)
  then Some (HostnameConflict (r_RoutingGroup route)) else
  if negb (newHeader ≡? "") && negb (r_Header route ≡? "") && (r_Header route ≡? newHeader)
  then Some (HeaderConflict (r_RoutingGroup route)) else
  if newDefault && r_Default route then Some (DefaultConflict (r_RoutingGroup route)) else
  None.

Fixpoint validateRouteUniqueness (routes : list RouteEntry)
    (newRoutingGroup newHostname newHeader : string) (newDefault : bool) :
    result route_error unit :=
  match routes with
  | [] => Ok tt
  | route :: routes' =>
      match route_conflict newRoutingGroup newHostname newHeader newDefault route with
      | Some e => Err e
      | None => validateRouteUniqueness routes' newRoutingGroup newHostname newHeader newDefault
      end
  end.

Fixpoint filterBackendFromRoutes (routes : list RouteEntry) (name ns : string)
    (shouldFilter : RouteEntry -> bool) : list RouteEntry * bool :=
  match routes with
  | [] => ([], false)
  | route :: routes' =>
      let '(filtered, changed) := filterBackendFromRoutes routes' name ns shouldFilter in
      if negb (shouldFilter route) then (route :: filtered, changed) else
      let backends := filterb (fun b => negb (has_id name ns b)) (r_Backends route) in
      let changed := existsb (has_id name ns) (r_Backends route) || changed in
      match backends with
      | [] => (filtered, changed)
      | _ => (set_Backends backends route :: filtered, changed)
      end
  end.

Definition removeBackendFromOtherRoutes (routes : list RouteEntry)
    (targetRoutingGroup name ns : string) : list RouteEntry :=
  (filterBackendFromRoutes routes name ns
     (fun route => negb (r_RoutingGroup route ≡? targetRoutingGroup))).1.

Definition removeBackendFromAllRoutes (routes : list RouteEntry) (name ns : string) :
    list RouteEntry * bool :=
  filterBackendFromRoutes routes name ns (fun _ => true).

Definition GatewayDrainDuration : Duration := 5 * Minute.

(** The loop body of [setBackendDrainingAllRoutes] on one backend: the new
    backend and whether it changed. *)
Definition drain_backend (name ns drainUntil : string) (b : Backend) : Backend * bool :=
  if negb (has_id name ns b) then (b, false) else
  if (b_State b ≡? StateDraining) && negb (b_Active b) && negb (b_DrainUntil b ≡? "")
  then (b, false)
  else (mkBackend (b_Name b) (b_Namespace b) (b_CoordinatorURL b) StateDraining false (b_Tier b)
          (b_CapacityUnits b) (b_RuntimeShapeVersion b) (b_RuntimeShapeHash b)
          (b_ObservedGeneration b) drainUntil, true).

Definition setBackendDrainingAllRoutes (now : Time) (routes : list RouteEntry) (name ns : string)
    (drainDuration : Duration) : list RouteEntry * bool :=
  let drainDuration := if drainDuration <=? 0 then GatewayDrainDuration else drainDuration in
  let drainUntil := FormatRFC3339 (time_add now drainDuration) in
  (map (fun r => set_Backends (map (fun b => (drain_backend name ns drainUntil b).1) (r_Backends r)) r)
     routes,
   existsb (fun r => existsb (fun b => (drain_backend name ns drainUntil b).2) (r_Backends r)) routes).

(** ** Registration

    What [RegisterRoute] derives from the runtime before it touches the
    ConfigMap.  [shape] is the result of
    [runtimeshape.Resolve]. *)

Record registration := mkRegistration {
  reg_routingGroup : string;
  reg_hostname : string;
  reg_header : string;
  reg_default : bool;
  reg_dedicated : bool;
  reg_backend : Backend
}.

Definition ObservedRuntimeShapeStatusVersion : string := "v1".

Definition registration_of (x : XTrinode) (shape : ResolvedRuntimeShape) : registration :=
  let routingGroup := extractRoutingGroup x in
  let '(header, defaultRoute) :=
    match spec_Routing (xt_Spec x) with
    | Some r => (if negb (rs_Header r ≡? "") then parseHeaderValue (rs_Header r) else "", rs_Default r)
    | None => ("", false)
    end in
  mkRegistration routingGroup (buildHostname x) header defaultRoute
    (isDedicatedRoutingGroup x routingGroup)
    (mkBackend (xt_Name x) (xt_Namespace x) (CoordinatorURL x) (computeBackendState x) true
       (sh_PresetName shape) (sh_CapacityUnits shape) ObservedRuntimeShapeStatusVersion
       (sh_Hash shape) (xt_Generation x) "").

(** The table [RegisterRoute]'s update function computes from the parsed one. *)
Definition register (reg : registration) (routes : list RouteEntry) :
    result route_error (list RouteEntry) :=
  let b := reg_backend reg in
  let rg := reg_routingGroup reg in
  let routes := removeBackendFromOtherRoutes routes rg (b_Name b) (b_Namespace b) in
  _ ← validateRouteUniqueness routes rg (reg_hostname reg) (reg_header reg) (reg_default reg);
  match findRouteByRoutingGroup routes rg with
  | Some (existing, i) =>
      route ← updateBackendInRouteWithMode existing b (reg_header reg) (reg_hostname reg)
                (reg_default reg) (reg_dedicated reg);
      Ok (<[i := route]> routes)
  | None =>
      Ok (routes ++ [createRouteEntry rg rg (reg_header reg) (reg_hostname reg) b (reg_default reg)])
  end.

(** ** What a well-formed table is

    Two routes of the table never answer for the same request: their routing
    groups differ, and so do their hostnames (as the gateway compares them) and
    headers where they have one, and at most one is the default.  A runtime is
    in the table at most once, and no route is left without backends. *)

Definition host_key (r : RouteEntry) : string := normalizeHostname (r_Hostname r).

Record compat (r s : RouteEntry) : Prop := {
  compat_group : r_RoutingGroup r <> r_RoutingGroup s;
  compat_host : host_key r <> "" -> host_key r <> host_key s;
  compat_header : r_Header r <> "" -> r_Header r <> r_Header s;
  compat_default : r_Default r && r_Default s = false
}.

Definition backend_id (b : Backend) : string * string := (b_Namespace b, b_Name b).

Definition table_ids (routes : list RouteEntry) : list (string * string) :=
  backend_id <$> (routes ≫= r_Backends).

Record routes_wf (routes : list RouteEntry) : Prop := {
  wf_compat : pairwise compat routes;
  wf_ids : NoDup (table_ids routes);
  wf_nonempty : Forall (fun r => r_Backends r <> []) routes
}.

(** The abstract content of a table: which backend serves which group. *)
Definition hosts (routes : list RouteEntry) (rg : string) (b : Backend) : Prop :=
  exists r, r ∈ routes /\ r_RoutingGroup r = rg /\ b ∈ r_Backends r.

(** ** Lemmas on identities and membership *)

#[export] Instance compat_sym : Symmetric compat.
Proof.
  intros r s [Hg Hh He Hd]. split.
  - congruence.
  - intros Hs E. apply Hh; congruence.
  - intros Hs E. apply He; congruence.
  - by rewrite andb_comm.
Qed.

Lemma has_id_true name ns b : has_id name ns b = true <-> backend_id b = (ns, name).
Proof.
  unfold has_id, backend_id. rewrite andb_true_iff, !bool_decide_eq_true. naive_solver.
Qed.

Lemma has_id_false name ns b : has_id name ns b = false <-> backend_id b <> (ns, name).
Proof. rewrite <- has_id_true. by destruct (has_id name ns b). Qed.

Lemma elem_of_table_ids routes i :
  i ∈ table_ids routes <-> exists r b, r ∈ routes /\ b ∈ r_Backends r /\ backend_id b = i.
Proof.
  unfold table_ids. rewrite list_elem_of_fmap. setoid_rewrite list_elem_of_bind. naive_solver.
Qed.

Lemma table_ids_middle l1 r l2 :
  table_ids (l1 ++ r :: l2) ≡ₚ (backend_id <$> r_Backends r) ++ table_ids (l1 ++ l2).
Proof.
  unfold table_ids. rewrite !bind_app, bind_cons, !fmap_app. solve_Permutation.
Qed.

Lemma hosts_middle l1 r l2 rg b :
  hosts (l1 ++ r :: l2) rg b <->
  (r_RoutingGroup r = rg /\ b ∈ r_Backends r) \/ hosts (l1 ++ l2) rg b.
Proof. unfold hosts. setoid_rewrite elem_of_app. setoid_rewrite elem_of_cons. naive_solver. Qed.

(** ** [filterBackendFromRoutes] as a map over the routes *)

Definition strip (name ns : string) (shouldFilter : RouteEntry -> bool) (r : RouteEntry) :
    option RouteEntry :=
  if negb (shouldFilter r) then Some r else
  match filterb (fun b => negb (has_id name ns b)) (r_Backends r) with
  | [] => None
  | bs => Some (set_Backends bs r)
  end.

Lemma filterBackendFromRoutes_omap routes name ns p :
  (filterBackendFromRoutes routes name ns p).1 = omap (strip name ns p) routes.
Proof.
  induction routes as [|r rs IH]; simpl; [done|]. unfold strip at 1.
  destruct (filterBackendFromRoutes rs name ns p) as [fs c]; simpl in *; subst fs.
  destruct (p r); simpl; [|done]. by case_match.
Qed.

Lemma strip_group name ns p r r' : strip name ns p r = Some r' ->
  r_RoutingGroup r' = r_RoutingGroup r /\ host_key r' = host_key r /\
  r_Header r' = r_Header r /\ r_Default r' = r_Default r.
Proof. unfold strip. intros H. by split_tests. Qed.

Lemma strip_meta name ns p r r' : strip name ns p r = Some r' ->
  r_Name r' = r_Name r /\ r_Hostname r' = r_Hostname r /\ (r_Backends r <> [] -> r_Backends r' <> []).
Proof.
  unfold strip. destruct (negb (p r)); [intros [= ->]; done|].
  by destruct (filterb _ _); intros [= <-].
Qed.

Lemma strip_compat name ns p r s r' s' :
  strip name ns p r = Some r' -> strip name ns p s = Some s' -> compat r s -> compat r' s'.
Proof.
  intros (Hg & Hh & He & Hd)%strip_group (Hg' & Hh' & He' & Hd')%strip_group [].
  split; rewrite ?Hg, ?Hh, ?He, ?Hd, ?Hg', ?Hh', ?He', ?Hd'; done.
Qed.

Lemma strip_elem name ns p r r' b : strip name ns p r = Some r' ->
  b ∈ r_Backends r' <-> b ∈ r_Backends r /\ (p r = true -> has_id name ns b = false).
Proof.
  unfold strip. destruct (p r); simpl; [|intros [= ->]; naive_solver].
  destruct (filterb _ _) as [|b' bs] eqn:E; [done|]. intros [= <-]. simpl.
  rewrite <- E, elem_of_filterb, negb_true_iff. naive_solver.
Qed.

Lemma strip_None name ns p r b : strip name ns p r = None -> b ∈ r_Backends r ->
  p r = true /\ has_id name ns b = true.
Proof.
  unfold strip. destruct (p r); simpl; [|done].
  destruct (filterb _ _) as [|b' bs] eqn:E; [|done]. intros _ Hb. split; [done|].
  destruct (has_id name ns b) eqn:Hi; [done|].
  assert (Hin : b ∈ filterb (fun b => negb (has_id name ns b)) (r_Backends r))
    by (apply elem_of_filterb; by rewrite Hi).
  rewrite E in Hin. by apply elem_of_nil in Hin.
Qed.

(** Filtering on the routing group keeps exactly the other memberships. *)
Lemma hosts_strip routes name ns p q rg b :
  (forall r, p r = q (r_RoutingGroup r)) ->
  hosts (omap (strip name ns p) routes) rg b <->
  hosts routes rg b /\ (q rg = true -> has_id name ns b = false).
Proof.
  intros Hp. unfold hosts. split.
  - intros (r' & (r & Hr & Es)%list_elem_of_omap & Hg & Hb).
    apply (strip_elem _ _ _ _ _ b Es) in Hb as [Hb Hn].
    apply strip_group in Es as (Hg' & _). rewrite Hp in Hn.
    split; [exists r; split_and!; congruence|]. by rewrite <- Hg, Hg'.
  - intros [(r & Hr & Hg & Hb) Hn]. destruct (strip name ns p r) as [r'|] eqn:Es.
    + exists r'. split; [apply list_elem_of_omap; eauto|].
      split; [by apply strip_group in Es as (-> & _)|].
      apply (strip_elem _ _ _ _ _ b Es). rewrite Hp, Hg. auto.
    + apply (strip_None _ _ _ _ b) in Es as [Hpr Hi]; [|done].
      rewrite Hp, Hg in Hpr. rewrite Hn in Hi; done.
Qed.

Lemma strip_ids name ns p r :
  exists ids, backend_id <$> r_Backends r ≡ₚ ids ++
    (match strip name ns p r with Some r' => backend_id <$> r_Backends r' | None => [] end).
Proof.
  unfold strip. destruct (p r); simpl; [|by exists []].
  exists (backend_id <$> filterb (has_id name ns) (r_Backends r)).
  assert (H : backend_id <$> r_Backends r ≡ₚ
    (backend_id <$> filterb (has_id name ns) (r_Backends r)) ++
    (backend_id <$> filterb (fun b => negb (has_id name ns b)) (r_Backends r))).
  { induction (r_Backends r) as [|b bs IH]; [done|]. unfold filterb in *. simpl.
    destruct (has_id name ns b); simpl; rewrite IH; solve_Permutation. }
  rewrite H. by destruct (filterb (fun b => negb (has_id name ns b)) (r_Backends r)).
Qed.

Lemma table_ids_strip routes name ns p :
  exists ids, table_ids routes ≡ₚ ids ++ table_ids (omap (strip name ns p) routes).
Proof.
  induction routes as [|r rs [ids IH]]; [by exists []|].
  destruct (strip_ids name ns p r) as [ids' H].
  exists (ids' ++ ids). unfold table_ids in *. rewrite bind_cons, fmap_app, IH, H. simpl.
  destruct (strip name ns p r); simpl; rewrite ?fmap_app; solve_Permutation.
Qed.

Lemma routes_wf_strip routes name ns p :
  routes_wf routes -> routes_wf (omap (strip name ns p) routes).
Proof.
  intros [Hc Hi Hn]. split.
  - revert Hc. apply pairwise_omap. apply strip_compat.
  - destruct (table_ids_strip routes name ns p) as [ids H]. rewrite H in Hi.
    by apply list.NoDup_app in Hi as (_ & _ & ?).
  - apply list.Forall_forall. intros r' (r & Hr & Es)%list_elem_of_omap.
    rewrite list.Forall_forall in Hn. specialize (Hn r Hr).
    unfold strip in Es. split_tests; [done|]. by destruct (filterb _ _); simplify_eq.
Qed.

(** ** [validateRouteUniqueness], [findRouteByRoutingGroup], [replace_backend] *)

Lemma validate_Ok routes rg h e d :
  validateRouteUniqueness routes rg h e d = Ok tt <->
  Forall (fun r => route_conflict rg h e d r = None) routes.
Proof.
  induction routes as [|r rs IH]; simpl; [by split|].
  rewrite list.Forall_cons. destruct (route_conflict rg h e d r); naive_solver.
Qed.

Lemma normalizeHostname_empty : normalizeHostname "" = "".
Proof. reflexivity. Qed.

(** The guards of the loop body, as the relation they test. *)
Lemma route_conflict_None rg h e d r :
  r_RoutingGroup r <> rg ->
  route_conflict rg h e d r = None <->
  (normalizeHostname h <> "" -> host_key r <> normalizeHostname h) /\
  (e <> "" -> r_Header r <> e) /\ d && r_Default r = false.
Proof.
  intros Hg. unfold route_conflict, host_key. rewrite (bool_decide_false _ Hg).
  assert (Hh : (if h ≡? "" then "" else normalizeHostname h) = normalizeHostname h).
  { case_bool_decide; [by subst|done]. }
  rewrite Hh. clear Hh. generalize (normalizeHostname h) as k. intros k.
  assert (He : r_Hostname r = "" -> normalizeHostname (r_Hostname r) = "") by (by intros ->).
  destruct (decide (k = "")), (decide (r_Hostname r = "")), (decide (e = "")),
    (decide (r_Header r = "")), (decide (r_Header r = e)), (decide (normalizeHostname (r_Hostname r) = k)), d, (r_Default r);
    repeat (first [rewrite bool_decide_true by congruence | rewrite bool_decide_false by congruence]);
    rewrite ?andb_false_r; simpl; intuition congruence.
Qed.

Lemma find_group_Some routes rg r i :
  findRouteByRoutingGroup routes rg = Some (r, i) ->
  r_RoutingGroup r = rg /\ exists l1 l2, routes = l1 ++ r :: l2 /\ i = length l1.
Proof.
  revert i. induction routes as [|s rs IH]; intros i; simpl; [done|].
  case_bool_decide as E.
  - intros [= -> <-]. split; [done|]. by exists [], rs.
  - destruct (findRouteByRoutingGroup rs rg) as [[r' j]|]; simpl; [|done].
    intros [= -> <-]. destruct (IH j eq_refl) as (Hg & l1 & l2 & -> & ->).
    split; [done|]. by exists (s :: l1), l2.
Qed.

Lemma find_group_None routes rg :
  findRouteByRoutingGroup routes rg = None <-> Forall (fun r => r_RoutingGroup r <> rg) routes.
Proof.
  induction routes as [|s rs IH]; simpl; [by split|]. rewrite list.Forall_cons.
  case_bool_decide; [naive_solver|]. rewrite <- IH.
  by destruct (findRouteByRoutingGroup rs rg); naive_solver.
Qed.

(** In a group's first position the search finds it. *)
Lemma find_group_middle l1 r l2 :
  Forall (fun s => r_RoutingGroup s <> r_RoutingGroup r) l1 ->
  findRouteByRoutingGroup (l1 ++ r :: l2) (r_RoutingGroup r) = Some (r, length l1).
Proof.
  induction l1 as [|s l1 IH]; simpl; [by rewrite bool_decide_true|].
  intros [Hs Hl]%list.Forall_cons. rewrite bool_decide_false by done. by rewrite IH.
Qed.

Lemma replace_backend_None b bs :
  replace_backend b bs = None <-> backend_id b ∉ backend_id <$> bs.
Proof.
  induction bs as [|c bs IH]; simpl; [set_solver|]. rewrite not_elem_of_cons.
  destruct (has_id _ _ c) eqn:E.
  - apply has_id_true in E. split; [done|]. intros [H _]. unfold backend_id in *. congruence.
  - apply has_id_false in E. rewrite <- IH. unfold backend_id in *.
    destruct (replace_backend b bs); naive_solver.
Qed.

Lemma replace_backend_ids b bs bs' :
  replace_backend b bs = Some bs' -> backend_id <$> bs' = backend_id <$> bs.
Proof.
  revert bs'. induction bs as [|c bs IH]; intros bs'; simpl; [done|].
  destruct (has_id _ _ c) eqn:E.
  - apply has_id_true in E. intros [= <-]. simpl. f_equal. unfold backend_id in *. congruence.
  - destruct (replace_backend b bs); simpl; [|done]. intros [= <-]. simpl. by rewrite IH.
Qed.

(** With unique identities the replaced list holds [b] and the others. *)
Lemma replace_backend_elem b bs bs' c :
  NoDup (backend_id <$> bs) -> replace_backend b bs = Some bs' ->
  c ∈ bs' <-> if has_id (b_Name b) (b_Namespace b) c then c = b else c ∈ bs.
Proof.
  revert bs'. induction bs as [|d bs IH]; intros bs'; simpl; [done|].
  rewrite list.NoDup_cons. intros [Hd Hnd]. destruct (has_id _ _ d) eqn:E.
  - intros [= <-]. rewrite elem_of_cons. apply has_id_true in E.
    destruct (has_id _ _ c) eqn:Ec.
    + apply has_id_true in Ec. split; [|tauto]. intros [->|Hin]; [done|].
      contradict Hd. apply list_elem_of_fmap. exists c. split; [congruence|done].
    + apply has_id_false in Ec. rewrite elem_of_cons.
      split; (intros [->|?]; [|by right]); [by destruct Ec|congruence].
  - destruct (replace_backend b bs) as [bs0|]; simpl; [|done]. intros [= <-].
    rewrite elem_of_cons, (IH bs0) by done. apply has_id_false in E.
    destruct (has_id _ _ c) eqn:Ec; [|by rewrite elem_of_cons].
    split; [|tauto]. intros [->|?]; [|done]. by apply has_id_true in Ec.
Qed.

(** A route that already holds [b] is left as it is. *)
Lemma replace_backend_present b bs :
  NoDup (backend_id <$> bs) -> b ∈ bs -> replace_backend b bs = Some bs.
Proof.
  induction bs as [|d bs IH]; simpl; [by intros _ ?%elem_of_nil|].
  rewrite list.NoDup_cons. intros [Hd Hnd] Hb. destruct (has_id _ _ d) eqn:E.
  - apply has_id_true in E. apply elem_of_cons in Hb as [->|Hin]; [done|].
    contradict Hd. apply list_elem_of_fmap. exists b. by split.
  - apply elem_of_cons in Hb as [->|Hin]; [|by rewrite IH].
    apply has_id_false in E. by destruct E.
Qed.

(** ** [updateBackendInRouteWithMode] *)

Definition has_own (b c : Backend) : bool := has_id (b_Name b) (b_Namespace b) c.

(** The backends after the call, and what the call can do to the metadata. *)
Lemma update_backend_Ok route b e h d ded route' :
  updateBackendInRouteWithMode route b e h d ded = Ok route' ->
  r_Backends route' = (match replace_backend b (r_Backends route) with
                       | Some bs => bs | None => r_Backends route ++ [b] end) /\
  r_RoutingGroup route' = r_RoutingGroup route /\
  (r_Hostname route' = h \/ r_Hostname route' = r_Hostname route) /\
  (r_Header route' = e \/ r_Header route' = r_Header route) /\
  (r_Default route' = true -> d = true \/ r_Default route = true).
Proof.
  unfold updateBackendInRouteWithMode. rewrite bind_Ok. intros (r1 & H1 & H2).
  assert (r1 = set_Backends (match replace_backend b (r_Backends route) with
                             | Some bs => bs | None => r_Backends route ++ [b] end) route) as ->.
  { destruct (replace_backend b (r_Backends route)); [by simplify_eq|].
    destruct ded; [|by simplify_eq]. by destruct (r_Backends route) eqn:E; simplify_eq/=. }
  destruct (match r_Backends _ with [c] => _ | _ => _ end) in H2; simplify_eq/=.
  - naive_solver.
  - split_and!; try done; [case_bool_decide; auto.. |]. destruct d; auto.
Qed.

Lemma update_backend_name route b e h d ded route' :
  updateBackendInRouteWithMode route b e h d ded = Ok route' ->
  r_Name route' = r_Name route /\ (h <> "" -> r_Hostname route' = h).
Proof.
  unfold updateBackendInRouteWithMode. rewrite bind_Ok. intros (r1 & H1 & H2).
  assert (r_Name r1 = r_Name route) as <-.
  { destruct (replace_backend b (r_Backends route)); [by simplify_eq|].
    destruct ded; [|by simplify_eq]. by destruct (r_Backends route); simplify_eq/=. }
  destruct (match r_Backends r1 with [c] => _ | _ => _ end); simplify_eq/=; [done|].
  split; [done|]. intros Hh. by rewrite bool_decide_false.
Qed.

(** The only refusal: a dedicated group that belongs to another runtime. *)
Lemma update_backend_Err route b e h d ded err :
  updateBackendInRouteWithMode route b e h d ded = Err err <->
  ded = true /\ replace_backend b (r_Backends route) = None /\
  exists c bs, r_Backends route = c :: bs /\
    err = ExclusivityViolated (r_RoutingGroup route) (b_Namespace c) (b_Name c).
Proof.
  unfold updateBackendInRouteWithMode. destruct (replace_backend b (r_Backends route)) as [bs|]; simpl.
  - split; [|naive_solver]. by case_match.
  - destruct ded; simpl; [|split; [by case_match|naive_solver]].
    destruct (r_Backends route) as [|c bs]; simpl; [split; [by case_match|naive_solver]|].
    naive_solver.
Qed.

Lemma update_backend_elem route b e h d ded route' c :
  NoDup (backend_id <$> r_Backends route) ->
  updateBackendInRouteWithMode route b e h d ded = Ok route' ->
  c ∈ r_Backends route' <-> if has_own b c then c = b else c ∈ r_Backends route.
Proof.
  intros Hnd (-> & _)%update_backend_Ok. unfold has_own.
  destruct (replace_backend b (r_Backends route)) as [bs|] eqn:E.
  - by apply replace_backend_elem.
  - apply replace_backend_None in E. rewrite elem_of_app, list_elem_of_singleton.
    destruct (has_id _ _ c) eqn:Ec.
    + split; [|tauto]. intros [Hin|?]; [|done]. contradict E.
      apply list_elem_of_fmap. exists c. apply has_id_true in Ec. by split.
    + split; [|tauto]. intros [?| ->]; [done|]. by apply has_id_false in Ec.
Qed.

Lemma update_backend_ids route b e h d ded route' :
  NoDup (backend_id <$> r_Backends route) ->
  updateBackendInRouteWithMode route b e h d ded = Ok route' ->
  NoDup (backend_id <$> r_Backends route') /\ b ∈ r_Backends route' /\
  (forall i, i ∈ backend_id <$> r_Backends route' ->
     i = backend_id b \/ i ∈ backend_id <$> r_Backends route).
Proof.
  intros Hnd Hu. split_and!.
  - apply update_backend_Ok in Hu as (-> & _).
    destruct (replace_backend b (r_Backends route)) as [bs|] eqn:E.
    + by rewrite (replace_backend_ids _ _ _ E).
    + apply replace_backend_None in E. rewrite fmap_app. apply list.NoDup_app.
      split_and!; [done| |apply NoDup_singleton].
      intros i Hi ->%list_elem_of_singleton. by destruct E.
  - eapply update_backend_elem; [done..|]. unfold has_own.
    by rewrite (proj2 (has_id_true _ _ b) eq_refl).
  - intros i (c & -> & Hc)%list_elem_of_fmap.
    eapply update_backend_elem in Hc; [|done..].
    destruct (has_own b c); [left; congruence|right]. apply list_elem_of_fmap. eauto.
Qed.

(** Registering the same backend again does not change the route. *)
Lemma update_backend_idemp route b e h d ded route' :
  NoDup (backend_id <$> r_Backends route) ->
  updateBackendInRouteWithMode route b e h d ded = Ok route' ->
  updateBackendInRouteWithMode route' b e h d ded = Ok route'.
Proof.
  intros Hnd Hu. pose proof (update_backend_ids _ _ _ _ _ _ _ Hnd Hu) as (Hnd' & Hb & _).
  unfold updateBackendInRouteWithMode at 1.
  rewrite (replace_backend_present _ _ Hnd' Hb). simpl.
  revert Hu. unfold updateBackendInRouteWithMode. rewrite bind_Ok. intros (r1 & _ & H2).
  assert (r_Backends r1 = r_Backends route') as <-.
  { by destruct (match r_Backends r1 with [c] => _ | _ => _ end); simplify_eq. }
  destruct (match r_Backends r1 with [c] => _ | _ => _ end); simplify_eq/=; f_equal; f_equal;
    repeat case_bool_decide; try done. by destruct d.
Qed.

(** ** [register] *)

Definition other_group (rg : string) (r : RouteEntry) : bool := negb (r_RoutingGroup r ≡? rg).

Definition stripped (reg : registration) (routes : list RouteEntry) : list RouteEntry :=
  omap (strip (b_Name (reg_backend reg)) (b_Namespace (reg_backend reg))
          (other_group (reg_routingGroup reg))) routes.

Definition conflict_free (reg : registration) (r : RouteEntry) : Prop :=
  route_conflict (reg_routingGroup reg) (reg_hostname reg) (reg_header reg) (reg_default reg) r = None.

(** A successful registration puts one route in place of, or behind, the
    routes left after the removal step. *)
Lemma register_Ok reg routes routes' :
  register reg routes = Ok routes' ->
  Forall (conflict_free reg) (stripped reg routes) /\
  exists l1 route' l2, routes' = l1 ++ route' :: l2 /\ r_RoutingGroup route' = reg_routingGroup reg /\
  ((exists route, stripped reg routes = l1 ++ route :: l2 /\
      updateBackendInRouteWithMode route (reg_backend reg) (reg_header reg) (reg_hostname reg)
        (reg_default reg) (reg_dedicated reg) = Ok route') \/
   (stripped reg routes = l1 /\ l2 = [] /\
    Forall (fun r => r_RoutingGroup r <> reg_routingGroup reg) l1 /\
    route' = createRouteEntry (reg_routingGroup reg) (reg_routingGroup reg) (reg_header reg)
               (reg_hostname reg) (reg_backend reg) (reg_default reg))).
Proof.
  unfold register, removeBackendFromOtherRoutes. rewrite filterBackendFromRoutes_omap.
  fold (other_group (reg_routingGroup reg)). fold (stripped reg routes).
  rewrite bind_Ok. intros ([] & Hv & H). apply validate_Ok in Hv. split; [done|].
  destruct (findRouteByRoutingGroup _ _) as [[route i]|] eqn:Ef.
  - apply bind_Ok in H as (route' & Hu & [= <-]).
    apply find_group_Some in Ef as (Hg & l1 & l2 & Hs & ->). rewrite Hs.
    exists l1, route', l2. split_and!.
    + rewrite insert_app_r_alt by lia. by rewrite Nat.sub_diag.
    + apply update_backend_Ok in Hu as (_ & -> & _). done.
    + left. eauto.
  - injection H as <-. apply find_group_None in Ef.
    eexists (stripped reg routes), _, []. split_and!; [done..|]. right. done.
Qed.

(** The routes around the one of a group are of other groups. *)
Lemma compat_rest l1 r l2 :
  pairwise compat (l1 ++ r :: l2) ->
  Forall (fun s => r_RoutingGroup s <> r_RoutingGroup r) (l1 ++ l2).
Proof.
  intros [_ Hc]%pairwise_middle; [|apply _].
  eapply list.Forall_impl; [exact Hc|]. intros s []. congruence.
Qed.

(** A route with the registered metadata is compatible with every route that
    passed the uniqueness check. *)
Lemma conflict_free_compat reg route' s :
  conflict_free reg s -> r_RoutingGroup s <> reg_routingGroup reg ->
  r_RoutingGroup route' = reg_routingGroup reg ->
  (r_Hostname route' = reg_hostname reg \/ (host_key route' <> "" -> host_key route' <> host_key s)) ->
  (r_Header route' = reg_header reg \/ (r_Header route' <> "" -> r_Header route' <> r_Header s)) ->
  (r_Default route' = true -> reg_default reg = true \/ r_Default s = false) ->
  compat route' s.
Proof.
  unfold conflict_free. intros Hc Hg Hg' Hh He Hd.
  apply route_conflict_None in Hc as (Ch & Ce & Cd); [|done]. split.
  - congruence.
  - destruct Hh as [Hh|?]; [|done]. unfold host_key at 1 2. rewrite Hh. intros Hn. by apply not_eq_sym, Ch.
  - destruct He as [He|?]; [|done]. rewrite He. intros Hn. by apply not_eq_sym, Ce.
  - destruct (r_Default route'); [|done]. destruct Hd as [Hd| ->]; [done| |done].
    by rewrite Hd in Cd.
Qed.

Lemma stripped_wf reg routes : routes_wf routes -> routes_wf (stripped reg routes).
Proof. apply routes_wf_strip. Qed.

Lemma stripped_hosts reg routes rg b :
  hosts (stripped reg routes) rg b <->
  hosts routes rg b /\ (rg <> reg_routingGroup reg -> has_own (reg_backend reg) b = false).
Proof.
  unfold stripped. rewrite (hosts_strip _ _ _ _ (fun g => negb (g ≡? reg_routingGroup reg))) by done.
  rewrite negb_true_iff, bool_decide_eq_false. done.
Qed.

(** No route of another group holds the registered runtime. *)
Lemma stripped_other reg routes r b :
  r ∈ stripped reg routes -> r_RoutingGroup r <> reg_routingGroup reg -> b ∈ r_Backends r ->
  backend_id b <> backend_id (reg_backend reg).
Proof.
  intros Hr Hg Hb. assert (Hh : hosts (stripped reg routes) (r_RoutingGroup r) b) by (by exists r).
  apply stripped_hosts in Hh as [_ Hn]. by apply has_id_false, Hn.
Qed.

Lemma rest_ids reg routes l :
  (forall r, r ∈ l -> r ∈ stripped reg routes /\ r_RoutingGroup r <> reg_routingGroup reg) ->
  backend_id (reg_backend reg) ∉ table_ids l.
Proof.
  intros Hl (r & b & Hr & Hb & Hi)%elem_of_table_ids. destruct (Hl r Hr).
  by eapply stripped_other.
Qed.

(** Creating a route is updating one that has no backends yet. *)
Definition empty_route (rg : string) : RouteEntry := mkRoute rg rg [] "" "" false.

Lemma create_as_update rg e h b d ded :
  updateBackendInRouteWithMode (empty_route rg) b e h d ded = Ok (createRouteEntry rg rg e h b d).
Proof.
  unfold updateBackendInRouteWithMode, createRouteEntry. destruct ded; simpl;
    by rewrite (proj2 (has_id_true _ _ b) eq_refl).
Qed.

Lemma compat_empty_route rg s : r_RoutingGroup s <> rg -> compat (empty_route rg) s.
Proof. intros H. split; simpl; [congruence|done|done|done]. Qed.

(** Both branches of a registration, as an update of a route [base] of the
    table after the removal step. *)
Lemma register_base reg routes routes' :
  routes_wf routes -> register reg routes = Ok routes' ->
  exists l1 base route' l2, routes' = l1 ++ route' :: l2 /\
    r_RoutingGroup base = reg_routingGroup reg /\
    updateBackendInRouteWithMode base (reg_backend reg) (reg_header reg) (reg_hostname reg)
      (reg_default reg) (reg_dedicated reg) = Ok route' /\
    pairwise compat (l1 ++ base :: l2) /\ NoDup (table_ids (l1 ++ base :: l2)) /\
    (forall g c, hosts (l1 ++ base :: l2) g c <-> hosts (stripped reg routes) g c) /\
    (forall r, r ∈ l1 ++ l2 ->
       r ∈ stripped reg routes /\ r_RoutingGroup r <> reg_routingGroup reg /\
       conflict_free reg r /\ r_Backends r <> []).
Proof.
  intros Hwf H. pose proof (stripped_wf reg routes Hwf) as [Hc Hi Hn].
  apply register_Ok in H as (Hf & l1 & route' & l2 & -> & Hg & Hcase).
  rewrite list.Forall_forall in Hn, Hf.
  destruct Hcase as [(route & Hs & Hu) | (Hs & -> & Hrest & ->)].
  - assert (r_RoutingGroup route = reg_routingGroup reg) as Hgr
      by (apply update_backend_Ok in Hu as (_ & <- & _); done).
    exists l1, route, route', l2. rewrite <- Hs. split_and!; try done.
    intros r Hr. assert (r ∈ stripped reg routes) by (rewrite Hs; set_solver).
    split_and!; auto. rewrite Hs in Hc. apply compat_rest in Hc.
    rewrite list.Forall_forall in Hc. rewrite <- Hgr. auto.
  - exists l1, (empty_route (reg_routingGroup reg)), (createRouteEntry (reg_routingGroup reg)
      (reg_routingGroup reg) (reg_header reg) (reg_hostname reg) (reg_backend reg) (reg_default reg)), [].
    split_and!; try done.
    + apply create_as_update.
    + apply pairwise_middle; [apply _|]. rewrite app_nil_r, <- Hs. split; [done|].
      rewrite Hs. eapply list.Forall_impl; [exact Hrest|]. apply compat_empty_route.
    + rewrite table_ids_middle, app_nil_r, <- Hs. done.
    + intros g c. rewrite hosts_middle, app_nil_r, <- Hs. simpl.
      split; [|tauto]. intros [[_ []%elem_of_nil]|?]; done.
    + rewrite list.Forall_forall in Hrest. rewrite app_nil_r. intros r Hr.
      assert (r ∈ stripped reg routes) by (by rewrite Hs). auto.
Qed.

Lemma register_route_ids reg l1 base route' l2 routes :
  updateBackendInRouteWithMode base (reg_backend reg) (reg_header reg) (reg_hostname reg)
    (reg_default reg) (reg_dedicated reg) = Ok route' ->
  NoDup (table_ids (l1 ++ base :: l2)) ->
  (forall r, r ∈ l1 ++ l2 ->
     r ∈ stripped reg routes /\ r_RoutingGroup r <> reg_routingGroup reg) ->
  NoDup (table_ids (l1 ++ route' :: l2)).
Proof.
  intros Hu Hnd Hrest. rewrite table_ids_middle in Hnd |- *.
  apply list.NoDup_app in Hnd as (Hb & Hd & Hr).
  pose proof (update_backend_ids _ _ _ _ _ _ _ Hb Hu) as (Hb' & _ & Hsub).
  apply list.NoDup_app. split_and!; [done| |done].
  intros i Hi%Hsub. destruct Hi as [->|Hi]; [|auto]. by apply (rest_ids reg routes).
Qed.

Lemma register_wf reg routes routes' :
  routes_wf routes -> register reg routes = Ok routes' -> routes_wf routes'.
Proof.
  intros Hwf (l1 & base & route' & l2 & -> & Hg & Hu & Hc & Hi & _ & Hrest)%register_base; [|done].
  pose proof (update_backend_Ok _ _ _ _ _ _ _ Hu) as (_ & Hg' & Hh & He & Hd). split.
  - apply pairwise_middle in Hc as [Hc Hb]; [|apply _]. apply pairwise_middle; [apply _|].
    split; [done|]. rewrite list.Forall_forall in Hb |- *. intros s Hs.
    destruct (Hrest s Hs) as (_ & Hgs & Hcf & _). destruct (Hb s Hs) as [_ Bh Be Bd].
    apply (conflict_free_compat reg); try done; [congruence| | |].
    + destruct Hh as [?|Hh]; [by left|right]. unfold host_key in *. by rewrite Hh.
    + destruct He as [?|He]; [by left|right]. by rewrite He.
    + intros [?|Hb']%Hd; [by left|right]. by rewrite Hb' in Bd.
  - eapply register_route_ids; [done..|]. naive_solver.
  - apply list.Forall_forall. intros r Hr.
    assert (r = route' \/ r ∈ l1 ++ l2) as [->|Hr'] by set_solver; [|naive_solver].
    rewrite table_ids_middle in Hi. apply list.NoDup_app in Hi as (Hi & _).
    destruct (update_backend_ids _ _ _ _ _ _ _ Hi Hu) as (_ & Hb & _).
    intros E. rewrite E in Hb. by apply elem_of_nil in Hb.
Qed.

Lemma register_hosts reg routes routes' g c :
  routes_wf routes -> register reg routes = Ok routes' ->
  hosts routes' g c <->
  if has_own (reg_backend reg) c then g = reg_routingGroup reg /\ c = reg_backend reg
  else hosts routes g c.
Proof.
  intros Hwf (l1 & base & route' & l2 & -> & Hg & Hu & _ & Hi & Hh & Hrest)%register_base; [|done].
  specialize (Hh g c). rewrite stripped_hosts in Hh. rewrite hosts_middle in *.
  pose proof (update_backend_Ok _ _ _ _ _ _ _ Hu) as (_ & Hg' & _).
  rewrite table_ids_middle in Hi. apply list.NoDup_app in Hi as (Hi & _).
  rewrite (update_backend_elem _ _ _ _ _ _ _ c Hi Hu), Hg', Hg in *.
  assert (Hno : hosts (l1 ++ l2) g c -> has_own (reg_backend reg) c = true -> False).
  { intros (r & Hr & <- & Hc) Ho%has_id_true. destruct (Hrest r Hr) as (Hs & Hgr & _).
    by apply (stripped_other reg routes r c). }
  destruct (has_own (reg_backend reg) c); naive_solver.
Qed.

(** Removing the runtime elsewhere changes nothing once it is registered. *)
Lemma omap_strip_id name ns p routes :
  Forall (fun r => strip name ns p r = Some r) routes -> omap (strip name ns p) routes = routes.
Proof. induction 1 as [|r rs Hr _ IH]; simpl; [done|]. rewrite Hr. by f_equal. Qed.

Lemma strip_id name ns p r :
  (p r = true -> r_Backends r <> [] /\ Forall (fun b => has_id name ns b = false) (r_Backends r)) ->
  strip name ns p r = Some r.
Proof.
  unfold strip. destruct (p r); simpl; [|done]. intros [Hne Hf]; [done|].
  assert (filterb (fun b => negb (has_id name ns b)) (r_Backends r) = r_Backends r) as ->.
  { induction Hf as [|b bs Hb _ IH]; unfold filterb in *; simpl; [done|].
    rewrite Hb; simpl. f_equal. destruct bs; [done|]. by apply IH. }
  destruct r as [? ? [|] ? ? ?]; [done|]. done.
Qed.

Lemma stripped_id reg routes :
  Forall (fun r => r_RoutingGroup r <> reg_routingGroup reg -> r_Backends r <> [] /\
    Forall (fun b => has_own (reg_backend reg) b = false) (r_Backends r)) routes ->
  stripped reg routes = routes.
Proof.
  intros H. apply omap_strip_id. eapply list.Forall_impl; [exact H|]. intros r Hr.
  apply strip_id. unfold other_group. rewrite negb_true_iff, bool_decide_eq_false. done.
Qed.

Lemma register_again reg routes routes' :
  routes_wf routes -> register reg routes = Ok routes' -> register reg routes' = Ok routes'.
Proof.
  intros Hwf H. pose proof (register_wf _ _ _ Hwf H) as Hwf'.
  pose proof (fun g c => register_hosts _ _ _ g c Hwf H) as Hh.
  apply register_base in H as (l1 & base & route' & l2 & -> & Hg & Hu & _ & Hi & _ & Hrest); [|done].
  pose proof (update_backend_Ok _ _ _ _ _ _ _ Hu) as (_ & Hg' & _).
  unfold register, removeBackendFromOtherRoutes. rewrite filterBackendFromRoutes_omap.
  fold (other_group (reg_routingGroup reg)). fold (stripped reg (l1 ++ route' :: l2)).
  rewrite stripped_id.
  2:{ apply list.Forall_forall. intros r Hr Hgr. destruct Hwf' as [_ _ Hn].
      rewrite list.Forall_forall in Hn. split; [auto|]. apply list.Forall_forall. intros b Hb.
      assert (hosts (l1 ++ route' :: l2) (r_RoutingGroup r) b) as Hc by (by exists r).
      apply Hh in Hc. destruct (has_own (reg_backend reg) b); [by destruct Hc|done]. }
  rewrite (proj2 (validate_Ok _ _ _ _ _)).
  2:{ apply list.Forall_forall. intros r Hr.
      assert (r = route' \/ r ∈ l1 ++ l2) as [->|Hr'] by set_solver; [|by apply Hrest].
      unfold route_conflict. by rewrite bool_decide_true by congruence. }
  simpl. rewrite <- Hg, <- Hg', find_group_middle.
  2:{ apply list.Forall_forall. intros r Hr. rewrite Hg', Hg. apply Hrest. set_solver. }
  rewrite table_ids_middle in Hi. apply list.NoDup_app in Hi as (Hi & _).
  rewrite (update_backend_idemp _ _ _ _ _ _ _ Hi Hu). simpl. f_equal.
  rewrite insert_app_r_alt by lia. by rewrite Nat.sub_diag.
Qed.

(** ** Draining *)

Lemma drain_backend_keeps name ns u b :
  let b' := (drain_backend name ns u b).1 in
  backend_id b' = backend_id b /\ has_id name ns b' = has_id name ns b /\
  (has_id name ns b = false -> b' = b).
Proof.
  unfold drain_backend. destruct (has_id name ns b) eqn:E; simpl; [|done].
  by destruct ((_ && _) && _); simpl.
Qed.

Lemma drain_backend_same name ns u b :
  (drain_backend name ns u b).2 = false -> (drain_backend name ns u b).1 = b.
Proof. unfold drain_backend. split_tests; done. Qed.

(** A drained backend keeps its deadline when it is drained again. *)
Lemma drain_backend_again name ns u u' b :
  u <> "" -> let b' := (drain_backend name ns u b).1 in
  (drain_backend name ns u' b').2 = false /\
  (has_id name ns b = true ->
   b_State b' = StateDraining /\ b_Active b' = false /\ b_DrainUntil b' <> "").
Proof.
  intros Hu. unfold drain_backend.
  destruct (has_id name ns b) eqn:E; simpl; [|rewrite E; by split].
  destruct ((_ && _) && _) eqn:Et; simpl.
  - rewrite E, Et. simpl. split; [done|]. intros _.
    apply andb_true_iff in Et as [[Hs Ha]%andb_true_iff Hd].
    apply bool_decide_eq_true in Hs. apply negb_true_iff in Ha, Hd.
    by apply bool_decide_eq_false in Hd.
  - unfold has_id in *; simpl. rewrite E. simpl. rewrite (bool_decide_false _ Hu). done.
Qed.

Definition drain_route (name ns u : string) (r : RouteEntry) : RouteEntry :=
  set_Backends (map (fun b => (drain_backend name ns u b).1) (r_Backends r)) r.

Lemma drain_route_same name ns u r :
  existsb (fun b => (drain_backend name ns u b).2) (r_Backends r) = false ->
  drain_route name ns u r = r.
Proof.
  intros H. unfold drain_route. destruct r as [nm rg bs hd hn d]; simpl in *.
  f_equal. unfold set_Backends; simpl. f_equal.
  induction bs as [|b bs IH]; simpl in *; [done|]. apply orb_false_iff in H as [Hb H].
  rewrite IH by done. by rewrite drain_backend_same.
Qed.

Lemma drain_ids name ns u routes :
  table_ids (map (drain_route name ns u) routes) = table_ids routes.
Proof.
  unfold table_ids. induction routes as [|r rs IH]; [done|].
  rewrite map_cons, !bind_cons, !fmap_app, IH. simpl. f_equal. induction (r_Backends r) as [|b bs IHb]; [done|].
  cbn. f_equal; [apply drain_backend_keeps|exact IHb].
Qed.

Lemma compat_backends r s bs bs' :
  compat r s -> compat (set_Backends bs r) (set_Backends bs' s).
Proof. intros []. by split. Qed.

Lemma drain_compat name ns u routes :
  pairwise compat routes -> pairwise compat (map (drain_route name ns u) routes).
Proof.
  induction routes as [|r rs IH]; simpl; [done|]. intros [Hr Hrs]. split; [|auto].
  rewrite list.Forall_forall in *. intros s' (s & <- & Hs)%list_elem_of_In%in_map_iff.
  apply compat_backends, Hr. by apply list_elem_of_In.
Qed.

Lemma hosts_drain name ns u routes g c :
  hosts (map (drain_route name ns u) routes) g c <->
  exists b, hosts routes g b /\ c = (drain_backend name ns u b).1.
Proof.
  unfold hosts. setoid_rewrite list_elem_of_In. setoid_rewrite in_map_iff. split.
  - intros (r' & (r & <- & Hr) & Hg & (b & <- & Hb)%in_map_iff). eauto 10.
  - intros (b & (r & Hr & Hg & Hb) & ->). exists (drain_route name ns u r).
    split_and!; [eauto|done|]. apply in_map_iff. eauto.
Qed.

Lemma drain_eq now routes name ns d :
  exists u, u <> "" /\
  setBackendDrainingAllRoutes now routes name ns d =
  (map (drain_route name ns u) routes,
   existsb (fun r => existsb (fun b => (drain_backend name ns u b).2) (r_Backends r)) routes).
Proof.
  unfold setBackendDrainingAllRoutes. eexists. split; [|reflexivity].
  apply FormatRFC3339_nonempty.
Qed.

(** ** Properties *)

(** C2: [register] (the table update of [RegisterRoute]) keeps the table well
    formed, and in the new table the runtime is in its routing group with
    exactly the registered content and nowhere else, while the membership of
    every other runtime is what it was. *)
Theorem register_refines reg routes routes' :
  routes_wf routes -> register reg routes = Ok routes' ->
  routes_wf routes' /\
  forall g c, hosts routes' g c <->
    if has_own (reg_backend reg) c then g = reg_routingGroup reg /\ c = reg_backend reg
    else hosts routes g c.
Proof.
  intros Hwf H. split; [by eapply register_wf|]. intros g c. by apply register_hosts.
Qed.

Definition ex_backend (ns name : string) : Backend :=
  mkBackend name ns ("http://" +:+ name) StateRunning true "small" 4 "v1" "h" 1 "".

Definition ex_routes : list RouteEntry :=
  [mkRoute "pool" "pool" [ex_backend "a" "x"; ex_backend "a" "y"] "pool" "pool.example.com" true;
   mkRoute "a--z" "a--z" [ex_backend "a" "z"] "" "z.example.com" false].

Definition ex_registration : registration :=
  mkRegistration "a--x" "x.example.com" "" false true (ex_backend "a" "x").

Lemma ex_routes_wf : routes_wf ex_routes.
Proof.
  split.
  - repeat (constructor; simpl); try done.
  - vm_compute. repeat constructor; set_solver.
  - by repeat constructor.
Qed.

Lemma register_refines_witness :
  exists routes', register ex_registration ex_routes = Ok routes' /\ routes_wf routes' /\
    hosts routes' "a--x" (ex_backend "a" "x").
Proof.
  eexists. split; [vm_compute; reflexivity|].
  destruct (register_refines ex_registration ex_routes _ ex_routes_wf eq_refl) as [Hwf Hh].
  split; [exact Hwf|]. apply Hh. vm_compute. done.
Defined.

(** Registering is idempotent: registering the same runtime again leaves
    the table, and with it the ConfigMap, unchanged, so that the second call
    finds nothing to write. *)
Theorem register_idempotent reg routes routes' :
  routes_wf routes -> register reg routes = Ok routes' -> register reg routes' = Ok routes'.
Proof. apply register_again. Qed.

Lemma register_idempotent_witness :
  exists routes', register ex_registration ex_routes = Ok routes' /\
    register ex_registration routes' = Ok routes'.
Proof.
  eexists. split; [vm_compute; reflexivity|].
  apply (register_idempotent ex_registration ex_routes _ ex_routes_wf). reflexivity.
Defined.

Lemma register_Ok_iff reg routes :
  is_Ok (register reg routes) = true <->
  Forall (conflict_free reg) (stripped reg routes) /\
  match findRouteByRoutingGroup (stripped reg routes) (reg_routingGroup reg) with
  | Some (route, _) => reg_dedicated reg = true -> r_Backends route <> [] ->
      replace_backend (reg_backend reg) (r_Backends route) <> None
  | None => True
  end.
Proof.
  unfold register, removeBackendFromOtherRoutes. rewrite filterBackendFromRoutes_omap.
  fold (other_group (reg_routingGroup reg)). fold (stripped reg routes).
  assert (Hv : Forall (conflict_free reg) (stripped reg routes) <->
    validateRouteUniqueness (stripped reg routes) (reg_routingGroup reg) (reg_hostname reg)
      (reg_header reg) (reg_default reg) = Ok tt) by (symmetry; apply validate_Ok).
  rewrite Hv. clear Hv. destruct (validateRouteUniqueness _ _ _ _ _) as [[]|e]; simpl; [|naive_solver].
  destruct (findRouteByRoutingGroup _ _) as [[route i]|]; simpl; [|naive_solver].
  destruct (updateBackendInRouteWithMode _ _ _ _ _ _) as [r'|e] eqn:Eu; simpl.
  - split; [|done]. intros _. split; [done|]. intros Hd Hb Hr.
    destruct (r_Backends route) as [|c bs] eqn:Eb; [done|].
    assert (updateBackendInRouteWithMode route (reg_backend reg) (reg_header reg) (reg_hostname reg)
      (reg_default reg) (reg_dedicated reg) =
      Err (ExclusivityViolated (r_RoutingGroup route) (b_Namespace c) (b_Name c))) as Ee.
    { apply update_backend_Err. rewrite Eb. eauto 10. }
    congruence.
  - apply update_backend_Err in Eu as (Hd & Hr & c & bs & Hb & _). split; [done|].
    intros [_ H]. exfalso. by apply H; [done|rewrite Hb|].
Qed.

Lemma stripped_group_id reg routes r :
  r ∈ routes -> r_RoutingGroup r = reg_routingGroup reg -> r ∈ stripped reg routes.
Proof.
  intros Hr Hg. apply list_elem_of_omap. exists r. split; [done|]. apply strip_id.
  unfold other_group. by rewrite bool_decide_true.
Qed.

(** The dedicated-group guard in terms of the table's content. *)
Lemma exclusivity_hosts reg routes :
  routes_wf routes ->
  (match findRouteByRoutingGroup (stripped reg routes) (reg_routingGroup reg) with
   | Some (route, _) => r_Backends route <> [] ->
       replace_backend (reg_backend reg) (r_Backends route) <> None
   | None => True end) <->
  ((exists c, hosts routes (reg_routingGroup reg) c) ->
   exists c, hosts routes (reg_routingGroup reg) c /\ has_own (reg_backend reg) c = true).
Proof.
  intros Hwf. assert (Hsh : forall c, hosts (stripped reg routes) (reg_routingGroup reg) c <->
    hosts routes (reg_routingGroup reg) c) by (intros c; rewrite stripped_hosts; naive_solver).
  setoid_rewrite <- Hsh. pose proof (stripped_wf reg routes Hwf) as [Hc _ Hn].
  destruct (findRouteByRoutingGroup _ _) as [[route i]|] eqn:Ef.
  - apply find_group_Some in Ef as (Hg & l1 & l2 & Hs & _). rewrite Hs in *.
    assert (Hr : forall c, hosts (l1 ++ route :: l2) (reg_routingGroup reg) c <-> c ∈ r_Backends route).
    { intros c. rewrite hosts_middle. split; [|naive_solver]. intros [[_ ?]|(r & Hr & Hgr & _)]; [done|].
      apply compat_rest in Hc. rewrite list.Forall_forall in Hc. by destruct (Hc r Hr); congruence. }
    setoid_rewrite Hr. rewrite replace_backend_None.
    unfold has_own. setoid_rewrite has_id_true. split.
    + intros H [c Hin]. apply dec_stable in H; [|intros E; rewrite E in Hin; by apply elem_of_nil in Hin].
      apply list_elem_of_fmap in H as (d & Hd & Hin'). exists d. by rewrite <- Hd.
    + intros H Hne Hno. destruct (r_Backends route) as [|c bs]; [done|].
      destruct H as (d & Hd & Hi); [exists c; left|]. apply Hno.
      apply list_elem_of_fmap. exists d. by rewrite Hi.
  - split; [|done]. intros _ [c (r & Hr & Hg & _)]. apply find_group_None in Ef.
    rewrite list.Forall_forall in Ef. by destruct (Ef r Hr).
Qed.

(** C28: Registration is refused exactly for the two documented reasons: a
    route of another group that survives the removal of the runtime uses the
    same hostname, header or the default, or the runtime's dedicated group
    holds other runtimes and not this one. *)
Theorem register_refusal reg routes :
  routes_wf routes ->
  is_Ok (register reg routes) = true <->
  (forall r, r ∈ stripped reg routes -> r_RoutingGroup r <> reg_routingGroup reg ->
     (normalizeHostname (reg_hostname reg) <> "" ->
        host_key r <> normalizeHostname (reg_hostname reg)) /\
     (reg_header reg <> "" -> r_Header r <> reg_header reg) /\
     reg_default reg && r_Default r = false) /\
  (reg_dedicated reg = true -> (exists c, hosts routes (reg_routingGroup reg) c) ->
   exists c, hosts routes (reg_routingGroup reg) c /\ has_own (reg_backend reg) c = true).
Proof.
  intros Hwf. rewrite register_Ok_iff, <- (exclusivity_hosts reg routes Hwf), list.Forall_forall.
  apply Morphisms_Prop.and_iff_morphism; [|destruct (findRouteByRoutingGroup _ _) as [[]|]; tauto].
  split; intros H r Hr.
  - intros Hg. by apply (route_conflict_None _ _ _ _ r Hg), H.
  - destruct (decide (r_RoutingGroup r = reg_routingGroup reg)) as [Hg|Hg].
    + unfold conflict_free, route_conflict. by rewrite bool_decide_true.
    + apply (route_conflict_None _ _ _ _ r Hg), H; done.
Qed.

Lemma register_refusal_witness :
  routes_wf ex_routes /\
  ~ (exists c, hosts ex_routes "a--z" c /\ has_own (ex_backend "a" "x") c = true).
Proof.
  split; [exact ex_routes_wf|]. intros Hc.
  assert (Hr := register_refusal (mkRegistration "a--z" "" "" false true (ex_backend "a" "x"))
                  ex_routes ex_routes_wf).
  destruct Hr as [_ Hr]. discriminate Hr. split; [|intros _ _; exact Hc].
  intros r Hin%list_elem_of_In _. vm_compute in Hin. destruct Hin as [<-|[<-|[]]]; vm_compute; done.
Defined.

Lemma filterBackendFromRoutes_changed routes name ns :
  (filterBackendFromRoutes routes name ns (fun _ => true)).2 =
  existsb (fun r => existsb (has_id name ns) (r_Backends r)) routes.
Proof.
  induction routes as [|r rs IH]; simpl; [done|].
  destruct (filterBackendFromRoutes rs name ns (fun _ => true)) as [fs ch]; simpl in *; subst ch.
  by case_match.
Qed.

Lemma deregister_wf routes name ns :
  routes_wf routes -> routes_wf (removeBackendFromAllRoutes routes name ns).1.
Proof.
  unfold removeBackendFromAllRoutes. rewrite filterBackendFromRoutes_omap. apply routes_wf_strip.
Qed.

Lemma drain_wf now routes name ns d :
  routes_wf routes -> routes_wf (setBackendDrainingAllRoutes now routes name ns d).1.
Proof.
  intros [Hc Hi Hn]. destruct (drain_eq now routes name ns d) as (u & Hu & ->). simpl.
  split; [by apply drain_compat|by rewrite drain_ids|].
  rewrite list.Forall_forall in *. intros r' (r & <- & Hr)%list_elem_of_In%in_map_iff.
  apply list_elem_of_In in Hr. specialize (Hn r Hr). simpl. by destruct (r_Backends r).
Qed.

Lemma drain_state now routes name ns d g c :
  hosts (setBackendDrainingAllRoutes now routes name ns d).1 g c -> has_id name ns c = true ->
  b_State c = StateDraining /\ b_Active c = false /\ b_DrainUntil c <> "".
Proof.
  destruct (drain_eq now routes name ns d) as (u & Hu & ->). simpl.
  intros (b & Hb & ->)%hosts_drain Hid. apply (drain_backend_again name ns u u b Hu).
  by rewrite <- (proj1 (proj2 (drain_backend_keeps name ns u b))).
Qed.

(** Deregistering removes the runtime from every route and nothing else;
    the flag that decides whether the ConfigMap is written says exactly that
    the runtime was in the table, and without it the table is unchanged. *)
Theorem deregister_refines routes name ns :
  routes_wf routes ->
  let '(routes', changed) := removeBackendFromAllRoutes routes name ns in
  routes_wf routes' /\
  (forall g c, hosts routes' g c <-> hosts routes g c /\ has_id name ns c = false) /\
  (changed = true <-> exists g c, hosts routes g c /\ has_id name ns c = true) /\
  (changed = false -> routes' = routes).
Proof.
  intros Hwf. unfold removeBackendFromAllRoutes.
  pose proof (filterBackendFromRoutes_omap routes name ns (fun _ => true)) as He.
  pose proof (filterBackendFromRoutes_changed routes name ns) as Hch.
  destruct (filterBackendFromRoutes _ _ _ _) as [routes' changed]; simpl in *; subst. split_and!.
  - by apply routes_wf_strip.
  - intros g c. rewrite (hosts_strip _ _ _ _ (fun _ => true)) by done. naive_solver.
  - rewrite existsb_exists. unfold hosts. setoid_rewrite existsb_exists.
    setoid_rewrite list_elem_of_In. naive_solver.
  - rewrite existsb_false. intros Hf. apply omap_strip_id. destruct Hwf as [_ _ Hn].
    rewrite list.Forall_forall in *. intros r Hr. apply strip_id. intros _.
    split; [auto|]. by apply existsb_false, Hf.
Qed.

Lemma deregister_refines_witness :
  (removeBackendFromAllRoutes ex_routes "z" "a").2 = true /\
  length (removeBackendFromAllRoutes ex_routes "z" "a").1 = 1%nat /\
  routes_wf (removeBackendFromAllRoutes ex_routes "z" "a").1.
Proof.
  pose proof (deregister_refines ex_routes "z" "a" ex_routes_wf) as H.
  split; [reflexivity|]. split; [reflexivity|].
  destruct (removeBackendFromAllRoutes ex_routes "z" "a") as [r ch]. exact (proj1 H).
Defined.

(** Draining marks every entry of the runtime DRAINING, inactive and with
    a deadline, keeps the table well formed and every other backend as it is,
    reports a change exactly when it made one, and a second drain, at whatever
    time, changes nothing: the deadline of a running drain is never moved. *)
Theorem drain_refines now now' routes name ns d d' :
  routes_wf routes ->
  let '(routes', changed) := setBackendDrainingAllRoutes now routes name ns d in
  routes_wf routes' /\
  (forall g c, hosts routes' g c -> has_id name ns c = true ->
     b_State c = StateDraining /\ b_Active c = false /\ b_DrainUntil c <> "") /\
  (forall g c, has_id name ns c = false -> hosts routes' g c <-> hosts routes g c) /\
  (changed = false -> routes' = routes) /\
  setBackendDrainingAllRoutes now' routes' name ns d' = (routes', false).
Proof.
  intros Hwf. pose proof (drain_wf now routes name ns d Hwf) as Hwf'.
  destruct (drain_eq now routes name ns d) as (u & Hu & He). rewrite He in *.
  destruct (drain_eq now' (map (drain_route name ns u) routes) name ns d') as (u' & Hu' & ->).
  assert (Hsame : forall v l,
    existsb (fun r => existsb (fun b => (drain_backend name ns v b).2) (r_Backends r)) l = false ->
    map (drain_route name ns v) l = l).
  { intros v l. rewrite existsb_false. induction 1 as [|r l Hr _ IH]; simpl; [done|].
    by rewrite IH, drain_route_same. }
  split_and!.
  - exact Hwf'.
  - intros g c (b & Hb & ->)%hosts_drain Hid. apply (drain_backend_again name ns u u b Hu).
    by rewrite <- (proj1 (proj2 (drain_backend_keeps name ns u b))).
  - intros g c Hid. rewrite hosts_drain. split.
    + intros (b & Hb & ->). destruct (drain_backend_keeps name ns u b) as (_ & Hk & Heq).
      rewrite Hk in Hid. by rewrite Heq.
    + intros Hh. exists c. split; [done|]. by rewrite (proj2 (proj2 (drain_backend_keeps name ns u c))).
  - apply Hsame.
  - assert (Hno : existsb (fun r => existsb (fun b => (drain_backend name ns u' b).2) (r_Backends r))
              (map (drain_route name ns u) routes) = false).
    { apply existsb_false, list.Forall_forall. intros r' (r & <- & Hr)%list_elem_of_In%in_map_iff.
      apply existsb_false, list.Forall_forall. intros b' (b & <- & Hb)%list_elem_of_In%in_map_iff.
      by apply (drain_backend_again name ns u u' b Hu). }
    by rewrite Hno, Hsame.
Qed.

Lemma drain_refines_witness :
  (setBackendDrainingAllRoutes 0 ex_routes "x" "a" 0).2 = true /\
  routes_wf (setBackendDrainingAllRoutes 0 ex_routes "x" "a" 0).1.
Proof.
  pose proof (drain_refines 0 Hour ex_routes "x" "a" 0 0 ex_routes_wf) as H.
  split; [vm_compute; reflexivity|].
  destruct (setBackendDrainingAllRoutes 0 ex_routes "x" "a" 0) as [r ch]. exact (proj1 H).
Defined.

(** Two runtimes of different namespaces can have the same default group, so
    the second of them to register is refused as an intruder of the first. *)
Lemma default_group_collision :
  DefaultDedicatedRoutingGroup "a" "b--c" = DefaultDedicatedRoutingGroup "a--b" "c".
Proof. reflexivity. Qed.
