(* ===== verification/Retry.v ===== *)
(** * Retrying on Kubernetes conflicts ([internal/retry/retry.go])

    [OnConflict] and [OnConflictWithRefresh] run closures that mutate
    variables of the caller and talk to the API server.  Both are folded into
    a world [W]: a closure [func() error] is a function from the world to an
    optional error and the next world.  The Kubernetes error predicates and
    [wait.ExponentialBackoff] are libraries the code calls: the first class
    below names the operations the code uses, the second states the documented
    contract of the backoff loop. *)

From S2P Require Import Prelude GoTime.

Class KubeErrors (E : Type) := {
  IsConflict : E -> bool;
  IsNotFound : E -> bool;
  IsAlreadyExists : E -> bool;
  (** [fmt.Errorf] with a [%w] verb; the argument is the message prefix. *)
  Errorf : string -> E -> E
}.

(** Factor and jitter are numbers of hundredths. *)
Record Config := mkConfig {
  Steps : nat;
  cfg_Duration : Duration;
  Factor : Z;
  Jitter : Z;
  Cap : Duration
}.

Definition DefaultConfig : Config := mkConfig 5 (10 * Millisecond) 200 10 (1 * Second).
Definition FastConfig : Config := mkConfig 3 (5 * Millisecond) 200 10 (100 * Millisecond).
Definition SlowConfig : Config := mkConfig 10 (50 * Millisecond) 200 10 (5 * Second).

(** The contract of the backoff loop: it checks the condition until it
    returns true or an error, at most [n] times, and then reports a timeout. *)
Fixpoint poll {E St} (timeout : E) (condition : St -> result E bool * St) (n : nat) (s : St) :
    option E * St :=
  match n with
  | O => (Some timeout, s)
  | S n =>
      match condition s with
      | (Err e, s) => (Some e, s)
      | (Ok true, s) => (None, s)
      | (Ok false, s) => poll timeout condition n s
      end
  end.

(** [backoff_attempts] is the length of the schedule: at most [Steps], and
    fewer when the delay reaches [Cap] earlier. *)
Class WaitBackoff (E : Type) := {
  ErrWaitTimeout : E;
  backoff_attempts : Config -> nat;
  ExponentialBackoff : forall {St}, Config -> (St -> result E bool * St) -> St -> option E * St;
  backoff_attempts_le : forall c, (backoff_attempts c <= Steps c)%nat;
  backoff_attempts_pos : forall c, (0 < Steps c)%nat -> (0 < backoff_attempts c)%nat;
  ExponentialBackoff_poll : forall St c (condition : St -> result E bool * St) s,
    ExponentialBackoff c condition s = poll ErrWaitTimeout condition (backoff_attempts c) s
}.

Section retry.
Context {E : Type} `{KubeErrors E} `{WaitBackoff E}.
Context {W : Type} (ctx_Err : W -> option E).

(** The variables the condition closure captures. *)
Record captured := mkCaptured {
  lastErr : option E;
  nonConflictErr : option E;
  attempt : Z
}.

Definition exhausted (attempts : Z) : string :=
  "exhausted retries after " +:+ fmt_d attempts +:+ " attempts: ".

(** What both functions do once the backoff loop has returned. *)
Definition retry_outcome (err : option E) (s : captured * W) : option E * W :=
  let '(st, w) := s in
  match err with
  | None => (None, w)
  | Some err =>
      match nonConflictErr st with
      | Some e => (Some e, w)
      | None =>
          match ctx_Err w with
          | Some c => (Some (Errorf "context canceled: " c), w)
          | None =>
              match lastErr st with
              | Some e => (Some (Errorf (exhausted (attempt st)) e), w)
              | None => (Some err, w)
              end
          end
      end
  end.

(** The part of the condition after the call of [fn] or [modifyFn]. *)
Definition after_call (err : option E) (st : captured) (w : W) : result E bool * (captured * W) :=
  match err with
  | None => (Ok true, (st, w))
  | Some e =>
      if negb (IsConflict e) then (Err e, (mkCaptured (lastErr st) (Some e) (attempt st), w)) else
      let st := mkCaptured (Some e) (nonConflictErr st) (attempt st) in
      match ctx_Err w with
      | Some c => (Err (Errorf "context canceled: " c), (st, w))
      | None => (Ok false, (st, w))
      end
  end.

Definition count_attempt (st : captured) : captured :=
  mkCaptured (lastErr st) (nonConflictErr st) (int_add (attempt st) 1).

Definition OnConflict_condition (fn : W -> option E * W) (s : captured * W) :
    result E bool * (captured * W) :=
  let '(st, w) := s in
  let st := count_attempt st in
  let '(err, w) := fn w in
  after_call err st w.

Definition OnConflict (config : Config) (fn : W -> option E * W) (w : W) : option E * W :=
  let '(err, s) := ExponentialBackoff config (OnConflict_condition fn) (mkCaptured None None 0, w) in
  retry_outcome err s.

Definition OnConflictWithRefresh_condition (refreshFn modifyFn : W -> option E * W)
    (s : captured * W) : result E bool * (captured * W) :=
  let '(st, w) := s in
  let st := count_attempt st in
  match (if 1 <? attempt st then ctx_Err w else None) with
  | Some c => (Err (Errorf "context canceled: " c), (st, w))
  | None =>
      match refreshFn w with
      | (Some e, w) => (Err (Errorf "failed to refresh object: " e), (st, w))
      | (None, w) => let '(err, w) := modifyFn w in after_call err st w
      end
  end.

Definition OnConflictWithRefresh (config : Config) (refreshFn modifyFn : W -> option E * W) (w : W) :
    option E * W :=
  let '(err, s) := ExponentialBackoff config
    (OnConflictWithRefresh_condition refreshFn modifyFn) (mkCaptured None None 0, w) in
  retry_outcome err s.

(** ** Rules for clients

    [I] holds between attempts and after a failure, [Q] after a success. *)

Lemma retry_outcome_err err s : (retry_outcome err s).1 = None <-> err = None.
Proof.
  destruct s as [st w], err as [e|]; simpl; [|done].
  destruct (nonConflictErr st), (ctx_Err w), (lastErr st); done.
Qed.

Lemma retry_outcome_world err s : (retry_outcome err s).2 = s.2.
Proof.
  destruct s as [st w], err as [e|]; simpl; [|done].
  destruct (nonConflictErr st), (ctx_Err w), (lastErr st); done.
Qed.

Lemma poll_rule {St} timeout (condition : St -> result E bool * St) (I Q : St -> Prop) n s :
  (forall s, I s -> match condition s with (Ok true, s') => Q s' | (_, s') => I s' end) ->
  I s -> match poll timeout condition n s with (None, s') => Q s' | (Some _, s') => I s' end.
Proof.
  intros Hc. revert s. induction n as [|n IH]; intros s Hs; simpl; [done|].
  specialize (Hc s Hs). destruct (condition s) as [[[]|e] s']; [exact Hc|by apply IH|exact Hc].
Qed.

Lemma after_call_cases err st w :
  match err with
  | None => after_call err st w = (Ok true, (st, w))
  | Some _ => exists r st', after_call err st w = (r, (st', w)) /\ r <> Ok true
  end.
Proof.
  destruct err as [e|]; simpl; [|done]. destruct (IsConflict e); simpl; [|eauto].
  destruct (ctx_Err w); eauto.
Qed.

Lemma OnConflict_condition_rule fn (I Q : W -> Prop) s :
  (forall w, I w -> match fn w with (None, w1) => Q w1 | (Some _, w1) => I w1 end) ->
  I s.2 ->
  match OnConflict_condition fn s with (Ok true, s') => Q s'.2 | (_, s') => I s'.2 end.
Proof.
  destruct s as [st w]. intros Hstep Hw. simpl. specialize (Hstep w Hw).
  destruct (fn w) as [er w2]. pose proof (after_call_cases er (count_attempt st) w2) as Ha.
  destruct er; [|by rewrite Ha].
  destruct Ha as (r & st' & -> & Hr). by destruct r as [[]|].
Qed.

Lemma refresh_condition_rule refreshFn modifyFn (I Q : W -> Prop) s :
  (forall w, I w ->
     match refreshFn w with
     | (Some _, w1) => I w1
     | (None, w1) => match modifyFn w1 with (None, w2) => Q w2 | (Some _, w2) => I w2 end
     end) ->
  I s.2 ->
  match OnConflictWithRefresh_condition refreshFn modifyFn s with
  | (Ok true, s') => Q s'.2 | (_, s') => I s'.2
  end.
Proof.
  destruct s as [st w]. intros Hstep Hw. unfold OnConflictWithRefresh_condition.
  destruct (if _ <? _ then _ else _); [done|]. specialize (Hstep w Hw).
  destruct (refreshFn w) as [[e|] w1]; [done|]. destruct (modifyFn w1) as [er w2].
  pose proof (after_call_cases er (count_attempt st) w2) as Ha.
  destruct er; [|by rewrite Ha].
  destruct Ha as (r & st' & -> & Hr). by destruct r as [[]|].
Qed.

Lemma retry_rule config condition (I Q : W -> Prop) w :
  (forall s, I s.2 -> match condition s with (Ok true, s') => Q s'.2 | (_, s') => I s'.2 end) ->
  I w ->
  match (let '(err, s) := ExponentialBackoff config condition (mkCaptured None None 0, w) in
         retry_outcome err s) with
  | (None, w') => Q w' | (Some _, w') => I w'
  end.
Proof.
  intros Hc Hw. rewrite ExponentialBackoff_poll.
  pose proof (poll_rule ErrWaitTimeout condition (fun s => I s.2) (fun s => Q s.2)
    (backoff_attempts config) (mkCaptured None None 0, w) Hc Hw) as Hp.
  destruct (poll _ _ _ _) as [err s].
  pose proof (retry_outcome_err err s) as He. pose proof (retry_outcome_world err s) as Hs.
  destruct (retry_outcome err s) as [r w']; simpl in *. subst w'.
  destruct r, err; naive_solver.
Qed.

Lemma OnConflictWithRefresh_rule config refreshFn modifyFn (I Q : W -> Prop) w :
  (forall w, I w ->
     match refreshFn w with
     | (Some _, w1) => I w1
     | (None, w1) => match modifyFn w1 with (None, w2) => Q w2 | (Some _, w2) => I w2 end
     end) ->
  I w ->
  match OnConflictWithRefresh config refreshFn modifyFn w with
  | (None, w') => Q w' | (Some _, w') => I w'
  end.
Proof. intros Hstep. apply retry_rule. intros s. by apply refresh_condition_rule. Qed.

(** ** The calls a retry makes

    [calls fn w outs w'] says that calling [fn] repeatedly from [w] gave the
    results [outs] and ended in [w']. *)
Inductive calls (fn : W -> option E * W) : W -> list (option E) -> W -> Prop :=
| calls_nil w : calls fn w [] w
| calls_cons w r w1 rs w' : fn w = (r, w1) -> calls fn w1 rs w' -> calls fn w (r :: rs) w'.

Definition is_conflict (r : option E) : Prop :=
  match r with Some e => IsConflict e = true | None => False end.

Lemma calls_one fn w r w' : fn w = (r, w') -> calls fn w [r] w'.
Proof. intros Hf. eapply calls_cons; [exact Hf|constructor]. Qed.

(** The loop of [OnConflict] over [n] attempts, from any captured state. *)
Lemma OnConflict_poll fn n st w :
  nonConflictErr st = None ->
  match poll ErrWaitTimeout (OnConflict_condition fn) (S n) (st, w) with
  | (err, (st', w')) => exists pre last,
      calls fn w (pre ++ [last]) w' /\ (length pre <= n)%nat /\ Forall is_conflict pre /\
      match last with
      | None => err = None
      | Some e => err <> None /\
          (if IsConflict e then nonConflictErr st' = None /\ lastErr st' = Some e /\
             (ctx_Err w' = None -> length pre = n)
           else nonConflictErr st' = Some e)
      end
  end.
Proof.
  revert st w. induction n as [|n IH]; intros st w Hst.
  all: simpl poll; destruct (fn w) as [[e|] w1] eqn:Ef; simpl;
    [|exists [], None; split_and!; simpl; [by apply calls_one|lia|constructor|done]].
  all: unfold after_call; destruct (IsConflict e) eqn:Ec; simpl;
    [|exists [], (Some e); rewrite Ec; split_and!; simpl; [by apply calls_one|lia|constructor|done..]].
  all: destruct (ctx_Err w1) eqn:Ex;
    [exists [], (Some e); rewrite Ec; split_and!; simpl;
       [by apply calls_one|lia|constructor|done..|congruence]|].
  - exists [], (Some e). rewrite Ec. split_and!; simpl; [by apply calls_one|lia|constructor|done..].
  - specialize (IH (mkCaptured (Some e) (nonConflictErr st) (int_add (attempt st) 1)) w1 Hst).
    simpl in IH. destruct (match OnConflict_condition _ _ with _ => _ end) as [err [st' w']] in IH |- *.
    destruct IH as (pre & last & Hcalls & Hlen & Hpre & Hlast).
    exists (Some e :: pre), last. simpl. split_and!.
    + by eapply calls_cons.
    + lia.
    + by constructor.
    + destruct last as [e'|]; [|done]. destruct Hlast as [? Hlast]. split; [done|].
      destruct (IsConflict e'); [|done]. destruct Hlast as (Hn & Hle & Hl). split_and!; [done..|]. intros Hx. by rewrite (Hl Hx).
Qed.


(** [OnConflict] calls the function at least once and at most [Steps]
    times; every call but the last returned a conflict; it succeeds exactly when
    the last call did, returns a non-conflict error as it is, and gives up on a
    conflict only when the schedule is used up or the context is done. *)
Theorem OnConflict_retries config fn w :
  (0 < Steps config)%nat ->
  match OnConflict config fn w with
  | (r, w') => exists pre last,
      calls fn w (pre ++ [last]) w' /\ (length (pre ++ [last]) <= Steps config)%nat /\
      Forall is_conflict pre /\
      match last with
      | None => r = None
      | Some e => if IsConflict e
                  then exists msg c, r = Some (Errorf msg c) /\
                    (ctx_Err w' = None -> c = e /\ length (pre ++ [last]) = backoff_attempts config)
                  else r = Some e
      end
  end.
Proof.
  intros Hsteps. unfold OnConflict. rewrite ExponentialBackoff_poll.
  pose proof (backoff_attempts_pos config Hsteps). pose proof (backoff_attempts_le config).
  destruct (backoff_attempts config) as [|n]; [lia|].
  pose proof (OnConflict_poll fn n (mkCaptured None None 0) w eq_refl) as Hp.
  destruct (poll _ _ _ _) as [err [st' w']].
  destruct Hp as (pre & last & Hcalls & Hlen & Hpre & Hlast).
  destruct (retry_outcome err (st', w')) as [r w2] eqn:Er.
  pose proof (retry_outcome_world err (st', w')) as Hw2. rewrite Er in Hw2. simpl in Hw2. subst w2.
  exists pre, last. rewrite length_app. simpl. split_and!; [done|lia|done|].
  destruct last as [e|]; [|subst err; by simplify_eq/=].
  destruct Hlast as [Herr Hl]. destruct err as [err|]; [|done]. simpl in Er.
  destruct (IsConflict e); [|rewrite Hl in Er; by simplify_eq].
  destruct Hl as (Hn & Hle & Hx). rewrite Hn, Hle in Er.
  destruct (ctx_Err w'); simplify_eq; eexists _, _; (split; [done|]); [done|].
  intros Hc. split; [done|]. rewrite (Hx Hc). lia.
Qed.

(** When an attempt ends in a conflict and the refresh before the next
    attempt fails, the caller is told that the retries were exhausted on the
    conflict: the refresh error itself is lost. *)
Theorem refresh_error_masked config refreshFn modifyFn w w1 w2 w3 conflict e :
  (2 <= backoff_attempts config)%nat ->
  refreshFn w = (None, w1) -> modifyFn w1 = (Some conflict, w2) -> IsConflict conflict = true ->
  refreshFn w2 = (Some e, w3) -> ctx_Err w2 = None -> ctx_Err w3 = None ->
  OnConflictWithRefresh config refreshFn modifyFn w = (Some (Errorf (exhausted 2) conflict), w3).
Proof.
  intros Hn H1 H2 Hc H3 Hx2 Hx3. unfold OnConflictWithRefresh. rewrite ExponentialBackoff_poll.
  destruct (backoff_attempts config) as [|[|n]]; [lia..|]. simpl poll.
  rewrite H1, H2. simpl. rewrite Hc. simpl. rewrite Hx2. simpl. rewrite Hx2, H3. simpl.
  by rewrite Hx3.
Qed.

End retry.

(** ** A concrete error type and schedule *)

Inductive kube_error :=
| KConflict | KNotFound | KAlreadyExists | KTimeout | KOther (msg : string)
| KWrap (msg : string) (e : kube_error).

#[export] Instance kube_error_eq_dec : EqDecision kube_error.
Proof. solve_decision. Defined.

Fixpoint kube_root (e : kube_error) : kube_error :=
  match e with KWrap _ e => kube_root e | e => e end.

#[export] Instance kube_errors : KubeErrors kube_error := {
  IsConflict := fun e => kube_root e ≡? KConflict;
  IsNotFound := fun e => kube_root e ≡? KNotFound;
  IsAlreadyExists := fun e => kube_root e ≡? KAlreadyExists;
  Errorf := KWrap
}.

#[export] Program Instance steps_backoff : WaitBackoff kube_error := {
  ErrWaitTimeout := KTimeout;
  backoff_attempts := Steps;
  ExponentialBackoff := fun _ c cond s => poll KTimeout cond (Steps c) s
}.
Solve All Obligations with auto.

(** A function that meets two conflicts and then succeeds; the world counts
    the calls. *)
Definition two_conflicts (w : nat) : option kube_error * nat :=
  (if (w <? 2)%nat then Some (KWrap "update: " KConflict) else None, S w).

Lemma OnConflict_retries_witness :
  OnConflict (fun _ => None) DefaultConfig two_conflicts 0%nat = (None, 3%nat) /\
  exists pre last, calls two_conflicts 0%nat (pre ++ [last]) 3%nat /\ (length (pre ++ [last]) <= 5)%nat.
Proof.
  split; [reflexivity|].
  pose proof (OnConflict_retries (fun _ : nat => None) DefaultConfig two_conflicts 0%nat) as H.
  destruct H as (pre & last & Hc & Hl & _); [simpl; lia|]. by exists pre, last.
Defined.

Lemma refresh_error_masked_witness :
  OnConflictWithRefresh (fun _ : nat => None) DefaultConfig
    (fun w => (if (w =? 1)%nat then Some KNotFound else None, w))
    (fun w => (Some KConflict, S w)) 0%nat
  = (Some (KWrap (exhausted 2) KConflict), 1%nat).
Proof.
  refine (refresh_error_masked (fun _ : nat => None) DefaultConfig _ _ 0%nat 0%nat 1%nat 1%nat
    KConflict KNotFound _ eq_refl eq_refl eq_refl eq_refl eq_refl eq_refl).
  vm_compute. lia.
Defined.
