(* ===== verification/CatalogTypes.v ===== *)
(** * Catalog resources ([api/v1/xtrinodecatalog_types.go])

    A catalog names one connector and its settings.  The API type is a record
    with one optional field per connector; [Connector] is the union it means, and
    [one_connector] relates the two. *)

From S2P Require Import Prelude GoStrings GoTime GoParse.

(** [corev1.SecretKeySelector] *)
Record SecretKeySelector := mkSecretKey {
  sk_Name : string;
  sk_Key : string;
  sk_Optional : option bool
}.

(** Properties a connector takes from Secrets, by property name. *)
Notation PropertySecretRefs := (gmap string SecretKeySelector).
Notation Properties := (gmap string string).

(** ** Connector settings *)

(** The database connectors share one form. *)
Record JDBCSpec := mkJDBC {
  jdbc_PropertySecretRefs : PropertySecretRefs;
  jdbc_ConnectionURL : string;
  jdbc_ConnectionUser : string;
  jdbc_ConnectionPasswordSecret : option SecretKeySelector;
  jdbc_Properties : Properties
}.

(** So do those without settings of their own. *)
Record PlainSpec := mkPlain {
  pl_PropertySecretRefs : PropertySecretRefs;
  pl_Properties : Properties
}.

Record BigQueryCatalogSpec := mkBigQuery {
  bq_PropertySecretRefs : PropertySecretRefs;
  bq_ProjectID : string;
  bq_ParentProjectID : string;
  bq_CredentialsFile : string;
  bq_Properties : Properties
}.
Definition BlackHoleCatalogSpec : Type := PlainSpec.
Record CassandraCatalogSpec := mkCassandra {
  cas_PropertySecretRefs : PropertySecretRefs;
  cas_ContactPoints : string;
  cas_Port : Z;
  cas_Properties : Properties
}.
Definition ClickHouseCatalogSpec : Type := JDBCSpec.
Record DeltaLakeCatalogSpec := mkDeltaLake {
  dl_PropertySecretRefs : PropertySecretRefs;
  dl_CatalogType : string;
  dl_WarehouseURI : string;
  dl_Properties : Properties
}.
Record DruidCatalogSpec := mkDruid {
  dr_PropertySecretRefs : PropertySecretRefs;
  dr_BrokerURL : string;
  dr_Properties : Properties
}.
Record DuckDBCatalogSpec := mkDuckDB {
  dd_PropertySecretRefs : PropertySecretRefs;
  dd_DatabasePath : string;
  dd_Properties : Properties
}.
Record ElasticsearchCatalogSpec := mkElasticsearch {
  els_PropertySecretRefs : PropertySecretRefs;
  els_Host : string;
  els_Port : Z;
  els_DefaultSchema : string;
  els_Properties : Properties
}.
Definition ExasolCatalogSpec : Type := JDBCSpec.
Record FakerCatalogSpec := mkFaker {
  fk_PropertySecretRefs : PropertySecretRefs;
  fk_DefaultLimit : Z;
  fk_NullProbability : float64;
  fk_Properties : Properties
}.
Record GoogleSheetsCatalogSpec := mkGoogleSheets {
  gs_PropertySecretRefs : PropertySecretRefs;
  gs_CredentialsFilePath : string;
  gs_MetadataSheetID : string;
  gs_Properties : Properties
}.
Record HiveCatalogSpec := mkHive {
  hv_PropertySecretRefs : PropertySecretRefs;
  hv_MetastoreURI : string;
  hv_S3Endpoint : string;
  hv_S3AccessKeySecret : option SecretKeySelector;
  hv_S3SecretKeySecret : option SecretKeySelector;
  hv_Properties : Properties
}.
Record HudiCatalogSpec := mkHudi {
  hu_PropertySecretRefs : PropertySecretRefs;
  hu_MetastoreURI : string;
  hu_Properties : Properties
}.
Record IcebergCatalogSpec := mkIceberg {
  ic_PropertySecretRefs : PropertySecretRefs;
  ic_CatalogType : string;
  ic_WarehouseURI : string;
  ic_Properties : Properties
}.
Definition IgniteCatalogSpec : Type := JDBCSpec.
Definition JMXCatalogSpec : Type := PlainSpec.
Record KafkaCatalogSpec := mkKafka {
  kf_PropertySecretRefs : PropertySecretRefs;
  kf_KafkaNodes : list string;
  kf_Properties : Properties
}.
Record LakehouseCatalogSpec := mkLakehouse {
  lh_PropertySecretRefs : PropertySecretRefs;
  lh_CatalogType : string;
  lh_MetastoreURI : string;
  lh_Properties : Properties
}.
Record LokiCatalogSpec := mkLoki {
  lk_PropertySecretRefs : PropertySecretRefs;
  lk_URI : string;
  lk_Properties : Properties
}.
Definition MariaDBCatalogSpec : Type := JDBCSpec.
Record MemoryCatalogSpec := mkMemory {
  mm_PropertySecretRefs : PropertySecretRefs;
  mm_MaxDataPerNode : string;
  mm_Properties : Properties
}.
Record MongoDBCatalogSpec := mkMongoDB {
  mo_PropertySecretRefs : PropertySecretRefs;
  mo_ConnectionURI : string;
  mo_Properties : Properties
}.
Definition MySQLCatalogSpec : Type := JDBCSpec.
Record OpenSearchCatalogSpec := mkOpenSearch {
  os_PropertySecretRefs : PropertySecretRefs;
  os_Host : string;
  os_Port : Z;
  os_DefaultSchema : string;
  os_Properties : Properties
}.
Definition OracleCatalogSpec : Type := JDBCSpec.
Record PinotCatalogSpec := mkPinot {
  pi_PropertySecretRefs : PropertySecretRefs;
  pi_ControllerURLs : string;
  pi_Properties : Properties
}.
Definition PostgresCatalogSpec : Type := JDBCSpec.
Record PrometheusCatalogSpec := mkPrometheus {
  pr_PropertySecretRefs : PropertySecretRefs;
  pr_URI : string;
  pr_Properties : Properties
}.
Record RedisCatalogSpec := mkRedis {
  rd_PropertySecretRefs : PropertySecretRefs;
  rd_Nodes : string;
  rd_Database : Z;
  rd_Properties : Properties
}.
Definition RedshiftCatalogSpec : Type := JDBCSpec.
Definition SingleStoreCatalogSpec : Type := JDBCSpec.
Record SnowflakeCatalogSpec := mkSnowflake {
  sf_PropertySecretRefs : PropertySecretRefs;
  sf_AccountURL : string;
  sf_User : string;
  sf_Database : string;
  sf_Role : string;
  sf_Warehouse : string;
  sf_PasswordSecret : option SecretKeySelector;
  sf_Properties : Properties
}.
Definition SQLServerCatalogSpec : Type := JDBCSpec.
Definition SystemCatalogSpec : Type := PlainSpec.
Record ThriftCatalogSpec := mkThrift {
  th_PropertySecretRefs : PropertySecretRefs;
  th_Host : string;
  th_Port : Z;
  th_Properties : Properties
}.
Definition TPCDSCatalogSpec : Type := PlainSpec.
Definition TPCHCatalogSpec : Type := PlainSpec.
Definition VerticaCatalogSpec : Type := JDBCSpec.
Record CustomCatalogSpec := mkCustom {
  cu_PropertySecretRefs : PropertySecretRefs;
  cu_ConnectorName : string;
  cu_Properties : Properties
}.

(** ** The connector of a catalog *)

Record XTrinodeCatalogConnector := mkConnector {
  c_BigQuery : option BigQueryCatalogSpec;
  c_BlackHole : option BlackHoleCatalogSpec;
  c_Cassandra : option CassandraCatalogSpec;
  c_ClickHouse : option ClickHouseCatalogSpec;
  c_DeltaLake : option DeltaLakeCatalogSpec;
  c_Druid : option DruidCatalogSpec;
  c_DuckDB : option DuckDBCatalogSpec;
  c_Elasticsearch : option ElasticsearchCatalogSpec;
  c_Exasol : option ExasolCatalogSpec;
  c_Faker : option FakerCatalogSpec;
  c_GoogleSheets : option GoogleSheetsCatalogSpec;
  c_Hive : option HiveCatalogSpec;
  c_Hudi : option HudiCatalogSpec;
  c_Iceberg : option IcebergCatalogSpec;
  c_Ignite : option IgniteCatalogSpec;
  c_JMX : option JMXCatalogSpec;
  c_Kafka : option KafkaCatalogSpec;
  c_Lakehouse : option LakehouseCatalogSpec;
  c_Loki : option LokiCatalogSpec;
  c_MariaDB : option MariaDBCatalogSpec;
  c_Memory : option MemoryCatalogSpec;
  c_MongoDB : option MongoDBCatalogSpec;
  c_MySQL : option MySQLCatalogSpec;
  c_OpenSearch : option OpenSearchCatalogSpec;
  c_Oracle : option OracleCatalogSpec;
  c_Pinot : option PinotCatalogSpec;
  c_Postgres : option PostgresCatalogSpec;
  c_Prometheus : option PrometheusCatalogSpec;
  c_Redis : option RedisCatalogSpec;
  c_Redshift : option RedshiftCatalogSpec;
  c_SingleStore : option SingleStoreCatalogSpec;
  c_Snowflake : option SnowflakeCatalogSpec;
  c_SQLServer : option SQLServerCatalogSpec;
  c_System : option SystemCatalogSpec;
  c_Thrift : option ThriftCatalogSpec;
  c_TPCDS : option TPCDSCatalogSpec;
  c_TPCH : option TPCHCatalogSpec;
  c_Vertica : option VerticaCatalogSpec;
  c_Custom : option CustomCatalogSpec
}.

Record XTrinodeCatalogStatus := mkCatalogStatus {
  cs_Phase : string;
  cs_Message : string;
  cs_ConfigMapName : string;
  cs_LastUpdated : option Time
}.

Record XTrinodeCatalog := mkCatalog {
  cat_Name : string;
  cat_Namespace : string;
  cat_Connector : XTrinodeCatalogConnector;
  cat_Labels : gmap string string;
  cat_Status : XTrinodeCatalogStatus
}.

Definition is_set {A} (o : option A) : bool := match o with Some _ => true | None => false end.

(** The names of the fields that are set ([catalogConnectorFields] of
    [xtrinodecatalog_webhook.go]). *)
Definition connector_fields (c : XTrinodeCatalogConnector) : list (string * bool) :=
  [("bigQuery", is_set (c_BigQuery c));
   ("blackHole", is_set (c_BlackHole c));
   ("cassandra", is_set (c_Cassandra c));
   ("clickHouse", is_set (c_ClickHouse c));
   ("deltaLake", is_set (c_DeltaLake c));
   ("druid", is_set (c_Druid c));
   ("duckDB", is_set (c_DuckDB c));
   ("elasticsearch", is_set (c_Elasticsearch c));
   ("exasol", is_set (c_Exasol c));
   ("faker", is_set (c_Faker c));
   ("googleSheets", is_set (c_GoogleSheets c));
   ("hive", is_set (c_Hive c));
   ("hudi", is_set (c_Hudi c));
   ("iceberg", is_set (c_Iceberg c));
   ("ignite", is_set (c_Ignite c));
   ("jmx", is_set (c_JMX c));
   ("kafka", is_set (c_Kafka c));
   ("lakehouse", is_set (c_Lakehouse c));
   ("loki", is_set (c_Loki c));
   ("mariaDB", is_set (c_MariaDB c));
   ("memory", is_set (c_Memory c));
   ("mongodb", is_set (c_MongoDB c));
   ("mysql", is_set (c_MySQL c));
   ("openSearch", is_set (c_OpenSearch c));
   ("oracle", is_set (c_Oracle c));
   ("pinot", is_set (c_Pinot c));
   ("postgres", is_set (c_Postgres c));
   ("prometheus", is_set (c_Prometheus c));
   ("redis", is_set (c_Redis c));
   ("redshift", is_set (c_Redshift c));
   ("singleStore", is_set (c_SingleStore c));
   ("snowflake", is_set (c_Snowflake c));
   ("sqlServer", is_set (c_SQLServer c));
   ("system", is_set (c_System c));
   ("thrift", is_set (c_Thrift c));
   ("tpcds", is_set (c_TPCDS c));
   ("tpch", is_set (c_TPCH c));
   ("vertica", is_set (c_Vertica c));
   ("custom", is_set (c_Custom c))].

Definition set_names (l : list (string * bool)) : list string := fst <$> filter (fun f => f.2 = true) l.

Definition catalogConnectorFields (c : XTrinodeCatalogConnector) : list string := set_names (connector_fields c).

(** The first field of a [switch] over the fields that is set. *)
Fixpoint first_some {A} (l : list (option A)) : option A :=
  match l with
  | [] => None
  | Some a :: _ => Some a
  | None :: l => first_some l
  end.

(** [GenericPropertySecretRefs] of [xtrinodecatalog_property_secret_refs.go] *)
Definition GenericPropertySecretRefs (c : XTrinodeCatalogConnector) : PropertySecretRefs :=
  default ∅ (first_some
    [bq_PropertySecretRefs <$> c_BigQuery c;
     pl_PropertySecretRefs <$> c_BlackHole c;
     cas_PropertySecretRefs <$> c_Cassandra c;
     jdbc_PropertySecretRefs <$> c_ClickHouse c;
     cu_PropertySecretRefs <$> c_Custom c;
     dl_PropertySecretRefs <$> c_DeltaLake c;
     dr_PropertySecretRefs <$> c_Druid c;
     dd_PropertySecretRefs <$> c_DuckDB c;
     els_PropertySecretRefs <$> c_Elasticsearch c;
     jdbc_PropertySecretRefs <$> c_Exasol c;
     fk_PropertySecretRefs <$> c_Faker c;
     gs_PropertySecretRefs <$> c_GoogleSheets c;
     hv_PropertySecretRefs <$> c_Hive c;
     hu_PropertySecretRefs <$> c_Hudi c;
     ic_PropertySecretRefs <$> c_Iceberg c;
     jdbc_PropertySecretRefs <$> c_Ignite c;
     pl_PropertySecretRefs <$> c_JMX c;
     kf_PropertySecretRefs <$> c_Kafka c;
     lh_PropertySecretRefs <$> c_Lakehouse c;
     lk_PropertySecretRefs <$> c_Loki c;
     jdbc_PropertySecretRefs <$> c_MariaDB c;
     mm_PropertySecretRefs <$> c_Memory c;
     mo_PropertySecretRefs <$> c_MongoDB c;
     jdbc_PropertySecretRefs <$> c_MySQL c;
     os_PropertySecretRefs <$> c_OpenSearch c;
     jdbc_PropertySecretRefs <$> c_Oracle c;
     pi_PropertySecretRefs <$> c_Pinot c;
     jdbc_PropertySecretRefs <$> c_Postgres c;
     pr_PropertySecretRefs <$> c_Prometheus c;
     rd_PropertySecretRefs <$> c_Redis c;
     jdbc_PropertySecretRefs <$> c_Redshift c;
     jdbc_PropertySecretRefs <$> c_SingleStore c;
     sf_PropertySecretRefs <$> c_Snowflake c;
     jdbc_PropertySecretRefs <$> c_SQLServer c;
     pl_PropertySecretRefs <$> c_System c;
     th_PropertySecretRefs <$> c_Thrift c;
     pl_PropertySecretRefs <$> c_TPCDS c;
     pl_PropertySecretRefs <$> c_TPCH c;
     jdbc_PropertySecretRefs <$> c_Vertica c]).

Definition CatalogConfigMapPrefix : string := "trino-catalog-".

(** ** Names of environment variables *)

Definition underscore_byte (c : ascii) : ascii := if (c ≡? "."%char) || (c ≡? "-"%char) then "_"%char else c.

Definition calculateEnvVarName (catalogName propertyName : string) : string :=
  let catalogName := map_bytes underscore_byte (TrimPrefix catalogName CatalogConfigMapPrefix) in
  let propertyName := map_bytes underscore_byte propertyName in
  "CATALOG_" +:+ ToUpper catalogName +:+ "_" +:+ ToUpper propertyName.

(** The text Trino replaces by the value of the variable. *)
Definition env_ref (catalogName propertyName : string) : string :=
  "${ENV:" +:+ calculateEnvVarName catalogName propertyName +:+ "}".

(** ** The union *)

Inductive Connector :=
| ABigQuery (s : BigQueryCatalogSpec)
| ABlackHole (s : BlackHoleCatalogSpec)
| ACassandra (s : CassandraCatalogSpec)
| AClickHouse (s : ClickHouseCatalogSpec)
| ADeltaLake (s : DeltaLakeCatalogSpec)
| ADruid (s : DruidCatalogSpec)
| ADuckDB (s : DuckDBCatalogSpec)
| AElasticsearch (s : ElasticsearchCatalogSpec)
| AExasol (s : ExasolCatalogSpec)
| AFaker (s : FakerCatalogSpec)
| AGoogleSheets (s : GoogleSheetsCatalogSpec)
| AHive (s : HiveCatalogSpec)
| AHudi (s : HudiCatalogSpec)
| AIceberg (s : IcebergCatalogSpec)
| AIgnite (s : IgniteCatalogSpec)
| AJMX (s : JMXCatalogSpec)
| AKafka (s : KafkaCatalogSpec)
| ALakehouse (s : LakehouseCatalogSpec)
| ALoki (s : LokiCatalogSpec)
| AMariaDB (s : MariaDBCatalogSpec)
| AMemory (s : MemoryCatalogSpec)
| AMongoDB (s : MongoDBCatalogSpec)
| AMySQL (s : MySQLCatalogSpec)
| AOpenSearch (s : OpenSearchCatalogSpec)
| AOracle (s : OracleCatalogSpec)
| APinot (s : PinotCatalogSpec)
| APostgres (s : PostgresCatalogSpec)
| APrometheus (s : PrometheusCatalogSpec)
| ARedis (s : RedisCatalogSpec)
| ARedshift (s : RedshiftCatalogSpec)
| ASingleStore (s : SingleStoreCatalogSpec)
| ASnowflake (s : SnowflakeCatalogSpec)
| ASQLServer (s : SQLServerCatalogSpec)
| ASystem (s : SystemCatalogSpec)
| AThrift (s : ThriftCatalogSpec)
| ATPCDS (s : TPCDSCatalogSpec)
| ATPCH (s : TPCHCatalogSpec)
| AVertica (s : VerticaCatalogSpec)
| ACustom (s : CustomCatalogSpec).

Definition no_connector : XTrinodeCatalogConnector :=
  mkConnector None None None None None None None None None None None None None None None None None None None None None None None None None None None None None None None None None None None None None None None.

Definition only (k : Connector) : XTrinodeCatalogConnector :=
  match k with
  | ABigQuery s => mkConnector (Some s) None None None None None None None None None None None None None None None None None None None None None None None None None None None None None None None None None None None None None None
  | ABlackHole s => mkConnector None (Some s) None None None None None None None None None None None None None None None None None None None None None None None None None None None None None None None None None None None None None
  | ACassandra s => mkConnector None None (Some s) None None None None None None None None None None None None None None None None None None None None None None None None None None None None None None None None None None None None
  | AClickHouse s => mkConnector None None None (Some s) None None None None None None None None None None None None None None None None None None None None None None None None None None None None None None None None None None None
  | ADeltaLake s => mkConnector None None None None (Some s) None None None None None None None None None None None None None None None None None None None None None None None None None None None None None None None None None None
  | ADruid s => mkConnector None None None None None (Some s) None None None None None None None None None None None None None None None None None None None None None None None None None None None None None None None None None
  | ADuckDB s => mkConnector None None None None None None (Some s) None None None None None None None None None None None None None None None None None None None None None None None None None None None None None None None None
  | AElasticsearch s => mkConnector None None None None None None None (Some s) None None None None None None None None None None None None None None None None None None None None None None None None None None None None None None None
  | AExasol s => mkConnector None None None None None None None None (Some s) None None None None None None None None None None None None None None None None None None None None None None None None None None None None None None
  | AFaker s => mkConnector None None None None None None None None None (Some s) None None None None None None None None None None None None None None None None None None None None None None None None None None None None None
  | AGoogleSheets s => mkConnector None None None None None None None None None None (Some s) None None None None None None None None None None None None None None None None None None None None None None None None None None None None
  | AHive s => mkConnector None None None None None None None None None None None (Some s) None None None None None None None None None None None None None None None None None None None None None None None None None None None
  | AHudi s => mkConnector None None None None None None None None None None None None (Some s) None None None None None None None None None None None None None None None None None None None None None None None None None None
  | AIceberg s => mkConnector None None None None None None None None None None None None None (Some s) None None None None None None None None None None None None None None None None None None None None None None None None None
  | AIgnite s => mkConnector None None None None None None None None None None None None None None (Some s) None None None None None None None None None None None None None None None None None None None None None None None None
  | AJMX s => mkConnector None None None None None None None None None None None None None None None (Some s) None None None None None None None None None None None None None None None None None None None None None None None
  | AKafka s => mkConnector None None None None None None None None None None None None None None None None (Some s) None None None None None None None None None None None None None None None None None None None None None None
  | ALakehouse s => mkConnector None None None None None None None None None None None None None None None None None (Some s) None None None None None None None None None None None None None None None None None None None None None
  | ALoki s => mkConnector None None None None None None None None None None None None None None None None None None (Some s) None None None None None None None None None None None None None None None None None None None None
  | AMariaDB s => mkConnector None None None None None None None None None None None None None None None None None None None (Some s) None None None None None None None None None None None None None None None None None None None
  | AMemory s => mkConnector None None None None None None None None None None None None None None None None None None None None (Some s) None None None None None None None None None None None None None None None None None None
  | AMongoDB s => mkConnector None None None None None None None None None None None None None None None None None None None None None (Some s) None None None None None None None None None None None None None None None None None
  | AMySQL s => mkConnector None None None None None None None None None None None None None None None None None None None None None None (Some s) None None None None None None None None None None None None None None None None
  | AOpenSearch s => mkConnector None None None None None None None None None None None None None None None None None None None None None None None (Some s) None None None None None None None None None None None None None None None
  | AOracle s => mkConnector None None None None None None None None None None None None None None None None None None None None None None None None (Some s) None None None None None None None None None None None None None None
  | APinot s => mkConnector None None None None None None None None None None None None None None None None None None None None None None None None None (Some s) None None None None None None None None None None None None None
  | APostgres s => mkConnector None None None None None None None None None None None None None None None None None None None None None None None None None None (Some s) None None None None None None None None None None None None
  | APrometheus s => mkConnector None None None None None None None None None None None None None None None None None None None None None None None None None None None (Some s) None None None None None None None None None None None
  | ARedis s => mkConnector None None None None None None None None None None None None None None None None None None None None None None None None None None None None (Some s) None None None None None None None None None None
  | ARedshift s => mkConnector None None None None None None None None None None None None None None None None None None None None None None None None None None None None None (Some s) None None None None None None None None None
  | ASingleStore s => mkConnector None None None None None None None None None None None None None None None None None None None None None None None None None None None None None None (Some s) None None None None None None None None
  | ASnowflake s => mkConnector None None None None None None None None None None None None None None None None None None None None None None None None None None None None None None None (Some s) None None None None None None None
  | ASQLServer s => mkConnector None None None None None None None None None None None None None None None None None None None None None None None None None None None None None None None None (Some s) None None None None None None
  | ASystem s => mkConnector None None None None None None None None None None None None None None None None None None None None None None None None None None None None None None None None None (Some s) None None None None None
  | AThrift s => mkConnector None None None None None None None None None None None None None None None None None None None None None None None None None None None None None None None None None None (Some s) None None None None
  | ATPCDS s => mkConnector None None None None None None None None None None None None None None None None None None None None None None None None None None None None None None None None None None None (Some s) None None None
  | ATPCH s => mkConnector None None None None None None None None None None None None None None None None None None None None None None None None None None None None None None None None None None None None (Some s) None None
  | AVertica s => mkConnector None None None None None None None None None None None None None None None None None None None None None None None None None None None None None None None None None None None None None (Some s) None
  | ACustom s => mkConnector None None None None None None None None None None None None None None None None None None None None None None None None None None None None None None None None None None None None None None (Some s)
  end.

Definition connector_properties (k : Connector) : Properties :=
  match k with
  | ABigQuery s => bq_Properties s
  | ABlackHole s => pl_Properties s
  | ACassandra s => cas_Properties s
  | AClickHouse s => jdbc_Properties s
  | ADeltaLake s => dl_Properties s
  | ADruid s => dr_Properties s
  | ADuckDB s => dd_Properties s
  | AElasticsearch s => els_Properties s
  | AExasol s => jdbc_Properties s
  | AFaker s => fk_Properties s
  | AGoogleSheets s => gs_Properties s
  | AHive s => hv_Properties s
  | AHudi s => hu_Properties s
  | AIceberg s => ic_Properties s
  | AIgnite s => jdbc_Properties s
  | AJMX s => pl_Properties s
  | AKafka s => kf_Properties s
  | ALakehouse s => lh_Properties s
  | ALoki s => lk_Properties s
  | AMariaDB s => jdbc_Properties s
  | AMemory s => mm_Properties s
  | AMongoDB s => mo_Properties s
  | AMySQL s => jdbc_Properties s
  | AOpenSearch s => os_Properties s
  | AOracle s => jdbc_Properties s
  | APinot s => pi_Properties s
  | APostgres s => jdbc_Properties s
  | APrometheus s => pr_Properties s
  | ARedis s => rd_Properties s
  | ARedshift s => jdbc_Properties s
  | ASingleStore s => jdbc_Properties s
  | ASnowflake s => sf_Properties s
  | ASQLServer s => jdbc_Properties s
  | ASystem s => pl_Properties s
  | AThrift s => th_Properties s
  | ATPCDS s => pl_Properties s
  | ATPCH s => pl_Properties s
  | AVertica s => jdbc_Properties s
  | ACustom s => cu_Properties s
  end.

Definition connector_refs (k : Connector) : PropertySecretRefs :=
  match k with
  | ABigQuery s => bq_PropertySecretRefs s
  | ABlackHole s => pl_PropertySecretRefs s
  | ACassandra s => cas_PropertySecretRefs s
  | AClickHouse s => jdbc_PropertySecretRefs s
  | ADeltaLake s => dl_PropertySecretRefs s
  | ADruid s => dr_PropertySecretRefs s
  | ADuckDB s => dd_PropertySecretRefs s
  | AElasticsearch s => els_PropertySecretRefs s
  | AExasol s => jdbc_PropertySecretRefs s
  | AFaker s => fk_PropertySecretRefs s
  | AGoogleSheets s => gs_PropertySecretRefs s
  | AHive s => hv_PropertySecretRefs s
  | AHudi s => hu_PropertySecretRefs s
  | AIceberg s => ic_PropertySecretRefs s
  | AIgnite s => jdbc_PropertySecretRefs s
  | AJMX s => pl_PropertySecretRefs s
  | AKafka s => kf_PropertySecretRefs s
  | ALakehouse s => lh_PropertySecretRefs s
  | ALoki s => lk_PropertySecretRefs s
  | AMariaDB s => jdbc_PropertySecretRefs s
  | AMemory s => mm_PropertySecretRefs s
  | AMongoDB s => mo_PropertySecretRefs s
  | AMySQL s => jdbc_PropertySecretRefs s
  | AOpenSearch s => os_PropertySecretRefs s
  | AOracle s => jdbc_PropertySecretRefs s
  | APinot s => pi_PropertySecretRefs s
  | APostgres s => jdbc_PropertySecretRefs s
  | APrometheus s => pr_PropertySecretRefs s
  | ARedis s => rd_PropertySecretRefs s
  | ARedshift s => jdbc_PropertySecretRefs s
  | ASingleStore s => jdbc_PropertySecretRefs s
  | ASnowflake s => sf_PropertySecretRefs s
  | ASQLServer s => jdbc_PropertySecretRefs s
  | ASystem s => pl_PropertySecretRefs s
  | AThrift s => th_PropertySecretRefs s
  | ATPCDS s => pl_PropertySecretRefs s
  | ATPCH s => pl_PropertySecretRefs s
  | AVertica s => jdbc_PropertySecretRefs s
  | ACustom s => cu_PropertySecretRefs s
  end.

Lemma none_set l : set_names l = [] -> Forall (fun f => f.2 = false) l.
Proof.
  unfold set_names. induction l as [|[n b] l IH]; simpl; [constructor|]. destruct b; simpl; [done|].
  intros Hl. constructor; [done|by apply IH].
Qed.

Lemma set_names_true n l : set_names ((n, true) :: l) = n :: set_names l.
Proof. done. Qed.

Lemma set_names_false n l : set_names ((n, false) :: l) = set_names l.
Proof. done. Qed.

Lemma rest_unset n l : length (n :: set_names l) = 1%nat -> Forall (fun f => f.2 = false) l.
Proof. intros [= Hl]. by apply none_set, nil_length_inv. Qed.

Ltac all_unset H :=
  lazymatch type of H with
  | Forall _ (_ :: _) =>
      let Hx := fresh in apply list.Forall_cons in H as [Hx H]; simpl in Hx;
      lazymatch type of Hx with is_set ?o = false => destruct o; [discriminate Hx|]; clear Hx end; all_unset H
  | _ => clear H
  end.

Ltac next_field o K :=
  destruct o as [s|]; simpl is_set;
    [rewrite set_names_true; intros Hl%rest_unset; all_unset Hl; by exists (K s)|rewrite set_names_false].

(** A connector with one field set is one of the union. *)
Lemma one_connector c : length (catalogConnectorFields c) = 1%nat -> exists k, c = only k.
Proof.
  unfold catalogConnectorFields, connector_fields. destruct c; simpl.
  next_field c_BigQuery0 ABigQuery. next_field c_BlackHole0 ABlackHole. next_field c_Cassandra0 ACassandra. next_field c_ClickHouse0 AClickHouse.
  next_field c_DeltaLake0 ADeltaLake. next_field c_Druid0 ADruid. next_field c_DuckDB0 ADuckDB. next_field c_Elasticsearch0 AElasticsearch.
  next_field c_Exasol0 AExasol. next_field c_Faker0 AFaker. next_field c_GoogleSheets0 AGoogleSheets. next_field c_Hive0 AHive.
  next_field c_Hudi0 AHudi. next_field c_Iceberg0 AIceberg. next_field c_Ignite0 AIgnite. next_field c_JMX0 AJMX.
  next_field c_Kafka0 AKafka. next_field c_Lakehouse0 ALakehouse. next_field c_Loki0 ALoki. next_field c_MariaDB0 AMariaDB.
  next_field c_Memory0 AMemory. next_field c_MongoDB0 AMongoDB. next_field c_MySQL0 AMySQL. next_field c_OpenSearch0 AOpenSearch.
  next_field c_Oracle0 AOracle. next_field c_Pinot0 APinot. next_field c_Postgres0 APostgres. next_field c_Prometheus0 APrometheus.
  next_field c_Redis0 ARedis. next_field c_Redshift0 ARedshift. next_field c_SingleStore0 ASingleStore. next_field c_Snowflake0 ASnowflake.
  next_field c_SQLServer0 ASQLServer. next_field c_System0 ASystem. next_field c_Thrift0 AThrift. next_field c_TPCDS0 ATPCDS.
  next_field c_TPCH0 ATPCH. next_field c_Vertica0 AVertica. next_field c_Custom0 ACustom.
  done.
Qed.
