(* ===== verification/World.v ===== *)
(** * The operator's surroundings

    Everything the reconcilers of [controllers/] reach outside themselves: the
    Kubernetes API, the injected services of [service_interfaces.go] and
    [nodepool_interfaces.go], the Trino coordinator's query API, the event
    recorder and the clock.  A [call] is one request with its arguments and
    [resp] the type of its answer.  A [World] answers calls and keeps the
    history of calls and answers, so that statements about the order of effects
    are statements about that history.  Answers are arbitrary: other
    controllers, users and failures act between any two calls. *)

From S2P Require Import Prelude GoStrings GoTime XTrinodeTypes RuntimeShape Status Retry CatalogTypes.

(** ** Kubernetes objects the operator reads *)

Record DeploymentCondition := mkDeploymentCondition {
  dc_Type : string;
  dc_Status : ConditionStatus;
  dc_Reason : string;
  dc_Message : string
}.

Record Deployment := mkDeployment {
  dp_Name : string;
  dp_Generation : Z;
  dp_SpecReplicas : option Z;
  dp_ObservedGeneration : Z;
  dp_Replicas : Z;
  dp_ReadyReplicas : Z;
  dp_AvailableReplicas : Z;
  dp_UpdatedReplicas : Z;
  dp_Conditions : list DeploymentCondition;
  dp_Labels : gmap string string
}.

(** Resource amounts by name. *)
Notation ResourceList := (gmap string Quantity).

Record NodeSelectorRequirement := mkRequirement {
  nsr_Key : string;
  nsr_Operator : string;
  nsr_Values : list string
}.

Record NodeSelectorTerm := mkTerm {
  nst_MatchExpressions : list NodeSelectorRequirement;
  nst_MatchFields : list NodeSelectorRequirement
}.

(** Of the affinity only the required node terms are read, of a container only
    its requests. *)
Record PodSpec := mkPodSpec {
  ps_NodeName : string;
  ps_NodeSelector : gmap string string;
  ps_RequiredNodeTerms : option (list NodeSelectorTerm);
  ps_Tolerations : list Toleration;
  ps_Containers : list ResourceList;
  ps_InitContainers : list ResourceList;
  ps_Overhead : ResourceList
}.

Record OwnerReference := mkOwner { or_APIVersion : string; or_Kind : string; or_Name : string }.

Record Pod := mkPod {
  pod_Namespace : string;
  pod_Name : string;
  pod_Labels : gmap string string;
  pod_OwnerReferences : list OwnerReference;
  pod_Spec : PodSpec;
  pod_Phase : string;
  pod_DeletionTimestamp : option Time;
  pod_TerminationGracePeriodSeconds : option Z;
  pod_Conditions : list DeploymentCondition
}.

Record NodeTaint := mkTaint { nt_Key : string; nt_Value : string; nt_Effect : string }.

Record Node := mkNode {
  nd_Name : string;
  nd_Labels : gmap string string;
  nd_Unschedulable : bool;
  nd_Taints : list NodeTaint;
  nd_Allocatable : ResourceList;
  nd_Conditions : list DeploymentCondition
}.

Record DaemonSet := mkDaemonSet {
  ds_Namespace : string;
  ds_Name : string;
  ds_Selector : option LabelSelector;
  ds_TemplateLabels : gmap string string;
  ds_TemplateSpec : PodSpec
}.

Record NamespaceObject := mkNamespace {
  ns_Name : string;
  ns_ResourceVersion : string;
  ns_Labels : option (gmap string string)
}.

(** The namespace guardrails. *)
Inductive GuardrailKind := AResourceQuota | ALimitRange.

Record LimitRangeItem := mkLimitRangeItem {
  lri_Type : string;
  lri_Default : ResourceList;
  lri_DefaultRequest : ResourceList;
  lri_Max : ResourceList
}.

Inductive GuardrailSpec :=
| QuotaSpec (hard : ResourceList)
| LimitRangeSpec (limits : list LimitRangeItem).

Record Guardrail := mkGuardrail {
  gr_Name : string;
  gr_Namespace : string;
  gr_Labels : gmap string string;
  gr_Spec : GuardrailSpec
}.

Definition gr_Kind (g : Guardrail) : GuardrailKind :=
  match gr_Spec g with QuotaSpec _ => AResourceQuota | LimitRangeSpec _ => ALimitRange end.

(** A built set of Trino resources: the rollout hashes annotated on the pod
    templates of the two Deployments, and the objects themselves. *)
Record TrinoResourceSet := mkResourceSet {
  trs_CoordinatorRolloutHash : option string;
  trs_WorkerRolloutHash : option string;
  trs_objects : string
}.

Record Endpoint := mkEndpoint { ep_Addresses : list string; ep_Ready : option bool }.

Record EndpointSlice := mkEndpointSlice {
  es_Ports : list (option string * option Z);
  es_Endpoints : list Endpoint
}.

(** A ConfigMap; [co_Controller] is the name of the catalog that owns it. *)
Record ConfigMapObject := mkConfigMapObject {
  co_Name : string;
  co_Labels : gmap string string;
  co_Annotations : gmap string string;
  co_Controller : option string;
  co_Data : gmap string string
}.

Inductive OperationResult := OperationResultNone | OperationResultCreated | OperationResultUpdated.

(** The fields the operator reads of a MachinePool or MachineDeployment: ready
    replicas and replicas, when it has a status, and the version of its template. *)
Record MachineResource := mkMachineResource {
  mr_Status : option (Z * Z);
  mr_TemplateVersion : option string
}.

(** ** Calls *)

Inductive call :=
| Now
| RecordEvent (ev : event)
(* XTrinode objects *)
| GetXTrinode (namespace name : string)
| UpdateXTrinode (x : XTrinode)
| PatchXTrinode (base x : XTrinode)
| UpdateXTrinodeStatus (x : XTrinode)
(* other objects *)
| GetDeployment (namespace name : string)
| ScaleDeployment (namespace name : string) (replicas : Z)
| DeleteHPA (namespace name : string)
| GetScaledObject (namespace name : string)
| GetSecret (namespace name : string)
| ListPods (namespace instance component : string)
| ListDeployments (namespace instance component : string)
| ListNodes
| ListAllPods
| ListDaemonSets
| ListXTrinodes (namespace : string)
| GetNamespace (name : string)
| CreateNamespace (n : NamespaceObject)
| UpdateNamespace (n : NamespaceObject)
| GetGuardrail (kind : GuardrailKind) (namespace name : string)
| CreateGuardrail (g : Guardrail)
| ApplyGuardrail (g : Guardrail) (fieldOwner : string) (force : bool)
| DeleteGuardrail (kind : GuardrailKind) (namespace name : string)
| ListEndpointSlices (namespace service : string)
| GetMachineResource (machinePool : bool) (namespace name : string)
(* GET of a coordinator's URL with a user and an optional password *)
| HTTPGet (retrying : bool) (url user : string) (password : option string)
(* GatewayServiceInterface *)
| RegisterRoute (x : XTrinode)
| DrainRoute (x : XTrinode)
| DeregisterRoute (x : XTrinode)
(* KEDAServiceInterface *)
| EnsureScaledObject (x : XTrinode)
| DeleteScaledObject (x : XTrinode)
| DisableScaledObject (x : XTrinode)
| EnableScaledObjectWithWakeMinWorkers (x : XTrinode) (wakeMinWorkers : Z)
(* NodePoolAdapterInterface *)
| EnsureNodePool (x : XTrinode)
| DeleteNodePool (x : XTrinode)
| RetainNodePool (x : XTrinode)
| ScaleNodePoolMinNodes (x : XTrinode) (minNodes : Z)
(* the machines of a pool inspected for provisioning failures: a message, if
   there is one to report, and an error *)
| NodePoolFailureDiagnostic (x : XTrinode) (r : MachineResource)
(* TrinoResourcesServiceInterface: the resource set of a runtime and its
   catalogs is built, and then applied or deleted *)
| BuildTrinoResourceSet (x : XTrinode) (catalogs : list string)
| ApplyTrinoResources (x : XTrinode) (resources : TrinoResourceSet)
| DeleteTrinoResources (resources : TrinoResourceSet)
(* the revision of a runtime's applied resources, computed by the same service *)
| GetXTrinodeRevision (x : XTrinode) (catalogs : list string)
(* catalogs and ConfigMaps *)
| ListXTrinodeCatalogs (namespace : string)
| GetXTrinodeCatalog (namespace name : string)
| UpdateXTrinodeCatalogStatus (c : XTrinodeCatalog)
| GetConfigMap (namespace name : string)
| ListConfigMaps (namespace : string)
(* [controllerutil.CreateOrPatch] with the function that changes the object;
   [None] when that function fails *)
| CreateOrPatchConfigMap (namespace name : string) (mutate : ConfigMapObject -> option ConfigMapObject).

Section world.
Context (E : Type).

Definition resp (c : call) : Type :=
  match c with
  | Now => Time
  | RecordEvent _ => unit
  | GetXTrinode _ _ | UpdateXTrinode _ | UpdateXTrinodeStatus _ | PatchXTrinode _ _ => result E XTrinode
  | GetDeployment _ _ => result E Deployment
  | GetScaledObject _ _ => option E
  | GetSecret _ _ => result E (gmap string string)
  | ListPods _ _ _ | ListAllPods => result E (list Pod)
  | ListDeployments _ _ _ => result E (list Deployment)
  | ListNodes => result E (list Node)
  | ListDaemonSets => result E (list DaemonSet)
  | ListXTrinodes _ => result E (list XTrinode)
  | GetNamespace _ | CreateNamespace _ | UpdateNamespace _ => result E NamespaceObject
  | GetGuardrail _ _ _ => result E (gmap string string)
  | BuildTrinoResourceSet _ _ => result E TrinoResourceSet
  | GetXTrinodeRevision _ _ => string
  | ListXTrinodeCatalogs _ => result E (list XTrinodeCatalog)
  | GetXTrinodeCatalog _ _ | UpdateXTrinodeCatalogStatus _ => result E XTrinodeCatalog
  | ListConfigMaps _ => result E (list ConfigMapObject)
  | CreateOrPatchConfigMap _ _ _ => result E OperationResult
  | ListEndpointSlices _ _ => result E (list EndpointSlice)
  | GetMachineResource _ _ _ => result E MachineResource
  | NodePoolFailureDiagnostic _ _ => option string * option E
  | HTTPGet _ _ _ _ => result E (Z * result E string)
  | _ => option E
  end.

Definition happening : Type := { c : call & resp c }.

Class World (W : Type) := {
  perform : forall c : call, W -> resp c * W;
  ctx_Err : W -> option E;
  history : W -> list happening;
  history_perform : forall c w, history (perform c w).2 = history w ++ [existT c (perform c w).1]
}.
End world.
Arguments perform {E W _} c w.
Arguments ctx_Err {E W _} w.
Arguments history {E W _} w.
Arguments history_perform {E W _} c w.

(** ** Programs: functions that thread the world *)

Definition M (W A : Type) : Type := W -> A * W.

#[export] Instance M_ret W : MRet (M W) := fun A a w => (a, w).
#[export] Instance M_bind W : MBind (M W) := fun A B f m w => let '(a, w) := m w in f a w.

Section logic.
Context {E W : Type} `{!World E W}.

(** [runs m Q]: whatever the world answers, [m] returns some [a] after a
    sequence of calls and answers [tr] with [Q a tr]. *)
Definition runs {A} (m : M W A) (Q : A -> list (happening E) -> Prop) : Prop :=
  forall w, exists tr, history (m w).2 = history w ++ tr /\ Q (m w).1 tr.

Lemma runs_weaken {A} (m : M W A) (P Q : A -> list (happening E) -> Prop) :
  runs m P -> (forall a tr, P a tr -> Q a tr) -> runs m Q.
Proof. intros Hm HPQ w. destruct (Hm w) as (tr & Ht & Hp). eauto. Qed.

Lemma runs_ext {A} (m m' : M W A) (Q : A -> list (happening E) -> Prop) :
  (forall w, m w = m' w) -> runs m' Q -> runs m Q.
Proof. intros Hm Hr w. rewrite Hm. apply Hr. Qed.

Lemma runs_and {A} (m : M W A) (P Q : A -> list (happening E) -> Prop) :
  runs m P -> runs m Q -> runs m (fun a tr => P a tr /\ Q a tr).
Proof.
  intros Hp Hq w. destruct (Hp w) as (tr & Ht & Hpt), (Hq w) as (tr' & Ht' & Hqt).
  exists tr. split; [done|]. rewrite Ht in Ht'. apply app_inv_head in Ht'. subst. done.
Qed.

Lemma runs_ret {A} (a : A) (Q : A -> list (happening E) -> Prop) : Q a [] -> runs (mret a : M W A) Q.
Proof. intros HQ w. exists []. by rewrite app_nil_r. Qed.

Lemma runs_bind {A B} (m : M W A) (f : A -> M W B) (P : A -> list (happening E) -> Prop)
    (Q : B -> list (happening E) -> Prop) :
  runs m P -> (forall a t1, P a t1 -> runs (f a) (fun b t2 => Q b (t1 ++ t2))) -> runs (m ≫= f) Q.
Proof.
  intros Hm Hf w. destruct (Hm w) as (t1 & Ht1 & Hp). unfold mbind, M_bind.
  destruct (m w) as [a w1] eqn:Em. simpl in *. destruct (Hf a t1 Hp w1) as (t2 & Ht2 & Hq).
  exists (t1 ++ t2). by rewrite Ht2, Ht1, app_assoc.
Qed.

Lemma runs_ret_bind {A B} (a : A) (f : A -> M W B) (Q : B -> list (happening E) -> Prop) :
  runs (f a) Q -> runs (mret a ≫= f) Q.
Proof. done. Qed.

Lemma runs_perform (c : call) (Q : resp E c -> list (happening E) -> Prop) :
  (forall r, Q r [existT c r]) -> runs (perform c : M W _) Q.
Proof. intros HQ w. eexists. split; [apply history_perform|apply HQ]. Qed.

Lemma runs_call {B} (c : call) (f : resp E c -> M W B) (Q : B -> list (happening E) -> Prop) :
  (forall r, runs (f r) (fun b t => Q b (existT c r :: t))) -> runs (perform c ≫= f) Q.
Proof.
  intros Hf. apply (runs_bind _ _ (fun r t => t = [existT c r])).
  - apply runs_perform. done.
  - intros r t ->. apply Hf.
Qed.

(** A program all of whose calls satisfy [P], whatever they are answered. *)
Definition emits {A} (P : happening E -> Prop) (m : M W A) (R : A -> Prop) : Prop :=
  runs m (fun a tr => Forall P tr /\ R a).

Lemma emits_ret {A} P (a : A) (R : A -> Prop) : R a -> emits P (mret a) R.
Proof. intros. by apply runs_ret. Qed.

Lemma emits_bind {A B} P (m : M W A) (f : A -> M W B) (S : A -> Prop) (R : B -> Prop) :
  emits P m S -> (forall a, S a -> emits P (f a) R) -> emits P (m ≫= f) R.
Proof.
  intros Hm Hf. eapply runs_bind; [exact Hm|]. intros a t1 [Hp Hs]. eapply runs_weaken; [by apply Hf|].
  intros b t2 [Hp2 Hr]. split; [by apply Forall_app|done].
Qed.

Lemma emits_call {B} (P : happening E -> Prop) (c : call) (f : resp E c -> M W B) (R : B -> Prop) :
  (forall r, P (existT c r)) -> (forall r, emits P (f r) R) -> emits P (perform c ≫= f) R.
Proof.
  intros Hc Hf. apply runs_call. intros r. eapply runs_weaken; [apply Hf|].
  intros b t [Ht Hr]. by split; [constructor|].
Qed.

Lemma emits_perform (P : happening E -> Prop) (c : call) :
  (forall r, P (existT c r)) -> emits P (perform c : M W _) (fun _ => True).
Proof. intros Hc. apply runs_perform. intros r. split; [by constructor|done]. Qed.

Lemma emits_weaken {A} (P P' : happening E -> Prop) (m : M W A) (R R' : A -> Prop) :
  emits P m R -> (forall h, P h -> P' h) -> (forall a, R a -> R' a) -> emits P' m R'.
Proof.
  intros Hm Hp Hr. eapply runs_weaken; [exact Hm|]. intros a t [Ht Ha].
  split; [|by apply Hr]. eapply Forall_impl; eauto.
Qed.
End logic.

(** ** Retries

    The closures of [retry.OnConflictWithRefresh] share a local variable of the
    caller: the state of the retry is that variable and the world. *)
Section retries.
Context {E W : Type} `{!World E W, KubeErrors E, WaitBackoff E}.
Context {L : Type}.

Definition on_local (f : L -> M W (option E * L)) (s : L * W) : option E * (L * W) :=
  let '((e, l), w) := f s.1 s.2 in (e, (l, w)).

Definition retry_with (cfg : Config) (refreshFn modifyFn : L -> M W (option E * L)) (l : L) : M W (option E * L) :=
  fun w =>
    let '(e, (l, w)) :=
      OnConflictWithRefresh (fun s : L * W => ctx_Err s.2) cfg (on_local refreshFn) (on_local modifyFn) (l, w) in
    ((e, l), w).

Notation retry_local := (retry_with DefaultConfig).

(** [I] relates the variable and the calls so far between attempts and after a
    failure, [Q] after a success. *)
Lemma runs_retry {cfg} refreshFn modifyFn l (I Q : L -> list (happening E) -> Prop) :
  I l [] ->
  (forall l t, I l t -> runs (refreshFn l) (fun '(e, l1) t1 =>
     match e with
     | Some _ => I l1 (t ++ t1)
     | None => runs (modifyFn l1) (fun '(e, l2) t2 =>
         match e with Some _ => I l2 (t ++ t1 ++ t2) | None => Q l2 (t ++ t1 ++ t2) end)
     end)) ->
  runs (retry_with cfg refreshFn modifyFn l)
    (fun '(e, l') t => match e with Some _ => I l' t | None => Q l' t end).
Proof.
  intros Hi Hstep w. unfold retry_with.
  pose (at_ := fun (P : L -> list (happening E) -> Prop) (s : L * W) =>
    exists t, history s.2 = history w ++ t /\ P s.1 t).
  assert (Hs : forall s, at_ I s ->
    match on_local refreshFn s with
    | (Some _, s1) => at_ I s1
    | (None, s1) => match on_local modifyFn s1 with (None, s2) => at_ Q s2 | (Some _, s2) => at_ I s2 end
    end).
  { intros [l1 w1] (t & Ht & Hit). simpl in Ht, Hit. unfold on_local; simpl.
    destruct (Hstep l1 t Hit w1) as (t1 & Ht1 & H1). destruct (refreshFn l1 w1) as [[e1 l2] w2]; simpl in *.
    destruct e1 as [e1|].
    { exists (t ++ t1). simpl. by rewrite Ht1, Ht, app_assoc. }
    destruct (H1 w2) as (t2 & Ht2 & H2). destruct (modifyFn l2 w2) as [[e2 l3] w3]; simpl in *.
    destruct e2 as [e2|]; exists (t ++ t1 ++ t2); simpl; (split; [|done]); by rewrite Ht2, Ht1, Ht, !app_assoc. }
  pose proof (OnConflictWithRefresh_rule (fun s : L * W => ctx_Err s.2) cfg (on_local refreshFn)
    (on_local modifyFn) (at_ I) (at_ Q) (l, w) Hs) as Hrule.
  destruct (OnConflictWithRefresh _ _ _ _ _) as [e [l' w']].
  assert (Hstart : at_ I (l, w)) by (exists []; by rewrite app_nil_r).
  specialize (Hrule Hstart). simpl. destruct e as [e|]; destruct Hrule as (t & Ht & HQ); eauto.
Qed.

Lemma emits_retry {cfg} (P : happening E -> Prop) refreshFn modifyFn l (I Q : L -> Prop) :
  I l ->
  (forall l, I l -> emits P (refreshFn l) (fun '(e, l1) =>
     match e with Some _ => I l1
     | None => emits P (modifyFn l1) (fun '(e, l2) => match e with Some _ => I l2 | None => Q l2 end) end)) ->
  emits P (retry_with cfg refreshFn modifyFn l)
    (fun '(e, l') => match e with Some _ => I l' | None => Q l' end).
Proof.
  intros Hi Hstep.
  eapply runs_weaken;
    [apply (runs_retry refreshFn modifyFn l (fun l t => Forall P t /\ I l) (fun l t => Forall P t /\ Q l))|].
  - by split.
  - intros l1 t [Ht Hl1]. eapply runs_weaken; [by apply Hstep|]. intros [e l2] t1 [Ht1 He].
    destruct e as [e|]; [split; [by apply Forall_app|done]|].
    eapply runs_weaken; [exact He|]. intros [e l3] t2 [Ht2 He2].
    destruct e; (split; [by rewrite !Forall_app|done]).
  - intros [e l'] t Ht. destruct e; naive_solver.
Qed.
End retries.
Notation retry_local := (retry_with DefaultConfig).

(** ** Symbolic execution

    [run_step] takes one step of a [runs] goal; programs with a specification of
    their own are left to [runs_bind]. *)
Ltac run_call :=
  try lazymatch goal with |- emits _ _ _ => unfold emits end;
  lazymatch goal with
  | |- runs (@mbind _ _ _ _ ?f (@perform _ _ _ ?c)) ?Q => refine (runs_call c f Q _)
  | |- runs (@perform _ _ _ ?c) ?Q => refine (runs_perform c Q _)
  end.
Ltac emit_call :=
  lazymatch goal with
  | |- emits ?P (@mbind _ _ _ _ ?f (@perform _ _ _ ?c)) ?R => refine (emits_call P c f R _ _); [try done|]
  end.
Ltac run_step :=
  lazymatch goal with
  | |- runs (@mbind _ _ _ _ _ (@perform _ _ _ _)) _ => run_call; intros ?
  | |- runs (@perform _ _ _ _) _ => run_call; intros ?
  | |- runs (@mret _ _ _ _) _ => apply runs_ret
  | |- runs (match ?x with _ => _ end) _ => destruct x eqn:?
  | |- runs (let _ := _ in _) _ => cbv zeta
  end.
Ltac run := repeat (run_step; simpl).

(** Calls that change nothing outside the operator. *)
Definition read_only (c : call) : bool :=
  match c with
  | Now | GetXTrinode _ _ | GetDeployment _ _ | GetScaledObject _ _ | GetSecret _ _
  | ListPods _ _ _ | ListDeployments _ _ _ | ListNodes | ListAllPods | ListDaemonSets | ListXTrinodes _
  | GetNamespace _ | GetGuardrail _ _ _ | BuildTrinoResourceSet _ _ | GetXTrinodeRevision _ _
  | ListXTrinodeCatalogs _ | GetXTrinodeCatalog _ _ | GetConfigMap _ _ | ListConfigMaps _
  | ListEndpointSlices _ _ | GetMachineResource _ _ _ | NodePoolFailureDiagnostic _ _
  | HTTPGet _ _ _ _ => true
  | _ => false
  end.

Definition quiet {E} (h : happening E) : Prop := read_only (projT1 h) = true.

(** ** Order of effects

    [before Q P tr]: whenever something with [P] happens in [tr], [Q] already
    holds of what happened before it. *)
Section order.
Context {E : Type}.
Implicit Types (P : happening E -> Prop) (Q : list (happening E) -> Prop) (tr : list (happening E)).

Definition before Q P tr : Prop := forall t1 h t2, tr = t1 ++ h :: t2 -> P h -> Q t1.

(** A matter of what happened, whatever else did. *)
Definition lasting Q : Prop := forall t1 t2, t1 ⊆ t2 -> Q t1 -> Q t2.

Lemma lasting_l Q t1 t2 : lasting Q -> Q t1 -> Q (t1 ++ t2).
Proof. intros Hl. apply Hl. set_solver. Qed.

Lemma lasting_r Q t1 t2 : lasting Q -> Q t2 -> Q (t1 ++ t2).
Proof. intros Hl. apply Hl. set_solver. Qed.

Lemma before_never Q P tr : Forall (fun h => ~ P h) tr -> before Q P tr.
Proof.
  intros Hn t1 h t2 -> Hp. apply Forall_app in Hn as [_ Hn]. apply list.Forall_cons in Hn as [Hn _]. done.
Qed.

Lemma before_lasting Q P t1 t2 : lasting Q -> before Q P t1 -> Q t1 -> before Q P (t1 ++ t2).
Proof.
  intros Hl Hb Hq u h v Heq Hp. apply app_eq_app in Heq as (k & [[-> Hk]|[-> Hk]]).
  - destruct k as [|h' k]; simpl in Hk.
    + rewrite app_nil_r in Hq. done.
    + injection Hk as <- ->. by apply (Hb u h k).
  - by apply lasting_l.
Qed.

Lemma before_app Q P t1 t2 :
  before Q P t1 -> (forall u h v, t2 = u ++ h :: v -> P h -> Q (t1 ++ u)) -> before Q P (t1 ++ t2).
Proof.
  intros Hb Ht2 u h v Heq Hp. apply app_eq_app in Heq as (k & [[-> Hk]|[-> Hk]]).
  - destruct k as [|h' k]; simpl in Hk.
    + specialize (Ht2 [] h v (eq_sym Hk) Hp). by rewrite !app_nil_r in Ht2.
    + injection Hk as <- ->. by apply (Hb u h k).
  - by apply (Ht2 k h v).
Qed.

Lemma before_never_app Q P t1 t2 :
  before Q P t1 -> Forall (fun h => ~ P h) t2 -> before Q P (t1 ++ t2).
Proof.
  intros Hb Hn. apply before_app; [done|]. intros u h v -> Hp.
  apply Forall_app in Hn as [_ Hn]. apply list.Forall_cons in Hn as [Hn _]. done.
Qed.

Lemma before_and Q1 Q2 P tr : before Q1 P tr -> before Q2 P tr -> before (fun t => Q1 t /\ Q2 t) P tr.
Proof. intros H1 H2 t1 h t2 Heq Hp. split; [by eapply H1|by eapply H2]. Qed.

(** [Q] established within [t2] is established within [t1 ++ t2]. *)
Lemma before_shift Q P t1 t2 :
  lasting Q -> Forall (fun h => ~ P h) t1 -> before Q P t2 -> before Q P (t1 ++ t2).
Proof.
  intros Hl Hn Hb. apply before_app; [by apply before_never|]. intros u h v Heq Hp.
  apply lasting_r; [done|]. by apply (Hb u h v).
Qed.

Lemma before_established Q P t1 t2 :
  lasting Q -> Forall (fun h => ~ P h) t1 -> Q t1 -> before Q P (t1 ++ t2).
Proof. intros Hl Hn Hq. by apply before_lasting; [|apply before_never|]. Qed.

Lemma lasting_and Q1 Q2 : lasting Q1 -> lasting Q2 -> lasting (fun t => Q1 t /\ Q2 t).
Proof. intros H1 H2 t1 t2 Hs [Hq1 Hq2]. split; [by eapply H1|by eapply H2]. Qed.

Lemma lasting_or Q1 Q2 : lasting Q1 -> lasting Q2 -> lasting (fun t => Q1 t \/ Q2 t).
Proof. intros H1 H2 t1 t2 Hs [Hq|Hq]; [left; by eapply H1|right; by eapply H2]. Qed.

Lemma lasting_ex {A} (Q : A -> list (happening E) -> Prop) :
  (forall a, lasting (Q a)) -> lasting (fun t => exists a, Q a t).
Proof. intros H t1 t2 Hs [a Hq]. exists a. by eapply H. Qed.

Lemma lasting_seen h : lasting (fun t => h ∈ t).
Proof. intros t1 t2 Hs Hin. by apply Hs. Qed.

Lemma lasting_impl (A : Prop) Q : lasting Q -> lasting (fun t => A -> Q t).
Proof. intros Hq t1 t2 Hs H Ha. by eapply Hq; [|apply H]. Qed.

Lemma lasting_const (A : Prop) : lasting (fun _ => A).
Proof. by intros t1 t2. Qed.
End order.

Create HintDb lasting.
#[export] Hint Resolve lasting_and lasting_or lasting_ex lasting_impl lasting_seen lasting_const : lasting.

(** ** A world given by its answers *)

Record scripted (E : Type) := mkScripted {
  sc_answer : list (happening E) -> forall c : call, resp E c;
  sc_history : list (happening E)
}.
Arguments mkScripted {E}.
Arguments sc_answer {E}.
Arguments sc_history {E}.

#[export] Program Instance scripted_world E : World E (scripted E) := {
  perform c w :=
    let r := sc_answer w (sc_history w) c in
    (r, mkScripted (sc_answer w) (sc_history w ++ [existT c r]));
  ctx_Err _ := None;
  history := sc_history
}.
Next Obligation. done. Qed.

(** A cluster at rest around one runtime: every request is granted, its
    Deployments have no replica, no pod is left, its machines are up and its
    coordinator does not answer. *)
Section at_rest.
Context {E : Type}.

Definition idle_deployment (name : string) : Deployment := mkDeployment name 1 (Some 0) 1 0 0 0 0 [] ∅.

Definition rest_answer (x : XTrinode) (c : call) : resp E c :=
  match c with
  | Now => 1700000000 * Second
  | RecordEvent _ => tt
  | GetXTrinode _ _ => Ok x
  | UpdateXTrinode y | UpdateXTrinodeStatus y | PatchXTrinode _ y => Ok y
  | GetDeployment _ n => Ok (idle_deployment n)
  | GetSecret _ _ => Ok ∅
  | ListPods _ _ _ | ListAllPods => Ok []
  | ListDeployments _ _ _ => Ok []
  | ListNodes => Ok []
  | ListDaemonSets => Ok []
  | ListXTrinodes _ => Ok [x]
  | GetNamespace n => Ok (mkNamespace n "1" None)
  | CreateNamespace n | UpdateNamespace n => Ok n
  | GetGuardrail _ _ _ => Ok ∅
  | BuildTrinoResourceSet _ _ => Ok (mkResourceSet None None "")
  | GetXTrinodeRevision _ _ => ""
  | ListXTrinodeCatalogs _ => Ok []
  | GetXTrinodeCatalog ns n => Ok (mkCatalog n ns no_connector ∅ (mkCatalogStatus "" "" "" None))
  | UpdateXTrinodeCatalogStatus c => Ok c
  | ListConfigMaps _ => Ok []
  | CreateOrPatchConfigMap _ _ _ => Ok OperationResultCreated
  | ListEndpointSlices _ _ => Ok []
  | GetMachineResource _ _ _ => Ok (mkMachineResource (Some (3, 3)) None)
  | NodePoolFailureDiagnostic _ _ => (None, None)
  | HTTPGet _ _ _ _ => Ok (503, Ok "")
  | _ => None
  end.

Definition at_rest (x : XTrinode) : scripted E := mkScripted (fun _ => rest_answer x) [].
End at_rest.
