(* ===== verification/Scheduling.v ===== *)
(** * Scheduling diagnostics
    ([controllers/runtime_scheduling_diagnostics.go] and the blocker set of
    [runtime_readiness.go])

    Why the pods of a runtime do not run: the reasons the scheduler reports,
    sorted into categories, and the operator's own reading of the cluster, which
    finds out for a pending pod whether placement, taints or capacity keep it
    from every node.  The arithmetic of [resource.Quantity], the matching of
    label selectors and the matching of a toleration with a taint belong to the
    Kubernetes libraries and are parameters. *)

From S2P Require Import Prelude GoStrings GoTime GoParse XTrinodeTypes RuntimeShape DataSize Status Retry World.

(** Sums of quantities are exact; the text of a result is the library's. *)
Class QuantityArith := {
  q_Add : Quantity -> Quantity -> Quantity;
  q_Sub : Quantity -> Quantity -> Quantity;
  q_Add_nano : forall a b, q_nano (q_Add a b) = q_nano a + q_nano b;
  q_Sub_nano : forall a b, q_nano (q_Sub a b) = q_nano a - q_nano b;
  q_Set : Z -> Quantity -> Quantity;
  q_SetMilli : Z -> Quantity -> Quantity;
  q_Set_nano : forall v q, q_nano (q_Set v q) = v * nano_per_unit;
  q_SetMilli_nano : forall v q, q_nano (q_SetMilli v q) = v * 10 ^ 6
}.

(** The zero value of the type. *)
Definition q_zero : Quantity := mkQuantity 0 "0".

Definition amount_of (l : ResourceList) (name : string) : Quantity := default q_zero (l !! name).
Definition q_Sign (q : Quantity) : Z := Z.sgn (q_nano q).

Definition schedulingResourceNames : list string := ["cpu"; "memory"; "ephemeral-storage"].

(** ** Blockers *)

Record schedulingBlockerSet := mkBlockers {
  sb_all : list string;
  sb_placement : list string;
  sb_taints : list string;
  sb_quota : list string;
  sb_capacity : list string
}.

Definition no_blockers : schedulingBlockerSet := mkBlockers [] [] [] [] [].

Record schedulingBlockerClassification := mkClassification {
  sc_placement : bool;
  sc_taints : bool;
  sc_quota : bool;
  sc_capacity : bool
}.

Definition containsAnySchedulingPhrase (text : string) (phrases : list string) : bool :=
  existsb (Contains text) phrases.

Definition classifySchedulingBlocker (reason message : string) : schedulingBlockerClassification :=
  let text := ToLower (reason +:+ " " +:+ message) in
  mkClassification
    (containsAnySchedulingPhrase text
       ["node affinity"; "node selector"; "nodeselector"; "didn't match pod"; "did not match pod";
        "didn't match node selector"; "did not match node selector"])
    (containsAnySchedulingPhrase text ["taint"; "tolerat"])
    (containsAnySchedulingPhrase text ["quota"; "resourcequota"; "exceeded quota"])
    (containsAnySchedulingPhrase text
       ["insufficient cpu"; "insufficient memory"; "insufficient ephemeral-storage"; "insufficient pods";
        "too many pods"; "max node group size"]).

Definition append_if (b : bool) (l : list string) (s : string) : list string := if b then l ++ [s] else l.

Definition blockers_add (reason message summary : string) (b : schedulingBlockerSet) : schedulingBlockerSet :=
  let c := classifySchedulingBlocker reason message in
  mkBlockers (sb_all b ++ [summary]) (append_if (sc_placement c) (sb_placement b) summary)
    (append_if (sc_taints c) (sb_taints b) summary) (append_if (sc_quota c) (sb_quota b) summary)
    (append_if (sc_capacity c) (sb_capacity b) summary).

Definition hasAny (b : schedulingBlockerSet) : bool := negb (is_empty (sb_all b)).

Definition addPlacementDiagnostic (summary : string) (b : schedulingBlockerSet) : schedulingBlockerSet :=
  mkBlockers (sb_all b ++ [summary]) (sb_placement b ++ [summary]) (sb_taints b) (sb_quota b) (sb_capacity b).

Definition addTaintDiagnostic (summary : string) (b : schedulingBlockerSet) : schedulingBlockerSet :=
  mkBlockers (sb_all b ++ [summary]) (sb_placement b) (sb_taints b ++ [summary]) (sb_quota b) (sb_capacity b).

Definition addCapacityDiagnostic (summary : string) (b : schedulingBlockerSet) : schedulingBlockerSet :=
  mkBlockers (sb_all b ++ [summary]) (sb_placement b) (sb_taints b) (sb_quota b) (sb_capacity b ++ [summary]).

(** ** Pods and nodes *)

Definition podTerminated (p : Pod) : bool := (pod_Phase p ≡? "Succeeded") || (pod_Phase p ≡? "Failed").

Definition hasUnscheduledCondition (p : Pod) : bool :=
  existsb (fun c => (dc_Type c ≡? "PodScheduled") && (dc_Status c ≡? ConditionFalse)) (pod_Conditions p).

Definition pendingRuntimePods (pods : list Pod) : list Pod :=
  filterb (fun p =>
    negb (podTerminated p || negb (ps_NodeName (pod_Spec p) ≡? "")) &&
    ((pod_Phase p ≡? "Pending") || hasUnscheduledCondition p)) pods.

(** The first Ready condition decides. *)
Definition nodeReadyForScheduling (n : Node) : bool :=
  if nd_Unschedulable n then false else
  match List.find (fun c => dc_Type c ≡? "Ready") (nd_Conditions n) with
  | Some c => dc_Status c ≡? ConditionTrue
  | None => false
  end.

Definition stringInSlice (value : string) (values : list string) : bool := existsb (fun c => value ≡? c) values.

Definition nodeSelectorRequirementMatches (r : NodeSelectorRequirement) (nodeLabels : gmap string string) : bool :=
  let value := nodeLabels !! nsr_Key r in
  let op := nsr_Operator r in
  if op ≡? "In" then from_option (fun v => stringInSlice v (nsr_Values r)) false value else
  if op ≡? "NotIn" then from_option (fun v => negb (stringInSlice v (nsr_Values r))) true value else
  if op ≡? "Exists" then bool_decide (is_Some value) else
  if op ≡? "DoesNotExist" then negb (bool_decide (is_Some value)) else
  if (op ≡? "Gt") || (op ≡? "Lt") then
    match value, nsr_Values r with
    | Some v, [required] =>
        match ParseInt 64 v with
        | None => false
        | Some nodeValue =>
            match ParseInt 64 required with
            | None => false
            | Some requiredValue => if op ≡? "Gt" then requiredValue <? nodeValue else nodeValue <? requiredValue
            end
        end
    | _, _ => false
    end
  else false.

Definition nodeFieldRequirementMatches (r : NodeSelectorRequirement) (n : Node) : bool :=
  if negb (nsr_Key r ≡? "metadata.name") then false
  else nodeSelectorRequirementMatches r {[ "metadata.name" := nd_Name n ]}.

Definition nodeSelectorTermMatches (t : NodeSelectorTerm) (n : Node) : bool :=
  if is_empty (nst_MatchExpressions t) && is_empty (nst_MatchFields t) then false else
  forallb (fun r => nodeSelectorRequirementMatches r (nd_Labels n)) (nst_MatchExpressions t) &&
  forallb (fun r => nodeFieldRequirementMatches r n) (nst_MatchFields t).

Definition requiredNodeAffinityMatches (terms : option (list NodeSelectorTerm)) (n : Node) : bool :=
  match terms with
  | None => true
  | Some ts => existsb (fun t => nodeSelectorTermMatches t n) ts
  end.

Definition podMatchesNodePlacement (spec : PodSpec) (n : Node) : bool :=
  forallb (fun '(key, value) => default "" (nd_Labels n !! key) ≡? value) (map_to_list (ps_NodeSelector spec)) &&
  requiredNodeAffinityMatches (ps_RequiredNodeTerms spec) n.

(** ** Amounts *)

Section diagnostics.
Context `{QuantityArith}.
Context (ToleratesTaint : Toleration -> NodeTaint -> bool).
(** Whether a selector that converts without error matches the labels. *)
Context (selector_Matches : LabelSelector -> gmap string string -> option bool).

Definition podToleratesNodeTaints (spec : PodSpec) (taints : list NodeTaint) : bool :=
  forallb (fun t =>
    negb ((nt_Effect t ≡? "NoSchedule") || (nt_Effect t ≡? "NoExecute")) ||
    existsb (fun tol => ToleratesTaint tol t) (ps_Tolerations spec)) taints.

Definition metav1LabelSelectorAsSelector (s : option LabelSelector) (labels : gmap string string) : option bool :=
  match s with
  | None => Some false
  | Some s => selector_Matches s labels
  end.

Definition daemonSetShouldRunOnNode (d : DaemonSet) (n : Node) : bool :=
  match metav1LabelSelectorAsSelector (ds_Selector d) (ds_TemplateLabels d) with
  | Some true => podMatchesNodePlacement (ds_TemplateSpec d) n && podToleratesNodeTaints (ds_TemplateSpec d) (nd_Taints n)
  | _ => false
  end.

(** One pass over the resource names, changing [total] where [used] is not zero. *)
Definition each_resource (f : Quantity -> Quantity -> Quantity) (total used : ResourceList) : ResourceList :=
  fold_left (fun total name =>
    let quantity := amount_of used name in
    if q_Sign quantity =? 0 then total
    else <[name := f (amount_of total name) quantity]> total) schedulingResourceNames total.

Definition addSchedulingRequests : ResourceList -> ResourceList -> ResourceList := each_resource q_Add.
Definition subtractSchedulingRequests : ResourceList -> ResourceList -> ResourceList := each_resource q_Sub.

Definition keepLargerSchedulingRequests (total candidate : ResourceList) : ResourceList :=
  fold_left (fun total name =>
    let quantity := amount_of candidate name in
    if q_Sign quantity =? 0 then total else
    if q_nano (amount_of total name) <? q_nano quantity then <[name := quantity]> total else total)
    schedulingResourceNames total.

Definition podSchedulingRequests (spec : PodSpec) : ResourceList :=
  let requests := fold_left addSchedulingRequests (ps_Containers spec) ∅ in
  let initRequests := fold_left keepLargerSchedulingRequests (ps_InitContainers spec) ∅ in
  addSchedulingRequests (keepLargerSchedulingRequests requests initRequests) (ps_Overhead spec).

Definition copyResourceListForScheduling (l : ResourceList) : ResourceList :=
  fold_left (fun out name =>
    let quantity := amount_of l name in
    if q_Sign quantity =? 0 then out else <[name := quantity]> out) schedulingResourceNames ∅.

Definition allocatablePods (n : Node) : Z :=
  let quantity := amount_of (nd_Allocatable n) "pods" in
  if 0 <? q_Sign quantity then q_Value quantity else int32_max.

Definition schedulingRequestsFit (requests free : ResourceList) (freePods : Z) : bool :=
  if freePods =? 0 then false else
  forallb (fun name =>
    let requested := amount_of requests name in
    if q_Sign requested =? 0 then true else
    let available := amount_of free name in
    negb ((q_Sign available <=? 0) || (q_nano available <? q_nano requested))) schedulingResourceNames.

Definition schedulingRequestsString (requests : ResourceList) (pods : Z) : string :=
  let part name := if q_Sign (amount_of requests name) =? 0 then []
                   else [name +:+ "=" +:+ q_text (amount_of requests name)] in
  let parts := part "cpu" ++ part "memory" ++ part "ephemeral-storage" ++
    (if 0 <=? pods then ["pods=" +:+ fmt_d pods] else []) in
  if is_empty parts then "none" else Join ", " parts.

(** ** Node states *)

Record schedulingNodeState := mkNodeState {
  sn_node : Node;
  sn_free : ResourceList;
  sn_freePods : Z
}.

(** Pods of DaemonSets by node: the namespace and name of the owners. *)
Definition daemonSetPodsByNode (pods : list Pod) : gmap string (gset string) :=
  fold_left (fun index p =>
    if (ps_NodeName (pod_Spec p) ≡? "") || podTerminated p then index else
    fold_left (fun index o =>
      if (or_APIVersion o ≡? "apps/v1") && (or_Kind o ≡? "DaemonSet")
      then <[ps_NodeName (pod_Spec p) :=
               {[ pod_Namespace p +:+ "/" +:+ or_Name o ]} ∪ default ∅ (index !! ps_NodeName (pod_Spec p))]> index
      else index) (pod_OwnerReferences p) index) pods ∅.

Definition index_has (index : gmap string (gset string)) (nodeName namespace name : string) : bool :=
  bool_decide (namespace +:+ "/" +:+ name ∈ default ∅ (index !! nodeName)).

Definition take_from (state : schedulingNodeState) (spec : PodSpec) : schedulingNodeState :=
  mkNodeState (sn_node state) (subtractSchedulingRequests (sn_free state) (podSchedulingRequests spec))
    (if 0 <? sn_freePods state then sn_freePods state - 1 else sn_freePods state).

(** The pods that are, or are about to be, on the node. *)
Definition pods_on (n : Node) (pods : list Pod) : list PodSpec :=
  pod_Spec <$> filterb (fun p => (ps_NodeName (pod_Spec p) ≡? nd_Name n) && negb (podTerminated p)) pods.

Definition missing_daemons (n : Node) (index : gmap string (gset string)) (daemonSets : list DaemonSet) : list PodSpec :=
  ds_TemplateSpec <$> filterb (fun d =>
    daemonSetShouldRunOnNode d n && negb (index_has index (nd_Name n) (ds_Namespace d) (ds_Name d))) daemonSets.

Definition buildSchedulingNodeStates (nodes : list Node) (pods : list Pod) (daemonSets : list DaemonSet) :
    list schedulingNodeState :=
  let index := daemonSetPodsByNode pods in
  (fun n =>
    let state := mkNodeState n (copyResourceListForScheduling (nd_Allocatable n)) (allocatablePods n) in
    let state := fold_left take_from (pods_on n pods) state in
    fold_left take_from (missing_daemons n index daemonSets) state) <$> filterb nodeReadyForScheduling nodes.

Definition bestAvailableSchedulingCapacity (states : list schedulingNodeState) : string :=
  let best := fold_left (fun best s => keepLargerSchedulingRequests best (sn_free s)) states ∅ in
  let bestPods := fold_left (fun best s => if best <? sn_freePods s then sn_freePods s else best) states 0 in
  schedulingRequestsString best bestPods.

Definition addPodSchedulingDiagnostics (p : Pod) (states : list schedulingNodeState) (b : schedulingBlockerSet) :
    schedulingBlockerSet :=
  let prefix := "runtime pod " +:+ pod_Name p +:+ ": " in
  if is_empty states then addCapacityDiagnostic (prefix +:+ "no Ready schedulable nodes are available") b else
  let placementCandidates := filterb (fun s => podMatchesNodePlacement (pod_Spec p) (sn_node s)) states in
  if is_empty placementCandidates then
    addPlacementDiagnostic (prefix +:+ "no Ready schedulable nodes match node selector or required node affinity") b
  else
  let taintCandidates := filterb (fun s => podToleratesNodeTaints (pod_Spec p) (nd_Taints (sn_node s))) placementCandidates in
  if is_empty taintCandidates then
    addTaintDiagnostic (prefix +:+ "matching nodes only have untolerated NoSchedule or NoExecute taints") b
  else
  let requests := podSchedulingRequests (pod_Spec p) in
  if existsb (fun s => schedulingRequestsFit requests (sn_free s) (sn_freePods s)) taintCandidates then b else
  addCapacityDiagnostic (prefix +:+
    "insufficient allocatable capacity or pod slots after scheduled pods and DaemonSet overhead; requests=" +:+
    schedulingRequestsString requests 1 +:+ " bestAvailable=" +:+ bestAvailableSchedulingCapacity taintCandidates) b.

Definition maxClusterSchedulingDiagnosticPods : nat := 5.

Section calls.
Context {E W : Type} `{!World E W}.

Definition addClusterSchedulingDiagnostics (runtimePods : list Pod) (b : schedulingBlockerSet) :
    M W schedulingBlockerSet :=
  let pendingPods := pendingRuntimePods runtimePods in
  if is_empty pendingPods then mret b else
  let pendingPods := take maxClusterSchedulingDiagnosticPods pendingPods in
  nodes ← perform ListNodes;
  match nodes with
  | Err _ => mret b
  | Ok nodes =>
      if is_empty nodes then
        mret (fold_left (fun b p => addCapacityDiagnostic ("runtime pod " +:+ pod_Name p +:+
          ": no cluster nodes are available for scheduling diagnostics") b) pendingPods b)
      else
      pods ← perform ListAllPods;
      match pods with
      | Err _ => mret b
      | Ok pods =>
          daemonSets ← perform ListDaemonSets;
          let daemonSets := match daemonSets with Ok l => l | Err _ => [] end in
          let nodeStates := buildSchedulingNodeStates nodes pods daemonSets in
          mret (fold_left (fun b p => addPodSchedulingDiagnostics p nodeStates b) pendingPods b)
      end
  end.
End calls.
End diagnostics.

(** ** What the diagnostics mean *)

Definition nano (l : ResourceList) (name : string) : Z := q_nano (amount_of l name).

Definition total (f : ResourceList -> Z) (ls : list ResourceList) : Z := foldr (fun l z => f l + z) 0 ls.
Definition largest (f : ResourceList -> Z) (ls : list ResourceList) : Z := foldr (fun l z => Z.max (f l) z) 0 ls.

(** What a pod asks of a node: its containers together, or its largest init
    container, and the overhead of its runtime class. *)
Definition pod_request (spec : PodSpec) (name : string) : Z :=
  Z.max (total (fun l => nano l name) (ps_Containers spec)) (largest (fun l => nano l name) (ps_InitContainers spec))
  + nano (ps_Overhead spec) name.

(** Requests are never negative. *)
Definition sane_spec (spec : PodSpec) : Prop :=
  forall name, Forall (fun l => 0 <= nano l name) (ps_Containers spec) /\ 0 <= nano (ps_Overhead spec) name.

Lemma amount_insert (l : ResourceList) n q m :
  amount_of (<[n := q]> l) m = if decide (n = m) then q else amount_of l m.
Proof. unfold amount_of. case_decide; [subst; by rewrite lookup_insert_eq|by rewrite lookup_insert_ne]. Qed.

(** A pass that rewrites each resource on its own. *)
Lemma fold_resources (step : ResourceList -> string -> ResourceList) (h : Z -> string -> Z) names (l : ResourceList) :
  (forall l n m, nano (step l n) m = if decide (n = m) then h (nano l n) n else nano l m) -> NoDup names ->
  forall m, nano (fold_left step names l) m = if decide (m ∈ names) then h (nano l m) m else nano l m.
Proof.
  intros Hs. revert l. induction names as [|n names IH]; intros l Hd m; simpl.
  { destruct (decide (m ∈ [])) as [Hin|]; [by apply elem_of_nil in Hin|done]. }
  apply list.NoDup_cons in Hd as [Hn Hd]. rewrite IH, Hs by done. destruct (decide (n = m)) as [->|Hne].
  - rewrite decide_False, decide_True by set_solver. done.
  - destruct (decide (m ∈ names)); [rewrite decide_True by set_solver|rewrite decide_False by set_solver]; done.
Qed.

Lemma names_distinct : NoDup schedulingResourceNames.
Proof. apply (bool_decide_unpack _). vm_compute. done. Qed.

Lemma sgn_zero q : (q_Sign q =? 0) = true <-> q_nano q = 0.
Proof. unfold q_Sign. rewrite Z.eqb_eq. lia. Qed.

Section meaning.
Context `{QuantityArith}.

Lemma each_resource_nano f g l used m :
  (forall a b, q_nano (f a b) = g (q_nano a) (q_nano b)) -> (forall a, g a 0 = a) -> m ∈ schedulingResourceNames ->
  nano (each_resource f l used) m = g (nano l m) (nano used m).
Proof.
  intros Hf Hg Hm. unfold each_resource. rewrite (fold_resources _ (fun z n => g z (nano used n))); [by rewrite decide_True|..|apply names_distinct].
  clear m Hm. intros l' n m. cbv zeta. destruct (q_Sign (amount_of used n) =? 0) eqn:Es.
  - apply sgn_zero in Es. case_decide; [subst|done]. unfold nano. by rewrite Es, Hg.
  - unfold nano. rewrite amount_insert. case_decide; [subst|done]. apply Hf.
Qed.

Lemma add_nano l used m : m ∈ schedulingResourceNames -> nano (addSchedulingRequests l used) m = nano l m + nano used m.
Proof. intros Hm. apply (each_resource_nano q_Add Z.add); [apply q_Add_nano|lia|done]. Qed.

Lemma subtract_nano l used m :
  m ∈ schedulingResourceNames -> nano (subtractSchedulingRequests l used) m = nano l m - nano used m.
Proof. intros Hm. apply (each_resource_nano q_Sub Z.sub); [apply q_Sub_nano|lia|done]. Qed.

Lemma keep_larger_nano l candidate m :
  m ∈ schedulingResourceNames ->
  nano (keepLargerSchedulingRequests l candidate) m =
  if nano candidate m =? 0 then nano l m else Z.max (nano l m) (nano candidate m).
Proof.
  intros Hm. unfold keepLargerSchedulingRequests.
  rewrite (fold_resources _ (fun z n => if nano candidate n =? 0 then z else Z.max z (nano candidate n)));
    [by rewrite decide_True|..|apply names_distinct].
  clear m Hm. intros l' n m. cbv zeta. destruct (q_Sign (amount_of candidate n) =? 0) eqn:Es.
  - apply sgn_zero in Es. case_decide; [subst|done]. unfold nano. by rewrite Es.
  - assert (Hz : (nano candidate n =? 0) = false).
    { apply Z.eqb_neq. intros Hz. apply sgn_zero in Hz. congruence. }
    rewrite Hz. unfold nano. destruct (Z.ltb_spec (q_nano (amount_of l' n)) (q_nano (amount_of candidate n))).
    + rewrite amount_insert. case_decide; [subst; lia|done].
    + case_decide; [subst; lia|done].
Qed.

Lemma copy_nano l m : m ∈ schedulingResourceNames -> nano (copyResourceListForScheduling l) m = nano l m.
Proof.
  intros Hm. unfold copyResourceListForScheduling.
  rewrite (fold_resources _ (fun z n => if nano l n =? 0 then z else nano l n)); [rewrite decide_True by done|..|apply names_distinct].
  - unfold nano at 2. unfold amount_of at 1. rewrite lookup_empty. simpl. destruct (Z.eqb_spec (nano l m) 0); lia.
  - clear m Hm. intros l' n m. cbv zeta. unfold nano. destruct (q_Sign (amount_of l n) =? 0) eqn:Es.
    + apply sgn_zero in Es. rewrite Es. simpl. case_decide; [by subst|done].
    + assert (Hz : (q_nano (amount_of l n) =? 0) = false).
      { apply Z.eqb_neq. intros Hz. apply sgn_zero in Hz. congruence. }
      rewrite Hz, amount_insert. case_decide; [by subst|done].
Qed.

Lemma containers_nano ls l m :
  m ∈ schedulingResourceNames -> nano (fold_left addSchedulingRequests ls l) m = nano l m + total (fun l => nano l m) ls.
Proof.
  intros Hm. revert l. induction ls as [|c ls IH]; intros l; simpl; [lia|]. rewrite IH, add_nano by done. lia.
Qed.

Lemma inits_nano ls l m :
  m ∈ schedulingResourceNames -> 0 <= nano l m ->
  nano (fold_left keepLargerSchedulingRequests ls l) m = Z.max (nano l m) (largest (fun l => nano l m) ls).
Proof.
  intros Hm. revert l. induction ls as [|c ls IH]; intros l Hl; simpl; [lia|].
  assert (Hk : nano (keepLargerSchedulingRequests l c) m = Z.max (nano l m) (nano c m)).
  { rewrite keep_larger_nano by done. destruct (Z.eqb_spec (nano c m) 0); lia. }
  rewrite IH, Hk; lia.
Qed.

Lemma total_nonneg f ls : Forall (fun l => 0 <= f l) ls -> 0 <= total f ls.
Proof. induction 1; simpl; lia. Qed.

Lemma pod_requests_nano spec m :
  m ∈ schedulingResourceNames -> sane_spec spec -> nano (podSchedulingRequests spec) m = pod_request spec m.
Proof.
  intros Hm Hs. destruct (Hs m) as [Hc _]. unfold podSchedulingRequests, pod_request.
  pose proof (total_nonneg _ _ Hc) as Ht.
  assert (He : nano ∅ m = 0) by (unfold nano, amount_of; by rewrite lookup_empty).
  rewrite add_nano, keep_larger_nano, containers_nano, inits_nano, He by (done || lia).
  destruct (Z.eqb_spec (Z.max 0 (largest (fun l => nano l m) (ps_InitContainers spec))) 0); lia.
Qed.

Lemma pod_request_nonneg spec m : sane_spec spec -> 0 <= pod_request spec m.
Proof. intros Hs. destruct (Hs m) as [Hc Ho]. pose proof (total_nonneg _ _ Hc). unfold pod_request. lia. Qed.

(** ** Free capacity of a node *)

Definition taken (specs : list PodSpec) (m : string) : Z := foldr (fun s z => pod_request s m + z) 0 specs.

Lemma take_all specs st m :
  m ∈ schedulingResourceNames -> Forall sane_spec specs ->
  nano (sn_free (fold_left take_from specs st)) m = nano (sn_free st) m - taken specs m.
Proof.
  intros Hm Hs. revert st. induction Hs as [|s specs Hs _ IH]; intros st; simpl; [lia|].
  rewrite IH. simpl. rewrite subtract_nano, pod_requests_nano by done. lia.
Qed.

Lemma take_all_pods specs st :
  0 <= sn_freePods st ->
  sn_freePods (fold_left take_from specs st) = Z.max 0 (sn_freePods st - Z.of_nat (length specs)).
Proof.
  revert st. induction specs as [|s specs IH]; intros st Hp; simpl fold_left; [simpl; lia|].
  rewrite IH; simpl; destruct (Z.ltb_spec 0 (sn_freePods st)); lia.
Qed.

Lemma take_all_node specs st : sn_node (fold_left take_from specs st) = sn_node st.
Proof. revert st. induction specs as [|s specs IH]; intros st; simpl; [done|]. by rewrite IH. Qed.

(** A pod fits on a node beside [specs]: a free slot and, of every resource it
    asks for, as much as it asks for. *)
Definition fits (spec : PodSpec) (n : Node) (specs : list PodSpec) : Prop :=
  Z.of_nat (length specs) < allocatablePods n /\
  forall m, m ∈ schedulingResourceNames -> 0 < pod_request spec m ->
    pod_request spec m <= nano (nd_Allocatable n) m - taken specs m.
End meaning.

(** ** Diagnosis of a pod *)

Section diagnosis.
Context `{QuantityArith} (ToleratesTaint : Toleration -> NodeTaint -> bool)
  (selector_Matches : LabelSelector -> gmap string string -> option bool).

Definition term_holds (t : NodeSelectorTerm) (n : Node) : Prop :=
  (nst_MatchExpressions t <> [] \/ nst_MatchFields t <> []) /\
  Forall (fun r => nodeSelectorRequirementMatches r (nd_Labels n) = true) (nst_MatchExpressions t) /\
  Forall (fun r => nsr_Key r = "metadata.name" /\
    nodeSelectorRequirementMatches r {[ "metadata.name" := nd_Name n ]} = true) (nst_MatchFields t).

(** The node carries the labels the pod selects and satisfies one of its
    required terms. *)
Definition placeable (spec : PodSpec) (n : Node) : Prop :=
  (forall key value, ps_NodeSelector spec !! key = Some value -> default "" (nd_Labels n !! key) = value) /\
  match ps_RequiredNodeTerms spec with
  | None => True
  | Some ts => exists t, t ∈ ts /\ term_holds t n
  end.

Definition repels (t : NodeTaint) : Prop := nt_Effect t = "NoSchedule" \/ nt_Effect t = "NoExecute".

Definition tolerated (spec : PodSpec) (n : Node) : Prop :=
  forall t, t ∈ nd_Taints n -> repels t -> exists tol, tol ∈ ps_Tolerations spec /\ ToleratesTaint tol t = true.

(** The pods a node carries or is about to carry. *)
Definition committed (n : Node) (pods : list Pod) (daemonSets : list DaemonSet) : list PodSpec :=
  pods_on n pods ++ missing_daemons ToleratesTaint selector_Matches n (daemonSetPodsByNode pods) daemonSets.

Lemma forallb_Forall {A} (f : A -> bool) l : forallb f l = true <-> Forall (fun a => f a = true) l.
Proof.
  rewrite List.forallb_forall, list.Forall_forall. by setoid_rewrite list_elem_of_In.
Qed.

Lemma existsb_exists_elem {A} (f : A -> bool) l : existsb f l = true <-> exists a, a ∈ l /\ f a = true.
Proof. rewrite existsb_exists. by setoid_rewrite list_elem_of_In. Qed.

Lemma term_spec t n : nodeSelectorTermMatches t n = true <-> term_holds t n.
Proof.
  unfold nodeSelectorTermMatches, term_holds.
  assert (Hf : forall r, nodeFieldRequirementMatches r n = true <->
    nsr_Key r = "metadata.name" /\ nodeSelectorRequirementMatches r {[ "metadata.name" := nd_Name n ]} = true).
  { intros r. unfold nodeFieldRequirementMatches. case_bool_decide; simpl; naive_solver. }
  assert (Hfs : forallb (fun r => nodeFieldRequirementMatches r n) (nst_MatchFields t) = true <->
    Forall (fun r => nsr_Key r = "metadata.name" /\
      nodeSelectorRequirementMatches r {[ "metadata.name" := nd_Name n ]} = true) (nst_MatchFields t)).
  { rewrite forallb_Forall. by setoid_rewrite Hf. }
  destruct (is_empty (nst_MatchExpressions t) && is_empty (nst_MatchFields t)) eqn:Ee.
  - apply andb_true_iff in Ee as [E1 E2].
    destruct (nst_MatchExpressions t), (nst_MatchFields t); naive_solver.
  - rewrite andb_true_iff, Hfs, forallb_Forall.
    destruct (nst_MatchExpressions t), (nst_MatchFields t); naive_solver.
Qed.

Lemma placeable_spec spec n : podMatchesNodePlacement spec n = true <-> placeable spec n.
Proof.
  unfold podMatchesNodePlacement, placeable. rewrite andb_true_iff, forallb_Forall. apply Morphisms_Prop.and_iff_morphism.
  - rewrite list.Forall_forall. split.
    + intros Hall key value Hk. specialize (Hall (key, value)). rewrite elem_of_map_to_list in Hall.
      by apply bool_decide_eq_true in Hall.
    + intros Hall [key value] Hin%elem_of_map_to_list. apply bool_decide_eq_true. by apply Hall.
  - unfold requiredNodeAffinityMatches. destruct (ps_RequiredNodeTerms spec); [|done].
    rewrite existsb_exists_elem. by setoid_rewrite term_spec.
Qed.

Lemma tolerated_spec spec n : podToleratesNodeTaints ToleratesTaint spec (nd_Taints n) = true <-> tolerated spec n.
Proof.
  unfold podToleratesNodeTaints, tolerated, repels. rewrite forallb_Forall, list.Forall_forall.
  apply forall_proper. intros t. setoid_rewrite orb_true_iff. rewrite existsb_exists_elem, negb_true_iff, orb_false_iff, !bool_decide_eq_false.
  destruct (decide (nt_Effect t = "NoSchedule")), (decide (nt_Effect t = "NoExecute")); naive_solver.
Qed.

Lemma fits_spec p n specs st :
  sane_spec (pod_Spec p) ->
  sn_freePods st = Z.max 0 (allocatablePods n - Z.of_nat (length specs)) ->
  (forall m, m ∈ schedulingResourceNames -> nano (sn_free st) m = nano (nd_Allocatable n) m - taken specs m) ->
  schedulingRequestsFit (podSchedulingRequests (pod_Spec p)) (sn_free st) (sn_freePods st) = true <-> fits (pod_Spec p) n specs.
Proof.
  intros Hs Hp Hf. unfold schedulingRequestsFit, fits. rewrite Hp.
  destruct (Z.eqb_spec (Z.max 0 (allocatablePods n - Z.of_nat (length specs))) 0) as [Hz|Hz]; [split; [done|lia]|].
  rewrite forallb_Forall, list.Forall_forall. split.
  - intros Hall. split; [lia|]. intros m Hm Hr. specialize (Hall m Hm). cbv zeta in Hall.
    rewrite <- Hf by done. rewrite <- pod_requests_nano in * by done. unfold nano in *.
    destruct (q_Sign (amount_of (podSchedulingRequests (pod_Spec p)) m) =? 0) eqn:Es; [apply sgn_zero in Es; lia|].
    apply negb_true_iff, orb_false_iff in Hall as [_ Hle]. lia.
  - intros [_ Hall] m Hm. specialize (Hall m Hm). rewrite <- Hf in Hall by done.
    pose proof (pod_request_nonneg (pod_Spec p) m Hs) as Hn. rewrite <- pod_requests_nano in * by done. unfold nano in *.
    destruct (q_Sign (amount_of (podSchedulingRequests (pod_Spec p)) m) =? 0) eqn:Es; [done|].
    assert (0 < q_nano (amount_of (podSchedulingRequests (pod_Spec p)) m)).
    { destruct (Z.eq_dec (q_nano (amount_of (podSchedulingRequests (pod_Spec p)) m)) 0) as [Hz0|]; [|lia].
      apply sgn_zero in Hz0. congruence. }
    apply negb_true_iff, orb_false_iff. unfold q_Sign. split; lia.
Qed.
Inductive category := ByPlacement | ByTaints | ByCapacity.

Definition extended (c : category) (summary : string) : schedulingBlockerSet -> schedulingBlockerSet :=
  match c with
  | ByPlacement => addPlacementDiagnostic summary
  | ByTaints => addTaintDiagnostic summary
  | ByCapacity => addCapacityDiagnostic summary
  end.

(** The nodes that pass one test after the other. *)
Definition ready (nodes : list Node) (n : Node) : Prop := n ∈ nodes /\ nodeReadyForScheduling n = true.

(** What holds the pod back, if anything does. *)
Definition held_back_by (p : Pod) (nodes : list Node) (pods : list Pod) (ds : list DaemonSet) (c : option category) : Prop :=
  let spec := pod_Spec p in
  let candidate n := ready nodes n /\ placeable spec n in
  let eligible n := candidate n /\ tolerated spec n in
  let room n := fits spec n (committed n pods ds) in
  match c with
  | None => exists n, eligible n /\ room n
  | Some ByPlacement => (exists n, ready nodes n) /\ forall n, ~ candidate n
  | Some ByTaints => (exists n, candidate n) /\ forall n, ~ eligible n
  | Some ByCapacity => (forall n, ~ ready nodes n) \/ ((exists n, eligible n) /\ forall n, ~ (eligible n /\ room n))
  end.

Lemma nonempty_elem {A} (l : list A) : is_empty l = false <-> exists a, a ∈ l.
Proof. destruct l as [|a l]; simpl; [split; [done|by intros [a Ha%elem_of_nil]]|]. split; [|done]. exists a. left. Qed.

Lemma empty_elem {A} (l : list A) : is_empty l = true <-> forall a, a ∉ l.
Proof.
  destruct l as [|a l]; simpl; [by split; [intros _ a Ha%elem_of_nil|]|]. split; [done|].
  intros Hn. destruct (Hn a). left.
Qed.

Lemma filter_states {A B} (f : A -> B) (l : list B) (test : B -> bool) (Q P : A -> Prop) :
  (forall s, s ∈ l <-> exists n, Q n /\ s = f n) -> (forall n, test (f n) = true <-> P n) ->
  forall s, s ∈ filterb test l <-> exists n, (Q n /\ P n) /\ s = f n.
Proof. intros Hl Ht s. rewrite elem_of_filterb, Hl. naive_solver. Qed.

Lemma states_of nodes pods ds st :
  st ∈ buildSchedulingNodeStates ToleratesTaint selector_Matches nodes pods ds <->
  exists n, ready nodes n /\
    st = fold_left take_from (committed n pods ds)
           (mkNodeState n (copyResourceListForScheduling (nd_Allocatable n)) (allocatablePods n)).
Proof.
  unfold buildSchedulingNodeStates, ready, committed. cbv zeta. rewrite list_elem_of_fmap.
  setoid_rewrite elem_of_filterb. setoid_rewrite fold_left_app. naive_solver.
Qed.

Definition sane_cluster (p : Pod) (nodes : list Node) (pods : list Pod) (ds : list DaemonSet) : Prop :=
  sane_spec (pod_Spec p) /\ Forall (fun q => sane_spec (pod_Spec q)) pods /\
  Forall (fun d => sane_spec (ds_TemplateSpec d)) ds /\ Forall (fun n => 0 <= allocatablePods n) nodes.

Lemma committed_sane p nodes pods ds n : sane_cluster p nodes pods ds -> Forall sane_spec (committed n pods ds).
Proof.
  intros (_ & Hp & Hd & _). unfold committed, pods_on, missing_daemons. rewrite Forall_app, !Forall_fmap, !list.Forall_forall.
  rewrite list.Forall_forall in Hp. rewrite list.Forall_forall in Hd.
  split; intros a Ha%elem_of_filterb; simpl; [apply Hp|apply Hd]; apply Ha.
Qed.

Lemma state_fits p nodes pods ds n :
  sane_cluster p nodes pods ds -> n ∈ nodes ->
  let st := fold_left take_from (committed n pods ds)
    (mkNodeState n (copyResourceListForScheduling (nd_Allocatable n)) (allocatablePods n)) in
  schedulingRequestsFit (podSchedulingRequests (pod_Spec p)) (sn_free st) (sn_freePods st) = true <->
  fits (pod_Spec p) n (committed n pods ds).
Proof.
  intros Hs Hn st. pose proof (committed_sane _ _ _ _ n Hs) as Hc. destruct Hs as (Hp & _ & _ & Ha).
  rewrite list.Forall_forall in Ha. specialize (Ha n Hn). apply fits_spec; [done|..].
  - unfold st. by rewrite take_all_pods.
  - intros m Hm. unfold st. rewrite take_all by done. simpl. by rewrite copy_nano.
Qed.

(** The operator's reading of why a pending pod does not run is right: for a
    pod and a cluster with non-negative requests, nothing is added exactly when
    some Ready schedulable node matches the pod's placement, has only tolerated
    taints, and has a free slot and, of each resource the pod asks for, its
    allocatable amount less what its pods and missing DaemonSet pods ask for;
    otherwise one summary is added, to placement when Ready nodes exist but none
    matches, to taints when nodes match but none is tolerated, and to capacity
    when no node is Ready or no tolerated node has room.  A pod's request is the
    sum of its containers or its largest init container, plus overhead. *)
Theorem scheduling_diagnosis p nodes pods ds b :
  sane_cluster p nodes pods ds ->
  exists c, held_back_by p nodes pods ds c /\
    let b' := addPodSchedulingDiagnostics ToleratesTaint p
      (buildSchedulingNodeStates ToleratesTaint selector_Matches nodes pods ds) b in
    match c with
    | None => b' = b
    | Some c => exists summary, b' = extended c summary b
    end.
Proof.
  intros Hs. unfold addPodSchedulingDiagnostics. cbv zeta.
  set (states := buildSchedulingNodeStates _ _ _ _ _). pose proof (states_of nodes pods ds) as Hst. fold states in Hst.
  set (st_of := fun n => fold_left take_from (committed n pods ds)
    (mkNodeState n (copyResourceListForScheduling (nd_Allocatable n)) (allocatablePods n))) in *.
  assert (Hnode : forall n, sn_node (st_of n) = n) by (intros n; unfold st_of; by rewrite take_all_node).
  destruct (is_empty states) eqn:E0.
  { exists (Some ByCapacity). split; [|by eexists]. left. intros n Hn.
    rewrite empty_elem in E0. apply (E0 (st_of n)), Hst. eauto. }
  apply nonempty_elem in E0 as (s0 & (n0 & Hn0 & _)%Hst).
  set (pc := filterb _ states).
  assert (Hpc : forall s, s ∈ pc <-> exists n, (ready nodes n /\ placeable (pod_Spec p) n) /\ s = st_of n).
  { apply filter_states; [exact Hst|]. intros n. rewrite Hnode. apply placeable_spec. }
  destruct (is_empty pc) eqn:E1.
  { exists (Some ByPlacement). split; [|by eexists]. split; [eauto|]. intros n Hn.
    rewrite empty_elem in E1. apply (E1 (st_of n)), Hpc. eauto. }
  apply nonempty_elem in E1 as (s1 & (n1 & Hn1 & _)%Hpc).
  set (tc := filterb _ pc).
  assert (Htc : forall s, s ∈ tc <->
    exists n, ((ready nodes n /\ placeable (pod_Spec p) n) /\ tolerated (pod_Spec p) n) /\ s = st_of n).
  { apply filter_states; [exact Hpc|]. intros n. rewrite Hnode. apply tolerated_spec. }
  destruct (is_empty tc) eqn:E2.
  { exists (Some ByTaints). split; [|by eexists]. split; [eauto|]. intros n Hn.
    rewrite empty_elem in E2. apply (E2 (st_of n)), Htc. eauto. }
  apply nonempty_elem in E2 as (s2 & (n2 & Hn2 & _)%Htc).
  destruct (existsb _ tc) eqn:E3.
  - exists None. split; [|done]. apply existsb_exists_elem in E3 as (s & (n & Hn & ->)%Htc & Hf).
    exists n. split; [done|]. by eapply state_fits; [|apply Hn|].
  - exists (Some ByCapacity). split; [|by eexists]. right. split; [eauto|]. intros n [Hn Hf].
    apply not_true_iff_false in E3. apply E3, existsb_exists_elem. exists (st_of n). split; [apply Htc; eauto|].
    by eapply state_fits; [|apply Hn|].
Qed.
End diagnosis.

(** ** A small cluster *)

#[export] Instance plain_arith : QuantityArith.
Proof.
  refine {| q_Add a b := mkQuantity (q_nano a + q_nano b) ""; q_Sub a b := mkQuantity (q_nano a - q_nano b) "";
    q_Set v _ := mkQuantity (v * nano_per_unit) ""; q_SetMilli v _ := mkQuantity (v * 10 ^ 6) "" |}; done.
Defined.

Definition cores (n : Z) : ResourceList := {[ "cpu" := mkQuantity (n * nano_per_unit) (fmt_d n) ]}.

Definition ex_spec (node : string) (n : Z) : PodSpec :=
  mkPodSpec node {[ "pool" := "trino" ]} None [] [cores n] [] ∅.

Definition ex_pod (name node : string) (n : Z) : Pod :=
  mkPod "ns" name ∅ [] (ex_spec node n) "Pending" None None [].

Definition ex_node : Node :=
  mkNode "a" {[ "pool" := "trino" ]} false [] (cores 4) [mkDeploymentCondition "Ready" ConditionTrue "" ""].

Definition intolerant (_ : Toleration) (_ : NodeTaint) : bool := false.
Definition unselective (_ : LabelSelector) (_ : gmap string string) : option bool := Some true.

Lemma ex_sane node n : 0 <= n -> sane_spec (ex_spec node n).
Proof.
  intros Hn name. simpl.
  assert (Hp : 0 < nano_per_unit) by done. split.
  - repeat constructor. unfold nano, amount_of, cores. destruct (decide (name = "cpu")) as [->|Hne].
    + rewrite lookup_singleton_eq. simpl. lia.
    + rewrite lookup_singleton_ne by done. done.
  - unfold nano, amount_of. by rewrite lookup_empty.
Qed.

Lemma scheduling_diagnosis_witness :
  let diagnose n := addPodSchedulingDiagnostics intolerant (ex_pod "w" "" n)
    (buildSchedulingNodeStates intolerant unselective [ex_node] [ex_pod "v" "a" 3] []) no_blockers in
  sb_all (diagnose 1) = [] /\ length (sb_capacity (diagnose 2)) = 1%nat /\
  exists c, held_back_by intolerant unselective (ex_pod "w" "" 2) [ex_node] [ex_pod "v" "a" 3] [] c /\
    match c with None => diagnose 2 = no_blockers | Some c => exists summary, diagnose 2 = extended c summary no_blockers end.
Proof.
  split; [vm_compute; reflexivity|]. split; [vm_compute; reflexivity|].
  apply (scheduling_diagnosis intolerant unselective (ex_pod "w" "" 2) [ex_node] [ex_pod "v" "a" 3] [] no_blockers).
  split; [|split; [|split]].
  - apply ex_sane. lia.
  - constructor; [apply ex_sane; lia|constructor].
  - constructor.
  - constructor; [vm_compute; discriminate|constructor].
Defined.

(** A selector for the empty value matches a node that does not carry the label,
    which the scheduler would not pick. *)
Lemma empty_selector_value_matches :
  podMatchesNodePlacement (mkPodSpec "" {[ "pool" := "" ]} None [] [] [] ∅) (mkNode "a" ∅ false [] ∅ []) = true.
Proof. reflexivity. Qed.
