(* ===== verification/Shutdown.v ===== *)
(** * Bounded calls and graceful shutdown
    ([internal/external], [internal/trino/controlauth], [internal/gracefulshutdown])

    What the operator asks before it takes a runtime down: whether queries are
    running and whether pods are still terminating.  Decoding JSON is a
    library: [decodeQueries] is [json.Unmarshal] into a list of objects. *)

From S2P Require Import Prelude GoStrings GoTime XTrinodeTypes RuntimeShape ControlEndpoint Status QueryState Retry World.

(** ** Errors of external calls *)

(** Predicates of [k8s.io/apimachinery/pkg/api/errors] and of the [errors]
    package, which look through wrapped errors. *)
Class ErrorKinds (E : Type) `{KubeErrors E} := {
  errors_New : string -> E;
  errors_Join : E -> E -> E;
  error_text : E -> string;
  IsContextError : E -> bool;        (* deadline exceeded or canceled *)
  IsServerTimeout : E -> bool;
  IsTimeout : E -> bool;
  IsServiceUnavailable : E -> bool;
  IsInternalError : E -> bool;
  IsTooManyRequests : E -> bool;
  TransientError : E -> E;
  PermanentError : E -> E;
  transient_not_found : forall e, IsNotFound (TransientError e) = IsNotFound e;
  permanent_not_found : forall e, IsNotFound (PermanentError e) = IsNotFound e
}.

Definition transient_phrases : list string :=
  ["connection refused"; "connection reset"; "broken pipe"; "no such host";
   "network is unreachable"; "i/o timeout"].

Definition containsAny (s : string) (substrs : list string) : bool :=
  existsb (fun sub => Contains s sub) substrs.

Section shutdown.
Context {E W : Type} `{!World E W, ErrorKinds E}.
Context (decodeQueries : string -> result E (list (list (string * json)))).

Definition IsTransient (e : E) : bool :=
  IsContextError e || IsServerTimeout e || IsTimeout e || IsServiceUnavailable e ||
  IsInternalError e || IsTooManyRequests e || IsConflict e ||
  containsAny (error_text e) transient_phrases.

(** The deadline is part of the answer: a call that runs out of time answers
    with a context error. *)
Definition CallWithTimeout (fn : M W (option E)) : M W (option E) :=
  err ← fn;
  mret match err with
       | None => None
       | Some e => Some (if IsTransient e then TransientError e else PermanentError e)
       end.

(** Classifying an error keeps whether there is one, and whether the object was
    absent. *)
Definition same_outcome (r0 r : option E) : Prop :=
  (r0 = None <-> r = None) /\ (IsNotFound <$> r) = (IsNotFound <$> r0).

Lemma timeout_runs (fn : M W (option E)) (P : option E -> list (happening E) -> Prop) :
  runs fn P -> runs (CallWithTimeout fn) (fun r tr => exists r0, P r0 tr /\ same_outcome r0 r).
Proof.
  intros Hf. eapply runs_bind; [exact Hf|]. intros r0 t Hp. apply runs_ret. rewrite app_nil_r.
  exists r0. split; [done|]. split; destruct r0 as [e|]; try done. simpl. f_equal.
  destruct (IsTransient e); [apply transient_not_found|apply permanent_not_found].
Qed.

Lemma timeout_call_runs (m : M W (option E)) (h : option E -> happening E) :
  runs m (fun r tr => tr = [h r]) ->
  runs (CallWithTimeout m) (fun r tr => exists r0, tr = [h r0] /\ (r = None -> r0 = None) /\
    (IsNotFound <$> r) = (IsNotFound <$> r0)).
Proof.
  intros Hm. eapply runs_weaken; [by apply timeout_runs|]. intros r tr (r0 & -> & [Hn Hf]).
  exists r0. split; [done|]. split; [by apply Hn|done].
Qed.

(** ** Control credentials *)

Record Credential := mkCredential { cr_User : string; cr_Password : option string }.

Definition TrinoOperatorUser : string := "xtrinode-operator".

Definition Username (x : XTrinode) : string :=
  match spec_TrinoControlAuth (xt_Spec x) with
  | Some auth => if negb (ca_Username auth ≡? "") then ca_Username auth else TrinoOperatorUser
  | None => TrinoOperatorUser
  end.

Definition passwordSecret (x : XTrinode) : option (string * string) :=
  spec_TrinoControlAuth (xt_Spec x) ≫= ca_PasswordSecret.

Definition CredentialFromXTrinode (x : XTrinode) : M W (result E Credential) :=
  match passwordSecret x with
  | None => mret (Ok (mkCredential (Username x) None))
  | Some (name, key) =>
      secret ← perform (GetSecret (xt_Namespace x) name);
      mret match secret with
           | Err e => Err (Errorf "failed to get trinoControlAuth password Secret: " e)
           | Ok data =>
               match data !! key with
               | None => Err (errors_New "trinoControlAuth password Secret is missing its key")
               | Some password => Ok (mkCredential (Username x) (Some password))
               end
           end
  end.

(** The request [ApplyRequestAuth] prepares. *)
Definition authorized_get (retrying : bool) (url : string) (c : Credential) : M W (result E (Z * result E string)) :=
  let user := if cr_User c ≡? "" then TrinoOperatorUser else cr_User c in
  perform (HTTPGet retrying url user (cr_Password c)).

(** ** Running queries *)

Definition QueryAPIPath : string := "/v1/query".

(** A state that is missing or not a string reads as empty, which is active. *)
Definition query_state (q : list (string * json)) : string :=
  match json_get q "state" with JString s => s | _ => "" end.

Definition any_active (queries : list (list (string * json))) : bool :=
  existsb (fun q => IsActive (query_state q)) queries.

Definition checkQueriesBeforeScaleDownURLWithCredential (queryURL : string) (c : Credential) :
    M W (result E bool) :=
  answer ← authorized_get false queryURL c;
  mret match answer with
       | Err e => Err (Errorf "failed to query coordinator: " e)
       | Ok (status, body) =>
           if negb (status =? 200)
           then Err (errors_New ("coordinator query API returned status " +:+ fmt_d status))
           else match body with
                | Err e => Err (Errorf "failed to read response: " e)
                | Ok text =>
                    match decodeQueries text with
                    | Err e => Err (Errorf "failed to parse response: " e)
                    | Ok queries => Ok (negb (any_active queries))
                    end
                end
       end.

Definition podReady (p : Pod) : bool :=
  match pod_DeletionTimestamp p with
  | Some _ => false
  | None => existsb (fun c => (dc_Type c ≡? "Ready") && (dc_Status c ≡? ConditionTrue)) (pod_Conditions p)
  end.

Definition BuildReleaseName (xtrinodeName : string) : string := ServiceNamePrefix +:+ xtrinodeName.
Definition BuildCoordinatorDeploymentName (xtrinodeName : string) : string :=
  BuildReleaseName xtrinodeName +:+ "-coordinator".
Definition BuildWorkerDeploymentName (xtrinodeName : string) : string :=
  BuildReleaseName xtrinodeName +:+ "-worker".

Definition coordinator_pods_ready (x : XTrinode) : M W (result E bool) :=
  pods ← perform (ListPods (xt_Namespace x) (xt_Name x) "coordinator");
  mret match pods with Err e => Err e | Ok l => Ok (existsb podReady l) end.

Definition coordinatorHasReadyRuntime (x : XTrinode) : M W (result E bool) :=
  coordinator ← perform (GetDeployment (xt_Namespace x) (BuildCoordinatorDeploymentName (xt_Name x)));
  match coordinator with
  | Err e => if negb (IsNotFound e) then mret (Err e) else coordinator_pods_ready x
  | Ok d =>
      if (0 <? dp_ReadyReplicas d) || (0 <? dp_AvailableReplicas d) then mret (Ok true)
      else coordinator_pods_ready x
  end.

Definition CheckQueriesBeforeScaleDown (x : XTrinode) : M W (result E bool) :=
  credential ← CredentialFromXTrinode x;
  match credential with
  | Err e => mret (Err (Errorf "failed to load Trino control credential: " e))
  | Ok c =>
      answer ← checkQueriesBeforeScaleDownURLWithCredential (CoordinatorURL x +:+ QueryAPIPath) c;
      match answer with
      | Ok safe => mret (Ok safe)
      | Err err =>
          ready ← coordinatorHasReadyRuntime x;
          mret match ready with
               | Err e => Err (Errorf "failed to check coordinator runtime after query API error: " e)
               | Ok false => Ok true
               | Ok true => Err err
               end
      end
  end.

(** ** Terminating pods *)

Definition DefaultWorkerGracePeriodSeconds : Z := 3600.

Fixpoint first_terminating (pods : list Pod) : M W (option E) :=
  match pods with
  | [] => mret None
  | p :: pods =>
      match pod_DeletionTimestamp p with
      | None => first_terminating pods
      | Some deleted =>
          let grace := int_mul (default DefaultWorkerGracePeriodSeconds (pod_TerminationGracePeriodSeconds p)) Second in
          now ← perform Now;
          let elapsed := time_sub now deleted in
          if elapsed <? grace
          then mret (Some (errors_New ("pod " +:+ pod_Name p +:+ " still terminating (elapsed: " +:+
                 duration_String elapsed +:+ ", grace: " +:+ duration_String grace +:+ ")")))
          else first_terminating pods
      end
  end.

Definition WaitForPodTermination (x : XTrinode) : M W (option E) :=
  pods ← perform (ListPods (xt_Namespace x) (xt_Name x) "worker");
  match pods with
  | Err e => mret (Some (Errorf "failed to list pods: " e))
  | Ok l => first_terminating l
  end.

(** ** What the checks saw *)

(** The coordinator answered with a list of finished queries. *)
Definition queries_finished (x : XTrinode) (tr : list (happening E)) : Prop :=
  exists user password text queries,
    existT (HTTPGet false (CoordinatorURL x +:+ QueryAPIPath) user password) (Ok (200, Ok text)) ∈ tr /\
    decodeQueries text = Ok queries /\ Forall (fun q => IsTerminal (query_state q) = true) queries.

(** The query API failed and nothing of the coordinator was ready. *)
Definition coordinator_down (x : XTrinode) (tr : list (happening E)) : Prop :=
  (exists d : result E Deployment,
     existT (GetDeployment (xt_Namespace x) (BuildCoordinatorDeploymentName (xt_Name x))) d ∈ tr /\
     match d with
     | Ok d => dp_ReadyReplicas d <= 0 /\ dp_AvailableReplicas d <= 0
     | Err e => IsNotFound e = true
     end) /\
  (exists pods : list Pod, existT (ListPods (xt_Namespace x) (xt_Name x) "coordinator") (Ok pods) ∈ tr /\
     Forall (fun p => podReady p = false) pods).

Definition observed_idle (x : XTrinode) (tr : list (happening E)) : Prop :=
  queries_finished x tr \/ coordinator_down x tr.

Lemma observed_idle_lasting x : lasting (observed_idle x).
Proof. unfold observed_idle, queries_finished, coordinator_down. eauto 30 with lasting. Qed.

Lemma any_active_false queries :
  any_active queries = false -> Forall (fun q => IsTerminal (query_state q) = true) queries.
Proof.
  intros Ha. apply existsb_false in Ha. revert Ha. apply Forall_impl.
  intros q. unfold IsActive. by rewrite negb_false_iff.
Qed.

Lemma credential_runs x :
  runs (CredentialFromXTrinode x) (fun _ tr => Forall quiet tr).
Proof. unfold CredentialFromXTrinode. destruct (passwordSecret x) as [[name key]|]; run; by repeat constructor. Qed.

Lemma ready_runtime_runs x :
  runs (coordinatorHasReadyRuntime x) (fun r tr => Forall quiet tr /\ (r = Ok false -> coordinator_down x tr)).
Proof.
  assert (Hpods : forall d : result E Deployment,
    match d with
    | Ok d => dp_ReadyReplicas d <= 0 /\ dp_AvailableReplicas d <= 0
    | Err e => IsNotFound e = true
    end ->
    let h := existT (GetDeployment (xt_Namespace x) (BuildCoordinatorDeploymentName (xt_Name x))) d in
    runs (coordinator_pods_ready x)
      (fun r tr => Forall quiet (h :: tr) /\ (r = Ok false -> coordinator_down x (h :: tr)))).
  { intros d Hd h. unfold coordinator_pods_ready. run. rename r into pods. split; [by repeat constructor|].
    destruct pods as [pods|e]; [|done]. intros [= Hp]. split.
    - exists d. split; [left|done].
    - exists pods. split; [right; left|by apply existsb_false]. }
  unfold coordinatorHasReadyRuntime. run_call. intros [d|e].
  - destruct ((0 <? dp_ReadyReplicas d) || (0 <? dp_AvailableReplicas d)) eqn:Er; [run; by repeat constructor|].
    apply (Hpods (Ok d)). apply orb_false_iff in Er as [?%Z.ltb_ge ?%Z.ltb_ge]. done.
  - destruct (IsNotFound e) eqn:En; simpl; [|run; by repeat constructor]. by apply (Hpods (Err e)).
Qed.

(** The check is read-only and says yes only after it saw an idle or absent
    coordinator. *)
Lemma check_queries_runs x :
  runs (CheckQueriesBeforeScaleDown x)
    (fun r tr => Forall quiet tr /\ (r = Ok true -> observed_idle x tr)).
Proof.
  unfold CheckQueriesBeforeScaleDown. eapply runs_bind; [apply credential_runs|]. intros [c|e] t1 Ht1; [|run; by rewrite app_nil_r].
  apply (runs_bind _ _ (fun r tr => Forall quiet tr /\ (r = Ok true -> queries_finished x tr))).
  { unfold checkQueriesBeforeScaleDownURLWithCredential, authorized_get. run_call. intros a.
    apply runs_ret. split; [by repeat constructor|].
    destruct a as [[status [text|e]]|e]; destruct (Z.eqb_spec status 200) as [->|] || idtac; simpl; try done.
    destruct (decodeQueries text) as [queries|e] eqn:Eq; [|done]. intros [= Hn%negb_true_iff].
    eexists _, _, text, queries. split; [left|]. split; [done|by apply any_active_false]. }
  intros [safe|err] t2 [Ht2 Hs]; [|eapply runs_bind; [apply ready_runtime_runs|]; intros [ready|e] t3 [Ht3 Hd]].
  - run. split; [by rewrite !Forall_app|]. intros [= ->]. left.
    destruct (Hs eq_refl) as (u & p & text & qs & Hin & ?). exists u, p, text, qs. split; [set_solver|done].
  - run. split; [by rewrite !Forall_app|]. intros Hr. right. destruct ready; [done|].
    destruct (Hd eq_refl) as [(d & Hin & ?) (pods & Hin' & ?)].
    split; [exists d|exists pods]; (split; [set_solver|done]).
  - run. split; [by rewrite !Forall_app|done].
Qed.

Lemma pod_termination_runs x : runs (WaitForPodTermination x) (fun _ tr => Forall quiet tr).
Proof.
  unfold WaitForPodTermination. run_call. intros [pods|e]; [|run; by repeat constructor].
  enough (Hf : runs (first_terminating pods) (fun _ tr => Forall quiet tr))
    by (eapply runs_weaken; [exact Hf|]; by constructor).
  induction pods as [|p pods IH]; simpl; [run; constructor|]. destruct (pod_DeletionTimestamp p); [|done].
  run_call. intros now. destruct (_ <? _); [run; by repeat constructor|].
  eapply runs_weaken; [exact IH|]. by constructor.
Qed.
End shutdown.

(** ** The predicates on the errors of [kube_error] *)

Fixpoint kube_text (e : kube_error) : string :=
  match e with
  | KConflict => "conflict"
  | KNotFound => "not found"
  | KAlreadyExists => "already exists"
  | KTimeout => "timed out waiting for the condition"
  | KOther msg => msg
  | KWrap msg e => msg +:+ kube_text e
  end.

#[export] Program Instance kube_kinds : ErrorKinds kube_error := {
  errors_New := KOther;
  errors_Join := fun e1 e2 => KOther (kube_text e1 +:+ kube_text e2);
  error_text := kube_text;
  IsContextError := fun _ => false;
  IsServerTimeout := fun e => kube_root e ≡? KTimeout;
  IsTimeout := fun e => kube_root e ≡? KTimeout;
  IsServiceUnavailable := fun _ => false;
  IsInternalError := fun _ => false;
  IsTooManyRequests := fun _ => false;
  TransientError := KWrap "transient error: ";
  PermanentError := KWrap "permanent error: "
}.
Solve All Obligations with done.
