(* ===== verification/Operator.v ===== *)
(** * Shared parts of the operator
    ([controllers/xtrinode_helpers.go], [xtrinode_status.go], [xtrinode_scale.go])

    Writing conditions and status, error status, scaling of the two
    Deployments.  A function that changes the object its caller holds returns
    the new object. *)

From S2P Require Import Prelude GoStrings GoTime XTrinodeTypes RuntimeShape ControlEndpoint Status Retry World Shutdown.

(** ** Names *)

Definition WorkerServiceNameSuffix : string := "-worker".
Definition BuildWorkerServiceName (xtrinodeName : string) : string :=
  ServiceNamePrefix +:+ xtrinodeName +:+ WorkerServiceNameSuffix.
Definition BuildScaledObjectName (xtrinodeName : string) : string := BuildReleaseName xtrinodeName +:+ "-workers".

Definition ConditionTypeReconciling : string := "Reconciling".
Definition ConditionTypeKEDAReady : string := "KEDAReady".
Definition ConditionTypeGatewayReady : string := "GatewayReady".
Definition ConditionTypeNodePoolReady : string := "NodePoolReady".
Definition ConditionReasonAllComponentsReady : string := "AllComponentsReady".
Definition ConditionReasonReconciling : string := "Reconciling".
Definition ConditionReasonSuspended : string := "Suspended".
Definition ConditionReasonGatewayFailed : string := "GatewayRegistrationFailed".
Definition ConditionReasonRuntimeReady : string := "RuntimeReady".
Definition ConditionReasonRuntimeNotReady : string := "RuntimeNotReady".
Definition ConditionReasonKEDAScaleFailed : string := "KEDAScaleFailed".
Definition ConditionReasonKEDAPlatformMissing : string := "KEDAPlatformMissing".
Definition ConditionReasonNodePoolFailed : string := "NodePoolProvisioningFailed".
Definition ConditionReasonResumeFailed : string := "ResumeFailed".
Definition ConditionReasonNoError : string := "NoError".
Definition ConditionReasonNotSuspended : string := "NotSuspended".

(** The controllers' own check, which ignores blank settings. *)
Definition controllers_isKEDAEnabled (x : XTrinode) : bool :=
  match spec_KEDA (xt_Spec x) with
  | None => false
  | Some k =>
      match keda_Enabled k with
      | None => false
      | Some enabled =>
          enabled && (negb (keda_ScalerType k ≡? "") || negb (keda_ScalingMetric k ≡? "") ||
                      set_nonblank (keda_PrometheusServer k) || set_nonblank (keda_PrometheusQuery k) ||
                      set_nonblank (keda_HTTPEndpoint k))
      end
  end.

Section operator.
Context {E W : Type} `{!World E W, KubeErrors E, !ErrorKinds E, WaitBackoff E}.

(** ** Conditions and events *)

Definition recordEvent (ev : event) : M W unit := perform (RecordEvent ev).

Fixpoint recordEvents (evs : list event) : M W unit :=
  match evs with
  | [] => mret tt
  | ev :: evs => _ ← recordEvent ev; recordEvents evs
  end.

Definition setCondition (t : string) (s : ConditionStatus) (reason message : string) (x : XTrinode) : M W XTrinode :=
  now ← perform Now; mret (SetCondition now t s reason message x).

Definition setConditionWithEvents (t : string) (s : ConditionStatus) (reason message : string) (x : XTrinode) :
    M W XTrinode :=
  now ← perform Now;
  let '(x, evs) := SetConditionWithEvents now t s reason message x (Some []) in
  _ ← recordEvents (default [] evs); mret x.

(** ** Writing the status *)

(** Every attempt reads the object again and applies the mutation to it; the
    object read by the refresh is thrown away. *)
Definition updateStatusWithRetry (namespace name : string) (mutateStatus : XTrinode -> M W XTrinode) :
    M W (option E) :=
  '(err, _) ← retry_local
    (fun _ : unit => fresh ← perform (GetXTrinode namespace name);
       mret (match fresh with Err e => Some e | Ok _ => None end, tt))
    (fun _ : unit => fresh ← perform (GetXTrinode namespace name);
       match fresh with
       | Err e => mret (Some e, tt)
       | Ok t => t ← mutateStatus t; r ← perform (UpdateXTrinodeStatus t);
                 mret (match r with Err e => Some e | Ok _ => None end, tt)
       end) tt;
  mret err.

(** The captured status replaces the stored one, but a newer activity
    timestamp survives. *)
Definition apply_status (captured : XTrinodeStatus) (t : XTrinode) : XTrinode :=
  let fresh := st_LastActivity (xt_Status t) in
  let t := set_Status captured t in
  match fresh, st_LastActivity captured with
  | Some f, Some c => if time_after f c then set_LastActivity fresh t else t
  | Some f, None => set_LastActivity fresh t
  | None, _ => t
  end.

Definition updateStatus (x : XTrinode) : M W (option E) :=
  updateStatusWithRetry (xt_Namespace x) (xt_Name x) (fun t => mret (apply_status (xt_Status x) t)).

Definition setXTrinodeErrorStatusAndUpdate (reason message : string) (x : XTrinode) : M W (option E * XTrinode) :=
  let x := set_Phase PhaseError x in
  x ← setConditionWithEvents ConditionTypeError ConditionTrue reason message x;
  x ← setConditionWithEvents ConditionTypeReady ConditionFalse reason message x;
  x ← setCondition ConditionTypeReconciling ConditionFalse reason message x;
  let capturedConditions := st_Conditions (xt_Status x) in
  err ← updateStatusWithRetry (xt_Namespace x) (xt_Name x)
          (fun t => mret (set_Conditions capturedConditions (set_Phase PhaseError t)));
  mret (err, x).

(** ** Scaling *)

Definition scale_event (oldReplicas replicas : Z) : event :=
  let text := "Workers scaled from " +:+ fmt_d oldReplicas +:+ " to " +:+ fmt_d replicas +:+ " replicas" in
  if oldReplicas <? replicas then Normal "WorkersScaledUp" text else Normal "WorkersScaledDown" text.

Definition scaleDeployment (x : XTrinode) (deploymentName : string) (replicas : Z) (deploymentType : string) :
    M W (option E) :=
  deployment ← perform (GetDeployment (xt_Namespace x) deploymentName);
  match deployment with
  | Err e =>
      if IsNotFound e then mret None
      else mret (Some (Errorf ("failed to get " +:+ deploymentType +:+ " deployment: ") e))
  | Ok d =>
      let oldReplicas := default 0 (dp_SpecReplicas d) in
      err ← perform (ScaleDeployment (xt_Namespace x) deploymentName replicas);
      match err with
      | Some e => mret (Some (Errorf ("failed to scale " +:+ deploymentType +:+ " deployment: ")
                                (Errorf "failed to update scale subresource: " e)))
      | None =>
          if (deploymentType ≡? "worker") && negb (oldReplicas =? replicas)
          then _ ← recordEvent (scale_event oldReplicas replicas); mret None
          else mret None
      end
  end.

Definition scaleCoordinatorOnly (x : XTrinode) (coordinatorReplicas : Z) : M W (option E) :=
  scaleDeployment x (BuildCoordinatorDeploymentName (xt_Name x)) coordinatorReplicas "coordinator".

Definition scaleDeployments (x : XTrinode) (coordinatorReplicas workerReplicas : Z) : M W (option E) :=
  err ← scaleDeployment x (BuildCoordinatorDeploymentName (xt_Name x)) coordinatorReplicas "coordinator";
  match err with
  | Some e => mret (Some e)
  | None => scaleDeployment x (BuildWorkerDeploymentName (xt_Name x)) workerReplicas "worker"
  end.

(** ** What these do to the world *)

(** Reads, events, and writes of a runtime's status. *)
Definition clerical (c : call) : bool :=
  read_only c || match c with RecordEvent _ | UpdateXTrinodeStatus _ => true | _ => false end.

Definition bookkeeping (h : happening E) : Prop := clerical (projT1 h) = true.

Lemma quiet_bookkeeping h : quiet h -> bookkeeping h.
Proof. unfold quiet, bookkeeping, clerical. by intros ->. Qed.

Lemma quiet_bookkeepings tr : Forall quiet tr -> Forall bookkeeping tr.
Proof. apply Forall_impl, quiet_bookkeeping. Qed.

(** Reads and events. *)
Definition noting (h : happening E) : Prop :=
  match projT1 h with RecordEvent _ => True | c => read_only c = true end.

Lemma noting_bookkeeping h : noting h -> bookkeeping h.
Proof. unfold noting, bookkeeping, clerical. destruct (projT1 h); try done; by intros ->. Qed.

Lemma noting_bookkeepings tr : Forall noting tr -> Forall bookkeeping tr.
Proof. apply Forall_impl, noting_bookkeeping. Qed.

Lemma quiet_notings tr : Forall quiet tr -> Forall noting tr.
Proof. apply Forall_impl. intros h. unfold quiet, noting. by destruct (projT1 h). Qed.

Lemma emits_noting {A} (m : M W A) (R : A -> Prop) : emits noting m R -> emits bookkeeping m R.
Proof. intros Hm. eapply emits_weaken; [exact Hm|apply noting_bookkeeping|done]. Qed.

(** The object keeps its name. *)
Definition same_key (x y : XTrinode) : Prop :=
  xt_Namespace y = xt_Namespace x /\ xt_Name y = xt_Name x.

Lemma recordEvents_notes evs : emits noting (recordEvents evs) (fun _ => True).
Proof.
  induction evs as [|ev evs IH]; simpl; [by apply emits_ret|].
  unfold recordEvent. by emit_call.
Qed.

(** Everything but the status is left alone. *)
Definition only_status (x y : XTrinode) : Prop := exists st, y = set_Status st x.

#[export] Instance only_status_preorder : PreOrder only_status.
Proof.
  split.
  - intros x. exists (xt_Status x). by destruct x.
  - intros x y z [st ->] [st' ->]. by exists st'.
Qed.

Lemma only_status_key x y : only_status x y -> same_key x y.
Proof. by intros [st ->]. Qed.

(** Updating one condition keeps the other conditions and status fields. *)
Definition only_conditions (x y : XTrinode) : Prop := exists cs, y = set_Conditions cs x.

#[export] Instance only_conditions_preorder : PreOrder only_conditions.
Proof.
  split.
  - intros x. exists (st_Conditions (xt_Status x)). by destruct x as [? ? ? ? ? ? ? ? ? ? []].
  - intros x y z [cs ->] [cs' ->]. by exists cs'.
Qed.

Lemma only_conditions_status x y : only_conditions x y -> only_status x y.
Proof. intros [cs ->]. by eexists. Qed.

Lemma setCondition_notes t s reason message x :
  emits noting (setCondition t s reason message x) (fun y => only_conditions x y /\ current_status y t = s).
Proof.
  unfold setCondition. emit_call. intros now. apply emits_ret. split; [by eexists|apply set_condition_status].
Qed.

Lemma setCondition_emits t s reason message x :
  emits bookkeeping (setCondition t s reason message x) (only_conditions x).
Proof. eapply emits_weaken; [apply setCondition_notes|apply noting_bookkeeping|by intros y []]. Qed.

Lemma setCondition_sets t s reason message x :
  emits bookkeeping (setCondition t s reason message x)
    (fun y => only_conditions x y /\ current_status y t = s).
Proof. apply emits_noting, setCondition_notes. Qed.

Lemma setConditionWithEvents_notes t s reason message x :
  emits noting (setConditionWithEvents t s reason message x) (only_conditions x).
Proof.
  unfold setConditionWithEvents. emit_call. intros now.
  destruct (SetConditionWithEvents now t s reason message x (Some [])) as [y evs] eqn:Es.
  assert (Hy : only_conditions x y).
  { unfold SetConditionWithEvents in Es. case_bool_decide; injection Es as <- _; by eexists. }
  eapply emits_bind; [apply recordEvents_notes|]. intros _ _. by apply emits_ret.
Qed.

Lemma setConditionWithEvents_emits t s reason message x :
  emits bookkeeping (setConditionWithEvents t s reason message x) (only_conditions x).
Proof. apply emits_noting, setConditionWithEvents_notes. Qed.

(** Every stored status has [R], and nothing but reads and what [mutate] does
    happens besides. *)
Lemma updateStatusWithRetry_stores (P : happening E -> Prop) (R : XTrinode -> Prop) ns n mutate :
  (forall r, P (existT (GetXTrinode ns n) r)) ->
  (forall t, emits P (mutate t) R) ->
  (forall y r, R y -> P (existT (UpdateXTrinodeStatus y) r)) ->
  emits P (updateStatusWithRetry ns n mutate) (fun _ => True).
Proof.
  intros Hget Hm Hput. eapply emits_bind; [apply (emits_retry _ _ _ tt (fun _ => True) (fun _ => True)); [done|]|].
  - intros _ _. emit_call. intros [x|e]; apply emits_ret; [|done].
    emit_call. intros [y|e]; [|by apply emits_ret].
    eapply emits_bind; [apply Hm|]. intros z Hz.
    emit_call; [by intros r; apply Hput|]. intros [t|e]; by apply emits_ret.
  - intros [e l] _. by apply emits_ret.
Qed.

Lemma updateStatusWithRetry_emits ns n mutate :
  (forall t, emits bookkeeping (mutate t) (fun _ => True)) ->
  emits bookkeeping (updateStatusWithRetry ns n mutate) (fun _ => True).
Proof. intros Hm. by apply (updateStatusWithRetry_stores _ (fun _ => True)). Qed.

(** Bookkeeping in which a stored status has the phase [p]. *)
Definition reporting (p : string) (h : happening E) : Prop :=
  bookkeeping h /\ forall y, projT1 h = UpdateXTrinodeStatus y -> st_Phase (xt_Status y) = p.

Lemma reporting_bookkeeping p h : reporting p h -> bookkeeping h.
Proof. by intros []. Qed.

Lemma noting_reporting p h : noting h -> reporting p h.
Proof. intros Hn. split; [by apply noting_bookkeeping|]. intros y Hy. unfold noting in Hn. by rewrite Hy in Hn. Qed.

Lemma updateStatus_reports x :
  emits (reporting (st_Phase (xt_Status x))) (updateStatus x) (fun _ => True).
Proof.
  apply (updateStatusWithRetry_stores _ (fun y => st_Phase (xt_Status y) = st_Phase (xt_Status x))).
  - intros r. by split.
  - intros t. apply emits_ret. unfold apply_status. by repeat case_match.
  - intros y r Hy. split; [done|]. by intros z [= <-].
Qed.

(** The status of [x] was written over the object read last. *)
Definition stored (x : XTrinode) (tr : list (happening E)) : Prop :=
  exists t t', existT (GetXTrinode (xt_Namespace x) (xt_Name x)) (Ok t) ∈ tr /\
    existT (UpdateXTrinodeStatus (apply_status (xt_Status x) t)) (Ok t') ∈ tr.

Lemma stored_lasting x : lasting (stored x).
Proof. unfold stored. eauto 8 with lasting. Qed.

Lemma updateStatus_stores x : runs (updateStatus x) (fun r tr => r = None -> stored x tr).
Proof.
  unfold updateStatus, updateStatusWithRetry. eapply runs_bind.
  { apply (runs_retry _ _ tt (fun _ _ => True) (fun _ tr => stored x tr)); [done|].
    intros _ t _. run_call. intros [a|e]; apply runs_ret; [|done].
    run_call. intros [b|e]; [|by apply runs_ret]. apply runs_ret_bind. run_call. intros [t'|e]; apply runs_ret; [|done]. exists b, t'. set_solver. }
  intros [e l] t1 Ht1. apply runs_ret. rewrite app_nil_r. by destruct e.
Qed.

Lemma updateStatus_runs x :
  runs (updateStatus x) (fun r tr =>
    Forall (reporting (st_Phase (xt_Status x))) tr /\ (r = None -> stored x tr)).
Proof.
  eapply runs_weaken; [apply (runs_and _ _ _ (updateStatus_reports x) (updateStatus_stores x))|].
  by intros r tr [[? _] ?].
Qed.

Lemma updateStatus_emits x : emits bookkeeping (updateStatus x) (fun _ => True).
Proof. eapply emits_weaken; [apply updateStatus_reports|apply reporting_bookkeeping|done]. Qed.

Lemma setError_emits reason message x :
  emits bookkeeping (setXTrinodeErrorStatusAndUpdate reason message x)
    (fun '(_, y) => only_conditions (set_Phase PhaseError x) y).
Proof.
  eapply emits_bind; [apply setConditionWithEvents_emits|]. intros x1 H1.
  eapply emits_bind; [apply setConditionWithEvents_emits|]. intros x2 H2.
  eapply emits_bind; [apply setCondition_emits|]. intros x3 H3.
  eapply emits_bind; [apply updateStatusWithRetry_emits; intros t; by apply emits_ret|].
  intros e _. apply emits_ret.
  by rewrite H1, H2.
Qed.

Definition is_scaling (h : happening E) : Prop :=
  match projT1 h with ScaleDeployment _ _ _ => True | _ => False end.

Lemma bookkeeping_not_scaling h : bookkeeping h -> ~ is_scaling h.
Proof. unfold bookkeeping, is_scaling, clerical. destruct (projT1 h); simpl; naive_solver. Qed.

(** [tr] contains a successful scaling of the Deployment, or the Deployment
    does not exist. *)
Definition scaled (namespace name : string) (replicas : Z) (tr : list (happening E)) : Prop :=
  existT (ScaleDeployment namespace name replicas) None ∈ tr \/
  exists e, existT (GetDeployment namespace name) (Err e) ∈ tr /\ IsNotFound e = true.

Lemma scaled_lasting namespace name replicas : lasting (scaled namespace name replicas).
Proof. unfold scaled. eauto 8 with lasting. Qed.

Definition scaling (namespace name : string) (replicas : Z) (h : happening E) : Prop :=
  noting h \/ projT1 h = ScaleDeployment namespace name replicas.

Lemma scaleDeployment_runs x name replicas kind :
  runs (scaleDeployment x name replicas kind) (fun r tr =>
    Forall (scaling (xt_Namespace x) name replicas) tr /\
    (r = None -> scaled (xt_Namespace x) name replicas tr)).
Proof.
  unfold scaleDeployment, recordEvent. run_call. intros [d|e].
  - run_call. intros [e|].
    { apply runs_ret. split; [|done]. constructor; [by left|]. constructor; [by right|constructor]. }
    destruct (_ && _).
    + run_call. intros []. apply runs_ret. split; [|intros _; left; right; left].
      constructor; [by left|]. constructor; [by right|]. constructor; [by left|constructor].
    + apply runs_ret. split; [|intros _; left; right; left].
      constructor; [by left|]. constructor; [by right|constructor].
  - destruct (IsNotFound e) eqn:En; apply runs_ret; (split; [constructor; [by left|constructor]|]); [|done].
    intros _. right. exists e. split; [left|done].
Qed.

Lemma scaleDeployments_runs x c n :
  let coordinator := BuildCoordinatorDeploymentName (xt_Name x) in
  let worker := BuildWorkerDeploymentName (xt_Name x) in
  runs (scaleDeployments x c n) (fun r tr =>
    Forall (fun h => scaling (xt_Namespace x) coordinator c h \/ scaling (xt_Namespace x) worker n h) tr /\
    (r = None -> scaled (xt_Namespace x) coordinator c tr /\ scaled (xt_Namespace x) worker n tr)).
Proof.
  intros coordinator worker. eapply runs_bind; [apply scaleDeployment_runs|]. intros r t1 [Ht1 Hs1].
  fold coordinator in Ht1, Hs1.
  assert (Ht1' : Forall (fun h => scaling (xt_Namespace x) coordinator c h \/ scaling (xt_Namespace x) worker n h) t1).
  { revert Ht1. apply Forall_impl. by left. }
  destruct r as [e|]; [apply runs_ret; by rewrite app_nil_r|].
  eapply runs_weaken; [apply scaleDeployment_runs|]. intros r t2 [Ht2 Hs2]. split.
  - apply Forall_app. split; [done|]. revert Ht2. apply Forall_impl. by right.
  - intros Hr. specialize (Hs1 eq_refl). specialize (Hs2 Hr).
    unfold scaled in *. split; setoid_rewrite elem_of_app; naive_solver.
Qed.
End operator.

Arguments clerical c /.
