(* ===== verification/Guardrails.v ===== *)
(** * Namespace guardrails ([controllers/namespace_guardrails.go])

    The ResourceQuota and LimitRange the operator keeps in a namespace: their
    amounts from the resolved shapes of all runtimes there, including the pods a
    rolling update adds, and the objects themselves in the four operator modes.
    Scaling a percentage belongs to the Kubernetes libraries and is a parameter. *)

From stdpp Require Import pretty.
From S2P Require Import Prelude GoStrings GoTime GoParse XTrinodeTypes RuntimeShape DataSize ControlEndpoint Status Retry World Shutdown Operator Scheduling.

Definition DefaultNamespaceResourceQuotaName : string := "xtrinode-namespace-quota".
Definition DefaultNamespaceLimitRangeName : string := "xtrinode-namespace-limits".
Definition guardrailScopeLabel : string := "xtrinode.analytics.xtrinode.io/guardrail-scope".
Definition guardrailScopeNamespace : string := "namespace".
Definition managedByLabel : string := "app.kubernetes.io/managed-by".
Definition managedByXTrinodeOperator : string := "xtrinode-operator".
Definition ManagedLabel : string := "xtrinode.analytics.xtrinode.io/managed".
Definition RuntimeLabel : string := "xtrinode.analytics.xtrinode.io/runtime".

Definition NamespaceGuardrailModeManaged : string := "managed".
Definition NamespaceGuardrailModeCreateOnly : string := "createOnly".
Definition NamespaceGuardrailModeObserve : string := "observe".
Definition NamespaceGuardrailModeDisabled : string := "disabled".

Definition ConditionTypeGuardrailsReady : string := "GuardrailsReady".

(** The reconciler's settings. *)
Record GuardrailSettings := mkGuardrailSettings {
  NamespaceGuardrailMode : string;
  NamespaceResourceQuotaName : string;
  NamespaceLimitRangeName : string
}.

Definition namespaceGuardrailMode (r : GuardrailSettings) : string :=
  let mode := ToLower (TrimSpace (NamespaceGuardrailMode r)) in
  if (mode ≡? "") || (mode ≡? NamespaceGuardrailModeManaged) then NamespaceGuardrailModeManaged else
  if (mode ≡? "createonly") || (mode ≡? "create-only") then NamespaceGuardrailModeCreateOnly else
  if mode ≡? NamespaceGuardrailModeObserve then NamespaceGuardrailModeObserve else
  if mode ≡? NamespaceGuardrailModeDisabled then NamespaceGuardrailModeDisabled
  else NamespaceGuardrailModeManaged.

Definition namespaceResourceQuotaName (r : GuardrailSettings) : string :=
  let name := TrimSpace (NamespaceResourceQuotaName r) in
  if name ≡? "" then DefaultNamespaceResourceQuotaName else name.

Definition namespaceLimitRangeName (r : GuardrailSettings) : string :=
  let name := TrimSpace (NamespaceLimitRangeName r) in
  if name ≡? "" then DefaultNamespaceLimitRangeName else name.

Definition namespaceGuardrailLabels : gmap string string :=
  {[ managedByLabel := managedByXTrinodeOperator; ManagedLabel := "true"; guardrailScopeLabel := guardrailScopeNamespace ]}.

Definition isXTrinodeNamespaceGuardrail (labels : gmap string string) : bool :=
  (default "" (labels !! managedByLabel) ≡? managedByXTrinodeOperator) &&
  (default "" (labels !! ManagedLabel) ≡? "true") &&
  (default "" (labels !! guardrailScopeLabel) ≡? guardrailScopeNamespace).

Definition buildNamespaceResourceQuotaWithName (name namespace : string) (maxCPU maxMemory : Quantity) : Guardrail :=
  mkGuardrail name namespace namespaceGuardrailLabels (QuotaSpec {[ "cpu" := maxCPU; "memory" := maxMemory ]}).

Definition buildNamespaceLimitRangeWithName (name namespace : string)
    (workerCPUReq workerMemReq workerCPULim workerMemLim : Quantity) : Guardrail :=
  let limits : ResourceList := {[ "cpu" := workerCPULim; "memory" := workerMemLim ]} in
  mkGuardrail name namespace namespaceGuardrailLabels
    (LimitRangeSpec [mkLimitRangeItem "Container" limits {[ "cpu" := workerCPUReq; "memory" := workerMemReq ]} limits]).

(** ** Amounts *)

Record namespaceGuardrailLimits := mkGuardrailLimits {
  gl_MaxCPU : Quantity;
  gl_MaxMemory : Quantity;
  gl_WorkerCPURequest : Quantity;
  gl_WorkerMemoryRequest : Quantity;
  gl_WorkerCPULimit : Quantity;
  gl_WorkerMemoryLimit : Quantity;
  gl_RuntimeCount : Z
}.

Definition resourceFromList (l : ResourceList) (name : string) : Quantity := amount_of l name.

(** [MilliValue], rounding up. *)
Definition q_MilliValue (q : Quantity) : Z := wrap64 (- ((- q_nano q) / 10 ^ 6)).

Definition maxQuantity (current candidate : Quantity) : Quantity :=
  if q_nano candidate <=? q_nano current then current else candidate.

Definition rolloutMaxSurge (x : XTrinode) : IntOrString :=
  default (mkIntOrString intstr_String 0 "25%")
    (rp ← spec_RolloutPolicy (xt_Spec x); ru ← rp_RollingUpdateStrategy rp; ru_MaxSurge ru).

Section guardrails.
Context `{QuantityParser} `{QuantityArith}.
(** [intstr.GetScaledValueFromIntOrPercent], rounding up. *)
Context (GetScaledValue : IntOrString -> Z -> option Z).
Context (hash16 : hash_input -> string) (shape_error_text : shape_error -> string).

Definition rolloutSurgeReplicas (x : XTrinode) (replicas : Z) : Z :=
  if replicas <=? 0 then 0 else
  match GetScaledValue (rolloutMaxSurge x) replicas with
  | None => 0
  | Some value => if value <? 0 then 0 else if int32_max <? value then int32_max else value
  end.

Definition coordinatorQuotaPods (x : XTrinode) : Z := wrap32 (1 + rolloutSurgeReplicas x 1).
Definition workerQuotaPods (x : XTrinode) (shape : ResolvedRuntimeShape) : Z :=
  wrap32 (sh_QuotaWorkers shape + rolloutSurgeReplicas x (sh_QuotaWorkers shape)).

(** [pods] times an amount, in thousandths and in units. *)
Definition scale_milli (pods : Z) (q : Quantity) : Quantity := q_SetMilli (int_mul pods (q_MilliValue q)) q.
Definition scale_units (pods : Z) (q : Quantity) : Quantity := q_Set (int_mul pods (q_Value q)) q.

Definition shapeQuotaLimits (x : XTrinode) (shape : ResolvedRuntimeShape) : Quantity * Quantity :=
  let amount scale name :=
    q_Add (scale (coordinatorQuotaPods x) (resourceFromList (res_Limits (sh_Coordinator shape)) name))
          (scale (workerQuotaPods x shape) (resourceFromList (res_Limits (sh_Worker shape)) name)) in
  (amount scale_milli "cpu", amount scale_units "memory").

Definition no_limits : namespaceGuardrailLimits := mkGuardrailLimits q_zero q_zero q_zero q_zero q_zero q_zero 0.

Definition add_runtime (x : XTrinode) (shape : ResolvedRuntimeShape) (l : namespaceGuardrailLimits) :
    namespaceGuardrailLimits :=
  let '(maxCPU, maxMemory) := shapeQuotaLimits x shape in
  let requests := res_Requests (sh_Worker shape) in
  let limits := res_Limits (sh_Worker shape) in
  mkGuardrailLimits (q_Add (gl_MaxCPU l) maxCPU) (q_Add (gl_MaxMemory l) maxMemory)
    (maxQuantity (gl_WorkerCPURequest l) (resourceFromList requests "cpu"))
    (maxQuantity (gl_WorkerMemoryRequest l) (resourceFromList requests "memory"))
    (maxQuantity (gl_WorkerCPULimit l) (resourceFromList limits "cpu"))
    (maxQuantity (gl_WorkerMemoryLimit l) (resourceFromList limits "memory"))
    (gl_RuntimeCount l).

Section calls.
Context {E W : Type} `{!World E W, KubeErrors E, !ErrorKinds E, WaitBackoff E}.
Context (settings : GuardrailSettings).

Fixpoint sum_runtimes (xs : list XTrinode) (l : namespaceGuardrailLimits) : result E namespaceGuardrailLimits :=
  match xs with
  | [] => Ok l
  | x :: xs =>
      match Resolve hash16 x with
      | Err e => Err (Errorf ("failed to resolve runtime shape for XTrinode " +:+ xt_Namespace x +:+ "/" +:+
                   xt_Name x +:+ ": ") (errors_New (shape_error_text e)))
      | Ok shape => sum_runtimes xs (add_runtime x shape l)
      end
  end.

(** The runtimes of the namespace that are not being deleted, and the current
    one although the list may not have it yet. *)
Definition live_runtimes (current : XTrinode) (items : list XTrinode) : list XTrinode :=
  let alive := filterb (fun i => bool_decide (xt_DeletionTimestamp i = None)) items in
  if existsb (fun i => xt_Name i ≡? xt_Name current) alive || negb (bool_decide (xt_DeletionTimestamp current = None))
  then alive else alive ++ [current].

Definition listNamespaceXTrinodes (current : XTrinode) : M W (result E (list XTrinode)) :=
  items ← perform (ListXTrinodes (xt_Namespace current));
  mret match items with
       | Err e => Err (Errorf ("failed to list XTrinodes in namespace " +:+ xt_Namespace current +:+
                    " for guardrail aggregation: ") e)
       | Ok items => Ok (live_runtimes current items)
       end.

Definition calculateNamespaceGuardrailLimits (current : XTrinode) : M W (result E namespaceGuardrailLimits) :=
  xtrinodes ← listNamespaceXTrinodes current;
  mret match xtrinodes with
       | Err e => Err e
       | Ok xs =>
           match sum_runtimes xs no_limits with
           | Err e => Err e
           | Ok l => Ok (mkGuardrailLimits (gl_MaxCPU l) (gl_MaxMemory l) (gl_WorkerCPURequest l) (gl_WorkerMemoryRequest l)
                           (gl_WorkerCPULimit l) (gl_WorkerMemoryLimit l) (Z.of_nat (length xs)))
           end
       end.

(** ** Objects *)

Definition createGuardrailObjectIfMissing (g : Guardrail) : M W (bool * option E) :=
  existing ← perform (GetGuardrail (gr_Kind g) (gr_Namespace g) (gr_Name g));
  match existing with
  | Ok _ => mret (false, None)
  | Err e => if IsNotFound e then err ← perform (CreateGuardrail g); mret (true, err) else mret (false, Some e)
  end.

Definition kind_name (g : Guardrail) : string :=
  match gr_Kind g with AResourceQuota => "ResourceQuota" | ALimitRange => "LimitRange" end.

Definition ensure_guardrail (g : Guardrail) (mode : string) : M W (option E) :=
  if mode ≡? NamespaceGuardrailModeCreateOnly then
    '(_, err) ← createGuardrailObjectIfMissing g;
    mret (Errorf ("failed to create " +:+ kind_name g +:+ ": ") <$> err)
  else
    err ← perform (ApplyGuardrail g "xtrinode-operator" true);
    mret (Errorf ("failed to create/update " +:+ kind_name g +:+ ": ") <$> err).

Definition ensureResourceQuota (x : XTrinode) (maxCPU maxMemory : Quantity) (mode : string) : M W (option E) :=
  ensure_guardrail (buildNamespaceResourceQuotaWithName (namespaceResourceQuotaName settings) (xt_Namespace x) maxCPU maxMemory) mode.

Definition ensureLimitRange (x : XTrinode) (l : namespaceGuardrailLimits) (mode : string) : M W (option E) :=
  ensure_guardrail (buildNamespaceLimitRangeWithName (namespaceLimitRangeName settings) (xt_Namespace x)
    (gl_WorkerCPURequest l) (gl_WorkerMemoryRequest l) (gl_WorkerCPULimit l) (gl_WorkerMemoryLimit l)) mode.

Definition shouldDeleteGuardrailObject (kind : GuardrailKind) (namespace name mode : string) : M W (result E bool) :=
  if mode ≡? NamespaceGuardrailModeManaged then mret (Ok true) else
  existing ← perform (GetGuardrail kind namespace name);
  mret match existing with
       | Err e => if IsNotFound e then Ok false else Err e
       | Ok labels => Ok (isXTrinodeNamespaceGuardrail labels)
       end.

Definition delete_guardrail (kind : GuardrailKind) (label namespace name mode : string) : M W (option E) :=
  shouldDelete ← shouldDeleteGuardrailObject kind namespace name mode;
  match shouldDelete with
  | Err e => mret (Some e)
  | Ok false => mret None
  | Ok true =>
      err ← perform (DeleteGuardrail kind namespace name);
      mret match err with
           | Some e => if IsNotFound e then None
                       else Some (Errorf ("failed to delete namespace " +:+ label +:+ " " +:+ namespace +:+ "/" +:+ name +:+ ": ") e)
           | None => None
           end
  end.

Definition deleteNamespaceGuardrailResources (namespace mode : string) : M W (option E) :=
  err ← delete_guardrail AResourceQuota "ResourceQuota" namespace (namespaceResourceQuotaName settings) mode;
  match err with
  | Some e => mret (Some e)
  | None => delete_guardrail ALimitRange "LimitRange" namespace (namespaceLimitRangeName settings) mode
  end.

(** ** The namespace *)

Definition ensureNamespace (n : NamespaceObject) : M W (option E * NamespaceObject) :=
  got ← perform (GetNamespace (ns_Name n));
  match got with
  | Ok n => mret (None, n)
  | Err e =>
      if negb (IsNotFound e) then mret (Some (Errorf "failed to get namespace: " e), n) else
      created ← perform (CreateNamespace n);
      mret match created with
           | Err e => (Some (Errorf "failed to create namespace: " e), n)
           | Ok n => (None, n)
           end
  end.

Definition guardrail_labels (n : NamespaceObject) : NamespaceObject :=
  mkNamespace (ns_Name n) (ns_ResourceVersion n)
    (Some (delete RuntimeLabel (<[guardrailScopeLabel := guardrailScopeNamespace]>
      (<[ManagedLabel := "true"]> (default ∅ (ns_Labels n)))))).

(** A failed label update is only logged. *)
Definition ensureNamespaceWithLabels (x : XTrinode) : M W (option E) :=
  '(err, n) ← ensureNamespace (mkNamespace (xt_Namespace x) "" None);
  match err with
  | Some e => mret (Some e)
  | None =>
      _ ← retry_with FastConfig
        (fun n => got ← perform (GetNamespace (ns_Name n));
           mret match got with Ok n => (None, n) | Err e => (Some e, n) end)
        (fun n => let n := guardrail_labels n in
           updated ← perform (UpdateNamespace n);
           mret match updated with Ok n => (None, n) | Err e => (Some e, n) end) n;
      mret None
  end.

(** ** Entry points *)

Definition amounts_text (l : namespaceGuardrailLimits) : string :=
  "(runtimes: " +:+ fmt_d (gl_RuntimeCount l) +:+ ", CPU: " +:+ q_text (gl_MaxCPU l) +:+ ", Memory: " +:+
  q_text (gl_MaxMemory l) +:+ ")".

Definition reconcileNamespaceGuardrailsAfterDelete (x : XTrinode) : M W (option E) :=
  let mode := namespaceGuardrailMode settings in
  if (mode ≡? NamespaceGuardrailModeDisabled) || (mode ≡? NamespaceGuardrailModeObserve) then mret None else
  limits ← calculateNamespaceGuardrailLimits x;
  match limits with
  | Err e => mret (Some (Errorf "failed to calculate namespace guardrails after delete: " e))
  | Ok l =>
      if gl_RuntimeCount l =? 0 then deleteNamespaceGuardrailResources (xt_Namespace x) mode else
      err ← ensureResourceQuota x (gl_MaxCPU l) (gl_MaxMemory l) mode;
      match err with
      | Some e => mret (Some e)
      | None => ensureLimitRange x l mode
      end
  end.

Definition applied_condition (mode : string) : string * string :=
  let names := "(ResourceQuota: " +:+ namespaceResourceQuotaName settings +:+ ", LimitRange: " +:+
    namespaceLimitRangeName settings +:+ ")" in
  if mode ≡? NamespaceGuardrailModeCreateOnly
  then ("GuardrailsCreateOnly",
        "Namespace guardrails created when missing; existing objects were not force-owned " +:+ names)
  else ("GuardrailsApplied", "Namespace guardrails applied successfully " +:+ names).

(** The two objects, with their events. *)
Definition apply_guardrails (l : namespaceGuardrailLimits) (mode : string) (x : XTrinode) : M W (option E * XTrinode) :=
  err ← ensureResourceQuota x (gl_MaxCPU l) (gl_MaxMemory l) mode;
  match err with
  | Some e => mret (Some e, x)
  | None =>
      _ ← recordEvent (Normal "ResourceQuotaApplied" ("Namespace ResourceQuota applied " +:+ amounts_text l));
      err ← ensureLimitRange x l mode;
      match err with
      | Some e => mret (Some e, x)
      | None =>
          _ ← recordEvent (Normal "LimitRangeApplied" "Namespace LimitRange applied for container resource defaults");
          _ ← recordEvent (Normal "NamespaceGuardrailsApplied" "Namespace guardrails applied successfully");
          let '(reason, message) := applied_condition mode in
          x ← setCondition ConditionTypeGuardrailsReady ConditionTrue reason message x;
          mret (None, x)
      end
  end.

Definition ensureNamespaceGuardrails (x : XTrinode) : M W (option E * XTrinode) :=
  let mode := namespaceGuardrailMode settings in
  limits ← calculateNamespaceGuardrailLimits x;
  match limits with
  | Err e => mret (Some e, x)
  | Ok l =>
      if mode ≡? NamespaceGuardrailModeDisabled then
        x ← setCondition ConditionTypeGuardrailsReady ConditionTrue "GuardrailsDisabled"
              ("Namespace guardrail management disabled by operator policy; recommendation observed only " +:+ amounts_text l) x;
        mret (None, x)
      else if mode ≡? NamespaceGuardrailModeObserve then
        x ← setCondition ConditionTypeGuardrailsReady ConditionTrue "GuardrailsObserved"
              ("Namespace guardrail recommendation observed only " +:+ amounts_text l) x;
        mret (None, x)
      else
      err ← (if mode ≡? NamespaceGuardrailModeManaged then ensureNamespaceWithLabels x
             else '(err, _) ← ensureNamespace (mkNamespace (xt_Namespace x) "" None); mret err);
      match err with
      | Some e => mret (Some e, x)
      | None => apply_guardrails l mode x
      end
  end.

(** ** Amounts that cover the runtimes *)

(** Pods of a runtime in the middle of a rollout, and what they may use. *)
Definition coordinator_pods (x : XTrinode) : Z := 1 + rolloutSurgeReplicas x 1.
Definition worker_pods (x : XTrinode) (shape : ResolvedRuntimeShape) : Z :=
  sh_QuotaWorkers shape + rolloutSurgeReplicas x (sh_QuotaWorkers shape).

Definition coordinator_limit (shape : ResolvedRuntimeShape) (name : string) : Z := nano (res_Limits (sh_Coordinator shape)) name.
Definition worker_limit (shape : ResolvedRuntimeShape) (name : string) : Z := nano (res_Limits (sh_Worker shape)) name.

Definition demand (name : string) (x : XTrinode) (shape : ResolvedRuntimeShape) : Z :=
  coordinator_pods x * coordinator_limit shape name + worker_pods x shape * worker_limit shape name.

(** At most a million pods of each kind, a million cores and four tebibytes. *)
Definition modest (x : XTrinode) (shape : ResolvedRuntimeShape) : Prop :=
  coordinator_pods x <= 10 ^ 6 /\ 0 <= sh_QuotaWorkers shape /\ worker_pods x shape <= 10 ^ 6 /\
  (0 <= coordinator_limit shape "cpu" <= 10 ^ 6 * nano_per_unit /\
   0 <= worker_limit shape "cpu" <= 10 ^ 6 * nano_per_unit) /\
  0 <= coordinator_limit shape "memory" <= 2 ^ 42 * nano_per_unit /\
  0 <= worker_limit shape "memory" <= 2 ^ 42 * nano_per_unit.

Lemma surge_nonneg x n : 0 <= rolloutSurgeReplicas x n.
Proof.
  unfold rolloutSurgeReplicas. destruct (Z.leb_spec n 0); [done|]. destruct (GetScaledValue _ _) as [v|]; [|done].
  destruct (Z.ltb_spec v 0); [done|]. destruct (Z.ltb_spec int32_max v); [done|lia].
Qed.

(** Rounding up to a multiple of [d] and multiplying does not overflow and
    loses nothing. *)
Lemma scaled_covers d pods amount bound :
  0 < d -> 0 <= pods <= 10 ^ 6 -> 0 <= amount <= bound * d -> bound <= 2 ^ 42 ->
  pods * amount <= int_mul pods (wrap64 (- ((- amount) / d))) * d.
Proof.
  intros Hd Hp Ha Hb. set (u := - ((- amount) / d)).
  assert (Hu : amount <= u * d /\ 0 <= u <= bound).
  { unfold u. pose proof (Z.div_mod (- amount) d ltac:(lia)). pose proof (Z.mod_pos_bound (- amount) d Hd). nia. }
  assert (Hw : wrap64 u = u) by (apply wrap64_id; unfold in_int64, int64_min, int64_max; lia).
  rewrite Hw. unfold int_mul. rewrite wrap64_id; [nia|]. unfold in_int64, int64_min, int64_max. nia.
Qed.

Lemma shape_covers x shape :
  modest x shape ->
  demand "cpu" x shape <= q_nano (shapeQuotaLimits x shape).1 /\
  demand "memory" x shape <= q_nano (shapeQuotaLimits x shape).2.
Proof.
  intros (Hc & Hq & Hw & [Hcc Hwc] & Hcm & Hwm).
  pose proof (surge_nonneg x 1) as Hs1. pose proof (surge_nonneg x (sh_QuotaWorkers shape)) as Hs2.
  assert (Hcp : coordinatorQuotaPods x = coordinator_pods x).
  { apply wrap32_id. unfold coordinator_pods, int32_min, int32_max in *. lia. }
  assert (Hwp : workerQuotaPods x shape = worker_pods x shape).
  { apply wrap32_id. unfold worker_pods, int32_min, int32_max in *. lia. }
  unfold shapeQuotaLimits, demand, scale_milli, scale_units, resourceFromList. cbn [fst snd].
  rewrite !q_Add_nano, !q_SetMilli_nano, !q_Set_nano, Hcp, Hwp. unfold q_MilliValue, q_Value, coordinator_pods, worker_pods in *.
  unfold coordinator_limit, worker_limit, nano in *.
  split; (apply Z.add_le_mono; [|]).
  1,2: apply (scaled_covers _ _ _ (10 ^ 9)); unfold nano_per_unit in *; lia.
  1,2: apply (scaled_covers _ _ _ (2 ^ 42)); unfold nano_per_unit in *; lia.
Qed.

Definition accumulate (runtimes : list (XTrinode * ResolvedRuntimeShape)) (l : namespaceGuardrailLimits) :
    namespaceGuardrailLimits :=
  fold_left (fun l r => add_runtime r.1 r.2 l) runtimes l.

Definition resolved (xs : list XTrinode) (runtimes : list (XTrinode * ResolvedRuntimeShape)) : Prop :=
  runtimes.*1 = xs /\ Forall (fun r => Resolve hash16 r.1 = Ok r.2) runtimes.

Lemma sum_runtimes_Ok xs l l' :
  sum_runtimes xs l = Ok l' -> exists runtimes, resolved xs runtimes /\ l' = accumulate runtimes l.
Proof.
  revert l. induction xs as [|x xs IH]; intros l; simpl.
  { intros [= <-]. by exists []. }
  destruct (Resolve hash16 x) as [shape|e] eqn:Er; [|done]. intros Hs.
  destruct (IH _ Hs) as (rs & [<- Hr] & ->). exists ((x, shape) :: rs). by repeat constructor.
Qed.

Definition total_demand (name : string) (runtimes : list (XTrinode * ResolvedRuntimeShape)) : Z :=
  foldr (fun r z => demand name r.1 r.2 + z) 0 runtimes.

(** The quota leaves room for all runtimes in a rollout at once, and the
    containers' default limits are at least those of every runtime's workers. *)
Definition covers (l : namespaceGuardrailLimits) (runtimes : list (XTrinode * ResolvedRuntimeShape)) : Prop :=
  (total_demand "cpu" runtimes <= q_nano (gl_MaxCPU l) /\ total_demand "memory" runtimes <= q_nano (gl_MaxMemory l)) /\
  Forall (fun r => worker_limit r.2 "cpu" <= q_nano (gl_WorkerCPULimit l) /\
                   worker_limit r.2 "memory" <= q_nano (gl_WorkerMemoryLimit l)) runtimes.

Lemma max_quantity_nano a b : q_nano (maxQuantity a b) = Z.max (q_nano a) (q_nano b).
Proof. unfold maxQuantity. destruct (Z.leb_spec (q_nano b) (q_nano a)); lia. Qed.

Lemma add_runtime_nano x s l :
  let l' := add_runtime x s l in
  q_nano (gl_MaxCPU l') = q_nano (gl_MaxCPU l) + q_nano (shapeQuotaLimits x s).1 /\
  q_nano (gl_MaxMemory l') = q_nano (gl_MaxMemory l) + q_nano (shapeQuotaLimits x s).2 /\
  q_nano (gl_WorkerCPULimit l') = Z.max (q_nano (gl_WorkerCPULimit l)) (worker_limit s "cpu") /\
  q_nano (gl_WorkerMemoryLimit l') = Z.max (q_nano (gl_WorkerMemoryLimit l)) (worker_limit s "memory").
Proof.
  unfold add_runtime. destruct (shapeQuotaLimits x s). simpl. by rewrite !q_Add_nano, !max_quantity_nano.
Qed.

Lemma accumulate_limits runtimes l :
  q_nano (gl_WorkerCPULimit l) <= q_nano (gl_WorkerCPULimit (accumulate runtimes l)) /\
  q_nano (gl_WorkerMemoryLimit l) <= q_nano (gl_WorkerMemoryLimit (accumulate runtimes l)).
Proof.
  revert l. induction runtimes as [|[x s] rs IH]; intros l; [done|]. simpl.
  specialize (IH (add_runtime x s l)). destruct (add_runtime_nano x s l) as (_ & _ & Hc & Hm). unfold accumulate in *. lia.
Qed.

Lemma accumulate_covers runtimes l :
  Forall (fun r => modest r.1 r.2) runtimes ->
  (q_nano (gl_MaxCPU l) + total_demand "cpu" runtimes <= q_nano (gl_MaxCPU (accumulate runtimes l)) /\
   q_nano (gl_MaxMemory l) + total_demand "memory" runtimes <= q_nano (gl_MaxMemory (accumulate runtimes l))) /\
  Forall (fun r => worker_limit r.2 "cpu" <= q_nano (gl_WorkerCPULimit (accumulate runtimes l)) /\
                   worker_limit r.2 "memory" <= q_nano (gl_WorkerMemoryLimit (accumulate runtimes l))) runtimes.
Proof.
  intros Hm. revert l. induction Hm as [|[x s] rs Hx _ IH]; intros l; simpl; [split; [lia|constructor]|].
  destruct (shape_covers _ _ Hx) as [Hcpu Hmem]. destruct (IH (add_runtime x s l)) as [[Hc Hmm] Hl].
  destruct (accumulate_limits rs (add_runtime x s l)) as [Hlc Hlm].
  destruct (add_runtime_nano x s l) as (G1 & G2 & G3 & G4). simpl in *.
  unfold accumulate in *. split; [lia|]. constructor; [simpl; lia|done].
Qed.

(** ** What the calls do *)

Definition listed (x : XTrinode) (items : list XTrinode) (t : list (happening E)) : Prop :=
  existT (ListXTrinodes (xt_Namespace x)) (Ok items) ∈ t.

(** Amounts computed from the runtimes listed in [t]. *)
Definition computed (x : XTrinode) (l : namespaceGuardrailLimits) (t : list (happening E)) : Prop :=
  exists items runtimes, listed x items t /\ resolved (live_runtimes x items) runtimes /\
    gl_RuntimeCount l = Z.of_nat (length (live_runtimes x items)) /\
    (Forall (fun r => modest r.1 r.2) runtimes -> covers l runtimes).

Lemma computed_lasting x l : lasting (computed x l).
Proof. unfold computed, listed. eauto 12 with lasting. Qed.

Lemma calculate_runs x :
  runs (calculateNamespaceGuardrailLimits x) (fun r tr =>
    Forall noting tr /\ forall l, r = Ok l -> computed x l tr).
Proof.
  unfold calculateNamespaceGuardrailLimits, listNamespaceXTrinodes. apply (runs_bind _ _ (fun r tr =>
    Forall noting tr /\ forall xs, r = Ok xs -> exists items, listed x items tr /\ xs = live_runtimes x items)).
  { run_call. intros [items|e]; apply runs_ret; (split; [by repeat constructor|]); intros xs Hxs; [|done].
    injection Hxs as <-. exists items. split; [left|done]. }
  intros r t1 [Ht1 Hr]. apply runs_ret. rewrite app_nil_r. split; [done|]. intros l Hl.
  destruct r as [xs|e]; [|done]. destruct (Hr xs eq_refl) as (items & Hi & ->).
  destruct (sum_runtimes _ _) as [l0|e] eqn:Es; [|done]. injection Hl as <-.
  apply sum_runtimes_Ok in Es as (rs & Hrs & ->). exists items, rs. split_and!; [done..|]. intros Hm.
  destruct (accumulate_covers rs no_limits Hm) as [[Hc Hmm] Hl]. simpl in Hc, Hmm. split; [simpl; lia|exact Hl].
Qed.

(** A guardrail is created or applied. *)
Definition writes (g : Guardrail) (h : happening E) : Prop :=
  projT1 h = CreateGuardrail g \/ exists owner force, projT1 h = ApplyGuardrail g owner force.

Definition missing (g : Guardrail) (t : list (happening E)) : Prop :=
  exists e, existT (GetGuardrail (gr_Kind g) (gr_Namespace g) (gr_Name g)) (Err e) ∈ t /\ IsNotFound e = true.

Definition creates (g : Guardrail) (h : happening E) : Prop := projT1 h = CreateGuardrail g.

Definition ours (k : GuardrailKind) (ns n : string) (t : list (happening E)) : Prop :=
  exists labels, existT (GetGuardrail k ns n) (Ok labels) ∈ t /\ isXTrinodeNamespaceGuardrail labels = true.

Definition deletes (k : GuardrailKind) (ns n : string) (h : happening E) : Prop := projT1 h = DeleteGuardrail k ns n.

(** Takes over or changes what somebody else may own. *)
Definition forceful (h : happening E) : Prop :=
  match projT1 h with ApplyGuardrail _ _ _ | UpdateNamespace _ => True | _ => False end.

Lemma missing_lasting g : lasting (missing g).
Proof. unfold missing. eauto 8 with lasting. Qed.

Lemma ours_lasting k ns n : lasting (ours k ns n).
Proof. unfold ours. eauto 8 with lasting. Qed.

(** [tr] respects the operator's mode. *)
Definition respectful (mode : string) (tr : list (happening E)) : Prop :=
  (forall g, before (missing g) (creates g) tr) /\
  (forall k ns n, before (fun t => mode = NamespaceGuardrailModeManaged \/ ours k ns n t) (deletes k ns n) tr) /\
  (mode <> NamespaceGuardrailModeManaged -> Forall (fun h => ~ forceful h) tr).

Lemma respectful_app mode t1 t2 : respectful mode t1 -> respectful mode t2 -> respectful mode (t1 ++ t2).
Proof.
  intros (Hc1 & Hd1 & Hf1) (Hc2 & Hd2 & Hf2). split_and!.
  - intros g. apply before_app; [apply Hc1|]. intros u h v Heq Hp. apply lasting_r; [apply missing_lasting|].
    by apply (Hc2 g u h v).
  - intros k ns n. apply before_app; [apply Hd1|]. intros u h v Heq Hp.
    apply (lasting_r (fun t => mode = NamespaceGuardrailModeManaged \/ ours k ns n t));
      [eauto using ours_lasting with lasting|]. by apply (Hd2 k ns n u h v).
  - intros Hm. apply Forall_app. auto.
Qed.

(** Neither creates, deletes nor takes over a guardrail. *)
Definition harmless (h : happening E) : Prop :=
  match projT1 h with
  | CreateGuardrail _ | ApplyGuardrail _ _ _ | DeleteGuardrail _ _ _ | UpdateNamespace _ => False
  | _ => True
  end.

Lemma noting_harmless h : noting h -> harmless h.
Proof. unfold noting, harmless. by destruct (projT1 h). Qed.

Lemma harmless_respectful mode tr : Forall harmless tr -> respectful mode tr.
Proof.
  intros Ht. split_and!.
  - intros g. apply before_never. revert Ht. apply Forall_impl. intros h Hh Hc. unfold harmless, creates in *. by rewrite Hc in Hh.
  - intros k ns n. apply before_never. revert Ht. apply Forall_impl. intros h Hh Hc. unfold harmless, deletes in *. by rewrite Hc in Hh.
  - intros _. revert Ht. apply Forall_impl. intros h Hh Hc. unfold harmless, forceful in *. by destruct (projT1 h).
Qed.

Lemma noting_respectful mode tr : Forall noting tr -> respectful mode tr.
Proof. intros Ht. apply harmless_respectful. revert Ht. apply Forall_impl, noting_harmless. Qed.

(** Nothing is written but the guardrail [g]. *)
Definition only_writes (g : Guardrail) (tr : list (happening E)) : Prop := forall g' h, h ∈ tr -> writes g' h -> g' = g.

Ltac never_here :=
  repeat (apply List.Forall_cons; [unfold creates, deletes, forceful; simpl; by intros ?|]); apply List.Forall_nil.

Lemma ensure_guardrail_runs g mode :
  runs (ensure_guardrail g mode) (fun err tr =>
    (mode = NamespaceGuardrailModeManaged \/ mode = NamespaceGuardrailModeCreateOnly -> respectful mode tr) /\ only_writes g tr /\
    (err = None -> mode <> NamespaceGuardrailModeCreateOnly ->
       existT (ApplyGuardrail g "xtrinode-operator" true) None ∈ tr)).
Proof.
  unfold ensure_guardrail. destruct (bool_decide_reflect (mode = NamespaceGuardrailModeCreateOnly)) as [->|Hne].
  - unfold createGuardrailObjectIfMissing.
    apply (runs_bind _ _ (fun _ tr => respectful NamespaceGuardrailModeCreateOnly tr /\ only_writes g tr)).
    2:{ intros [c e] tr [Hr Ho]. apply runs_ret. rewrite app_nil_r. done. }
    run_call. intros [labels|e].
    { apply runs_ret. split; [by apply noting_respectful; repeat constructor|]. intros g' h ->%list_elem_of_singleton Hw. by destruct Hw as [|(? & ? & ?)]. }
    destruct (IsNotFound e) eqn:En.
    2:{ apply runs_ret. split; [by apply noting_respectful; repeat constructor|]. intros g' h ->%list_elem_of_singleton Hw. by destruct Hw as [|(? & ? & ?)]. }
    run_call. intros err. apply runs_ret. split; [split_and!|].
    + intros g'. apply (before_app _ _ [_]); [apply before_never; never_here|].
      intros u h v Heq Hp. destruct u as [|a u].
      * injection Heq as <- _. unfold creates in Hp. simpl in Hp. injection Hp as <-. exists e. split; [left|done].
      * injection Heq as _ Heq. by destruct u.
    + intros k ns n. apply before_never. never_here.
    + intros _. never_here.
    + intros g' h Hin Hw. apply list_elem_of_In in Hin. simpl in Hin. destruct Hin as [<-|[<-|[]]].
      * by destruct Hw as [|(? & ? & ?)].
      * destruct Hw as [[= ->]|(? & ? & ?)]; done.
  - run_call. intros err. apply runs_ret. split_and!.
    + intros [->|]; [|done]. split_and!.
      * intros g'. apply before_never. never_here.
      * intros k ns n. apply before_never. never_here.
      * done.
    + intros g' h ->%list_elem_of_singleton Hw. destruct Hw as [|(? & ? & [= ->])]; done.
    + intros He _. destruct err; [done|]. left.
Qed.

Definition is_deletion (h : happening E) : Prop :=
  match projT1 h with DeleteGuardrail _ _ _ => True | _ => False end.

(** Writes no guardrail. *)
Definition writes_none (tr : list (happening E)) : Prop := forall g h, h ∈ tr -> ~ writes g h.

Lemma writes_none_app t1 t2 : writes_none t1 -> writes_none t2 -> writes_none (t1 ++ t2).
Proof. intros Hw1 Hw2 g h [Hin|Hin]%elem_of_app; [by apply Hw1|by apply Hw2]. Qed.

Lemma Forall_writes_none (P : happening E -> Prop) tr :
  (forall h g, P h -> ~ writes g h) -> Forall P tr -> writes_none tr.
Proof. intros Hp Ht g h Hin. rewrite list.Forall_forall in Ht. eauto. Qed.

Lemma noting_writes_none tr : Forall noting tr -> writes_none tr.
Proof.
  apply Forall_writes_none. intros h g Hn Hw. unfold noting, writes in *.
  destruct (projT1 h); naive_solver.
Qed.

Lemma delete_guardrail_runs k label ns n mode :
  runs (delete_guardrail k label ns n mode) (fun _ tr => respectful mode tr /\ writes_none tr).
Proof.
  unfold delete_guardrail, shouldDeleteGuardrailObject.
  apply (runs_bind _ _ (fun r tr => Forall noting tr /\
    (r = Ok true -> mode = NamespaceGuardrailModeManaged \/ ours k ns n tr))).
  { destruct (bool_decide_reflect (mode = NamespaceGuardrailModeManaged)) as [->|]; [apply runs_ret; auto|].
    run_call. intros [labels|e]; apply runs_ret; (split; [by repeat constructor|]).
    - intros [= Hl]. right. exists labels. split; [left|done].
    - by destruct (IsNotFound e). }
  intros r t1 [Ht1 Hr]. assert (Hn1 := noting_writes_none _ Ht1). assert (Hr1 := noting_respectful mode _ Ht1).
  destruct r as [[|]|e]; [|by apply runs_ret; rewrite app_nil_r..].
  run_call. intros err. apply runs_ret. split.
  - destruct Hr1 as (Hc & Hd & Hf). split_and!.
    + intros g. apply before_never_app; [apply Hc|never_here].
    + intros k' ns' n'. apply before_app; [apply Hd|]. intros u h v Heq Hp. destruct u as [|a [|b u]]; [|done..].
      injection Heq as <- _. unfold deletes in Hp. injection Hp as <- <- <-. rewrite app_nil_r. by apply Hr.
    + intros Hm. apply Forall_app. split; [by apply Hf|never_here].
  - apply writes_none_app; [done|]. intros g h ->%list_elem_of_singleton. by intros [|(? & ? & ?)].
Qed.

(** ** The namespace itself *)

Definition about_namespace (h : happening E) : Prop :=
  match projT1 h with CreateNamespace _ | UpdateNamespace _ => True | c => read_only c = true end.

Lemma about_namespace_writes_none tr : Forall about_namespace tr -> writes_none tr.
Proof.
  apply Forall_writes_none. intros h g Hn Hw. unfold about_namespace, writes in *. destruct (projT1 h); naive_solver.
Qed.

Lemma ensure_namespace_runs n :
  runs (ensureNamespace n) (fun _ tr => Forall (fun h => about_namespace h /\ harmless h) tr).
Proof.
  unfold ensureNamespace. run_call. intros [m|e]; [apply runs_ret; by repeat constructor|].
  destruct (negb (IsNotFound e)); [apply runs_ret; by repeat constructor|].
  run_call. intros [m|e']; apply runs_ret; by repeat constructor.
Qed.

Lemma ensure_labels_runs x : runs (ensureNamespaceWithLabels x) (fun _ tr => Forall about_namespace tr).
Proof.
  unfold ensureNamespaceWithLabels. eapply runs_bind; [apply ensure_namespace_runs|]. intros [err n] t1 Ht1.
  assert (Ht1' : Forall about_namespace t1) by (revert Ht1; apply Forall_impl; tauto).
  destruct err as [e|]; [apply runs_ret; by rewrite app_nil_r|].
  eapply runs_bind; [apply (emits_retry about_namespace _ _ n (fun _ => True) (fun _ => True)); [done|]|].
  - intros m _. emit_call. intros [a|e]; apply emits_ret; [|done].
    cbv zeta. emit_call. intros [b|e]; by apply emits_ret.
  - intros [e m] t2 [Ht2 _]. apply runs_ret. rewrite app_nil_r. by apply Forall_app.
Qed.

Lemma about_namespace_undeleting h : about_namespace h -> ~ is_deletion h.
Proof. unfold about_namespace, is_deletion. destruct (projT1 h); simpl; naive_solver. Qed.

Lemma noting_undeleting h : noting h -> ~ is_deletion h.
Proof. unfold noting, is_deletion. destruct (projT1 h); simpl; naive_solver. Qed.

(** Preparing the namespace before the guardrails, by mode. *)
Lemma prepare_namespace_runs x mode :
  runs (if mode ≡? NamespaceGuardrailModeManaged then ensureNamespaceWithLabels x
        else '(err, _) ← ensureNamespace (mkNamespace (xt_Namespace x) "" None); mret err)
    (fun _ tr => Forall about_namespace tr /\ respectful mode tr).
Proof.
  destruct (bool_decide_reflect (mode = NamespaceGuardrailModeManaged)) as [->|Hne].
  - eapply runs_weaken; [apply ensure_labels_runs|]. intros e tr Ht. split; [done|]. split_and!; [..|done].
    + intros g. apply before_never. revert Ht. apply Forall_impl. intros h Hh Hc. unfold about_namespace, creates in *. by rewrite Hc in Hh.
    + intros k ns n. apply before_never. revert Ht. apply Forall_impl. intros h Hh Hc. unfold about_namespace, deletes in *. by rewrite Hc in Hh.
  - eapply runs_bind; [apply ensure_namespace_runs|]. intros [e n] tr Ht. apply runs_ret. rewrite app_nil_r.
    split; [revert Ht; apply Forall_impl; tauto|]. apply harmless_respectful. revert Ht. apply Forall_impl. tauto.
Qed.

(** ** The guardrails of a pass *)

Definition quota_of (x : XTrinode) (l : namespaceGuardrailLimits) : Guardrail :=
  buildNamespaceResourceQuotaWithName (namespaceResourceQuotaName settings) (xt_Namespace x) (gl_MaxCPU l) (gl_MaxMemory l).
Definition range_of (x : XTrinode) (l : namespaceGuardrailLimits) : Guardrail :=
  buildNamespaceLimitRangeWithName (namespaceLimitRangeName settings) (xt_Namespace x)
    (gl_WorkerCPURequest l) (gl_WorkerMemoryRequest l) (gl_WorkerCPULimit l) (gl_WorkerMemoryLimit l).

Definition applied (g : Guardrail) (t : list (happening E)) : Prop :=
  existT (ApplyGuardrail g "xtrinode-operator" true) None ∈ t.

(** Only the two guardrails of [l] are written. *)
Definition writes_of (x : XTrinode) (l : namespaceGuardrailLimits) (tr : list (happening E)) : Prop :=
  forall g h, h ∈ tr -> writes g h -> g = quota_of x l \/ g = range_of x l.

Definition active (mode : string) : Prop := mode = NamespaceGuardrailModeManaged \/ mode = NamespaceGuardrailModeCreateOnly.

Lemma only_writes_undeleting g mode :
  runs (ensure_guardrail g mode) (fun _ tr => Forall (fun h => ~ is_deletion h) tr).
Proof.
  unfold ensure_guardrail, createGuardrailObjectIfMissing. destruct (mode ≡? NamespaceGuardrailModeCreateOnly).
  - eapply (runs_bind _ _ (fun _ tr => Forall (fun h => ~ is_deletion h) tr)).
    2:{ intros [c e] tr Ht. apply runs_ret. by rewrite app_nil_r. }
    run_call. intros [labels|e]; [apply runs_ret; repeat constructor; by intros []|].
    destruct (IsNotFound e); [run_call; intros r|]; apply runs_ret; repeat constructor; by intros [].
  - run_call. intros err. apply runs_ret. repeat constructor; by intros [].
Qed.

(** Both guardrails, one after the other. *)
Lemma ensure_both_runs {A} x l mode (after_quota : M W unit) (finish : option E -> M W A) :
  active mode ->
  runs after_quota (fun _ tr => Forall noting tr) ->
  (forall err, runs (finish err) (fun _ tr => Forall noting tr)) ->
  runs (err ← ensureResourceQuota x (gl_MaxCPU l) (gl_MaxMemory l) mode;
        match err with
        | Some e => finish (Some e)
        | None => _ ← after_quota; err ← ensureLimitRange x l mode; finish err
        end)
    (fun _ tr => respectful mode tr /\ writes_of x l tr /\ Forall (fun h => ~ is_deletion h) tr).
Proof.
  intros Ha Hq Hf.
  assert (Hfin : forall err t, respectful mode t /\ writes_of x l t /\ Forall (fun h => ~ is_deletion h) t ->
    runs (finish err) (fun _ t2 => respectful mode (t ++ t2) /\ writes_of x l (t ++ t2) /\
      Forall (fun h => ~ is_deletion h) (t ++ t2))).
  { intros err t (Hr & Hw & Hd). eapply runs_weaken; [apply Hf|]. intros a t2 Ht2. split_and!.
    - apply respectful_app; [done|by apply noting_respectful].
    - intros g h [Hin|Hin]%elem_of_app Hwr; [by apply (Hw g h)|]. by destruct (noting_writes_none _ Ht2 g h Hin).
    - apply Forall_app. split; [done|]. revert Ht2. apply Forall_impl, noting_undeleting. }
  eapply runs_bind; [apply (runs_and _ _ _ (ensure_guardrail_runs _ _) (only_writes_undeleting _ _))|].
  intros err t1 [(Hr1 & Hw1 & _) Hd1].
  assert (H1' : respectful mode t1 /\ writes_of x l t1 /\ Forall (fun h => ~ is_deletion h) t1).
  { split_and!; [by apply Hr1| |done]. intros g h Hin Hwr. left. by apply (Hw1 g h). }
  destruct err as [e|]; [by apply Hfin|].
  eapply runs_bind; [exact Hq|]. intros [] t2 Ht2.
  eapply runs_bind; [apply (runs_and _ _ _ (ensure_guardrail_runs _ _) (only_writes_undeleting _ _))|].
  intros err t3 [(Hr3 & Hw3 & _) Hd3].
  eapply runs_weaken; [apply (Hfin err (t1 ++ t2 ++ t3))|].
  - destruct H1' as (Hr & Hw & Hd). split_and!.
    + apply respectful_app; [done|]. apply respectful_app; [by apply noting_respectful|by apply Hr3].
    + intros g h [Hin|[Hin|Hin]%elem_of_app]%elem_of_app Hwr; [by apply (Hw g h)| |right; by apply (Hw3 g h)].
      by destruct (noting_writes_none _ Ht2 g h Hin).
    + rewrite !Forall_app. split_and!; [done| |done]. revert Ht2. apply Forall_impl, noting_undeleting.
  - intros a t4. by rewrite !app_assoc.
Qed.

(** What a pass announces after the quota and at its end. *)
Definition announce_applied (mode : string) (x : XTrinode) (err : option E) : M W (option E * XTrinode) :=
  match err with
  | Some e => mret (Some e, x)
  | None =>
      _ ← recordEvent (Normal "LimitRangeApplied" "Namespace LimitRange applied for container resource defaults");
      _ ← recordEvent (Normal "NamespaceGuardrailsApplied" "Namespace guardrails applied successfully");
      let '(reason, message) := applied_condition mode in
      x ← setCondition ConditionTypeGuardrailsReady ConditionTrue reason message x;
      mret (None, x)
  end.

Lemma guardrail_announce_runs mode x err : runs (announce_applied mode x err) (fun _ tr => Forall noting tr).
Proof.
  unfold announce_applied, recordEvent. destruct err as [e|]; [by apply runs_ret|].
  do 2 (run_call; intros []). destruct (applied_condition mode) as [reason message].
  eapply runs_bind; [apply setCondition_notes|]. intros y t [Ht _]. apply runs_ret. rewrite app_nil_r.
  by repeat (constructor; [done|]).
Qed.

Lemma apply_guardrails_runs l mode x :
  active mode ->
  runs (apply_guardrails l mode x) (fun _ tr =>
    respectful mode tr /\ writes_of x l tr /\ Forall (fun h => ~ is_deletion h) tr).
Proof.
  intros Ha. refine (ensure_both_runs x l mode (recordEvent _) (announce_applied mode x) Ha _ (guardrail_announce_runs mode x)).
  unfold recordEvent. run_call. intros []. by repeat constructor.
Qed.

Lemma apply_guardrails_applies l mode x :
  mode <> NamespaceGuardrailModeCreateOnly ->
  runs (apply_guardrails l mode x) (fun r tr => r.1 = None -> applied (quota_of x l) tr /\ applied (range_of x l) tr).
Proof.
  intros Hm. unfold apply_guardrails, recordEvent.
  eapply runs_bind; [apply ensure_guardrail_runs|]. intros err t1 (_ & _ & Hq).
  destruct err as [e|]; [by apply runs_ret|]. run_call. intros [].
  eapply runs_bind; [apply ensure_guardrail_runs|]. intros err t2 (_ & _ & Hl).
  eapply (runs_weaken _ (fun r _ => r.1 = None -> err = None)).
  - destruct err as [e|]; [by apply runs_ret|]. do 2 (run_call; intros []). destruct (applied_condition mode).
    eapply runs_bind; [apply setCondition_notes|]. intros y t _. by apply runs_ret.
  - intros r t3 Hr He. specialize (Hr He). subst. specialize (Hq eq_refl Hm). specialize (Hl eq_refl Hm).
    unfold applied. split; [set_solver|]. apply elem_of_app. right. right. apply elem_of_app. by left.
Qed.

Definition faithful (x : XTrinode) (tr : list (happening E)) : Prop :=
  forall g h, h ∈ tr -> writes g h -> exists l, computed x l tr /\ (g = quota_of x l \/ g = range_of x l).

Definition empty_namespace (x : XTrinode) (t : list (happening E)) : Prop :=
  exists items, listed x items t /\ live_runtimes x items = [].

Lemma empty_namespace_lasting x : lasting (empty_namespace x).
Proof. unfold empty_namespace, listed. eauto 8 with lasting. Qed.

Lemma namespaceGuardrailMode_cases :
  namespaceGuardrailMode settings = NamespaceGuardrailModeDisabled \/
  namespaceGuardrailMode settings = NamespaceGuardrailModeObserve \/ active (namespaceGuardrailMode settings).
Proof. unfold namespaceGuardrailMode, active. cbv zeta. repeat case_match; auto. Qed.

Lemma noting_faithful x tr : Forall noting tr -> faithful x tr.
Proof. intros Ht g h Hin Hw. by destruct (noting_writes_none _ Ht g h Hin). Qed.

(** A pass over a runtime that stays. *)
Definition pass_ok (x : XTrinode) (err : option E) (tr : list (happening E)) : Prop :=
  let mode := namespaceGuardrailMode settings in
  ((mode = NamespaceGuardrailModeDisabled \/ mode = NamespaceGuardrailModeObserve -> Forall noting tr) /\
   respectful mode tr /\ Forall (fun h => ~ is_deletion h) tr) /\
  faithful x tr /\
  (err = None -> mode = NamespaceGuardrailModeManaged ->
   exists l, computed x l tr /\ applied (quota_of x l) tr /\ applied (range_of x l) tr).

Lemma noting_pass_ok x err tr :
  Forall noting tr -> (err = None -> namespaceGuardrailMode settings <> NamespaceGuardrailModeManaged) -> pass_ok x err tr.
Proof.
  intros Ht Hx. split_and!; [done|by apply noting_respectful| |by apply noting_faithful|by intros He Hm; destruct (Hx He)].
  revert Ht. apply Forall_impl, noting_undeleting.
Qed.

(** The part of the pass that writes, after the amounts were computed in [t1]. *)
Lemma active_pass_runs x l t1 :
  let mode := namespaceGuardrailMode settings in
  active mode -> Forall noting t1 -> computed x l t1 ->
  runs (err ← (if mode ≡? NamespaceGuardrailModeManaged then ensureNamespaceWithLabels x
               else '(err, _) ← ensureNamespace (mkNamespace (xt_Namespace x) "" None); mret err);
        match err with
        | Some e => mret (Some e, x)
        | None => apply_guardrails l mode x
        end) (fun r tr => pass_ok x r.1 (t1 ++ tr)).
Proof.
  intros mode Ha Ht1 Hl. assert (Hact : ~ (mode = NamespaceGuardrailModeDisabled \/ mode = NamespaceGuardrailModeObserve)).
  { by destruct Ha as [-> | ->]; intros []. }
  eapply runs_bind; [apply prepare_namespace_runs|]. intros err t2 [Ht2 Hr2].
  assert (Hnone : writes_none (t1 ++ t2)) by (apply writes_none_app; [by apply noting_writes_none|by apply about_namespace_writes_none]).
  assert (Hundel : Forall (fun h => ~ is_deletion h) (t1 ++ t2)).
  { apply Forall_app. split; [revert Ht1; apply Forall_impl, noting_undeleting|revert Ht2; apply Forall_impl, about_namespace_undeleting]. }
  assert (Hresp : respectful mode (t1 ++ t2)) by (apply respectful_app; [by apply noting_respectful|done]).
  destruct err as [e|].
  { apply runs_ret. rewrite app_nil_r. split_and!; [done|done|done| |done]. intros g h Hin Hw. by destruct (Hnone g h Hin). }
  eapply (runs_weaken _ (fun r tr => (respectful mode tr /\ writes_of x l tr /\ Forall (fun h => ~ is_deletion h) tr) /\
    (mode <> NamespaceGuardrailModeCreateOnly -> r.1 = None -> applied (quota_of x l) tr /\ applied (range_of x l) tr))).
  - apply runs_and; [by apply apply_guardrails_runs|].
    destruct (decide (mode = NamespaceGuardrailModeCreateOnly)) as [Hc|Hc].
    + eapply runs_weaken; [by apply apply_guardrails_runs|]. done.
    + eapply runs_weaken; [by apply apply_guardrails_applies|]. auto.
  - intros a t3 [(Hr3 & Hw3 & Hd3) Happ]. rewrite app_assoc.
    assert (Hc : computed x l ((t1 ++ t2) ++ t3)) by (rewrite <- app_assoc; by apply lasting_l; [apply computed_lasting|]).
    split_and!; [done|by apply respectful_app|by apply Forall_app| |].
    + intros g h [Hin|Hin]%elem_of_app Hw; [by destruct (Hnone g h Hin)|]. exists l. split; [done|]. by apply (Hw3 g h).
    + intros He Hm. exists l. split; [done|]. destruct Happ as [Hq Hr]; [by unfold mode; rewrite Hm|done|].
      unfold applied in *. rewrite !elem_of_app. auto.
Qed.

Lemma ensure_guardrails_runs x : runs (ensureNamespaceGuardrails x) (fun r tr => pass_ok x r.1 tr).
Proof.
  unfold ensureNamespaceGuardrails. cbv zeta. assert (Hmode := namespaceGuardrailMode_cases).
  eapply runs_bind; [apply calculate_runs|]. intros r t1 [Ht1 Hl].
  destruct r as [l|e]; [|apply runs_ret; rewrite app_nil_r; by apply noting_pass_ok].
  assert (Hobs : forall reason message, namespaceGuardrailMode settings <> NamespaceGuardrailModeManaged ->
    runs (y ← setCondition ConditionTypeGuardrailsReady ConditionTrue reason message x; mret (None, y))
      (fun r tr => pass_ok x r.1 (t1 ++ tr))).
  { intros reason message Hne. eapply runs_bind; [apply setCondition_notes|]. intros y t [Ht _]. apply runs_ret.
    rewrite app_nil_r. apply noting_pass_ok; [by apply Forall_app|done]. }
  destruct (bool_decide_reflect (namespaceGuardrailMode settings = NamespaceGuardrailModeDisabled)) as [Hd|Hd].
  { apply Hobs. by rewrite Hd. }
  destruct (bool_decide_reflect (namespaceGuardrailMode settings = NamespaceGuardrailModeObserve)) as [Ho|Ho].
  { apply Hobs. by rewrite Ho. }
  apply active_pass_runs; [naive_solver|done|by apply Hl].
Qed.

(** A pass over a runtime that goes. *)
Definition leaving_ok (x : XTrinode) (tr : list (happening E)) : Prop :=
  let mode := namespaceGuardrailMode settings in
  ((mode = NamespaceGuardrailModeDisabled \/ mode = NamespaceGuardrailModeObserve -> tr = []) /\
   respectful mode tr /\ before (empty_namespace x) is_deletion tr) /\
  faithful x tr.

Lemma delete_both_runs ns mode :
  runs (deleteNamespaceGuardrailResources ns mode) (fun _ tr => respectful mode tr /\ writes_none tr).
Proof.
  unfold deleteNamespaceGuardrailResources. eapply runs_bind; [apply delete_guardrail_runs|]. intros err t1 [Hr1 Hw1].
  destruct err as [e|]; [apply runs_ret; by rewrite app_nil_r|].
  eapply runs_weaken; [apply delete_guardrail_runs|]. intros err t2 [Hr2 Hw2].
  split; [by apply respectful_app|by apply writes_none_app].
Qed.

Lemma after_delete_runs x : runs (reconcileNamespaceGuardrailsAfterDelete x) (fun _ tr => leaving_ok x tr).
Proof.
  unfold reconcileNamespaceGuardrailsAfterDelete. cbv zeta. assert (Hmode := namespaceGuardrailMode_cases).
  set (mode := namespaceGuardrailMode settings) in *.
  destruct (bool_decide_reflect (mode = NamespaceGuardrailModeDisabled)) as [Hd|Hd]; simpl.
  { apply runs_ret. split_and!; [done|by apply noting_respectful|by apply before_never|by apply noting_faithful]. }
  destruct (bool_decide_reflect (mode = NamespaceGuardrailModeObserve)) as [Ho|Ho]; simpl.
  { apply runs_ret. split_and!; [done|by apply noting_respectful|by apply before_never|by apply noting_faithful]. }
  assert (Ha : active mode) by naive_solver. assert (Hact : mode = NamespaceGuardrailModeDisabled \/ mode = NamespaceGuardrailModeObserve -> False) by tauto.
  eapply runs_bind; [apply calculate_runs|]. intros r t1 [Ht1 Hl]. assert (Hn1 := noting_writes_none _ Ht1).
  assert (Hr1 := noting_respectful mode _ Ht1).
  assert (Hd1 : Forall (fun h => ~ is_deletion h) t1) by (revert Ht1; apply Forall_impl, noting_undeleting).
  destruct r as [l|e].
  2:{ apply runs_ret. rewrite app_nil_r. split_and!; [done..|by apply before_never|by apply noting_faithful]. }
  specialize (Hl l eq_refl). destruct (Z.eqb_spec (gl_RuntimeCount l) 0) as [Hz|Hz].
  - eapply runs_weaken; [apply delete_both_runs|]. intros err t2 [Hr2 Hw2]. split_and!; [done|by apply respectful_app| |].
    + destruct Hl as (items & rs & Hi & _ & Hc & _). apply before_established; [apply empty_namespace_lasting|done|].
      exists items. split; [done|]. apply nil_length_inv. lia.
    + intros g h Hin Hw. by destruct (writes_none_app _ _ Hn1 Hw2 g h Hin).
  - eapply runs_ext; [|eapply runs_weaken; [apply (ensure_both_runs x l mode (mret tt) mret Ha); [by apply runs_ret|]|]].
    + intros w. unfold mbind, M_bind, mret, M_ret. destruct (ensureResourceQuota _ _ _ _ w) as [[e|] w1]; [done|].
      by destruct (ensureLimitRange _ _ _ w1).
    + intros err. by apply runs_ret.
    + intros err t2 (Hr2 & Hw2 & Hd2). split_and!; [done|by apply respectful_app|apply before_never; by apply Forall_app|].
      intros g h [Hin|Hin]%elem_of_app Hw; [by destruct (Hn1 g h Hin)|]. exists l.
      split; [by apply lasting_l; [apply computed_lasting|]|]. by apply (Hw2 g h).
Qed.



(** The largest surge makes the 32-bit pod count, and with it the quota, negative. *)
Lemma surge_overflows x v :
  GetScaledValue (rolloutMaxSurge x) 1 = Some v -> int32_max <= v -> coordinatorQuotaPods x = int32_min.
Proof.
  intros Hv Hle. unfold coordinatorQuotaPods, rolloutSurgeReplicas. simpl. rewrite Hv.
  destruct (Z.ltb_spec v 0); [unfold int32_max in *; lia|].
  assert (Hs : (if int32_max <? v then int32_max else v) = int32_max) by (destruct (Z.ltb_spec int32_max v); lia).
  by rewrite Hs.
Qed.

(** The maximum a container may ask for comes from the workers alone, so a
    coordinator with a larger limit than its workers cannot be created. *)
Lemma coordinator_above_max x shape :
  worker_limit shape "cpu" < coordinator_limit shape "cpu" -> 0 < coordinator_limit shape "cpu" ->
  match gr_Spec (range_of x (add_runtime x shape no_limits)) with
  | LimitRangeSpec [item] => nano (lri_Max item) "cpu" < coordinator_limit shape "cpu"
  | _ => False
  end.
Proof.
  intros Hw Hc. destruct (add_runtime_nano x shape no_limits) as (_ & _ & G & _). simpl in *.
  unfold nano, amount_of. rewrite lookup_insert_eq. simpl. lia.
Qed.
End calls.
End guardrails.
