(* ===== verification/NodePool.v ===== *)
(** * Node pools
    ([internal/config/config.go], [controllers/nodepool_fit.go], [nodepool_helpers.go],
    [xtrinode_helpers.go], [xtrinode_nodepool_reconcile.go])

    Defaults and bounds from the environment, the check that a machine type fits
    the workers, waiting for the nodes of a pool, and keeping a pool whose
    specification was removed.  The adapters that create provider resources and
    the inspection of failed machines are calls. *)

From S2P Require Import Prelude GoStrings GoTime GoParse XTrinodeTypes RuntimeShape Status Retry World Shutdown Operator.

(** ** Defaults *)

Definition NodePoolDefaultMinNodes : Z := 0.
Definition NodePoolDefaultMaxNodes : Z := 10.
Definition NodePoolDefaultDiskSizeGB : Z := 128.
Definition NodePoolValidationMinNodesMin : Z := 0.
Definition NodePoolValidationMaxNodesMin : Z := 1.
Definition NodePoolValidationMaxNodesMax : Z := 1000.
Definition NodePoolValidationOSDiskGBMin : Z := 30.
Definition NodePoolValidationOSDiskGBMax : Z := 2048.
Definition NodePoolProvisioningErrorRequeueInterval : Duration := 60 * Second.
Definition NodePoolResourceNotFoundRequeueInterval : Duration := 10 * Second.
Definition NodePoolStatusNotAvailableRequeueInterval : Duration := 10 * Second.
Definition NodePoolNoNodesReadyRequeueInterval : Duration := 30 * Second.
Definition NodePoolNodesReadyRequeueInterval : Duration := 10 * Second.
Definition NodePoolMinRequiredReplicasWhenMinNodesZero : Z := 0.

Record NodePoolValidationBounds := mkPoolBounds {
  nb_MinNodesMin : Z;
  nb_MaxNodesMin : Z;
  nb_MaxNodesMax : Z;
  nb_OSDiskGBMin : Z;
  nb_OSDiskGBMax : Z
}.

Record NodePoolDefaultValues := mkPoolDefaults {
  nd_MinNodes : Z;
  nd_MaxNodes : Z;
  nd_DiskSizeGB : Z
}.

Lemma raise_to x lo : (if x <? lo then lo else x) = Z.max lo x.
Proof. destruct (Z.ltb_spec x lo); lia. Qed.

Lemma cap_to x hi : (if hi <? x then hi else x) = Z.min hi x.
Proof. destruct (Z.ltb_spec hi x); lia. Qed.

Section environment.
(** [os.Getenv]: an unset variable reads as the empty string. *)
Context (Getenv : string -> string).

Definition envInt32 (name : string) (fallback : Z) : Z :=
  let value := TrimSpace (Getenv name) in
  if value ≡? "" then fallback else default fallback (ParseInt 32 value).

Definition NodePoolValidationBoundsFromEnv : NodePoolValidationBounds :=
  let minNodesMin := envInt32 "XTRINODE_NODEPOOL_VALIDATION_MIN_NODES_MIN" NodePoolValidationMinNodesMin in
  let maxNodesMin := envInt32 "XTRINODE_NODEPOOL_VALIDATION_MAX_NODES_MIN" NodePoolValidationMaxNodesMin in
  let maxNodesMax := envInt32 "XTRINODE_NODEPOOL_VALIDATION_MAX_NODES_MAX" NodePoolValidationMaxNodesMax in
  let osDiskMin := envInt32 "XTRINODE_NODEPOOL_VALIDATION_OS_DISK_GB_MIN" NodePoolValidationOSDiskGBMin in
  let osDiskMax := envInt32 "XTRINODE_NODEPOOL_VALIDATION_OS_DISK_GB_MAX" NodePoolValidationOSDiskGBMax in
  let minNodesMin := if minNodesMin <? 0 then NodePoolValidationMinNodesMin else minNodesMin in
  let maxNodesMin := if maxNodesMin <? 1 then NodePoolValidationMaxNodesMin else maxNodesMin in
  let maxNodesMax := if maxNodesMax <? maxNodesMin then maxNodesMin else maxNodesMax in
  let maxNodesMax := if maxNodesMax <? minNodesMin then minNodesMin else maxNodesMax in
  let osDiskMin := if osDiskMin <? 1 then NodePoolValidationOSDiskGBMin else osDiskMin in
  let osDiskMax := if osDiskMax <? osDiskMin then osDiskMin else osDiskMax in
  mkPoolBounds minNodesMin maxNodesMin maxNodesMax osDiskMin osDiskMax.

Definition NodePoolDefaultValuesFromEnv : NodePoolDefaultValues :=
  let b := NodePoolValidationBoundsFromEnv in
  let minNodes := envInt32 "XTRINODE_NODEPOOL_DEFAULT_MIN_NODES" NodePoolDefaultMinNodes in
  let maxNodes := envInt32 "XTRINODE_NODEPOOL_DEFAULT_MAX_NODES" NodePoolDefaultMaxNodes in
  let disk := envInt32 "XTRINODE_NODEPOOL_DEFAULT_OS_DISK_GB" NodePoolDefaultDiskSizeGB in
  let minNodes := if minNodes <? nb_MinNodesMin b then nb_MinNodesMin b else minNodes in
  let minNodes := if nb_MaxNodesMax b <? minNodes then nb_MaxNodesMax b else minNodes in
  let maxNodes := if maxNodes <? nb_MaxNodesMin b then nb_MaxNodesMin b else maxNodes in
  let maxNodes := if nb_MaxNodesMax b <? maxNodes then nb_MaxNodesMax b else maxNodes in
  let maxNodes := if maxNodes <? minNodes then minNodes else maxNodes in
  let disk := if disk <? nb_OSDiskGBMin b then nb_OSDiskGBMin b else disk in
  let disk := if nb_OSDiskGBMax b <? disk then nb_OSDiskGBMax b else disk in
  mkPoolDefaults minNodes maxNodes disk.

(** The specification of the runtime, then the operator's defaults stored in
    it, then the environment. *)
Definition getNodePoolDefaults (nodePool : NodePoolSpec) (x : XTrinode) : NodePoolDefaultValues :=
  let code := NodePoolDefaultValuesFromEnv in
  let operator := spec_OperatorNodePoolDefaults (xt_Spec x) in
  let pick (own : option Z) (field : OperatorNodePoolDefaultsSpec -> option Z) (fallback : Z) :=
    default (default fallback (operator ≫= field)) own in
  mkPoolDefaults (pick (np_MinNodes nodePool) ond_DefaultMinNodes (nd_MinNodes code))
    (pick (np_MaxNodes nodePool) ond_DefaultMaxNodes (nd_MaxNodes code))
    (pick (np_OSDiskGB nodePool) ond_DefaultOSDiskGB (nd_DiskSizeGB code)).

Definition getNodePoolMinRequiredReplicasWhenMinNodesZero (nodePool : NodePoolSpec) : Z :=
  default NodePoolMinRequiredReplicasWhenMinNodesZero (np_MinRequiredReplicasWhenMinNodesZero nodePool).

Definition requiredReadyReplicasForNodePool (x : XTrinode) : Z :=
  match spec_NodePool (xt_Spec x) with
  | None => 0
  | Some nodePool =>
      let minNodes := nd_MinNodes (getNodePoolDefaults nodePool x) in
      if minNodes =? 0 then getNodePoolMinRequiredReplicasWhenMinNodesZero nodePool else minNodes
  end.

Definition bounds_consistent (b : NodePoolValidationBounds) : Prop :=
  0 <= nb_MinNodesMin b <= nb_MaxNodesMax b /\ 1 <= nb_MaxNodesMin b <= nb_MaxNodesMax b /\
  1 <= nb_OSDiskGBMin b <= nb_OSDiskGBMax b.

Lemma env_bounds_consistent : bounds_consistent NodePoolValidationBoundsFromEnv.
Proof.
  unfold NodePoolValidationBoundsFromEnv, bounds_consistent.
  generalize (envInt32 "XTRINODE_NODEPOOL_VALIDATION_MIN_NODES_MIN" NodePoolValidationMinNodesMin),
    (envInt32 "XTRINODE_NODEPOOL_VALIDATION_MAX_NODES_MIN" NodePoolValidationMaxNodesMin),
    (envInt32 "XTRINODE_NODEPOOL_VALIDATION_MAX_NODES_MAX" NodePoolValidationMaxNodesMax),
    (envInt32 "XTRINODE_NODEPOOL_VALIDATION_OS_DISK_GB_MIN" NodePoolValidationOSDiskGBMin),
    (envInt32 "XTRINODE_NODEPOOL_VALIDATION_OS_DISK_GB_MAX" NodePoolValidationOSDiskGBMax).
  intros a b c d e. cbv zeta. cbn. rewrite !raise_to.
  unfold NodePoolValidationMinNodesMin, NodePoolValidationMaxNodesMin, NodePoolValidationOSDiskGBMin.
  destruct (Z.ltb_spec d 1); lia.
Qed.

(** Whatever the environment holds, text that is no number and
    contradictory limits included, the admission bounds are consistent and the
    default pool satisfies them: minimum and maximum are ordered and within
    the admitted node counts, and the disk within the admitted sizes. *)
Theorem node_pool_env_bounds :
  let b := NodePoolValidationBoundsFromEnv in
  let d := NodePoolDefaultValuesFromEnv in
  bounds_consistent b /\
  nb_MinNodesMin b <= nd_MinNodes d <= nd_MaxNodes d /\
  nb_MaxNodesMin b <= nd_MaxNodes d <= nb_MaxNodesMax b /\
  nb_OSDiskGBMin b <= nd_DiskSizeGB d <= nb_OSDiskGBMax b.
Proof.
  pose proof env_bounds_consistent as Hb. unfold NodePoolDefaultValuesFromEnv.
  generalize dependent NodePoolValidationBoundsFromEnv. intros b Hb. cbv zeta. split; [done|].
  generalize (envInt32 "XTRINODE_NODEPOOL_DEFAULT_MIN_NODES" NodePoolDefaultMinNodes),
    (envInt32 "XTRINODE_NODEPOOL_DEFAULT_MAX_NODES" NodePoolDefaultMaxNodes),
    (envInt32 "XTRINODE_NODEPOOL_DEFAULT_OS_DISK_GB" NodePoolDefaultDiskSizeGB).
  intros x y z. cbn. rewrite !raise_to, !cap_to. unfold bounds_consistent in Hb. lia.
Qed.
End environment.

(** ** Names and intervals *)

Definition getNodePoolName (nodePool : NodePoolSpec) (xtrinodeName : string) : string :=
  if negb (np_Name nodePool ≡? "") then np_Name nodePool else xtrinodeName +:+ NodePoolNameSuffix.

Definition nodePoolDeletionPolicy (nodePool : NodePoolSpec) : string :=
  if np_DeletionPolicy nodePool ≡? "" then NodePoolDeletionPolicyDelete else np_DeletionPolicy nodePool.

Definition isMachinePoolProvider (nodePool : NodePoolSpec) : bool :=
  if np_Provider nodePool ≡? "azure" then true else np_ProviderMode nodePool ≡? "managed".

Definition getNodePoolErrorRequeueInterval (np : NodePoolSpec) : Duration :=
  default NodePoolProvisioningErrorRequeueInterval (np_ErrorRequeueInterval np).
Definition getNodePoolResourceNotFoundRequeueInterval (np : NodePoolSpec) : Duration :=
  default NodePoolResourceNotFoundRequeueInterval (np_ResourceNotFoundRequeueInterval np).
Definition getNodePoolStatusNotAvailableRequeueInterval (np : NodePoolSpec) : Duration :=
  default NodePoolStatusNotAvailableRequeueInterval (np_StatusNotAvailableRequeueInterval np).
Definition getNodePoolNoNodesReadyRequeueInterval (np : NodePoolSpec) : Duration :=
  default NodePoolNoNodesReadyRequeueInterval (np_NoNodesReadyRequeueInterval np).
Definition getNodePoolNodesReadyRequeueInterval (np : NodePoolSpec) : Duration :=
  default NodePoolNodesReadyRequeueInterval (np_NodesReadyRequeueInterval np).

(** [%q] of a string that needs no escaping. *)
Definition quoted (s : string) : string := String (ascii_of_nat 34) (s +:+ String (ascii_of_nat 34) EmptyString).

Definition nodePoolProvisionedMessage (x : XTrinode) : string :=
  match spec_NodePool (xt_Spec x) with
  | None => "No node pool requested"
  | Some np =>
      if negb (np_ClusterName np ≡? "")
      then "Node pool provisioned for CAPI cluster " +:+ quoted (np_ClusterName np) +:+
           "; runtime pods are reconciled by the operator cluster unless XTrinode is installed in the workload cluster"
      else "Node pool provisioned successfully"
  end.

(** ** Does the machine type fit the workers? *)

Definition ConditionTypeNodePoolFitReady : string := "NodePoolFitReady".

Definition normalizeNodePoolString (value : string) : string := ToLower (TrimSpace value).

Definition configuredNodePoolMachineType (np : NodePoolSpec) : string :=
  let provider := normalizeNodePoolString (np_Provider np) in
  if provider ≡? "azure" then from_option az_VMSize "" (np_Azure np) else
  if provider ≡? "aws" then from_option aws_InstanceType "" (np_AWS np) else
  if provider ≡? "gcp" then from_option gcp_MachineType "" (np_GCP np) else "".

Definition machine_ranks : gmap string Z := list_to_map
  [("azure/standard_d2as_v5", 1); ("azure/standard_d8as_v5", 2); ("azure/standard_d16as_v5", 3);
   ("azure/standard_d32as_v5", 4); ("azure/standard_d64as_v5", 5); ("aws/m5.large", 1);
   ("aws/m5.2xlarge", 2); ("aws/m5.4xlarge", 3); ("aws/m5.8xlarge", 4);
   ("aws/m5.16xlarge", 5); ("gcp/n1-standard-2", 1); ("gcp/n1-standard-8", 2);
   ("gcp/n1-standard-16", 3); ("gcp/n1-standard-32", 4); ("gcp/n1-standard-64", 5)].

Definition nodePoolMachineRank (provider machineType : string) : option Z :=
  machine_ranks !! (normalizeNodePoolString provider +:+ "/" +:+ normalizeNodePoolString machineType).

Definition zeroQuantity : Quantity := mkQuantity 0 "0".

Definition applyLargerNodePoolQuantity (current : Quantity) (candidate : Quantity) : Quantity :=
  if (0 <? q_Sign candidate) && (match q_Cmp candidate current with Gt => true | _ => false end)
  then candidate else current.

Definition workerResourceNeed (r : ResourceRequirements) : option (Quantity * Quantity) :=
  let of_ (m : gmap string Quantity) k := default zeroQuantity (m !! k) in
  let larger k := applyLargerNodePoolQuantity
    (applyLargerNodePoolQuantity zeroQuantity (of_ (res_Requests r) k)) (of_ (res_Limits r) k) in
  let cpu := larger ResourceCPU in
  let memory := larger ResourceMemory in
  if (0 <? q_Sign cpu) || (0 <? q_Sign memory) then Some (cpu, memory) else None.

Section fit.
Context `{QuantityParser}.
Context (hash16 : hash_input -> string) (shape_error_text : shape_error -> string).

Definition preset_covers (cpu memory : Quantity) (presetName : string) : bool :=
  match GetPreset presetName with
  | None => false
  | Some preset =>
      match ParseQuantity (WorkerCPULim preset), ParseQuantity (WorkerMemLim preset) with
      | Some presetCPU, Some presetMemory =>
          negb (q_Cmp presetCPU cpu ≡? Lt) && negb (q_Cmp presetMemory memory ≡? Lt)
      | _, _ => false
      end
  end.

Definition requiredPresetForWorkerResources (r : ResourceRequirements) : string :=
  match workerResourceNeed r with
  | None => ""
  | Some (cpu, memory) =>
      default "xl" (find_first (preset_covers cpu memory) ["xs"; "s"; "m"; "l"; "xl"])
  end.

(** The condition [setNodePoolFitCondition] sets: status, reason, message. *)
Definition fit_condition (x : XTrinode) (np : NodePoolSpec) : ConditionStatus * string * string :=
  let unknown message := (ConditionUnknown, "NodePoolFitUnknown", message) in
  let provider := normalizeNodePoolString (np_Provider np) in
  let configured := configuredNodePoolMachineType np in
  if (provider ≡? "") || (configured ≡? "") then unknown "Node-pool machine type is not configured yet" else
  match nodePoolMachineRank provider configured with
  | None => unknown ("Node-pool machine type " +:+ quoted configured +:+ " is not in the built-in fit table")
  | Some configuredRank =>
      match Resolve hash16 x with
      | Err e => unknown ("Failed to resolve runtime shape for node-pool fit: " +:+ shape_error_text e)
      | Ok shape =>
          let requiredPreset := requiredPresetForWorkerResources (sh_Worker shape) in
          let recommended := GetRecommendedMachineType requiredPreset provider in
          match nodePoolMachineRank provider recommended with
          | Some recommendedRank =>
              if (requiredPreset ≡? "") || (recommended ≡? "")
              then unknown "Node-pool fit could not be checked for the resolved worker resources"
              else if configuredRank <? recommendedRank
              then (ConditionFalse, "NodePoolFitFailed",
                    "Node-pool machine type " +:+ quoted configured +:+
                    " may not fit resolved worker resources; recommended " +:+ provider +:+
                    " machine type is " +:+ quoted recommended)
              else (ConditionTrue, "NodePoolFitOK",
                    "Node-pool machine type " +:+ quoted configured +:+
                    " fits the built-in recommendation for resolved worker resources")
          | None => unknown "Node-pool fit could not be checked for the resolved worker resources"
          end
      end
  end.

Context {E W : Type} `{!World E W, KubeErrors E, !ErrorKinds E, WaitBackoff E}.

Definition setNodePoolFitCondition (x : XTrinode) : M W XTrinode :=
  match spec_NodePool (xt_Spec x) with
  | None => mret x
  | Some np =>
      let '(status, reason, message) := fit_condition x np in
      setCondition ConditionTypeNodePoolFitReady status reason message x
  end.

(** ** Waiting for nodes *)

Context (Getenv : string -> string).

Definition setNodePoolProvisioningCondition (message : string) (x : XTrinode) : M W XTrinode :=
  setCondition ConditionTypeNodePoolReady ConditionFalse "NodePoolProvisioning" message x.

(** Whether the pool is ready, and otherwise how long to wait. *)
Definition pool_answer : Type := bool * Duration * option E * XTrinode.

Definition report_pool_failure (np : NodePoolSpec) (message : string) (x : XTrinode) : M W pool_answer :=
  x ← setCondition ConditionTypeNodePoolReady ConditionFalse ConditionReasonNodePoolFailed message x;
  _ ← recordEvent (Warning "NodePoolProvisionFailed" ("Node pool provisioning reported failure: " +:+ message));
  err ← updateStatus x;
  mret match err with
       | Some e => (false, 0, Some e, x)
       | None => (false, getNodePoolErrorRequeueInterval np, None, x)
       end.

Definition count_ready_nodes (np : NodePoolSpec) (r : MachineResource) (x : XTrinode) : M W pool_answer :=
  let requiredReplicas := requiredReadyReplicasForNodePool Getenv x in
  if requiredReplicas =? 0 then mret (true, 0, None, x) else
  match mr_Status r with
  | None =>
      x ← setNodePoolProvisioningCondition ("Node pool status is not available yet; waiting for " +:+
            fmt_d requiredReplicas +:+ " ready replicas") x;
      mret (false, getNodePoolStatusNotAvailableRequeueInterval np, None, x)
  | Some (readyReplicas, _) =>
      if requiredReplicas <=? readyReplicas then mret (true, 0, None, x) else
      x ← setNodePoolProvisioningCondition ("Node pool has " +:+ fmt_d readyReplicas +:+
            " ready replicas; waiting for " +:+ fmt_d requiredReplicas +:+ " required ready replicas") x;
      mret (false, if readyReplicas =? 0 then getNodePoolNoNodesReadyRequeueInterval np
                   else getNodePoolNodesReadyRequeueInterval np, None, x)
  end.

Definition waitForNodePoolReady (x : XTrinode) : M W pool_answer :=
  match spec_NodePool (xt_Spec x) with
  | None => mret (true, 0, None, x)
  | Some np =>
      let nodePoolName := getNodePoolName np (xt_Name x) in
      res ← perform (GetMachineResource (isMachinePoolProvider np) (xt_Namespace x) nodePoolName);
      match res with
      | Err e =>
          if IsNotFound e
          then x ← setNodePoolProvisioningCondition ("Node pool resource " +:+ quoted nodePoolName +:+
                     " is not available yet") x;
               mret (false, getNodePoolResourceNotFoundRequeueInterval np, None, x)
          else mret (false, 0, Some e, x)
      | Ok r =>
          '(diagnostic, _) ← perform (NodePoolFailureDiagnostic x r);
          match diagnostic with
          | Some message => report_pool_failure np message x
          | None => count_ready_nodes np r x
          end
      end
  end.

Definition reconcileNodePoolBlocking (x : XTrinode) : M W (Duration * option E * XTrinode) :=
  match spec_NodePool (xt_Spec x) with
  | None => mret (0, None, x)
  | Some np =>
      existing ← perform (GetMachineResource (isMachinePoolProvider np) (xt_Namespace x)
                            (getNodePoolName np (xt_Name x)));
      _ ← match existing with
          | Err e => if IsNotFound e
                     then recordEvent (Normal "NodePoolProvisioning"
                            ("Node pool provisioning started for provider " +:+ np_Provider np))
                     else mret tt
          | Ok _ => mret tt
          end;
      err ← CallWithTimeout (perform (EnsureNodePool x));
      match err with
      | Some e =>
          x ← setCondition ConditionTypeNodePoolReady ConditionFalse ConditionReasonNodePoolFailed
                ("Failed: " +:+ error_text e) x;
          '(_, x) ← setXTrinodeErrorStatusAndUpdate ConditionReasonNodePoolFailed
                ("Failed to ensure node pool: " +:+ error_text e) x;
          mret (getNodePoolErrorRequeueInterval np, Some e, x)
      | None =>
          x ← setNodePoolFitCondition x;
          '(ready, requeue, err, x) ← waitForNodePoolReady x;
          match err with
          | Some e => mret (requeue, Some e, x)
          | None =>
              if negb ready then mret (requeue, None, x) else
              x ← setCondition ConditionTypeNodePoolReady ConditionTrue "NodePoolReady"
                    (nodePoolProvisionedMessage x) x;
              _ ← recordEvent (Normal "NodePoolReady"
                    ("Node pool readiness requirement is satisfied for provider " +:+ np_Provider np));
              mret (0, None, x)
          end
      end
  end.

(** ** A pool whose specification was removed *)

Definition NodePoolDeletionPolicyRetain : string := "Retain".
Definition NodePoolDeletionPolicyScaleToZero : string := "ScaleToZero".

Definition nodePoolSpecFromObservedStatus (o : ObservedRuntimeNodePoolStatus) : result E NodePoolSpec :=
  if orn_Provider o ≡? "" then Err (errors_New "last observed node-pool provider is empty") else
  Ok (mkNodePool (orn_Name o) (orn_Provider o) None None (orn_SchedulePods o) (orn_ProviderMode o) None
        NodePoolDeletionPolicyRetain None None None None "" None None None None None None).

(** [None] when nothing was removed. *)
Definition xtrinodeWithRemovedObservedNodePool (x : XTrinode) : option (result E XTrinode) :=
  match spec_NodePool (xt_Spec x), st_ObservedRuntimeShape (xt_Status x) with
  | None, Some shape =>
      let observed := ors_NodePool shape in
      if negb (orn_ProvisioningRequested observed) then None else
      Some match nodePoolSpecFromObservedStatus observed with
           | Err e => Err e
           | Ok np => Ok (XTrinodeTypes.set_NodePool (Some np) x)
           end
  | _, _ => None
  end.

Definition setObservedRuntimeShapeStatus (x : XTrinode) : option E * XTrinode :=
  match Resolve hash16 x with
  | Err e => (Some (errors_New (shape_error_text e)), x)
  | Ok shape => (None, set_ObservedRuntimeShape (Some (ObservedStatus shape)) x)
  end.

Definition report_retain_failure (message event_text : string) (x : XTrinode) : M W XTrinode :=
  x ← setCondition ConditionTypeNodePoolReady ConditionFalse ConditionReasonNodePoolFailed message x;
  _ ← recordEvent (Warning "NodePoolRetainFailed"
        ("Failed to retain node pool after spec.nodePool removal: " +:+ event_text));
  _ ← updateStatus x;
  mret x.

Definition reconcileRemovedNodePool (x : XTrinode) : M W (Duration * option E * XTrinode) :=
  match xtrinodeWithRemovedObservedNodePool x with
  | None => mret (0, None, x)
  | Some (Err e) =>
      let wrapped := Errorf "cannot retain removed node pool: " e in
      x ← report_retain_failure (error_text wrapped) (error_text e) x;
      mret (NodePoolProvisioningErrorRequeueInterval, Some wrapped, x)
  | Some (Ok retained) =>
      err ← CallWithTimeout (perform (RetainNodePool retained));
      match err with
      | Some e =>
          x ← report_retain_failure ("Failed to retain removed node pool: " +:+ error_text e) (error_text e) x;
          mret (from_option getNodePoolErrorRequeueInterval NodePoolProvisioningErrorRequeueInterval
                  (spec_NodePool (xt_Spec retained)), Some e, x)
      | None =>
          let '(err, x) := setObservedRuntimeShapeStatus x in
          match err with
          | Some e =>
              mret (0, Some (Errorf "failed to refresh observed runtime shape after node pool retention: " e), x)
          | None =>
              x ← setCondition ConditionTypeNodePoolReady ConditionTrue "NodePoolRetained"
                    "Node pool retained because spec.nodePool was removed" x;
              err ← updateStatus x;
              match err with
              | Some e => mret (0, Some e, x)
              | None =>
                  _ ← recordEvent (Normal "NodePoolRetained" ("Node pool " +:+
                        quoted (from_option (fun np => getNodePoolName np (xt_Name x)) ""
                                  (spec_NodePool (xt_Spec retained))) +:+
                        " retained because spec.nodePool was removed"));
                  mret (0, None, x)
              end
          end
      end
  end.

(** ** What these do to the world *)

(** Bookkeeping, and creating or keeping the pool. *)
Definition pooling (h : happening E) : Prop :=
  bookkeeping h \/ exists y, projT1 h = EnsureNodePool y \/ projT1 h = RetainNodePool y.

Lemma bookkeeping_pooling h : bookkeeping h -> pooling h.
Proof. by left. Qed.

Lemma bookkeepings_pooling tr : Forall bookkeeping tr -> Forall pooling tr.
Proof. apply Forall_impl, bookkeeping_pooling. Qed.

Lemma emits_pooling {A} (m : M W A) (R : A -> Prop) : emits bookkeeping m R -> emits pooling m R.
Proof. intros Hm. eapply emits_weaken; [exact Hm|apply bookkeeping_pooling|done]. Qed.

(** The machine resource [r] has the nodes the runtime asks for. *)
Definition nodes_suffice (x : XTrinode) (r : MachineResource) : Prop :=
  requiredReadyReplicasForNodePool Getenv x = 0 \/
  exists ready total, mr_Status r = Some (ready, total) /\ requiredReadyReplicasForNodePool Getenv x <= ready.

Lemma setNodePoolFitCondition_emits x : emits bookkeeping (setNodePoolFitCondition x) (only_conditions x).
Proof.
  unfold setNodePoolFitCondition. destruct (spec_NodePool (xt_Spec x)) as [np|]; [|by apply emits_ret; reflexivity].
  destruct (fit_condition x np) as [[st reason] message]. apply setCondition_emits.
Qed.

Lemma report_pool_failure_emits np message x :
  emits bookkeeping (report_pool_failure np message x) (fun '(ready, _, _, y) => ready = false /\ only_conditions x y).
Proof.
  eapply emits_bind; [apply setCondition_emits|]. intros y Hy. unfold recordEvent. emit_call. intros [].
  eapply emits_bind; [apply updateStatus_emits|]. intros [e|] _; by apply emits_ret.
Qed.

Lemma count_ready_nodes_emits np r x :
  emits bookkeeping (count_ready_nodes np r x)
    (fun '(ready, _, err, y) => only_conditions x y /\ err = None /\ (ready = true -> nodes_suffice x r)).
Proof.
  unfold count_ready_nodes, nodes_suffice. destruct (Z.eqb_spec (requiredReadyReplicasForNodePool Getenv x) 0) as [Hz|_].
  { apply emits_ret. split; [reflexivity|by auto]. }
  destruct (mr_Status r) as [[n total]|].
  - destruct (Z.leb_spec (requiredReadyReplicasForNodePool Getenv x) n); [apply emits_ret; split; [reflexivity|by eauto 10]|].
    eapply emits_bind; [apply setCondition_emits|]. intros y Hy. by apply emits_ret.
  - eapply emits_bind; [apply setCondition_emits|]. intros y Hy. by apply emits_ret.
Qed.

Definition pool_resource (np : NodePoolSpec) (x : XTrinode) : call :=
  GetMachineResource (isMachinePoolProvider np) (xt_Namespace x) (getNodePoolName np (xt_Name x)).

Lemma waitForNodePoolReady_runs x np :
  spec_NodePool (xt_Spec x) = Some np ->
  runs (waitForNodePoolReady x) (fun '(ready, _, _, y) tr =>
    Forall bookkeeping tr /\ only_conditions x y /\
    (ready = true -> exists r, existT (pool_resource np x) (Ok r) ∈ tr /\ nodes_suffice x r)).
Proof.
  intros Hnp. unfold waitForNodePoolReady. rewrite Hnp. run_call. intros [r|e].
  - run_call. intros [[message|] de].
    + eapply runs_weaken; [apply report_pool_failure_emits|]. intros [[[ready d] err] y] tr [Htr [-> Hy]].
      split_and!; [by repeat constructor|done|done].
    + eapply runs_weaken; [apply count_ready_nodes_emits|]. intros [[[ready d] err] y] tr (Htr & Hy & _ & Hr).
      split_and!; [by repeat constructor|done|]. intros Hready. exists r. split; [left|by apply Hr].
  - destruct (IsNotFound e).
    + eapply runs_bind; [apply setCondition_emits|]. intros y tr [Htr Hy]. apply runs_ret.
      rewrite app_nil_r. split_and!; [by constructor|done|done].
    + apply runs_ret. split_and!; [by repeat constructor|reflexivity|done].
Qed.

(** The waits a specification may set; without them the defaults hold. *)
Definition intervals_positive (np : NodePoolSpec) : Prop :=
  0 < getNodePoolErrorRequeueInterval np /\ 0 < getNodePoolResourceNotFoundRequeueInterval np /\
  0 < getNodePoolStatusNotAvailableRequeueInterval np /\ 0 < getNodePoolNoNodesReadyRequeueInterval np /\
  0 < getNodePoolNodesReadyRequeueInterval np.

Lemma wait_interval x np :
  spec_NodePool (xt_Spec x) = Some np ->
  runs (waitForNodePoolReady x) (fun '(ready, requeue, err, _) _ =>
    intervals_positive np -> ready = false -> err = None -> 0 < requeue).
Proof.
  intros Hnp. unfold waitForNodePoolReady. rewrite Hnp. run_call. intros [r|e].
  - run_call. intros [[message|] de].
    + unfold report_pool_failure. eapply runs_bind; [apply setCondition_emits|]. intros y t1 _.
      unfold recordEvent. run_call. intros []. eapply runs_bind; [apply updateStatus_emits|].
      intros [e|] t2 _; apply runs_ret; [done|]. intros Hpos _ _. apply Hpos.
    + unfold count_ready_nodes. destruct (_ =? 0); [by apply runs_ret|].
      destruct (mr_Status r) as [[n total]|]; [destruct (_ <=? n); [by apply runs_ret|]|];
        (eapply runs_bind; [apply setCondition_emits|]); intros y t1 _; apply runs_ret; intros Hpos _ _;
        [destruct (n =? 0)|]; apply Hpos.
  - destruct (IsNotFound e); [|by apply runs_ret].
    eapply runs_bind; [apply setCondition_emits|]. intros y t1 _. apply runs_ret. intros Hpos _ _. apply Hpos.
Qed.

(** The pool was created or found, and then seen with enough nodes. *)
Definition pool_ready (np : NodePoolSpec) (x : XTrinode) (tr : list (happening E)) : Prop :=
  existT (EnsureNodePool x) None ∈ tr /\
  exists r, existT (pool_resource np x) (Ok r) ∈ tr /\ nodes_suffice x r.

Lemma ensure_pool_runs x :
  runs (CallWithTimeout (perform (EnsureNodePool x) : M W (option E))) (fun r tr =>
    Forall pooling tr /\ (r = None -> existT (EnsureNodePool x) None ∈ tr)).
Proof.
  eapply runs_weaken; [apply (timeout_call_runs _ (existT (EnsureNodePool x))); by apply (runs_perform (EnsureNodePool x))|].
  intros r tr (r0 & -> & Hn & _). split; [constructor; [right; eauto|constructor]|].
  intros Hr. rewrite (Hn Hr). left.
Qed.

(** Conditions do not change what a pool requires, nor its name. *)
Lemma nodes_suffice_conditions x y r :
  only_conditions x y -> nodes_suffice y r -> nodes_suffice x r.
Proof. by intros [cs ->]. Qed.

Lemma pool_seen_conditions np x y (r : MachineResource) (tr : list (happening E)) : only_conditions x y ->
  existT (pool_resource np y) (Ok r) ∈ tr -> existT (pool_resource np x) (Ok r) ∈ tr.
Proof. by intros [cs ->]. Qed.

Lemma started_event_emits (existing : result E MachineResource) ev :
  emits bookkeeping (match existing with
                     | Err e => if IsNotFound e then recordEvent ev else mret tt
                     | Ok _ => mret tt
                     end : M W unit) (fun _ => True).
Proof.
  destruct existing as [|e]; [by apply emits_ret|]. destruct (IsNotFound e); [|by apply emits_ret].
  by refine (emits_perform _ (RecordEvent ev) _).
Qed.

Lemma reconcileNodePoolBlocking_runs x :
  runs (reconcileNodePoolBlocking x) (fun '(requeue, err, y) tr =>
    Forall pooling tr /\ only_status x y /\
    forall np, spec_NodePool (xt_Spec x) = Some np -> intervals_positive np -> requeue <= 0 -> err = None ->
      pool_ready np x tr /\ current_status y ConditionTypeNodePoolReady = ConditionTrue).
Proof.
  unfold reconcileNodePoolBlocking. destruct (spec_NodePool (xt_Spec x)) as [np|] eqn:Enp.
  2: { apply runs_ret. split_and!; [constructor|reflexivity|done]. }
  run_call. intros existing. eapply runs_bind; [apply emits_pooling, started_event_emits|]. intros _ t1 [Ht1 _].
  eapply runs_bind; [apply ensure_pool_runs|]. intros [e|] t2 [Ht2 Hens].
  { eapply runs_bind; [apply emits_pooling, setCondition_emits|]. intros y t3 [Ht3 Hy].
    eapply runs_bind; [apply emits_pooling, setError_emits|]. intros [e' z] t4 [Ht4 Hz]. apply runs_ret.
    split_and!; [|etrans; [by apply only_conditions_status|]; etrans; [by eexists|by apply only_conditions_status]|done].
    rewrite app_nil_r. constructor; [by left|]. by rewrite !Forall_app. }
  eapply runs_bind; [apply setNodePoolFitCondition_emits|]. intros x1 t3 [Ht3 Hx1].
  assert (Hnp1 : spec_NodePool (xt_Spec x1) = Some np) by (by destruct Hx1 as [cs ->]).
  eapply runs_bind; [apply (runs_and _ _ _ (waitForNodePoolReady_runs x1 np Hnp1) (wait_interval x1 np Hnp1))|].
  intros [[[ready requeue] err] x2] t4 [(Ht4 & Hx2 & Hready) Hwait].
  assert (Hall : Forall pooling (existT (pool_resource np x) existing :: t1 ++ t2 ++ t3 ++ t4)).
  { constructor; [by left|]. rewrite !Forall_app.
    split_and!; [done|done| |]; by apply bookkeepings_pooling. }
  assert (Hx : only_conditions x x2) by (by etrans).
  destruct err as [e|]; [|destruct ready; simpl].
  - apply runs_ret. rewrite app_nil_r. split_and!; [done|by apply only_conditions_status|done].
  - eapply runs_bind; [apply setCondition_sets|]. intros x3 t5 (Ht5 & Hx3 & Hset).
    unfold recordEvent. run_call. intros []. apply runs_ret. split_and!.
    + rewrite !app_assoc, app_comm_cons. apply Forall_app. split; [|by repeat constructor].
      rewrite app_comm_cons. apply Forall_app. split; [by rewrite <- !app_assoc|by apply bookkeepings_pooling].
    + apply only_conditions_status. by etrans.
    + intros np' [= <-] _ _ _. split; [|done].
      destruct (Hready eq_refl) as (r & Hr & Hs). apply (pool_seen_conditions np x x1 r t4 Hx1) in Hr.
      split; [specialize (Hens eq_refl); set_solver|]. exists r. split; [set_solver|].
      exact (nodes_suffice_conditions x x1 r Hx1 Hs).
  - apply runs_ret. rewrite app_nil_r. split_and!; [done|by apply only_conditions_status|].
    intros np' [= <-] Hpos Hle _. specialize (Hwait Hpos eq_refl eq_refl). lia.
Qed.


(** With an interval of zero a pool without ready nodes passes for a ready one:
    neither an error nor a requeue is returned. *)
Lemma zero_interval_passes x np r :
  spec_NodePool (xt_Spec x) = Some np -> requiredReadyReplicasForNodePool Getenv x = 1 ->
  mr_Status r = Some (0, 0) -> getNodePoolNoNodesReadyRequeueInterval np = 0 ->
  runs (count_ready_nodes np r x) (fun '(ready, requeue, err, _) _ => ready = false /\ requeue = 0 /\ err = None).
Proof.
  intros Hnp Hreq Hst Hz. unfold count_ready_nodes. rewrite Hreq, Hst. simpl.
  eapply runs_bind; [apply setCondition_emits|]. intros y t _. apply runs_ret. by rewrite Hz.
Qed.

(** *** Keeping a removed pool *)

Lemma report_retain_failure_emits m1 m2 x :
  emits bookkeeping (report_retain_failure m1 m2 x) (only_conditions x).
Proof.
  eapply emits_bind; [apply setCondition_emits|]. intros y Hy. unfold recordEvent. emit_call. intros [].
  eapply emits_bind; [apply updateStatus_emits|]. intros _ _. by apply emits_ret.
Qed.

Lemma retain_call_runs y :
  runs (CallWithTimeout (perform (RetainNodePool y) : M W (option E))) (fun r tr =>
    Forall pooling tr /\ (r = None -> existT (RetainNodePool y) None ∈ tr)).
Proof.
  eapply runs_weaken; [apply (timeout_call_runs _ (existT (RetainNodePool y))); by apply (runs_perform (RetainNodePool y))|].
  intros r tr (r0 & -> & Hn & _). split; [constructor; [right; eauto|constructor]|].
  intros Hr. rewrite (Hn Hr). left.
Qed.

(** Without a node pool in the specification the observed shape asks for none. *)
Lemma observed_without_pool x x' :
  spec_NodePool (xt_Spec x) = None -> setObservedRuntimeShapeStatus x = (None, x') ->
  only_status x x' /\ xtrinodeWithRemovedObservedNodePool x' = None.
Proof.
  intros Hnp. unfold setObservedRuntimeShapeStatus. destruct (Resolve hash16 x) as [shape|e] eqn:Er; [|done].
  intros [= <-]. split; [by eexists|]. apply resolve_node_pool in Er. rewrite Hnp in Er.
  unfold xtrinodeWithRemovedObservedNodePool. simpl. by rewrite Hnp, Er.
Qed.

Lemma removed_conditions x y : only_conditions x y ->
  xtrinodeWithRemovedObservedNodePool x = None -> xtrinodeWithRemovedObservedNodePool y = None.
Proof.
  intros [cs ->]. unfold xtrinodeWithRemovedObservedNodePool. simpl.
  destruct (spec_NodePool (xt_Spec x)); [done|]. destruct (st_ObservedRuntimeShape (xt_Status x)); [|done].
  destruct (negb _); done.
Qed.

(** A node pool dropped from the specification is kept, once: if the step
    succeeds the adapter was told to retain the pool that was last observed,
    and the status it stores no longer mentions a pool, so the next pass does
    nothing.  A runtime without such a pool is left alone. *)
Theorem removed_pool_retained x :
  runs (reconcileRemovedNodePool x) (fun '(requeue, err, y) tr =>
    Forall pooling tr /\ only_status x y /\
    match xtrinodeWithRemovedObservedNodePool x with
    | None => (requeue, err, y, tr) = (0, None, x, [])
    | Some r => err = None ->
        xtrinodeWithRemovedObservedNodePool y = None /\
        exists retained, r = Ok retained /\ existT (RetainNodePool retained) None ∈ tr
    end).
Proof.
  unfold reconcileRemovedNodePool. destruct (xtrinodeWithRemovedObservedNodePool x) as [[retained|e]|] eqn:Ex.
  3: { apply runs_ret. split_and!; [constructor|reflexivity|done]. }
  2: { eapply runs_bind; [apply report_retain_failure_emits|]. intros y t [Ht Hy]. apply runs_ret.
       rewrite app_nil_r. split_and!; [by apply bookkeepings_pooling|by apply only_conditions_status|done]. }
  assert (Hnp : spec_NodePool (xt_Spec x) = None).
  { unfold xtrinodeWithRemovedObservedNodePool in Ex. by destruct (spec_NodePool (xt_Spec x)). }
  eapply runs_bind; [apply retain_call_runs|]. intros [e|] t1 [Ht1 Hret].
  { eapply runs_bind; [apply report_retain_failure_emits|]. intros y t2 [Ht2 Hy]. apply runs_ret. rewrite app_nil_r.
    split_and!; [apply Forall_app; split; [done|by apply bookkeepings_pooling]|by apply only_conditions_status|done]. }
  destruct (setObservedRuntimeShapeStatus x) as [[e|] x1] eqn:Eo.
  { apply runs_ret. rewrite app_nil_r. split_and!; [done| |done].
    unfold setObservedRuntimeShapeStatus in Eo. destruct (Resolve hash16 x); [done|]. injection Eo as _ <-. reflexivity. }
  destruct (observed_without_pool x x1 Hnp Eo) as [Hx1 Hgone].
  eapply runs_bind; [apply setCondition_emits|]. intros x2 t2 [Ht2 Hx2].
  eapply runs_bind; [apply updateStatus_emits|]. intros err t3 [Ht3 _].
  assert (Hx : only_status x x2) by (etrans; [exact Hx1|by apply only_conditions_status]).
  assert (Hall : Forall pooling (t1 ++ t2 ++ t3)).
  { rewrite !Forall_app. split_and!; [done| |]; by apply bookkeepings_pooling. }
  destruct err as [e|]; [apply runs_ret; by rewrite app_nil_r|].
  unfold recordEvent. run_call. intros []. apply runs_ret. split_and!; [|done|].
  { rewrite !app_assoc. apply Forall_app. split; [by rewrite <- app_assoc|]. by repeat constructor. }
  intros _. split; [by eapply removed_conditions|]. exists retained. split; [done|]. specialize (Hret eq_refl). set_solver.
Qed.

Definition normalized (s : string) : Prop := ToLower (TrimSpace s) = s.

(** The status remembers a node pool well enough to find it again: record
    the resolved shape of a runtime, drop the pool from the specification, and
    the pool that is then retained is the same cluster resource, with the same
    scheduling, under the retain policy. *)
Theorem observed_pool_roundtrip x np x1 :
  spec_NodePool (xt_Spec x) = Some np ->
  normalized (np_Provider np) -> normalized (np_ProviderMode np) -> np_Provider np <> "" ->
  setObservedRuntimeShapeStatus x = (None, x1) ->
  exists np', xtrinodeWithRemovedObservedNodePool (XTrinodeTypes.set_NodePool None x1) =
      Some (Ok (XTrinodeTypes.set_NodePool (Some np') x1)) /\
    pool_resource np' x1 = pool_resource np x /\
    np_SchedulePods np' = np_SchedulePods np /\ nodePoolDeletionPolicy np' = NodePoolDeletionPolicyRetain.
Proof.
  intros Hnp Hprov Hmode Hne. unfold setObservedRuntimeShapeStatus.
  destruct (Resolve hash16 x) as [shape|e] eqn:Er; [|done]. intros [= <-].
  apply resolve_node_pool in Er. rewrite Hnp in Er. destruct Er as (Hreq & Hp & Hm & Hs & Hn).
  unfold xtrinodeWithRemovedObservedNodePool. simpl. rewrite Hreq. simpl.
  unfold nodePoolSpecFromObservedStatus. simpl. rewrite Hp, Hprov, bool_decide_false by done.
  eexists. split; [done|]. split_and!; [|by simpl|done].
  unfold pool_resource, isMachinePoolProvider, getNodePoolName. simpl. rewrite Hm, Hmode, Hn. f_equal.
  destruct (decide (np_Name np = "")) as [->|Hname]; simpl.
  - rewrite bool_decide_false; [done|]. unfold NodePoolNameSuffix. by destruct (xt_Name x).
  - rewrite (bool_decide_false (np_Name np = "")) by done. simpl. by rewrite bool_decide_false.
Qed.
End fit.

(** ** Witnesses *)

Definition ex_shape_error_text (_ : shape_error) : string := "invalid shape".


Lemma observed_pool_roundtrip_witness :
  let x := ex_runtime "s" (Some ex_bound_pool) in
  exists x1 np', setObservedRuntimeShapeStatus ex_hash16 ex_shape_error_text x = (None : option kube_error, x1) /\
    xtrinodeWithRemovedObservedNodePool (XTrinodeTypes.set_NodePool None x1) =
      Some (Ok (XTrinodeTypes.set_NodePool (Some np') x1) : result kube_error XTrinode) /\
    pool_resource np' x1 = GetMachineResource true "a" "x-pool".
Proof.
  intros x. destruct (setObservedRuntimeShapeStatus ex_hash16 ex_shape_error_text x) as [err x1] eqn:Eo.
  assert (err = None :> option kube_error) as -> by (apply (f_equal fst) in Eo; vm_compute in Eo; done).
  destruct (observed_pool_roundtrip ex_hash16 ex_shape_error_text x ex_bound_pool x1 eq_refl
    ltac:(by vm_compute) ltac:(by vm_compute) ltac:(done) Eo) as (np' & Hnp & Hp & _).
  exists x1, np'. split_and!; [done|exact Hnp|]. rewrite Hp. by vm_compute.
Defined.
