(* ===== verification/Suspend.v ===== *)
(** * Suspending a runtime ([controllers/xtrinode_suspend.go], [xtrinode_status.go])

    A suspend first publishes the route as paused, then waits until no query
    runs, then takes the autoscalers and the Deployments down, and only then
    records the phase. *)

From S2P Require Import Prelude GoStrings GoTime XTrinodeTypes RuntimeShape ControlEndpoint Status Routes Retry World Shutdown Operator NodePool.

Definition ReconcileRequeueIntervalSuspended : Duration := 300 * Second.

Section suspend.
Context `{QuantityParser}.
Context (hash16 : hash_input -> string) (shape_error_text : shape_error -> string).
Context {E W : Type} `{!World E W, KubeErrors E, !ErrorKinds E, WaitBackoff E}.
Context (Getenv : string -> string) (decodeQueries : string -> result E (list (list (string * json)))).

(** What a step of the reconciler returns: the requeue delay, an error, and the
    object its caller goes on with. *)
Definition step : Type := Duration * option E * XTrinode.

Definition registerGatewayRoute (x : XTrinode) : M W (option E) := CallWithTimeout (perform (RegisterRoute x)).

Definition syncSuspendedGatewayRoute (x : XTrinode) : M W (option E) := registerGatewayRoute x.

Definition ignore_not_found (err : option E) : option E :=
  match err with Some e => if IsNotFound e then None else Some e | None => None end.

Definition deleteNativeHPAForSuspend (x : XTrinode) : M W (option E) :=
  err ← perform (DeleteHPA (xt_Namespace x) (BuildWorkerServiceName (xt_Name x)));
  mret (ignore_not_found err).

(** A failure that leaves an autoscaler in charge is reported and ends the pass. *)
Definition suspend_blocked (reason msg : string) (x : XTrinode) : M W (option E * XTrinode) :=
  _ ← recordEvent (Warning "SuspendFailed" msg);
  x ← setCondition ConditionTypeSuspended ConditionFalse reason msg x;
  mret (Some (errors_New msg), x).

Definition take_down (inv : PhaseInvariants) (x : XTrinode) : M W (option E * XTrinode) :=
  err ← scaleDeployments x (inv_CoordReplicas inv) (inv_MinWorkerReplicas inv);
  match err with
  | Some e =>
      _ ← recordEvent (Warning "SuspendFailed" ("Failed to enforce suspended state: " +:+ error_text e));
      mret (Some (Errorf "failed to scale deployments: " e), x)
  | None =>
      match inv_NodePoolMinNodes inv with
      | Some n => _ ← CallWithTimeout (perform (ScaleNodePoolMinNodes x n)); mret (None, x)
      | None => mret (None, x)
      end
  end.

Definition ensureSuspendedInvariants (x : XTrinode) : M W (option E * XTrinode) :=
  now ← perform Now;
  let inv := GetInvariants now PhaseSuspended x in
  kedaErr ← (if controllers_isKEDAEnabled x && negb (inv_KEDAEnabled inv)
             then CallWithTimeout (perform (DisableScaledObject x)) else mret None);
  match ignore_not_found kedaErr with
  | Some e => suspend_blocked "KEDADisableFailed"
                ("cannot enforce suspended state: failed to disable KEDA ScaledObject: " +:+ error_text e) x
  | None =>
      hpaErr ← deleteNativeHPAForSuspend x;
      match hpaErr with
      | Some e => suspend_blocked "NativeHPADeleteFailed"
                    ("cannot enforce suspended state: failed to delete native HPA: " +:+ error_text e) x
      | None => take_down inv x
      end
  end.

Definition markSuspendedStatus (x : XTrinode) : M W XTrinode :=
  let x := set_Phase PhaseSuspended x in
  let x := set_ObservedGeneration (xt_Generation x) x in
  let x := set_CoordinatorURL (CoordinatorURL x) x in
  let x := XTrinodeTypes.set_Workers 0 x in
  x ← setCondition ConditionTypeSuspended ConditionTrue ConditionReasonSuspended "XTrinode suspended" x;
  x ← setCondition ConditionTypeReady ConditionFalse ConditionReasonSuspended "XTrinode is suspended" x;
  x ← setCondition ConditionTypeReconciling ConditionFalse ConditionReasonSuspended "XTrinode is suspended" x;
  x ← setCondition ConditionTypeKEDAReady ConditionFalse "KEDADisabled" "KEDA disabled while suspended" x;
  setConditionWithEvents ConditionTypeError ConditionFalse ConditionReasonNoError "No errors" x.

(** ** Node pools that stay up *)

Definition shouldProvisionNodePoolWhileSuspended (x : XTrinode) : bool :=
  match spec_NodePool (xt_Spec x) ≫= np_ScaleDownOnSuspend with
  | Some scaleDown => negb scaleDown
  | None => false
  end.

Definition suspendedNodePoolProvisioningCurrent (x : XTrinode) : bool :=
  match GetCondition x ConditionTypeNodePoolReady with
  | Some c => (cond_Status c ≡? ConditionTrue) && (cond_Reason c ≡? "NodePoolReady") &&
              (cond_ObservedGeneration c =? xt_Generation x)
  | None => false
  end.

Definition gcpManagedMachinePoolTemplateVersion (version : string) : string :=
  if Contains version "-gke." then version else "".

Definition suspendedNodePoolNeedsRepair (x : XTrinode) : M W (result E bool) :=
  match spec_NodePool (xt_Spec x) with
  | None => mret (Ok false)
  | Some np =>
      if negb (np_Provider np ≡? "gcp") || negb (np_ProviderMode np ≡? "managed") then mret (Ok false) else
      machinePool ← perform (GetMachineResource true (xt_Namespace x) (getNodePoolName np (xt_Name x)));
      mret match machinePool with
           | Err e => if IsNotFound e then Ok true else Err e
           | Ok r => Ok match mr_TemplateVersion r with
                        | Some version => negb (version ≡? "") &&
                                          (gcpManagedMachinePoolTemplateVersion version ≡? "")
                        | None => false
                        end
           end
  end.

Definition provision_suspended_pool (x : XTrinode) : M W step :=
  '(requeue, err, x) ← reconcileNodePoolBlocking hash16 shape_error_text Getenv x;
  match err with
  | Some e => mret (requeue, Some e, x)
  | None =>
      if requeue <=? 0 then mret (requeue, None, x) else
      x ← setCondition ConditionTypeReconciling ConditionTrue ConditionReasonReconciling
            "Provisioning node pool while Trino runtime remains suspended" x;
      err ← updateStatus x;
      mret match err with Some e => (0, Some e, x) | None => (requeue, None, x) end
  end.

Definition reconcileSuspendedNodePool (x : XTrinode) : M W step :=
  if negb (shouldProvisionNodePoolWhileSuspended x) then mret (0, None, x) else
  if suspendedNodePoolProvisioningCurrent x then
    needsRepair ← suspendedNodePoolNeedsRepair x;
    match needsRepair with
    | Err e => mret (0, Some e, x)
    | Ok false => mret (0, None, x)
    | Ok true => provision_suspended_pool x
    end
  else provision_suspended_pool x.

(** ** The two passes *)

Definition short_wait : Duration := 30 * Second.

Definition enforce_suspended (x : XTrinode) : M W step :=
  '(err, x) ← ensureSuspendedInvariants x;
  match err with
  | Some e => mret (short_wait, Some e, x)
  | None =>
      err ← syncSuspendedGatewayRoute x;
      match err with
      | Some e => mret (short_wait, Some e, x)
      | None =>
          x ← markSuspendedStatus x;
          let '(err, x) := setObservedRuntimeShapeStatus hash16 shape_error_text x in
          match err with
          | Some e => mret (0, Some (Errorf "failed to resolve observed runtime shape while suspended: " e), x)
          | None =>
              '(requeue, err, x) ← reconcileSuspendedNodePool x;
              if bool_decide (is_Some err) || (0 <? requeue) then mret (requeue, err, x) else
              err ← updateStatus x;
              mret match err with
                   | Some e => (0, Some e, x)
                   | None => (ReconcileRequeueIntervalSuspended, None, x)
                   end
          end
      end
  end.

(** The status says [Suspending]; a failure to store it is only logged. *)
Definition announce_suspending (x : XTrinode) : M W XTrinode :=
  let x := match st_Wake (xt_Status x) with Some _ => set_Wake None x | None => x end in
  if st_Phase (xt_Status x) ≡? PhaseSuspending then mret x else
  let x := set_Phase PhaseSuspending x in
  x ← setCondition ConditionTypeReconciling ConditionTrue ConditionReasonReconciling "Suspending XTrinode" x;
  _ ← updateStatus x;
  mret x.

Definition record_suspended (x : XTrinode) : M W step :=
  x ← markSuspendedStatus x;
  let '(err, x) := setObservedRuntimeShapeStatus hash16 shape_error_text x in
  match err with
  | Some e => mret (0, Some (Errorf "failed to resolve observed runtime shape while suspending: " e), x)
  | None =>
      '(requeue, err, x) ← reconcileSuspendedNodePool x;
      if bool_decide (is_Some err) || (0 <? requeue) then mret (requeue, err, x) else
      err ← updateStatus x;
      match err with
      | Some e => mret (0, Some e, x)
      | None =>
          err ← syncSuspendedGatewayRoute x;
          match err with
          | Some e => mret (short_wait, Some e, x)
          | None =>
              _ ← recordEvent (Normal "Suspended" "XTrinode suspended, all deployments scaled to 0");
              mret (ReconcileRequeueIntervalSuspended, None, x)
          end
      end
  end.

Definition begin_suspend (x : XTrinode) : M W step :=
  x ← announce_suspending x;
  err ← syncSuspendedGatewayRoute x;
  match err with
  | Some e => mret (short_wait, Some e, x)
  | None =>
      safe ← CheckQueriesBeforeScaleDown decodeQueries x;
      match safe with
      | Err e => mret (short_wait, Some e, x)
      | Ok false => mret (short_wait, None, x)
      | Ok true =>
          '(err, x) ← ensureSuspendedInvariants x;
          match err with
          | Some e => mret (short_wait, Some e, x)
          | None =>
              err ← WaitForPodTermination x;
              match err with
              | Some _ => mret (short_wait, None, x)
              | None => record_suspended x
              end
          end
      end
  end.

Definition reconcileSuspend (x : XTrinode) : M W step :=
  if st_Phase (xt_Status x) ≡? PhaseSuspended then enforce_suspended x else begin_suspend x.

(** ** What happens, in which order *)

Definition records_suspended (h : happening E) : Prop :=
  match projT1 h with UpdateXTrinodeStatus y => st_Phase (xt_Status y) = PhaseSuspended | _ => False end.

(** The route was published as paused. *)
Definition route_paused (x : XTrinode) (t : list (happening E)) : Prop :=
  exists y, existT (RegisterRoute y) None ∈ t /\ only_status x y /\ computeBackendState y = StatePaused.

Definition gone (r : option E) : Prop := ignore_not_found r = None.

(** Nothing is left that would scale the workers up again. *)
Definition autoscalers_off (x : XTrinode) (t : list (happening E)) : Prop :=
  (controllers_isKEDAEnabled x = true ->
     exists y (r : option E), existT (DisableScaledObject y) r ∈ t /\ only_status x y /\ gone r) /\
  exists r : option E,
    existT (DeleteHPA (xt_Namespace x) (BuildWorkerServiceName (xt_Name x))) r ∈ t /\ gone r.

(** Both Deployments were scaled to zero, or do not exist. *)
Definition scaled_down (x : XTrinode) (t : list (happening E)) : Prop :=
  scaled (xt_Namespace x) (BuildCoordinatorDeploymentName (xt_Name x)) 0 t /\
  scaled (xt_Namespace x) (BuildWorkerDeploymentName (xt_Name x)) 0 t.

Lemma route_paused_lasting x : lasting (route_paused x).
Proof. unfold route_paused. eauto 8 with lasting. Qed.

Lemma autoscalers_off_lasting x : lasting (autoscalers_off x).
Proof. unfold autoscalers_off. eauto 20 with lasting. Qed.

Lemma scaled_down_lasting x : lasting (scaled_down x).
Proof. unfold scaled_down. eauto using scaled_lasting with lasting. Qed.


(** *** Steps *)

Lemma register_runs x :
  runs (registerGatewayRoute x) (fun r tr =>
    exists r0, tr = [existT (RegisterRoute x) r0] /\ (r = None -> r0 = None)).
Proof.
  eapply runs_weaken; [apply (timeout_call_runs _ (existT (RegisterRoute x))); by apply (runs_perform (RegisterRoute x))|].
  intros r tr (r0 & -> & Hn & _). eauto.
Qed.

(** What is done to the autoscalers. *)
Definition preparing (x : XTrinode) (h : happening E) : Prop :=
  noting h \/ projT1 h = DisableScaledObject x \/
  projT1 h = DeleteHPA (xt_Namespace x) (BuildWorkerServiceName (xt_Name x)).

(** ... and then to the Deployments and the node pool. *)
Definition lowering (x : XTrinode) (h : happening E) : Prop :=
  preparing x h \/
  (exists n, (n = BuildCoordinatorDeploymentName (xt_Name x) \/ n = BuildWorkerDeploymentName (xt_Name x)) /\
     projT1 h = ScaleDeployment (xt_Namespace x) n 0) \/
  exists n, projT1 h = ScaleNodePoolMinNodes x n.

Lemma preparing_not_scaling x h : preparing x h -> ~ is_scaling h.
Proof. unfold preparing, is_scaling, noting. destruct h as [[] r]; simpl; naive_solver. Qed.

Lemma lowering_not_recording x h : lowering x h -> ~ records_suspended h.
Proof. unfold lowering, preparing, records_suspended, noting. destruct h as [[] r0]; simpl; naive_solver. Qed.

Lemma preparing_lowering x tr : Forall (preparing x) tr -> Forall (lowering x) tr.
Proof. apply Forall_impl. by left. Qed.

Lemma noting_lowering x tr : Forall noting tr -> Forall (lowering x) tr.
Proof. apply Forall_impl. by left; left. Qed.

Lemma keda_off_runs x inv :
  inv_KEDAEnabled inv = false ->
  runs (if controllers_isKEDAEnabled x && negb (inv_KEDAEnabled inv)
        then CallWithTimeout (perform (DisableScaledObject x)) else mret None : M W (option E))
    (fun r tr => Forall (preparing x) tr /\
       (ignore_not_found r = None -> controllers_isKEDAEnabled x = true ->
        exists r0 : option E, existT (DisableScaledObject x) r0 ∈ tr /\ gone r0)).
Proof.
  intros ->. destruct (controllers_isKEDAEnabled x); simpl; [|by apply runs_ret].
  eapply runs_weaken;
    [apply (timeout_call_runs _ (existT (DisableScaledObject x))); by apply (runs_perform (DisableScaledObject x))|].
  intros r tr (r0 & -> & Hn & Hf). split; [constructor; [by right; left|constructor]|].
  intros Hgone _. exists r0. split; [left|]. unfold gone, ignore_not_found in *.
  destruct r as [e|], r0 as [e0|]; try done.
  injection Hf as Hf. rewrite Hf in Hgone. by destruct (IsNotFound e0).
Qed.

Lemma hpa_off_runs x :
  runs (deleteNativeHPAForSuspend x) (fun r tr => Forall (preparing x) tr /\
    (r = None -> exists r0 : option E,
       existT (DeleteHPA (xt_Namespace x) (BuildWorkerServiceName (xt_Name x))) r0 ∈ tr /\ gone r0)).
Proof.
  unfold deleteNativeHPAForSuspend. run_call. intros r. apply runs_ret.
  split; [constructor; [by right; right|constructor]|]. intros Hr. exists r. split; [left|done].
Qed.

Lemma suspend_blocked_runs reason msg x :
  runs (suspend_blocked reason msg x) (fun '(err, y) tr => Forall noting tr /\ only_conditions x y /\ err <> None).
Proof.
  unfold suspend_blocked, recordEvent. run_call. intros []. eapply runs_bind; [apply setCondition_notes|].
  intros y t (Ht & Hy & _). apply runs_ret. rewrite app_nil_r. split_and!; [by constructor|done|done].
Qed.

Lemma take_down_runs inv x :
  inv_CoordReplicas inv = 0 -> inv_MinWorkerReplicas inv = 0 ->
  runs (take_down inv x) (fun '(err, y) tr =>
    Forall (lowering x) tr /\ y = x /\ (err = None -> scaled_down x tr)).
Proof.
  intros Hc Hw. unfold take_down. rewrite Hc, Hw.
  eapply runs_bind; [apply scaleDeployments_runs|]. intros err t1 [Ht1 Hs].
  assert (Hl : Forall (lowering x) t1).
  { revert Ht1. apply Forall_impl. intros h [[Hh|Hh]|[Hh|Hh]]; [by left; left| |by left; left|]; right; left; eauto. }
  destruct err as [e|].
  { unfold recordEvent. run_call. intros []. apply runs_ret. split_and!; [|done|done].
    apply Forall_app. split; [done|]. by constructor; [left; left|constructor]. }
  specialize (Hs eq_refl). destruct (inv_NodePoolMinNodes inv) as [n|].
  2: { apply runs_ret. rewrite app_nil_r. split_and!; done. }
  eapply runs_bind; [apply (timeout_call_runs _ (existT (ScaleNodePoolMinNodes x n))); by apply (runs_perform (ScaleNodePoolMinNodes x n))|].
  intros r t2 (r0 & -> & _). apply runs_ret. split_and!; [|done|].
  - rewrite app_nil_r. apply Forall_app. split; [done|]. constructor; [|constructor]. right; right; eauto.
  - intros _. apply lasting_l; [apply scaled_down_lasting|exact Hs].
Qed.

Lemma ensureSuspended_runs x :
  runs (ensureSuspendedInvariants x) (fun '(err, y) tr =>
    Forall (lowering x) tr /\ only_conditions x y /\ before (autoscalers_off x) is_scaling tr /\
    (err = None -> autoscalers_off x tr /\ scaled_down x tr)).
Proof.
  unfold ensureSuspendedInvariants. run_call. intros now. set (inv := GetInvariants now PhaseSuspended x).
  eapply runs_bind; [by apply (keda_off_runs x inv)|]. intros kedaErr t1 [Ht1 Hkeda].
  set (h := existT Now now : happening E). assert (Hh : preparing x h) by (by left).
  assert (Hquiet : forall t, Forall (preparing x) t -> before (autoscalers_off x) is_scaling t).
  { intros t Ht. apply before_never. revert Ht. apply Forall_impl, preparing_not_scaling. }
  destruct (ignore_not_found kedaErr) as [e|] eqn:Ek.
  { eapply runs_weaken; [apply suspend_blocked_runs|]. intros [err y] t2 (Ht2 & Hy & Herr).
    assert (Ht : Forall (preparing x) (h :: t1 ++ t2)).
    { constructor; [done|]. apply Forall_app. split; [done|]. revert Ht2. apply Forall_impl. by left. }
    split_and!; [by apply preparing_lowering|done|by apply Hquiet|done]. }
  eapply runs_bind; [apply hpa_off_runs|]. intros hpaErr t2 [Ht2 Hhpa].
  destruct hpaErr as [e|].
  { eapply runs_weaken; [apply suspend_blocked_runs|]. intros [err y] t3 (Ht3 & Hy & Herr).
    assert (Ht : Forall (preparing x) (h :: t1 ++ t2 ++ t3)).
    { constructor; [done|]. rewrite !Forall_app. split_and!; [done|done|]. revert Ht3. apply Forall_impl. by left. }
    split_and!; [by apply preparing_lowering|done|by apply Hquiet|done]. }
  assert (Ht : Forall (preparing x) (h :: t1 ++ t2)) by (constructor; [done|by apply Forall_app]).
  assert (Hoff : autoscalers_off x (h :: t1 ++ t2)).
  { destruct (Hhpa eq_refl) as (r & Hin & Hr). split.
    - intros Hk. destruct (Hkeda eq_refl Hk) as (r0 & Hin0 & Hr0). exists x, r0.
      split_and!; [set_solver|reflexivity|done].
    - exists r. split; [set_solver|done]. }
  eapply runs_weaken; [by apply (take_down_runs inv x)|]. intros [err y] t3 (Ht3 & -> & Hdown).
  rewrite app_assoc, app_comm_cons. split_and!.
  - apply Forall_app. split; [by apply preparing_lowering|done].
  - reflexivity.
  - apply before_lasting; [apply autoscalers_off_lasting|by apply Hquiet|done].
  - intros Herr. split; [apply lasting_l; [apply autoscalers_off_lasting|done]|].
    apply lasting_r; [apply scaled_down_lasting|by apply Hdown].
Qed.

Lemma announce_runs x :
  runs (announce_suspending x) (fun y tr => Forall (reporting PhaseSuspending) tr /\ only_status x y).
Proof.
  unfold announce_suspending.
  set (x0 := match st_Wake (xt_Status x) with Some _ => set_Wake None x | None => x end).
  assert (Hx0 : only_status x x0) by (subst x0; destruct (st_Wake _); [by eexists|reflexivity]).
  destruct (_ ≡? PhaseSuspending); [by apply runs_ret|].
  eapply runs_bind; [apply setCondition_notes|]. intros x1 t1 (Ht1 & Hx1 & _).
  eapply runs_bind; [apply updateStatus_reports|]. intros _ t2 [Ht2 _]. apply runs_ret. rewrite app_nil_r.
  assert (Hphase : st_Phase (xt_Status x1) = PhaseSuspending) by (by destruct Hx1 as [cs ->]).
  rewrite Hphase in Ht2. split.
  - apply Forall_app. split; [|done]. revert Ht1. apply Forall_impl. apply noting_reporting.
  - etrans; [exact Hx0|]. etrans; [by eexists|by apply only_conditions_status].
Qed.

Lemma mark_runs x :
  runs (markSuspendedStatus x) (fun y tr => Forall noting tr /\ only_status x y /\
    st_Phase (xt_Status y) = PhaseSuspended).
Proof.
  unfold markSuspendedStatus. cbv zeta. set (x0 := XTrinodeTypes.set_Workers 0 _).
  assert (Hx0 : only_status x x0) by (by eexists).
  eapply runs_bind; [apply setCondition_notes|]. intros x1 t1 (Ht1 & Hx1 & _).
  eapply runs_bind; [apply setCondition_notes|]. intros x2 t2 (Ht2 & Hx2 & _).
  eapply runs_bind; [apply setCondition_notes|]. intros x3 t3 (Ht3 & Hx3 & _).
  eapply runs_bind; [apply setCondition_notes|]. intros x4 t4 (Ht4 & Hx4 & _).
  eapply runs_weaken; [apply setConditionWithEvents_notes|]. intros x5 t5 (Ht5 & Hx5).
  split; [by rewrite !Forall_app|].
  assert (Hx : only_conditions x0 x5) by (by rewrite Hx1, Hx2, Hx3, Hx4).
  split; [rewrite Hx0; by apply only_conditions_status|]. by destruct Hx as [cs ->].
Qed.

Lemma needs_repair_runs x : runs (suspendedNodePoolNeedsRepair x) (fun _ tr => Forall pooling tr).
Proof.
  unfold suspendedNodePoolNeedsRepair. destruct (spec_NodePool (xt_Spec x)) as [np|]; [|by apply runs_ret].
  destruct (_ || _); [by apply runs_ret|]. run_call. intros r. apply runs_ret. constructor; [by left|constructor].
Qed.

Lemma provision_suspended_pool_runs x :
  runs (provision_suspended_pool x) (fun '(_, _, y) tr => Forall pooling tr /\ only_status x y).
Proof.
  eapply runs_bind; [apply reconcileNodePoolBlocking_runs|]. intros [[requeue err] x1] t1 (Ht1 & Hx1 & _).
  destruct err as [e|]; [apply runs_ret; by rewrite app_nil_r|].
  destruct (_ <=? _); [apply runs_ret; by rewrite app_nil_r|].
  eapply runs_bind; [apply setCondition_emits|]. intros x2 t2 [Ht2 Hx2].
  eapply runs_bind; [apply updateStatus_emits|]. intros err t3 [Ht3 _]. apply runs_ret. rewrite app_nil_r.
  assert (Hall : Forall pooling (t1 ++ t2 ++ t3)).
  { rewrite !Forall_app. split_and!; [done| |]; by apply bookkeepings_pooling. }
  assert (only_status x x2) by (rewrite Hx1; by apply only_conditions_status).
  by destruct err.
Qed.

Lemma suspended_pool_runs x :
  runs (reconcileSuspendedNodePool x) (fun '(_, _, y) tr => Forall pooling tr /\ only_status x y).
Proof.
  unfold reconcileSuspendedNodePool. destruct (negb _); [apply runs_ret; split; [constructor|reflexivity]|].
  destruct (suspendedNodePoolProvisioningCurrent x); [|apply provision_suspended_pool_runs].
  eapply runs_bind; [apply needs_repair_runs|]. intros [[|]|e] t1 Ht1.
  - eapply runs_weaken; [apply provision_suspended_pool_runs|]. intros [[d err] y] t2 [Ht2 Hy].
    split; [by apply Forall_app|done].
  - apply runs_ret. rewrite app_nil_r. split; [done|reflexivity].
  - apply runs_ret. rewrite app_nil_r. split; [done|reflexivity].
Qed.

(** A runtime whose pool goes down with it asks for no pool. *)
Lemma no_suspended_pool x :
  shouldProvisionNodePoolWhileSuspended x = false -> reconcileSuspendedNodePool x = mret (0, None, x).
Proof. intros Hs. unfold reconcileSuspendedNodePool. by rewrite Hs. Qed.

Definition pool_goes_down (x : XTrinode) : Prop := shouldProvisionNodePoolWhileSuspended x = false.

Lemma pool_goes_down_status x y : only_status x y -> pool_goes_down x -> pool_goes_down y.
Proof. by intros [st ->]. Qed.

Lemma suspended_pool_quick x :
  runs (reconcileSuspendedNodePool x) (fun '(requeue, err, y) tr =>
    pool_goes_down x -> requeue = 0 /\ err = None).
Proof.
  destruct (shouldProvisionNodePoolWhileSuspended x) eqn:Es.
  - eapply runs_weaken; [apply suspended_pool_runs|]. intros [[d err] y] tr _. unfold pool_goes_down. congruence.
  - rewrite no_suspended_pool by done. by apply runs_ret.
Qed.

Lemma observed_shape_status x err x1 :
  setObservedRuntimeShapeStatus hash16 shape_error_text x = (err, x1) -> only_status x x1.
Proof.
  unfold setObservedRuntimeShapeStatus. destruct (Resolve hash16 x); intros [= _ <-]; [by eexists|reflexivity].
Qed.

(** Publishing, creating a pool, and writing status. *)
Definition settling (h : happening E) : Prop := pooling h \/ exists y, projT1 h = RegisterRoute y.

Lemma settling_not_scaling (h : happening E) : settling h -> ~ is_scaling h.
Proof.
  unfold settling, pooling, bookkeeping, is_scaling. destruct h as [[] r0]; simpl; naive_solver.
Qed.

Lemma pooling_settling tr : Forall pooling tr -> Forall settling tr.
Proof. apply Forall_impl. by left. Qed.

Lemma reporting_settling p tr : Forall (reporting p) tr -> Forall settling tr.
Proof. apply Forall_impl. intros h [Hh _]. by left; left. Qed.

Lemma noting_settling tr : Forall noting tr -> Forall settling tr.
Proof. apply Forall_impl. intros h Hh. left; left. by apply noting_bookkeeping. Qed.

(** The status stored last says the runtime is suspended. *)
Definition suspended_stored (x : XTrinode) (tr : list (happening E)) : Prop :=
  exists y, only_status x y /\ stored y tr.

Lemma suspended_stored_lasting x : lasting (suspended_stored x).
Proof. unfold suspended_stored. eauto using stored_lasting with lasting. Qed.

Lemma paused x y : spec_Suspended (xt_Spec x) = true -> only_status x y -> computeBackendState y = StatePaused.
Proof. intros Hs [st ->]. unfold computeBackendState. simpl. by rewrite Hs. Qed.

Lemma record_suspended_runs x :
  spec_Suspended (xt_Spec x) = true ->
  runs (record_suspended x) (fun '(requeue, err, y) tr =>
    Forall settling tr /\ only_status x y /\
    (pool_goes_down x -> err = None -> suspended_stored x tr /\ route_paused x tr)).
Proof.
  intros Hs. unfold record_suspended. eapply runs_bind; [apply mark_runs|]. intros x1 t1 (Ht1 & Hx1 & Hp1).
  destruct (setObservedRuntimeShapeStatus hash16 shape_error_text x1) as [err x2] eqn:Eo.
  apply observed_shape_status in Eo as Hx2. assert (Hx02 : only_status x x2) by (by etrans).
  destruct err as [e|]; [apply runs_ret; rewrite app_nil_r; split_and!; [by apply noting_settling|done|done]|].
  eapply runs_bind; [apply (runs_and _ _ _ (suspended_pool_runs x2) (suspended_pool_quick x2))|].
  intros [[requeue err] x3] t2 [[Ht2 Hx3] Hquick]. assert (Hx03 : only_status x x3) by (by etrans).
  assert (H12 : Forall settling (t1 ++ t2)).
  { apply Forall_app. split; [by apply noting_settling|by apply pooling_settling]. }
  destruct (bool_decide (is_Some err) || (0 <? requeue)) eqn:Estop.
  { apply runs_ret. rewrite app_nil_r. split_and!; [done|done|]. intros Hdown ->.
    destruct (Hquick (pool_goes_down_status x x2 Hx02 Hdown)) as [-> _]. done. }
  eapply runs_bind; [apply updateStatus_runs|]. intros err' t3 [Ht3 Hst].
  assert (H123 : Forall settling (t1 ++ t2 ++ t3)).
  { rewrite app_assoc. apply Forall_app. split; [done|by eapply reporting_settling]. }
  destruct err' as [e|]; [apply runs_ret; by rewrite app_nil_r|].
  eapply runs_bind; [apply register_runs|]. intros err' t4 (r0 & -> & Hr).
  assert (H1234 : Forall settling (t1 ++ t2 ++ t3 ++ [existT (RegisterRoute x3) r0])).
  { rewrite !app_assoc. apply Forall_app. split; [by rewrite <- app_assoc|].
    constructor; [right; eauto|constructor]. }
  destruct err' as [e|]; [apply runs_ret; by rewrite app_nil_r|].
  unfold recordEvent. run_call. intros []. apply runs_ret. split_and!; [|done|].
  - change (?a :: [?b]) with ([a] ++ [b]). rewrite !app_assoc. apply Forall_app. split; [by rewrite <- !app_assoc|].
    constructor; [by left; left|constructor].
  - intros _ _. rewrite (Hr eq_refl). split.
    + exists x3. split; [done|]. eapply (stored_lasting x3 t3); [set_solver|by apply Hst].
    + exists x3. split_and!; [set_solver|done|by apply (paused x)].
Qed.

(** ** Order of a suspend *)

(** Only the runtime's own Deployments are scaled, and only to zero. *)
Definition scales_to_zero (x : XTrinode) (h : happening E) : Prop :=
  is_scaling h -> exists n, projT1 h = ScaleDeployment (xt_Namespace x) n 0 /\
    (n = BuildCoordinatorDeploymentName (xt_Name x) \/ n = BuildWorkerDeploymentName (xt_Name x)).

Lemma not_scaling_zero x (tr : list (happening E)) : Forall (fun h => ~ is_scaling h) tr -> Forall (scales_to_zero x) tr.
Proof. apply Forall_impl. by intros h Hn Hs. Qed.

Lemma lowering_zero x y tr : only_status x y -> Forall (lowering y) tr -> Forall (scales_to_zero x) tr.
Proof.
  intros [st ->]. apply Forall_impl. intros h [Hp|[(n & Hn & Hh)|(n & Hh)]] Hs.
  - by apply preparing_not_scaling in Hp.
  - by exists n.
  - unfold is_scaling in Hs. by rewrite Hh in Hs.
Qed.

Lemma reporting_calm p (tr : list (happening E)) : Forall (reporting p) tr -> Forall (fun h => ~ is_scaling h) tr.
Proof. intros Ht. apply reporting_settling in Ht. revert Ht. apply Forall_impl, settling_not_scaling. Qed.

Lemma reporting_no_record p tr :
  p <> PhaseSuspended -> Forall (reporting p) tr -> Forall (fun h => ~ records_suspended h) tr.
Proof.
  intros Hp. apply Forall_impl. intros h [_ Hh] Hr. unfold records_suspended in Hr.
  destruct (projT1 h) eqn:Eh; try done. by rewrite (Hh _ eq_refl) in Hr.
Qed.

Lemma quiet_calm (tr : list (happening E)) : Forall quiet tr -> Forall (fun h => ~ is_scaling h) tr /\ Forall (fun h => ~ records_suspended h) tr.
Proof.
  intros Ht%quiet_notings. split; [apply reporting_calm with ""|apply (reporting_no_record ""); [done|]];
    revert Ht; apply Forall_impl, noting_reporting.
Qed.

Lemma observed_idle_status x y t : only_status x y -> observed_idle decodeQueries y t -> observed_idle decodeQueries x t.
Proof. by intros [st ->]. Qed.
Lemma autoscalers_off_status x y t : only_status x y -> autoscalers_off y t -> autoscalers_off x t.
Proof.
  intros [st ->] [Hk Hh]. split; [|done]. intros Hx. destruct (Hk Hx) as (z & r & Hin & [st' ->] & Hr).
  eexists _, r. split_and!; [done|by exists st'|done].
Qed.
Lemma scaled_down_status x y t : only_status x y -> scaled_down y t -> scaled_down x t.
Proof. by intros [st ->]. Qed.

(** The whole order, as one statement about the calls of a pass. *)
Definition orderly (x : XTrinode) (tr : list (happening E)) : Prop :=
  Forall (scales_to_zero x) tr /\
  before (fun t => (route_paused x t /\ observed_idle decodeQueries x t) /\ autoscalers_off x t) is_scaling tr /\
  before (scaled_down x) records_suspended tr.

(** Nothing scaled and nothing recorded yet. *)
Definition calm (tr : list (happening E)) : Prop :=
  Forall (fun h => ~ is_scaling h) tr /\ Forall (fun h => ~ records_suspended h) tr.

Lemma calm_app t1 t2 : calm t1 -> calm t2 -> calm (t1 ++ t2).
Proof. intros [] []. split; by apply Forall_app. Qed.

Lemma calm_orderly x tr : calm tr -> orderly x tr.
Proof. intros []. split_and!; [by apply not_scaling_zero|by apply before_never|by apply before_never]. Qed.

Lemma announce_calm tr : Forall (reporting PhaseSuspending) tr -> calm tr.
Proof. intros Ht. split; [by eapply reporting_calm|by apply (reporting_no_record PhaseSuspending)]. Qed.

(** After a calm beginning that paused the route and saw the runtime idle, the
    Deployments may go down, and after that the phase may be recorded. *)
Lemma orderly_descent x t0 t1 t2 :
  calm t0 -> route_paused x t0 -> observed_idle decodeQueries x t0 ->
  Forall (fun h => ~ records_suspended h) t1 -> Forall (scales_to_zero x) t1 ->
  before (autoscalers_off x) is_scaling t1 ->
  t2 = [] \/ (autoscalers_off x t1 /\ scaled_down x t1 /\ Forall (fun h => ~ is_scaling h) t2) ->
  orderly x (t0 ++ t1 ++ t2).
Proof.
  intros [Hs0 Hr0] Hp Hi Hr1 Hz1 Hb1 H2.
  assert (Hlast : lasting (fun t => route_paused x t /\ observed_idle decodeQueries x t))
    by auto using lasting_and, route_paused_lasting, observed_idle_lasting.
  assert (Hs2 : Forall (fun h => ~ is_scaling h) t2) by (destruct H2 as [->|(_ & _ & ?)]; [constructor|done]).
  split_and!.
  - rewrite !Forall_app. split_and!; [by apply not_scaling_zero|done|by apply not_scaling_zero].
  - apply before_and; [by apply before_established|].
    apply before_shift; [apply autoscalers_off_lasting|done|]. by apply before_never_app.
  - rewrite app_assoc. destruct H2 as [->|(_ & Hd & _)].
    + rewrite app_nil_r. apply before_never. by apply Forall_app.
    + apply before_established; [apply scaled_down_lasting|by apply Forall_app|].
      apply lasting_r; [apply scaled_down_lasting|done].
Qed.

(** C4: A suspend never interrupts a query it could have seen.  Whatever the
    cluster answers, a Deployment is scaled only after the route was published
    as paused, after the coordinator answered that every query had finished (or
    nothing of it was ready), and after the autoscalers were switched off; only
    the runtime's own two Deployments are scaled, to zero; and the phase
    [Suspended] is stored only after both are. *)
Theorem suspend_order x :
  spec_Suspended (xt_Spec x) = true -> st_Phase (xt_Status x) <> PhaseSuspended ->
  runs (reconcileSuspend x) (fun '(_, _, y) tr => orderly x tr /\ only_status x y).
Proof.
  intros Hs Hphase. unfold reconcileSuspend. rewrite bool_decide_eq_false_2 by done.
  unfold begin_suspend. eapply runs_bind; [apply announce_runs|]. intros x1 t1 [Ht1%announce_calm Hx1].
  eapply runs_bind; [apply register_runs|]. intros err t2 (r0 & -> & Hr).
  assert (Ht2 : calm (t1 ++ [existT (RegisterRoute x1) r0])).
  { apply calm_app; [done|]. split; (constructor; [by intros []|constructor]). }
  destruct err as [e|]; [apply runs_ret; rewrite app_nil_r; split; [by apply calm_orderly|done]|].
  rewrite (Hr eq_refl) in Ht2 |- *.
  eapply runs_bind; [apply check_queries_runs|]. intros safe t3 [Ht3%quiet_calm Hidle].
  assert (Ht0 : calm (t1 ++ [existT (RegisterRoute x1) None] ++ t3)) by (rewrite app_assoc; by apply calm_app).
  destruct safe as [[]|e]; [|apply runs_ret; rewrite app_nil_r; split; [by apply calm_orderly|done]..].
  specialize (Hidle eq_refl).
  eapply runs_bind; [apply ensureSuspended_runs|]. intros [err x2] t4 (Ht4 & Hx2 & Hb4 & Hdown).
  assert (Hx02 : only_status x x2) by (etrans; [exact Hx1|by apply only_conditions_status]).
  assert (Hord : forall t5, t5 = [] \/ (autoscalers_off x t4 /\ scaled_down x t4 /\ Forall (fun h => ~ is_scaling h) t5) ->
    orderly x (t1 ++ [existT (RegisterRoute x1) None] ++ t3 ++ t4 ++ t5)).
  { intros t5 H5. rewrite !app_assoc, <- (app_assoc _ t4 t5). apply orderly_descent; [by rewrite <- app_assoc| | | | | |done].
    - exists x1. split_and!; [set_solver|done|by apply (paused x)].
    - apply (observed_idle_status x x1); [done|]. apply lasting_r; [apply observed_idle_lasting|done].
    - revert Ht4. apply Forall_impl, lowering_not_recording.
    - by apply (lowering_zero x x1).
    - intros u h v Heq Hh. apply (autoscalers_off_status x x1); [done|]. by eapply Hb4. }
  destruct err as [e|]; [apply runs_ret; split; [apply Hord; by left|done]|].
  destruct (Hdown eq_refl) as [Hoff%(autoscalers_off_status x x1) Hsd%(scaled_down_status x x1)]; [|done..].
  eapply runs_bind; [apply pod_termination_runs|]. intros err t5 [Ht5 _]%quiet_calm.
  destruct err as [e|].
  { apply runs_ret. rewrite app_nil_r. split; [apply Hord; by right|done]. }
  eapply runs_weaken; [apply record_suspended_runs; by destruct Hx02 as [st ->]|].
  intros [[requeue err] y] t6 (Ht6 & Hy & _). split; [|by etrans].
  apply Hord. right. split_and!; [done|done|]. apply Forall_app. split; [done|].
  revert Ht6. apply Forall_impl, settling_not_scaling.
Qed.

(** A pass over a suspended runtime repairs whatever drifted: when it ends
    without an error, the autoscalers were switched off, both Deployments
    were scaled to zero, the route was published as paused and the suspended
    status was stored. *)
Theorem suspended_pass_enforces x :
  spec_Suspended (xt_Spec x) = true -> st_Phase (xt_Status x) = PhaseSuspended -> pool_goes_down x ->
  runs (reconcileSuspend x) (fun '(requeue, err, y) tr =>
    Forall (scales_to_zero x) tr /\ before (autoscalers_off x) is_scaling tr /\
    (err = None -> requeue = ReconcileRequeueIntervalSuspended /\ st_Phase (xt_Status y) = PhaseSuspended /\
       scaled_down x tr /\ route_paused x tr /\ suspended_stored x tr)).
Proof.
  intros Hs Hphase Hpool. unfold reconcileSuspend. rewrite bool_decide_eq_true_2 by done.
  unfold enforce_suspended. eapply runs_bind; [apply ensureSuspended_runs|].
  intros [err x1] t1 (Ht1 & Hx1%only_conditions_status & Hb1 & Hdown).
  assert (Hz1 : Forall (scales_to_zero x) t1) by (apply (lowering_zero x x); [reflexivity|done]).
  destruct err as [e|]; [apply runs_ret; by rewrite app_nil_r|]. destruct (Hdown eq_refl) as [Hoff Hsd].
  assert (Hrest : forall t, Forall settling t -> Forall (scales_to_zero x) (t1 ++ t) /\
    before (autoscalers_off x) is_scaling (t1 ++ t)).
  { intros t Ht. assert (Hn : Forall (fun h => ~ is_scaling h) t) by (revert Ht; apply Forall_impl, settling_not_scaling).
    split; [apply Forall_app; split; [done|by apply not_scaling_zero]|by apply before_never_app]. }
  eapply runs_bind; [apply register_runs|]. intros err t2 (r0 & -> & Hr).
  assert (H2 : Forall settling [existT (RegisterRoute x1) r0]) by (constructor; [right; eauto|constructor]).
  destruct err as [e|]; [apply runs_ret; split_and!; [by apply Hrest|by apply Hrest|done]|].
  rewrite (Hr eq_refl) in H2 |- *.
  eapply runs_bind; [apply mark_runs|]. intros x2 t3 (Ht3%noting_settling & Hx2 & Hp2).
  destruct (setObservedRuntimeShapeStatus hash16 shape_error_text x2) as [err x3] eqn:Eo.
  apply observed_shape_status in Eo as Hx3. assert (Hx03 : only_status x x3) by (by rewrite Hx1, Hx2).
  destruct err as [e|].
  { apply runs_ret. rewrite app_nil_r. split_and!; [apply Hrest; by apply Forall_app..|done]. }
  rewrite no_suspended_pool by (by eapply pool_goes_down_status). apply runs_ret_bind. simpl.
  eapply runs_bind; [apply updateStatus_runs|]. intros err t4 [Ht4%reporting_settling Hst]. apply runs_ret.
  rewrite app_nil_r.
  assert (H4 : Forall settling ([existT (RegisterRoute x1) None] ++ t3 ++ t4)) by (by rewrite !Forall_app).
  destruct (Hrest _ H4) as [Hz Hb]. destruct err as [e|]; (split_and!; [exact Hz|exact Hb|]); [done|].
  intros _. split_and!; [done| | | |].
  - unfold setObservedRuntimeShapeStatus in Eo. destruct (Resolve hash16 x2); [|done]. by injection Eo as <-.
  - apply lasting_l; [apply scaled_down_lasting|done].
  - exists x1. split_and!; [set_solver|done|by apply (paused x)].
  - exists x3. split; [done|]. eapply (stored_lasting x3 t4); [set_solver|by apply Hst].
Qed.
End suspend.

(** ** Witnesses *)

(** A runtime to be suspended, in a phase. *)
Definition ex_suspending (phase : string) : XTrinode :=
  set_Phase phase (set_Suspended true (ex_runtime "s" None)).

Definition ex_decode (_ : string) : result kube_error (list (list (string * json))) := Ok [].

Definition ex_suspend (x : XTrinode) : step * scripted kube_error :=
  reconcileSuspend ex_hash16 ex_shape_error_text (fun _ => "") ex_decode x (at_rest x).

Lemma suspend_order_witness :
  let x := ex_suspending "Ready" in
  (ex_suspend x).1.1.2 = None /\
  orderly ex_decode x (history (ex_suspend x).2) /\ only_status x (ex_suspend x).1.2.
Proof.
  intros x. split; [vm_compute; reflexivity|].
  destruct (suspend_order ex_hash16 ex_shape_error_text (fun _ => "") ex_decode x eq_refl ltac:(by vm_compute)
    (at_rest x)) as (tr & Ht & Hq).
  unfold ex_suspend. destruct (reconcileSuspend _ _ _ _ _ _) as [[[requeue err] y] w]. simpl in *. by rewrite Ht.
Defined.

Lemma suspended_pass_enforces_witness :
  let x := ex_suspending "Suspended" in
  (ex_suspend x).1.1 = (ReconcileRequeueIntervalSuspended, None) /\ scaled_down x (history (ex_suspend x).2).
Proof.
  intros x. unfold ex_suspend.
  destruct (suspended_pass_enforces ex_hash16 ex_shape_error_text (fun _ => "") ex_decode x eq_refl ltac:(by vm_compute)
    ltac:(by vm_compute) (at_rest x)) as (tr & Ht & Hq).
  assert (Hr : (reconcileSuspend ex_hash16 ex_shape_error_text (fun _ => "") ex_decode x (at_rest x)).1.1 =
    (ReconcileRequeueIntervalSuspended, None)) by (vm_compute; reflexivity).
  destruct (reconcileSuspend _ _ _ _ _ _) as [[[requeue err] y] w]. simpl in *.
  injection Hr as -> ->. rewrite Ht. split; [reflexivity|]. by apply Hq.
Defined.
