(* ===== verification/Finalizer.v ===== *)
(** * Deleting a runtime ([controllers/xtrinode_finalizer.go])

    A deletion runs over several passes that share no state but the object:
    the route drains first, an annotation records since when, and only when the
    drain is over are resources deleted and the finalizer given up. *)

From S2P Require Import Prelude GoStrings GoTime GoParse XTrinodeTypes RuntimeShape ControlEndpoint Status Retry World Shutdown Operator Scheduling Guardrails NodePool.

Definition FinalizerName : string := "xtrinode.analytics.xtrinode.io/finalizer".
Definition DrainStartedAtAnnotation : string := "xtrinode.analytics.xtrinode.io/drain-started-at".
Definition DrainCompletedAtAnnotation : string := "xtrinode.analytics.xtrinode.io/drain-completed-at".
Definition DrainResultAnnotation : string := "xtrinode.analytics.xtrinode.io/drain-result".
Definition GatewayDrainDuration : Duration := 5 * Minute.
Definition GatewayDrainRequeueInterval : Duration := 30 * Second.

(** [controllerutil]: the finalizer is appended unless present, and all its
    occurrences are removed. *)
Definition ContainsFinalizer (x : XTrinode) (f : string) : bool := existsb (fun g => g ≡? f) (xt_Finalizers x).
Definition AddFinalizer (f : string) (x : XTrinode) : XTrinode :=
  if ContainsFinalizer x f then x else set_Finalizers (xt_Finalizers x ++ [f]) x.
Definition RemoveFinalizer (f : string) (x : XTrinode) : XTrinode :=
  set_Finalizers (filterb (fun g => negb (g ≡? f)) (xt_Finalizers x)) x.

Section finalizer.
Context {E W : Type} `{!World E W, KubeErrors E, !ErrorKinds E, WaitBackoff E}.
Context (decodeQueries : string -> result E (list (list (string * json)))).
Context `{QuantityParser} `{QuantityArith} (GetScaledValue : IntOrString -> Z -> option Z).
Context (hash16 : hash_input -> string) (shape_error_text : shape_error -> string) (settings : GuardrailSettings).

(** The reconciler's settings; zero or less means the default. *)
Context (DrainDuration DrainRequeueInterval : Duration).

Definition drainDuration : Duration := if DrainDuration <=? 0 then GatewayDrainDuration else DrainDuration.
Definition drainRequeueInterval : Duration :=
  if DrainRequeueInterval <=? 0 then GatewayDrainRequeueInterval else DrainRequeueInterval.

(** Retries that refresh the caller's object and then change and write it. *)
Definition refresh (x : XTrinode) : M W (option E * XTrinode) :=
  r ← perform (GetXTrinode (xt_Namespace x) (xt_Name x));
  mret match r with Ok fresh => (None, fresh) | Err e => (Some e, x) end.

Definition write (x : XTrinode) : M W (option E * XTrinode) :=
  r ← perform (UpdateXTrinode x);
  mret match r with Ok server => (None, server) | Err e => (Some e, x) end.

Definition ensureFinalizer (x : XTrinode) : M W (Duration * option E * XTrinode) :=
  if ContainsFinalizer x FinalizerName then mret (0, None, x) else
  let x := AddFinalizer FinalizerName x in
  '(err, x) ← retry_local refresh (fun x => write (AddFinalizer FinalizerName x)) x;
  mret match err with Some e => (0, Some e, x) | None => (Second, None, x) end.

Definition removeFinalizer (x : XTrinode) : M W (option E * XTrinode) :=
  let x := RemoveFinalizer FinalizerName x in
  retry_local refresh
    (fun x => write (if ContainsFinalizer x FinalizerName then RemoveFinalizer FinalizerName x else x)) x.

(** ** Draining *)

Definition annotate_drain (k v : string) (x : XTrinode) : XTrinode := set_Annotations (<[k := v]> (xt_Annotations x)) x.

Definition start_drain (x : XTrinode) : M W (Duration * option E * XTrinode) :=
  err ← CallWithTimeout (perform (DrainRoute x));
  match err with
  | Some e =>
      _ ← recordEvent (Warning "DrainStarted" ("Failed to start gateway route drain: " +:+ error_text e));
      mret (10 * Second, Some (Errorf "failed to start gateway route drain: " e), x)
  | None =>
      '(err, x) ← retry_local refresh
        (fun x => now ← perform Now; write (annotate_drain DrainStartedAtAnnotation (FormatRFC3339 now) x)) x;
      match err with
      | Some e => mret (10 * Second, Some e, x)
      | None =>
          _ ← recordEvent (Normal "DrainStarted"
                "Gateway route set to DRAINING state, waiting for active queries to complete");
          mret (drainRequeueInterval, None, x)
      end
  end.

(** Complete, why, and for how long it has been draining. *)
Definition queryAwareDrainComplete (x : XTrinode) (drainStartedAt : string) : M W (bool * string * Duration) :=
  drainStartTime ← match ParseRFC3339 drainStartedAt with
                   | Some t => mret t
                   | None => now ← perform Now; mret (time_add now (- drainDuration))
                   end;
  now ← perform Now;
  let elapsed := Z.max 0 (time_sub now drainStartTime) in
  let fallbackReady := drainDuration <=? elapsed in
  safeToDelete ← CheckQueriesBeforeScaleDown decodeQueries x;
  mret match safeToDelete with
       | Err _ => if fallbackReady then (true, "time_fallback", elapsed) else (false, "query_check_error", elapsed)
       | Ok true => (true, "query_complete", elapsed)
       | Ok false => (false, "active_queries", elapsed)
       end.

Definition annotated_already (x : XTrinode) : bool :=
  negb (default "" (xt_Annotations x !! DrainCompletedAtAnnotation) ≡? "").

(** The mark is set when some attempt made it, even if that attempt failed. *)
Definition markDrainComplete (x : XTrinode) (result : string) : M W (option E * (XTrinode * bool)) :=
  now ← perform Now;
  let completedAt := FormatRFC3339 now in
  retry_local
    (fun '(x, marked) => '(err, x) ← refresh x; mret (err, (x, marked)))
    (fun '(x, marked) =>
       if annotated_already x then mret (None, (x, marked)) else
       let x := annotate_drain DrainResultAnnotation result (annotate_drain DrainCompletedAtAnnotation completedAt x) in
       '(err, x) ← write x; mret (err, (x, true)))
    (x, false).

(** ** Cleaning up *)

Definition join_error (critical : option E) (e : E) : option E :=
  Some match critical with Some c => errors_Join c e | None => e end.

Definition cleanupTrinoResources (x : XTrinode) : M W unit :=
  let catalogs := default [] (st_ObservedCatalogs (xt_Status x)) in
  resourceSet ← perform (BuildTrinoResourceSet x catalogs);
  match resourceSet with
  | Err _ => mret tt
  | Ok resources => _ ← perform (DeleteTrinoResources resources); mret tt
  end.

Definition retain_pool (label success : string) (y : XTrinode) (okReason : string) (critical : option E) :
    M W (option E) :=
  err ← perform (RetainNodePool y);
  match err with
  | Some e =>
      _ ← recordEvent (Warning "NodePoolRetainFailed" ("Failed to retain " +:+ label +:+ ": " +:+ error_text e));
      mret (join_error critical (Errorf ("failed to retain " +:+ label +:+ ": ") e))
  | None => _ ← recordEvent (Normal okReason success); mret critical
  end.

Definition cleanup_pool (np : NodePoolSpec) (x : XTrinode) (critical : option E) : M W (option E) :=
  let policy := nodePoolDeletionPolicy np in
  if policy ≡? NodePoolDeletionPolicyRetain then
    retain_pool "node pool" "Node pool retained by spec.nodePool.deletionPolicy=Retain" x "NodePoolRetained" critical
  else if policy ≡? NodePoolDeletionPolicyScaleToZero then
    _ ← recordEvent (Normal "NodePoolScaleToZeroStarted"
          "Scaling node pool to zero by spec.nodePool.deletionPolicy=ScaleToZero");
    err ← perform (ScaleNodePoolMinNodes x 0);
    match err with
    | Some e =>
        _ ← recordEvent (Warning "NodePoolScaleToZeroFailed" ("Failed to scale node pool to zero: " +:+ error_text e));
        mret (join_error critical (Errorf "failed to scale node pool to zero: " e))
    | None =>
        retain_pool "scaled-to-zero node pool"
          "Node pool scaled to zero and retained by spec.nodePool.deletionPolicy=ScaleToZero" x
          "NodePoolScaledToZero" critical
    end
  else
    _ ← recordEvent (Normal "NodePoolDeletionStarted" "Deleting node pool by spec.nodePool.deletionPolicy=Delete");
    err ← perform (DeleteNodePool x);
    match err with
    | Some e =>
        _ ← recordEvent (Warning "NodePoolDeleteFailed" ("Failed to delete node pool: " +:+ error_text e));
        mret critical
    | None => _ ← recordEvent (Normal "NodePoolDeleted" "Node pool deletion completed"); mret critical
    end.

Definition cleanupResources (x : XTrinode) : M W (option E) :=
  err ← perform (DeregisterRoute x);
  let critical := Errorf "failed to deregister gateway route: " <$> err in
  _ ← (if controllers_isKEDAEnabled x then _ ← perform (DeleteScaledObject x); mret tt else mret tt);
  _ ← cleanupTrinoResources x;
  match spec_NodePool (xt_Spec x) with
  | Some np => cleanup_pool np x critical
  | None =>
      match xtrinodeWithRemovedObservedNodePool x with
      | None => mret critical
      | Some (Err e) =>
          _ ← recordEvent (Warning "NodePoolRetainFailed" ("Failed to retain removed node pool: " +:+ error_text e));
          mret (join_error critical (Errorf "failed to retain removed node pool: " e))
      | Some (Ok retained) =>
          retain_pool "removed node pool" "Node pool retained because spec.nodePool was removed before deletion"
            retained "NodePoolRetained" critical
      end
  end.

(** ** The passes *)

Definition short_retry : Duration := 30 * Second.

Definition clean_and_release (x : XTrinode) : M W (Duration * option E * XTrinode) :=
  _ ← recordEvent (Normal "CleanupStarted"
        "Starting cleanup of all XTrinode resources (gateway, KEDA, Trino, node pool)");
  err ← cleanupResources x;
  match err with
  | Some e =>
      _ ← recordEvent (Warning "CleanupStarted" ("Resource cleanup failed: " +:+ error_text e));
      mret (short_retry, Some e, x)
  | None =>
      _ ← recordEvent (Normal "CleanupCompleted" "Resource cleanup completed");
      err ← reconcileNamespaceGuardrailsAfterDelete GetScaledValue hash16 shape_error_text settings x;
      match err with
      | Some e => mret (short_retry, Some e, x)
      | None =>
          '(err, x) ← removeFinalizer x;
          match err with
          | Some e => mret (0, Some e, x)
          | None =>
              _ ← recordEvent (Normal "FinalizerRemoved" "Finalizer removed from XTrinode");
              _ ← recordEvent (Normal "Finalized" "XTrinode finalization complete, all resources cleaned up");
              mret (0, None, x)
          end
      end
  end.

Definition finish_drain (x : XTrinode) (drainStartedAt : string) : M W (Duration * option E * XTrinode) :=
  '(drainComplete, drainResult, _) ← queryAwareDrainComplete x drainStartedAt;
  if negb drainComplete then mret (drainRequeueInterval, None, x) else
  '(err, (x, marked)) ← markDrainComplete x drainResult;
  match err with
  | Some e => if IsNotFound e then mret (0, None, x) else mret (10 * Second, Some e, x)
  | None =>
      _ ← (if marked : bool then recordEvent (Normal "DrainCompleted" ("Drain completed via " +:+ drainResult +:+
             ", proceeding with resource cleanup")) else mret tt);
      err ← WaitForPodTermination x;
      match err with
      | Some _ => mret (short_retry, None, x)
      | None => clean_and_release x
      end
  end.

Definition finalize (x : XTrinode) : M W (Duration * option E * XTrinode) :=
  if negb (ContainsFinalizer x FinalizerName) then mret (0, None, x) else
  match xt_Annotations x !! DrainStartedAtAnnotation with
  | None => start_drain x
  | Some drainStartedAt => finish_drain x drainStartedAt
  end.

(** ** Order of a deletion *)

(** Calls that take something away from the runtime. *)
Definition destroys (h : happening E) : Prop :=
  match projT1 h with
  | DeregisterRoute _ | DeleteScaledObject _ | DeleteTrinoResources _ | DeleteNodePool _ | RetainNodePool _
  | ScaleNodePoolMinNodes _ _ | DeleteGuardrail _ _ _ => True
  | _ => False
  end.

(** A write that leaves the object without the finalizer. *)
Definition releases (h : happening E) : Prop :=
  match projT1 h with UpdateXTrinode y => ContainsFinalizer y FinalizerName = false | _ => False end.

(** The drain began in an earlier pass and lasted its time. *)
Definition waited (s : string) (t : list (happening E)) : Prop :=
  exists now start, existT Now now ∈ t /\ drainDuration <= Z.max 0 (time_sub now start) /\
    match ParseRFC3339 s with
    | Some started => start = started
    | None => exists now0, existT Now now0 ∈ t /\ start = time_add now0 (- drainDuration)
    end.

Definition drained (x : XTrinode) (t : list (happening E)) : Prop :=
  exists s, xt_Annotations x !! DrainStartedAtAnnotation = Some s /\
    (observed_idle decodeQueries x t \/ waited s t).

(** The node pool was treated as its policy says. *)
Definition policy_followed (np : NodePoolSpec) (y : XTrinode) (t : list (happening E)) : Prop :=
  if nodePoolDeletionPolicy np ≡? NodePoolDeletionPolicyRetain then existT (RetainNodePool y) None ∈ t else
  if nodePoolDeletionPolicy np ≡? NodePoolDeletionPolicyScaleToZero
  then existT (ScaleNodePoolMinNodes y 0) None ∈ t /\ existT (RetainNodePool y) None ∈ t
  else exists r, existT (DeleteNodePool y) r ∈ t.

Definition pool_settled (y : XTrinode) (t : list (happening E)) : Prop :=
  match spec_NodePool (xt_Spec y) with
  | Some np => policy_followed np y t
  | None =>
      match xtrinodeWithRemovedObservedNodePool y with
      | None => True
      | Some (Ok retained) => existT (RetainNodePool retained) None ∈ t
      | Some (Err _) => False
      end
  end.

Definition cleaned (t : list (happening E)) : Prop :=
  exists y, existT (DeregisterRoute y) None ∈ t /\ pool_settled y t.

(** Somebody else had already removed the finalizer. *)
Definition already_gone (t : list (happening E)) : Prop :=
  exists ns n y, existT (GetXTrinode ns n) (Ok y) ∈ t /\ ContainsFinalizer y FinalizerName = false.

Lemma already_gone_lasting : lasting already_gone.
Proof. unfold already_gone. eauto 12 with lasting. Qed.

Lemma waited_lasting s : lasting (waited s).
Proof.
  unfold waited. apply lasting_ex. intros now. apply lasting_ex. intros start.
  repeat apply lasting_and; auto with lasting. destruct (ParseRFC3339 s); eauto 8 with lasting.
Qed.

Lemma pool_settled_lasting y : lasting (pool_settled y).
Proof.
  unfold pool_settled, policy_followed. destruct (spec_NodePool (xt_Spec y)) as [np|].
  - destruct (_ ≡? _); [auto with lasting|]. destruct (_ ≡? _); eauto 8 with lasting.
  - destruct (xtrinodeWithRemovedObservedNodePool y) as [[|]|]; auto with lasting.
Qed.

Lemma cleaned_lasting : lasting cleaned.
Proof. unfold cleaned. eauto using pool_settled_lasting with lasting. Qed.

(** Reads, events, writes of annotations. *)
Definition gentle (h : happening E) : Prop := ~ destroys h.

Lemma noting_gentle tr : Forall noting tr -> Forall gentle tr.
Proof. apply Forall_impl. intros h. unfold noting, gentle, destroys. destruct (projT1 h); simpl; naive_solver. Qed.

Lemma noting_unreleasing tr : Forall noting tr -> Forall (fun h => ~ releases h) tr.
Proof. apply Forall_impl. intros h. unfold noting, releases. destruct (projT1 h); simpl; naive_solver. Qed.

Section retried.
Context {L : Type} (obj : L -> XTrinode) (refreshFn modifyFn : L -> M W (option E * L)).

Definition refreshes : Prop := forall l, runs (refreshFn l) (fun '(e, l1) t =>
  Forall noting t /\ (e = None -> exists ns n, existT (GetXTrinode ns n) (Ok (obj l1)) ∈ t)).

(** The modification writes the object with [R] to its finalizers. *)
Definition modifies (R : XTrinode -> XTrinode -> Prop) : Prop := forall l, runs (modifyFn l) (fun '(e, l2) t =>
  Forall (fun h => noting h \/ exists y, projT1 h = UpdateXTrinode y /\ R (obj l) y) t).

Lemma retried_gentle R l : refreshes -> modifies R -> runs (retry_local refreshFn modifyFn l) (fun _ tr => Forall gentle tr).
Proof.
  intros Hr Hm. eapply runs_weaken; [apply (emits_retry gentle _ _ l (fun _ => True) (fun _ => True)); [done|]|by intros a tr []].
  intros l1 _. eapply runs_weaken; [apply Hr|]. intros [e l2] t [Ht _]. split; [by apply noting_gentle|].
  destruct e; [done|]. eapply runs_weaken; [apply Hm|]. intros [e l3] t2 Ht2. split; [|by destruct e].
  revert Ht2. apply Forall_impl. intros h [Hh|(y & Hy & _)]; unfold gentle, destroys, noting in *;
    destruct (projT1 h); simpl in *; naive_solver.
Qed.

Lemma retried_keeps l :
  refreshes -> modifies (fun x y => xt_Finalizers y = xt_Finalizers x) ->
  runs (retry_local refreshFn modifyFn l) (fun _ tr => before already_gone releases tr).
Proof.
  intros Hr Hm. eapply runs_weaken; [apply (runs_retry _ _ l (fun _ tr => before already_gone releases tr)
    (fun _ tr => before already_gone releases tr))|].
  - by apply before_never.
  - intros l1 t Ht. eapply runs_weaken; [apply Hr|]. intros [e l2] t1 [Ht1 Hget].
    assert (Hb1 : before already_gone releases (t ++ t1)) by (apply before_never_app; [done|by apply noting_unreleasing]).
    destruct e as [e|]; [done|]. destruct (Hget eq_refl) as (ns & n & Hin).
    eapply runs_weaken; [apply Hm|]. intros [e l3] t2 Ht2.
    enough (before already_gone releases (t ++ t1 ++ t2)) by (by destruct e).
    rewrite app_assoc. apply before_app; [done|]. intros u h v -> Hrel.
    apply Forall_app in Ht2 as [_ Ht2]. apply list.Forall_cons in Ht2 as [Hh _].
    exists ns, n, (obj l2). split; [set_solver|]. unfold releases in Hrel. destruct Hh as [Hh|(y & Hy & Hf)].
    + unfold noting in Hh. destruct (projT1 h); done.
    + rewrite Hy in Hrel. unfold ContainsFinalizer in *. by rewrite <- Hf.
  - intros [e l'] tr Ht. by destruct e.
Qed.
End retried.

Lemma refresh_refreshes : refreshes (fun x => x) refresh.
Proof.
  intros x. unfold refresh. run_call. intros [fresh|e]; apply runs_ret; (split; [by repeat constructor|]); [|done].
  intros _. eexists _, _. left.
Qed.

Lemma write_runs y : runs (write y) (fun _ t => Forall (fun h => projT1 h = UpdateXTrinode y) t).
Proof. unfold write. run_call. intros r. apply runs_ret. by repeat constructor. Qed.

Definition keeps_finalizers (x y : XTrinode) : Prop := xt_Finalizers y = xt_Finalizers x.

Lemma start_drain_runs x :
  runs (start_drain x) (fun _ tr => Forall gentle tr /\ before already_gone releases tr).
Proof.
  unfold start_drain. eapply runs_bind; [apply (timeout_call_runs _ (existT (DrainRoute x))); by apply (runs_perform (DrainRoute x))|].
  intros err t1 (r0 & -> & _).
  set (d := existT (DrainRoute x) r0 : happening E). assert (Hd : Forall gentle [d] /\ Forall (fun h => ~ releases h) [d]).
  { split; (constructor; [by intros []|constructor]). }
  destruct Hd as [Hd1 Hd2]. destruct err as [e|].
  { unfold recordEvent. run_call. intros []. apply runs_ret. split; [|apply before_never]; apply Forall_app;
      (split; [done|constructor; [by intros []|constructor]]). }
  set (m := fun x => now ← perform Now; write (annotate_drain DrainStartedAtAnnotation (FormatRFC3339 now) x)).
  assert (Hm : modifies (fun x => x) m keeps_finalizers).
  { intros y. unfold m. run_call. intros now. eapply runs_weaken; [apply write_runs|]. intros [e l] t Ht.
    constructor; [by left|]. revert Ht. apply Forall_impl. right. by eexists. }
  eapply runs_bind; [apply (runs_and _ _ _ (retried_gentle _ _ m _ x refresh_refreshes Hm)
    (retried_keeps _ _ m x refresh_refreshes Hm))|]. intros [err y] t2 [Hg2 Hb2].
  assert (H12 : Forall gentle ([d] ++ t2) /\ before already_gone releases ([d] ++ t2)).
  { split; [by apply Forall_app|]. apply before_shift; [apply already_gone_lasting|done|done]. }
  destruct err as [e|]; [apply runs_ret; by rewrite app_nil_r|].
  unfold recordEvent. run_call. intros []. apply runs_ret. rewrite app_assoc. destruct H12 as [Hg Hb]. split.
  - apply Forall_app. split; [done|]. constructor; [by intros []|constructor].
  - apply before_never_app; [done|]. constructor; [by intros []|constructor].
Qed.

Lemma drain_complete_runs x s :
  runs (queryAwareDrainComplete x s) (fun '(complete, _, _) tr =>
    Forall noting tr /\ (complete = true -> observed_idle decodeQueries x tr \/ waited s tr)).
Proof.
  unfold queryAwareDrainComplete.
  apply (runs_bind _ _ (fun start tr => Forall noting tr /\
    match ParseRFC3339 s with
    | Some started => start = started
    | None => exists now0, existT Now now0 ∈ tr /\ start = time_add now0 (- drainDuration)
    end)).
  { destruct (ParseRFC3339 s); [by apply runs_ret|]. run_call. intros now. apply runs_ret.
    split; [by repeat constructor|]. exists now. split; [left|done]. }
  intros start t1 [Ht1 Hs]. run_call. intros now. cbv zeta.
  eapply runs_bind; [apply check_queries_runs|]. intros safe t2 [Ht2%quiet_notings Hi]. apply runs_ret. rewrite app_nil_r.
  set (h := existT Now now : happening E).
  assert (Hall : Forall noting (t1 ++ h :: t2)) by (apply Forall_app; split; [done|by constructor]).
  assert (Hw : drainDuration <= Z.max 0 (time_sub now start) -> waited s (t1 ++ h :: t2)).
  { intros Hle. exists now, start. split_and!; [set_solver|done|]. destruct (ParseRFC3339 s); [done|].
    destruct Hs as (now0 & Hin & ->). exists now0. split; [set_solver|done]. }
  destruct safe as [[]|e]; [| |destruct (Z.leb_spec drainDuration (Z.max 0 (time_sub now start)))]; (split; [done|]); try done.
  - intros _. left. eapply (observed_idle_lasting _ x t2); [set_solver|by apply Hi].
  - intros _. right. by apply Hw.
Qed.

(** Neither removes anything nor gives up the finalizer, unless it was gone. *)
Definition careful (tr : list (happening E)) : Prop := Forall gentle tr /\ before already_gone releases tr.

Lemma careful_noting tr : Forall noting tr -> careful tr.
Proof. intros Ht. split; [by apply noting_gentle|]. by apply before_never, noting_unreleasing. Qed.

Lemma careful_app t1 t2 : careful t1 -> careful t2 -> careful (t1 ++ t2).
Proof.
  intros [Hg1 Hb1] [Hg2 Hb2]. split; [by apply Forall_app|]. apply before_app; [done|].
  intros u h v Heq Hp. apply lasting_r; [apply already_gone_lasting|]. by apply (Hb2 u h v).
Qed.

Lemma mark_complete_runs x result : runs (markDrainComplete x result) (fun _ tr => careful tr).
Proof.
  unfold markDrainComplete. run_call. intros now. cbv zeta.
  match goal with |- runs (retry_local ?r ?m ?l) _ => set (rf := r); set (md := m) end.
  assert (Hr : refreshes fst rf).
  { intros [y mk]. unfold rf. eapply runs_bind; [apply refresh_refreshes|]. intros [e z] t [Ht Hg].
    apply runs_ret. rewrite app_nil_r. done. }
  assert (Hm : modifies fst md keeps_finalizers).
  { intros [y mk]. unfold md. destruct (annotated_already y); [by apply runs_ret|].
    eapply runs_bind; [apply write_runs|]. intros [e z] t Ht. apply runs_ret. rewrite app_nil_r.
    revert Ht. apply Forall_impl. right. by eexists. }
  eapply runs_weaken; [apply (runs_and _ _ _ (retried_gentle _ rf md _ (x, false) Hr Hm)
    (retried_keeps _ rf md (x, false) Hr Hm))|]. intros a t Ht.
  apply (careful_app [_]); [|done]. apply careful_noting. by repeat constructor.
Qed.

(** ** What cleaning up does *)

Definition unreleasing (h : happening E) : Prop := ~ releases h.

Lemma retain_pool_runs label success y reason critical :
  runs (retain_pool label success y reason critical) (fun e tr =>
    Forall unreleasing tr /\ (e = None -> critical = None /\ existT (RetainNodePool y) None ∈ tr)).
Proof.
  unfold retain_pool, recordEvent, join_error. run_call. intros [e|]; run_call; intros []; apply runs_ret;
    (split; [repeat constructor; by intros []|]); [done|]. intros ->. split; [done|]. left.
Qed.

Lemma cleanup_pool_runs np x critical :
  runs (cleanup_pool np x critical) (fun e tr =>
    Forall unreleasing tr /\ (e = None -> critical = None /\ policy_followed np x tr)).
Proof.
  unfold cleanup_pool, policy_followed. cbv zeta. destruct (_ ≡? _); [apply retain_pool_runs|]. destruct (_ ≡? _).
  - unfold recordEvent. run_call. intros []. run_call. intros [e|].
    + run_call. intros []. apply runs_ret. split; [repeat constructor; by intros []|done].
    + eapply runs_weaken; [apply retain_pool_runs|]. intros e tr [Ht Hi]. split.
      * repeat (constructor; [by intros []|]). done.
      * intros ->. destruct (Hi eq_refl). set_solver.
  - unfold recordEvent. run_call. intros []. run_call. intros [e|]; run_call; intros []; apply runs_ret;
      (split; [repeat constructor; by intros []|]); intros ->; (split; [done|]); eexists; right; left.
Qed.

Lemma cleanup_trino_runs x : runs (cleanupTrinoResources x) (fun _ tr => Forall unreleasing tr).
Proof.
  unfold cleanupTrinoResources. cbv zeta. run_call. intros [resources|e].
  - run_call. intros r. apply runs_ret. repeat constructor; by intros [].
  - apply runs_ret. repeat constructor; by intros [].
Qed.

Lemma cleanup_runs x :
  runs (cleanupResources x) (fun e tr =>
    Forall unreleasing tr /\ (e = None -> existT (DeregisterRoute x) None ∈ tr /\ pool_settled x tr)).
Proof.
  unfold cleanupResources. run_call. intros err. cbv zeta.
  apply (runs_bind _ _ (fun _ tr => Forall unreleasing tr)).
  { destruct (controllers_isKEDAEnabled x); [run_call; intros r|]; apply runs_ret; repeat constructor; by intros []. }
  intros [] t1 Ht1. eapply runs_bind; [apply cleanup_trino_runs|]. intros [] t2 Ht2.
  set (d := existT (DeregisterRoute x) err : happening E).
  apply (runs_weaken _ (fun e tr => Forall unreleasing tr /\ (e = None -> err = None /\ pool_settled x tr))).
  2:{ intros e tr [Htr Hi]. split.
      - constructor; [by intros []|]. rewrite !Forall_app. done.
      - intros He. destruct (Hi He) as [-> Hs]. split; [left|]. eapply pool_settled_lasting; [|exact Hs]. set_solver. }
  unfold pool_settled. destruct (spec_NodePool (xt_Spec x)) as [np|].
  { eapply runs_weaken; [apply cleanup_pool_runs|]. intros e tr [Htr Hi]. split; [done|]. intros He.
    destruct (Hi He). by destruct err. }
  destruct (xtrinodeWithRemovedObservedNodePool x) as [[retained|e]|].
  - eapply runs_weaken; [apply retain_pool_runs|]. intros e tr [Htr Hi]. split; [done|]. intros He.
    destruct (Hi He). by destruct err.
  - unfold recordEvent. run_call. intros []. apply runs_ret. split; [repeat constructor; by intros []|].
    unfold join_error. by intros [=].
  - apply runs_ret. split; [constructor|]. by destruct err.
Qed.

Lemma remove_runs x : runs (removeFinalizer x) (fun _ tr => Forall gentle tr).
Proof.
  unfold removeFinalizer. apply (retried_gentle (fun x => x) _ _ (fun _ _ => True)); [apply refresh_refreshes|].
  intros y. eapply runs_weaken; [apply write_runs|]. intros [e z] t Ht. revert Ht. apply Forall_impl. right. by eexists.
Qed.

(** The finalizer is only given up once everything was cleaned up. *)
Lemma clean_and_release_runs x : runs (clean_and_release x) (fun _ tr => before cleaned releases tr).
Proof.
  unfold clean_and_release, recordEvent. run_call. intros [].
  eapply runs_bind; [apply cleanup_runs|]. intros err t [Ht Hok].
  set (h0 := existT (RecordEvent _) tt : happening E).
  assert (Hn : Forall unreleasing (h0 :: t)) by (constructor; [by intros []|done]).
  destruct err as [e|].
  { run_call. intros []. apply runs_ret. change (h0 :: t ++ ?l) with ((h0 :: t) ++ l).
    apply before_never, Forall_app. split; [done|]. constructor; [by intros []|constructor]. }
  apply (runs_weaken _ (fun _ _ => True)).
  2:{ intros a t2 _. change (h0 :: t ++ t2) with ((h0 :: t) ++ t2).
      apply before_established; [apply cleaned_lasting|exact Hn|].
      apply (lasting_r _ [h0]); [apply cleaned_lasting|]. exists x. by apply Hok. }
  run_call. intros []. eapply runs_bind; [apply after_delete_runs|]. intros [e|] t3 _; [by apply runs_ret|].
  eapply runs_bind; [apply remove_runs|]. intros [[e|] y] t2 _; [by apply runs_ret|].
  do 2 (run_call; intros []). by apply runs_ret.
Qed.

Definition released_after (tr : list (happening E)) : Prop := before (fun t => cleaned t \/ already_gone t) releases tr.

Lemma careful_released tr : careful tr -> released_after tr.
Proof. intros [_ Hb] t1 h t2 Heq Hp. right. by eapply Hb. Qed.

Lemma released_app t1 t2 : careful t1 -> before cleaned releases t2 -> released_after (t1 ++ t2).
Proof.
  intros Hc Hb. apply before_app; [by apply careful_released|]. intros u h v Heq Hp. left.
  apply lasting_r; [apply cleaned_lasting|]. by apply (Hb u h v).
Qed.

Lemma finish_drain_runs x s :
  runs (finish_drain x s) (fun _ tr =>
    before (fun t => observed_idle decodeQueries x t \/ waited s t) destroys tr /\ released_after tr).
Proof.
  assert (Hgentle : forall tr Q, careful tr -> before Q destroys tr /\ released_after tr).
  { intros tr Q Hc. split; [apply before_never, Hc|by apply careful_released]. }
  unfold finish_drain. eapply runs_bind; [apply drain_complete_runs|]. intros [[complete result] elapsed] t0 [Ht0 Hd].
  destruct complete; simpl; [|apply runs_ret; rewrite app_nil_r; by apply Hgentle, careful_noting].
  eapply runs_bind; [apply mark_complete_runs|]. intros [err [y marked]] t1 Ht1.
  assert (H01 : careful (t0 ++ t1)) by (apply careful_app; [by apply careful_noting|done]).
  destruct err as [e|]; [destruct (IsNotFound e); apply runs_ret; rewrite app_nil_r; by apply Hgentle|].
  apply (runs_bind _ _ (fun _ tr => Forall noting tr)).
  { destruct marked; [|by apply runs_ret]. unfold recordEvent. run_call. intros []. by repeat constructor. }
  intros [] t2 Ht2. eapply runs_bind; [apply pod_termination_runs|]. intros err t3 Ht3%quiet_notings.
  assert (H03 : careful (t0 ++ t1 ++ t2 ++ t3)).
  { rewrite app_assoc. apply careful_app; [done|]. apply careful_noting. by apply Forall_app. }
  destruct err as [e|]; [apply runs_ret; rewrite app_nil_r; by apply Hgentle|].
  eapply runs_weaken; [apply clean_and_release_runs|]. intros a t4 Ht4. rewrite !(app_assoc t0), !(app_assoc (t0 ++ t1)), !app_assoc.
  rewrite !app_assoc in H03. split; [|by apply released_app].
  apply before_established; [apply lasting_or; [apply observed_idle_lasting|apply waited_lasting]|by apply H03|].
  rewrite <- !app_assoc. apply lasting_l; [apply lasting_or; [apply observed_idle_lasting|apply waited_lasting]|by apply Hd].
Qed.

End finalizer.
