(* ===== verification/Autosuspend.v ===== *)
(** * Suspending idle runtimes ([internal/autosuspend])

    The operator asks the coordinator for running and recent queries, keeps the
    time of the last activity in the status, and requests a suspend by
    annotation when that time is long past. *)

From S2P Require Import Prelude GoStrings GoTime GoParse XTrinodeTypes RuntimeShape ControlEndpoint Status QueryState Retry World Shutdown Operator.

Definition MetricsPath : string := "/metrics".

(** [x + y] on finite floats. *)
Definition float_add (x y : float64) : float64 :=
  let '(m1, e1) := x in let '(m2, e2) := y in
  let e := Z.min e1 e2 in
  let s := m1 * 2 ^ (e1 - e) + m2 * 2 ^ (e2 - e) in
  let '(m, e') := round53 (Z.abs s) 1 in (Z.sgn s * m, e' + e).

Section autosuspend.
Context {E W : Type} `{!World E W, KubeErrors E, !ErrorKinds E, WaitBackoff E}.
Context (decodeQueries : string -> result E (list (list (string * json)))).

(** The samples of a metric in an exposition text, as the regular expression
    finds them and [strconv.ParseFloat] reads them. *)
Context (metric_samples : string -> string -> list float64).

(** [time.Parse] at the layouts tried after RFC 3339. *)
Context (time_Parse : string -> string -> option Time).

(** ** Idle? *)

Definition CheckAutoSuspend (x : XTrinode) : M W bool :=
  match spec_AutoSuspendAfter (xt_Spec x) with
  | None => mret false
  | Some autoSuspendAfter =>
      if spec_Suspended (xt_Spec x) then mret false else
      awake ← match st_Wake (xt_Status x) with
              | None => mret false
              | Some wake => now ← perform Now; mret (time_before now (wake_ExpiresAt wake))
              end;
      if awake : bool then mret false else
      let lastActivity := default (xt_CreationTimestamp x) (st_LastActivity (xt_Status x)) in
      now ← perform Now;
      mret (autoSuspendAfter <=? time_sub now lastActivity)
  end.

(** ** Recording activity *)

(** The closures share the object of the caller. *)
Definition UpdateLastActivityAt (activityTime : Time) (x : XTrinode) : M W (option E * XTrinode) :=
  now ← perform Now;
  lastActivity ← (if time_after activityTime now then perform Now else mret activityTime);
  '(err, x) ← retry_local
    (fun x => r ← perform (GetXTrinode (xt_Namespace x) (xt_Name x));
       mret match r with Ok fresh => (None, fresh) | Err e => (Some e, x) end)
    (fun x => let x := set_LastActivity (Some lastActivity) x in
       r ← perform (UpdateXTrinodeStatus x);
       mret match r with Ok server => (None, server) | Err e => (Some e, x) end) x;
  mret match err with
       | Some e => (Some (Errorf "failed to update last activity: " e), x)
       | None => (None, set_LastActivity (Some lastActivity) x)
       end.

Definition UpdateLastActivity (x : XTrinode) : M W (option E * XTrinode) :=
  now ← perform Now; UpdateLastActivityAt now x.

(** ** What the coordinator reports *)

Definition timestamp_fields : list string :=
  ["endTime"; "updateTime"; "lastHeartbeat"; "executionStartTime"; "createTime"; "created"].

Definition query_layouts : list string :=
  ["2006-01-02 15:04:05.000 MST"; "2006-01-02 15:04:05 MST";
   "2006-01-02 15:04:05.000 -0700"; "2006-01-02 15:04:05 -0700"].

Fixpoint first_parsed (layouts : list string) (text : string) : option Time :=
  match layouts with
  | [] => None
  | l :: ls => match time_Parse l text with Some t => Some t | None => first_parsed ls text end
  end.

(** The two RFC 3339 layouts read the same texts. *)
Definition parseQueryTimestamp (value : json) : option Time :=
  match value with
  | JString text =>
      if text ≡? "" then None else
      match ParseRFC3339 text with Some t => Some t | None => first_parsed query_layouts text end
  | _ => None
  end.

Definition later (latest : option Time) (t : Time) : option Time :=
  match latest with
  | None => Some t
  | Some l => if time_after t l then Some t else Some l
  end.

Definition field_times (m : list (string * json)) : list Time :=
  omap (fun field => parseQueryTimestamp (json_get m field)) timestamp_fields.

Definition latestQueryTimestamp (query : list (string * json)) : option Time :=
  let times := field_times query ++
    match json_get query "queryStats" with JObject stats => field_times stats | _ => [] end in
  foldl later None times.

Record queryActivity := mkQueryActivity {
  qa_ActiveQueries : Z;
  qa_LatestActivity : option Time
}.

Definition add_query (a : queryActivity) (query : list (string * json)) : queryActivity :=
  mkQueryActivity
    (if IsActive (query_state query) then qa_ActiveQueries a + 1 else qa_ActiveQueries a)
    match latestQueryTimestamp query with
    | Some t => later (qa_LatestActivity a) t
    | None => qa_LatestActivity a
    end.

Definition count_activity (queries : list (list (string * json))) : queryActivity :=
  foldl add_query (mkQueryActivity 0 None) queries.

Definition queryTrinoQueryActivityWithCredential (queryURL : string) (c : Credential) : M W (result E queryActivity) :=
  answer ← authorized_get true queryURL c;
  mret match answer with
       | Err e => Err (Errorf "failed to query Trino API: " e)
       | Ok (status, body) =>
           if negb (status =? 200)
           then Err (errors_New ("trino API returned status " +:+ fmt_d status))
           else match body with
                | Err e => Err (Errorf "failed to read response: " e)
                | Ok text =>
                    match decodeQueries text with
                    | Err e => Err (Errorf "failed to parse Trino API response: " e)
                    | Ok queries => Ok (count_activity queries)
                    end
                end
       end.

Definition metric_total (text : string) : float64 :=
  foldl float_add (foldl float_add (0, 0) (metric_samples "trino_query_queued" text))
    (metric_samples "trino_query_running" text).

Definition queryTrinoMetricsWithCredential (metricsURL : string) (c : Credential) : M W (result E float64) :=
  answer ← authorized_get true metricsURL c;
  mret match answer with
       | Err e => Err (Errorf "failed to query Trino metrics: " e)
       | Ok (status, body) =>
           if negb (status =? 200)
           then Err (errors_New ("trino metrics returned status " +:+ fmt_d status))
           else match body with
                | Err e => Err (Errorf "failed to read response: " e)
                | Ok text => Ok (metric_total text)
                end
       end.

Definition updateLastActivityFromQueryActivity (a : queryActivity) (x : XTrinode) : M W (option E * XTrinode) :=
  if 0 <? qa_ActiveQueries a then UpdateLastActivity x else
  match qa_LatestActivity a with
  | None => mret (None, x)
  | Some t =>
      let lastActivity := default (xt_CreationTimestamp x) (st_LastActivity (xt_Status x)) in
      if negb (time_after t lastActivity) then mret (None, x) else UpdateLastActivityAt t x
  end.

Definition UpdateLastActivityIfQueriesActive (x : XTrinode) : M W (option E * XTrinode) :=
  let coordinatorURL := CoordinatorURL x in
  credential ← CredentialFromXTrinode x;
  match credential with
  | Err e => mret (Some (Errorf "failed to load Trino control credential: " e), x)
  | Ok c =>
      metrics ← queryTrinoMetricsWithCredential (coordinatorURL +:+ MetricsPath) c;
      match metrics with
      | Err _ =>
          activity ← queryTrinoQueryActivityWithCredential (coordinatorURL +:+ QueryAPIPath) c;
          match activity with
          | Err e => mret (Some (Errorf "failed to query Trino activity via metrics and query API: " e), x)
          | Ok a => updateLastActivityFromQueryActivity a x
          end
      | Ok activeQueries =>
          if float_positive activeQueries then UpdateLastActivity x else
          activity ← queryTrinoQueryActivityWithCredential (coordinatorURL +:+ QueryAPIPath) c;
          match activity with
          | Err e => mret (Some (Errorf "failed to query Trino query history after zero active metrics: " e), x)
          | Ok a => updateLastActivityFromQueryActivity a x
          end
      end
  end.

(** ** Requesting the suspend *)

(** The clock reads the second annotation; both are set on every attempt. *)
Definition request_suspend (x : XTrinode) : M W XTrinode :=
  now ← perform Now;
  mret (set_Annotations (<[AutoSuspendRequestedAtAnnotation := FormatRFC3339 now]>
         (<[AutoSuspendRequestedAnnotation := "true"]> (xt_Annotations x))) x).

Definition keep_observed (observed : option Time) (x : XTrinode) : XTrinode :=
  match observed, st_LastActivity (xt_Status x) with
  | Some o, None => set_LastActivity observed x
  | Some o, Some stored => if time_after o stored then set_LastActivity observed x else x
  | None, _ => x
  end.

Definition submit_request (x : XTrinode) : M W (option E * XTrinode) :=
  retry_local
    (fun x => r ← perform (GetXTrinode (xt_Namespace x) (xt_Name x));
       mret match r with Ok fresh => (None, fresh) | Err e => (Some e, x) end)
    (fun x => x ← request_suspend x;
       r ← perform (UpdateXTrinode x);
       mret match r with Ok server => (None, server) | Err e => (Some e, x) end) x.

Definition AutoSuspendIfNeeded (x : XTrinode) : M W (result E bool * XTrinode) :=
  '(err, x) ← UpdateLastActivityIfQueriesActive x;
  match err with
  | Some e => mret (Err (Errorf "failed to check query activity before auto-suspend: " e), x)
  | None =>
      let observedLastActivity := st_LastActivity (xt_Status x) in
      refreshed ← perform (GetXTrinode (xt_Namespace x) (xt_Name x));
      let x := match refreshed with Ok fresh => fresh | Err _ => x end in
      let x := keep_observed observedLastActivity x in
      shouldSuspend ← CheckAutoSuspend x;
      if negb shouldSuspend then mret (Ok false, x) else
      x ← request_suspend x;
      '(err, x) ← submit_request x;
      mret match err with
           | Some e => (Err (Errorf "failed to request auto-suspend: " e), x)
           | None => (Ok true, x)
           end
  end.

(** ** Activity counted *)

Lemma count_activity_active queries a :
  0 <= qa_ActiveQueries a ->
  0 <= qa_ActiveQueries (foldl add_query a queries) /\
  (0 < qa_ActiveQueries (foldl add_query a queries) <-> 0 < qa_ActiveQueries a \/ any_active queries = true).
Proof.
  revert a. induction queries as [|q queries IH]; intros a Ha; simpl; [naive_solver|].
  destruct (IH (add_query a q)) as [H0' H1].
  { simpl. destruct (IsActive (query_state q)); lia. }
  split; [done|]. rewrite H1. simpl. destruct (IsActive (query_state q)); simpl; [|done].
  split; intros _; [by right|]. left. lia.
Qed.

Lemma count_activity_positive queries :
  (0 <? qa_ActiveQueries (count_activity queries)) = any_active queries.
Proof.
  destruct (count_activity_active queries (mkQueryActivity 0 None) ltac:(done)) as [_ H1]. simpl in H1.
  unfold count_activity. apply eq_true_iff_eq. rewrite Z.ltb_lt, H1. naive_solver lia.
Qed.

(** The newest of the reported times. *)
Lemma latest_upper times acc t :
  foldl later acc times = Some t -> (forall l, acc = Some l -> l <= t) /\ Forall (fun u => u <= t) times.
Proof.
  revert acc. induction times as [|u times IH]; intros acc; simpl.
  { intros ->. split; [by intros l [= ->]|constructor]. }
  intros [Hacc Ht]%IH. unfold later, time_after in Hacc. destruct acc as [l|].
  - destruct (Z.ltb_spec l u); specialize (Hacc _ eq_refl);
      (split; [intros ? [= <-]; lia|constructor; [lia|done]]).
  - specialize (Hacc _ eq_refl). split; [done|by constructor].
Qed.

(** ** What the coordinator was heard to say *)

(** An answer that shows a query running. *)
Definition reports_active (x : XTrinode) (h : happening E) : Prop :=
  match h with
  | existT (HTTPGet _ url _ _) r =>
      match r with
      | Ok (200, Ok text) =>
          (url = CoordinatorURL x +:+ MetricsPath /\ float_positive (metric_total text) = true) \/
          (url = CoordinatorURL x +:+ QueryAPIPath /\ exists qs, decodeQueries text = Ok qs /\ any_active qs = true)
      | _ => False
      end
  | _ => False
  end.

Definition heard_active (x : XTrinode) (tr : list (happening E)) : Prop := Exists (reports_active x) tr.

(** Calls that are no requests to the coordinator. *)
Definition elsewhere (h : happening E) : Prop :=
  match projT1 h with HTTPGet _ _ _ _ => False | _ => True end.

Lemma elsewhere_not_active x tr : Forall elsewhere tr -> ~ heard_active x tr.
Proof.
  intros Ht Hh. unfold heard_active in Hh. rewrite Exists_exists in Hh. destruct Hh as (h & Hin & Hr).
  rewrite Forall_forall in Ht. specialize (Ht h Hin). destruct h as [[] r]; done.
Qed.

Lemma heard_app x t1 t2 : heard_active x (t1 ++ t2) <-> heard_active x t1 \/ heard_active x t2.
Proof. apply Exists_app. Qed.

Lemma credential_elsewhere x : emits elsewhere (CredentialFromXTrinode (W := W) x) (fun _ => True).
Proof.
  unfold CredentialFromXTrinode. destruct (passwordSecret x) as [[name key]|]; [|by apply emits_ret].
  emit_call. intros r. by apply emits_ret.
Qed.

Lemma metrics_url_not_query x : CoordinatorURL x +:+ MetricsPath <> CoordinatorURL x +:+ QueryAPIPath.
Proof. intros Heq. apply (inj (String.append (CoordinatorURL x))) in Heq. discriminate Heq. Qed.

Lemma metrics_runs x c :
  runs (queryTrinoMetricsWithCredential (CoordinatorURL x +:+ MetricsPath) c) (fun r tr =>
    Forall bookkeeping tr /\
    (heard_active x tr -> exists total, r = Ok total /\ float_positive total = true)).
Proof.
  unfold queryTrinoMetricsWithCredential, authorized_get. run_call. intros a. apply runs_ret.
  split; [by repeat constructor|]. intros Hh. apply List.Exists_cons in Hh as [Hh|Hh]; [|by inversion Hh].
  destruct a as [[status [text|e]]|e]; simpl in Hh; try (by repeat case_match).
  destruct (Z.eqb_spec status 200) as [->|Hne]; simpl.
  - destruct Hh as [[_ Hp]|[Hu _]]; [by eauto|]. by apply metrics_url_not_query in Hu.
  - exfalso. repeat (case_match; try done).
Qed.

Lemma activity_runs x c :
  runs (queryTrinoQueryActivityWithCredential (CoordinatorURL x +:+ QueryAPIPath) c) (fun r tr =>
    Forall bookkeeping tr /\
    (heard_active x tr -> exists a, r = Ok a /\ (0 <? qa_ActiveQueries a) = true)).
Proof.
  unfold queryTrinoQueryActivityWithCredential, authorized_get. run_call. intros a. apply runs_ret.
  split; [by repeat constructor|]. intros Hh. apply List.Exists_cons in Hh as [Hh|Hh]; [|by inversion Hh].
  destruct a as [[status [text|e]]|e]; simpl in Hh; try (by repeat case_match).
  destruct (Z.eqb_spec status 200) as [->|Hne]; simpl.
  - destruct Hh as [[Hu _]|[_ (qs & Hd & Ha)]]; [by apply eq_sym, metrics_url_not_query in Hu|].
    rewrite Hd. exists (count_activity qs). split; [done|]. by rewrite count_activity_positive.
  - exfalso. repeat (case_match; try done).
Qed.

(** *** Recording *)

(** Bookkeeping that asks the coordinator nothing. *)
Definition filing (h : happening E) : Prop := bookkeeping h /\ elsewhere h.

(** The activity time in the object is the one given, or was read from the
    clock meanwhile. *)
Definition dated (t : Time) (y : XTrinode) (tr : list (happening E)) : Prop :=
  exists l, st_LastActivity (xt_Status y) = Some l /\ (l = t \/ existT Now l ∈ tr).

Lemma update_at_runs t x :
  runs (UpdateLastActivityAt t x) (fun '(err, y) tr => Forall filing tr /\ (err = None -> dated t y tr)).
Proof.
  unfold UpdateLastActivityAt. run_call. intros now.
  eapply (runs_bind _ _ (fun l tr => Forall filing tr /\ (l = t \/ existT Now l ∈ tr))).
  { destruct (time_after t now); [|apply runs_ret; by auto]. run_call. intros l. split; [by repeat constructor|].
    right. left. }
  intros l t1 [Ht1 Hl]. eapply runs_bind.
  { apply (emits_retry filing _ _ x (fun _ => True) (fun _ => True)); [done|]. intros x1 _. emit_call.
    intros [fresh|e]; apply emits_ret; [|done]. emit_call. intros [server|e]; by apply emits_ret. }
  intros [err y] t2 [Ht2 _]. apply runs_ret. rewrite app_nil_r.
  assert (Hall : Forall filing (existT Now now :: t1 ++ t2)) by (constructor; [done|by apply Forall_app]).
  destruct err as [e|]; (split; [done|]); [done|]. intros _. exists l. split; [done|].
  destruct Hl as [->|Hl]; [by left|right; set_solver].
Qed.

Lemma update_runs x :
  runs (UpdateLastActivity x) (fun '(err, y) tr => Forall filing tr /\
    (err = None -> exists l, st_LastActivity (xt_Status y) = Some l /\ existT Now l ∈ tr)).
Proof.
  unfold UpdateLastActivity. run_call. intros now. eapply runs_weaken; [apply update_at_runs|].
  intros [err y] tr [Ht Hd]. split; [by constructor|]. intros He. destruct (Hd He) as (l & Hl & [->|Hin]).
  - exists now. split; [done|left].
  - exists l. split; [done|by right].
Qed.

(** A running query resets the idle clock. *)
Definition fresh (y : XTrinode) (tr : list (happening E)) : Prop :=
  exists l, st_LastActivity (xt_Status y) = Some l /\ existT Now l ∈ tr.

Lemma fresh_lasting y : lasting (fresh y).
Proof. unfold fresh. eauto 8 with lasting. Qed.

Lemma from_activity_runs a x :
  runs (updateLastActivityFromQueryActivity a x) (fun '(err, y) tr => Forall filing tr /\
    (err = None -> (0 <? qa_ActiveQueries a) = true -> fresh y tr)).
Proof.
  unfold updateLastActivityFromQueryActivity. destruct (0 <? qa_ActiveQueries a).
  { eapply runs_weaken; [apply update_runs|]. intros [err y] tr [Ht Hf]. split; [done|]. intros He _. by apply Hf. }
  destruct (qa_LatestActivity a) as [t|]; [|by apply runs_ret]. destruct (negb _); [by apply runs_ret|].
  eapply runs_weaken; [apply update_at_runs|]. intros [err y] tr [Ht _]. by split.
Qed.

Lemma filing_bookkeeping tr : Forall filing tr -> Forall bookkeeping tr.
Proof. apply Forall_impl. by intros h []. Qed.

Lemma filing_unheard x tr : Forall filing tr -> ~ heard_active x tr.
Proof. intros Ht. apply elsewhere_not_active. revert Ht. apply Forall_impl. by intros h []. Qed.

Lemma queries_active_runs x :
  runs (UpdateLastActivityIfQueriesActive x) (fun '(err, y) tr =>
    Forall bookkeeping tr /\ (err = None -> heard_active x tr -> fresh y tr)).
Proof.
  unfold UpdateLastActivityIfQueriesActive. cbv zeta.
  eapply runs_bind; [apply (runs_and _ _ _ (credential_runs x) (credential_elsewhere x))|].
  intros credential t1 [Hq1%quiet_bookkeepings [He1 _]].
  pose proof (elsewhere_not_active x t1 He1) as Hn1.
  destruct credential as [c|e]; [|apply runs_ret; rewrite app_nil_r; by split].
  eapply runs_bind; [apply metrics_runs|]. intros metrics t2 [Hq2 Hm].
  assert (Hhist : (heard_active x t2 -> False) -> forall (wrap : E -> E),
    runs (activity ← queryTrinoQueryActivityWithCredential (CoordinatorURL x +:+ QueryAPIPath) c;
          match activity with
          | Err e => mret (Some (wrap e), x)
          | Ok a => updateLastActivityFromQueryActivity a x
          end) (fun b t3 =>
      (let '(err, y) := b in fun tr => Forall bookkeeping tr /\ (err = None -> heard_active x tr -> fresh y tr)) (t1 ++ t2 ++ t3))).
  { intros Hn2 wrap. eapply runs_bind; [apply activity_runs|]. intros activity t3 [Hq3 Ha].
    destruct activity as [a|e].
    - eapply runs_weaken; [apply from_activity_runs|]. intros [err y] t4 [Ht4 Hf].
      split; [rewrite !Forall_app; split_and!; try done; by apply filing_bookkeeping|].
      intros He. rewrite !heard_app. pose proof (filing_unheard x t4 Ht4). intros [?|[?|[H3|?]]]; try done.
      destruct (Ha H3) as (a' & [= <-] & Hact). eapply (fresh_lasting y t4); [set_solver|by apply Hf].
    - apply runs_ret. rewrite app_nil_r. split; [by rewrite !Forall_app|done]. }
  destruct metrics as [total|e].
  - destruct (float_positive total) eqn:Ep.
    + eapply runs_weaken; [apply update_runs|]. intros [err y] t3 [Ht3 Hf].
      split; [rewrite !Forall_app; split_and!; try done; by apply filing_bookkeeping|].
      intros He _. eapply (fresh_lasting y t3); [set_solver|by apply Hf].
    + apply Hhist. intros (total' & [= <-] & Hp)%Hm. congruence.
  - apply (Hhist ltac:(by intros (total' & [=] & _)%Hm)
             (Errorf "failed to query Trino activity via metrics and query API: ")).
Qed.

(** *** The decision *)

(** [z] is due for a suspend by the clock readings of [tr]: it wants to be
    suspended when idle, is not, no wake window holds it, and its last activity
    is long enough past. *)
Definition due (z : XTrinode) (tr : list (happening E)) : Prop :=
  exists after now,
    spec_AutoSuspendAfter (xt_Spec z) = Some after /\ spec_Suspended (xt_Spec z) = false /\
    existT Now now ∈ tr /\
    after <= time_sub now (default (xt_CreationTimestamp z) (st_LastActivity (xt_Status z))) /\
    (forall wake, st_Wake (xt_Status z) = Some wake ->
       exists now', existT Now now' ∈ tr /\ wake_ExpiresAt wake <= now').

Lemma check_runs z :
  runs (CheckAutoSuspend z) (fun b tr => Forall filing tr /\ (b = true -> due z tr)).
Proof.
  unfold CheckAutoSuspend, due. destruct (spec_AutoSuspendAfter (xt_Spec z)) as [after|]; [|by apply runs_ret].
  destruct (spec_Suspended (xt_Spec z)); [by apply runs_ret|].
  apply (runs_bind _ _ (fun awake tr => Forall filing tr /\ (awake = false ->
    forall wake, st_Wake (xt_Status z) = Some wake -> exists now', existT Now now' ∈ tr /\ wake_ExpiresAt wake <= now'))).
  { destruct (st_Wake (xt_Status z)) as [wake|]; [|apply runs_ret; by split]. run_call. intros now. apply runs_ret.
    split; [by repeat constructor|]. unfold time_before. intros Hb%Z.ltb_ge wake' [= <-]. exists now. split; [left|done]. }
  intros awake t1 [Ht1 Hw]. destruct awake; [apply runs_ret; by rewrite app_nil_r|].
  run_call. intros now. apply runs_ret. split; [apply Forall_app; split; [done|by repeat constructor]|].
  intros Hle%Z.leb_le. exists after, now. split_and!; [done|done|set_solver|done|].
  intros wake Hwake. destruct (Hw eq_refl wake Hwake) as (now' & Hin & Hle'). exists now'. split; [set_solver|done].
Qed.

(** The object with the two annotations of the request. *)
Definition asks_suspend (t y : XTrinode) : Prop :=
  exists now, y = set_Annotations (<[AutoSuspendRequestedAtAnnotation := FormatRFC3339 now]>
                    (<[AutoSuspendRequestedAnnotation := "true"]> (xt_Annotations t))) t.

Lemma request_suspend_runs x :
  runs (request_suspend x) (fun y tr => Forall filing tr /\ asks_suspend x y).
Proof. unfold request_suspend. run_call. intros now. apply runs_ret. split; [by repeat constructor|by eexists]. Qed.

(** A write of the specification is the request, on the object just read. *)
Definition only_requests (tr : list (happening E)) : Prop :=
  forall y r, existT (UpdateXTrinode y) r ∈ tr ->
    exists ns n t, existT (GetXTrinode ns n) (Ok t) ∈ tr /\ asks_suspend t y.

Definition no_request (h : happening E) : Prop :=
  match projT1 h with UpdateXTrinode _ => False | _ => True end.

Lemma bookkeeping_no_request tr : Forall bookkeeping tr -> Forall no_request tr.
Proof. apply Forall_impl. intros h. unfold bookkeeping, no_request. by destruct (projT1 h). Qed.

Lemma only_requests_none tr : Forall no_request tr -> only_requests tr.
Proof. intros Ht y r Hin. rewrite list.Forall_forall in Ht. by specialize (Ht _ Hin). Qed.

Lemma only_requests_app t1 t2 : only_requests t1 -> only_requests t2 -> only_requests (t1 ++ t2).
Proof.
  intros H1 H2 y r [Hin|Hin]%elem_of_app.
  - destruct (H1 y r Hin) as (ns & n & t & Hg & Ha). exists ns, n, t. split; [set_solver|done].
  - destruct (H2 y r Hin) as (ns & n & t & Hg & Ha). exists ns, n, t. split; [set_solver|done].
Qed.

Definition requested_in (tr : list (happening E)) : Prop :=
  exists y server, existT (UpdateXTrinode y) (Ok server) ∈ tr.

Lemma submit_elsewhere x : emits elsewhere (submit_request x) (fun _ => True).
Proof.
  eapply emits_weaken; [apply (emits_retry elsewhere _ _ x (fun _ => True) (fun _ => True)); [done|]|done|done].
  intros l _. emit_call. intros [fresh_|e]; apply emits_ret; [|done].
  eapply emits_bind; [eapply emits_weaken; [apply request_suspend_runs|by intros h []|done]|].
  intros y _. emit_call. intros [server|e]; by apply emits_ret.
Qed.

Lemma submit_runs x :
  runs (submit_request x) (fun '(err, _) tr => only_requests tr /\ (err = None -> requested_in tr)).
Proof.
  eapply runs_weaken; [apply (runs_retry _ _ x (fun _ tr => only_requests tr)
    (fun _ tr => only_requests tr /\ requested_in tr))|].
  - by apply only_requests_none.
  - intros l t Ht. run_call. intros [fresh_|e]; apply runs_ret.
    2: { apply only_requests_app; [done|]. apply only_requests_none. by repeat constructor. }
    eapply runs_bind; [apply request_suspend_runs|]. intros y t2 [Ht2 Hy]. run_call. intros r. apply runs_ret.
    set (g := existT (GetXTrinode (xt_Namespace l) (xt_Name l)) (Ok fresh_) : happening E).
    assert (Hreq : only_requests (t ++ [g] ++ t2 ++ [existT (UpdateXTrinode y) r])).
    { apply only_requests_app; [done|]. intros y' r' Hin.
      exists (xt_Namespace l), (xt_Name l), fresh_. split; [left|].
      apply elem_of_app in Hin as [Hin|Hin]; [by apply list_elem_of_singleton in Hin|].
      apply elem_of_app in Hin as [Hin|Hin].
      - apply filing_bookkeeping, bookkeeping_no_request in Ht2. rewrite list.Forall_forall in Ht2. by specialize (Ht2 _ Hin).
      - apply list_elem_of_singleton in Hin. by injection Hin as -> _. }
    destruct r as [server|e]; [split; [done|]|done]. exists y, server. set_solver.
  - intros [err y] tr Htr. destruct err; naive_solver.
Qed.

Lemma kept_activity y l :
  st_LastActivity (xt_Status (keep_observed (Some l) y)) <> None /\
  forall la, st_LastActivity (xt_Status (keep_observed (Some l) y)) = Some la -> l <= la.
Proof.
  unfold keep_observed, time_after. destruct (st_LastActivity (xt_Status y)) as [s|] eqn:Es; simpl.
  - destruct (Z.ltb_spec s l); simpl; [split; [done|]; intros la [= <-]; lia|]. rewrite Es.
    split; [done|]. by intros la [= <-].
  - split; [done|]. intros la [= <-]. lia.
Qed.

End autosuspend.
