(* ===== verification/Commands.v ===== *)
(** * Commands by annotation ([controllers/commands.go])

    The API server asks for a resume or a suspend by annotating the runtime;
    the operator's idle check asks for a suspend the same way.
    [ProcessCommands] is the one place where such requests become a change of
    the specification. *)

From S2P Require Import Prelude GoStrings GoTime GoParse XTrinodeTypes RuntimeShape Status Retry World Shutdown Operator.

(** [m[k]] on a [map[string]string] *)
Definition annotation (m : gmap string string) (k : string) : string := default "" (m !! k).

(** ** Commands *)

Inductive CommandType := CommandResume | CommandSuspend | CommandAutoSuspend.

#[export] Instance CommandType_eq_dec : EqDecision CommandType.
Proof. solve_decision. Defined.

Record Command := mkCommand {
  cmd_Type : CommandType;
  cmd_Timestamp : Time;
  cmd_Params : gmap string string
}.

Definition parseTimestamp (ts : string) : Time :=
  if ts ≡? "" then zeroTime else default zeroTime (ParseRFC3339 ts).

Definition requested (m : gmap string string) (key : string) : bool := m !! key ≡? Some "true".

Definition detected := (list Command * option Command * option Command * option Command)%type.

Definition detectAnnotationCommands (m : gmap string string) : detected :=
  let resumeCmd :=
    if requested m ResumeRequestedAnnotation
    then Some (mkCommand CommandResume (parseTimestamp (annotation m ResumeRequestedAtAnnotation))
           {[ "wakeMinWorkers" := annotation m WakeMinWorkersAnnotation;
              "wakeTTL" := annotation m WakeTTLAnnotation ]})
    else None in
  let suspendCmd :=
    if requested m SuspendRequestedAnnotation
    then Some (mkCommand CommandSuspend (parseTimestamp (annotation m SuspendRequestedAtAnnotation)) ∅)
    else None in
  let autoSuspendCmd :=
    if requested m AutoSuspendRequestedAnnotation
    then Some (mkCommand CommandAutoSuspend (parseTimestamp (annotation m AutoSuspendRequestedAtAnnotation)) ∅)
    else None in
  (option_list resumeCmd ++ option_list suspendCmd ++ option_list autoSuspendCmd,
   resumeCmd, suspendCmd, autoSuspendCmd).

Definition resolveCommandPrecedence (d : detected) : detected :=
  let '(commands, resumeCmd, suspendCmd, autoSuspendCmd) := d in
  if (length commands <=? 1)%nat then d else
  let manual := bool_decide (is_Some resumeCmd) || bool_decide (is_Some suspendCmd) in
  let '(commands, autoSuspendCmd) :=
    match autoSuspendCmd with
    | Some _ => if manual
                then (filterb (fun c => negb (cmd_Type c ≡? CommandAutoSuspend)) commands, None)
                else (commands, autoSuspendCmd)
    | None => (commands, autoSuspendCmd)
    end in
  match resumeCmd, suspendCmd with
  | Some r, Some s =>
      if time_after (cmd_Timestamp r) (cmd_Timestamp s)
      then (filterb (fun c => cmd_Type c ≡? CommandResume) commands, resumeCmd, None, autoSuspendCmd)
      else (filterb (fun c => cmd_Type c ≡? CommandSuspend) commands, None, suspendCmd, autoSuspendCmd)
  | _, _ => (commands, resumeCmd, suspendCmd, autoSuspendCmd)
  end.

Inductive command_error :=
| BadWakeMinWorkers (text : string)
| NegativeWakeMinWorkers (n : Z)
| BadWakeTTL (text : string)
| NegativeWakeTTL (d : Duration).

Definition validateResumeCommand (cmd : Command) : option command_error :=
  let workers := annotation (cmd_Params cmd) "wakeMinWorkers" in
  let ttl := annotation (cmd_Params cmd) "wakeTTL" in
  let workersError :=
    if workers ≡? "" then None else
    match ParseInt 32 workers with
    | None => Some (BadWakeMinWorkers workers)
    | Some n => if n <? 0 then Some (NegativeWakeMinWorkers n) else None
    end in
  match workersError with
  | Some e => Some e
  | None =>
      if ttl ≡? "" then None else
      match ParseDuration ttl with
      | None => Some (BadWakeTTL ttl)
      | Some d => if d <? 0 then Some (NegativeWakeTTL d) else None
      end
  end.

(** The mutation: the annotations of every detected command go, the winning
    command changes the specification. *)
Definition delete_pair (k k' : string) (m : gmap string string) : gmap string string := delete k' (delete k m).

Definition buildSpecMutation (detectedResume detectedSuspend detectedAutoSuspend : bool)
    (resumeCmd suspendCmd autoSuspendCmd : option Command) (t : XTrinode) : XTrinode :=
  let m := xt_Annotations t in
  let m := if detectedResume then delete_pair ResumeRequestedAnnotation ResumeRequestedAtAnnotation m else m in
  let m := if detectedSuspend then delete_pair SuspendRequestedAnnotation SuspendRequestedAtAnnotation m else m in
  let m := if detectedAutoSuspend
           then delete_pair AutoSuspendRequestedAnnotation AutoSuspendRequestedAtAnnotation m else m in
  let m := if bool_decide (resumeCmd = None) && (detectedResume || detectedSuspend || detectedAutoSuspend)
           then delete_pair WakeMinWorkersAnnotation WakeTTLAnnotation m else m in
  let t := set_Annotations m t in
  let t := match resumeCmd with Some _ => set_Suspended false t | None => t end in
  let t := match suspendCmd with Some _ => set_Suspended true t | None => t end in
  match autoSuspendCmd with Some _ => set_Suspended true t | None => t end.

#[export] Instance Command_eq_dec : EqDecision Command.
Proof. solve_decision. Defined.

Lemma delete_pair_lookup k k' m j :
  delete_pair k k' m !! j = if decide (j ∈ [k; k']) then None else m !! j.
Proof.
  unfold delete_pair. rewrite !lookup_delete. destruct (decide (j ∈ [k; k'])) as [Hin|Hnot].
  - apply elem_of_cons in Hin as [->|Hin%list_elem_of_singleton]; subst; repeat case_decide; done.
  - apply not_elem_of_cons in Hnot as [? Hnot]. rewrite list_elem_of_singleton in Hnot.
    repeat case_decide; congruence.
Qed.

Section commands.
Context {E W : Type} `{!World E W, KubeErrors E, !ErrorKinds E, WaitBackoff E}.

(** How an invalid parameter prints, with the text of the library's error. *)
Context (command_error_text : command_error -> string).

(** Every attempt fetches the object, applies the mutation and writes. *)
Definition persistCommands (namespace name : string) (mutate : XTrinode -> XTrinode) : M W (option E) :=
  '(err, _) ← retry_local
    (fun _ : unit => mret (None, tt))
    (fun _ : unit =>
       fresh ← perform (GetXTrinode namespace name);
       match fresh with
       | Err e => mret (Some e, tt)
       | Ok t =>
           r ← perform (UpdateXTrinode (mutate t));
           mret (match r with Err e => Some e | Ok _ => None end, tt)
       end) tt;
  mret err.

Definition rejectCommand (e : command_error) (x : XTrinode) : M W XTrinode :=
  let message := "Invalid resume command: " +:+ command_error_text e in
  x ← setCondition ConditionTypeReady ConditionFalse "CommandRejected" message x;
  _ ← updateStatusWithRetry (xt_Namespace x) (xt_Name x)
        (setCondition ConditionTypeReady ConditionFalse "CommandRejected" message);
  _ ← recordEvent (Warning "ResumeRequested" message);
  mret x.

Definition command_event (e : option Command) (ev : event) : M W unit :=
  match e with Some _ => recordEvent ev | None => mret tt end.

Definition ProcessCommands (x : XTrinode) : M W (result E (list Command) * XTrinode) :=
  let d := detectAnnotationCommands (xt_Annotations x) in
  let '(_, resume0, suspend0, auto0) := d in
  let detectedResume := bool_decide (is_Some resume0) in
  let detectedSuspend := bool_decide (is_Some suspend0) in
  let detectedAutoSuspend := bool_decide (is_Some auto0) in
  let '(commands, resumeCmd, suspendCmd, autoSuspendCmd) := resolveCommandPrecedence d in
  if negb detectedResume && negb detectedSuspend && negb detectedAutoSuspend
  then mret (Ok commands, x) else
  match resumeCmd ≫= validateResumeCommand with
  | Some e => x ← rejectCommand e x; mret (Ok [], x)
  | None =>
      err ← persistCommands (xt_Namespace x) (xt_Name x)
        (buildSpecMutation detectedResume detectedSuspend detectedAutoSuspend resumeCmd suspendCmd autoSuspendCmd);
      match err with
      | Some e => mret (Err (Errorf "failed to persist commands: " e), x)
      | None =>
          _ ← command_event resumeCmd (Normal "ResumeRequested" "Resume command processed successfully");
          _ ← command_event suspendCmd (Normal "SuspendRequested" "Suspend command processed successfully");
          mret (Ok commands, x)
      end
  end.

(** ** The policy

    A manual command beats the idle check, the newer of the two manual
    commands wins, and a tie goes to the suspend. *)

Inductive decision := NoCommand | DoResume | DoSuspend | DoAutoSuspend.

#[export] Instance decision_eq_dec : EqDecision decision.
Proof. solve_decision. Defined.

Definition decide_commands (m : gmap string string) : decision :=
  let at_ k := parseTimestamp (annotation m k) in
  match requested m ResumeRequestedAnnotation, requested m SuspendRequestedAnnotation,
        requested m AutoSuspendRequestedAnnotation with
  | true, true, _ =>
      if at_ SuspendRequestedAtAnnotation <? at_ ResumeRequestedAtAnnotation then DoResume else DoSuspend
  | true, false, _ => DoResume
  | false, true, _ => DoSuspend
  | false, false, true => DoAutoSuspend
  | false, false, false => NoCommand
  end.

(** The annotations a decision clears: those of every command that was
    present, and the wake parameters unless they are still to be read. *)
Definition cleared (m : gmap string string) (d : decision) : list string :=
  (if requested m ResumeRequestedAnnotation then [ResumeRequestedAnnotation; ResumeRequestedAtAnnotation] else []) ++
  (if requested m SuspendRequestedAnnotation then [SuspendRequestedAnnotation; SuspendRequestedAtAnnotation] else []) ++
  (if requested m AutoSuspendRequestedAnnotation
   then [AutoSuspendRequestedAnnotation; AutoSuspendRequestedAtAnnotation] else []) ++
  match d with DoResume => [] | _ => [WakeMinWorkersAnnotation; WakeTTLAnnotation] end.

(** [t'] is [t] with the decision carried out and nothing else changed. *)
Definition obeys (m : gmap string string) (d : decision) (t t' : XTrinode) : Prop :=
  exists m', t' = set_Suspended (match d with DoResume => false | _ => true end) (set_Annotations m' t) /\
    forall k, m' !! k = if decide (k ∈ cleared m d) then None else xt_Annotations t !! k.

Definition command_of (d : decision) : option CommandType :=
  match d with
  | NoCommand => None
  | DoResume => Some CommandResume
  | DoSuspend => Some CommandSuspend
  | DoAutoSuspend => Some CommandAutoSuspend
  end.

(** The parameters a resume carries, and the ones it may carry: nothing, or a
    32-bit number of workers and a duration, neither negative. *)
Definition wake_params (m : gmap string string) : gmap string string :=
  {[ "wakeMinWorkers" := annotation m WakeMinWorkersAnnotation; "wakeTTL" := annotation m WakeTTLAnnotation ]}.

Definition acceptable (m : gmap string string) : Prop :=
  let workers := annotation m WakeMinWorkersAnnotation in
  let ttl := annotation m WakeTTLAnnotation in
  (workers = "" \/ exists n, ParseInt 32 workers = Some n /\ 0 <= n) /\
  (ttl = "" \/ exists d, ParseDuration ttl = Some d /\ 0 <= d).

Lemma validate_acceptable m c :
  cmd_Params c = wake_params m -> validateResumeCommand c = None <-> acceptable m.
Proof.
  intros Hp. unfold validateResumeCommand, acceptable. rewrite Hp. clear.
  assert (Hw : annotation (wake_params m) "wakeMinWorkers" = annotation m WakeMinWorkersAnnotation) by done.
  assert (Ht : annotation (wake_params m) "wakeTTL" = annotation m WakeTTLAnnotation) by done.
  rewrite Hw, Ht. generalize (annotation m WakeMinWorkersAnnotation), (annotation m WakeTTLAnnotation).
  intros workers ttl.
  destruct (decide (workers = "")) as [->|Hne], (decide (ttl = "")) as [->|Hnt]; simpl; try tauto.
  all: rewrite ?(bool_decide_eq_false_2 (workers = "")), ?(bool_decide_eq_false_2 (ttl = "")) by done.
  all: try (destruct (ParseInt 32 workers) as [n|]; [destruct (Z.ltb_spec n 0)|]).
  all: try (destruct (ParseDuration ttl) as [d|]; [destruct (Z.ltb_spec d 0)|]).
  all: split; try done; intros; destruct_and?; destruct_or?; try naive_solver lia.
Qed.

(** The runtimes written with success. *)
Definition written (h : happening E) : option XTrinode :=
  match h with
  | existT (UpdateXTrinode y) r => match r with Ok _ => Some y | Err _ => None end
  | _ => None
  end.

Definition writes (tr : list (happening E)) : list XTrinode := omap written tr.

Lemma writes_app t1 t2 : writes (t1 ++ t2) = writes t1 ++ writes t2.
Proof. apply omap_app. Qed.

Definition updating (h : happening E) : Prop :=
  bookkeeping h \/ exists y, projT1 h = UpdateXTrinode y.

Lemma bookkeeping_updating tr : Forall bookkeeping tr -> Forall updating tr.
Proof. apply Forall_impl. by left. Qed.

Lemma bookkeeping_not_written h : bookkeeping h -> written h = None.
Proof. destruct h as [[] r]; done. Qed.

Lemma bookkeeping_omap tr : Forall bookkeeping tr -> writes tr = [].
Proof.
  induction 1 as [|h tr Hh _ IH]; [done|]. simpl. by rewrite (bookkeeping_not_written h Hh).
Qed.

Lemma persistCommands_runs ns n mutate :
  runs (persistCommands ns n mutate) (fun r tr =>
    Forall updating tr /\
    match r with
    | Some _ => writes tr = []
    | None => exists t, existT (GetXTrinode ns n) (Ok t) ∈ tr /\ writes tr = [mutate t]
    end).
Proof.
  unfold persistCommands. eapply runs_bind.
  { apply (runs_retry _ _ tt
      (fun _ tr => Forall updating tr /\ writes tr = [])
      (fun _ tr => Forall updating tr /\
         exists t, existT (GetXTrinode ns n) (Ok t) ∈ tr /\ writes tr = [mutate t])).
    - split; [constructor|done].
    - intros _ t [Ht Hw]. apply runs_ret. run_call. intros [x|e].
      + run_call. intros r. apply runs_ret. rewrite !app_nil_l.
        assert (Hall : Forall updating (t ++ [existT (GetXTrinode ns n) (Ok x); existT (UpdateXTrinode (mutate x)) r])).
        { apply Forall_app. split; [done|]. constructor; [by left|]. constructor; [right; by eexists|constructor]. }
        destruct r as [y|e].
        * split; [done|]. exists x. split; [set_solver|]. by rewrite writes_app, Hw.
        * split; [done|]. by rewrite writes_app, Hw.
      + apply runs_ret. rewrite app_nil_l. split; [apply Forall_app; split; [done|]; constructor; [by left|constructor]|].
        by rewrite writes_app, Hw. }
  intros [e l] t1 H1. apply runs_ret. rewrite app_nil_r. destruct e; naive_solver.
Qed.

(** The two passes over the detected commands compute the decision. *)
Lemma detected_none m :
  decide_commands m = NoCommand -> detectAnnotationCommands m = ([], None, None, None).
Proof.
  unfold decide_commands, detectAnnotationCommands. repeat case_match; done.
Qed.

Lemma mutation_obeys m cs0 r0 s0 a0 cs r s a :
  decide_commands m <> NoCommand ->
  detectAnnotationCommands m = (cs0, r0, s0, a0) ->
  resolveCommandPrecedence (cs0, r0, s0, a0) = (cs, r, s, a) ->
  (exists c, cs = [c] /\ Some (cmd_Type c) = command_of (decide_commands m)) /\
  (is_Some r0 \/ is_Some s0 \/ is_Some a0) /\
  match decide_commands m with
  | DoResume => exists c, r = Some c /\ cmd_Params c = wake_params m
  | _ => r = None
  end /\
  forall t, obeys m (decide_commands m) t
    (buildSpecMutation (bool_decide (is_Some r0)) (bool_decide (is_Some s0)) (bool_decide (is_Some a0)) r s a t).
Proof.
  unfold detectAnnotationCommands, decide_commands, obeys, cleared.
  destruct (requested m ResumeRequestedAnnotation) eqn:Er, (requested m SuspendRequestedAnnotation) eqn:Es,
    (requested m AutoSuspendRequestedAnnotation) eqn:Ea; intros Hne; try done; clear Hne; intros [= <- <- <- <-];
    unfold resolveCommandPrecedence; simpl; unfold time_after; try (destruct (_ <? _)); intros [= <- <- <- <-]; simpl.
  all: split_and!; [by eauto|by eauto|by eauto|]; intros t.
  all: unfold buildSpecMutation; eexists; split; [reflexivity|]; intros k; simpl; rewrite !delete_pair_lookup;
    by repeat case_decide; set_solver.
Qed.

Lemma rejectCommand_runs e x :
  runs (rejectCommand e x) (fun y tr =>
    only_conditions x y /\ Forall bookkeeping tr /\
    exists message, existT (RecordEvent (Warning "ResumeRequested" message)) tt ∈ tr).
Proof.
  unfold rejectCommand. eapply runs_bind; [apply setCondition_emits|]. intros y t1 [Ht1 Hy].
  eapply runs_bind; [apply updateStatusWithRetry_emits; intros t|].
  { eapply emits_weaken; [apply setCondition_emits|done|done]. }
  intros _ t2 [Ht2 _]. unfold recordEvent. run_call. intros []. apply runs_ret.
  split; [done|]. rewrite !Forall_app. split; [split_and!; [done|done|by constructor]|].
  eexists. rewrite !elem_of_app. right; right. left.
Qed.

Lemma command_event_emits c ev : emits bookkeeping (command_event c ev) (fun _ => True).
Proof. destruct c; [by refine (emits_perform _ (RecordEvent ev) _)|by apply emits_ret]. Qed.

(** What [ProcessCommands] may do about a decision: nothing when no command is
    present; reject a resume whose parameters are not acceptable, with the
    reason in a condition and an event and the specification left alone; or
    write the runtime once, or fail without having written it. *)
Definition carries_out (x : XTrinode) (d : decision) (r : result E (list Command)) (y : XTrinode)
    (tr : list (happening E)) : Prop :=
  match d with
  | NoCommand => r = Ok [] /\ y = x /\ tr = []
  | _ =>
      (d = DoResume /\ ~ acceptable (xt_Annotations x) /\
       r = Ok [] /\ only_conditions x y /\ Forall bookkeeping tr /\
       exists message, existT (RecordEvent (Warning "ResumeRequested" message)) tt ∈ tr) \/
      ((d = DoResume -> acceptable (xt_Annotations x)) /\
       y = x /\ Forall updating tr /\
       match r with
       | Err _ => writes tr = []
       | Ok cs => exists c t t', cs = [c] /\ Some (cmd_Type c) = command_of d /\
           existT (GetXTrinode (xt_Namespace x) (xt_Name x)) (Ok t) ∈ tr /\
           writes tr = [t'] /\ obeys (xt_Annotations x) d t t'
       end)
  end.

Lemma persist_and_report_runs x mutate commands (r s : option Command) ev1 ev2 :
  runs (err ← persistCommands (xt_Namespace x) (xt_Name x) mutate;
        match err with
        | Some e => mret (Err (Errorf "failed to persist commands: " e), x)
        | None => _ ← command_event r ev1; _ ← command_event s ev2; mret (Ok commands, x)
        end : M W (result E (list Command) * XTrinode)) (fun '(r, y) tr =>
    y = x /\ Forall updating tr /\
    match r with
    | Err _ => writes tr = []
    | Ok cs => cs = commands /\ exists t,
        existT (GetXTrinode (xt_Namespace x) (xt_Name x)) (Ok t) ∈ tr /\ writes tr = [mutate t]
    end).
Proof.
  eapply runs_bind; [apply persistCommands_runs|]. intros [e|] t1 [Hu Hw].
  { apply runs_ret. by rewrite app_nil_r. }
  eapply runs_bind; [apply command_event_emits|]. intros _ t2 [Ht2 _].
  eapply runs_bind; [apply command_event_emits|]. intros _ t3 [Ht3 _]. apply runs_ret.
  split; [done|]. split; [rewrite !Forall_app; split_and!; try done; by apply bookkeeping_updating|].
  split; [done|]. destruct Hw as (t & Hin & Hw). exists t. split; [set_solver|].
  by rewrite !writes_app, Hw, (bookkeeping_omap t2), (bookkeeping_omap t3).
Qed.

(** C13: [ProcessCommands] implements the policy: a manual command beats the
    idle check, the newer manual command wins and a tie suspends; a resume with
    unusable wake parameters is rejected without touching the specification;
    otherwise the runtime read last is written exactly once, with [suspended]
    set as decided, the annotations of every command present removed and
    nothing else changed, or an error is returned and nothing was written. *)
Theorem process_commands_policy x :
  runs (ProcessCommands x) (fun '(r, y) tr => carries_out x (decide_commands (xt_Annotations x)) r y tr).
Proof.
  unfold ProcessCommands. set (m := xt_Annotations x).
  destruct (decide (decide_commands m = NoCommand)) as [Hd|Hd].
  { rewrite (detected_none m Hd), Hd. by apply runs_ret. }
  destruct (detectAnnotationCommands m) as [[[cs0 r0] s0] a0] eqn:Edet.
  destruct (resolveCommandPrecedence (cs0, r0, s0, a0)) as [[[cs r] s] a] eqn:Eres.
  destruct (mutation_obeys m _ _ _ _ _ _ _ _ Hd Edet Eres) as ((c & -> & Hc) & Hsome & Hr & Hob).
  replace (negb _ && _ && _) with false.
  2: { destruct Hsome as [[? ->]|[[? ->]|[? ->]]]; simpl; by rewrite ?andb_false_r. }
  destruct (r ≫= validateResumeCommand) as [e|] eqn:Ev.
  - destruct r as [rc|]; [|done]. simpl in Ev.
    destruct (decide_commands m) eqn:Ed; try done. destruct Hr as (? & [= <-] & Hp).
    eapply runs_bind; [apply rejectCommand_runs|]. intros y t1 (Hy & Ht1 & Hev). apply runs_ret.
    rewrite app_nil_r. left. split_and!; try done. fold m. rewrite <- (validate_acceptable m rc Hp). congruence.
  - eapply runs_weaken; [apply persist_and_report_runs|]. intros [r' y] tr (-> & Hu & Hres).
    assert (Hacc : decide_commands m = DoResume -> acceptable m).
    { intros Ed. rewrite Ed in Hr. destruct Hr as (rc & -> & Hp). by apply (validate_acceptable m rc). }
    unfold carries_out. fold m. destruct (decide_commands m); [done| | |]; right; (split_and!; try done);
      (destruct r' as [cs'|e]; [|done]); destruct Hres as (-> & t & Hin & Hw); exists c, t; eexists; by split_and!.
Qed.
End commands.
