(* ===== verification/Resume.v ===== *)
(** * Resuming a runtime
    ([controllers/xtrinode_resume.go], [xtrinode_wake_autosuspend.go], parts of
    [runtime_readiness.go] and [xtrinode_status.go])

    A resume brings the coordinator back, opens a wake window with the requested
    workers, and afterwards keeps the coordinator at its replica count. *)

From S2P Require Import Prelude GoStrings GoTime GoParse XTrinodeTypes RuntimeShape Status Retry World Shutdown Operator Commands.

(** ** Wake parameters *)

Definition hasWakeCommandAnnotations (x : XTrinode) : bool :=
  negb (annotation (xt_Annotations x) WakeMinWorkersAnnotation ≡? "") ||
  negb (annotation (xt_Annotations x) WakeTTLAnnotation ≡? "").

Definition shouldRunResumeTransition (x : XTrinode) : bool :=
  let phase := st_Phase (xt_Status x) in
  if (phase ≡? PhaseSuspended) || (phase ≡? PhaseSuspending) then true else hasWakeCommandAnnotations x.

(** A number that parses and is not negative. *)
Definition nonnegative (n : option Z) : option Z := n ≫= fun n => if 0 <=? n then Some n else None.

Definition parseWakeParams (x : XTrinode) : Z * Duration :=
  let wakeMinStr := annotation (xt_Annotations x) WakeMinWorkersAnnotation in
  let wakeTTLStr := annotation (xt_Annotations x) WakeTTLAnnotation in
  let workers := if wakeMinStr ≡? "" then None else nonnegative (ParseInt 32 wakeMinStr) in
  let ttl := if wakeTTLStr ≡? "" then None else nonnegative (ParseDuration wakeTTLStr) in
  (match workers with Some n => n | None => default 0 (spec_WakeMinWorkers (xt_Spec x)) end,
   match ttl with Some d => d | None => default (5 * Minute) (spec_WakeTTL (xt_Spec x)) end).

(** ** The floor of a native autoscaler *)

(** Numbers only; the texts a shape resolution reads are not read here. *)
Definition parseOverlayInt32 (val : json) : option Z :=
  match val with JNumber m e => Some (float_int32 m e) | _ => None end.

Definition overlay_target (val : json) (dflt : Z) : Z :=
  match parseOverlayInt32 val with
  | Some parsed => parsed
  | None => match val with JString s => if s ≡? "" then 0 else dflt | _ => dflt end
  end.

Definition nativeHPARequiredWorkers (x : XTrinode) : option Z :=
  match GetValuesOverlayMap (xt_Spec x) with
  | None => None
  | Some valuesMap =>
      match json_get valuesMap "server" with
      | JObject server =>
          match json_get server "autoscaling" with
          | JObject autoscaling =>
              match json_get autoscaling "enabled" with
              | JBool true =>
                  let cpuTarget := overlay_target (json_get autoscaling "targetCPUUtilizationPercentage")
                                     DefaultHPACPUTargetPercentage in
                  let memoryTarget := overlay_target (json_get autoscaling "targetMemoryUtilizationPercentage")
                                        DefaultHPAMemoryTargetPercentage in
                  if (cpuTarget <=? 0) && (memoryTarget <=? 0) then None else
                  Some (default DefaultHPAMinReplicas (parseOverlayInt32 (json_get autoscaling "minReplicas")))
              | _ => None
              end
          | _ => None
          end
      | _ => None
      end
  end.

Definition isNativeHPAEnabled (x : XTrinode) : bool := bool_decide (is_Some (nativeHPARequiredWorkers x)).

Section resume.
Context {E W : Type} `{!World E W, KubeErrors E, !ErrorKinds E, WaitBackoff E}.

Definition ensureNativeHPAWorkerFloor (x : XTrinode) : M W (option E) :=
  match nativeHPARequiredWorkers x with
  | None => mret None
  | Some floor =>
      if floor <=? 0 then mret None else
      let name := BuildWorkerDeploymentName (xt_Name x) in
      worker ← perform (GetDeployment (xt_Namespace x) name);
      match worker with
      | Err e => if IsNotFound e then mret None else mret (Some (Errorf "failed to get worker deployment: " e))
      | Ok d =>
          if 0 <? default 0 (dp_SpecReplicas d) then mret None else
          err ← scaleDeployment x (dp_Name d) floor "worker";
          mret (Errorf "failed to seed native HPA worker floor: " <$> err)
      end
  end.

(** ** Scaling up *)

Definition resume_failed (err : E) (x : XTrinode) : M W (option E * XTrinode) :=
  let text := "Failed to resume XTrinode: " +:+ error_text err in
  _ ← recordEvent (Warning "ResumeFailed" text);
  '(_, x) ← setXTrinodeErrorStatusAndUpdate ConditionReasonResumeFailed text x;
  mret (Some err, x).

Definition scaleForResume (x : XTrinode) (wakeMinWorkers : Z) : M W (option E * XTrinode) :=
  if controllers_isKEDAEnabled x then
    err ← scaleCoordinatorOnly x 1;
    match err with Some e => resume_failed e x | None => mret (None, x) end
  else if isNativeHPAEnabled x then
    err ← scaleCoordinatorOnly x 1;
    match err with
    | Some e => resume_failed e x
    | None =>
        err ← ensureNativeHPAWorkerFloor x;
        match err with Some e => resume_failed e x | None => mret (None, x) end
    end
  else
    err ← scaleDeployments x 1 wakeMinWorkers;
    match err with Some e => resume_failed e x | None => mret (None, x) end.

Definition ensureResumedInvariants (x : XTrinode) : M W (option E) :=
  now ← perform Now;
  let inv := GetInvariants now PhaseReady x in
  coordinator ← perform (GetDeployment (xt_Namespace x) (BuildCoordinatorDeploymentName (xt_Name x)));
  match coordinator with
  | Err e => if IsNotFound e then mret None else mret (Some (Errorf "failed to get coordinator deployment: " e))
  | Ok d =>
      let currentReplicas := default 0 (dp_SpecReplicas d) in
      err ← (if currentReplicas =? inv_CoordReplicas inv then mret None else
             err ← scaleCoordinatorOnly x (inv_CoordReplicas inv);
             match err with
             | Some e => mret (Some (Errorf "failed to restore coordinator deployment scale: " e))
             | None =>
                 _ ← recordEvent (Normal "ReconcileComplete" ("Recovered from drift: coordinator scaled from " +:+
                       fmt_d currentReplicas +:+ " to " +:+ fmt_d (inv_CoordReplicas inv)));
                 mret None
             end);
      match err with Some e => mret (Some e) | None => ensureNativeHPAWorkerFloor x end
  end.

(** ** The transition *)

Definition open_wake_window (wakeMinWorkers : Z) (wakeTTL : Duration) (x : XTrinode) : M W XTrinode :=
  if 0 <? wakeMinWorkers then
    now ← perform Now;
    mret (set_Wake (Some (mkWake wakeMinWorkers (time_add now wakeTTL))) x)
  else mret match st_Wake (xt_Status x) with Some _ => set_Wake None x | None => x end.

Definition announce_resuming (x : XTrinode) : M W XTrinode :=
  if st_Phase (xt_Status x) ≡? PhaseResuming then mret x else
  let x := set_Phase PhaseResuming x in
  x ← setCondition ConditionTypeReconciling ConditionTrue ConditionReasonReconciling "Resuming XTrinode" x;
  _ ← updateStatus x;
  mret x.

(** Best effort: the pool gets its specified minimum back. *)
Definition restore_node_pool (x : XTrinode) : M W unit :=
  match spec_NodePool (xt_Spec x) with
  | None => mret tt
  | Some np =>
      if default true (np_ScaleDownOnSuspend np)
      then _ ← CallWithTimeout (perform (ScaleNodePoolMinNodes x (default 0 (np_MinNodes np)))); mret tt
      else mret tt
  end.

(** The patch answers with the stored object, whose status does not know the
    wake window yet. *)
Definition clear_wake_annotations (x : XTrinode) : M W XTrinode :=
  if hasWakeCommandAnnotations x then
    let savedWake := st_Wake (xt_Status x) in
    let savedLastActivity := st_LastActivity (xt_Status x) in
    let x' := set_Annotations (delete_pair WakeMinWorkersAnnotation WakeTTLAnnotation (xt_Annotations x)) x in
    patched ← perform (PatchXTrinode x x');
    let x := match patched with Ok server => server | Err _ => x' end in
    mret (set_LastActivity savedLastActivity (set_Wake savedWake x))
  else mret x.

Definition announce_resumed (wakeMinWorkers : Z) (x : XTrinode) : M W XTrinode :=
  now ← perform Now;
  let x := set_LastActivity (Some now) x in
  x ← setConditionWithEvents ConditionTypeSuspended ConditionFalse ConditionReasonNotSuspended
        "XTrinode is not suspended" x;
  x ← setConditionWithEvents ConditionTypeReady ConditionTrue ConditionReasonAllComponentsReady "XTrinode resumed" x;
  ttl ← match st_Wake (xt_Status x) with
        | Some wake => now ← perform Now; mret (time_sub (wake_ExpiresAt wake) now)
        | None => mret 0
        end;
  _ ← recordEvent (Normal "Resumed" ("XTrinode resumed with wake window (minWorkers: " +:+
        fmt_d wakeMinWorkers +:+ ", TTL: " +:+ duration_String ttl +:+ ")"));
  mret x.

Definition resume_transition (x : XTrinode) : M W (option E * XTrinode) :=
  let '(wakeMinWorkers, wakeTTL) := parseWakeParams x in
  x ← open_wake_window wakeMinWorkers wakeTTL x;
  x ← announce_resuming x;
  _ ← restore_node_pool x;
  '(err, x) ← scaleForResume x wakeMinWorkers;
  match err with
  | Some e => mret (Some e, x)
  | None =>
      x ← clear_wake_annotations x;
      x ← announce_resumed wakeMinWorkers x;
      mret (None, x)
  end.

Definition reconcileResume (x : XTrinode) : M W (option E * XTrinode) :=
  '(err, x) ← (if shouldRunResumeTransition x then resume_transition x else mret (None, x));
  match err with
  | Some e => mret (Some e, x)
  | None =>
      if spec_Suspended (xt_Spec x) then mret (None, x) else
      err ← ensureResumedInvariants x;
      mret (err, x)
  end.

(** ** The wake window *)

Definition reconcileWakeTTL (x : XTrinode) : M W (option E * XTrinode) :=
  match st_Wake (xt_Status x) with
  | None => mret (None, x)
  | Some wake =>
      now ← perform Now;
      if time_before now (wake_ExpiresAt wake) then mret (None, x) else
      let x := set_Wake None x in
      err ← updateStatus x;
      mret (Errorf "wake expired but failed to persist cleared status.wake: " <$> err, x)
  end.

Definition ReconcileRequeueIntervalAutosuspend : Duration := 60 * Second.

(** The clock is read when there is a window. *)
Definition calculateRequeueInterval (x : XTrinode) : M W Duration :=
  let minInterval :=
    if bool_decide (is_Some (spec_AutoSuspendAfter (xt_Spec x))) && negb (spec_Suspended (xt_Spec x))
    then ReconcileRequeueIntervalAutosuspend else 0 in
  match st_Wake (xt_Status x) with
  | None => mret minInterval
  | Some wake =>
      now ← perform Now;
      let remaining := time_sub (wake_ExpiresAt wake) now in
      mret (if (0 <? remaining) && ((minInterval =? 0) || (remaining <? minInterval))
            then remaining else minInterval)
  end.

(** ** What a resume does *)

Definition patches (h : happening E) : Prop :=
  match projT1 h with PatchXTrinode _ _ => True | _ => False end.

(** The scalings of a resume: the coordinator to one; the workers to the wake
    count when nothing else scales them, or from zero to the floor of a native
    autoscaler. *)
Definition resuming (x : XTrinode) (wakeMinWorkers : Z) (h : happening E) : Prop :=
  is_scaling h ->
  projT1 h = ScaleDeployment (xt_Namespace x) (BuildCoordinatorDeploymentName (xt_Name x)) 1 \/
  (controllers_isKEDAEnabled x = false /\
   match nativeHPARequiredWorkers x with
   | None => projT1 h = ScaleDeployment (xt_Namespace x) (BuildWorkerDeploymentName (xt_Name x)) wakeMinWorkers
   | Some floor => 0 < floor /\ exists name, projT1 h = ScaleDeployment (xt_Namespace x) name floor
   end).

Definition upward (x : XTrinode) (n : Z) (h : happening E) : Prop := resuming x n h /\ ~ patches h.

Lemma bookkeeping_upward x n h : bookkeeping h -> upward x n h.
Proof.
  intros Hb. split; [|unfold patches, bookkeeping in *; destruct (projT1 h); simpl in *; naive_solver].
  intros Hs. by apply bookkeeping_not_scaling in Hb.
Qed.

Lemma bookkeepings_upward x n tr : Forall bookkeeping tr -> Forall (upward x n) tr.
Proof. apply Forall_impl, bookkeeping_upward. Qed.

Lemma emits_upward {A} x n (m : M W A) (R : A -> Prop) : emits bookkeeping m R -> emits (upward x n) m R.
Proof. intros Hm. eapply emits_weaken; [exact Hm|apply bookkeeping_upward|done]. Qed.

Lemma scaling_upward x n tr :
  Forall (scaling (xt_Namespace x) (BuildCoordinatorDeploymentName (xt_Name x)) 1) tr -> Forall (upward x n) tr.
Proof.
  apply Forall_impl. intros h [Hh|Hh]; [by apply bookkeeping_upward, noting_bookkeeping|].
  split; [by left|]. unfold patches. rewrite Hh. tauto.
Qed.

Lemma resume_failed_runs x n e :
  runs (resume_failed e x) (fun '(err, y) tr => Forall (upward x n) tr /\ only_status x y /\ err <> None).
Proof.
  unfold resume_failed, recordEvent. run_call. intros []. eapply runs_bind; [apply setError_emits|].
  intros [err y] t [Ht Hy]. apply runs_ret. rewrite app_nil_r. split_and!; [|etrans; [by eexists|by apply only_conditions_status]|done].
  apply bookkeepings_upward. by constructor.
Qed.

Lemma floor_runs x n :
  controllers_isKEDAEnabled x = false ->
  runs (ensureNativeHPAWorkerFloor x) (fun _ tr => Forall (upward x n) tr).
Proof.
  intros Hk. unfold ensureNativeHPAWorkerFloor. destruct (nativeHPARequiredWorkers x) as [floor|] eqn:Ef; [|apply runs_ret; constructor].
  destruct (Z.leb_spec floor 0); [apply runs_ret; constructor|]. run_call. intros [d|e].
  - destruct (0 <? _); [apply runs_ret; apply bookkeepings_upward; by repeat constructor|].
    eapply runs_bind; [apply scaleDeployment_runs|]. intros err t [Ht _]. apply runs_ret. rewrite app_nil_r.
    constructor; [by apply bookkeeping_upward|]. revert Ht. apply Forall_impl. intros h [Hh|Hh].
    + by apply bookkeeping_upward, noting_bookkeeping.
    + split; [|unfold patches; rewrite Hh; tauto]. intros _. right. split; [done|]. rewrite Ef. eauto.
  - destruct (IsNotFound e); apply runs_ret; apply bookkeepings_upward; by repeat constructor.
Qed.

(** The Deployments a resume leaves running. *)
Definition scaled_up (x : XTrinode) (wakeMinWorkers : Z) (tr : list (happening E)) : Prop :=
  scaled (xt_Namespace x) (BuildCoordinatorDeploymentName (xt_Name x)) 1 tr /\
  (controllers_isKEDAEnabled x = false -> nativeHPARequiredWorkers x = None ->
   scaled (xt_Namespace x) (BuildWorkerDeploymentName (xt_Name x)) wakeMinWorkers tr).

Lemma scaled_up_lasting x n : lasting (scaled_up x n).
Proof. unfold scaled_up. eauto using scaled_lasting with lasting. Qed.

(** The coordinator alone, then whatever follows its success. *)
Lemma coordinator_first_runs x n (next : M W (option E * XTrinode)) (Q : option E * XTrinode -> list (happening E) -> Prop) :
  (forall e t, Forall (upward x n) t -> runs (resume_failed e x) (fun a t' => Q a (t ++ t'))) ->
  (forall t, Forall (upward x n) t ->
     scaled (xt_Namespace x) (BuildCoordinatorDeploymentName (xt_Name x)) 1 t -> runs next (fun a t' => Q a (t ++ t'))) ->
  runs (err ← scaleCoordinatorOnly x 1; match err with Some e => resume_failed e x | None => next end) Q.
Proof.
  intros Hf Hn. eapply runs_bind; [apply scaleDeployment_runs|]. intros err t [Ht%(scaling_upward x n) Hs].
  destruct err as [e|]; [by apply Hf|]. by apply Hn; [|apply Hs].
Qed.

Definition brought_up (x : XTrinode) (n : Z) (a : option E * XTrinode) (tr : list (happening E)) : Prop :=
  Forall (upward x n) tr /\ only_status x a.2 /\ (a.1 = None -> a.2 = x /\ scaled_up x n tr).

Lemma scaleForResume_runs x n : runs (scaleForResume x n) (brought_up x n).
Proof.
  assert (Hfail : forall e t, Forall (upward x n) t ->
    runs (resume_failed e x) (fun a t' => brought_up x n a (t ++ t'))).
  { intros e t Ht. eapply runs_weaken; [apply (resume_failed_runs x n)|]. intros [err y] t' (Ht' & Hy & He).
    split_and!; [by apply Forall_app|done|done]. }
  unfold scaleForResume. destruct (controllers_isKEDAEnabled x) eqn:Ek.
  { apply (coordinator_first_runs x n); [exact Hfail|]. intros t Ht Hs. apply runs_ret. rewrite app_nil_r.
    split_and!; [done|reflexivity|]. intros _. split; [done|]. split; [done|congruence]. }
  unfold isNativeHPAEnabled. destruct (nativeHPARequiredWorkers x) as [floor|] eqn:Ef; simpl.
  { apply (coordinator_first_runs x n); [exact Hfail|]. intros t Ht Hs.
    eapply runs_bind; [by apply (floor_runs x n)|]. intros err t2 Ht2. assert (Forall (upward x n) (t ++ t2)) by (by apply Forall_app).
    destruct err as [e|]; [eapply runs_weaken; [by apply (Hfail e (t ++ t2))|]; intros a t3 Ha; by rewrite app_assoc|].
    apply runs_ret. rewrite app_nil_r. split_and!; [done|reflexivity|]. intros _. split; [done|]. split; [|congruence].
    apply lasting_l; [apply scaled_lasting|done]. }
  eapply runs_bind; [apply scaleDeployments_runs|]. intros err t [Ht Hs].
  assert (Hup : Forall (upward x n) t).
  { revert Ht. apply Forall_impl. intros h Hh.
    destruct Hh as [[Hh|Hh]|[Hh|Hh]]; [by apply bookkeeping_upward, noting_bookkeeping| |by apply bookkeeping_upward, noting_bookkeeping|];
      (split; [|unfold patches; rewrite Hh; tauto]); intros _; [by left|]. right. by rewrite Ef. }
  destruct err as [e|]; [by apply Hfail|]. apply runs_ret. rewrite app_nil_r. destruct (Hs eq_refl) as [Hc Hw].
  split_and!; [done|reflexivity|]. done.
Qed.

(** The window a resume opens: for the requested workers, until the requested
    time after the moment it was opened; none when no workers are wanted. *)
Definition wake_window (n : Z) (ttl : Duration) (wake : option WakeState) (tr : list (happening E)) : Prop :=
  if 0 <? n then exists now, existT Now now ∈ tr /\ wake = Some (mkWake n (time_add now ttl)) else wake = None.

Lemma wake_window_lasting n ttl wake : lasting (wake_window n ttl wake).
Proof. unfold wake_window. destruct (0 <? n); eauto 8 with lasting. Qed.

Lemma open_wake_window_runs n ttl x :
  runs (open_wake_window n ttl x) (fun y tr => Forall noting tr /\ only_status x y /\
    wake_window n ttl (st_Wake (xt_Status y)) tr).
Proof.
  unfold open_wake_window, wake_window. destruct (0 <? n).
  - run_call. intros now. apply runs_ret. split_and!; [by repeat constructor|by eexists|]. exists now. split; [left|done].
  - apply runs_ret. destruct (st_Wake (xt_Status x)) eqn:Ew; (split_and!; [constructor|first [reflexivity|by eexists]|done]).
Qed.

Definition same_wake (x y : XTrinode) : Prop := st_Wake (xt_Status y) = st_Wake (xt_Status x).

Lemma announce_resuming_runs x :
  runs (announce_resuming x) (fun y tr => Forall bookkeeping tr /\ only_status x y /\ same_wake x y).
Proof.
  unfold announce_resuming. destruct (_ ≡? PhaseResuming); [apply runs_ret; split_and!; [constructor|reflexivity|done]|].
  eapply runs_bind; [apply setCondition_emits|]. intros x1 t1 [Ht1 [cs ->]].
  eapply runs_bind; [apply updateStatus_emits|]. intros _ t2 [Ht2 _]. apply runs_ret. rewrite app_nil_r.
  split_and!; [by apply Forall_app|by eexists|done].
Qed.

Lemma restore_node_pool_runs x n : runs (restore_node_pool x) (fun _ tr => Forall (upward x n) tr).
Proof.
  unfold restore_node_pool. destruct (spec_NodePool (xt_Spec x)) as [np|]; [|apply runs_ret; constructor].
  destruct (default true _); [|apply runs_ret; constructor].
  set (c := ScaleNodePoolMinNodes x (default 0 (np_MinNodes np))).
  eapply runs_bind; [apply (timeout_call_runs _ (existT c)); by apply (runs_perform c)|].
  intros r t (r0 & -> & _). apply runs_ret. rewrite app_nil_r. constructor; [|constructor]. by split; [intros []|intros []].
Qed.

Lemma clear_wake_runs x n :
  runs (clear_wake_annotations x) (fun y tr => Forall (resuming x n) tr /\ same_wake x y).
Proof.
  unfold clear_wake_annotations. destruct (hasWakeCommandAnnotations x); [|by apply runs_ret].
  run_call. intros [server|e]; apply runs_ret; (split; [constructor; [by intros []|constructor]|done]).
Qed.

Lemma announce_resumed_runs n x :
  runs (announce_resumed n x) (fun y tr => Forall noting tr /\ same_wake x y /\
    exists now, existT Now now ∈ tr /\ st_LastActivity (xt_Status y) = Some now).
Proof.
  unfold announce_resumed. run_call. intros now.
  eapply runs_bind; [apply setConditionWithEvents_notes|]. intros x1 t1 [Ht1 [cs1 ->]].
  eapply runs_bind; [apply setConditionWithEvents_notes|]. intros x2 t2 [Ht2 [cs2 ->]].
  eapply (runs_bind _ _ (fun _ tr => Forall noting tr)).
  { destruct (st_Wake _); [|apply runs_ret; constructor]. run_call. intros now'. apply runs_ret. by repeat constructor. }
  intros ttl t3 Ht3. unfold recordEvent. run_call. intros []. apply runs_ret. split_and!; [|done|].
  - constructor; [done|]. rewrite !Forall_app. split_and!; [done|done|done|by repeat constructor].
  - exists now. split; [left|done].
Qed.

Lemma upward_resuming x n tr : Forall (upward x n) tr -> Forall (resuming x n) tr.
Proof. apply Forall_impl. by intros h []. Qed.

Lemma upward_status x y n tr : only_status x y -> Forall (upward y n) tr -> Forall (upward x n) tr.
Proof. by intros [st ->]. Qed.

End resume.

(** ** Two readings of one overlay *)

(** Targets written as text: the shape of the runtime has no autoscaler, the
    resume waits for one. *)
Definition text_targets : list (string * json) :=
  [("server", JObject [("autoscaling", JObject [("enabled", JBool true);
     ("targetCPUUtilizationPercentage", JString "0"); ("targetMemoryUtilizationPercentage", JString "0")])])].

Lemma hpa_checks_disagree x :
  GetValuesOverlayMap (xt_Spec x) = Some text_targets ->
  IsNativeHPAActive (GetValuesOverlayMap (xt_Spec x)) = false /\ isNativeHPAEnabled x = true.
Proof.
  intros Hv. unfold isNativeHPAEnabled, nativeHPARequiredWorkers. rewrite Hv.
  split; vm_compute; reflexivity.
Qed.
