(* ===== verification/Catalogs.v ===== *)
(** * Catalogs of a runtime ([internal/catalog/catalog.go], [secrets.go])

    Which catalogs a runtime mounts, and the environment variables that carry
    their Secrets into its pods. *)

From S2P Require Import Prelude GoStrings GoTime XTrinodeTypes RuntimeShape Status Retry CatalogTypes World Shutdown.

(** ** Secrets of one catalog *)

Record CatalogSecretReference := mkSecretReference {
  sr_CatalogName : string;
  sr_PropertyName : string;
  sr_SecretKeySelector : SecretKeySelector;
  sr_EnvVarName : string
}.

(** The package has its own copy of [calculateEnvVarName]. *)
Definition catalog_calculateEnvVarName (catalogName propertyName : string) : string :=
  let catalogName := map_bytes underscore_byte (TrimPrefix catalogName CatalogConfigMapPrefix) in
  let propertyName := map_bytes underscore_byte propertyName in
  "CATALOG_" +:+ ToUpper catalogName +:+ "_" +:+ ToUpper propertyName.

Section references.
Context (catalog : XTrinodeCatalog) (catalogName : string).

Definition reference (propertyName : string) (ref : SecretKeySelector) : CatalogSecretReference :=
  mkSecretReference catalogName propertyName ref (catalog_calculateEnvVarName (cat_Name catalog) propertyName).

Definition genericPropertySecretReferences : list CatalogSecretReference :=
  let secretRefs := GenericPropertySecretRefs (cat_Connector catalog) in
  let propertyNames := SortStrings (filter (fun propertyName => TrimSpace propertyName <> "") (fst <$> map_to_list secretRefs)) in
  omap (fun propertyName => reference (TrimSpace propertyName) <$> secretRefs !! propertyName) propertyNames.

Definition reference_of (propertyName : string) (ref : option SecretKeySelector) : list CatalogSecretReference :=
  match ref with Some r => [reference propertyName r] | None => [] end.

Definition password_of (s : option JDBCSpec) : list CatalogSecretReference :=
  reference_of "connection-password" (s ≫= jdbc_ConnectionPasswordSecret).

Definition extractSecretReferencesFromConnector : list CatalogSecretReference :=
  let connector := cat_Connector catalog in
  genericPropertySecretReferences ++
  reference_of "s3.aws-access-key" (c_Hive connector ≫= hv_S3AccessKeySecret) ++
  reference_of "s3.aws-secret-key" (c_Hive connector ≫= hv_S3SecretKeySecret) ++
  password_of (c_Postgres connector) ++ password_of (c_MySQL connector) ++ password_of (c_ClickHouse connector) ++
  password_of (c_Exasol connector) ++ password_of (c_Ignite connector) ++ password_of (c_MariaDB connector) ++
  password_of (c_Oracle connector) ++ password_of (c_Redshift connector) ++ password_of (c_SingleStore connector) ++
  password_of (c_SQLServer connector) ++ password_of (c_Vertica connector) ++
  reference_of "connection-password" (c_Snowflake connector ≫= sf_PasswordSecret).
End references.

(** [corev1.EnvVar] with a value from a Secret. *)
Record EnvVar := mkEnvVar { ev_Name : string; ev_SecretKeyRef : SecretKeySelector }.

Definition catalog_name (catalog : XTrinodeCatalog) : string := TrimPrefix (cat_Name catalog) CatalogConfigMapPrefix.

Definition secret_env (catalogs : list XTrinodeCatalog) : list EnvVar :=
  (fun ref => mkEnvVar (sr_EnvVarName ref) (sr_SecretKeySelector ref)) <$>
  (catalogs ≫= fun catalog => extractSecretReferencesFromConnector catalog (catalog_name catalog)).

(** ** Catalogs of a runtime *)

Section selection.
Context {E W : Type} `{!World E W, KubeErrors E, !ErrorKinds E}.
(** [metav1.LabelSelectorAsSelector]: whether a selector is valid and matches,
    and what is wrong with it. *)
Context (selector_Matches : LabelSelector -> gmap string string -> option bool) (selector_error : LabelSelector -> E).

Definition catalogSelectionLabels (catalog : XTrinodeCatalog) : gmap string string := cat_Labels catalog.

Definition listSelectedCatalogs (namespace : string) (selector : LabelSelector) : M W (result E (list XTrinodeCatalog)) :=
  listed ← perform (ListXTrinodeCatalogs namespace);
  mret match listed with
       | Err e => Err (Errorf "failed to list XTrinodeCatalogs: " e)
       | Ok items => Ok (filter (fun c => selector_Matches selector (catalogSelectionLabels c) = Some true) items)
       end.

(** The catalogs a selector picks; none without a selector. *)
Definition selected_catalogs (x : XTrinode) : M W (result E (list XTrinodeCatalog)) :=
  match spec_CatalogSelector (xt_Spec x) with
  | None => mret (Ok [])
  | Some selector =>
      match selector_Matches selector ∅ with
      | None => mret (Err (Errorf "invalid CatalogSelector: " (selector_error selector)))
      | Some _ => listSelectedCatalogs (xt_Namespace x) selector
      end
  end.

Definition GetEffectiveCatalogs (x : XTrinode) : M W (result E (list string)) :=
  selected ← selected_catalogs x;
  mret match selected with
       | Err e => Err e
       | Ok catalogs => Ok (SortStrings (catalog_name <$> catalogs))
       end.

Definition ExtractCatalogSecretReferences (x : XTrinode) : M W (result E (list EnvVar)) :=
  selected ← selected_catalogs x;
  mret match selected with
       | Err e => Err e
       | Ok catalogs => Ok (secret_env catalogs)
       end.

(** A missing ConfigMap is only logged. *)
Fixpoint check_config_maps (namespace : string) (catalogs : list string) : M W (option E) :=
  match catalogs with
  | [] => mret None
  | catalogName :: catalogs =>
      let configMapName := CatalogConfigMapPrefix +:+ catalogName in
      err ← perform (GetConfigMap namespace configMapName);
      match err with
      | Some e =>
          if IsNotFound e then check_config_maps namespace catalogs
          else mret (Some (Errorf ("failed to check catalog ConfigMap " +:+ configMapName +:+ ": ") e))
      | None => check_config_maps namespace catalogs
      end
  end.

Definition ValidateCatalogConfigMaps (x : XTrinode) (catalogs : list string) : M W (option E) :=
  check_config_maps (xt_Namespace x) catalogs.

Definition discovered (c : ConfigMapObject) : option string :=
  if HasPrefix (co_Name c) CatalogConfigMapPrefix then
    let catalogName := TrimPrefix (co_Name c) CatalogConfigMapPrefix in
    if bool_decide (is_Some (co_Data c !! (catalogName +:+ ".properties"))) then Some catalogName else None
  else None.

Definition DiscoverCatalogsFromConfigMaps (namespace : string) : M W (result E (list string)) :=
  listed ← perform (ListConfigMaps namespace);
  mret match listed with
       | Err e => Err (Errorf ("failed to list ConfigMaps in namespace " +:+ namespace +:+ ": ") e)
       | Ok items => Ok (SortStrings (omap discovered items))
       end.
End selection.
