(* ===== verification/Readiness.v ===== *)
(** * Readiness of a runtime
    ([controllers/runtime_readiness.go], [xtrinode_gateway_keda.go],
    [xtrinode_catalog_resources.go])

    Whether the coordinator and the workers a runtime asks for are up, what keeps
    its pods from running, and the parts of the reconcile loop that apply
    resources, configure KEDA and publish the route. *)

From S2P Require Import Prelude GoStrings GoTime GoParse XTrinodeTypes RuntimeShape DataSize ControlEndpoint Status Retry World Shutdown Operator Scheduling Guardrails NodePool Suspend Resume CatalogTypes Catalogs.

Definition ConditionTypeSchedulingReady : string := "SchedulingReady".
Definition ConditionTypePlacementReady : string := "PlacementReady".
Definition ConditionTypeTaintsReady : string := "TaintsReady".
Definition ConditionTypeQuotaReady : string := "QuotaReady".
Definition ConditionTypeCapacityReady : string := "CapacityReady".
Definition ConditionTypeTrinoResourcesReady : string := "TrinoResourcesReady".
Definition ConditionReasonResourceBuildFailed : string := "ResourceBuildFailed".
Definition ConditionReasonResourceApplyFailed : string := "ResourceApplyFailed".
Definition AppComponentLabel : string := "app.kubernetes.io/component".
Definition RuntimeReadinessRequeueInterval : Duration := 5 * Second.

(** ** Deployments and endpoints *)

Definition deploymentCondition (d : Deployment) (conditionType : string) : option DeploymentCondition :=
  find_first (fun c => dc_Type c ≡? conditionType) (dp_Conditions d).

(** Why a rollout is not ready: a reason and a message. *)
Definition deploymentRolloutReady (d : Deployment) (component : string) (requiredUpdatedReplicas : Z) :
    option (string * string) :=
  if dp_ObservedGeneration d <? dp_Generation d then
    Some (component +:+ "RolloutPending", component +:+ " deployment rollout is pending: observedGeneration=" +:+
      fmt_d (dp_ObservedGeneration d) +:+ " generation=" +:+ fmt_d (dp_Generation d))
  else
  let failed := match deploymentCondition d "Progressing" with
                | Some c => if dc_Status c ≡? ConditionFalse then Some c else None
                | None => None
                end in
  match failed with
  | Some c =>
      Some (component +:+ "RolloutFailed", component +:+ " deployment rollout failed: reason=" +:+ dc_Reason c +:+
        " message=" +:+ dc_Message c)
  | None =>
      if (0 <? requiredUpdatedReplicas) && (dp_UpdatedReplicas d <? requiredUpdatedReplicas) then
        Some (component +:+ "RolloutPending", component +:+ " deployment current revision is not ready: updatedReplicas=" +:+
          fmt_d (dp_UpdatedReplicas d) +:+ " required=" +:+ fmt_d requiredUpdatedReplicas)
      else None
  end.

Definition endpointSliceHasHTTPPort (s : EndpointSlice) : bool :=
  is_empty (es_Ports s) ||
  existsb (fun '(name, port) => bool_decide (name = Some "http") || bool_decide (port = Some TrinoPortHTTP)) (es_Ports s).

Definition endpointSliceEndpointReady (e : Endpoint) : bool :=
  if is_empty (ep_Addresses e) then false else default true (ep_Ready e).

Record trinoRuntimeReadiness := mkReadiness {
  rr_Ready : bool;
  rr_Reason : string;
  rr_Message : string;
  rr_CoordinatorReadyReplicas : Z;
  rr_WorkerReadyReplicas : Z;
  rr_RequiredWorkers : Z
}.

Definition runtimeNotReady (reason message : string) : trinoRuntimeReadiness := mkReadiness false reason message 0 0 0.

Definition set_CurrentRevision (rev : string) : XTrinode -> XTrinode := update_status (fun st =>
  mkStatus (st_Phase st) (st_CoordinatorURL st) (st_Workers st) (st_LastActivity st) rev
    (st_ObservedGeneration st) (st_BaseRevision st) (st_CoordinatorRolloutHash st) (st_WorkerRolloutHash st)
    (st_ObservedCatalogs st) (st_ObservedCatalogDigest st) (st_ObservedAccessControlDigest st)
    (st_ObservedSessionPropsDigest st) (st_ObservedRuntimeShape st) (st_Wake st) (st_Conditions st)).

Definition set_RolloutHashes (coordinator worker : option string) : XTrinode -> XTrinode := update_status (fun st =>
  mkStatus (st_Phase st) (st_CoordinatorURL st) (st_Workers st) (st_LastActivity st) (st_CurrentRevision st)
    (st_ObservedGeneration st) (st_BaseRevision st) (default (st_CoordinatorRolloutHash st) coordinator)
    (default (st_WorkerRolloutHash st) worker)
    (st_ObservedCatalogs st) (st_ObservedCatalogDigest st) (st_ObservedAccessControlDigest st)
    (st_ObservedSessionPropsDigest st) (st_ObservedRuntimeShape st) (st_Wake st) (st_Conditions st)).

Definition set_ObservedCatalogs (catalogs : option (list string)) : XTrinode -> XTrinode := update_status (fun st =>
  mkStatus (st_Phase st) (st_CoordinatorURL st) (st_Workers st) (st_LastActivity st) (st_CurrentRevision st)
    (st_ObservedGeneration st) (st_BaseRevision st) (st_CoordinatorRolloutHash st) (st_WorkerRolloutHash st)
    catalogs (st_ObservedCatalogDigest st) (st_ObservedAccessControlDigest st)
    (st_ObservedSessionPropsDigest st) (st_ObservedRuntimeShape st) (st_Wake st) (st_Conditions st)).

Definition trinoResourcesAppliedMessage (x : XTrinode) : string :=
  match spec_NodePool (xt_Spec x) with
  | Some np =>
      if negb (np_ClusterName np ≡? "") then
        "Trino resources applied in operator cluster namespace " +:+ quoted (xt_Namespace x) +:+
        "; spec.nodePool provisions capacity for CAPI cluster " +:+ quoted (np_ClusterName np) +:+
        " and does not move runtime resources cross-cluster"
      else "Trino resources applied successfully"
  | None => "Trino resources applied successfully"
  end.

Section readiness.
Context {E W : Type} `{!World E W, KubeErrors E, !ErrorKinds E, WaitBackoff E}.
Context `{QuantityParser} `{QuantityArith}.
Context (hash16 : hash_input -> string) (shape_error_text : shape_error -> string).
Context (ToleratesTaint : Toleration -> NodeTaint -> bool)
  (selector_Matches : LabelSelector -> gmap string string -> option bool) (selector_error : LabelSelector -> E).

(** ** Workers a runtime needs *)

(** Without a wake window. *)
Definition standing_workers (x : XTrinode) (worker : option Deployment) : Z :=
  let unset :=
    if controllers_isKEDAEnabled x then 0 else
    match nativeHPARequiredWorkers x with
    | Some floor => floor
    | None => Z.max 0 (default 0 (worker ≫= dp_SpecReplicas))
    end in
  match spec_MinWorkers (xt_Spec x) with
  | Some n => if 0 <? n then n else unset
  | None => unset
  end.

Definition requiredReadyWorkers (x : XTrinode) (worker : option Deployment) : M W Z :=
  match st_Wake (xt_Status x) with
  | None => mret (standing_workers x worker)
  | Some wake =>
      now ← perform Now;
      mret (if time_before now (wake_ExpiresAt wake) && (0 <? wake_MinWorkers wake)
            then wake_MinWorkers wake else standing_workers x worker)
  end.

Definition serviceHasReadyEndpoints (namespace name : string) : M W (result E bool) :=
  slices ← perform (ListEndpointSlices namespace name);
  mret match slices with
       | Err e => Err e
       | Ok l => Ok (existsb (fun s => endpointSliceHasHTTPPort s && existsb endpointSliceEndpointReady (es_Endpoints s)) l)
       end.

(** The workers, once the coordinator is up. *)
Definition check_workers (x : XTrinode) (coordinatorReady : Z) : M W (result E trinoRuntimeReadiness) :=
  worker ← perform (GetDeployment (xt_Namespace x) (BuildWorkerDeploymentName (xt_Name x)));
  match worker with
  | Err e =>
      if IsNotFound e then
        required ← requiredReadyWorkers x None;
        mret (Ok (if 0 <? required
          then mkReadiness false "WorkerDeploymentMissing" ("Worker deployment does not exist but " +:+ fmt_d required +:+
                 " ready worker(s) are required") coordinatorReady 0 required
          else mkReadiness true ConditionReasonRuntimeReady
                 "Coordinator deployment and service endpoints are ready; no workers are required" coordinatorReady 0 required))
      else mret (Err (Errorf "failed to get worker deployment: " e))
  | Ok w =>
      required ← requiredReadyWorkers x (Some w);
      let answer ready reason message := mkReadiness ready reason message coordinatorReady (dp_ReadyReplicas w) required in
      let up := answer true ConditionReasonRuntimeReady ("Coordinator is ready with service endpoints; workers ready=" +:+
                  fmt_d (dp_ReadyReplicas w) +:+ " required=" +:+ fmt_d required) in
      mret (Ok (if 0 <? required then
        match deploymentRolloutReady w "Worker" required with
        | Some (reason, message) => answer false reason message
        | None =>
            if (dp_ReadyReplicas w <? required) || (dp_AvailableReplicas w <? required)
            then answer false "WorkerDeploymentNotReady" ("Worker deployment is below the required floor: readyReplicas=" +:+
                   fmt_d (dp_ReadyReplicas w) +:+ " availableReplicas=" +:+ fmt_d (dp_AvailableReplicas w) +:+ " required=" +:+ fmt_d required)
            else up
        end
      else up))
  end.

Definition checkTrinoRuntimeReady (x : XTrinode) : M W (result E trinoRuntimeReadiness) :=
  coordinator ← perform (GetDeployment (xt_Namespace x) (BuildCoordinatorDeploymentName (xt_Name x)));
  match coordinator with
  | Err e =>
      if IsNotFound e then mret (Ok (runtimeNotReady "CoordinatorDeploymentMissing" "Coordinator deployment does not exist yet"))
      else mret (Err (Errorf "failed to get coordinator deployment: " e))
  | Ok d =>
      let down reason message := mkReadiness false reason message (dp_ReadyReplicas d) 0 0 in
      match deploymentRolloutReady d "Coordinator" 1 with
      | Some (reason, message) => mret (Ok (down reason message))
      | None =>
          if (dp_ReadyReplicas d <? 1) || (dp_AvailableReplicas d <? 1) then
            mret (Ok (down "CoordinatorDeploymentNotReady" ("Coordinator deployment is not ready: readyReplicas=" +:+
              fmt_d (dp_ReadyReplicas d) +:+ " availableReplicas=" +:+ fmt_d (dp_AvailableReplicas d))))
          else
          endpointsReady ← serviceHasReadyEndpoints (xt_Namespace x) (BuildCoordinatorServiceName (xt_Name x));
          match endpointsReady with
          | Err e => mret (Err (Errorf "failed to check coordinator service endpoints: " e))
          | Ok false => mret (Ok (down "CoordinatorEndpointsNotReady" "Coordinator service has no ready HTTP endpoints"))
          | Ok true => check_workers x (dp_ReadyReplicas d)
          end
      end
  end.

(** ** Scheduling conditions *)

(** The five conditions, each with its status, reason and message. *)
Fixpoint set_conditions (l : list (string * ConditionStatus * string * string)) (x : XTrinode) : M W XTrinode :=
  match l with
  | [] => mret x
  | (t, s, reason, message) :: l => x ← setCondition t s reason message x; set_conditions l x
  end.

Definition ready_text (t : string) : string :=
  if t ≡? ConditionTypeSchedulingReady then "Runtime pods are scheduled or no scheduling blockers are currently reported" else
  if t ≡? ConditionTypePlacementReady then "No placement selector blockers are currently reported" else
  if t ≡? ConditionTypeTaintsReady then "No taint or toleration blockers are currently reported" else
  if t ≡? ConditionTypeQuotaReady then "No namespace quota blockers are currently reported"
  else "No node capacity blockers are currently reported".

Definition scheduling_types : list string :=
  [ConditionTypeSchedulingReady; ConditionTypePlacementReady; ConditionTypeTaintsReady; ConditionTypeQuotaReady;
   ConditionTypeCapacityReady].

Definition setSchedulingReadyConditions : XTrinode -> M W XTrinode :=
  set_conditions ((fun t => (t, ConditionTrue, t, ready_text t)) <$> scheduling_types).

Definition setSchedulingUnknownConditions (message : string) : XTrinode -> M W XTrinode :=
  set_conditions
    [(ConditionTypeSchedulingReady, ConditionUnknown, "SchedulingUnknown", message);
     (ConditionTypePlacementReady, ConditionUnknown, "PlacementUnknown", message);
     (ConditionTypeTaintsReady, ConditionUnknown, "TaintsUnknown", message);
     (ConditionTypeQuotaReady, ConditionUnknown, "QuotaUnknown", message);
     (ConditionTypeCapacityReady, ConditionUnknown, "CapacityUnknown", message)].

Definition setSchedulingCategoryCondition (t blockedReason : string) (blockers : list string) :
    string * ConditionStatus * string * string :=
  if is_empty blockers then (t, ConditionTrue, t, ready_text t)
  else (t, ConditionFalse, blockedReason, Join "; " blockers).

Definition setSchedulingBlockedConditions (b : schedulingBlockerSet) : XTrinode -> M W XTrinode :=
  set_conditions
    [(ConditionTypeSchedulingReady, ConditionFalse, "SchedulingBlocked", Join "; " (sb_all b));
     setSchedulingCategoryCondition ConditionTypePlacementReady "PlacementBlocked" (sb_placement b);
     setSchedulingCategoryCondition ConditionTypeTaintsReady "TaintsBlocked" (sb_taints b);
     setSchedulingCategoryCondition ConditionTypeQuotaReady "QuotaBlocked" (sb_quota b);
     setSchedulingCategoryCondition ConditionTypeCapacityReady "CapacityBlocked" (sb_capacity b)].

Definition or_else (s fallback : string) : string := if s ≡? "" then fallback else s.

(** What one object reports: its conditions of the given type and status. *)
Definition report_conditions (kind fallbackReason fallbackMessage conditionType : string) (status : ConditionStatus)
    (component name : string) (conditions : list DeploymentCondition) (b : schedulingBlockerSet) : schedulingBlockerSet :=
  fold_left (fun b c =>
    if negb (dc_Type c ≡? conditionType) || negb (dc_Status c ≡? status) then b else
    let reason := or_else (TrimSpace (dc_Reason c)) fallbackReason in
    let message := or_else (TrimSpace (dc_Message c)) fallbackMessage in
    blockers_add reason message (or_else component "runtime" +:+ " " +:+ kind +:+ " " +:+ name +:+ ": " +:+ reason +:+
      ": " +:+ message) b) conditions b.

Definition pod_blockers (pods : list Pod) (b : schedulingBlockerSet) : schedulingBlockerSet :=
  fold_left (fun b p => report_conditions "pod" "PodNotScheduled" "pod is not scheduled" "PodScheduled" ConditionFalse
    (default "" (pod_Labels p !! AppComponentLabel)) (pod_Name p) (pod_Conditions p) b) pods b.

Definition deployment_blockers (ds : list Deployment) (b : schedulingBlockerSet) : schedulingBlockerSet :=
  fold_left (fun b d => report_conditions "deployment" "ReplicaFailure" "deployment cannot create runtime pods"
    "ReplicaFailure" ConditionTrue (default "" (dp_Labels d !! AppComponentLabel)) (dp_Name d) (dp_Conditions d) b) ds b.

Definition syncSchedulingCondition (x : XTrinode) : M W XTrinode :=
  pods ← perform (ListPods (xt_Namespace x) (xt_Name x) "");
  match pods with
  | Err e => setSchedulingUnknownConditions ("Failed to inspect runtime pod scheduling: " +:+ error_text e) x
  | Ok pods =>
      deployments ← perform (ListDeployments (xt_Namespace x) (xt_Name x) "");
      match deployments with
      | Err e => setSchedulingUnknownConditions ("Failed to inspect runtime deployment scheduling: " +:+ error_text e) x
      | Ok ds =>
          let blockers := deployment_blockers ds (pod_blockers pods no_blockers) in
          blockers ← addClusterSchedulingDiagnostics ToleratesTaint selector_Matches pods blockers;
          if hasAny blockers then setSchedulingBlockedConditions blockers x else setSchedulingReadyConditions x
      end
  end.

(** ** The route *)

Definition reconcileGateway (x : XTrinode) : M W (option E * XTrinode) :=
  err ← registerGatewayRoute x;
  match err with
  | Some e =>
      x ← setCondition ConditionTypeGatewayReady ConditionFalse ConditionReasonGatewayFailed ("Failed: " +:+ error_text e) x;
      '(_, x) ← setXTrinodeErrorStatusAndUpdate ConditionReasonGatewayFailed
                  ("Failed to register gateway route: " +:+ error_text e) x;
      mret (Some e, x)
  | None =>
      x ← setCondition ConditionTypeGatewayReady ConditionTrue "GatewayRegistered" "Gateway route registered successfully" x;
      let routingGroup := from_option (fun r => or_else (rs_RoutingGroup r) "default") "default" (spec_Routing (xt_Spec x)) in
      _ ← recordEvent (Normal "GatewayRouteRegistered" ("Gateway route registered for routing group " +:+ routingGroup));
      mret (None, x)
  end.

Definition syncPendingGatewayRoute (readiness : trinoRuntimeReadiness) (x : XTrinode) : M W (option E * XTrinode) :=
  err ← registerGatewayRoute x;
  match err with
  | Some e =>
      x ← setCondition ConditionTypeGatewayReady ConditionFalse ConditionReasonGatewayFailed ("Failed: " +:+ error_text e) x;
      '(_, x) ← setXTrinodeErrorStatusAndUpdate ConditionReasonGatewayFailed
                  ("Failed to register pending gateway route: " +:+ error_text e) x;
      mret (Some e, x)
  | None =>
      x ← setCondition ConditionTypeGatewayReady ConditionFalse ConditionReasonRuntimeNotReady
            ("Gateway route held in RESUMING until Trino runtime is ready: " +:+ rr_Message readiness) x;
      mret (None, x)
  end.

(** The route is published for a copy of the object in phase Ready; only the
    copy's gateway condition comes back. *)
Definition reconcileReadyGatewayRoute (x : XTrinode) : M W (option E * XTrinode) :=
  '(err, readyForRoute) ← reconcileGateway (set_Phase PhaseReady x);
  match err with
  | Some e => mret (Some e, x)
  | None =>
      match GetCondition readyForRoute ConditionTypeGatewayReady with
      | Some c => x ← setCondition (cond_Type c) (cond_Status c) (cond_Reason c) (cond_Message c) x; mret (None, x)
      | None => mret (None, x)
      end
  end.

Definition markRuntimeNotReady (readiness : trinoRuntimeReadiness) (x : XTrinode) : M W (option E * XTrinode) :=
  let x := XTrinodeTypes.set_Workers (rr_WorkerReadyReplicas readiness) (set_CoordinatorURL (CoordinatorURL x) x) in
  x ← setConditionWithEvents ConditionTypeReady ConditionFalse ConditionReasonRuntimeNotReady (rr_Message readiness) x;
  x ← setCondition ConditionTypeReconciling ConditionTrue ConditionReasonReconciling "Waiting for Trino runtime readiness" x;
  x ← setConditionWithEvents ConditionTypeSuspended ConditionFalse ConditionReasonNotSuspended "XTrinode is not suspended" x;
  x ← setConditionWithEvents ConditionTypeError ConditionFalse ConditionReasonNoError "No errors" x;
  err ← updateStatus x;
  mret (err, x).

(** An invalid transition is only logged. *)
Definition transitionToReady (oldPhase : string) (x : XTrinode) : M W (option E * XTrinode) :=
  let x := set_Phase PhaseReady x in
  let x := set_CoordinatorURL (CoordinatorURL x) x in
  worker ← perform (GetDeployment (xt_Namespace x) (BuildWorkerDeploymentName (xt_Name x)));
  let workers := match worker with
                 | Ok w => if 0 <? dp_ReadyReplicas w then dp_ReadyReplicas w else dp_Replicas w
                 | Err _ => 0
                 end in
  let x := XTrinodeTypes.set_Workers workers x in
  x ← setConditionWithEvents ConditionTypeReady ConditionTrue ConditionReasonAllComponentsReady "All components ready" x;
  x ← setSchedulingReadyConditions x;
  x ← setCondition ConditionTypeReconciling ConditionFalse ConditionReasonReconciling "Reconciliation complete" x;
  x ← setConditionWithEvents ConditionTypeSuspended ConditionFalse ConditionReasonNotSuspended "XTrinode is not suspended" x;
  x ← setConditionWithEvents ConditionTypeError ConditionFalse ConditionReasonNoError "No errors" x;
  err ← updateStatus x;
  match err with
  | Some e => mret (Some e, x)
  | None =>
      _ ← (if oldPhase ≡? PhaseReady then mret tt
           else recordEvent (Normal "PhaseChanged" ("Phase changed from " +:+ oldPhase +:+ " to Ready")));
      _ ← recordEvent (Normal "ReconcileComplete" "Reconciliation completed successfully");
      mret (None, x)
  end.

(** ** KEDA *)

(** An unknown kind ([meta.IsNoMatchError]) is recognised by the library; the
    rest by the text. *)
Context (IsNoMatchError : E -> bool).

Definition isKEDAPlatformUnavailableError (e : E) : bool :=
  IsNoMatchError e ||
  let message := ToLower (error_text e) in
  Contains message "no matches for kind" || Contains message "the server could not find the requested resource" ||
  (Contains message "scaledobjects" && Contains message "not found").

(** The API server's answer for a ScaledObject that does not exist yet counts as
    a missing platform. *)
Lemma missing_object_reads_as_missing_platform (e : E) :
  error_text e = "scaledobjects.keda.sh " +:+ quoted "x-trino-worker" +:+ " not found" -> isKEDAPlatformUnavailableError e = true.
Proof. intros Ht. unfold isKEDAPlatformUnavailableError. rewrite Ht. by destruct (IsNoMatchError e). Qed.

Definition keda_failed (reason conditionMessage message : string) (e : E) (x : XTrinode) : M W (option E * XTrinode) :=
  x ← setCondition ConditionTypeKEDAReady ConditionFalse reason conditionMessage x;
  '(_, x) ← setXTrinodeErrorStatusAndUpdate reason message x;
  mret (Some e, x).

Definition configure_keda (scaledObjectExists : bool) (x : XTrinode) : M W (option E * XTrinode) :=
  wakeMinWorkers ← match st_Wake (xt_Status x) with
                   | Some wake => now ← perform Now;
                       mret (if time_before now (wake_ExpiresAt wake) then wake_MinWorkers wake else 0)
                   | None => mret 0
                   end;
  err ← CallWithTimeout (if 0 <? wakeMinWorkers then perform (EnableScaledObjectWithWakeMinWorkers x wakeMinWorkers)
                         else perform (EnsureScaledObject x));
  match err with
  | Some e => keda_failed ConditionReasonKEDAScaleFailed ("Failed: " +:+ error_text e)
                ("Failed to ensure KEDA ScaledObject: " +:+ error_text e) e x
  | None =>
      x ← setCondition ConditionTypeKEDAReady ConditionTrue "KEDAConfigured" "KEDA ScaledObject configured successfully" x;
      _ ← recordEvent (if scaledObjectExists then Normal "KEDAUpdated" "KEDA ScaledObject updated"
                       else Normal "KEDACreated" "KEDA ScaledObject created for autoscaling");
      mret (None, x)
  end.

Definition reconcileKEDA (x : XTrinode) : M W (option E * XTrinode) :=
  if negb (controllers_isKEDAEnabled x) then mret (None, x) else
  existing ← perform (GetScaledObject (xt_Namespace x) (BuildScaledObjectName (xt_Name x)));
  match existing with
  | Some e =>
      if isKEDAPlatformUnavailableError e then
        let message := "runtime KEDA is active, but the KEDA ScaledObject API is unavailable: " +:+ error_text e in
        keda_failed ConditionReasonKEDAPlatformMissing message message (errors_New message) x
      else if negb (IsNotFound e) then mret (Some (Errorf "failed to check ScaledObject existence: " e), x)
      else configure_keda false x
  | None => configure_keda true x
  end.

(** ** Catalogs and resources *)

(** Discovery failures fall back to the catalogs seen last; neither they nor
    failed validation stop the pass. *)
Definition reconcileCatalogs (x : XTrinode) : M W (list string) :=
  found ← GetEffectiveCatalogs selector_Matches selector_error x;
  catalogs ← match found with
             | Err e =>
                 _ ← recordEvent (Warning "CatalogSyncFailed" ("Failed to discover catalogs: " +:+ error_text e));
                 mret (default [] (st_ObservedCatalogs (xt_Status x)))
             | Ok l =>
                 _ ← (if is_empty l then mret tt
                      else recordEvent (Normal "CatalogsDiscovered" ("Discovered " +:+ fmt_d (Z.of_nat (length l)) +:+
                             " catalog(s): " +:+ Join ", " l)));
                 mret l
             end;
  err ← ValidateCatalogConfigMaps x catalogs;
  _ ← match err with
      | Some e => recordEvent (Warning "CatalogSyncFailed" ("Failed to validate catalog ConfigMaps: " +:+ error_text e))
      | None => mret tt
      end;
  mret catalogs.

Definition reconcileTrinoResources (catalogs : list string) (x : XTrinode) : M W (option E * XTrinode) :=
  built ← perform (BuildTrinoResourceSet x catalogs);
  match built with
  | Err e =>
      '(_, x) ← setXTrinodeErrorStatusAndUpdate ConditionReasonResourceBuildFailed "failed to build service" x;
      mret (Some e, x)
  | Ok resourceSet =>
      err ← perform (ApplyTrinoResources x resourceSet);
      match err with
      | Some e =>
          x ← setCondition ConditionTypeTrinoResourcesReady ConditionFalse ConditionReasonResourceApplyFailed
                ("Failed: " +:+ error_text e) x;
          '(_, x) ← setXTrinodeErrorStatusAndUpdate ConditionReasonResourceApplyFailed
                      "failed to apply coordinator deployment" x;
          mret (Some e, x)
      | None =>
          x ← setCondition ConditionTypeTrinoResourcesReady ConditionTrue "ResourcesApplied" (trinoResourcesAppliedMessage x) x;
          let '(err, x) := setObservedRuntimeShapeStatus hash16 shape_error_text x in
          match err with
          | Some e => mret (Some (Errorf "failed to resolve observed runtime shape: " e), x)
          | None =>
              currentRevision ← perform (GetXTrinodeRevision x catalogs);
              let x := set_ObservedGeneration (xt_Generation x) (set_CurrentRevision currentRevision x) in
              let x := set_RolloutHashes (trs_CoordinatorRolloutHash resourceSet) (trs_WorkerRolloutHash resourceSet) x in
              mret (None, set_ObservedCatalogs (Some catalogs) x)
          end
      end
  end.
End readiness.
