(* ===== verification/Reconcile.v ===== *)
(** * The reconcile loop
    ([controllers/xtrinode_controller.go], [xtrinode_reconciliation_steps.go])

    One pass over a runtime: deletion, commands, a removed node pool, suspend or
    resume, and then the pipeline of steps that ends with the runtime in phase
    Ready.  Metrics are left out. *)

From S2P Require Import Prelude GoStrings GoTime GoParse XTrinodeTypes RuntimeShape DataSize ControlEndpoint Status Retry World Shutdown Operator Scheduling Guardrails NodePool Suspend Finalizer Autosuspend Commands Resume CatalogTypes Catalogs Readiness.

Section reconcile.
Context {E W : Type} `{!World E W, KubeErrors E, !ErrorKinds E, WaitBackoff E}.
Context `{QuantityParser} `{QuantityArith}.
Context (hash16 : hash_input -> string) (shape_error_text : shape_error -> string).
Context (ToleratesTaint : Toleration -> NodeTaint -> bool)
  (selector_Matches : LabelSelector -> gmap string string -> option bool) (selector_error : LabelSelector -> E).
Context (IsNoMatchError : E -> bool) (GetScaledValue : IntOrString -> Z -> option Z).
Context (Getenv : string -> string) (decodeQueries : string -> result E (list (list (string * json))))
  (metric_samples : string -> string -> list float64) (time_Parse : string -> string -> option Time).
Context (command_error_text : command_error -> string).
(** The reconciler's settings. *)
Context (settings : GuardrailSettings) (DrainDuration DrainRequeueInterval : Duration).

(** ** Steps *)

(** What a step returns: the requeue delay, whether to go on, an error, the
    object and the catalogs the steps share. *)
Record outcome := mkOutcome {
  o_RequeueAfter : Duration;
  o_continue : bool;
  o_err : option E;
  o_object : XTrinode;
  o_catalogs : list string
}.

Definition proceed (x : XTrinode) (catalogs : list string) : outcome := mkOutcome 0 true None x catalogs.
Definition stop (requeue : Duration) (err : option E) (x : XTrinode) (catalogs : list string) : outcome :=
  mkOutcome requeue false err x catalogs.

Definition long_wait : Duration := 60 * Second.

Definition step_fn : Type := XTrinode -> list string -> M W outcome.

Definition reconcileCatalogsStep : step_fn := fun x _ =>
  catalogs ← reconcileCatalogs selector_Matches selector_error x; mret (proceed x catalogs).

Definition reconcileNamespaceGuardrailsStep : step_fn := fun x catalogs =>
  '(err, x) ← ensureNamespaceGuardrails GetScaledValue hash16 shape_error_text settings x;
  match err with
  | Some e =>
      _ ← recordEvent (Warning "StepFailed" ("Namespace guardrails failed: " +:+ error_text e));
      '(_, x) ← setXTrinodeErrorStatusAndUpdate "NamespaceGuardrailsFailed"
                  ("Failed to ensure namespace guardrails: " +:+ error_text e) x;
      mret (stop long_wait (Some e) x catalogs)
  | None => mret (proceed x catalogs)
  end.

Definition reconcileTrinoResourcesStep : step_fn := fun x catalogs =>
  '(err, x) ← reconcileTrinoResources hash16 shape_error_text catalogs x;
  match err with
  | Some e =>
      _ ← recordEvent (Warning "ResourceApplyFailed" ("Failed to apply Trino resources: " +:+ error_text e));
      mret (stop long_wait (Some e) x catalogs)
  | None => mret (proceed x catalogs)
  end.

Definition reconcileNodePoolStep : step_fn := fun x catalogs =>
  match spec_NodePool (xt_Spec x) with
  | None => mret (proceed x catalogs)
  | Some _ =>
      '(requeue, err, x) ← reconcileNodePoolBlocking hash16 shape_error_text Getenv x;
      match err with
      | Some e =>
          _ ← recordEvent (Warning "StepFailed" ("Node pool provisioning failed: " +:+ error_text e));
          mret (stop requeue (Some e) x catalogs)
      | None =>
          if 0 <? requeue then
            _ ← recordEvent (Normal "NodePoolProvisioning" ("Node pool provisioning in progress, requeue in " +:+
                  duration_String requeue));
            err ← updateStatus x;
            match err with
            | Some e => mret (stop 0 (Some e) x catalogs)
            | None => mret (stop requeue None x catalogs)
            end
          else mret (proceed x catalogs)
      end
  end.

Definition reconcileKEDAStep : step_fn := fun x catalogs =>
  if negb (controllers_isKEDAEnabled x) then
    let message := if isNativeHPAEnabled x then "KEDA disabled; native HPA worker autoscaling is configured"
                   else "KEDA disabled; fixed worker replicas are used" in
    _ ← perform (DeleteScaledObject x);
    x ← setCondition ConditionTypeKEDAReady ConditionFalse "KEDADisabled" message x;
    mret (proceed x catalogs)
  else
  '(err, x) ← reconcileKEDA IsNoMatchError x;
  match err with
  | Some e =>
      _ ← recordEvent (Warning "KEDAError" ("KEDA operation failed: " +:+ error_text e));
      mret (stop long_wait (Some e) x catalogs)
  | None => mret (proceed x catalogs)
  end.

Definition waitForRuntimeReadyStep : step_fn := fun x catalogs =>
  checked ← checkTrinoRuntimeReady x;
  match checked with
  | Err e =>
      _ ← recordEvent (Warning "StepFailed" ("Runtime readiness check failed: " +:+ error_text e));
      mret (stop RuntimeReadinessRequeueInterval (Some e) x catalogs)
  | Ok readiness =>
      x ← syncSchedulingCondition ToleratesTaint selector_Matches x;
      if rr_Ready readiness then mret (proceed x catalogs) else
      '(err, x) ← syncPendingGatewayRoute readiness x;
      match err with
      | Some e =>
          _ ← recordEvent (Warning "GatewayError" ("Failed to publish pending gateway route: " +:+ error_text e));
          mret (stop RuntimeReadinessRequeueInterval (Some e) x catalogs)
      | None =>
          '(err, x) ← markRuntimeNotReady readiness x;
          mret (stop RuntimeReadinessRequeueInterval err x catalogs)
      end
  end.

(** A failure to clear an expired window is only logged; the clock is read once
    more for the log. *)
Definition reconcileWakeTTLStep : step_fn := fun x catalogs =>
  match st_Wake (xt_Status x) with
  | None => mret (proceed x catalogs)
  | Some _ =>
      '(_, x) ← reconcileWakeTTL x;
      match st_Wake (xt_Status x) with
      | Some _ => _ ← perform Now; mret (proceed x catalogs)
      | None => mret (proceed x catalogs)
      end
  end.

Definition reconcileAutoSuspend (x : XTrinode) : M W (result E bool * XTrinode) :=
  if bool_decide (is_Some (spec_AutoSuspendAfter (xt_Spec x))) && negb (spec_Suspended (xt_Spec x))
  then AutoSuspendIfNeeded decodeQueries metric_samples time_Parse x
  else mret (Ok false, x).

Definition reconcileAutoSuspendStep : step_fn := fun x catalogs =>
  if bool_decide (spec_AutoSuspendAfter (xt_Spec x) = None) || spec_Suspended (xt_Spec x)
  then mret (proceed x catalogs) else
  '(suspended, x) ← reconcileAutoSuspend x;
  match suspended with
  | Err e =>
      if Contains (error_text e) "failed to request auto-suspend" then
        _ ← recordEvent (Warning "AutoSuspendFailed" ("Failed to set auto-suspend annotation: " +:+ error_text e +:+ " (will retry)"));
        mret (mkOutcome (30 * Second) true None x catalogs)
      else mret (proceed x catalogs)
  | Ok true =>
      _ ← recordEvent (Normal "AutoSuspendTriggered" "Auto-suspend triggered - XTrinode has been idle");
      mret (stop Second None x catalogs)
  | Ok false => mret (proceed x catalogs)
  end.

(** ** The pipeline *)

(** With a node pool the nodes come before the resources. *)
Definition NewReconciliationPipeline (x : XTrinode) : list (string * step_fn) :=
  [("reconcileCatalogs", reconcileCatalogsStep); ("reconcileNamespaceGuardrails", reconcileNamespaceGuardrailsStep)] ++
  (let pool := ("reconcileNodePool", reconcileNodePoolStep) in
   let resources := ("reconcileTrinoResources", reconcileTrinoResourcesStep) in
   if bool_decide (is_Some (spec_NodePool (xt_Spec x))) then [pool; resources] else [resources; pool]) ++
  [("reconcileWakeTTL", reconcileWakeTTLStep); ("reconcileKEDA", reconcileKEDAStep);
   ("waitForRuntimeReady", waitForRuntimeReadyStep); ("reconcileAutoSuspend", reconcileAutoSuspendStep)].

Fixpoint Execute (steps : list (string * step_fn)) (x : XTrinode) (catalogs : list string) : M W step :=
  match steps with
  | [] => mret (0, None, x)
  | (name, execute) :: steps =>
      o ← execute x catalogs;
      match o_err o with
      | Some e =>
          _ ← recordEvent (Warning "ReconcileError" ("Step " +:+ name +:+ " failed: " +:+ error_text e));
          mret (o_RequeueAfter o, Some e, o_object o)
      | None =>
          if negb (o_continue o) || (0 <? o_RequeueAfter o) then mret (o_RequeueAfter o, None, o_object o)
          else Execute steps (o_object o) (o_catalogs o)
      end
  end.

(** ** A pass *)

(** From phase Reconciling to phase Ready. *)
Definition converge (x : XTrinode) : M W step :=
  let oldPhase := st_Phase (xt_Status x) in
  let x := set_Phase PhaseReconciling x in
  x ← setCondition ConditionTypeReconciling ConditionTrue ConditionReasonReconciling "Reconciling XTrinode" x;
  err ← updateStatus x;
  match err with
  | Some e => mret (0, Some e, x)
  | None =>
      _ ← (if negb (oldPhase ≡? PhaseReconciling) && negb (oldPhase ≡? "")
           then recordEvent (Normal "PhaseChanged" ("Phase changed from " +:+ oldPhase +:+ " to Reconciling")) else mret tt);
      '(requeue, err, x) ← Execute (NewReconciliationPipeline x) x [];
      match err with
      | Some e =>
          _ ← recordEvent (Warning "ReconcileError" ("Reconciliation failed: " +:+ error_text e));
          mret (requeue, Some e, x)
      | None =>
          if 0 <? requeue then mret (requeue, None, x) else
          '(err, x) ← reconcileReadyGatewayRoute x;
          match err with
          | Some e => mret (long_wait, Some e, x)
          | None =>
              '(err, x) ← transitionToReady oldPhase x;
              match err with
              | Some e => mret (0, Some e, x)
              | None => requeueAfter ← calculateRequeueInterval x; mret (if 0 <? requeueAfter then requeueAfter else 0, None, x)
              end
          end
      end
  end.

Definition announce_object (x : XTrinode) : M W unit :=
  if (xt_Generation x =? 1) && (st_ObservedGeneration (xt_Status x) =? 0)
  then recordEvent (Normal "Created" ("XTrinode " +:+ xt_Namespace x +:+ "/" +:+ xt_Name x +:+ " created"))
  else if st_ObservedGeneration (xt_Status x) <? xt_Generation x
  then recordEvent (Normal "Updated" ("XTrinode spec updated (generation " +:+ fmt_d (xt_Generation x) +:+ ")"))
  else mret tt.

Definition reconcile_deleted (x : XTrinode) : M W step :=
  _ ← (if default "" (xt_Annotations x !! DrainStartedAtAnnotation) ≡? ""
       then recordEvent (Normal "Deleted" "XTrinode deletion started, finalizing resources") else mret tt);
  finalize decodeQueries GetScaledValue hash16 shape_error_text settings DrainDuration DrainRequeueInterval x.

Definition reconcile_live (x : XTrinode) : M W step :=
  '(requeue, err, x) ← ensureFinalizer x;
  if bool_decide (is_Some err) || (0 <? requeue) then
    _ ← (if bool_decide (err = None) && (0 <? requeue)
         then recordEvent (Normal "FinalizerAdded" "Finalizer added to XTrinode for cleanup coordination") else mret tt);
    mret (requeue, err, x)
  else
  '(commands, x) ← ProcessCommands command_error_text x;
  match commands with
  | Err e => mret (0, Some e, x)
  | Ok (_ :: _) => mret (Second, None, x)
  | Ok [] =>
      '(requeue, err, x) ← reconcileRemovedNodePool hash16 shape_error_text x;
      if bool_decide (is_Some err) || (0 <? requeue) then mret (requeue, err, x) else
      if spec_Suspended (xt_Spec x) then reconcileSuspend hash16 shape_error_text Getenv decodeQueries x else
      '(err, x) ← reconcileResume x;
      match err with
      | Some e => mret (long_wait, Some e, x)
      | None => converge x
      end
  end.

(** The object itself when there is one. *)
Definition reconcile (namespace name : string) : M W (Duration * option E) :=
  got ← perform (GetXTrinode namespace name);
  match got with
  | Err e => mret (if IsNotFound e then (0, None) else (0, Some e))
  | Ok x =>
      _ ← announce_object x;
      '(requeue, err, _) ← (if bool_decide (is_Some (xt_DeletionTimestamp x)) then reconcile_deleted x else reconcile_live x);
      mret (requeue, err)
  end.
End reconcile.
