(* ===== verification/ReconcileSound.v ===== *)
(** * What a reconcile pass guarantees

    Proofs about [Reconcile.v]: the pipeline leaves the Deployments' scale alone
    and stores phase Ready only for a runtime it has seen running and whose
    route it has published. *)

From S2P Require Import Prelude GoStrings GoTime GoParse XTrinodeTypes RuntimeShape DataSize ControlEndpoint Status Retry World Shutdown Operator Scheduling Guardrails NodePool Suspend Finalizer Autosuspend Commands Resume CatalogTypes Catalogs Readiness Reconcile.

Section sound.
Context {E W : Type} `{!World E W, KubeErrors E, !ErrorKinds E, WaitBackoff E}.

(** Scales nothing and stores no status in phase Ready. *)
Definition steady (h : happening E) : Prop :=
  ~ is_scaling h /\ forall y, projT1 h = UpdateXTrinodeStatus y -> st_Phase (xt_Status y) <> PhaseReady.

Lemma noting_steady h : noting h -> steady h.
Proof.
  intros Hn. split; [by apply bookkeeping_not_scaling, noting_bookkeeping|].
  intros y Hy. unfold noting in Hn. by rewrite Hy in Hn.
Qed.

Lemma reporting_steady p h : p <> PhaseReady -> reporting p h -> steady h.
Proof. intros Hp [Hb Hy]. split; [by apply bookkeeping_not_scaling|]. intros y E0. by rewrite (Hy y E0). Qed.

Lemma emits_steady {A} (m : M W A) (R : A -> Prop) : emits noting m R -> emits steady m R.
Proof. intros Hm. eapply emits_weaken; [exact Hm|apply noting_steady|done]. Qed.

(** Same runtime, same phase: only other parts of the status may differ. *)
Definition follows (x y : XTrinode) : Prop := only_status x y /\ st_Phase (xt_Status y) = st_Phase (xt_Status x).

#[export] Instance follows_preorder : PreOrder follows.
Proof.
  split; [by intros x; split; [reflexivity|]|]. intros x y z [Hxy Hp] [Hyz Hq]. split; [by etrans|congruence].
Qed.

Lemma conditions_follow x y : only_conditions x y -> follows x y.
Proof. intros [cs ->]. by split; [eexists|]. Qed.

(** [settles m x]: steady calls, and the object follows [x] unless there is an
    error. *)
Definition settles (m : M W (option E * XTrinode)) (x : XTrinode) : Prop :=
  emits steady m (fun '(err, y) => err = None -> follows x y).

Lemma setCondition_steady t s reason message x :
  emits steady (setCondition t s reason message x) (follows x).
Proof. apply emits_steady. eapply emits_weaken; [apply setCondition_notes|done|]. intros y [Hy _]. by apply conditions_follow. Qed.

Lemma setConditionWithEvents_steady t s reason message x :
  emits steady (setConditionWithEvents t s reason message x) (follows x).
Proof. apply emits_steady. eapply emits_weaken; [apply setConditionWithEvents_notes|done|apply conditions_follow]. Qed.

Lemma updateStatus_steady x : st_Phase (xt_Status x) <> PhaseReady -> emits steady (updateStatus x) (fun _ => True).
Proof. intros Hp. eapply emits_weaken; [apply updateStatus_reports|intros h; by apply reporting_steady|done]. Qed.

Lemma setError_steady reason message x :
  emits steady (setXTrinodeErrorStatusAndUpdate reason message x) (fun _ => True).
Proof.
  unfold setXTrinodeErrorStatusAndUpdate. cbv zeta.
  eapply emits_bind; [apply setConditionWithEvents_steady|]. intros x1 _.
  eapply emits_bind; [apply setConditionWithEvents_steady|]. intros x2 _.
  eapply emits_bind; [apply setCondition_steady|]. intros x3 _.
  eapply emits_bind; [|intros e _; by apply emits_ret].
  apply (updateStatusWithRetry_stores _ (fun y => st_Phase (xt_Status y) = PhaseError)).
  - intros r. by apply noting_steady.
  - intros t. by apply emits_ret.
  - intros y r Hy. split; [by intros []|]. intros z [= <-]. by rewrite Hy.
Qed.

Lemma recordEvent_steady ev : emits steady (recordEvent ev) (fun _ => True).
Proof. refine (emits_perform steady (RecordEvent ev) _). intros r. by apply noting_steady. Qed.

Lemma timeout_steady (m : M W (option E)) :
  emits steady m (fun _ => True) -> emits steady (CallWithTimeout m) (fun _ => True).
Proof. intros Hm. eapply emits_bind; [exact Hm|]. intros err _. by apply emits_ret. Qed.

(** A call that neither scales nor stores a status. *)
Definition plain_call (c : call) : bool :=
  match c with ScaleDeployment _ _ _ | UpdateXTrinodeStatus _ => false | _ => true end.

Lemma plain_steady c r : plain_call c = true -> steady (existT c r : happening E).
Proof. intros Hc. unfold steady, is_scaling. simpl. split; [destruct c; naive_solver|]. intros y ->. done. Qed.

(** Programs whose result does not matter. *)
Definition calm_program {A} (m : M W A) : Prop := emits steady m (fun _ => True).

Lemma calm_perform c : plain_call c = true -> calm_program (perform c : M W (resp E c)).
Proof. intros Hc. apply emits_perform. intros r. by apply plain_steady. Qed.

Lemma calm_if {A} (b : bool) (m1 m2 : M W A) : calm_program m1 -> calm_program m2 -> calm_program (if b then m1 else m2).
Proof. by destruct b. Qed.

Lemma calm_ret {A} (a : A) : calm_program (mret a).
Proof. by apply emits_ret. Qed.
End sound.

Ltac steady_step :=
  lazymatch goal with
  | |- emits _ (mret _) _ => apply emits_ret
  | |- emits _ (mbind _ (perform _)) _ => emit_call; [intros ?; apply plain_steady; reflexivity|intros ?]
  | |- emits _ (mbind _ (setCondition _ _ _ _ _)) _ => eapply emits_bind; [apply setCondition_steady|intros ? ?]
  | |- emits _ (mbind _ (setConditionWithEvents _ _ _ _ _)) _ =>
      eapply emits_bind; [apply setConditionWithEvents_steady|intros ? ?]
  | |- emits _ (mbind _ (recordEvent _)) _ => eapply emits_bind; [apply recordEvent_steady|intros ? _]
  | |- emits _ (mbind _ (setXTrinodeErrorStatusAndUpdate _ _ _)) _ => eapply emits_bind; [apply setError_steady|intros [? ?] _]
  | |- emits _ (mbind _ (mret _)) _ => apply runs_ret_bind
  | |- emits _ (match ?x with _ => _ end) _ => destruct x eqn:?
  | |- emits _ (let _ := _ in _) _ => cbv zeta
  end.
Ltac steady_run := repeat (steady_step; simpl).

Section steps.
Context {E W : Type} `{!World E W, KubeErrors E, !ErrorKinds E, WaitBackoff E}.
Context `{QuantityParser} `{QuantityArith}.
Context (hash16 : hash_input -> string) (shape_error_text : shape_error -> string).
Context (ToleratesTaint : Toleration -> NodeTaint -> bool)
  (selector_Matches : LabelSelector -> gmap string string -> option bool) (selector_error : LabelSelector -> E).
Context (IsNoMatchError : E -> bool) (GetScaledValue : IntOrString -> Z -> option Z).
Context (Getenv : string -> string) (decodeQueries : string -> result E (list (list (string * json))))
  (metric_samples : string -> string -> list float64) (time_Parse : string -> string -> option Time).
Context (command_error_text : command_error -> string).
Context (settings : GuardrailSettings) (DrainDuration DrainRequeueInterval : Duration).

(** ** The steps *)

Lemma effective_catalogs_steady x : calm_program (GetEffectiveCatalogs selector_Matches selector_error x).
Proof.
  unfold calm_program, GetEffectiveCatalogs. eapply (emits_bind _ _ _ (fun _ => True)); [|intros r _; by steady_run].
  unfold selected_catalogs, listSelectedCatalogs. by steady_run.
Qed.

Lemma validate_config_maps_steady x catalogs : calm_program (ValidateCatalogConfigMaps x catalogs).
Proof.
  unfold calm_program, ValidateCatalogConfigMaps. induction catalogs as [|c catalogs IH]; simpl; [by apply emits_ret|].
  steady_step. destruct r as [e|]; [|done]. destruct (IsNotFound e); [done|by apply emits_ret].
Qed.

Lemma catalogs_steady x : calm_program (reconcileCatalogs selector_Matches selector_error x).
Proof.
  unfold calm_program, reconcileCatalogs. eapply emits_bind; [apply effective_catalogs_steady|]. intros r _.
  eapply (emits_bind _ _ _ (fun _ => True)).
  { destruct r as [l|e]; [|by steady_run]. eapply emits_bind; [apply calm_if; [apply calm_ret|apply recordEvent_steady]|].
    intros [] _. by apply emits_ret. }
  intros catalogs _. eapply emits_bind; [apply validate_config_maps_steady|]. intros err _.
  eapply (emits_bind _ _ _ (fun _ => True)); [destruct err; [apply recordEvent_steady|by apply emits_ret]|].
  intros [] _. by apply emits_ret.
Qed.

Lemma ensure_guardrail_steady g mode : calm_program (ensure_guardrail g mode).
Proof.
  unfold calm_program, ensure_guardrail, createGuardrailObjectIfMissing. destruct (mode ≡? _); [|by steady_run].
  eapply (emits_bind _ _ _ (fun _ => True)); [by steady_run|]. intros [c e] _. by apply emits_ret.
Qed.

Lemma ensure_namespace_steady n : calm_program (ensureNamespace n).
Proof. unfold calm_program, ensureNamespace. by steady_run. Qed.

Lemma ensure_labels_steady x : calm_program (ensureNamespaceWithLabels x).
Proof.
  unfold calm_program, ensureNamespaceWithLabels. eapply emits_bind; [apply ensure_namespace_steady|]. intros [err n] _.
  destruct err; [by apply emits_ret|].
  eapply emits_bind; [apply (emits_retry steady _ _ n (fun _ => True) (fun _ => True)); [done|]|].
  - intros m _. steady_step. destruct r; apply emits_ret; [|done]. cbv zeta. steady_step. by destruct r; apply emits_ret.
  - intros a _. by apply emits_ret.
Qed.

Lemma calculate_steady x :
  emits steady (calculateNamespaceGuardrailLimits GetScaledValue hash16 shape_error_text x) (fun _ => True).
Proof.
  apply emits_steady. eapply runs_weaken; [apply calculate_runs|]. intros a t [Ht _]. by split.
Qed.

Lemma guardrails_settle x : settles (ensureNamespaceGuardrails GetScaledValue hash16 shape_error_text settings x) x.
Proof.
  unfold settles, ensureNamespaceGuardrails. cbv zeta. eapply emits_bind; [apply calculate_steady|].
  intros [l|e] _; [|by apply emits_ret]. do 2 (destruct (_ ≡? _); [by steady_run|]).
  eapply (emits_bind _ _ _ (fun _ => True)).
  { destruct (_ ≡? _); [apply ensure_labels_steady|]. eapply emits_bind; [apply ensure_namespace_steady|].
    intros [err n] _. by apply emits_ret. }
  intros [e|] _; [by apply emits_ret|]. unfold apply_guardrails.
  eapply emits_bind; [apply ensure_guardrail_steady|]. intros [e|] _; [by apply emits_ret|].
  steady_step. eapply emits_bind; [apply ensure_guardrail_steady|]. intros [e|] _; [by apply emits_ret|].
  by steady_run.
Qed.

(** A pool keeps the phase unless it ends in an error. *)
Definition pool_settles (m : M W (Duration * option E * XTrinode)) (x : XTrinode) : Prop :=
  emits steady m (fun '(_, err, y) => err = None -> follows x y).

Lemma follows_phase x y : follows x y -> st_Phase (xt_Status x) <> PhaseReady -> st_Phase (xt_Status y) <> PhaseReady.
Proof. intros [_ Hp]. congruence. Qed.

Lemma wait_pool_steady x :
  st_Phase (xt_Status x) <> PhaseReady ->
  emits steady (waitForNodePoolReady Getenv x) (fun '(_, _, err, y) => err = None -> follows x y).
Proof.
  intros Hp. unfold waitForNodePoolReady. destruct (spec_NodePool (xt_Spec x)) as [np|]; [|apply emits_ret; by intros _].
  cbv zeta. steady_step. destruct r as [r|e]; [|by unfold setNodePoolProvisioningCondition; steady_run].
  steady_step. destruct r0 as [[message|] diagErr].
  - unfold report_pool_failure. steady_step. steady_step. eapply emits_bind; [apply updateStatus_steady; by eapply follows_phase|].
    intros [e|] _; by apply emits_ret.
  - unfold count_ready_nodes, setNodePoolProvisioningCondition. cbv zeta. by steady_run.
Qed.

Lemma node_pool_settles x :
  st_Phase (xt_Status x) <> PhaseReady -> pool_settles (reconcileNodePoolBlocking hash16 shape_error_text Getenv x) x.
Proof.
  intros Hp. unfold pool_settles, reconcileNodePoolBlocking. destruct (spec_NodePool (xt_Spec x)) as [np|]; [|apply emits_ret; by intros _].
  steady_step. eapply (emits_bind _ _ _ (fun _ => True)).
  { destruct r; [by apply emits_ret|]. destruct (IsNotFound _); [apply recordEvent_steady|by apply emits_ret]. }
  intros [] _. eapply emits_bind; [apply timeout_steady, (calm_perform (EnsureNodePool x)); reflexivity|].
  intros [e|] _; [by steady_run|].
  eapply (emits_bind _ _ _ (follows x)).
  { unfold setNodePoolFitCondition. destruct (spec_NodePool (xt_Spec x)); [|by apply emits_ret].
    destruct (fit_condition _ _ _ _) as [[st reason] message]. apply setCondition_steady. }
  intros y Hy. eapply emits_bind; [apply wait_pool_steady; by eapply follows_phase|].
  intros [[[ready requeue] err] z] Hz. destruct err as [e|]; [by apply emits_ret|]. specialize (Hz eq_refl).
  destruct (negb ready); [apply emits_ret; intros _; by etrans|]. steady_step. steady_step. apply emits_ret. intros _.
  by do 2 (etrans; [eassumption|]).
Qed.

Lemma observed_shape_follows x err y :
  setObservedRuntimeShapeStatus (E := E) hash16 shape_error_text x = (err, y) -> follows x y.
Proof.
  unfold setObservedRuntimeShapeStatus. destruct (Resolve hash16 x); intros [= _ <-]; [|done]. by split; [eexists|].
Qed.

Lemma resources_settle catalogs x : settles (reconcileTrinoResources hash16 shape_error_text catalogs x) x.
Proof.
  unfold settles, reconcileTrinoResources. steady_step. destruct r as [resources|e]; [|by steady_run].
  steady_step. destruct r as [e|].
  { by steady_run. }
  steady_step. destruct (setObservedRuntimeShapeStatus _ _ _) as [err y] eqn:Es. apply observed_shape_follows in Es.
  destruct err as [e|]; [by apply emits_ret|]. steady_step. apply emits_ret. intros _.
  etrans; [eassumption|]. etrans; [exact Es|]. by split; [eexists|].
Qed.

Lemma wake_settles x :
  st_Phase (xt_Status x) <> PhaseReady -> emits steady (reconcileWakeTTL x) (fun '(_, y) => follows x y).
Proof.
  intros Hp. unfold reconcileWakeTTL. destruct (st_Wake (xt_Status x)) as [wake|]; [|by apply emits_ret].
  steady_step. destruct (time_before _ _); [by apply emits_ret|]. cbv zeta.
  eapply emits_bind; [by apply updateStatus_steady|]. intros err _. apply emits_ret. by split; [eexists|].
Qed.

Lemma keda_failed_settles reason m1 m2 (e : E) x : settles (keda_failed reason m1 m2 e x) x.
Proof. unfold settles, keda_failed. by steady_run. Qed.

Lemma keda_settles x : settles (reconcileKEDA IsNoMatchError x) x.
Proof.
  unfold settles, reconcileKEDA. destruct (negb _); [by apply emits_ret|]. steady_step.
  assert (Hc : forall b, settles (configure_keda b x) x).
  { intros b. unfold settles, configure_keda. eapply (emits_bind _ _ _ (fun _ => True)).
    { destruct (st_Wake (xt_Status x)); by steady_run. }
    intros n _. eapply emits_bind; [apply timeout_steady|].
    { destruct (0 <? n); [by apply (calm_perform (EnableScaledObjectWithWakeMinWorkers x n))|by apply (calm_perform (EnsureScaledObject x))]. }
    intros [e|] _; [apply keda_failed_settles|]. steady_step. steady_step. by apply emits_ret. }
  destruct r as [e|]; [|apply Hc]. destruct (isKEDAPlatformUnavailableError _ e); [apply keda_failed_settles|].
  destruct (negb _); [by apply emits_ret|apply Hc].
Qed.

(** ** What readiness means *)

(** The Deployment's current revision has [n] pods ready and available. *)
Definition up (d : Deployment) (n : Z) : Prop :=
  dp_Generation d <= dp_ObservedGeneration d /\
  (forall c, deploymentCondition d "Progressing" = Some c -> dc_Status c <> ConditionFalse) /\
  n <= dp_UpdatedReplicas d /\ n <= dp_ReadyReplicas d /\ n <= dp_AvailableReplicas d.

Lemma rollout_up d component n :
  0 < n -> deploymentRolloutReady d component n = None ->
  (dp_ReadyReplicas d <? n) || (dp_AvailableReplicas d <? n) = false -> up d n.
Proof.
  intros Hn. unfold deploymentRolloutReady. destruct (Z.ltb_spec (dp_ObservedGeneration d) (dp_Generation d)); [done|].
  cbv zeta. rewrite (proj2 (Z.ltb_lt 0 n)) by done.
  intros Hf [Hr%Z.ltb_ge Ha%Z.ltb_ge]%orb_false_iff. simpl in Hf.
  destruct (Z.ltb_spec (dp_UpdatedReplicas d) n); [by repeat case_match|]. split_and!; try done.
  intros c Hc Hs. by rewrite Hc, Hs in Hf.
Qed.

(** Some endpoint of the service answers on the HTTP port. *)
Definition serving (slices : list EndpointSlice) : Prop :=
  exists s e, s ∈ slices /\ e ∈ es_Endpoints s /\ endpointSliceHasHTTPPort s = true /\
    ep_Addresses e <> [] /\ ep_Ready e <> Some false.

Definition answered (r : result E Deployment) : option Deployment := match r with Ok w => Some w | Err _ => None end.

(** The workers [y] asks for by the clock readings of [t]. *)
Definition demanded (y : XTrinode) (w : option Deployment) (n : Z) (t : list (happening E)) : Prop :=
  match st_Wake (xt_Status y) with
  | None => n = standing_workers y w
  | Some wake => exists now, existT Now now ∈ t /\
      n = if time_before now (wake_ExpiresAt wake) && (0 <? wake_MinWorkers wake) then wake_MinWorkers wake else standing_workers y w
  end.

(** The coordinator, its endpoints and the workers [y] asks for were all seen
    up. *)
Definition running (y : XTrinode) (t : list (happening E)) : Prop :=
  (exists d, existT (GetDeployment (xt_Namespace y) (BuildCoordinatorDeploymentName (xt_Name y))) (Ok d) ∈ t /\ up d 1) /\
  (exists l, existT (ListEndpointSlices (xt_Namespace y) (BuildCoordinatorServiceName (xt_Name y))) (Ok l) ∈ t /\ serving l) /\
  (exists r n, existT (GetDeployment (xt_Namespace y) (BuildWorkerDeploymentName (xt_Name y))) r ∈ t /\
     demanded y (answered r) n t /\ (0 < n -> exists w, r = Ok w /\ up w n)).

Lemma demanded_lasting y w n : lasting (demanded y w n).
Proof. unfold demanded. destruct (st_Wake (xt_Status y)); eauto 8 with lasting. Qed.

Lemma running_lasting y : lasting (running y).
Proof.
  pose proof (demanded_lasting y) as Hd. unfold running. repeat (apply lasting_and || (apply lasting_ex; intros ?)); auto with lasting.
Qed.

Lemma required_runs y w : runs (requiredReadyWorkers y w) (fun n t => Forall quiet t /\ demanded y w n t).
Proof.
  unfold requiredReadyWorkers, demanded. destruct (st_Wake (xt_Status y)); [|by apply runs_ret].
  run_call. intros now. apply runs_ret. split; [by repeat constructor|]. exists now. split; [left|done].
Qed.

Lemma serving_listed l :
  existsb (fun s => endpointSliceHasHTTPPort s && existsb endpointSliceEndpointReady (es_Endpoints s)) l = true -> serving l.
Proof.
  intros (s & Hs & [Hp (e & He & Hr)%existsb_exists]%andb_true_iff)%existsb_exists. exists s, e.
  rewrite <- list_elem_of_In in Hs. rewrite <- list_elem_of_In in He. split_and!; try done; unfold endpointSliceEndpointReady in Hr.
  - by destruct (ep_Addresses e).
  - intros Hf. rewrite Hf in Hr. by destruct (is_empty _).
Qed.

Lemma workers_runs y c :
  runs (check_workers y c) (fun r t => Forall quiet t /\
    forall a, r = Ok a -> rr_Ready a = true ->
      exists r n, existT (GetDeployment (xt_Namespace y) (BuildWorkerDeploymentName (xt_Name y))) r ∈ t /\
        demanded y (answered r) n t /\ (0 < n -> exists w, r = Ok w /\ up w n)).
Proof.
  unfold check_workers. run_call. intros [w|e].
  - eapply runs_bind; [apply required_runs|]. intros n t [Ht Hn]. apply runs_ret. rewrite app_nil_r.
    split; [by constructor|]. intros a [= <-] Hr. exists (Ok w), n. split_and!; [left|by eapply demanded_lasting; [|exact Hn]; set_solver|].
    intros Hpos. rewrite (proj2 (Z.ltb_lt 0 n)) in Hr by done. exists w. split; [done|].
    destruct (deploymentRolloutReady w "Worker" n) as [[]|] eqn:Ed; [done|].
    destruct ((dp_ReadyReplicas w <? n) || (dp_AvailableReplicas w <? n)) eqn:Er; [done|]. by eapply rollout_up.
  - destruct (IsNotFound e); [|apply runs_ret; split; [by repeat constructor|done]].
    eapply runs_bind; [apply required_runs|]. intros n t [Ht Hn]. apply runs_ret. rewrite app_nil_r.
    split; [by constructor|]. intros a [= <-] Hr. exists (Err e), n. split_and!; [left|by eapply demanded_lasting; [|exact Hn]; set_solver|].
    intros Hpos. by rewrite (proj2 (Z.ltb_lt 0 n)) in Hr by done.
Qed.

Lemma check_ready_runs y :
  runs (checkTrinoRuntimeReady y) (fun r t => Forall quiet t /\ forall a, r = Ok a -> rr_Ready a = true -> running y t).
Proof.
  assert (Hno : forall (o : result E trinoRuntimeReadiness) (t : list (happening E)), Forall quiet t ->
    match o with Ok a => rr_Ready a | Err _ => false end = false ->
    Forall quiet t /\ forall a, o = Ok a -> rr_Ready a = true -> running y t).
  { intros o t Ht Ho. split; [done|]. intros a -> Ha. congruence. }
  unfold checkTrinoRuntimeReady. run_call. intros [d|e]; [|destruct (IsNotFound e); apply runs_ret; by apply Hno; [repeat constructor|]].
  cbv zeta. destruct (deploymentRolloutReady d "Coordinator" 1) as [[]|] eqn:Ed; [apply runs_ret; by apply Hno; [repeat constructor|]|].
  destruct (_ || _) eqn:Er; [apply runs_ret; by apply Hno; [repeat constructor|]|].
  unfold serviceHasReadyEndpoints.
  eapply (runs_bind _ _ (fun r t => exists r', t = [existT (ListEndpointSlices (xt_Namespace y) (BuildCoordinatorServiceName (xt_Name y))) r'] /\
    (r = Ok true -> exists l, r' = Ok l /\ serving l))).
  { run_call. intros r. apply runs_ret. exists r. split; [done|]. destruct r as [l|]; [|done]. intros [= Hl]. exists l.
    split; [done|by apply serving_listed]. }
  intros r t (r' & -> & Hs). destruct r as [[]|e]; [|apply runs_ret; by apply Hno; [repeat constructor|]..].
  destruct (Hs eq_refl) as (l & -> & Hl). eapply runs_weaken; [apply workers_runs|]. intros r t [Ht Hw].
  split; [by repeat constructor|]. intros a Ha Hra. destruct (Hw a Ha Hra) as (r' & n & Hin & Hd & Hu). split_and!.
  - exists d. split; [left|]. by apply (rollout_up _ "Coordinator").
  - exists l. split; [right; left|done].
  - exists r', n. split_and!; [set_solver| |done]. eapply demanded_lasting; [|exact Hd]. set_solver.
Qed.

(** ** Stores of phase Ready *)

Definition stores (z : XTrinode) (h : happening E) : Prop := projT1 h = UpdateXTrinodeStatus z.

(** [z] is an object read before with a new time of last activity. *)
Definition refreshed (z : XTrinode) (t : list (happening E)) : Prop :=
  exists ns n w a, existT (GetXTrinode ns n) (Ok w) ∈ t /\ z = set_LastActivity a w.

(** The route of an object in phase Ready was published. *)
Definition published (t : list (happening E)) : Prop :=
  exists y, existT (RegisterRoute y) None ∈ t /\ st_Phase (xt_Status y) = PhaseReady.

(** What has to come before a store of [z] in phase Ready. *)
Definition entitled (x z : XTrinode) (t : list (happening E)) : Prop :=
  refreshed z t \/ ((exists y, only_status x y /\ running y t) /\ published t).

Definition obeys (x : XTrinode) (tr : list (happening E)) : Prop :=
  Forall (fun h => ~ is_scaling h) tr /\
  forall z, st_Phase (xt_Status z) = PhaseReady -> before (entitled x z) (stores z) tr.

Lemma refreshed_lasting z : lasting (refreshed z).
Proof. unfold refreshed. eauto 8 with lasting. Qed.

Lemma published_lasting : lasting published.
Proof. unfold published. eauto 8 with lasting. Qed.

Lemma entitled_lasting x z : lasting (entitled x z).
Proof.
  pose proof running_lasting. pose proof published_lasting. pose proof refreshed_lasting. unfold entitled.
  apply lasting_or; [done|]. apply lasting_and; [|done]. apply lasting_ex. intros y. by apply lasting_and; [apply lasting_const|].
Qed.

Lemma obeys_steady x tr : Forall steady tr -> obeys x tr.
Proof.
  intros Ht. split; [revert Ht; apply Forall_impl; by intros h []|]. intros z Hz. apply before_never. revert Ht.
  apply Forall_impl. intros h [_ Hn] Hs. by apply (Hn z).
Qed.

Lemma obeys_app x t1 t2 : obeys x t1 -> obeys x t2 -> obeys x (t1 ++ t2).
Proof.
  intros [Hs1 Hb1] [Hs2 Hb2]. split; [by apply Forall_app|]. intros z Hz. apply before_app; [by apply Hb1|].
  intros u h v Hu Hh. apply (lasting_r (entitled x z)); [apply entitled_lasting|]. by eapply Hb2.
Qed.

(** ** Automatic suspension stores only what it read *)

Definition keeps {A} (x : XTrinode) (m : M W A) : Prop := runs m (fun _ tr => obeys x tr).

Lemma keeps_ret {A} x (a : A) : keeps x (mret a).
Proof. apply runs_ret. by apply obeys_steady. Qed.

Lemma keeps_bind {A B} x (m : M W A) (f : A -> M W B) : keeps x m -> (forall a, keeps x (f a)) -> keeps x (m ≫= f).
Proof.
  intros Hm Hf. eapply runs_bind; [exact Hm|]. intros a t1 Ht1. eapply runs_weaken; [apply Hf|]. intros b t2 Ht2.
  by apply obeys_app.
Qed.

Lemma keeps_steady {A} x (m : M W A) R : emits steady m R -> keeps x m.
Proof. intros Hm. eapply runs_weaken; [exact Hm|]. intros a t [Ht _]. by apply obeys_steady. Qed.

Lemma keeps_call {B} x c (f : resp E c -> M W B) : plain_call c = true -> (forall r, keeps x (f r)) -> keeps x (perform c ≫= f).
Proof. intros Hc Hf. apply keeps_bind; [|done]. by eapply keeps_steady, calm_perform. Qed.

Lemma activity_at_keeps x t y : keeps x (UpdateLastActivityAt t y).
Proof.
  unfold UpdateLastActivityAt. refine (keeps_call x Now _ eq_refl _). intros now. apply keeps_bind.
  { destruct (time_after t now); [by apply (keeps_steady _ _ _ (calm_perform Now eq_refl))|apply keeps_ret]. }
  intros l. apply keeps_bind; [|intros [[e|] z]; apply keeps_ret].
  eapply runs_weaken; [apply (runs_retry _ _ y (fun _ => obeys x) (fun _ => obeys x))|by intros [[e|] z] tr].
  - by apply obeys_steady.
  - intros z tr Htr. run_call. intros r. apply runs_ret.
    assert (Hg : obeys x [existT (GetXTrinode (xt_Namespace z) (xt_Name z)) r]).
    { apply obeys_steady. repeat constructor; by intros []. }
    destruct r as [w|e]; [|by apply obeys_app]. cbv zeta. run_call. intros r.
    apply runs_ret. set (g := existT _ _) in Hg |- *. set (u := existT _ r).
    assert (Hu : obeys x ([g] ++ [u])).
    { split; [repeat constructor; by intros []|]. intros z' Hz'. apply before_app; [by apply Hg|]. intros u0 h v Heq Hh.
      destruct u0 as [|? [|]]; [|done..]. injection Heq as <- <-. injection Hh as <-. rewrite app_nil_r. left.
      exists (xt_Namespace z), (xt_Name z), w, (Some l). split; [left|done]. }
    destruct r as [server|e]; by apply obeys_app.
Qed.

Lemma activity_keeps x y : keeps x (UpdateLastActivity y).
Proof. refine (keeps_call x Now _ eq_refl _). intros now. apply activity_at_keeps. Qed.

Lemma from_activity_keeps x a y : keeps x (updateLastActivityFromQueryActivity a y).
Proof.
  unfold updateLastActivityFromQueryActivity. destruct (0 <? _); [apply activity_keeps|].
  destruct (qa_LatestActivity a); [|apply keeps_ret]. cbv zeta. destruct (negb _); [apply keeps_ret|apply activity_at_keeps].
Qed.

Lemma queries_keep x y : keeps x (UpdateLastActivityIfQueriesActive decodeQueries metric_samples time_Parse y).
Proof.
  unfold UpdateLastActivityIfQueriesActive. cbv zeta. apply keeps_bind.
  { eapply runs_weaken; [apply credential_runs|]. intros c t Ht. apply obeys_steady. revert Ht. apply Forall_impl.
    intros h Hh. apply noting_steady. unfold quiet in Hh. unfold noting. by destruct (projT1 h). }
  intros [c|e]; [|apply keeps_ret]. apply keeps_bind; [refine (keeps_call x (HTTPGet _ _ _ _) _ eq_refl _); intros r; apply keeps_ret|].
  assert (Hhist : forall wrap : E -> E,
    keeps x (activity ← queryTrinoQueryActivityWithCredential decodeQueries time_Parse (CoordinatorURL y +:+ QueryAPIPath) c;
      match activity with Err e => mret (Some (wrap e), y) | Ok a => updateLastActivityFromQueryActivity a y end)).
  { intros wrap. apply keeps_bind; [refine (keeps_call x (HTTPGet _ _ _ _) _ eq_refl _); intros r; apply keeps_ret|].
    intros [a|e]; [apply from_activity_keeps|apply keeps_ret]. }
  intros [total|e]; [|apply (Hhist (Errorf "failed to query Trino activity via metrics and query API: "))].
  destruct (float_positive total); [apply activity_keeps|].
  apply (Hhist (Errorf "failed to query Trino query history after zero active metrics: ")).
Qed.

Lemma request_keeps x y : keeps x (request_suspend y).
Proof. refine (keeps_call x Now _ eq_refl _). intros now. apply keeps_ret. Qed.

Lemma check_steady y : calm_program (CheckAutoSuspend y).
Proof.
  unfold calm_program, CheckAutoSuspend. destruct (spec_AutoSuspendAfter _); [|by steady_run].
  destruct (spec_Suspended _); [by steady_run|]. eapply (emits_bind _ _ _ (fun _ => True)).
  { destruct (st_Wake _); by steady_run. }
  intros [] _; by steady_run.
Qed.

Lemma submit_steady y : calm_program (submit_request y).
Proof.
  eapply emits_weaken; [apply (emits_retry steady _ _ y (fun _ => True) (fun _ => True)); [done|]|done|done].
  intros z _. steady_step. apply emits_ret. destruct r; [|done]. eapply (emits_bind _ _ _ (fun _ => True)).
  { unfold request_suspend. by steady_run. }
  intros z' _. steady_step. apply emits_ret. by destruct r.
Qed.

Lemma autosuspend_keeps x y : keeps x (AutoSuspendIfNeeded decodeQueries metric_samples time_Parse y).
Proof.
  unfold AutoSuspendIfNeeded. apply keeps_bind; [apply queries_keep|]. intros [[e|] y1]; [apply keeps_ret|].
  refine (keeps_call x (GetXTrinode _ _) _ eq_refl _). intros r. cbv zeta. apply keeps_bind.
  { eapply keeps_steady, check_steady. }
  intros [|]; [|apply keeps_ret]. simpl. apply keeps_bind; [apply request_keeps|]. intros y2.
  apply keeps_bind; [eapply keeps_steady, submit_steady|intros [[e|] y3]; apply keeps_ret].
Qed.
(** ** The steps in order *)

Definition orderly (f : @step_fn E W) : Prop := forall y c, st_Phase (xt_Status y) <> PhaseReady ->
  emits steady (f y c) (fun o => o_err o = None -> if o_continue o then follows y (o_object o) else 0 < o_RequeueAfter o).

Lemma catalogs_orderly : orderly (reconcileCatalogsStep selector_Matches selector_error).
Proof.
  intros y c _. unfold reconcileCatalogsStep. eapply emits_bind; [apply catalogs_steady|]. intros l _.
  by apply emits_ret.
Qed.

Lemma guardrails_orderly : orderly (reconcileNamespaceGuardrailsStep hash16 shape_error_text GetScaledValue settings).
Proof.
  intros y c _. unfold reconcileNamespaceGuardrailsStep. eapply emits_bind; [apply guardrails_settle|].
  intros [[e|] z] Hz; [by steady_run|]. apply emits_ret. intros _. by apply Hz.
Qed.

Lemma resources_orderly : orderly (reconcileTrinoResourcesStep hash16 shape_error_text).
Proof.
  intros y c _. unfold reconcileTrinoResourcesStep. eapply emits_bind; [apply resources_settle|].
  intros [[e|] z] Hz; [by steady_run|]. apply emits_ret. intros _. by apply Hz.
Qed.

Lemma pool_orderly : orderly (reconcileNodePoolStep hash16 shape_error_text Getenv).
Proof.
  intros y c Hp. unfold reconcileNodePoolStep. destruct (spec_NodePool (xt_Spec y)); [|by apply emits_ret].
  eapply emits_bind; [by apply node_pool_settles|]. intros [[rq [e|]] z] Hz; [by steady_run|]. specialize (Hz eq_refl).
  destruct (Z.ltb_spec 0 rq); [|by apply emits_ret]. steady_step.
  eapply emits_bind; [apply updateStatus_steady; by eapply follows_phase|]. intros [e|] _; by apply emits_ret.
Qed.

Lemma wake_orderly : orderly reconcileWakeTTLStep.
Proof.
  intros y c Hp. unfold reconcileWakeTTLStep. destruct (st_Wake (xt_Status y)); [|by apply emits_ret].
  eapply emits_bind; [by apply wake_settles|]. intros [err z] Hz. by steady_run.
Qed.

Lemma keda_orderly : orderly (reconcileKEDAStep IsNoMatchError).
Proof.
  intros y c _. unfold reconcileKEDAStep. destruct (negb _); [by steady_run|].
  eapply emits_bind; [apply keda_settles|]. intros [[e|] z] Hz; [by steady_run|]. apply emits_ret. intros _. by apply Hz.
Qed.

(** The pipeline so far: a pass that went through has seen the runtime running. *)
Definition piped (x : XTrinode) : @step E -> list (happening E) -> Prop := fun '(rq, err, _) t =>
  obeys x t /\ (err = None -> rq <= 0 -> exists y, only_status x y /\ running y t).

Lemma piped_shift x r t1 t2 : Forall steady t1 -> piped x r t2 -> piped x r (t1 ++ t2).
Proof.
  destruct r as [[rq err] z]. intros Ht [Ho Hr]. split; [apply obeys_app; [by apply obeys_steady|done]|].
  intros He Hq. destruct (Hr He Hq) as (y & Hy & Hrun). exists y. split; [done|]. eapply running_lasting; [|exact Hrun]. set_solver.
Qed.

Lemma execute_orderly x early rest y c :
  Forall (fun s => orderly s.2) early -> st_Phase (xt_Status y) <> PhaseReady ->
  (forall y' c', follows y y' -> runs (Execute rest y' c') (piped x)) -> runs (Execute (early ++ rest) y c) (piped x).
Proof.
  intros He. revert y c. induction He as [|[name f] early Hf He IH]; intros y c Hp Hrest; simpl; [by apply Hrest|].
  eapply runs_bind; [by apply Hf|]. intros o t1 [Ht1 Ho]. destruct (o_err o) as [e|] eqn:Eo.
  - eapply runs_bind; [apply recordEvent_steady|]. intros _ t2 [Ht2 _]. apply runs_ret. rewrite app_nil_r.
    split; [apply obeys_steady; by apply Forall_app|done].
  - specialize (Ho eq_refl). destruct (o_continue o); simpl.
    + destruct (Z.ltb_spec 0 (o_RequeueAfter o)).
      { apply runs_ret. rewrite app_nil_r. split; [by apply obeys_steady|]. intros _ ?. lia. }
      eapply runs_weaken; [apply IH|intros r t2; by apply piped_shift].
      * by eapply follows_phase.
      * intros y' c' Hy'. apply Hrest. by etrans.
    + apply runs_ret. rewrite app_nil_r. split; [by apply obeys_steady|]. intros _ ?. lia.
Qed.

(** *** Waiting *)

Lemma set_conditions_steady l y : emits steady (set_conditions l y) (follows y).
Proof.
  revert y. induction l as [|[[[t st] reason] message] l IH]; intros y; simpl; [by apply emits_ret|].
  steady_step. eapply emits_weaken; [apply IH|done|]. intros z Hz. by etrans.
Qed.

Lemma sync_scheduling_steady y : emits steady (syncSchedulingCondition ToleratesTaint selector_Matches y) (follows y).
Proof.
  unfold syncSchedulingCondition. steady_step. destruct r; [|apply set_conditions_steady]. steady_step.
  destruct r; [|apply set_conditions_steady]. cbv zeta. eapply (emits_bind _ _ _ (fun _ => True)).
  { unfold addClusterSchedulingDiagnostics. by steady_run. }
  intros b _. destruct (hasAny b); apply set_conditions_steady.
Qed.

Lemma pending_route_settles readiness y : settles (syncPendingGatewayRoute readiness y) y.
Proof.
  unfold settles, syncPendingGatewayRoute.
  eapply emits_bind; [apply timeout_steady, (calm_perform (RegisterRoute y)); reflexivity|]. intros r _. by steady_run.
Qed.

Lemma not_ready_steady readiness y : st_Phase (xt_Status y) <> PhaseReady -> calm_program (markRuntimeNotReady readiness y).
Proof.
  intros Hp. unfold calm_program, markRuntimeNotReady. cbv zeta. do 4 steady_step.
  eapply emits_bind; [apply updateStatus_steady|intros e _; by apply emits_ret].
  by repeat (eapply follows_phase; [eassumption|]).
Qed.

Lemma wait_runs y c :
  st_Phase (xt_Status y) <> PhaseReady ->
  runs (waitForRuntimeReadyStep ToleratesTaint selector_Matches y c) (fun o t => Forall steady t /\
    (o_err o = None -> if o_continue o then running y t else 0 < o_RequeueAfter o)).
Proof.
  intros Hp. unfold waitForRuntimeReadyStep. eapply runs_bind; [apply check_ready_runs|]. intros r t [Ht Hr].
  assert (Hs : Forall steady t).
  { revert Ht. apply Forall_impl. intros h Hh. apply noting_steady. unfold quiet in Hh. unfold noting. by destruct (projT1 h). }
  destruct r as [a|e].
  - eapply runs_bind; [apply sync_scheduling_steady|]. intros z t2 [Ht2 Hz]. destruct (rr_Ready a) eqn:Ea.
    { apply runs_ret. rewrite app_nil_r. split; [by apply Forall_app|]. intros _. eapply running_lasting; [|by eapply Hr]. set_solver. }
    eapply runs_bind; [apply pending_route_settles|]. intros [[e|] z2] t3 [Ht3 Hz2].
    + eapply runs_bind; [apply recordEvent_steady|]. intros _ t4 [Ht4 _]. apply runs_ret. rewrite app_nil_r.
      split; [by rewrite !Forall_app|done].
    + eapply runs_bind; [apply not_ready_steady; eapply follows_phase; [by apply Hz2|by eapply follows_phase]|].
      intros [err z3] t4 [Ht4 _]. apply runs_ret. rewrite app_nil_r. split; [by rewrite !Forall_app|done].
  - eapply runs_bind; [apply recordEvent_steady|]. intros _ t4 [Ht4 _]. apply runs_ret. rewrite app_nil_r.
    split; [by rewrite !Forall_app|done].
Qed.

Lemma autosuspend_step_keeps x y c : keeps x (reconcileAutoSuspendStep decodeQueries metric_samples time_Parse y c).
Proof.
  unfold reconcileAutoSuspendStep, reconcileAutoSuspend. destruct (_ || _); [apply keeps_ret|]. apply keeps_bind.
  { destruct (_ && _); [apply autosuspend_keeps|apply keeps_ret]. }
  assert (Hev : forall ev (o : @outcome E), keeps x (_ ← recordEvent ev; mret o)).
  { intros ev o. apply keeps_bind; [eapply keeps_steady, recordEvent_steady|intros; apply keeps_ret]. }
  intros [[[]|e] z]; [apply Hev|apply keeps_ret|]. destruct (Contains _ _); [apply Hev|apply keeps_ret].
Qed.

Lemma waiting_runs x y c :
  only_status x y -> st_Phase (xt_Status y) <> PhaseReady ->
  runs (Execute [("waitForRuntimeReady", waitForRuntimeReadyStep ToleratesTaint selector_Matches);
    ("reconcileAutoSuspend", reconcileAutoSuspendStep decodeQueries metric_samples time_Parse)] y c) (piped x).
Proof.
  intros Hx Hp. simpl. eapply runs_bind; [by apply wait_runs|]. intros o t1 [Ht1 Ho]. destruct (o_err o) as [e|] eqn:Eo.
  - eapply runs_bind; [apply recordEvent_steady|]. intros _ t2 [Ht2 _]. apply runs_ret. rewrite app_nil_r.
    split; [apply obeys_steady; by apply Forall_app|done].
  - specialize (Ho eq_refl). destruct (o_continue o); simpl.
    2:{ apply runs_ret. rewrite app_nil_r. split; [by apply obeys_steady|]. intros _ ?. lia. }
    assert (Hend : forall r t2, obeys x t2 -> piped x r (t1 ++ t2)).
    { intros [[rq err] z] t2 Ht2. split; [apply obeys_app; [by apply obeys_steady|done]|]. intros _ _. exists y.
      split; [done|]. eapply running_lasting; [|exact Ho]. set_solver. }
    destruct (0 <? o_RequeueAfter o); [apply runs_ret; apply Hend; by apply obeys_steady|].
    eapply runs_weaken; [|intros r t2; apply Hend]. apply keeps_bind; [apply autosuspend_step_keeps|]. intros o2.
    destruct (o_err o2); [apply keeps_bind; [eapply keeps_steady, recordEvent_steady|intros; apply keeps_ret]|].
    destruct (_ || _); apply keeps_ret.
Qed.

(** *** Publishing *)

Lemma publish_runs y : runs (registerGatewayRoute y) (fun err t => Forall steady t /\ (err = None -> existT (RegisterRoute y) None ∈ t)).
Proof.
  unfold registerGatewayRoute, CallWithTimeout. run_call. intros r. apply runs_ret. split.
  - constructor; [by apply plain_steady|constructor].
  - destruct r; [done|]. left.
Qed.

(** Whatever follows is steady and returns no success without the route. *)
Lemma after_register {A} (m : option E -> M W (option E * A)) y :
  (forall r, emits steady (m r) (fun '(err, _) => err = None -> r = None)) ->
  runs (r ← registerGatewayRoute y; m r) (fun '(err, _) t => Forall steady t /\ (err = None -> existT (RegisterRoute y) None ∈ t)).
Proof.
  intros Hm. eapply runs_bind; [apply publish_runs|]. intros r t [Ht Hr]. eapply runs_weaken; [apply Hm|].
  intros [err a] t2 [Ht2 He]. split; [by apply Forall_app|]. intros Hn. specialize (Hr (He Hn)). set_solver.
Qed.

Lemma ready_route_runs y :
  runs (reconcileReadyGatewayRoute y) (fun '(err, _) t => Forall steady t /\ (err = None -> published t)).
Proof.
  unfold reconcileReadyGatewayRoute. eapply runs_bind; [apply after_register; intros [e|]; by steady_run|].
  intros [err z] t [Ht Hr]. assert (Hp : err = None -> published t).
  { intros He. exists (set_Phase PhaseReady y). split; [by apply Hr|done]. }
  destruct err as [e|]; [apply runs_ret; by rewrite app_nil_r|]. specialize (Hp eq_refl).
  destruct (GetCondition z ConditionTypeGatewayReady) as [c|]; [|apply runs_ret; by rewrite app_nil_r].
  eapply runs_bind; [apply setCondition_steady|]. intros z2 t2 [Ht2 _]. apply runs_ret. rewrite app_nil_r.
  split; [by apply Forall_app|]. intros _. eapply published_lasting; [|exact Hp]. set_solver.
Qed.

Definition unscaled {A} (m : M W A) : Prop := emits (fun h => ~ is_scaling h) m (fun _ => True).

Lemma steady_unscaled {A} (m : M W A) R : emits steady m R -> unscaled m.
Proof. intros Hm. eapply emits_weaken; [exact Hm|by intros h []|done]. Qed.

Lemma unscaled_bind {A B} (m : M W A) (f : A -> M W B) : unscaled m -> (forall a, unscaled (f a)) -> unscaled (m ≫= f).
Proof. intros Hm Hf. eapply emits_bind; [exact Hm|]. intros a _. apply Hf. Qed.

Lemma transition_unscaled old y : unscaled (transitionToReady old y).
Proof.
  unfold transitionToReady. cbv zeta. apply unscaled_bind; [by eapply steady_unscaled, (calm_perform (GetDeployment _ _))|].
  intros r. do 5 (apply unscaled_bind;
    [eapply steady_unscaled; apply setConditionWithEvents_steady || apply setCondition_steady || apply set_conditions_steady|intros ?]).
  apply unscaled_bind; [eapply emits_weaken; [apply updateStatus_emits|apply bookkeeping_not_scaling|done]|].
  intros [e|]; [by apply runs_ret|]. apply (steady_unscaled _ (fun _ => True)). eapply (emits_bind _ _ _ (fun _ => True)).
  { destruct (_ ≡? _); [by apply emits_ret|apply recordEvent_steady]. }
  intros _ _. by steady_run.
Qed.

Lemma requeue_unscaled y : unscaled (calculateRequeueInterval y).
Proof. unfold calculateRequeueInterval. cbv zeta. apply (steady_unscaled _ (fun _ => True)). destruct (st_Wake _); by steady_run. Qed.

(** Once the runtime was seen running and its route is out, Ready may be stored. *)
Lemma entitled_obeys x t1 t2 y :
  obeys x t1 -> only_status x y -> running y t1 -> published t1 -> Forall (fun h => ~ is_scaling h) t2 -> obeys x (t1 ++ t2).
Proof.
  intros [Hs Hb] Hy Hr Hp Ht2. split; [by apply Forall_app|]. intros z Hz.
  apply before_lasting; [apply entitled_lasting|by apply Hb|]. right. eauto.
Qed.

Lemma pipeline_runs x y : only_status x y -> st_Phase (xt_Status y) <> PhaseReady ->
  runs (Execute (NewReconciliationPipeline hash16 shape_error_text ToleratesTaint selector_Matches selector_error IsNoMatchError
    GetScaledValue Getenv decodeQueries metric_samples time_Parse settings y) y []) (piped x).
Proof.
  intros Hy Hp. set (rest := [("waitForRuntimeReady", waitForRuntimeReadyStep ToleratesTaint selector_Matches);
    ("reconcileAutoSuspend", reconcileAutoSuspendStep decodeQueries metric_samples time_Parse)]).
  assert (Hrest : forall y' c', follows y y' -> runs (Execute rest y' c') (piped x)).
  { intros y' c' [Hs Hph]. apply waiting_runs; [by etrans|congruence]. }
  unfold NewReconciliationPipeline. cbv zeta.
  set (early := fun middle : list (string * step_fn) => [("reconcileCatalogs", reconcileCatalogsStep selector_Matches selector_error);
    ("reconcileNamespaceGuardrails", reconcileNamespaceGuardrailsStep hash16 shape_error_text GetScaledValue settings)] ++
    middle ++ [("reconcileWakeTTL", reconcileWakeTTLStep); ("reconcileKEDA", reconcileKEDAStep IsNoMatchError)]).
  assert (Hall : forall a b : string * step_fn, orderly a.2 -> orderly b.2 -> runs (Execute (early [a; b] ++ rest) y []) (piped x)).
  { intros a b Ha Hb. apply execute_orderly; [|done|done]. repeat constructor; simpl;
      auto using catalogs_orderly, guardrails_orderly, wake_orderly, keda_orderly. }
  case_bool_decide; apply Hall; first [apply pool_orderly|apply resources_orderly].
Qed.
End steps.

Section theorems.
Context {E W : Type} `{!World E W, KubeErrors E, !ErrorKinds E, WaitBackoff E}.
Context `{QuantityParser} `{QuantityArith}.
Context (hash16 : hash_input -> string) (shape_error_text : shape_error -> string).
Context (ToleratesTaint : Toleration -> NodeTaint -> bool)
  (selector_Matches : LabelSelector -> gmap string string -> option bool) (selector_error : LabelSelector -> E).
Context (IsNoMatchError : E -> bool) (GetScaledValue : IntOrString -> Z -> option Z).
Context (Getenv : string -> string) (decodeQueries : string -> result E (list (list (string * json))))
  (metric_samples : string -> string -> list float64) (time_Parse : string -> string -> option Time).
Context (settings : GuardrailSettings).

End theorems.

(** ** A pass over a healthy cluster *)

(** Both Deployments run three pods, the service answers and no query runs. *)
Definition healthy_answer (x : XTrinode) (c : call) : resp kube_error c :=
  match c with
  | GetDeployment _ n => Ok (mkDeployment n 1 (Some 3) 1 3 3 3 3 [] ∅)
  | ListEndpointSlices _ _ => Ok [mkEndpointSlice [] [mkEndpoint ["10.0.0.1"] None]]
  | HTTPGet _ _ _ _ => Ok (200, Ok "")
  | GetXTrinodeRevision _ _ => "rev-2"
  | c => rest_answer x c
  end.

Definition fixed_runtime (autoSuspendAfter : option Duration) : XTrinode :=
  mkXTrinode "x" "a" 2 0 (1699999000 * Second) None [] ∅ ∅
    (mkSpec "s" None None false autoSuspendAfter None None None None None None None None None None)
    (status_of_phase PhaseReady).

(** The phase, observed generation and revision stored last in a pass. *)
Definition last_stored (autoSuspendAfter : option Duration) : option (string * Z * string) :=
  let x := fixed_runtime autoSuspendAfter in
  let '(_, w) := converge ex_hash16 ex_shape_error_text intolerant unselective (fun _ => errors_New "invalid selector") (fun _ => false) (fun _ _ => Some 1)
    (fun _ => "") ex_decode (fun _ _ => []) (fun _ _ => None) (mkGuardrailSettings "" "" "") x
    (mkScripted (fun _ => healthy_answer x) []) in
  list.last (omap (fun h => match projT1 h with
    | UpdateXTrinodeStatus y => Some (st_Phase (xt_Status y), st_ObservedGeneration (xt_Status y), st_CurrentRevision (xt_Status y))
    | _ => None end) (sc_history w)).

(** The check for automatic suspension reads the object anew, and what the
    steps before it put into the status is gone when phase Ready is stored. *)
Lemma auto_suspend_drops_status :
  last_stored None = Some (PhaseReady, 2, "rev-2") /\ last_stored (Some (3600 * Second)) = Some (PhaseReady, 0, "").
Proof. vm_compute. split; reflexivity. Qed.
