(* ===== verification/RouteRegistry.v ===== *)
(** * Publishing routes in the gateway ConfigMap ([pkg/gateway/gateway.go])

    [RegisterRoute], [DrainRoute] and [DeregisterRoute] are read-modify-write
    loops over one ConfigMap that several operator replicas and humans may
    write at the same time.  The API server and the YAML library are reached
    through the interfaces [ConfigMapClient] and [YamlCodec]; the theorems say
    that every write replaces exactly the table it was computed from. *)

From S2P Require Import Prelude GoStrings GoTime XTrinodeTypes RuntimeShape ControlEndpoint Routes Retry.

(** ** The API server

    [None] is Go's nil map. *)
Record ConfigMap := mkConfigMap {
  cm_Data : option (gmap string string);
  cm_ResourceVersion : Z
}.

#[export] Instance ConfigMap_eq_dec : EqDecision ConfigMap.
Proof. solve_decision. Defined.

(** The client's view of the server: a call may be preceded by writes of other
    clients.  [cm_log] lists this client's successful writes, each with the
    content it replaced; [cm_seen] are the contents the ConfigMap has had.
    [cm_update_ok] is the optimistic-concurrency contract: an update is accepted
    only over a content with the resource version the object carries. *)
Class ConfigMapClient (E W : Type) := {
  cm_Get : W -> result E ConfigMap * W;
  cm_Create : ConfigMap -> W -> result E ConfigMap * W;
  cm_Update : ConfigMap -> W -> result E ConfigMap * W;
  cm_now : W -> Time;
  cm_log : W -> list (option ConfigMap * ConfigMap);
  cm_seen : W -> ConfigMap -> Prop;
  cm_get_log : forall w, cm_log (cm_Get w).2 = cm_log w;
  cm_get_ok : forall w c w', cm_Get w = (Ok c, w') -> cm_seen w' c;
  cm_get_seen : forall w c, cm_seen w c -> cm_seen (cm_Get w).2 c;
  cm_create_ok : forall c w c' w', cm_Create c w = (Ok c', w') ->
    cm_log w' = cm_log w ++ [(None, c')] /\ cm_Data c' = cm_Data c;
  cm_create_err : forall c w e w', cm_Create c w = (Err e, w') -> cm_log w' = cm_log w;
  cm_create_seen : forall c w c', cm_seen w c' -> cm_seen (cm_Create c w).2 c';
  cm_update_ok : forall c w c' w', cm_Update c w = (Ok c', w') ->
    cm_Data c' = cm_Data c /\
    exists c0, cm_log w' = cm_log w ++ [(Some c0, c')] /\
      cm_seen w' c0 /\ cm_ResourceVersion c0 = cm_ResourceVersion c;
  cm_update_err : forall c w e w', cm_Update c w = (Err e, w') -> cm_log w' = cm_log w;
  cm_update_seen : forall c w c', cm_seen w c' -> cm_seen (cm_Update c w).2 c';
  cm_version_unique : forall w c c', cm_seen w c -> cm_seen w c' ->
    cm_ResourceVersion c = cm_ResourceVersion c' -> c = c'
}.

(** [yaml.Marshal] and [yaml.Unmarshal] at the type of the routes document. *)
Class YamlCodec (E : Type) := {
  yaml_Marshal : list RouteEntry -> result string string;
  yaml_Unmarshal : string -> result E (list RouteEntry);
  yaml_round_trip : forall routes, routes <> [] ->
    exists s, yaml_Marshal routes = Ok s /\ s <> "" /\ yaml_Unmarshal s = Ok routes;
  yaml_empty_routes : yaml_Unmarshal ("routes: []" +:+ String "010" "") = Ok []
}.

Definition GatewayConfigMapKey : string := "routes.yaml".

Section registry.
Context {E W : Type} `{KubeErrors E, WaitBackoff E, ConfigMapClient E W, YamlCodec E}.
Context (ctx_Err : W -> option E) (route_error_text : route_error -> E).

Definition parseRoutes (yamlData : string) : result E (list RouteEntry) :=
  if yamlData ≡? "" then Ok [] else
  match yaml_Unmarshal yamlData with
  | Ok routes => Ok routes
  | Err e => Err (Errorf "failed to parse routes YAML: " e)
  end.

Definition serializeRoutes (routes : list RouteEntry) : string :=
  match routes with
  | [] => "routes: []" +:+ String "010" ""
  | _ =>
      match yaml_Marshal routes with
      | Ok s => s
      | Err e => "# Error marshaling YAML: " +:+ e +:+ String "010" ("routes: []" +:+ String "010" "")
      end
  end.

Definition ensureConfigMapData (c : ConfigMap) : ConfigMap :=
  let data := default ∅ (cm_Data c) in
  mkConfigMap (Some (match data !! GatewayConfigMapKey with
                     | Some _ => data
                     | None => <[GatewayConfigMapKey := ""]> data
                     end)) (cm_ResourceVersion c).

(** The text under the gateway key, [""] when the map or the key is missing. *)
Definition cm_text (c : ConfigMap) : string :=
  default "" (default ∅ (cm_Data c) !! GatewayConfigMapKey).

Definition init_Data (c : ConfigMap) : ConfigMap :=
  mkConfigMap (Some (default ∅ (cm_Data c))) (cm_ResourceVersion c).

Definition getConfigMap (w : W) : result E ConfigMap * W :=
  match cm_Get w with
  | (Ok c, w) => (Ok (init_Data c), w)
  | (Err e, w) => (Err e, w)
  end.

Definition getOrCreateConfigMap (w : W) : result E ConfigMap * W :=
  match cm_Get w with
  | (Ok c, w) => (Ok (init_Data c), w)
  | (Err e, w) =>
      if negb (IsNotFound e) then (Err (Errorf "failed to get gateway ConfigMap: " e), w) else
      let c := mkConfigMap (Some {[GatewayConfigMapKey := ""]}) 0 in
      match cm_Create c w with
      | (Ok c, w) => (Ok (init_Data c), w)
      | (Err e, w) =>
          if IsAlreadyExists e then
            match cm_Get w with
            | (Ok c, w) => (Ok (init_Data c), w)
            | (Err e, w) => (Err (Errorf "failed to get ConfigMap after AlreadyExists: " e), w)
            end
          else (Err (Errorf "failed to create gateway ConfigMap: " e), w)
      end
  end.

(** The closures share the variable [configMap], the first component of the
    world of the retry loop. *)
Definition refresh_configMap (s : ConfigMap * W) : option E * (ConfigMap * W) :=
  let '(c, w) := s in
  match cm_Get w with
  | (Ok c', w) => (None, (c', w))
  | (Err e, w) => (Some e, (c, w))
  end.

(** A modify closure: [f] computes from the current text the one to write, or
    [None] when there is nothing to write. *)
Definition modify_configMap (f : Time -> string -> result E (option string)) (s : ConfigMap * W) :
    option E * (ConfigMap * W) :=
  let '(c, w) := s in
  let c := ensureConfigMapData c in
  match f (cm_now w) (cm_text c) with
  | Err e => (Some e, (c, w))
  | Ok None => (None, (c, w))
  | Ok (Some text) =>
      let c := mkConfigMap (Some (<[GatewayConfigMapKey := text]> (default ∅ (cm_Data c))))
                 (cm_ResourceVersion c) in
      match cm_Update c w with
      | (Ok c', w) => (None, (c', w))
      | (Err e, w) => (Some e, (c, w))
      end
  end.

Definition update_loop (f : Time -> string -> result E (option string)) (c : ConfigMap) (w : W) :
    option E * W :=
  let '(err, (_, w)) := OnConflictWithRefresh (fun s => ctx_Err s.2) DefaultConfig
    refresh_configMap (modify_configMap f) (c, w) in
  (err, w).

Definition parse_guard (text : string) : result E (list RouteEntry) :=
  match parseRoutes text with
  | Ok routes => Ok routes
  | Err e => Err (Errorf "cannot update routes due to parse error: " e)
  end.

Definition register_text (reg : registration) (now : Time) (text : string) :
    result E (option string) :=
  routes ← parse_guard text;
  match register reg routes with
  | Err e => Err (route_error_text e)
  | Ok routes' =>
      let serializedRoutes := serializeRoutes routes' in
      Ok (if text ≡? serializedRoutes then None else Some serializedRoutes)
  end.

Definition drain_text (name ns : string) (drainDuration : Duration) (now : Time) (text : string) :
    result E (option string) :=
  routes ← parse_guard text;
  let '(routes', changed) := setBackendDrainingAllRoutes now routes name ns drainDuration in
  Ok (if (changed : bool) then Some (serializeRoutes routes') else None).

Definition deregister_text (name ns : string) (now : Time) (text : string) :
    result E (option string) :=
  routes ← parse_guard text;
  let '(routes', changed) := removeBackendFromAllRoutes routes name ns in
  Ok (if (changed : bool) then Some (serializeRoutes routes') else None).

(** The error value of a shape that does not resolve, and the digest of
    [runtimeshape]. *)
Context `{QuantityParser} (shapeError : shape_error -> E) (hash16 : hash_input -> string).

Definition RegisterRoute (x : XTrinode) (w : W) : option E * W :=
  match getOrCreateConfigMap w with
  | (Err e, w) => (Some e, w)
  | (Ok c, w) =>
      match Resolve hash16 x with
      | Err e => (Some (Errorf "failed to resolve runtime shape for gateway route: " (shapeError e)), w)
      | Ok shape => update_loop (register_text (registration_of x shape)) c w
      end
  end.

Definition DrainRouteWithDuration (x : XTrinode) (drainDuration : Duration) (w : W) : option E * W :=
  match getConfigMap w with
  | (Err e, w) => (if IsNotFound e then None else Some e, w)
  | (Ok c, w) => update_loop (drain_text (xt_Name x) (xt_Namespace x) drainDuration) c w
  end.

Definition DrainRoute (x : XTrinode) : W -> option E * W :=
  DrainRouteWithDuration x GatewayDrainDuration.

Definition DeregisterRoute (x : XTrinode) (w : W) : option E * W :=
  match getConfigMap w with
  | (Err e, w) => (if IsNotFound e then None else Some e, w)
  | (Ok c, w) => update_loop (deregister_text (xt_Name x) (xt_Namespace x)) c w
  end.

(** The three calls of the operator, as data. *)
Inductive route_op :=
| OpRegister (x : XTrinode)
| OpDrain (x : XTrinode) (drainDuration : Duration)
| OpDeregister (x : XTrinode).

Definition run_op (op : route_op) : W -> option E * W :=
  match op with
  | OpRegister x => RegisterRoute x
  | OpDrain x d => DrainRouteWithDuration x d
  | OpDeregister x => DeregisterRoute x
  end.

(** ** Text and tables *)

Lemma parse_serialize routes : parseRoutes (serializeRoutes routes) = Ok routes.
Proof.
  unfold parseRoutes, serializeRoutes. destruct routes as [|r rs].
  - rewrite bool_decide_false by done. by rewrite yaml_empty_routes.
  - destruct (yaml_round_trip (r :: rs)) as (s & -> & Hs & ->); [done|].
    by rewrite bool_decide_false.
Qed.

Lemma cm_text_ensure c : cm_text (ensureConfigMapData c) = cm_text c.
Proof.
  unfold cm_text, ensureConfigMapData; simpl.
  destruct (default ∅ (cm_Data c) !! GatewayConfigMapKey) eqn:Ek; [by rewrite Ek|].
  by rewrite lookup_insert_eq.
Qed.

Lemma ensure_other c k : k <> GatewayConfigMapKey ->
  default ∅ (cm_Data (ensureConfigMapData c)) !! k = default ∅ (cm_Data c) !! k.
Proof.
  intros Hk. unfold ensureConfigMapData; simpl.
  destruct (default ∅ (cm_Data c) !! GatewayConfigMapKey); [done|]. by rewrite lookup_insert_ne.
Qed.

(** A write of an update loop: the new text is computed from the text of the
    content it replaces, and the other keys are kept. *)
Definition computed_write (f : Time -> string -> result E (option string))
    (p : option ConfigMap * ConfigMap) : Prop :=
  exists c0 now, p.1 = Some c0 /\ f now (cm_text c0) = Ok (Some (cm_text p.2)) /\
    forall k, k <> GatewayConfigMapKey ->
      default ∅ (cm_Data p.2) !! k = default ∅ (cm_Data c0) !! k.

Definition up_to_date (f : Time -> string -> result E (option string)) (w : W) : Prop :=
  exists c0 now, cm_seen w c0 /\ f now (cm_text c0) = Ok None.

Lemma modify_computed f c w :
  cm_seen w c ->
  match modify_configMap f (c, w) with
  | (None, (_, w')) => (cm_log w' = cm_log w /\ up_to_date f w') \/
                       exists p, cm_log w' = cm_log w ++ [p] /\ computed_write f p
  | (Some _, (_, w')) => cm_log w' = cm_log w
  end.
Proof.
  intros Hseen. unfold modify_configMap. rewrite cm_text_ensure.
  destruct (f (cm_now w) (cm_text c)) as [[text|]|e] eqn:Ef; [|left; split; [done|]; by exists c, (cm_now w)|done].
  set (cu := mkConfigMap _ _). pose proof (cm_update_seen cu w c Hseen) as Hs'.
  destruct (cm_Update cu w) as [[c'|e] w'] eqn:Eu; [right|by eapply cm_update_err].
  apply cm_update_ok in Eu as Hu. destruct Hu as (Hd & c0 & Hlog & Hs0 & Hv).
  subst cu. simpl in Hs', Hd, Hv.
  assert (c0 = c) as -> by (by eapply cm_version_unique).
  exists (Some c, c'). split; [done|]. exists c, (cm_now w). split_and!; [done| |].
  - rewrite Ef. unfold cm_text. simpl. rewrite Hd. simpl. by rewrite lookup_insert_eq.
  - intros k Hk. simpl. rewrite Hd. simpl. rewrite lookup_insert_ne by done. by apply ensure_other.
Qed.
Lemma update_loop_spec f c w :
  match update_loop f c w with
  | (None, w') => (cm_log w' = cm_log w /\ up_to_date f w') \/
                  exists p, cm_log w' = cm_log w ++ [p] /\ computed_write f p
  | (Some _, w') => cm_log w' = cm_log w
  end.
Proof.
  unfold update_loop.
  pose proof (OnConflictWithRefresh_rule (fun s : ConfigMap * W => ctx_Err s.2) DefaultConfig
    refresh_configMap (modify_configMap f) (fun s => cm_log s.2 = cm_log w)
    (fun s => (cm_log s.2 = cm_log w /\ up_to_date f s.2) \/
              exists p, cm_log s.2 = cm_log w ++ [p] /\ computed_write f p) (c, w)) as Hr.
  destruct (OnConflictWithRefresh _ _ _ _ _) as [[e|] [c' w']]; apply Hr; try done.
  all: clear Hr; intros [c1 w1] Hlog; simpl in Hlog; unfold refresh_configMap.
  all: pose proof (cm_get_log w1) as Hg; destruct (cm_Get w1) as [[c2|e2] w2] eqn:Eg;
    simpl in Hg; [|simpl; by rewrite Hg].
  all: apply cm_get_ok in Eg; pose proof (modify_computed f c2 w2 Eg) as Hm;
    destruct (modify_configMap f (c2, w2)) as [[e3|] [c3 w3]]; rewrite Hg, Hlog in Hm; exact Hm.
Qed.

(** The only other write: an empty ConfigMap where there was none. *)
Definition empty_creation (ws : list (option ConfigMap * ConfigMap)) : Prop :=
  ws = [] \/ exists c, ws = [(None, c)] /\ cm_text c = "".

Lemma getOrCreate_log w :
  exists ws, cm_log (getOrCreateConfigMap w).2 = cm_log w ++ ws /\ empty_creation ws.
Proof.
  unfold getOrCreateConfigMap, empty_creation. pose proof (cm_get_log w) as Hg.
  destruct (cm_Get w) as [[c|e] w1]; simpl in *; [exists []; rewrite app_nil_r; auto|].
  destruct (IsNotFound e); simpl; [|exists []; rewrite app_nil_r; auto].
  destruct (cm_Create _ w1) as [[c|e'] w2] eqn:Ec.
  - apply cm_create_ok in Ec as [Hl Hd]. exists [(None, c)]. simpl. rewrite Hl, Hg.
    split; [done|]. right. exists c. split; [done|]. unfold cm_text. rewrite Hd. simpl.
    by rewrite lookup_singleton_eq.
  - apply cm_create_err in Ec. exists []. rewrite app_nil_r. split; [|by left].
    destruct (IsAlreadyExists e'); simpl; [|congruence].
    pose proof (cm_get_log w2). destruct (cm_Get w2) as [[]]; simpl in *; congruence.
Qed.

Lemma getConfigMap_log w : cm_log (getConfigMap w).2 = cm_log w.
Proof. unfold getConfigMap. rewrite <- (cm_get_log w). by destruct (cm_Get w) as [[]]. Qed.

(** What one of the three calls computes from the text it replaces. *)
Definition op_text (op : route_op) (now : Time) (text : string) : result E (option string) :=
  match op with
  | OpRegister x =>
      match Resolve hash16 x with
      | Ok shape => register_text (registration_of x shape) now text
      | Err e => Err (shapeError e)
      end
  | OpDrain x d => drain_text (xt_Name x) (xt_Namespace x) d now text
  | OpDeregister x => deregister_text (xt_Name x) (xt_Namespace x) now text
  end.

Lemma run_op_log op w :
  exists ws, empty_creation ws /\
  match run_op op w with
  | (None, w') => cm_log w' = cm_log w ++ ws \/
                  exists p, cm_log w' = cm_log w ++ ws ++ [p] /\ computed_write (op_text op) p
  | (Some _, w') => cm_log w' = cm_log w ++ ws
  end.
Proof.
  destruct op as [x|x d|x]; simpl.
  - destruct (getOrCreate_log w) as (ws & Hl & He). exists ws. split; [done|].
    unfold RegisterRoute. destruct (getOrCreateConfigMap w) as [[c|e] w1]; simpl in *; [|done].
    unfold op_text, computed_write. destruct (Resolve hash16 x) as [shape|e]; [|done].
    pose proof (update_loop_spec (register_text (registration_of x shape)) c w1) as Hu.
    destruct (update_loop _ c w1) as [[e|] w2]; rewrite Hl in Hu; [done|].
    destruct Hu as [[? _]|(p & Hp & Hc)]; [by left|right]. exists p. by rewrite app_assoc.
  - exists []. split; [by left|]. unfold DrainRouteWithDuration. pose proof (getConfigMap_log w) as Hl.
    destruct (getConfigMap w) as [[c|e] w1]; simpl in *; [|rewrite app_nil_r; destruct (IsNotFound e); auto].
    pose proof (update_loop_spec (drain_text (xt_Name x) (xt_Namespace x) d) c w1) as Hu.
    destruct (update_loop _ c w1) as [[e|] w2]; rewrite Hl in Hu; rewrite app_nil_r; naive_solver.
  - exists []. split; [by left|]. unfold DeregisterRoute. pose proof (getConfigMap_log w) as Hl.
    destruct (getConfigMap w) as [[c|e] w1]; simpl in *; [|rewrite app_nil_r; destruct (IsNotFound e); auto].
    pose proof (update_loop_spec (deregister_text (xt_Name x) (xt_Namespace x)) c w1) as Hu.
    destruct (update_loop _ c w1) as [[e|] w2]; rewrite Hl in Hu; rewrite app_nil_r; naive_solver.
Qed.

(** The table-level meaning of the three calls, when they have something to
    write. *)
Definition op_table (op : route_op) (now : Time) (T T' : list RouteEntry) : Prop :=
  match op with
  | OpRegister x => exists shape, Resolve hash16 x = Ok shape /\
      register (registration_of x shape) T = Ok T'
  | OpDrain x d => setBackendDrainingAllRoutes now T (xt_Name x) (xt_Namespace x) d = (T', true)
  | OpDeregister x => removeBackendFromAllRoutes T (xt_Name x) (xt_Namespace x) = (T', true)
  end.

Lemma parse_guard_Ok text routes : parse_guard text = Ok routes <-> parseRoutes text = Ok routes.
Proof. unfold parse_guard. destruct (parseRoutes text); naive_solver. Qed.

Lemma op_text_table op now text text' :
  op_text op now text = Ok (Some text') ->
  exists T T', parseRoutes text = Ok T /\ op_table op now T T' /\ parseRoutes text' = Ok T'.
Proof.
  destruct op as [x|x d|x]; simpl.
  - destruct (Resolve hash16 x) as [shape|e]; [|done]. unfold register_text.
    rewrite bind_Ok. intros (T & HT%parse_guard_Ok & H').
    destruct (register _ T) as [T'|e] eqn:Er; [|done]. case_bool_decide; simplify_eq.
    exists T, T'. split_and!; [done|eauto|apply parse_serialize].
  - unfold drain_text. rewrite bind_Ok. intros (T & HT%parse_guard_Ok & H').
    destruct (setBackendDrainingAllRoutes _ _ _ _ _) as [T' []] eqn:Ed; simplify_eq.
    exists T, T'. split_and!; [done|done|apply parse_serialize].
  - unfold deregister_text. rewrite bind_Ok. intros (T & HT%parse_guard_Ok & H').
    destruct (removeBackendFromAllRoutes _ _ _) as [T' []] eqn:Ed; simplify_eq.
    exists T, T'. split_and!; [done|done|apply parse_serialize].
Qed.

Lemma op_table_wf op now T T' : routes_wf T -> op_table op now T T' -> routes_wf T'.
Proof.
  intros Hwf. destruct op as [x|x d|x]; simpl.
  - intros (shape & _ & Hr). by eapply register_wf.
  - intros Hd. pose proof (drain_wf now T (xt_Name x) (xt_Namespace x) d Hwf) as Hw.
    by rewrite Hd in Hw.
  - intros Hd. pose proof (deregister_wf T (xt_Name x) (xt_Namespace x) Hwf) as Hw.
    by rewrite Hd in Hw.
Qed.

(** C1: No lost update.  Whatever other clients write in between, a call of
    [RegisterRoute], [DrainRouteWithDuration] or [DeregisterRoute] that fails
    changes nothing but for creating the empty ConfigMap, and one that succeeds
    makes at most one write, whose table is the registration, drain or removal
    applied to the table of the very content it replaces; other keys stay. *)
Theorem registry_no_lost_update op w :
  exists ws, empty_creation ws /\
  match run_op op w with
  | (Some _, w') => cm_log w' = cm_log w ++ ws
  | (None, w') => cm_log w' = cm_log w ++ ws \/
      exists c0 c1 now T T', cm_log w' = cm_log w ++ ws ++ [(Some c0, c1)] /\
        parseRoutes (cm_text c0) = Ok T /\ op_table op now T T' /\
        parseRoutes (cm_text c1) = Ok T' /\
        forall k, k <> GatewayConfigMapKey ->
          default ∅ (cm_Data c1) !! k = default ∅ (cm_Data c0) !! k
  end.
Proof.
  destruct (run_op_log op w) as (ws & He & Hl). exists ws. split; [done|].
  destruct (run_op op w) as [[e|] w']; [done|].
  destruct Hl as [?|([c0' c1] & Hl & c0 & now & [= ->] & Hf & Hk)]; [by left|right].
  apply op_text_table in Hf as (T & T' & HT & Ho & HT').
  exists c0, c1, now, T, T'. done.
Qed.

(** Every table the three calls write over a well-formed one is well
    formed, so the operator alone never publishes ambiguous routes. *)
Theorem registry_writes_wf op w w' r :
  run_op op w = (r, w') ->
  exists ws, cm_log w' = cm_log w ++ ws /\
  forall c0 c1 T, (Some c0, c1) ∈ ws -> parseRoutes (cm_text c0) = Ok T -> routes_wf T ->
  exists T', parseRoutes (cm_text c1) = Ok T' /\ routes_wf T'.
Proof.
  intros Hr. destruct (run_op_log op w) as (ws & He & Hl). rewrite Hr in Hl.
  assert (Hc : forall c0 c1, (Some c0, c1) ∉ ws).
  { intros c0 c1. destruct He as [->|(c & -> & _)]; set_solver. }
  assert (cm_log w' = cm_log w ++ ws \/ exists p, cm_log w' = cm_log w ++ ws ++ [p] /\
            computed_write (op_text op) p) as [Hlog|(p & Hlog & Hp)] by (destruct r; tauto).
  - exists ws. split; [done|]. intros c0 c1 T Hin. by destruct (Hc c0 c1).
  - exists (ws ++ [p]). split; [done|]. intros c0 c1 T Hin HT Hwf.
    apply elem_of_app in Hin as [Hin|Hin%list_elem_of_singleton]; [by destruct (Hc c0 c1)|].
    subst p. destruct Hp as (c0' & now & [= ->] & Hf & _).
    apply op_text_table in Hf as (T0 & T' & HT0 & Ho & HT').
    assert (T0 = T) as -> by congruence. exists T'. split; [done|]. exact (op_table_wf op now T T' Hwf Ho).
Qed.

End registry.

(** ** A concrete API server and codec

    The server keeps every content the ConfigMap has had; the resource version
    is the position in that history.  [srv_pending] are the writes of other
    clients, one slot before each call. *)
Record server := mkServer {
  srv_history : list (option (gmap string string));
  srv_pending : list (option (option (gmap string string)));
  srv_log : list (option ConfigMap * ConfigMap)
}.

Definition interfere (w : server) : server :=
  match srv_pending w with
  | [] => w
  | None :: p => mkServer (srv_history w) p (srv_log w)
  | Some d :: p => mkServer (srv_history w ++ [d]) p (srv_log w)
  end.

Definition srv_current (w : server) : option ConfigMap :=
  d ← list.last (srv_history w); Some (mkConfigMap d (Z.of_nat (length (srv_history w)) - 1)).

Definition srv_write (c : ConfigMap) (w : server) : result kube_error ConfigMap * server :=
  let c' := mkConfigMap (cm_Data c) (Z.of_nat (length (srv_history w))) in
  (Ok c', mkServer (srv_history w ++ [cm_Data c]) (srv_pending w)
            (srv_log w ++ [(srv_current w, c')])).

Definition srv_Get (w : server) : result kube_error ConfigMap * server :=
  let w := interfere w in
  (match srv_current w with Some c => Ok c | None => Err KNotFound end, w).

Definition srv_Create (c : ConfigMap) (w : server) : result kube_error ConfigMap * server :=
  let w := interfere w in
  match srv_current w with Some _ => (Err KAlreadyExists, w) | None => srv_write c w end.

Definition srv_Update (c : ConfigMap) (w : server) : result kube_error ConfigMap * server :=
  let w := interfere w in
  match srv_current w with
  | Some c0 => if cm_ResourceVersion c0 =? cm_ResourceVersion c then srv_write c w
               else (Err KConflict, w)
  | None => (Err KNotFound, w)
  end.

Definition srv_seen (w : server) (c : ConfigMap) : Prop :=
  exists i, cm_ResourceVersion c = Z.of_nat i /\ srv_history w !! i = Some (cm_Data c).

Lemma interfere_log w : srv_log (interfere w) = srv_log w.
Proof. unfold interfere. by destruct (srv_pending w) as [|[] ?]. Qed.

Lemma seen_prefix w w' c : srv_history w `prefix_of` srv_history w' -> srv_seen w c -> srv_seen w' c.
Proof. intros Hp (i & Hi & Hl). exists i. split; [done|]. by eapply prefix_lookup_Some. Qed.

Lemma interfere_history w : srv_history w `prefix_of` srv_history (interfere w).
Proof.
  unfold interfere. destruct (srv_pending w) as [|[d|] ?]; simpl; [done| |done].
  by apply prefix_app_r.
Qed.

Lemma srv_current_seen w c : srv_current w = Some c -> srv_seen w c.
Proof.
  unfold srv_current. destruct (list.last (srv_history w)) as [d|] eqn:El; simpl; [|done].
  intros [= <-]. apply last_Some in El as [h Hh]. rewrite Hh, length_app. simpl.
  exists (length h). split; [simpl; lia|]. rewrite Hh. simpl. by apply list_lookup_middle.
Qed.


Lemma srv_Create_history c w : srv_history w `prefix_of` srv_history (srv_Create c w).2.
Proof.
  etrans; [apply interfere_history|]. unfold srv_Create.
  destruct (srv_current _); simpl; [done|]. by apply prefix_app_r.
Qed.

Lemma srv_Update_history c w : srv_history w `prefix_of` srv_history (srv_Update c w).2.
Proof.
  etrans; [apply interfere_history|]. unfold srv_Update.
  destruct (srv_current _) as [c0|]; simpl; [|done]. destruct (_ =? _); simpl; [|done].
  by apply prefix_app_r.
Qed.

#[export] Program Instance server_client : ConfigMapClient kube_error server := {
  cm_Get := srv_Get; cm_Create := srv_Create; cm_Update := srv_Update;
  cm_now := fun _ => 0; cm_log := srv_log; cm_seen := srv_seen
}.
Next Obligation. apply interfere_log. Qed.
Next Obligation.
  intros w c w'. unfold srv_Get. destruct (srv_current (interfere w)) eqn:Ec; [|done].
  intros [= -> <-]. by apply srv_current_seen.
Qed.
Next Obligation. intros w c. apply seen_prefix, interfere_history. Qed.
Next Obligation.
  intros c w c' w'. unfold srv_Create. destruct (srv_current (interfere w)) eqn:Ec; [done|].
  intros [= <- <-]. simpl. by rewrite Ec, interfere_log.
Qed.
Next Obligation.
  intros c w e w'. unfold srv_Create. destruct (srv_current (interfere w)); [|done].
  intros [= _ <-]. apply interfere_log.
Qed.
Next Obligation. intros c w c'. apply seen_prefix, srv_Create_history. Qed.
Next Obligation.
  intros c w c' w'. unfold srv_Update.
  destruct (srv_current (interfere w)) as [c0|] eqn:Ec; [|done].
  destruct (Z.eqb_spec (cm_ResourceVersion c0) (cm_ResourceVersion c)); [|done].
  intros [= <- <-]. simpl. split; [done|]. exists c0. rewrite Ec, interfere_log.
  split_and!; [done| |done]. apply srv_current_seen in Ec. eapply seen_prefix; [|exact Ec].
  by apply prefix_app_r.
Qed.
Next Obligation.
  intros c w e w'. unfold srv_Update. destruct (srv_current (interfere w)); simpl.
  - destruct (_ =? _); [done|]. intros [= _ <-]. apply interfere_log.
  - intros [= _ <-]. apply interfere_log.
Qed.
Next Obligation. intros c w c'. apply seen_prefix, srv_Update_history. Qed.
Next Obligation.
  intros w [d v] [d' v'] (i & Hi & Hl) (j & Hj & Hl') Hv. simpl in *. subst.
  apply Nat2Z.inj in Hv. subst. congruence.
Qed.

(** A codec: tables as lists of lists of strings, whose countable encoding is
    written in binary. *)
Fixpoint pos_text (p : positive) : string :=
  match p with
  | xH => "1"
  | xO p => String "o" (pos_text p)
  | xI p => String "i" (pos_text p)
  end.

Fixpoint text_pos (s : string) : option positive :=
  match s with
  | String "1" "" => Some xH
  | String "o" s => xO <$> text_pos s
  | String "i" s => xI <$> text_pos s
  | _ => None
  end.

Lemma text_pos_text p : text_pos (pos_text p) = Some p.
Proof. induction p as [p IH|p IH|]; simpl; rewrite ?IH; done. Qed.

Lemma pos_text_nonempty p : pos_text p <> "".
Proof. by destruct p. Qed.

Definition field {A} `{Countable A} (a : A) : string := pos_text (encode a).
Definition unfield {A} `{Countable A} (s : string) : option A := text_pos s ≫= decode.

Lemma unfield_field {A} `{Countable A} (a : A) : unfield (field a) = Some a.
Proof. unfold unfield, field. rewrite text_pos_text. apply decode_encode. Qed.

Definition backend_fields (b : Backend) : list string :=
  [b_Name b; b_Namespace b; b_CoordinatorURL b; b_State b; field (b_Active b); b_Tier b;
   field (b_CapacityUnits b); b_RuntimeShapeVersion b; b_RuntimeShapeHash b;
   field (b_ObservedGeneration b); b_DrainUntil b].

Definition fields_backend (l : list string) : option Backend :=
  match l with
  | [n; ns; u; s; a; t; c; v; h; g; d] =>
      a ← unfield a; c ← unfield c; g ← unfield g; Some (mkBackend n ns u s a t c v h g d)
  | _ => None
  end.

Definition route_fields (r : RouteEntry) : list (list string) :=
  [r_Name r; r_RoutingGroup r; r_Header r; r_Hostname r; field (r_Default r)]
    :: map backend_fields (r_Backends r).

Definition fields_route (l : list (list string)) : option RouteEntry :=
  match l with
  | [n; g; h; o; d] :: bs =>
      d ← unfield d; bs ← mapM fields_backend bs; Some (mkRoute n g bs h o d)
  | _ => None
  end.

Lemma fields_route_fields r : fields_route (route_fields r) = Some r.
Proof.
  unfold fields_route, route_fields. rewrite unfield_field. simpl.
  assert (mapM fields_backend (map backend_fields (r_Backends r)) = Some (r_Backends r)) as ->.
  { induction (r_Backends r) as [|b bs IH]; simpl; [done|].
    rewrite !unfield_field. simpl. rewrite IH. simpl. by destruct b. }
  simpl. by destruct r.
Qed.

#[export] Instance RouteEntry_countable : Countable RouteEntry :=
  inj_countable route_fields fields_route fields_route_fields.

Definition binary_Unmarshal (s : string) : result kube_error (list RouteEntry) :=
  if s ≡? "routes: []" +:+ String "010" "" then Ok [] else
  match text_pos s ≫= decode with
  | Some routes => Ok routes
  | None => Err (KOther "yaml: syntax error")
  end.

#[export] Program Instance binary_codec : YamlCodec kube_error := {
  yaml_Marshal := fun routes => Ok (pos_text (encode routes));
  yaml_Unmarshal := binary_Unmarshal
}.
Next Obligation.
  intros routes _. exists (pos_text (encode routes)). split; [done|].
  split; [apply pos_text_nonempty|]. unfold binary_Unmarshal.
  rewrite bool_decide_false by (by destruct (encode routes)).
  rewrite text_pos_text. simpl. by rewrite decode_encode.
Qed.
Next Obligation. done. Qed.

(** Another client adds a route between the read and the write: the first
    attempt meets a conflict and the second one builds on the new table. *)
Definition ex_data (routes : list RouteEntry) : option (option (gmap string string)) :=
  Some (Some {[GatewayConfigMapKey := pos_text (encode routes)]}).

Definition ex_server : server := mkServer [] [ex_data []; None; ex_data ex_routes] [].

Definition ex_op : route_op := OpRegister (ex_runtime "s" None).

Definition ex_run : option kube_error * server :=
  run_op (fun _ => None) (fun _ => KOther "route") (fun _ => KOther "shape") ex_hash16
    ex_op ex_server.


(** The groups of the table the last write of a log stored, and of the one it
    replaced. *)
Definition groups (c : ConfigMap) : list string :=
  match parseRoutes (cm_text c) with Ok T => map r_RoutingGroup T | Err _ => [] end.

Definition last_write (w : server) : option (list string * list string) :=
  match list.last (srv_log w) with Some (Some c0, c1) => Some (groups c0, groups c1) | _ => None end.

Lemma registry_no_lost_update_witness :
  ex_run.1 = None /\ last_write ex_run.2 = Some (["pool"; "a--z"], ["pool"; "a--z"; "a--x"]) /\
  exists ws, empty_creation ws.
Proof.
  split; [vm_compute; reflexivity|]. split; [vm_compute; reflexivity|].
  destruct (registry_no_lost_update (fun _ => None) (fun _ => KOther "route")
    (fun _ => KOther "shape") ex_hash16 ex_op ex_server) as (ws & Hws & _).
  exists ws. exact Hws.
Defined.

Lemma registry_writes_wf_witness :
  routes_wf ex_routes /\
  exists ws, srv_log ex_run.2 = srv_log ex_server ++ ws /\
  forall c0 c1 T, (Some c0, c1) ∈ ws -> parseRoutes (cm_text c0) = Ok T -> routes_wf T ->
  exists T', parseRoutes (cm_text c1) = Ok T' /\ routes_wf T'.
Proof.
  split; [exact ex_routes_wf|].
  exact (registry_writes_wf (fun _ => None) (fun _ => KOther "route")
    (fun _ => KOther "shape") ex_hash16 ex_op ex_server ex_run.2 ex_run.1
    (surjective_pairing ex_run)).
Defined.
