(* ===== verification/RouteCache.v ===== *)
(** * The gateway's route cache ([pkg/gateway/route_cache.go])

    The gateway polls the ConfigMap the operator writes ([RouteRegistry]),
    keeps the routes it can serve and indexes them by routing group, hostname
    and header.  Loaded routes are never mutated, so the index holds the routes
    themselves where the Go code shares pointers. *)

From S2P Require Import Prelude GoStrings GoTime XTrinodeTypes Routes Retry RouteRegistry Health.

(** A resource version is a number; [None] stands for the empty string. *)
Record RouteReloadState := mkReload {
  rl_LastAttempt : Time;
  rl_LastSuccess : Time;
  rl_LastFailure : Time;
  rl_LastError : string;
  rl_ResourceVersion : option Z;
  rl_RoutesLoaded : Z;
  rl_InvalidRoutes : Z
}.

(** The fields of [GatewayService] that loading touches. *)
Record RouteCache := mkCache {
  gs_routes : gmap string RouteEntry;
  gs_defaultRoute : option RouteEntry;
  gs_healthChecker : option BackendHealthChecker;
  gs_reloadState : RouteReloadState
}.

Definition set_reload rl gs :=
  mkCache (gs_routes gs) (gs_defaultRoute gs) (gs_healthChecker gs) rl.

Definition recordRouteReloadAttempt (now : Time) (gs : RouteCache) : RouteCache :=
  let rl := gs_reloadState gs in
  set_reload (mkReload now (rl_LastSuccess rl) (rl_LastFailure rl) (rl_LastError rl)
                (rl_ResourceVersion rl) (rl_RoutesLoaded rl) (rl_InvalidRoutes rl)) gs.

Definition recordRouteReloadSuccess (now : Time) (rv : option Z) (loaded invalid : Z)
    (gs : RouteCache) : RouteCache :=
  let rl := gs_reloadState gs in
  set_reload (mkReload (rl_LastAttempt rl) now (rl_LastFailure rl) "" rv loaded invalid) gs.

Definition recordRouteReloadFailure (now : Time) (rv : option Z) (loaded invalid : Z)
    (message : string) (gs : RouteCache) : RouteCache :=
  let rl := gs_reloadState gs in
  set_reload (mkReload (rl_LastAttempt rl) (rl_LastSuccess rl) now message rv loaded invalid) gs.

Definition isLoadableRoute (route : RouteEntry) : bool :=
  if (r_Name route ≡? "") || (Z.of_nat (length (r_Backends route)) =? 0) then false else
  if (r_RoutingGroup route ≡? "") && (r_Hostname route ≡? "") && (r_Header route ≡? "") &&
     negb (r_Default route) then false else
  forallb (fun b => negb ((b_Name b ≡? "") || (b_Namespace b ≡? "") || (b_CoordinatorURL b ≡? "")))
    (r_Backends route).

(** ** The filter loop *)

Record seen := mkSeen {
  seenHostnames : gmap string string;
  seenHeaders : gmap string string;
  seenRoutingGroups : gset string
}.

(** One iteration: whether the route is valid, and the maps after it.  The maps
    keep the keys of a route that a later check rejects. *)
Definition check_route (r : RouteEntry) (s : seen) : bool * seen :=
  if negb (isLoadableRoute r) then (false, s) else
  let '(valid, s) :=
    if r_RoutingGroup r ≡? "" then (true, s) else
    if bool_decide (r_RoutingGroup r ∈ seenRoutingGroups s) then (false, s) else
    (true, mkSeen (seenHostnames s) (seenHeaders s) ({[r_RoutingGroup r]} ∪ seenRoutingGroups s)) in
  let '(valid, s) :=
    if (valid : bool) && negb (r_Hostname r ≡? "") then
      let hostname := normalizeHostname (r_Hostname r) in
      match seenHostnames s !! hostname with
      | Some _ => (false, s)
      | None => (true, mkSeen (<[hostname := r_RoutingGroup r]> (seenHostnames s)) (seenHeaders s)
                         (seenRoutingGroups s))
      end
    else (valid, s) in
  if (valid : bool) && negb (r_Header r ≡? "") then
    match seenHeaders s !! r_Header r with
    | Some _ => (false, s)
    | None => (true, mkSeen (seenHostnames s) (<[r_Header r := r_RoutingGroup r]> (seenHeaders s))
                       (seenRoutingGroups s))
    end
  else (valid, s).

Fixpoint valid_routes (routes : list RouteEntry) (s : seen) : list RouteEntry :=
  match routes with
  | [] => []
  | r :: rs =>
      let '(valid, s) := check_route r s in
      if (valid : bool) then r :: valid_routes rs s else valid_routes rs s
  end.

Definition no_seen : seen := mkSeen ∅ ∅ ∅.

(** ** The index *)

Definition is_running (b : Backend) : bool :=
  b_Active b && ((b_State b ≡? "") || (b_State b ≡? StateRunning)).

Definition loadedRunningBackends (routes : list RouteEntry) : list string :=
  r ← routes; b_CoordinatorURL <$> filterb is_running (r_Backends r).

Definition index_route (acc : gmap string RouteEntry * option RouteEntry) (r : RouteEntry) :
    gmap string RouteEntry * option RouteEntry :=
  let '(m, def) := acc in
  let def := if r_Default r then match def with Some d => Some d | None => Some r end else def in
  let m := if r_RoutingGroup r ≡? "" then m else <["rg:" +:+ r_RoutingGroup r := r]> m in
  let m := if r_Hostname r ≡? "" then m else <["host:" +:+ normalizeHostname (r_Hostname r) := r]> m in
  let m := if r_Header r ≡? "" then m else <["hdr:" +:+ r_Header r := r]> m in
  (m, def).

Definition build_index (routes : list RouteEntry) : gmap string RouteEntry * option RouteEntry :=
  fold_left index_route routes (∅, None).

(** [fmt.Sprintf] of the message with the key quoted. *)
Definition missing_key : string :=
  "ConfigMap key " +:+ String "034" (GatewayConfigMapKey +:+ String "034" " missing").

Section cache.
Context {E : Type} `{KubeErrors E, YamlCodec E} (Error : E -> string).

(** [got] is the result of the [Get] of the ConfigMap. *)
Definition loadRoutes (now : Time) (got : result E ConfigMap) (gs : RouteCache) :
    option E * RouteCache :=
  let gs := recordRouteReloadAttempt now gs in
  match got with
  | Err e => (Some (Errorf "failed to get gateway ConfigMap: " e),
      recordRouteReloadFailure now None 0 0 ("failed to get gateway ConfigMap: " +:+ Error e) gs)
  | Ok configMap =>
      let rv := Some (cm_ResourceVersion configMap) in
      match default ∅ (cm_Data configMap) !! GatewayConfigMapKey with
      | None => (None, recordRouteReloadFailure now rv 0 0 missing_key gs)
      | Some yamlData =>
          match parseRoutes yamlData with
          | Err e => (None,
              recordRouteReloadFailure now rv 0 0 ("failed to parse routes: " +:+ Error e) gs)
          | Ok routes =>
              let validRoutes := valid_routes routes no_seen in
              let n := Z.of_nat (length routes) in
              let v := Z.of_nat (length validRoutes) in
              if (0 <? n) && (v =? 0) then
                (None, recordRouteReloadFailure now rv 0 n "all parsed routes were invalid" gs)
              else
              let '(m, def) := build_index validRoutes in
              let hc := resetSleeping (loadedRunningBackends validRoutes) <$> gs_healthChecker gs in
              (None, recordRouteReloadSuccess now rv v (n - v)
                       (mkCache m def hc (gs_reloadState gs)))
          end
      end
  end.

Definition hasConfigMapChanged (got : result E ConfigMap) (lastVersion : option Z) :
    result E bool * option Z :=
  match got with
  | Err e => (Err e, lastVersion)
  | Ok configMap =>
      let currentVersion := Some (cm_ResourceVersion configMap) in
      if currentVersion ≡? lastVersion then (Ok false, lastVersion) else (Ok true, currentVersion)
  end.

(** One tick of [watchRoutes]; [got1] and [got2] are the answers of the API
    server to the version check and to the reload. *)
Definition watch_tick (now : Time) (got1 got2 : result E ConfigMap)
    (st : option Z * RouteCache) : option Z * RouteCache :=
  let '(lastVersion, gs) := st in
  match hasConfigMapChanged got1 lastVersion with
  | (Ok true, v) => (v, (loadRoutes now got2 gs).2)
  | (_, v) => (v, gs)
  end.

End cache.

(** [host] is the request's Host, [header] the value of [X-Trino-XTrinode]. *)
Definition findRoute (host header : string) (gs : RouteCache) : option RouteEntry :=
  let hostname := normalizeHostname host in
  let by_host := if hostname ≡? "" then None else gs_routes gs !! ("host:" +:+ hostname) in
  match by_host with
  | Some route => Some route
  | None =>
      if negb (header ≡? "") then gs_routes gs !! ("hdr:" +:+ header) else gs_defaultRoute gs
  end.

Definition collectHealthCheckBackendURLs (gs : RouteCache) : gset string :=
  let collect (route : RouteEntry) : gset string :=
    list_to_set (b_CoordinatorURL <$> filterb is_running (r_Backends route)) in
  ⋃ (collect <$> (snd <$> map_to_list (gs_routes gs))) ∪
  match gs_defaultRoute gs with Some r => collect r | None => ∅ end.

(** ** The filter keeps routes with distinct keys *)

Record distinct (r q : RouteEntry) : Prop := {
  distinct_group : r_RoutingGroup r <> "" -> r_RoutingGroup r <> r_RoutingGroup q;
  distinct_host : r_Hostname r <> "" -> r_Hostname q <> "" -> host_key r <> host_key q;
  distinct_header : r_Header r <> "" -> r_Header r <> r_Header q
}.

#[export] Instance distinct_sym : Symmetric distinct.
Proof.
  intros r q [Hg Hh He]. split; [intros ? E; apply Hg; congruence| |intros ? E; apply He; congruence].
  intros H1 H2 E. by apply Hh.
Qed.

Record unseen (s : seen) (r : RouteEntry) : Prop := {
  unseen_group : r_RoutingGroup r <> "" -> r_RoutingGroup r ∉ seenRoutingGroups s;
  unseen_host : r_Hostname r <> "" -> seenHostnames s !! host_key r = None;
  unseen_header : r_Header r <> "" -> seenHeaders s !! r_Header r = None
}.

Lemma unseen_no_seen r : unseen no_seen r.
Proof. split; intros _; simpl; [set_solver|apply lookup_empty..]. Qed.

(** A route is accepted exactly when it is loadable and none of its keys has
    been seen; the keys are then marked. *)
Lemma check_route_valid r s : (check_route r s).1 = true <-> isLoadableRoute r = true /\ unseen s r.
Proof.
  unfold check_route. fold (host_key r).
  destruct (isLoadableRoute r); simpl; [|naive_solver].
  split.
  - intros H. split; [done|].
    destruct (decide (r_RoutingGroup r = "")) as [Eg|Eg], (decide (r_RoutingGroup r ∈ seenRoutingGroups s)),
      (decide (r_Hostname r = "")) as [Eh|Eh], (seenHostnames s !! host_key r) eqn:Lh,
      (decide (r_Header r = "")) as [Ee|Ee], (seenHeaders s !! r_Header r) eqn:Le;
      repeat first [rewrite bool_decide_true in H by done | rewrite bool_decide_false in H by done];
      simpl in H; rewrite ?Lh in H; simpl in H; rewrite ?Le in H; simpl in H; try done; split; done.
  - intros [_ [Hg Hh He]].
    destruct (decide (r_RoutingGroup r = "")) as [Eg|Eg], (decide (r_Hostname r = "")) as [Eh|Eh],
      (decide (r_Header r = "")) as [Ee|Ee];
      rewrite ?(bool_decide_true _ Eg), ?(bool_decide_false _ Eg), ?(bool_decide_false _ (Hg Eg)),
        ?(bool_decide_true _ Eh), ?(bool_decide_false _ Eh); simpl;
      rewrite ?(Hh Eh), ?(bool_decide_true _ Ee), ?(bool_decide_false _ Ee); simpl; rewrite ?(He Ee); done.
Qed.

(** What an iteration does to the maps: it marks keys of the route, all of
    them when it accepts it. *)
Lemma check_route_seen r s :
  let '(valid, s') := check_route r s in
  (seenRoutingGroups s' = seenRoutingGroups s /\ (valid = true -> r_RoutingGroup r = "") \/
   seenRoutingGroups s' = {[r_RoutingGroup r]} ∪ seenRoutingGroups s /\ r_RoutingGroup r <> "") /\
  (seenHostnames s' = seenHostnames s /\ (valid = true -> r_Hostname r = "") \/
   seenHostnames s' = <[host_key r := r_RoutingGroup r]> (seenHostnames s) /\ r_Hostname r <> "") /\
  (seenHeaders s' = seenHeaders s /\ (valid = true -> r_Header r = "") \/
   seenHeaders s' = <[r_Header r := r_RoutingGroup r]> (seenHeaders s) /\ r_Header r <> "").
Proof.
  unfold check_route. fold (host_key r).
  destruct (isLoadableRoute r); simpl; [|naive_solver].
  destruct (decide (r_RoutingGroup r = "")) as [Eg|Eg], (decide (r_RoutingGroup r ∈ seenRoutingGroups s)),
      (decide (r_Hostname r = "")) as [Eh|Eh], (seenHostnames s !! host_key r) eqn:Lh,
      (decide (r_Header r = "")) as [Ee|Ee], (seenHeaders s !! r_Header r) eqn:Le;
      repeat first [rewrite bool_decide_true by done | rewrite bool_decide_false by done];
      simpl; rewrite ?Lh; simpl; rewrite ?Le; simpl; naive_solver.
Qed.

Lemma check_route_unseen r s q :
  unseen s q -> distinct r q -> unseen (check_route r s).2 q.
Proof.
  intros [Hg Hh He] [Dg Dh De]. pose proof (check_route_seen r s) as Hc.
  destruct (check_route r s) as [valid s']; simpl. destruct Hc as (Cg & Ch & Ce). split; intros Hq.
  - destruct Cg as [[-> _]|[-> Hr]]; [auto|]. specialize (Hg Hq). specialize (Dg Hr). set_solver.
  - destruct Ch as [[-> _]|[-> Hr]]; [auto|]. rewrite lookup_insert_ne; auto.
  - destruct Ce as [[-> _]|[-> Hr]]; [auto|]. rewrite lookup_insert_ne; auto.
Qed.

Lemma check_route_mono r s q : unseen (check_route r s).2 q -> unseen s q.
Proof.
  intros [Hg Hh He]. pose proof (check_route_seen r s) as Hc.
  destruct (check_route r s) as [valid s']; simpl in *. destruct Hc as (Cg & Ch & Ce). split; intros Hq.
  - specialize (Hg Hq). destruct Cg as [[Cg _]|[Cg Hr]]; rewrite Cg in Hg; set_solver.
  - specialize (Hh Hq). destruct Ch as [[Ch _]|[Ch Hr]]; rewrite Ch in Hh; [done|].
    by apply lookup_insert_None in Hh as [? _].
  - specialize (He Hq). destruct Ce as [[Ce _]|[Ce Hr]]; rewrite Ce in He; [done|].
    by apply lookup_insert_None in He as [? _].
Qed.

Lemma check_route_distinct r s q :
  (check_route r s).1 = true -> unseen (check_route r s).2 q -> distinct r q.
Proof.
  intros Hv [Hg Hh He]. pose proof (check_route_seen r s) as Hc.
  destruct (check_route r s) as [valid s']; simpl in *; subst. destruct Hc as (Cg & Ch & Ce). split.
  - intros Hr E. rewrite E in Hr. specialize (Hg Hr).
    destruct Cg as [[_ Cg]|[Cg _]]; [by rewrite E in Cg; auto|]. rewrite Cg, E in Hg. set_solver.
  - intros Hr Hq E. specialize (Hh Hq). destruct Ch as [[_ Ch]|[Ch _]]; [by auto|].
    rewrite Ch, E, lookup_insert_eq in Hh. done.
  - intros Hr E. rewrite E in Hr. specialize (He Hr).
    destruct Ce as [[_ Ce]|[Ce _]]; [by rewrite E in Ce; auto|]. rewrite Ce, E, lookup_insert_eq in He. done.
Qed.

Lemma valid_routes_distinct routes s :
  pairwise distinct (valid_routes routes s) /\
  Forall (fun r => isLoadableRoute r = true /\ unseen s r) (valid_routes routes s).
Proof.
  revert s. induction routes as [|r rs IH]; intros s; simpl; [done|].
  pose proof (check_route_valid r s) as Hv. pose proof (check_route_mono r s) as Hm.
  pose proof (check_route_distinct r s) as Hd.
  destruct (check_route r s) as [[] s']; simpl in *; destruct (IH s') as [IH1 IH2].
  - split; [split; [|done]|].
    + eapply list.Forall_impl; [exact IH2|]. intros q [_ Hq]. auto.
    + constructor; [tauto|]. eapply list.Forall_impl; [exact IH2|]. naive_solver.
  - split; [done|]. eapply list.Forall_impl; [exact IH2|]. naive_solver.
Qed.

Lemma valid_routes_sublist routes s : sublist (valid_routes routes s) routes.
Proof.
  revert s. induction routes as [|r rs IH]; intros s; simpl; [done|].
  destruct (check_route r s) as [[] s']; [by apply sublist_skip|by apply sublist_cons].
Qed.

(** Routes that are loadable and distinct are all kept. *)
Lemma valid_routes_all routes s :
  pairwise distinct routes -> Forall (fun r => isLoadableRoute r = true /\ unseen s r) routes ->
  valid_routes routes s = routes.
Proof.
  revert s. induction routes as [|r rs IH]; intros s; simpl; [done|].
  intros [Hd Hp] [[Hl Hu] Hf]%list.Forall_cons.
  pose proof (proj2 (check_route_valid r s) (conj Hl Hu)) as Hv.
  pose proof (fun q => check_route_unseen r s q) as Hun.
  destruct (check_route r s) as [valid s']; simpl in *; subst valid. f_equal. apply IH; [done|].
  rewrite list.Forall_forall in *. intros q Hq. destruct (Hf q Hq). auto.
Qed.

(** ** The index answers for the list of routes *)

Definition by_host (h : string) (r : RouteEntry) : bool :=
  negb (r_Hostname r ≡? "") && (host_key r ≡? h).
Definition by_header (h : string) (r : RouteEntry) : bool :=
  negb (r_Header r ≡? "") && (r_Header r ≡? h).
Definition by_group (g : string) (r : RouteEntry) : bool :=
  negb (r_RoutingGroup r ≡? "") && (r_RoutingGroup r ≡? g).

Lemma index_route_lookup m def r :
  let '(m', def') := index_route (m, def) r in
  (forall h, m' !! ("host:" +:+ h) = if by_host h r then Some r else m !! ("host:" +:+ h)) /\
  (forall h, m' !! ("hdr:" +:+ h) = if by_header h r then Some r else m !! ("hdr:" +:+ h)) /\
  (forall g, m' !! ("rg:" +:+ g) = if by_group g r then Some r else m !! ("rg:" +:+ g)) /\
  def' = match def with Some d => Some d | None => if r_Default r then Some r else None end.
Proof.
  unfold index_route, by_host, by_header, by_group. fold (host_key r).
  assert (Hne : forall (a b x y : string), a +:+ x <> b +:+ y ->
    forall (mm : gmap string RouteEntry) v, <[b +:+ y := v]> mm !! (a +:+ x) = mm !! (a +:+ x)).
  { intros. rewrite lookup_insert_ne; congruence. }
  assert (Heq : forall (a x y : string) (mm : gmap string RouteEntry) v,
    <[a +:+ y := v]> mm !! (a +:+ x) = if y ≡? x then Some v else mm !! (a +:+ x)).
  { intros a x y mm v. case_bool_decide as E; [subst; by rewrite lookup_insert_eq|].
    rewrite lookup_insert_ne; [done|]. by intros ?%(inj _). }
  split_and!; try intros k; [..|by destruct def, (r_Default r)].
  all: destruct (r_Header r ≡? ""), (r_Hostname r ≡? ""), (r_RoutingGroup r ≡? ""); cbn [negb andb];
    repeat first [rewrite Hne by done | rewrite Heq]; done.
Qed.

(** With distinct keys the last writer of a key is the only one. *)
Lemma build_index_lookup routes :
  pairwise distinct routes ->
  let '(m, def) := build_index routes in
  (forall h, m !! ("host:" +:+ h) = find_first (by_host h) routes) /\
  (forall h, m !! ("hdr:" +:+ h) = find_first (by_header h) routes) /\
  (forall g, m !! ("rg:" +:+ g) = find_first (by_group g) routes) /\
  def = find_first r_Default routes.
Proof.
  unfold build_index. induction routes as [|r rs IH] using rev_ind; intros Hd.
  { simpl. split_and!; intros; try apply lookup_empty; done. }
  rewrite fold_left_app. simpl.
  apply pairwise_app in Hd as (Hrs & _ & Hr). specialize (IH Hrs).
  destruct (fold_left index_route rs (∅, None)) as [m def].
  destruct IH as (Ih & Ie & Ig & Id). pose proof (index_route_lookup m def r) as Hi.
  destruct (index_route (m, def) r) as [m' def']. destruct Hi as (Hh & He & Hg & Hdef).
  rewrite list.Forall_forall in Hr.
  assert (Hnone : forall p : RouteEntry -> bool,
    (forall q, p q = true -> p r = true -> distinct q r -> False) -> p r = true ->
    find_first p rs = None).
  { intros p Hp Hpr. apply find_first_None, list.Forall_forall. intros q Hq.
    destruct (p q) eqn:E; [|done]. exfalso. apply (Hp q E Hpr).
    specialize (Hr q Hq). by inversion Hr. }
  unfold by_host, by_header, by_group in *.
  split_and!; try intros k; rewrite ?Hh, ?He, ?Hg, find_first_app; simpl.
  - rewrite Ih. destruct (negb _ && _) eqn:E.
    + rewrite Hnone; [done| |done]. intros q Hq Hr' [_ Dh _]. rewrite !andb_true_iff in *.
      rewrite !negb_true_iff, !bool_decide_eq_false, !bool_decide_eq_true in *.
      destruct Hq, Hr'; apply Dh; congruence.
    + by rewrite option_match_id.
  - rewrite Ie. destruct (negb _ && _) eqn:E.
    + rewrite Hnone; [done| |done]. intros q Hq Hr' [_ _ De]. rewrite !andb_true_iff in *.
      rewrite !negb_true_iff, !bool_decide_eq_false, !bool_decide_eq_true in *.
      destruct Hq, Hr'; apply De; congruence.
    + by rewrite option_match_id.
  - rewrite Ig. destruct (negb _ && _) eqn:E.
    + rewrite Hnone; [done| |done]. intros q Hq Hr' [Dg _ _]. rewrite !andb_true_iff in *.
      rewrite !negb_true_iff, !bool_decide_eq_false, !bool_decide_eq_true in *.
      destruct Hq, Hr'; apply Dg; congruence.
    + by rewrite option_match_id.
  - rewrite Hdef, Id. by destruct (find_first _ rs).
Qed.

(** The routing policy, on the list of routes: an explicit hostname first, then
    an explicit header without falling back, then the first default. *)
Definition route_policy (routes : list RouteEntry) (host header : string) : option RouteEntry :=
  match (if normalizeHostname host ≡? "" then None
         else find_first (by_host (normalizeHostname host)) routes) with
  | Some r => Some r
  | None => if header ≡? "" then find_first r_Default routes
            else find_first (by_header header) routes
  end.

(** The cache serves exactly the routes of the list. *)
Definition serves (gs : RouteCache) (routes : list RouteEntry) : Prop :=
  pairwise distinct routes /\ (gs_routes gs, gs_defaultRoute gs) = build_index routes.

Lemma serves_findRoute gs routes host header :
  serves gs routes -> findRoute host header gs = route_policy routes host header.
Proof.
  intros [Hd Hb]. pose proof (build_index_lookup routes Hd) as Hl. rewrite <- Hb in Hl.
  destruct Hl as (Hh & He & _ & Hdef). unfold findRoute, route_policy. rewrite Hh, He, Hdef.
  by destruct (if _ ≡? _ then _ else _), (header ≡? "").
Qed.

Lemma serves_group gs routes g :
  serves gs routes -> gs_routes gs !! ("rg:" +:+ g) = find_first (by_group g) routes.
Proof.
  intros [Hd Hb]. pose proof (build_index_lookup routes Hd) as Hl. rewrite <- Hb in Hl. apply Hl.
Qed.

Section loading.
Context {E : Type} `{KubeErrors E, YamlCodec E} (Error : E -> string).

(** The outcome of a reload, by what the ConfigMap holds. *)
Lemma loadRoutes_cases now got gs :
  let '(err, gs') := loadRoutes Error now got gs in
  match got with
  | Ok cm =>
      match default ∅ (cm_Data cm) !! GatewayConfigMapKey ≫=
            (fun t => match parseRoutes t with Ok T => Some T | Err _ => None end) with
      | Some T =>
          err = None /\
          if bool_decide (T <> [] /\ valid_routes T no_seen = [])
          then gs_routes gs' = gs_routes gs /\ gs_defaultRoute gs' = gs_defaultRoute gs /\
               gs_healthChecker gs' = gs_healthChecker gs
          else serves gs' (valid_routes T no_seen) /\
               gs_healthChecker gs' =
                 resetSleeping (loadedRunningBackends (valid_routes T no_seen)) <$> gs_healthChecker gs
      | None => err = None /\ gs_routes gs' = gs_routes gs /\
                gs_defaultRoute gs' = gs_defaultRoute gs /\ gs_healthChecker gs' = gs_healthChecker gs
      end
  | Err e => err <> None /\ gs_routes gs' = gs_routes gs /\
             gs_defaultRoute gs' = gs_defaultRoute gs /\ gs_healthChecker gs' = gs_healthChecker gs
  end.
Proof.
  unfold loadRoutes. destruct got as [cm|e]; simpl; [|done].
  destruct (default ∅ (cm_Data cm) !! GatewayConfigMapKey) as [text|]; simpl; [|done].
  destruct (parseRoutes text) as [T|e]; simpl; [|done].
  pose proof (valid_routes_distinct T no_seen) as [Hd _].
  assert (Hb : (0 <? Z.of_nat (length T)) && (Z.of_nat (length (valid_routes T no_seen)) =? 0) =
               bool_decide (T <> [] /\ valid_routes T no_seen = [])).
  { apply eq_true_iff_eq. rewrite bool_decide_eq_true, andb_true_iff, Z.ltb_lt, Z.eqb_eq.
    destruct T as [|t T']; simpl length at 1; [split; [lia|naive_solver]|].
    destruct (valid_routes (t :: T') no_seen); simpl length; [|split; [lia|naive_solver]].
    split; [done|lia]. }
  rewrite Hb. case_bool_decide; [done|].
  destruct (build_index (valid_routes T no_seen)) as [m def] eqn:Ei. simpl. done.
Qed.

End loading.

(** ** Tables the operator publishes are served whole *)

Record servable (r : RouteEntry) : Prop := {
  servable_loadable : isLoadableRoute r = true;
  servable_group : r_RoutingGroup r <> "";
  servable_host : r_Hostname r <> "" -> host_key r <> ""
}.

Definition good_backend (b : Backend) : Prop :=
  b_Name b <> "" /\ b_Namespace b <> "" /\ b_CoordinatorURL b <> "".

Lemma isLoadableRoute_true r :
  r_RoutingGroup r <> "" ->
  isLoadableRoute r = true <-> r_Name r <> "" /\ r_Backends r <> [] /\ Forall good_backend (r_Backends r).
Proof.
  intros Hg. unfold isLoadableRoute. rewrite (bool_decide_false _ Hg). simpl.
  destruct (decide (r_Name r = "")) as [En|En];
    [rewrite bool_decide_true by done; naive_solver|rewrite bool_decide_false by done; simpl].
  destruct (r_Backends r) as [|b bs] eqn:Eb; [simpl; naive_solver|].
  replace (Z.of_nat (length (b :: bs)) =? 0) with false by (simpl; lia).
  rewrite forallb_forall, list.Forall_forall. setoid_rewrite list_elem_of_In.
  unfold good_backend. setoid_rewrite negb_true_iff. setoid_rewrite orb_false_iff.
  setoid_rewrite orb_false_iff. setoid_rewrite bool_decide_eq_false. naive_solver.
Qed.

Lemma wf_distinct routes :
  routes_wf routes -> Forall servable routes -> pairwise distinct routes.
Proof.
  intros [Hc _ _]. induction routes as [|r rs IH]; simpl in *; [done|].
  intros [Hr Hrs]%list.Forall_cons. destruct Hc as [Hrc Hc]. split; [|auto].
  rewrite list.Forall_forall in *. intros q Hq. destruct (Hrc q Hq) as [Cg Ch Ce _].
  destruct Hr as [_ _ Hh]. split; auto.
Qed.

Lemma servable_all_loaded routes :
  routes_wf routes -> Forall servable routes -> valid_routes routes no_seen = routes.
Proof.
  intros Hwf Hs. apply valid_routes_all; [by apply wf_distinct|].
  eapply list.Forall_impl; [exact Hs|]. intros r []. split; [done|apply unseen_no_seen].
Qed.

Record servable_registration (reg : registration) : Prop := {
  sreg_group : reg_routingGroup reg <> "";
  sreg_backend : good_backend (reg_backend reg);
  sreg_host : reg_hostname reg <> "" -> normalizeHostname (reg_hostname reg) <> ""
}.

Lemma servable_strip name ns p r r' : strip name ns p r = Some r' -> servable r -> servable r'.
Proof.
  intros Es [Sl Sg Sh]. pose proof (strip_group _ _ _ _ _ Es) as (Eg & Eh & _).
  pose proof (strip_meta _ _ _ _ _ Es) as (En & Eo & Eb).
  apply isLoadableRoute_true in Sl as (Sn & Sb & Sf); [|done].
  split; [|congruence|rewrite Eh, Eo; done].
  apply isLoadableRoute_true; [congruence|]. split_and!; [congruence|auto|].
  rewrite list.Forall_forall in *. intros b Hb. apply (strip_elem _ _ _ _ _ b Es) in Hb as [? _]. auto.
Qed.

(** A route updated with a good backend and hostname. *)
Lemma servable_update route b e h d ded route' :
  r_Name route <> "" -> r_RoutingGroup route <> "" -> Forall good_backend (r_Backends route) ->
  NoDup (backend_id <$> r_Backends route) ->
  (r_Hostname route <> "" -> host_key route <> "") -> (h <> "" -> normalizeHostname h <> "") ->
  good_backend b -> updateBackendInRouteWithMode route b e h d ded = Ok route' -> servable route'.
Proof.
  intros Hn Hg Hf Hnd Hh Hb Hgb Hu.
  pose proof (update_backend_Ok _ _ _ _ _ _ _ Hu) as (_ & Eg & Eh & _).
  pose proof (update_backend_name _ _ _ _ _ _ _ Hu) as (En & _).
  pose proof (update_backend_ids _ _ _ _ _ _ _ Hnd Hu) as (_ & Hin & _).
  split; [|congruence|].
  - apply isLoadableRoute_true; [congruence|]. split_and!; [congruence| |].
    + intros E. rewrite E in Hin. by apply elem_of_nil in Hin.
    + rewrite list.Forall_forall in *. intros c Hc.
      apply (update_backend_elem _ _ _ _ _ _ _ c Hnd Hu) in Hc.
      destruct (has_own b c); [by subst|auto].
  - unfold host_key in *. destruct Eh as [-> | ->]; done.
Qed.

(** A table of servable routes stays so when a runtime is registered. *)
Lemma register_servable reg routes routes' :
  routes_wf routes -> Forall servable routes -> servable_registration reg ->
  register reg routes = Ok routes' -> Forall servable routes'.
Proof.
  intros Hwf Hs [Rg Rb Rh] Hr.
  assert (Hst : Forall servable (stripped reg routes)).
  { apply list.Forall_forall. intros r' (r & Hin & Es)%list_elem_of_omap.
    rewrite list.Forall_forall in Hs. by eapply servable_strip, Hs. }
  apply register_Ok in Hr as (_ & l1 & route' & l2 & -> & Hg & Hcase).
  destruct Hcase as [(route & Es & Hu) | (Es & -> & _ & ->)].
  - pose proof (stripped_wf reg routes Hwf) as [_ Hi _]. rewrite Es in *.
    apply Forall_app in Hst as [Hs1 [Hs0 Hs2]%list.Forall_cons].
    apply Forall_app. split; [done|]. constructor; [|done].
    destruct Hs0 as [Sl Sg Sh]. apply isLoadableRoute_true in Sl as (Sn & Sb & Sf); [|done].
    rewrite table_ids_middle in Hi. apply list.NoDup_app in Hi as (Hi & _).
    eapply servable_update; [exact Sn|exact Sg|exact Sf|exact Hi|exact Sh|exact Rh|exact Rb|exact Hu].
  - rewrite Es in Hst. apply Forall_app. split; [done|]. constructor; [|constructor].
    eapply (servable_update (empty_route (reg_routingGroup reg)) _ _ _ _ true);
      [done|done|constructor|constructor|done|exact Rh|exact Rb|apply create_as_update].
Qed.

Section properties.
Context {E : Type} `{KubeErrors E, YamlCodec E} (Error : E -> string).

(** C19: After a reload of a ConfigMap whose text parses to a table with at
    least one valid route (or to the empty table), every request is routed by
    the policy - hostname, then header without fallback, then default - over
    the valid routes: a sublist of the table, all structurally valid, no two
    of which share a routing group, hostname or header. *)
Theorem load_refines_policy now cm text T gs :
  default ∅ (cm_Data cm) !! GatewayConfigMapKey = Some text -> parseRoutes text = Ok T ->
  (T = [] \/ valid_routes T no_seen <> []) ->
  let V := valid_routes T no_seen in
  let gs' := (loadRoutes Error now (Ok cm) gs).2 in
  sublist V T /\ Forall (fun r => isLoadableRoute r = true) V /\ pairwise distinct V /\
  (forall host header, findRoute host header gs' = route_policy V host header) /\
  (forall g, gs_routes gs' !! ("rg:" +:+ g) = find_first (by_group g) V).
Proof.
  intros Hk Hp Hv V gs'. pose proof (loadRoutes_cases Error now (Ok cm) gs) as Hc.
  subst gs'. destruct (loadRoutes Error now (Ok cm) gs) as [err gs']; simpl in *.
  rewrite Hk in Hc. simpl in Hc. rewrite Hp in Hc. destruct Hc as [_ Hc].
  rewrite bool_decide_false in Hc by naive_solver. destruct Hc as [Hs _].
  pose proof (valid_routes_distinct T no_seen) as [Hd Hf]. split_and!.
  - apply valid_routes_sublist.
  - eapply list.Forall_impl; [exact Hf|]. by intros r [].
  - exact Hd.
  - intros host header. by apply serves_findRoute.
  - intros g. by apply serves_group.
Qed.

(** An unreadable ConfigMap never takes routes away: when the API call
    fails, the key is missing, the text does not parse, or no route of a
    non-empty table is valid, every request is routed as before. *)
Theorem load_keeps_last_good now got gs host header :
  (forall cm, got = Ok cm ->
     match default ∅ (cm_Data cm) !! GatewayConfigMapKey with
     | None => True
     | Some text => forall T, parseRoutes text = Ok T -> T <> [] /\ valid_routes T no_seen = []
     end) ->
  findRoute host header (loadRoutes Error now got gs).2 = findRoute host header gs.
Proof.
  intros Hbad. pose proof (loadRoutes_cases Error now got gs) as Hc.
  destruct (loadRoutes Error now got gs) as [err gs']; simpl.
  assert (gs_routes gs' = gs_routes gs /\ gs_defaultRoute gs' = gs_defaultRoute gs) as [E1 E2].
  { destruct got as [cm|e]; [|tauto]. specialize (Hbad cm eq_refl).
    destruct (default ∅ (cm_Data cm) !! GatewayConfigMapKey) as [text|]; simpl in Hc; [|tauto].
    destruct (parseRoutes text) as [T|e]; [|tauto].
    rewrite bool_decide_true in Hc by (by apply Hbad). tauto. }
  unfold findRoute. by rewrite E1, E2.
Qed.

(** C3: What the operator registers, the gateway serves.  When a runtime is
    registered in a well-formed servable table and the gateway loads the text
    written, a request whose Host is the runtime's hostname, in any case and
    with any port the normalisation drops, finds the runtime's routing group,
    and that route has the runtime as registered among its backends. *)
Theorem registered_runtime_is_routed reg T T' now cm gs host header :
  routes_wf T -> Forall servable T -> servable_registration reg ->
  register reg T = Ok T' ->
  default ∅ (cm_Data cm) !! GatewayConfigMapKey = Some (serializeRoutes T') ->
  reg_hostname reg <> "" -> normalizeHostname host = normalizeHostname (reg_hostname reg) ->
  exists r, findRoute host header (loadRoutes Error now (Ok cm) gs).2 = Some r /\
    r_RoutingGroup r = reg_routingGroup reg /\ reg_backend reg ∈ r_Backends r.
Proof.
  intros Hwf Hs Hreg Hr Hk Hh Hn. pose proof (register_wf _ _ _ Hwf Hr) as Hwf'.
  pose proof (register_servable _ _ _ Hwf Hs Hreg Hr) as Hs'.
  pose proof (servable_all_loaded _ Hwf' Hs') as Hall.
  apply register_base in Hr as (l1 & base & r & l2 & -> & Hg & Hu & _ & Hi & _ & _); [|done].
  pose proof (update_backend_Ok _ _ _ _ _ _ _ Hu) as (_ & Hg' & _).
  rewrite table_ids_middle in Hi. apply list.NoDup_app in Hi as (Hi & _).
  pose proof (update_backend_ids _ _ _ _ _ _ _ Hi Hu) as (_ & Hb & _).
  exists r. split; [|split; [congruence|done]].
  pose proof (loadRoutes_cases Error now (Ok cm) gs) as Hc.
  destruct (loadRoutes Error now (Ok cm) gs) as [err gs']; simpl in *.
  rewrite Hk in Hc. simpl in Hc. rewrite parse_serialize in Hc. destruct Hc as [_ Hc].
  rewrite Hall, bool_decide_false in Hc; [|intros [_ ?]; by destruct l1].
  destruct Hc as [Hsv _]. rewrite (serves_findRoute _ _ _ _ Hsv). unfold route_policy. rewrite Hn.
  destruct Hreg as [_ _ Hk']. rewrite (bool_decide_false _ (Hk' Hh)).
  destruct Hsv as [Hd _]. pose proof (update_backend_name _ _ _ _ _ _ _ Hu) as (_ & Hname).
  assert (Hkey : host_key r = normalizeHostname (reg_hostname reg)) by (unfold host_key; by rewrite Hname).
  rewrite (find_first_unique _ _ r); [done|set_solver| |].
  - unfold by_host. rewrite (Hname Hh), Hkey, bool_decide_false, bool_decide_true; done.
  - intros q Hq Hqh. unfold by_host in Hqh. rewrite andb_true_iff, negb_true_iff in Hqh.
    rewrite bool_decide_eq_false, bool_decide_eq_true in Hqh. destruct Hqh as [Hq1 Hq2].
    destruct (pairwise_elem distinct _ q r distinct_sym Hd Hq) as [?|[_ Dh _]]; [set_solver|done|].
    exfalso. apply Dh; [done|by rewrite Hname|congruence].
Qed.

(** A change that is noticed but whose reload fails on the API call is
    lost: the version is already marked as seen, so no later tick reloads while
    the ConfigMap keeps that version, and requests are routed as before. *)
Theorem watch_loses_failed_reload now cm e last gs ticks :
  last <> Some (cm_ResourceVersion cm) ->
  Forall (fun t : Time * result E ConfigMap * result E ConfigMap =>
    exists cm', t.1.2 = Ok cm' /\ cm_ResourceVersion cm' = cm_ResourceVersion cm) ticks ->
  let st := watch_tick Error now (Ok cm) (Err e) (last, gs) in
  let st' := fold_left (fun st t => watch_tick Error t.1.1 t.1.2 t.2 st) ticks st in
  st' = st /\ forall host header, findRoute host header st'.2 = findRoute host header gs.
Proof.
  intros Hv Ht st st'. assert (Hst : st = (Some (cm_ResourceVersion cm), (loadRoutes Error now (Err e) gs).2)).
  { subst st. unfold watch_tick, hasConfigMapChanged. by rewrite bool_decide_false by congruence. }
  assert (st' = st) as ->; [|by rewrite Hst].
  subst st'. rewrite Hst. clear st Hst.
  induction Ht as [|t ticks (cm' & E1 & E2) _ IH]; simpl; [done|].
  etrans; [|exact IH]. f_equal. destruct t as [[t0 t1] t2]; simpl in *. subst t1.
  unfold hasConfigMapChanged. rewrite E2, bool_decide_true by done. done.
Qed.

End properties.

(** ** Witnesses *)

Definition ex_cm (T : list RouteEntry) : ConfigMap :=
  mkConfigMap (Some {[GatewayConfigMapKey := serializeRoutes T]}) 7.

Definition ex_cache : RouteCache :=
  mkCache ∅ None (Some (NewBackendHealthChecker Second Second 3))
    (mkReload zeroTime zeroTime zeroTime "" None 0 0).

(** The second route repeats the first one's hostname with a port and is
    dropped; the third has no backends. *)
Definition ex_table : list RouteEntry :=
  [mkRoute "a" "a" [ex_backend "n" "a"] "" "a.example.com" false;
   mkRoute "b" "b" [ex_backend "n" "b"] "" "A.example.com:443" false;
   mkRoute "c" "c" [] "" "" true;
   mkRoute "d" "d" [ex_backend "n" "d"] "dev" "" true].

Lemma load_refines_policy_witness :
  r_RoutingGroup <$> findRoute "A.EXAMPLE.COM:8080" "dev"
    (loadRoutes (fun _ => "") 0 (Ok (ex_cm ex_table)) ex_cache).2 = Some "a" /\
  route_policy (valid_routes ex_table no_seen) "other" "dev" =
    findRoute "other" "dev" (loadRoutes (fun _ => "") 0 (Ok (ex_cm ex_table)) ex_cache).2.
Proof.
  split; [vm_compute; reflexivity|]. symmetry.
  apply (load_refines_policy (fun _ : kube_error => "") 0 (ex_cm ex_table) (serializeRoutes ex_table)).
  - reflexivity.
  - apply parse_serialize.
  - right. vm_compute. discriminate.
Defined.

Lemma load_keeps_last_good_witness :
  let gs := (loadRoutes (fun _ => "") 0 (Ok (ex_cm ex_table)) ex_cache).2 in
  r_RoutingGroup <$> findRoute "a.example.com" "" gs = Some "a" /\
  findRoute "a.example.com" ""
    (loadRoutes (fun _ => "") 0 (Ok (ex_cm [mkRoute "c" "c" [] "" "" true])) gs).2 =
  findRoute "a.example.com" "" gs.
Proof.
  intros gs. split; [vm_compute; reflexivity|].
  apply (load_keeps_last_good (fun _ : kube_error => "")). intros cm [= <-].
  replace (default ∅ (cm_Data (ex_cm [mkRoute "c" "c" [] "" "" true])) !! GatewayConfigMapKey)
    with (Some (serializeRoutes [mkRoute "c" "c" [] "" "" true])) by reflexivity.
  intros T HT. rewrite parse_serialize in HT. injection HT as <-. split; [discriminate|reflexivity].
Defined.

Lemma ex_routes_servable : Forall servable ex_routes.
Proof. repeat constructor; vm_compute; discriminate. Qed.

Lemma registered_runtime_is_routed_witness :
  exists T', register ex_registration ex_routes = Ok T' /\
  exists r, findRoute "X.Example.Com:8443" ""
      (loadRoutes (fun _ => "") 0 (Ok (ex_cm T')) ex_cache).2 = Some r /\
    r_RoutingGroup r = "a--x" /\ ex_backend "a" "x" ∈ r_Backends r.
Proof.
  eexists. split; [vm_compute; reflexivity|].
  refine (registered_runtime_is_routed (fun _ : kube_error => "") ex_registration ex_routes _ 0
    (ex_cm _) ex_cache "X.Example.Com:8443" "" ex_routes_wf ex_routes_servable _ eq_refl _ _ _).
  - split; vm_compute; try discriminate. repeat split; discriminate.
  - reflexivity.
  - discriminate.
  - reflexivity.
Defined.

Lemma watch_loses_failed_reload_witness :
  watch_tick (fun _ => "") 0 (Ok (ex_cm ex_table)) (Err KTimeout) (Some 6, ex_cache) =
  fold_left (fun st t => watch_tick (fun _ => "") t.1.1 t.1.2 t.2 st)
    [(1, Ok (ex_cm ex_table), Ok (ex_cm ex_table)); (2, Ok (ex_cm ex_table), Ok (ex_cm ex_table))]
    (watch_tick (fun _ => "") 0 (Ok (ex_cm ex_table)) (Err KTimeout) (Some 6, ex_cache)).
Proof.
  symmetry. apply (watch_loses_failed_reload (fun _ : kube_error => "")).
  - discriminate.
  - repeat constructor; exists (ex_cm ex_table); split; reflexivity.
Defined.

(** Two hostnames that differ only in the port normalise to the empty string:
    the registry accepts both, the gateway serves only the first. *)
Lemma port_only_hostnames_dropped :
  let T := [mkRoute "a" "a" [ex_backend "n" "a"] "" ":80" false] in
  match register (mkRegistration "b" ":443" "" false true (ex_backend "n" "b")) T with
  | Ok T' => length T' = 2%nat /\ length (valid_routes T' no_seen) = 1%nat
  | Err _ => False
  end.
Proof. vm_compute. done. Qed.
