(* ===== verification/Selection.v ===== *)
(** * Choosing a backend ([pkg/gateway/backend_selection.go], [pkg/gateway/resume_candidate.go])

    A new query goes to the RUNNING, active backend of its route with the
    least load per unit of capacity; when none is available the gateway asks
    for one to be resumed.  Selection reads the health checker, the circuit
    breakers and the query tracker, which are the state here. *)

From Stdlib Require Import QArith Permutation.
From S2P Require Import Prelude GoStrings GoTime XTrinodeTypes Routes CircuitBreaker QueryActivity ConnErrors Health.
Open Scope Z_scope.

Record Guards := mkGuards {
  g_healthChecker : option BackendHealthChecker;
  g_circuitBreaker : option CircuitBreakerManager;
  g_queryActivity : QueryActivityTracker
}.

Definition set_health hc g := mkGuards hc (g_circuitBreaker g) (g_queryActivity g).
Definition set_breakers m g := mkGuards (g_healthChecker g) m (g_queryActivity g).
Definition set_activity t g := mkGuards (g_healthChecker g) (g_circuitBreaker g) t.

Definition state_running (b : Backend) : bool := (b_State b ≡? "") || (b_State b ≡? StateRunning).

Definition backendPassesRuntimeGuards (now : Time) (url : string) (g : Guards) : bool * Guards :=
  let unhealthy :=
    match g_healthChecker g with Some hc => negb (IsHealthy now url hc) | None => false end in
  if unhealthy : bool then (false, g) else
  match g_circuitBreaker g with
  | Some m =>
      let '(ok, m) := with_breaker url (fun cb => (Selectable now cb, cb)) m in
      (ok, set_breakers (Some m) g)
  | None => (true, g)
  end.

Definition isBackendSelectable (now : Time) (b : Backend) (g : Guards) : bool * Guards :=
  if negb (state_running b) then (false, g) else
  if negb (b_Active b) then (false, g) else
  backendPassesRuntimeGuards now (b_CoordinatorURL b) g.

Definition isStickyBackendRoutable (now : Time) (b : Backend) (g : Guards) : bool * Guards :=
  if state_running b then
    if negb (b_Active b) then (false, g)
    else backendPassesRuntimeGuards now (b_CoordinatorURL b) g
  else if b_State b ≡? StateDraining then backendPassesRuntimeGuards now (b_CoordinatorURL b) g
  else (false, g).

(** ** Load balancing *)

Definition getBackendLoad (loads : gmap string BackendLoad) (url : string) : BackendLoad :=
  match loads !! url with Some load => load | None => zeroLoad end.

Definition totalLoad (loads : gmap string BackendLoad) (b : Backend) : Z :=
  let load := getBackendLoad loads (b_CoordinatorURL b) in
  int_add (RunningQueries load) (QueuedQueries load).

Definition capacity (b : Backend) : Z :=
  if b_CapacityUnits b <=? 0 then 1 else b_CapacityUnits b.

(** The test of the loop of [selectByCapacity]: [x] replaces the selected [y],
    whose load and capacity the loop keeps in [minLoad] and [minCapacity]. *)
Definition lower_load (loads : gmap string BackendLoad) (x y : Backend) : bool :=
  let crossA := int_mul (totalLoad loads x) (capacity y) in
  let crossB := int_mul (totalLoad loads y) (capacity x) in
  if crossA <? crossB then true else (crossA =? crossB) && (capacity x <? capacity y).

Definition selectSmallestCapacity (backends : list Backend) : option Backend :=
  match backends with
  | [] => None
  | b :: bs => fold_left (keep_best (fun x y => capacity x <? capacity y)) bs (Some b)
  end.

Definition selectByCapacity (backends : list Backend) (loads : gmap string BackendLoad) :
    option Backend :=
  match fold_left (keep_best (lower_load loads)) backends None with
  | Some b => Some b
  | None => selectSmallestCapacity backends
  end.

Definition hasLoadData (backends : list Backend) (loads : gmap string BackendLoad) : bool :=
  existsb (fun b => match loads !! b_CoordinatorURL b with
                    | Some load => 0 <? int_add (RunningQueries load) (QueuedQueries load)
                    | None => false
                    end) backends.

(** The first loop of [selectBackend]. *)
Fixpoint selectable_backends (now : Time) (bs : list Backend) (g : Guards) : list Backend * Guards :=
  match bs with
  | [] => ([], g)
  | b :: bs =>
      let '(ok, g) := isBackendSelectable now b g in
      let '(active, g) := selectable_backends now bs g in
      (if (ok : bool) then b :: active else active, g)
  end.

(** The body of the fail-open loop; [probe] is what the network answers to a
    health probe of a URL. *)
Definition fail_open (probe : string -> probe_result) (now : Time) (b : Backend) (g : Guards) :
    bool * Guards :=
  if negb (state_running b) then (false, g) else
  if negb (b_Active b) then (false, g) else
  match g_healthChecker g with
  | Some hc =>
      if IsSleeping now (b_CoordinatorURL b) hc then
        let '(ok, hc) := probeBackend now (b_CoordinatorURL b) (probe (b_CoordinatorURL b)) hc in
        (ok, set_health (Some hc) g)
      else (true, g)
  | None => (true, g)
  end.

Fixpoint fail_open_backends (probe : string -> probe_result) (now : Time) (bs : list Backend)
    (g : Guards) : list Backend * Guards :=
  match bs with
  | [] => ([], g)
  | b :: bs =>
      let '(ok, g) := fail_open probe now b g in
      let '(active, g) := fail_open_backends probe now bs g in
      (if (ok : bool) then b :: active else active, g)
  end.

Definition selectBackend (probe : string -> probe_result) (now : Time) (route : RouteEntry)
    (g : Guards) : option Backend * Guards :=
  match r_Backends route with
  | [] => (None, g)
  | _ =>
      let '(active, g) := selectable_backends now (r_Backends route) g in
      let '(active, g) :=
        match active with
        | [] => fail_open_backends probe now (r_Backends route) g
        | _ => (active, g)
        end in
      match active with
      | [] => (None, g)
      | _ =>
          let '(loads, t) := BackendLoads now (g_queryActivity g) in
          let g := set_activity t g in
          (if hasLoadData active loads then selectByCapacity active loads
           else selectSmallestCapacity active, g)
      end
  end.

(** ** Resume candidates *)

Definition resumeStatePriority (st : BackendState) : Z * bool :=
  if st ≡? StatePaused then (0, true) else
  if st ≡? StateResuming then (1, true) else (0, false).

Definition named (b : Backend) : bool :=
  b_Active b && negb ((b_Name b ≡? "") || (b_Namespace b ≡? "")).

(** The disjunction of the loop, against the fields of the current best. *)
Definition better_resume (x y : Backend) : bool :=
  let pri := (resumeStatePriority (b_State x)).1 in
  let bestStatePri := (resumeStatePriority (b_State y)).1 in
  (pri <? bestStatePri) ||
  ((pri =? bestStatePri) && (capacity x <? capacity y)) ||
  ((pri =? bestStatePri) && (capacity x =? capacity y) &&
   (str_ltb (b_Name x) (b_Name y) ||
    ((b_Name x ≡? b_Name y) && str_ltb (b_Namespace x) (b_Namespace y)))).

Definition better_sleeping (x y : Backend) : bool :=
  (capacity x <? capacity y) ||
  ((capacity x =? capacity y) &&
   (str_ltb (b_Name x) (b_Name y) ||
    ((b_Name x ≡? b_Name y) && str_ltb (b_Namespace x) (b_Namespace y)))).

Definition sleeping_eligible (now : Time) (hc : BackendHealthChecker) (b : Backend) : bool :=
  named b && state_running b && IsSleeping now (b_CoordinatorURL b) hc.

Definition pickSleepingResumeCandidate (now : Time) (route : RouteEntry)
    (health : option BackendHealthChecker) : option Backend :=
  match health with
  | None => None
  | Some hc =>
      fold_left (fun best b => if sleeping_eligible now hc b then keep_best better_sleeping best b
                               else best) (r_Backends route) None
  end.

Definition resume_eligible (b : Backend) : bool :=
  named b && (resumeStatePriority (b_State b)).2.

Definition pickResumeCandidate (now : Time) (route : RouteEntry)
    (health : option BackendHealthChecker) : option Backend :=
  match fold_left (fun best b => if resume_eligible b then keep_best better_resume best b else best)
          (r_Backends route) None with
  | Some b => Some b
  | None => pickSleepingResumeCandidate now route health
  end.

(** ** The orders the loops minimise *)

(** Queries per unit of capacity, as a rational number. *)
Definition effective_load (loads : gmap string BackendLoad) (b : Backend) : Q :=
  Qmake (totalLoad loads b) (Z.to_pos (capacity b)).

#[export] Instance Q_total : TotalCompare Qcompare.
Proof.
  split.
  - intros x y. by rewrite Qcompare_antisym.
  - intros x y z. rewrite <- !Qlt_alt. apply Qlt_trans.
  - intros x y z Hxy%Qeq_alt. by rewrite Hxy.
Qed.

Definition by_load (loads : gmap string BackendLoad) : Backend -> Backend -> comparison :=
  lex (on (effective_load loads) Qcompare) (on capacity Z.compare).

Definition by_name : Backend -> Backend -> comparison :=
  lex (on b_Name String.compare) (on b_Namespace String.compare).

Definition by_resume : Backend -> Backend -> comparison :=
  lex (on (fun b => (resumeStatePriority (b_State b)).1) Z.compare)
    (lex (on capacity Z.compare) by_name).

Definition by_sleeping : Backend -> Backend -> comparison := lex (on capacity Z.compare) by_name.

Lemma capacity_pos b : 0 < capacity b.
Proof. unfold capacity. destruct (Z.leb_spec (b_CapacityUnits b) 0); lia. Qed.

(** No product of the loop overflows. *)
Definition small (loads : gmap string BackendLoad) (b : Backend) : Prop :=
  0 <= totalLoad loads b < 2 ^ 31 /\ capacity b < 2 ^ 31.

Lemma lower_load_by_load loads x y :
  small loads x -> small loads y -> lower_load loads x y = cmp_lt (by_load loads) x y.
Proof.
  intros [Hx Cx] [Hy Cy]. pose proof (capacity_pos x). pose proof (capacity_pos y).
  unfold lower_load, cmp_lt, by_load, lex, on, Qcompare, effective_load. simpl.
  rewrite !Z2Pos.id by done. rewrite !int_mul_small by (unfold in_int64, int64_min, int64_max; nia).
  destruct (Z.compare_spec (totalLoad loads x * capacity y) (totalLoad loads y * capacity x)).
  - replace (_ <? _) with false by lia. replace (_ =? _) with true by lia. simpl.
    by destruct (Z.compare_spec (capacity x) (capacity y)); lia.
  - replace (_ <? _) with true by lia. done.
  - replace (_ <? _) with false by lia. replace (_ =? _) with false by lia. done.
Qed.

Lemma name_test x y :
  (str_ltb (b_Name x) (b_Name y) ||
   ((b_Name x ≡? b_Name y) && str_ltb (b_Namespace x) (b_Namespace y))) = cmp_lt by_name x y.
Proof.
  unfold str_ltb, cmp_lt, by_name, lex, on.
  destruct (String.compare (b_Name x) (b_Name y)) eqn:En; simpl.
  - apply String.compare_eq_iff in En. by rewrite bool_decide_true.
  - done.
  - rewrite bool_decide_false; [done|]. intros E. rewrite E in En.
    pose proof (cmp_refl String.compare (b_Name y)). congruence.
Qed.

Lemma better_sleeping_cmp x y : better_sleeping x y = cmp_lt by_sleeping x y.
Proof.
  unfold better_sleeping. rewrite name_test. unfold cmp_lt, by_sleeping, lex, on.
  destruct (Z.compare_spec (capacity x) (capacity y)).
  - replace (_ <? _) with false by lia. replace (_ =? _) with true by lia. done.
  - by replace (_ <? _) with true by lia.
  - replace (_ <? _) with false by lia. by replace (_ =? _) with false by lia.
Qed.

Lemma better_resume_cmp x y : better_resume x y = cmp_lt by_resume x y.
Proof.
  pose proof (better_sleeping_cmp x y) as Hs. unfold better_sleeping, cmp_lt, by_sleeping in Hs.
  unfold better_resume, cmp_lt, by_resume, lex at 1, on at 1.
  set (p := (resumeStatePriority (b_State x)).1). set (q := (resumeStatePriority (b_State y)).1).
  destruct (Z.compare_spec p q).
  - replace (p <? q) with false by lia. replace (p =? q) with true by lia. simpl.
    rewrite <- Hs. by destruct (capacity x <? capacity y).
  - by replace (p <? q) with true by lia.
  - replace (p <? q) with false by lia. by replace (p =? q) with false by lia.
Qed.

(** ** What guards keep *)

(** Selection reads breakers; the only thing it does to the manager is to
    create the breaker of a backend it has not seen. *)
Definition breakers_extended (m m' : option CircuitBreakerManager) : Prop :=
  match m, m' with
  | Some m, Some m' => m ⊆ m'
  | None, None => True
  | _, _ => False
  end.

#[export] Instance breakers_extended_preorder : PreOrder breakers_extended.
Proof.
  split.
  - intros [m|]; simpl; [reflexivity|done].
  - intros [m1|] [m2|] [m3|]; simpl; try done. apply transitivity.
Qed.

Lemma with_breaker_read {A} url (f : CircuitBreaker -> A) m :
  m ⊆ (with_breaker url (fun cb => (f cb, cb)) m).2.
Proof.
  unfold with_breaker, GetOrCreateBreaker. destruct (m !! url) as [cb|] eqn:E; simpl.
  - rewrite insert_id by done. reflexivity.
  - rewrite insert_insert_eq. by apply insert_subseteq.
Qed.

Lemma guards_frame now url g :
  let g' := (backendPassesRuntimeGuards now url g).2 in
  g_healthChecker g' = g_healthChecker g /\ g_queryActivity g' = g_queryActivity g /\
  breakers_extended (g_circuitBreaker g) (g_circuitBreaker g').
Proof.
  unfold backendPassesRuntimeGuards.
  destruct (match g_healthChecker g with Some hc => negb (IsHealthy now url hc) | None => false end); simpl.
  { split_and!; reflexivity. }
  destruct (g_circuitBreaker g) as [m|] eqn:Em; simpl; [|rewrite Em; done].
  pose proof (with_breaker_read url (fun cb => Selectable now cb) m) as Hm.
  destruct (with_breaker _ _ m) as [ok m']; simpl in *. done.
Qed.

Lemma selectable_frame now b g :
  let g' := (isBackendSelectable now b g).2 in
  g_healthChecker g' = g_healthChecker g /\ g_queryActivity g' = g_queryActivity g /\
  breakers_extended (g_circuitBreaker g) (g_circuitBreaker g').
Proof.
  unfold isBackendSelectable. destruct (negb (state_running b)); [split_and!; reflexivity|].
  destruct (negb (b_Active b)); [split_and!; reflexivity|]. apply guards_frame.
Qed.

Lemma fail_open_frame probe now b g :
  let g' := (fail_open probe now b g).2 in
  g_queryActivity g' = g_queryActivity g /\ g_circuitBreaker g' = g_circuitBreaker g.
Proof.
  unfold fail_open. destruct (negb (state_running b)); [done|]. destruct (negb (b_Active b)); [done|].
  destruct (g_healthChecker g) as [hc|]; [|done]. destruct (IsSleeping _ _ hc); [|done].
  by destruct (probeBackend _ _ _ hc).
Qed.

(** ** The loops as filters *)

Definition breaker_ok (now : Time) (url : string) (m : option CircuitBreakerManager) : bool :=
  match m with
  | None => true
  | Some m => match m !! url with Some cb => Selectable now cb | None => true end
  end.

Definition healthy (now : Time) (url : string) (hc : option BackendHealthChecker) : bool :=
  match hc with Some hc => IsHealthy now url hc | None => true end.

Definition asleep (now : Time) (url : string) (hc : option BackendHealthChecker) : bool :=
  match hc with Some hc => IsSleeping now url hc | None => false end.

Definition probe_ok (r : probe_result) : bool :=
  match r with ProbeStatus code => (200 <=? code) && (code <? 300) | _ => false end.

Definition accepting (b : Backend) : bool := state_running b && b_Active b.

(** Eligible for a new query. *)
Definition eligible (now : Time) (g : Guards) (b : Backend) : bool :=
  accepting b && healthy now (b_CoordinatorURL b) (g_healthChecker g) &&
  breaker_ok now (b_CoordinatorURL b) (g_circuitBreaker g).

(** Eligible when nothing else is. *)
Definition awake (probe : string -> probe_result) (now : Time) (hc : option BackendHealthChecker)
    (b : Backend) : bool :=
  accepting b && (negb (asleep now (b_CoordinatorURL b) hc) || probe_ok (probe (b_CoordinatorURL b))).

Lemma with_breaker_selectable now url m :
  (with_breaker url (fun cb => (Selectable now cb, cb)) m).1 = breaker_ok now url (Some m) /\
  forall url', breaker_ok now url' (Some (with_breaker url (fun cb => (Selectable now cb, cb)) m).2)
             = breaker_ok now url' (Some m).
Proof.
  unfold with_breaker, GetOrCreateBreaker, breaker_ok. destruct (m !! url) as [cb|] eqn:E; simpl.
  - split; [done|]. intros url'. by rewrite insert_id.
  - split; [done|]. intros url'. rewrite insert_insert_eq.
    destruct (decide (url = url')) as [<-|Hne]; [by rewrite lookup_insert_eq, E|].
    by rewrite lookup_insert_ne.
Qed.

Lemma isBackendSelectable_eligible now b g :
  (isBackendSelectable now b g).1 = eligible now g b /\
  forall b', eligible now (isBackendSelectable now b g).2 b' = eligible now g b'.
Proof.
  unfold isBackendSelectable, eligible, accepting.
  destruct (state_running b); simpl; [|done]. destruct (b_Active b); simpl; [|done].
  unfold backendPassesRuntimeGuards, healthy.
  destruct (g_healthChecker g) as [hc|] eqn:Eh.
  - destruct (IsHealthy now (b_CoordinatorURL b) hc); simpl; [|by rewrite Eh].
    destruct (g_circuitBreaker g) as [m|] eqn:Em; simpl; [|by rewrite Eh, Em].
    pose proof (with_breaker_selectable now (b_CoordinatorURL b) m) as [H1 H2].
    destruct (with_breaker _ _ m) as [ok m']; simpl in *. rewrite Eh. split; [done|].
    intros b'. by rewrite H2.
  - simpl. destruct (g_circuitBreaker g) as [m|] eqn:Em; simpl; [|by rewrite Eh, Em].
    pose proof (with_breaker_selectable now (b_CoordinatorURL b) m) as [H1 H2].
    destruct (with_breaker _ _ m) as [ok m']; simpl in *. rewrite Eh. split; [done|].
    intros b'. by rewrite H2.
Qed.

Lemma selectable_backends_filter now bs g :
  let '(active, g') := selectable_backends now bs g in
  active = filterb (eligible now g) bs /\
  g_healthChecker g' = g_healthChecker g /\ g_queryActivity g' = g_queryActivity g /\
  breakers_extended (g_circuitBreaker g) (g_circuitBreaker g').
Proof.
  revert g. induction bs as [|b bs IH]; intros g; simpl; [split_and!; reflexivity|].
  pose proof (isBackendSelectable_eligible now b g) as [He1 He2].
  pose proof (selectable_frame now b g) as (Fh & Fa & Fb).
  destruct (isBackendSelectable now b g) as [ok g1]; simpl in *. subst ok.
  specialize (IH g1). destruct (selectable_backends now bs g1) as [active g2].
  destruct IH as (-> & Gh & Ga & Gb). split_and!; [|congruence..|by etrans].
  assert (filterb (eligible now g1) bs = filterb (eligible now g) bs) as ->.
  { unfold filterb. apply List.filter_ext. done. }
  done.
Qed.

Lemma asleep_probe now url r hc url' :
  url <> url' ->
  asleep now url' (Some (probeBackend now url r hc).2) = asleep now url' (Some hc).
Proof.
  intros Hne. unfold asleep, IsSleeping. rewrite probeBackend_put. unfold put_health. simpl.
  by rewrite lookup_insert_ne.
Qed.

Lemma probeBackend_ok now url r hc : (probeBackend now url r hc).1 = probe_ok r.
Proof.
  unfold probeBackend. destruct r as [msg|err|code]; [done|by destruct (isConnectionError (Some err))|]. unfold probe_ok.
  by destruct (_ && _).
Qed.

Lemma fail_open_awake probe now b g :
  (fail_open probe now b g).1 = awake probe now (g_healthChecker g) b /\
  forall b', b_CoordinatorURL b' <> b_CoordinatorURL b ->
    awake probe now (g_healthChecker (fail_open probe now b g).2) b' =
    awake probe now (g_healthChecker g) b'.
Proof.
  unfold fail_open, awake at 1, accepting.
  destruct (state_running b); simpl; [|done]. destruct (b_Active b); simpl; [|done].
  destruct (g_healthChecker g) as [hc|] eqn:Eh; simpl; [|by rewrite Eh].
  destruct (IsSleeping now (b_CoordinatorURL b) hc); simpl; [|by rewrite Eh].
  rewrite <- (probeBackend_ok now (b_CoordinatorURL b) _ hc).
  destruct (probeBackend _ _ _ hc) as [ok hc'] eqn:Ep. simpl. split; [done|]. intros b' Hne.
  unfold awake. do 2 f_equal.
  pose proof (asleep_probe now (b_CoordinatorURL b) (probe (b_CoordinatorURL b)) hc
                (b_CoordinatorURL b') (not_eq_sym Hne)) as Ha.
  rewrite Ep in Ha. simpl in Ha. simpl. by rewrite Ha.
Qed.

Lemma fail_open_filter probe now bs g :
  NoDup (b_CoordinatorURL <$> bs) ->
  let '(active, g') := fail_open_backends probe now bs g in
  active = filterb (awake probe now (g_healthChecker g)) bs /\
  g_queryActivity g' = g_queryActivity g /\ g_circuitBreaker g' = g_circuitBreaker g.
Proof.
  revert g. induction bs as [|b bs IH]; intros g; simpl; [done|].
  rewrite list.NoDup_cons. intros [Hb Hnd].
  pose proof (fail_open_awake probe now b g) as [Ha1 Ha2].
  pose proof (fail_open_frame probe now b g) as (Fa & Fb).
  destruct (fail_open probe now b g) as [ok g1]; simpl in *. subst ok.
  specialize (IH g1 Hnd). destruct (fail_open_backends probe now bs g1) as [active g2].
  destruct IH as (-> & Ga & Gb). split_and!; [|congruence..].
  assert (filterb (awake probe now (g_healthChecker g1)) bs =
          filterb (awake probe now (g_healthChecker g)) bs) as ->.
  { unfold filterb. apply List.filter_ext_in. intros b' Hb'. apply Ha2. intros E.
    apply Hb. rewrite <- E. by apply list_elem_of_fmap_2, list_elem_of_In. }
  done.
Qed.

Lemma fail_open_backends_frame probe now bs g :
  g_circuitBreaker (fail_open_backends probe now bs g).2 = g_circuitBreaker g.
Proof.
  revert g. induction bs as [|b bs IH]; intros g; simpl; [done|].
  pose proof (fail_open_frame probe now b g) as [_ Hc].
  destruct (fail_open probe now b g) as [ok g1]. specialize (IH g1).
  destruct (fail_open_backends probe now bs g1) as [active g2]. simpl in *. congruence.
Qed.

(** Without the assumption on URLs the loop still only keeps live backends. *)
Lemma fail_open_accepting probe now bs g b :
  b ∈ (fail_open_backends probe now bs g).1 -> b ∈ bs /\ accepting b = true.
Proof.
  revert g. induction bs as [|c bs IH]; intros g; simpl; [by intros ?%elem_of_nil|].
  pose proof (fail_open_awake probe now c g) as [Ha _].
  destruct (fail_open probe now c g) as [ok g1]; simpl in *. specialize (IH g1).
  destruct (fail_open_backends probe now bs g1) as [active g2]; simpl in *.
  destruct ok; [|intros Hb; destruct (IH Hb); split; [by right|done]].
  intros [->|Hb]%elem_of_cons; [|destruct (IH Hb); split; [by right|done]].
  split; [left|]. symmetry in Ha. unfold awake in Ha. by apply andb_true_iff in Ha as [? _].
Qed.

(** ** Minimality *)

Lemma hasLoadData_false loads bs b :
  hasLoadData bs loads = false -> b ∈ bs -> 0 <= totalLoad loads b -> totalLoad loads b = 0.
Proof.
  unfold hasLoadData. rewrite existsb_false, list.Forall_forall. intros H Hb.
  specialize (H b Hb). unfold totalLoad, getBackendLoad.
  destruct (loads !! b_CoordinatorURL b); simpl in *; [lia|]. done.
Qed.

Lemma selectByCapacity_least loads bs b :
  Forall (small loads) bs -> selectByCapacity bs loads = Some b ->
  b ∈ bs /\ Forall (fun x => by_load loads x b <> Lt) bs.
Proof.
  intros Hs. rewrite list.Forall_forall in Hs. unfold selectByCapacity.
  fold (fold_best (lower_load loads) bs).
  rewrite (fold_best_ext _ (cmp_lt (by_load loads))) by (intros; apply lower_load_by_load; auto).
  destruct (fold_best _ bs) as [c|] eqn:E.
  - intros [= <-]. apply (fold_best_least _ _ _ E).
  - apply fold_best_None in E. by subst.
Qed.

Lemma selectSmallestCapacity_best bs :
  selectSmallestCapacity bs = fold_best (cmp_lt (on capacity Z.compare)) bs.
Proof.
  by destruct bs.
Qed.

Lemma by_load_no_load loads x y :
  totalLoad loads x = 0 -> totalLoad loads y = 0 -> by_load loads x y = on capacity Z.compare x y.
Proof.
  intros Hx Hy. unfold by_load, lex, on at 1, effective_load. rewrite Hx, Hy.
  unfold Qcompare. simpl. done.
Qed.

Lemma selectSmallestCapacity_least loads bs b :
  Forall (small loads) bs -> hasLoadData bs loads = false -> selectSmallestCapacity bs = Some b ->
  b ∈ bs /\ Forall (fun x => by_load loads x b <> Lt) bs.
Proof.
  rewrite selectSmallestCapacity_best. intros Hs Hl Hb.
  apply fold_best_least in Hb as [Hin Hm]; [|apply _]. split; [done|].
  rewrite list.Forall_forall in *. intros x Hx. rewrite by_load_no_load; [by apply Hm| |].
  - apply (hasLoadData_false _ bs); [done|done|]. apply Hs; done.
  - apply (hasLoadData_false _ bs); [done|done|]. apply Hs; done.
Qed.

Lemma select_None loads bs :
  (if hasLoadData bs loads then selectByCapacity bs loads else selectSmallestCapacity bs) = None ->
  bs = [].
Proof.
  destruct bs as [|b bs]; [done|]. unfold selectByCapacity. rewrite !selectSmallestCapacity_best.
  fold (fold_best (lower_load loads) (b :: bs)).
  destruct (hasLoadData _ _).
  - destruct (fold_best (lower_load loads) (b :: bs)); [done|]. by intros ?%fold_best_None.
  - by intros ?%fold_best_None.
Qed.

Lemma select_elem loads bs b :
  (if hasLoadData bs loads then selectByCapacity bs loads else selectSmallestCapacity bs) = Some b ->
  b ∈ bs.
Proof.
  unfold selectByCapacity. rewrite !selectSmallestCapacity_best.
  fold (fold_best (lower_load loads) bs).
  destruct (hasLoadData bs loads); [|apply fold_best_elem].
  destruct (fold_best (lower_load loads) bs) as [c|] eqn:E; [|apply fold_best_elem].
  intros [= <-]. by eapply fold_best_elem.
Qed.

(** The backends a selection chooses from: the eligible ones, or, when there
    are none, the live ones that are awake. *)
Definition pool (probe : string -> probe_result) (now : Time) (route : RouteEntry) (g : Guards) :
    list Backend :=
  match filterb (eligible now g) (r_Backends route) with
  | [] => filterb (awake probe now (g_healthChecker g)) (r_Backends route)
  | bs => bs
  end.

Lemma selectBackend_pool probe now route g :
  NoDup (b_CoordinatorURL <$> r_Backends route) ->
  (selectBackend probe now route g).1 =
  let loads := (BackendLoads now (g_queryActivity g)).1 in
  let bs := pool probe now route g in
  if hasLoadData bs loads then selectByCapacity bs loads else selectSmallestCapacity bs.
Proof.
  intros Hnd. unfold selectBackend, pool. destruct (r_Backends route) as [|b0 bs0] eqn:Eb; [done|].
  rewrite <- Eb in *. clear b0 bs0 Eb.
  pose proof (selectable_backends_filter now (r_Backends route) g) as Hf.
  destruct (selectable_backends now (r_Backends route) g) as [active g1].
  destruct Hf as (-> & Hh & Ha & _). destruct (filterb (eligible now g) (r_Backends route)) as [|b bs].
  - pose proof (fail_open_filter probe now (r_Backends route) g1 Hnd) as Hf.
    destruct (fail_open_backends probe now (r_Backends route) g1) as [active g2].
    destruct Hf as (-> & Ha2 & _). rewrite Hh.
    destruct (filterb (awake probe now (g_healthChecker g)) (r_Backends route)) as [|b bs]; [done|].
    rewrite Ha2, Ha. by destruct (BackendLoads now (g_queryActivity g)).
  - rewrite Ha. by destruct (BackendLoads now (g_queryActivity g)).
Qed.

(** C18: [selectBackend] returns a backend exactly when there is one to choose
    - an eligible backend, or failing that a live one that is awake or answers
    a probe - and the one it returns has the least load per unit of capacity
    of all of them, the smaller capacity on equal ratios; the machine products
    it compares never overflow for loads and capacities below [2^31]. *)
Theorem selectBackend_optimal probe now route g :
  NoDup (b_CoordinatorURL <$> r_Backends route) ->
  let loads := (BackendLoads now (g_queryActivity g)).1 in
  Forall (small loads) (r_Backends route) ->
  match (selectBackend probe now route g).1 with
  | None => pool probe now route g = []
  | Some b => b ∈ pool probe now route g /\
      Forall (fun x => (effective_load loads b < effective_load loads x)%Q \/
                (effective_load loads b == effective_load loads x)%Q /\ capacity b <= capacity x)
        (pool probe now route g)
  end.
Proof.
  intros Hnd loads Hs. rewrite (selectBackend_pool _ _ _ _ Hnd). fold loads.
  assert (Hp : Forall (small loads) (pool probe now route g)).
  { rewrite list.Forall_forall in Hs |- *. intros b Hb. apply Hs. unfold pool in Hb.
    destruct (filterb (eligible now g) (r_Backends route)) eqn:Ef.
    - by apply elem_of_filterb in Hb as [_ ?].
    - rewrite <- Ef in Hb. by apply elem_of_filterb in Hb as [_ ?]. }
  revert Hp. generalize (pool probe now route g) as bs. intros bs Hp.
  destruct (if hasLoadData bs loads then _ else _) as [b|] eqn:Esel; [|by eapply select_None].
  assert (b ∈ bs /\ Forall (fun x => by_load loads x b <> Lt) bs) as [Hin Hm].
  { destruct (hasLoadData bs loads) eqn:El;
      [by apply selectByCapacity_least|by apply selectSmallestCapacity_least]. }
  split; [done|]. eapply list.Forall_impl; [exact Hm|]. intros x Hx.
  unfold by_load, lex, on in Hx.
  destruct (Qcompare_spec (effective_load loads x) (effective_load loads b)) as [Hq|Hq|Hq];
    [right|done|by left].
  split; [by symmetry|]. destruct (Z.compare_spec (capacity x) (capacity b)); [lia|done|lia].
Qed.

(** Whatever the guards say, only a RUNNING, active backend of the route
    is ever selected, and selecting never touches an existing circuit breaker:
    a half-open probe slot is not consumed before the request is sent. *)
Theorem selection_safe probe now route g :
  match selectBackend probe now route g with
  | (Some b, g') => b ∈ r_Backends route /\ accepting b = true /\
                    breakers_extended (g_circuitBreaker g) (g_circuitBreaker g')
  | (None, g') => breakers_extended (g_circuitBreaker g) (g_circuitBreaker g')
  end.
Proof.
  unfold selectBackend. destruct (r_Backends route) as [|b0 bs0] eqn:Eb; [reflexivity|].
  rewrite <- Eb in *. clear b0 bs0 Eb.
  pose proof (selectable_backends_filter now (r_Backends route) g) as Hf.
  destruct (selectable_backends now (r_Backends route) g) as [active g1].
  destruct Hf as (-> & _ & _ & Hb).
  set (p := match filterb (eligible now g) (r_Backends route) with
            | [] => fail_open_backends probe now (r_Backends route) g1
            | _ => (filterb (eligible now g) (r_Backends route), g1)
            end).
  assert (Hp : forall active g2, p = (active, g2) ->
    (forall b, b ∈ active -> b ∈ r_Backends route /\ accepting b = true) /\
    g_circuitBreaker g2 = g_circuitBreaker g1).
  { intros active g2. subst p. destruct (filterb (eligible now g) (r_Backends route)) as [|c bs] eqn:Ef.
    - intros E. split; [intros b Hin; apply (fail_open_accepting probe now _ g1); by rewrite E|].
      pose proof (fail_open_backends_frame probe now (r_Backends route) g1) as Hfr.
      by rewrite E in Hfr.
    - intros [= <- <-]. split; [|done]. intros b Hin. rewrite <- Ef in Hin.
      apply elem_of_filterb in Hin as [He Hin]. split; [done|].
      unfold eligible in He. by apply andb_true_iff in He as [[? _]%andb_true_iff _]. }
  destruct p as [active g2].
  destruct (Hp active g2 eq_refl) as [Hact Hbr]. rewrite <- Hbr in Hb.
  destruct active as [|c bs]; [done|].
  destruct (BackendLoads now (g_queryActivity g2)) as [loads t]. simpl.
  destruct (if hasLoadData (c :: bs) loads then _ else _) as [b|] eqn:Esel; [|done].
  apply select_elem in Esel. by destruct (Hact b Esel).
Qed.

Lemma selected_accepting probe now route g b :
  (selectBackend probe now route g).1 = Some b -> b ∈ r_Backends route /\ accepting b = true.
Proof.
  unfold selectBackend. destruct (r_Backends route) as [|b0 bs0] eqn:Eb; [done|].
  rewrite <- Eb in *. clear b0 bs0 Eb.
  pose proof (selectable_backends_filter now (r_Backends route) g) as Hf.
  destruct (selectable_backends now (r_Backends route) g) as [active g1].
  destruct Hf as (-> & _ & _ & _).
  destruct (filterb (eligible now g) (r_Backends route)) as [|c bs] eqn:Ef.
  - pose proof (fail_open_accepting probe now (r_Backends route) g1 b) as Ho.
    destruct (fail_open_backends probe now (r_Backends route) g1) as [[|c bs] g2]; [done|].
    destruct (BackendLoads now (g_queryActivity g2)) as [loads t]. cbn [fst].
    intros Hsel%select_elem. auto.
  - destruct (BackendLoads now (g_queryActivity g1)) as [loads t]. cbn [fst].
    intros Hsel%select_elem. rewrite <- Ef in Hsel. apply elem_of_filterb in Hsel as [He Hin].
    split; [done|]. unfold eligible in He. by apply andb_true_iff in He as [[? _]%andb_true_iff _].
Qed.

(** Draining takes effect on selection: once a runtime has been drained in
    the table, no route of it ever gives the runtime a new query, while queries
    already there continue as long as the runtime guards pass. *)
Theorem drained_gets_no_new_queries now routes name ns d route probe t g b :
  route ∈ (setBackendDrainingAllRoutes now routes name ns d).1 ->
  b ∈ r_Backends route -> has_id name ns b = true ->
  (selectBackend probe t route g).1 <> Some b /\
  isStickyBackendRoutable t b g = backendPassesRuntimeGuards t (b_CoordinatorURL b) g.
Proof.
  intros Hr Hb Hid.
  destruct (drain_state now routes name ns d (r_RoutingGroup route) b) as (Hs & _ & _); [|done|].
  { by exists route. }
  split.
  - intros [_ Ha]%selected_accepting. unfold accepting, state_running in Ha. by rewrite Hs in Ha.
  - unfold isStickyBackendRoutable, state_running. by rewrite Hs.
Qed.

(** ** Resume candidates *)

Lemma pickResume_best now route health :
  pickResumeCandidate now route health =
  match fold_best (cmp_lt by_resume) (filterb resume_eligible (r_Backends route)) with
  | Some b => Some b
  | None => match health with
            | None => None
            | Some hc => fold_best (cmp_lt by_sleeping)
                           (filterb (sleeping_eligible now hc) (r_Backends route))
            end
  end.
Proof.
  unfold pickResumeCandidate, pickSleepingResumeCandidate.
  rewrite fold_best_filter. fold (fold_best better_resume (filterb resume_eligible (r_Backends route))).
  rewrite (fold_best_ext better_resume (cmp_lt by_resume)) by (intros; apply better_resume_cmp).
  destruct (fold_best _ _); [done|]. destruct health as [hc|]; [|done].
  rewrite fold_best_filter.
  fold (fold_best better_sleeping (filterb (sleeping_eligible now hc) (r_Backends route))).
  apply fold_best_ext. intros. apply better_sleeping_cmp.
Qed.

Lemma by_name_eq x y : by_name x y = Eq -> backend_id x = backend_id y.
Proof.
  unfold by_name, lex, on, backend_id.
  destruct (String.compare (b_Name x) (b_Name y)) eqn:E1; try done.
  intros E2. apply String.compare_eq_iff in E1, E2. congruence.
Qed.

Lemma by_resume_name x y : by_resume x y = Eq -> by_name x y = Eq.
Proof.
  unfold by_resume, lex, on. destruct (Z.compare _ _); try done.
  by destruct (Z.compare _ _).
Qed.

Lemma by_sleeping_name x y : by_sleeping x y = Eq -> by_name x y = Eq.
Proof. unfold by_sleeping, lex, on. by destruct (Z.compare _ _). Qed.

(** Elements of a list with unique identities are known by their identity. *)
Lemma unique_id bs x y :
  NoDup (backend_id <$> bs) -> x ∈ bs -> y ∈ bs -> backend_id x = backend_id y -> x = y.
Proof.
  intros Hnd (i & Hi)%list_elem_of_lookup (j & Hj)%list_elem_of_lookup E.
  assert (i = j) as <-; [|congruence].
  eapply NoDup_lookup; [exact Hnd|by rewrite list_lookup_fmap, Hi|].
  rewrite list_lookup_fmap, Hj, E. done.
Qed.

(** The loop's result does not depend on the order of the list. *)
Lemma fold_best_perm (c : Backend -> Backend -> comparison) `{!TotalCompare c} l l' :
  (forall x y, c x y = Eq -> backend_id x = backend_id y) ->
  NoDup (backend_id <$> l) -> l ≡ₚ l' -> fold_best (cmp_lt c) l = fold_best (cmp_lt c) l'.
Proof.
  intros Hc Hnd Hp. destruct (fold_best (cmp_lt c) l) as [m|] eqn:E.
  - destruct (fold_best (cmp_lt c) l') as [m'|] eqn:E'.
    + apply fold_best_least in E as [Hm Hl], E' as [Hm' Hl']; try apply _.
      rewrite <- Hp in Hm', Hl'. f_equal. apply (unique_id l); try done.
      apply Hc. by apply (least_eq c l).
    + apply fold_best_None in E'. subst. apply Permutation_nil_r in Hp. by subst.
  - apply fold_best_None in E. subst. apply Permutation_nil_l in Hp. by subst.
Qed.

(** The resume candidate is an active, named backend that is PAUSED or
    RESUMING - or, when there is none, a RUNNING one the health checker has just
    found asleep - and it is the least of its kind by priority, capacity and
    name; there is one whenever a resumable backend exists. *)
Theorem resume_candidate_least now route health :
  match pickResumeCandidate now route health with
  | Some b =>
      b ∈ filterb resume_eligible (r_Backends route) /\
        Forall (fun x => by_resume x b <> Lt) (filterb resume_eligible (r_Backends route)) \/
      filterb resume_eligible (r_Backends route) = [] /\
      exists hc, health = Some hc /\ b ∈ filterb (sleeping_eligible now hc) (r_Backends route) /\
        Forall (fun x => by_sleeping x b <> Lt) (filterb (sleeping_eligible now hc) (r_Backends route))
  | None => filterb resume_eligible (r_Backends route) = [] /\
      forall hc, health = Some hc -> filterb (sleeping_eligible now hc) (r_Backends route) = []
  end.
Proof.
  rewrite pickResume_best.
  destruct (fold_best (cmp_lt by_resume) _) as [b|] eqn:E.
  - left. apply (fold_best_least by_resume _ _ E).
  - apply fold_best_None in E. destruct health as [hc|]; [|done].
    destruct (fold_best (cmp_lt by_sleeping) _) as [b|] eqn:E2.
    + right. split; [done|]. exists hc. split; [done|]. apply (fold_best_least by_sleeping _ _ E2).
    + apply fold_best_None in E2. split; [done|]. by intros hc' [= <-].
Qed.

(** Two gateway replicas that see the same backends in a different order
    resume the same runtime. *)
Theorem resume_candidate_deterministic now route route' health :
  NoDup (backend_id <$> r_Backends route) -> r_Backends route ≡ₚ r_Backends route' ->
  pickResumeCandidate now route health = pickResumeCandidate now route' health.
Proof.
  intros Hnd Hp. rewrite !pickResume_best.
  assert (Hf : forall p, NoDup (backend_id <$> filterb p (r_Backends route)) /\
    filterb p (r_Backends route) ≡ₚ filterb p (r_Backends route')).
  { intros p. split; [|by apply Permutation_filterb].
    eapply sublist_NoDup; [exact Hnd|]. apply fmap_sublist, filterb_sublist. }
  rewrite (fold_best_perm by_resume _ (filterb resume_eligible (r_Backends route')));
    [|intros x y ?; by apply by_name_eq, by_resume_name|apply Hf..].
  destruct (fold_best _ _); [done|]. destruct health as [hc|]; [|done].
  apply fold_best_perm; [apply _|intros x y ?; by apply by_name_eq, by_sleeping_name|apply Hf..].
Qed.

(** ** Witnesses *)

Definition ex_b (name : string) (st : BackendState) (cap : Z) : Backend :=
  mkBackend name "n" ("http://" +:+ name) st true "s" cap "v1" "h" 1 "".

Definition ex_route : RouteEntry :=
  mkRoute "g" "g" [ex_b "big" StateRunning 8; ex_b "small" StateRunning 2; ex_b "off" StatePaused 1]
    "" "" false.

(** One query on each: the ratios are 1/8 and 1/2. *)
Definition ex_guards : Guards :=
  mkGuards (Some (NewBackendHealthChecker Second Second 3)) (Some ∅)
    (Observe 5 "q2" "n" "small" "g" "http://small" "RUNNING"
       (Observe 5 "q1" "n" "big" "g" "http://big" "RUNNING" (NewQueryActivityTracker Hour))).

Definition ex_probe (_ : string) : probe_result := ProbeStatus 200.

Lemma selectBackend_optimal_witness :
  b_Name <$> (selectBackend ex_probe 6 ex_route ex_guards).1 = Some "big" /\
  match (selectBackend ex_probe 6 ex_route ex_guards).1 with
  | None => pool ex_probe 6 ex_route ex_guards = []
  | Some b => b ∈ pool ex_probe 6 ex_route ex_guards
  end.
Proof.
  split; [vm_compute; reflexivity|].
  pose proof (selectBackend_optimal ex_probe 6 ex_route ex_guards) as H.
  destruct (selectBackend ex_probe 6 ex_route ex_guards).1 as [b|]; [apply H|apply H].
  1, 3: vm_compute; repeat constructor; set_solver.
  1, 2: repeat constructor; vm_compute; done.
Defined.

Lemma drained_gets_no_new_queries_witness :
  let '(routes, _) := setBackendDrainingAllRoutes 0 [ex_route] "small" "n" 0 in
  match routes with
  | [route] => forall b, list_find (fun b => has_id "small" "n" b = true) (r_Backends route) = Some (1%nat, b) ->
      (selectBackend ex_probe 6 route ex_guards).1 <> Some b
  | _ => False
  end.
Proof.
  pose proof (drained_gets_no_new_queries 0 [ex_route] "small" "n" 0) as H.
  destruct (setBackendDrainingAllRoutes 0 [ex_route] "small" "n" 0) as [routes ch] eqn:E.
  vm_compute in E. injection E as <- <-. intros b Hb.
  apply list_find_Some in Hb as (Hb & Hid & _).
  apply (H _ ex_probe 6 ex_guards b); [left|by eapply list_elem_of_lookup_2|exact Hid].
Defined.

Lemma resume_candidate_deterministic_witness :
  pickResumeCandidate 6 ex_route None =
  pickResumeCandidate 6 (set_Backends (reverse (r_Backends ex_route)) ex_route) None.
Proof.
  apply resume_candidate_deterministic.
  - vm_compute. repeat constructor; set_solver.
  - simpl. symmetry. apply reverse_Permutation.
Defined.
