(* ===== verification/Sticky.v ===== *)
(** * Sticky routing ([pkg/gateway/redis.go], [pkg/gateway/query_extraction.go])

    A query id is bound to the backend that runs it, in Redis when it is
    enabled and in a local cache.  The two stores are libraries: [StickyStore]
    names the calls the client makes and what they promise about the contents.
    A Redis value is represented by what [json.Unmarshal] makes of it: a route,
    or [None] when it is not one. *)

From S2P Require Import Prelude GoStrings.

Record StickyRoute := mkSticky {
  sr_Namespace : string;
  sr_Name : string;
  sr_BackendURL : string;
  sr_RoutingGroup : string
}.

#[export] Instance StickyRoute_eq_dec : EqDecision StickyRoute.
Proof. solve_decision. Defined.

Inductive redis_reply :=
| RedisValue (v : option StickyRoute)
| RedisNil
| RedisError.

(** [lru] and [rds] are the contents of the stores; both may lose entries to
    expiry or eviction at any call, and the local cache never invents one. *)
Class StickyStore (W : Type) := {
  lru_Add : string -> StickyRoute -> W -> W;
  lru_Get : string -> W -> option StickyRoute * W;
  lru_Remove : string -> W -> W;
  redis_Set : string -> StickyRoute -> W -> bool * W;
  redis_Get : string -> W -> redis_reply * W;
  redis_Del : string -> W -> bool * W;
  lru : W -> gmap string StickyRoute;
  rds : W -> gmap string (option StickyRoute);
  lru_Add_lru : forall k v w, lru (lru_Add k v w) ⊆ <[k := v]> (lru w);
  lru_Add_rds : forall k v w, rds (lru_Add k v w) = rds w;
  lru_Remove_lru : forall k w, lru (lru_Remove k w) ⊆ delete k (lru w);
  lru_Remove_rds : forall k w, rds (lru_Remove k w) = rds w;
  lru_Get_some : forall k w v w', lru_Get k w = (Some v, w') -> lru w !! k = Some v;
  lru_Get_lru : forall k w, lru (lru_Get k w).2 ⊆ lru w;
  lru_Get_rds : forall k w, rds (lru_Get k w).2 = rds w;
  redis_Set_lru : forall k v w, lru (redis_Set k v w).2 = lru w;
  redis_Set_rds : forall k v w, rds (redis_Set k v w).2 ⊆ <[k := Some v]> (rds w);
  redis_Get_lru : forall k w, lru (redis_Get k w).2 = lru w;
  redis_Get_rds : forall k w, rds (redis_Get k w).2 ⊆ rds w;
  redis_Get_value : forall k w v w', redis_Get k w = (RedisValue v, w') -> rds w !! k = Some v;
  redis_Del_lru : forall k w, lru (redis_Del k w).2 = lru w;
  redis_Del_rds : forall k w, rds (redis_Del k w).2 ⊆ rds w;
  redis_Del_ok : forall k w w', redis_Del k w = (true, w') -> rds w' ⊆ delete k (rds w)
}.

Section sticky.
Context {W : Type} `{StickyStore W} (redisEnabled : bool).

Definition makeRedisKey (queryID : string) : string := "query:" +:+ queryID.

(** [Set] reports an error only when the route cannot be marshalled, which a
    struct of strings never is. *)
Definition sticky_Set (queryID namespace name backendURL routingGroup : string) (w : W) : W :=
  let route := mkSticky namespace name backendURL routingGroup in
  let w := lru_Add queryID route w in
  if redisEnabled then (redis_Set (makeRedisKey queryID) route w).2 else w.

Definition fallback_Get (queryID : string) (w : W) : option StickyRoute * W := lru_Get queryID w.

Definition sticky_Get (queryID : string) (w : W) : option StickyRoute * W :=
  if redisEnabled then
    match redis_Get (makeRedisKey queryID) w with
    | (RedisValue (Some route), w) => (Some route, lru_Add queryID route w)
    | (RedisValue None, w) => (None, lru_Remove queryID w)
    | (RedisNil, w) => (None, lru_Remove queryID w)
    | (RedisError, w) => fallback_Get queryID w
    end
  else fallback_Get queryID w.

Definition sticky_Delete (queryID : string) (w : W) : W :=
  let w := lru_Remove queryID w in
  if redisEnabled then (redis_Del (makeRedisKey queryID) w).2 else w.

(** ** Executions of one replica *)

Inductive sticky_event :=
| SSet (queryID : string) (r : StickyRoute)
| SGet (queryID : string)
| SDelete (queryID : string).

Definition sticky_step (w : W) (e : sticky_event) : W :=
  match e with
  | SSet q r => sticky_Set q (sr_Namespace r) (sr_Name r) (sr_BackendURL r) (sr_RoutingGroup r) w
  | SGet q => (sticky_Get q w).2
  | SDelete q => sticky_Delete q w
  end.

(** Every entry of both stores was set for its query. *)
Definition only_set (sets : list (string * StickyRoute)) (w : W) : Prop :=
  (forall q r, lru w !! q = Some r -> (q, r) ∈ sets) /\
  (forall q r, rds w !! makeRedisKey q = Some (Some r) -> (q, r) ∈ sets).

Lemma makeRedisKey_inj q q' : makeRedisKey q = makeRedisKey q' -> q = q'.
Proof. unfold makeRedisKey. by intros ?%(inj _). Qed.

Lemma lookup_sub {A} (m m' : gmap string A) k v : m ⊆ m' -> m !! k = Some v -> m' !! k = Some v.
Proof. intros Hs Hl. by eapply lookup_weaken. Qed.

Lemma only_set_mono sets w w' :
  lru w' ⊆ lru w -> rds w' ⊆ rds w -> only_set sets w -> only_set sets w'.
Proof. intros Hl Hr [H1 H2]. split; intros q r Hq; eauto using lookup_sub. Qed.

Lemma only_set_weaken sets sets' w :
  (forall x, x ∈ sets -> x ∈ sets') -> only_set sets w -> only_set sets' w.
Proof. intros Hs [H1 H2]. split; eauto. Qed.

Lemma only_set_lru_Add sets q r w :
  (q, r) ∈ sets -> only_set sets w -> only_set sets (lru_Add q r w).
Proof.
  intros Hin [H1 H2]. split; intros q' r' Hq.
  - eapply lookup_sub in Hq; [|apply lru_Add_lru].
    apply lookup_insert_Some in Hq as [[<- <-]|[_ Hq]]; eauto.
  - rewrite lru_Add_rds in Hq. auto.
Qed.

Lemma only_set_lru_Remove sets q w : only_set sets w -> only_set sets (lru_Remove q w).
Proof.
  apply only_set_mono; [|by rewrite lru_Remove_rds].
  etrans; [apply lru_Remove_lru|apply delete_subseteq].
Qed.

Lemma only_set_redis_Set sets q r w :
  (q, r) ∈ sets -> only_set sets w -> only_set sets (redis_Set (makeRedisKey q) r w).2.
Proof.
  intros Hin [H1 H2]. split; intros q' r' Hq.
  - rewrite redis_Set_lru in Hq. auto.
  - eapply lookup_sub in Hq; [|apply redis_Set_rds].
    apply lookup_insert_Some in Hq as [[E [= <-]]|[_ Hq]]; [|auto].
    apply makeRedisKey_inj in E. by subst.
Qed.

Lemma sticky_Get_only_set sets q w :
  only_set sets w ->
  only_set sets (sticky_Get q w).2 /\ forall r, (sticky_Get q w).1 = Some r -> (q, r) ∈ sets.
Proof.
  intros Hw. pose proof Hw as [H1 H2]. unfold sticky_Get, fallback_Get.
  assert (Hf : forall w0, lru w0 = lru w -> rds w0 ⊆ rds w ->
    only_set sets (lru_Get q w0).2 /\ forall r, (lru_Get q w0).1 = Some r -> (q, r) ∈ sets).
  { intros w0 El Er. split.
    - eapply only_set_mono; [etrans; [apply lru_Get_lru|by rewrite El]|by rewrite lru_Get_rds|done].
    - intros r Hr. destruct (lru_Get q w0) as [o w1] eqn:Eg. simpl in Hr. subst o.
      apply lru_Get_some in Eg. rewrite El in Eg. auto. }
  destruct redisEnabled; [|by apply Hf].
  pose proof (redis_Get_lru (makeRedisKey q) w) as Gl. pose proof (redis_Get_rds (makeRedisKey q) w) as Gr.
  destruct (redis_Get (makeRedisKey q) w) as [[[v|]| |] w1] eqn:Eg; simpl in Gl, Gr.
  - apply redis_Get_value in Eg. assert (Hin : (q, v) ∈ sets) by auto. simpl. split.
    + apply only_set_lru_Add; [done|]. eapply only_set_mono; [by rewrite Gl|exact Gr|done].
    + by intros r [= <-].
  - simpl. split; [|done]. apply only_set_lru_Remove. eapply only_set_mono; [by rewrite Gl|exact Gr|done].
  - simpl. split; [|done]. apply only_set_lru_Remove. eapply only_set_mono; [by rewrite Gl|exact Gr|done].
  - by apply Hf.
Qed.

Lemma sticky_step_only_set sets w e :
  only_set sets w ->
  only_set (match e with SSet q r => (q, r) :: sets | _ => sets end) (sticky_step w e).
Proof.
  intros Hw. destruct e as [q r|q|q]; simpl.
  - destruct r as [ns n u g]; simpl. unfold sticky_Set.
    assert (Ha : only_set ((q, mkSticky ns n u g) :: sets) (lru_Add q (mkSticky ns n u g) w)).
    { apply only_set_lru_Add; [left|]. eapply only_set_weaken; [|done]. by right. }
    destruct redisEnabled; [|done]. apply only_set_redis_Set; [left|done].
  - by apply sticky_Get_only_set.
  - unfold sticky_Delete. apply only_set_lru_Remove with (q := q) in Hw.
    destruct redisEnabled; [|done]. eapply only_set_mono; [|apply redis_Del_rds|exact Hw].
    by rewrite redis_Del_lru.
Qed.

Definition sets_of (es : list sticky_event) : list (string * StickyRoute) :=
  omap (fun e => match e with SSet q r => Some (q, r) | _ => None end) es.

Lemma sticky_run_only_set es w sets :
  only_set sets w -> only_set (reverse (sets_of es) ++ sets) (fold_left sticky_step es w).
Proof.
  revert w sets. induction es as [|e es IH]; intros w sets Hw; simpl; [done|].
  apply (sticky_step_only_set _ _ e), IH in Hw. eapply only_set_weaken; [|exact Hw].
  intros x. destruct e as [q r|q|q]; simpl; rewrite ?reverse_cons; set_solver.
Qed.

(** A sticky lookup never invents or mixes up bindings: starting from
    empty stores, through any sequence of calls and whatever the stores forget
    in between, the route returned for a query id is one that was set for that
    very id. *)
Theorem sticky_get_sound es q r w :
  lru w = ∅ -> rds w = ∅ ->
  (sticky_Get q (fold_left sticky_step es w)).1 = Some r -> SSet q r ∈ es.
Proof.
  intros Hl Hr Hg.
  assert (Hw : only_set [] w) by (split; intros ? ?; rewrite ?Hl, ?Hr, lookup_empty; done).
  apply (sticky_run_only_set es) in Hw.
  apply (sticky_Get_only_set _ q) in Hw as [_ Hw]. apply Hw in Hg.
  rewrite app_nil_r, elem_of_reverse in Hg. apply list_elem_of_omap in Hg as (e & He & E).
  by destruct e; simplify_eq.
Qed.

(** Once a binding has been deleted - the Redis call having succeeded when
    Redis is in use - the next lookup of the query id finds nothing, and Redis
    is authoritative: a miss there is a miss, whatever the local cache holds. *)
Theorem sticky_delete_effective q w :
  (redisEnabled = true -> (redis_Del (makeRedisKey q) (lru_Remove q w)).1 = true) ->
  (sticky_Get q (sticky_Delete q w)).1 = None /\
  (redisEnabled = true -> (redis_Get (makeRedisKey q) w).1 = RedisNil -> (sticky_Get q w).1 = None).
Proof.
  intros Hd. split.
  - destruct ((sticky_Get q (sticky_Delete q w)).1) as [r|] eqn:Eg; [|done]. exfalso.
    unfold sticky_Get, sticky_Delete, fallback_Get in Eg.
    assert (Hno : forall w0, lru w0 ⊆ delete q (lru w) -> (lru_Get q w0).1 <> Some r).
    { intros w0 Hs Ho. destruct (lru_Get q w0) as [o w1] eqn:E. simpl in Ho. subst o.
      apply lru_Get_some in E. eapply lookup_sub in E; [|exact Hs]. by rewrite lookup_delete_eq in E. }
    destruct redisEnabled; [|by eapply Hno, Eg; apply lru_Remove_lru].
    specialize (Hd eq_refl). pose proof (redis_Del_lru (makeRedisKey q) (lru_Remove q w)) as Dl.
    destruct (redis_Del (makeRedisKey q) (lru_Remove q w)) as [ok w1] eqn:Ed. simpl in *. subst ok.
    apply redis_Del_ok in Ed. rewrite lru_Remove_rds in Ed.
    pose proof (redis_Get_lru (makeRedisKey q) w1) as Gl.
    destruct (redis_Get (makeRedisKey q) w1) as [[[v|]| |] w2] eqn:Er; simpl in *; try done.
    + apply redis_Get_value in Er. eapply lookup_sub in Er; [|exact Ed].
      by rewrite lookup_delete_eq in Er.
    + apply (Hno w2); [|done]. rewrite Gl, Dl. apply lru_Remove_lru.
  - intros He Hn. unfold sticky_Get. rewrite He.
    destruct (redis_Get (makeRedisKey q) w) as [rep w1]. simpl in Hn. by subst rep.
Qed.

End sticky.

(** ** Query ids in request paths

    [trinoQueryIDRe]: a slash, eight, six and five digits and at least one
    letter or digit, separated by underscores, then a slash or the end. *)

Definition is_digit (c : ascii) : bool := byte_in 48 57 c.
Definition is_alnum (c : ascii) : bool := byte_in 97 122 c || byte_in 65 90 c || byte_in 48 57 c.

(** [n] bytes of the class, then the rest. *)
Fixpoint take_class (p : ascii -> bool) (n : nat) (s : string) : option (string * string) :=
  match n, s with
  | O, _ => Some ("", s)
  | S n, String c s => if p c then (fun '(a, b) => (String c a, b)) <$> take_class p n s else None
  | S _, EmptyString => None
  end.

Fixpoint span_class (p : ascii -> bool) (s : string) : string * string :=
  match s with
  | String c s' => if p c then let '(a, b) := span_class p s' in (String c a, b) else ("", s)
  | EmptyString => ("", "")
  end.

Definition take_char (c : ascii) (s : string) : option string :=
  match s with String d s => if Ascii.eqb c d then Some s else None | EmptyString => None end.

Definition match_query_id (s : string) : option string :=
  '(d, s) ← take_class is_digit 8 s; s ← take_char "_" s;
  '(t, s) ← take_class is_digit 6 s; s ← take_char "_" s;
  '(n, s) ← take_class is_digit 5 s; s ← take_char "_" s;
  let '(r, s) := span_class is_alnum s in
  if r ≡? "" then None else
  let id := d +:+ "_" +:+ t +:+ "_" +:+ n +:+ "_" +:+ r in
  match s with
  | EmptyString => Some id
  | String c _ => if Ascii.eqb c "/" then Some id else None
  end.

Fixpoint extractQueryIdFromRequest (path : string) : string :=
  match path with
  | EmptyString => ""
  | String c s =>
      match (if Ascii.eqb c "/" then match_query_id s else None) with
      | Some id => id
      | None => extractQueryIdFromRequest s
      end
  end.

Example extract_executing :
  extractQueryIdFromRequest "/v1/statement/executing/20250115_123456_00001_abc12/y0/1"
  = "20250115_123456_00001_abc12".
Proof. reflexivity. Qed.

Example extract_none : extractQueryIdFromRequest "/v1/query/2025_123456_00001_abc12" = "".
Proof. reflexivity. Qed.

(** ** A concrete pair of stores *)

Abbreviation stores := (gmap string StickyRoute * gmap string (option StickyRoute))%type.

#[export] Program Instance map_stores : StickyStore stores := {
  lru_Add := fun k v w => (<[k := v]> w.1, w.2);
  lru_Get := fun k w => (w.1 !! k, w);
  lru_Remove := fun k w => (delete k w.1, w.2);
  redis_Set := fun k v w => (true, (w.1, <[k := Some v]> w.2));
  redis_Get := fun k w => (match w.2 !! k with Some v => RedisValue v | None => RedisNil end, w);
  redis_Del := fun k w => (true, (w.1, delete k w.2));
  lru := fst; rds := snd
}.
Solve All Obligations with try done; try reflexivity.
Next Obligation. simpl. intros k w v w' [= H <-]. done. Qed.
Next Obligation. simpl. intros k w v w'. destruct (w.2 !! k); intros [= <- _]; done. Qed.
Next Obligation. simpl. intros. apply delete_subseteq. Qed.
Next Obligation. simpl. intros k w w' [= <-]. done. Qed.

Definition ex_sticky : StickyRoute := mkSticky "n" "x" "http://x" "g".

Lemma sticky_get_sound_witness :
  (sticky_Get true "q" (fold_left (sticky_step true)
     [SSet "p" ex_sticky; SDelete "p"; SSet "q" ex_sticky; SGet "q"] ((∅, ∅) : stores))).1 = Some ex_sticky /\
  SSet "q" ex_sticky ∈ [SSet "p" ex_sticky; SDelete "p"; SSet "q" ex_sticky; SGet "q"].
Proof.
  split; [vm_compute; reflexivity|].
  apply (sticky_get_sound true _ "q" ex_sticky ((∅, ∅) : stores)); vm_compute; reflexivity.
Defined.

Lemma sticky_delete_effective_witness :
  let w := sticky_Set true "q" "n" "x" "http://x" "g" ((∅, ∅) : stores) in
  (sticky_Get true "q" w).1 = Some ex_sticky /\ (sticky_Get true "q" (sticky_Delete true "q" w)).1 = None.
Proof.
  intros w. split; [vm_compute; reflexivity|].
  apply (sticky_delete_effective true "q" w). intros _. reflexivity.
Defined.
