(* ===== verification/Gateway.v ===== *)
(** * Handling a request ([pkg/gateway/request_handler.go], [pkg/gateway/retry.go])

    [handleRequest] finds the route, prefers the backend a query is bound to,
    selects one otherwise, and hands the request to the circuit-breaker guard;
    the reverse proxy then calls [modifyResponse] on a reply and [errorHandler]
    on a transport error.  A request is one [serve] step over the gateway's
    state; metrics and log lines are left out. *)

From S2P Require Import Prelude GoStrings GoTime XTrinodeTypes Routes RouteCache CircuitBreaker.
From S2P Require Import QueryActivity ConnErrors Health Selection Sticky.

Record GatewayService (W : Type) := mkGateway {
  gw_cache : RouteCache;
  gw_breakers : option CircuitBreakerManager;
  gw_activity : QueryActivityTracker;
  gw_sticky : W
}.
Arguments mkGateway {W}.
Arguments gw_cache {W}.
Arguments gw_breakers {W}.
Arguments gw_activity {W}.
Arguments gw_sticky {W}.

(** The request fields the handler reads. *)
Record Request := mkRequest {
  req_Host : string;
  req_Selector : string;       (* X-Trino-XTrinode *)
  req_Path : string
}.

(** What [handleRequest] puts in the request context for the director. *)
Record Target := mkTarget {
  tg_backendURL : string;
  tg_name : string;
  tg_namespace : string;
  tg_routingGroup : string
}.

(** The answer of the API server's resume endpoint. *)
Record ResumeResponse := mkResumeResponse {
  rr_Triggered : bool;
  rr_Gated : bool;
  rr_RetryAfter : Z
}.

Inductive response :=
| RespNoRoute                                       (* 404 *)
| RespNoBackend                                     (* 503 *)
| RespMissingNamespace                              (* 500 *)
| RespMisconfigured                                 (* 500 *)
| RespBreakerOpen (retryAfter : Z)                  (* 503 *)
| RespResumeFailed (retryAfter : Z)                 (* 503 *)
| RespResuming (retryAfter : Z) (gated triggered : bool) (* 503 *)
| RespBadGateway                                    (* 502 *)
| RespForwarded (status : Z) (retryAfter : option Z).

Definition handleResumeViaAPI (resume : string -> string -> string -> option ResumeResponse)
    (namespace name routingGroup : string) : response :=
  match resume namespace name routingGroup with
  | None => RespResumeFailed 30
  | Some resp =>
      let retryAfter := if rr_RetryAfter resp <? 5 then 5 else rr_RetryAfter resp in
      RespResuming retryAfter (rr_Gated resp) (rr_Triggered resp)
  end.

(** What the backend did with a forwarded request: a status and, for a JSON
    body, the query id and state found in it; or a transport error. *)
Inductive backend_reply :=
| BReply (status : Z) (query : option (string * string))
| BError (err : go_error).

Section gateway.
Context {W : Type} `{StickyStore W} (redisEnabled : bool).

Definition guards_of (gs : GatewayService W) : Guards :=
  mkGuards (gs_healthChecker (gw_cache gs)) (gw_breakers gs) (gw_activity gs).

Definition put_guards (g : Guards) (gs : GatewayService W) : GatewayService W :=
  let c := gw_cache gs in
  mkGateway (mkCache (gs_routes c) (gs_defaultRoute c) (g_healthChecker g) (gs_reloadState c))
    (g_circuitBreaker g) (g_queryActivity g) (gw_sticky gs).

Definition put_sticky (w : W) (gs : GatewayService W) : GatewayService W :=
  mkGateway (gw_cache gs) (gw_breakers gs) (gw_activity gs) w.

Definition put_breakers (m : CircuitBreakerManager) (gs : GatewayService W) : GatewayService W :=
  mkGateway (gw_cache gs) (Some m) (gw_activity gs) (gw_sticky gs).

(** [order] is the order in which the Go runtime iterates over the map. *)
Definition findBackendByCoordinatorURL (order : list RouteEntry) (url : string)
    (gs : GatewayService W) : option Backend :=
  find_first (fun b => b_CoordinatorURL b ≡? url)
    ((order ≫= r_Backends) ++
     match gs_defaultRoute (gw_cache gs) with Some r => r_Backends r | None => [] end).

Definition stickyBackendForQuery (now : Time) (order : list RouteEntry) (queryID : string)
    (gs : GatewayService W) : option StickyRoute * GatewayService W :=
  let '(found, w) := sticky_Get redisEnabled queryID (gw_sticky gs) in
  let gs := put_sticky w gs in
  match found with
  | None => (None, gs)
  | Some route =>
      if sr_BackendURL route ≡? "" then (None, gs) else
      let '(routable, gs) :=
        match findBackendByCoordinatorURL order (sr_BackendURL route) gs with
        | Some b => let '(ok, g) := isStickyBackendRoutable now b (guards_of gs) in (ok, put_guards g gs)
        | None => (false, gs)
        end in
      if (routable : bool) then (Some route, gs)
      else (None, put_sticky (sticky_Delete redisEnabled queryID (gw_sticky gs)) gs)
  end.

(** The part of [handleRequest] after the sticky lookup failed. *)
Definition selectForRequest (resume : string -> string -> string -> option ResumeResponse)
    (probe : string -> probe_result) (now : Time) (route : RouteEntry) (queryId : string)
    (gs : GatewayService W) : result response Target * GatewayService W :=
  let '(backend, g) := selectBackend probe now route (guards_of gs) in
  let gs := put_guards g gs in
  match backend with
  | None =>
      match pickResumeCandidate now route (gs_healthChecker (gw_cache gs)) with
      | Some cand =>
          (Err (handleResumeViaAPI resume (b_Namespace cand) (b_Name cand) (r_RoutingGroup route)), gs)
      | None => (Err RespNoBackend, gs)
      end
  | Some b =>
      if b_Namespace b ≡? "" then (Err RespMissingNamespace, gs) else
      let gs :=
        if negb (queryId ≡? "") && negb (b_Name b ≡? "") && negb (b_Namespace b ≡? "") &&
           negb (b_CoordinatorURL b ≡? "")
        then put_sticky (sticky_Set redisEnabled queryId (b_Namespace b) (b_Name b)
                           (b_CoordinatorURL b) (r_RoutingGroup route) (gw_sticky gs)) gs
        else gs in
      (Ok (mkTarget (b_CoordinatorURL b) (b_Name b) (b_Namespace b) (r_RoutingGroup route)), gs)
  end.

(** [handleRequest] up to the call of the retry proxy. *)
Definition chooseTarget (resume : string -> string -> string -> option ResumeResponse)
    (probe : string -> probe_result) (now : Time) (order : list RouteEntry) (r : Request)
    (gs : GatewayService W) : result response Target * GatewayService W :=
  match findRoute (req_Host r) (req_Selector r) (gw_cache gs) with
  | None => (Err RespNoRoute, gs)
  | Some route =>
      let queryId := extractQueryIdFromRequest (req_Path r) in
      let '(sticky, gs) :=
        if queryId ≡? "" then (None, gs) else stickyBackendForQuery now order queryId gs in
      match sticky with
      | Some s => (Ok (mkTarget (sr_BackendURL s) (sr_Name s) (sr_Namespace s) (r_RoutingGroup route)), gs)
      | None => selectForRequest resume probe now route queryId gs
      end
  end.

(** [RetryProxy.ServeHTTP] up to the call of the reverse proxy. *)
Definition breakerGuard (now : Time) (t : Target) (gs : GatewayService W) :
    result response unit * GatewayService W :=
  if tg_backendURL t ≡? "" then (Err RespMisconfigured, gs) else
  match gw_breakers gs with
  | None => (Ok tt, gs)
  | Some m =>
      let '(ok, m) := with_breaker (tg_backendURL t) (Allow now) m in
      let gs := put_breakers m gs in
      if (ok : bool) then (Ok tt, gs) else
      let retryAfter := GatewayCircuitBreakerTimeout / Second in
      (Err (RespBreakerOpen (if retryAfter <? 1 then 30 else retryAfter)), gs)
  end.

Definition handleStickyRoutingFromResponse (now : Time) (t : Target) (status : Z)
    (query : option (string * string)) (gs : GatewayService W) : GatewayService W :=
  if negb (status =? 200) then gs else
  match query with
  | None => gs
  | Some (queryID, state) =>
      if queryID ≡? "" then gs else
      if (tg_name t ≡? "") || (tg_namespace t ≡? "") || (tg_backendURL t ≡? "") then gs else
      let activity := Observe now queryID (tg_namespace t) (tg_name t) (tg_routingGroup t)
                        (tg_backendURL t) state (gw_activity gs) in
      mkGateway (gw_cache gs) (gw_breakers gs) activity
        (sticky_Set redisEnabled queryID (tg_namespace t) (tg_name t) (tg_backendURL t)
           (tg_routingGroup t) (gw_sticky gs))
  end.

Definition recordCircuitBreakerState (now : Time) (t : Target) (status : Z) (gs : GatewayService W) :
    GatewayService W :=
  if tg_backendURL t ≡? "" then gs else
  match gw_breakers gs with
  | None => gs
  | Some m =>
      let record cb :=
        if status =? 503 then RecordOverload now cb else
        if 500 <=? status then RecordFailure now cb else
        if (200 <=? status) && (status <? 300) then RecordSuccess now cb else cb in
      put_breakers (with_breaker (tg_backendURL t) (fun cb => (tt, record cb)) m).2 gs
  end.

Definition modifyResponse (now : Time) (t : Target) (status : Z) (query : option (string * string))
    (gs : GatewayService W) : response * GatewayService W :=
  let gs := handleStickyRoutingFromResponse now t status query gs in
  let retryAfter := if status =? 503 then Some 30 else None in
  (RespForwarded status retryAfter, recordCircuitBreakerState now t status gs).

Definition recordCircuitBreakerFailure (now : Time) (t : Target) (errType : ErrorType)
    (gs : GatewayService W) : GatewayService W :=
  if tg_backendURL t ≡? "" then gs else
  match gw_breakers gs with
  | None => gs
  | Some m =>
      let countFailure := match errType with ErrorTypeOverload | ErrorTypePaused => false | _ => true end in
      put_breakers (with_breaker (tg_backendURL t)
                      (fun cb => (tt, RecordProxyFailure now countFailure cb)) m).2 gs
  end.

Definition handlePausedBackendError (resume : string -> string -> string -> option ResumeResponse)
    (t : Target) : response :=
  if (tg_name t ≡? "") || (tg_namespace t ≡? "") then RespBadGateway
  else handleResumeViaAPI resume (tg_namespace t) (tg_name t) (tg_routingGroup t).

Definition errorHandler (resume : string -> string -> string -> option ResumeResponse) (now : Time)
    (t : Target) (err : go_error) (gs : GatewayService W) : response * GatewayService W :=
  let errType := classifyError (Some err) 0 in
  let gs := recordCircuitBreakerFailure now t errType gs in
  (match errType with
   | ErrorTypePaused => handlePausedBackendError resume t
   | _ => RespBadGateway
   end, gs).

(** The whole request: [reply] is what the backend at a URL does. *)
Definition serve (resume : string -> string -> string -> option ResumeResponse)
    (probe : string -> probe_result) (reply : string -> backend_reply) (now now' : Time)
    (order : list RouteEntry) (r : Request) (gs : GatewayService W) : response * GatewayService W :=
  match chooseTarget resume probe now order r gs with
  | (Err resp, gs) => (resp, gs)
  | (Ok t, gs) =>
      match breakerGuard now t gs with
      | (Err resp, gs) => (resp, gs)
      | (Ok _, gs) =>
          match reply (tg_backendURL t) with
          | BReply status query => modifyResponse now' t status query gs
          | BError err => errorHandler resume now' t err gs
          end
      end
  end.


(** ** Where requests go *)

(** The backends of the loaded routes. *)
Definition loaded (gs : GatewayService W) (b : Backend) : Prop :=
  exists r, (gs_defaultRoute (gw_cache gs) = Some r \/ exists k, gs_routes (gw_cache gs) !! k = Some r) /\
    b ∈ r_Backends r.

(** A backend that may continue a query it already has. *)
Definition continues (b : Backend) : bool := accepting b || (b_State b ≡? StateDraining).

Lemma findRoute_loaded host sel gs r b :
  findRoute host sel (gw_cache gs) = Some r -> b ∈ r_Backends r -> loaded gs b.
Proof.
  intros Hf Hb. exists r. split; [|done]. revert Hf. unfold findRoute.
  destruct (if normalizeHostname host ≡? "" then _ else _) eqn:Eh.
  - intros [= <-]. right. case_bool_decide; [done|]. eauto.
  - destruct (negb (sel ≡? "")); [|by left]. intros Hk. right. eauto.
Qed.

Lemma findBackend_loaded order url gs b :
  order ≡ₚ (map_to_list (gs_routes (gw_cache gs))).*2 ->
  findBackendByCoordinatorURL order url gs = Some b -> loaded gs b /\ b_CoordinatorURL b = url.
Proof.
  intros Ho [Hin Hu]%find_first_Some. apply bool_decide_eq_true in Hu. split; [|done].
  apply elem_of_app in Hin as [Hin|Hin].
  - apply list_elem_of_bind in Hin as (r & Hb & Hr). exists r. split; [right|done].
    rewrite Ho in Hr. apply list_elem_of_fmap in Hr as ([k r'] & -> & Hkr).
    apply elem_of_map_to_list in Hkr. eauto.
  - destruct (gs_defaultRoute (gw_cache gs)) as [r|] eqn:Ed; [|by apply elem_of_nil in Hin].
    exists r. auto.
Qed.

Lemma sticky_routable_continues now b g :
  (isStickyBackendRoutable now b g).1 = true -> continues b = true.
Proof.
  unfold isStickyBackendRoutable, continues, accepting.
  destruct (state_running b), (b_Active b); simpl; try done; by destruct (b_State b ≡? StateDraining).
Qed.

Lemma stickyBackend_loaded now order q gs s gs' :
  order ≡ₚ (map_to_list (gs_routes (gw_cache gs))).*2 ->
  stickyBackendForQuery now order q gs = (Some s, gs') ->
  exists b, loaded gs b /\ b_CoordinatorURL b = sr_BackendURL s /\ continues b = true.
Proof.
  intros Ho. unfold stickyBackendForQuery.
  destruct (sticky_Get redisEnabled q (gw_sticky gs)) as [[route|] w]; [|done].
  case_bool_decide; [done|].
  destruct (findBackendByCoordinatorURL order (sr_BackendURL route) (put_sticky w gs)) as [b|] eqn:Ef; [|done].
  apply findBackend_loaded in Ef as [Hl Hu]; [|done].
  pose proof (sticky_routable_continues now b (guards_of (put_sticky w gs))) as Hc.
  destruct (isStickyBackendRoutable now b (guards_of (put_sticky w gs))) as [[] g]; [|done].
  intros [= <- _]. exists b. split_and!; [exact Hl|done|by apply Hc].
Qed.

Lemma selectForRequest_target resume probe now route q gs t gs' :
  selectForRequest resume probe now route q gs = (Ok t, gs') ->
  exists b, b ∈ r_Backends route /\ accepting b = true /\ tg_backendURL t = b_CoordinatorURL b /\
    tg_name t = b_Name b /\ tg_namespace t = b_Namespace b.
Proof.
  unfold selectForRequest. pose proof (selected_accepting probe now route (guards_of gs)) as Hs.
  destruct (selectBackend probe now route (guards_of gs)) as [[b|] g]; simpl in Hs.
  - destruct (Hs b eq_refl) as [Hb Ha]. case_bool_decide; [done|]. intros [= <- _]. exists b. done.
  - by destruct (pickResumeCandidate _ _ _).
Qed.


(** ** Circuit breakers along a request *)

Definition breaker_of (gs : GatewayService W) (url : string) : option CircuitBreaker :=
  m ← gw_breakers gs; m !! url.

Lemma with_breaker_lookup {A} url (f : CircuitBreaker -> A * CircuitBreaker) m cb :
  m !! url = Some cb ->
  with_breaker url f m = ((f cb).1, <[url := (f cb).2]> m).
Proof.
  intros Hm. unfold with_breaker, GetOrCreateBreaker. rewrite Hm. by destruct (f cb).
Qed.

Lemma breakerGuard_known now t gs cb :
  tg_backendURL t <> "" -> breaker_of gs (tg_backendURL t) = Some cb ->
  breaker_of (breakerGuard now t gs).2 (tg_backendURL t) = Some (Allow now cb).2 /\
  (breakerGuard now t gs).1 = if (Allow now cb).1 then Ok tt else Err (RespBreakerOpen 30).
Proof.
  intros Hu. unfold breaker_of, breakerGuard. rewrite (bool_decide_false _ Hu).
  destruct (gw_breakers gs) as [m|]; simpl; [|done]. intros Hm.
  rewrite (with_breaker_lookup _ _ _ _ Hm). destruct (Allow now cb) as [[] cb']; simpl;
    by rewrite lookup_insert_eq.
Qed.

Definition status_record (now : Time) (status : Z) (cb : CircuitBreaker) : CircuitBreaker :=
  if status =? 503 then RecordOverload now cb else
  if 500 <=? status then RecordFailure now cb else
  if (200 <=? status) && (status <? 300) then RecordSuccess now cb else cb.

Lemma handleSticky_breakers now t status query gs :
  gw_breakers (handleStickyRoutingFromResponse now t status query gs) = gw_breakers gs.
Proof.
  unfold handleStickyRoutingFromResponse. destruct (negb _); [done|].
  destruct query as [[q st]|]; [|done]. case_bool_decide; [done|]. by destruct (_ || _).
Qed.

Lemma modifyResponse_known now t status query gs cb :
  tg_backendURL t <> "" -> breaker_of gs (tg_backendURL t) = Some cb ->
  breaker_of (modifyResponse now t status query gs).2 (tg_backendURL t) =
    Some (status_record now status cb).
Proof.
  intros Hu Hm. unfold modifyResponse, recordCircuitBreakerState, breaker_of in *. simpl.
  rewrite (bool_decide_false _ Hu), handleSticky_breakers.
  destruct (gw_breakers gs) as [m|]; simpl in *; [|done].
  rewrite (with_breaker_lookup _ _ _ _ Hm). simpl. by rewrite lookup_insert_eq.
Qed.

Lemma errorHandler_known resume now t err gs cb :
  tg_backendURL t <> "" -> breaker_of gs (tg_backendURL t) = Some cb ->
  breaker_of (errorHandler resume now t err gs).2 (tg_backendURL t) =
    Some (RecordProxyFailure now (negb (isConnectionError (Some err))) cb).
Proof.
  intros Hu Hm. unfold errorHandler, recordCircuitBreakerFailure, breaker_of in *.
  cbn [snd]. rewrite (bool_decide_false _ Hu), classifyError_proxy.
  destruct (gw_breakers gs) as [m|]; cbn [mbind option_bind] in *; [|done].
  cbn [put_breakers gw_breakers mbind option_bind].
  rewrite (with_breaker_lookup _ _ _ _ Hm). cbn [snd]. rewrite lookup_insert_eq.
  by destruct (isConnectionError (Some err)).
Qed.


Lemma Allow_probe now cb :
  (Allow now cb).1 = true -> State cb <> CircuitClosed ->
  State (Allow now cb).2 = CircuitHalfOpen /\ halfOpenProbeActive (Allow now cb).2 = true.
Proof.
  unfold Allow. destruct (State cb) eqn:Es; try done.
  - by destruct (_ <=? _).
  - by destruct (halfOpenProbeActive cb).
Qed.

Lemma status_record_probe now status cb :
  State cb = CircuitHalfOpen -> halfOpenProbeActive cb = true ->
  halfOpenProbeActive (status_record now status cb) =
    negb ((200 <=? status) && (status <? 300) || (500 <=? status)) /\
  ((status <? 200) || ((300 <=? status) && (status <? 500)) = true -> status_record now status cb = cb).
Proof.
  intros Hs Hp. unfold status_record.
  destruct (Z.eqb_spec status 503) as [->|]; [unfold RecordOverload; simpl; rewrite Hs; done|].
  destruct (Z.leb_spec 500 status).
  { unfold RecordFailure, recordFailureLocked. simpl. rewrite Hs. simpl. split; [by rewrite orb_true_r|lia]. }
  destruct (Z.leb_spec 200 status), (Z.ltb_spec status 300); simpl.
  - unfold RecordSuccess. simpl. rewrite Hs. simpl. split; [by destruct (_ <=? _)|lia].
  - rewrite Hp. done.
  - rewrite Hp. done.
  - lia.
Qed.

(** A request that is let through a breaker which is not closed holds the
    half-open probe slot; the slot is given back by every 2xx and 5xx reply and
    by every transport error, and by nothing else. *)
Theorem probe_slot_resolution resume now now' t gs cb gs1 :
  tg_backendURL t <> "" -> breaker_of gs (tg_backendURL t) = Some cb -> State cb <> CircuitClosed ->
  breakerGuard now t gs = (Ok tt, gs1) ->
  (forall status query, halfOpenProbeActive <$>
     breaker_of (modifyResponse now' t status query gs1).2 (tg_backendURL t) =
     Some (negb ((200 <=? status) && (status <? 300) || (500 <=? status)))) /\
  (forall err, halfOpenProbeActive <$>
     breaker_of (errorHandler resume now' t err gs1).2 (tg_backendURL t) = Some false).
Proof.
  intros Hu Hb Hs Hg. destruct (breakerGuard_known now t gs cb Hu Hb) as [Hb1 Ha].
  rewrite Hg in Hb1, Ha. simpl in Hb1, Ha.
  destruct (Allow now cb).1 eqn:Ea; [|done]. destruct (Allow_probe now cb Ea Hs) as [Hs1 Hp1]. split.
  - intros status query. rewrite (modifyResponse_known _ _ _ _ _ _ Hu Hb1). simpl. f_equal.
    by apply status_record_probe.
  - intros err. rewrite (errorHandler_known _ _ _ _ _ _ Hu Hb1). simpl. f_equal.
    unfold RecordProxyFailure, recordFailureLocked. rewrite Hs1, bool_decide_true by done. simpl.
    by rewrite Hs1.
Qed.

(** The requests a gateway tries to send to a target after [gs]. *)
Definition retry_guard (t : Target) (ts : list Time) (gs : GatewayService W) : GatewayService W :=
  fold_left (fun gs now => (breakerGuard now t gs).2) ts gs.

(** A half-open probe that the backend answers with a redirect or a client
    error (a missing session, an unknown query) never gives the slot back:
    however long the gateway waits and however often it tries, every later
    request to that backend is refused. *)
Theorem half_open_probe_wedge now now' t gs cb gs1 status query ts later :
  tg_backendURL t <> "" -> breaker_of gs (tg_backendURL t) = Some cb -> State cb <> CircuitClosed ->
  breakerGuard now t gs = (Ok tt, gs1) -> 300 <= status < 500 ->
  (breakerGuard later t (retry_guard t ts (modifyResponse now' t status query gs1).2)).1
    = Err (RespBreakerOpen 30).
Proof.
  intros Hu Hb Hs Hg Hst. destruct (breakerGuard_known now t gs cb Hu Hb) as [Hb1 Ha].
  rewrite Hg in Hb1, Ha. simpl in Hb1, Ha.
  destruct (Allow now cb).1 eqn:Ea; [|done]. destruct (Allow_probe now cb Ea Hs) as [Hs1 Hp1].
  set (cb1 := (Allow now cb).2) in *. set (gs2 := (modifyResponse now' t status query gs1).2).
  assert (Hb2 : breaker_of gs2 (tg_backendURL t) = Some cb1).
  { subst gs2. rewrite (modifyResponse_known _ _ _ _ _ _ Hu Hb1). f_equal.
    apply status_record_probe; [done..|lia]. }
  assert (Hb3 : breaker_of (retry_guard t ts gs2) (tg_backendURL t) = Some cb1).
  { clearbody gs2. revert gs2 Hb2. induction ts as [|t0 ts IH]; intros gs2 Hb2; simpl; [done|].
    apply IH. rewrite (proj1 (breakerGuard_known t0 t gs2 cb1 Hu Hb2)).
    by rewrite probe_active_blocked. }
  rewrite (proj2 (breakerGuard_known later t _ cb1 Hu Hb3)). by rewrite probe_active_blocked.
Qed.

(** Whichever way a backend was chosen - by load, by a sticky binding or
    by failing open - no request reaches it while its breaker is not
    selectable: the client gets a 503 with a Retry-After. *)
Theorem guard_refuses_unselectable now t gs cb :
  tg_backendURL t <> "" -> breaker_of gs (tg_backendURL t) = Some cb -> Selectable now cb = false ->
  (breakerGuard now t gs).1 = Err (RespBreakerOpen 30) /\
  breaker_of (breakerGuard now t gs).2 (tg_backendURL t) = Some cb.
Proof.
  intros Hu Hb Hs. destruct (breakerGuard_known now t gs cb Hu Hb) as [-> ->].
  assert (Allow now cb = (false, cb)) as ->; [|done].
  revert Hs. unfold Selectable, Allow. destruct (State cb); try done.
  - by destruct (_ <=? _).
  - by destruct (halfOpenProbeActive cb).
Qed.

(** ** A query stays with the backend that runs it *)

(** A store that still has what was just put into it. *)
Definition retains (q : string) : Prop :=
  forall ns n u g w, (sticky_Get redisEnabled q (sticky_Set redisEnabled q ns n u g w)).1 =
    Some (mkSticky ns n u g).

(** C29: Once a backend has answered with a query id, a follow-up request for
    that id is sent to the same backend, whatever the loads are by then, as
    long as the store keeps the binding, a route for the request exists and the
    backend is still loaded and routable for continuations. *)
Theorem query_follows_backend resume probe now now' order t q st gs r route b :
  tg_backendURL t <> "" -> tg_name t <> "" -> tg_namespace t <> "" -> q <> "" -> retains q ->
  extractQueryIdFromRequest (req_Path r) = q ->
  findRoute (req_Host r) (req_Selector r) (gw_cache gs) = Some route ->
  findBackendByCoordinatorURL order (tg_backendURL t) gs = Some b ->
  let gs1 := (modifyResponse now t 200 (Some (q, st)) gs).2 in
  (isStickyBackendRoutable now' b (guards_of gs1)).1 = true ->
  (chooseTarget resume probe now' order r gs1).1 =
    Ok (mkTarget (tg_backendURL t) (tg_name t) (tg_namespace t) (r_RoutingGroup route)).
Proof.
  intros Hu Hn Hns Hq Hret Hpath Hroute Hfind gs1 Hok.
  assert (Hst : gw_cache gs1 = gw_cache gs /\ gw_sticky gs1 =
    sticky_Set redisEnabled q (tg_namespace t) (tg_name t) (tg_backendURL t) (tg_routingGroup t) (gw_sticky gs)).
  { subst gs1. unfold modifyResponse, recordCircuitBreakerState, handleStickyRoutingFromResponse. simpl.
    rewrite !bool_decide_false by done. simpl. by destruct (gw_breakers gs). }
  clearbody gs1. destruct Hst as [Hc Hs]. specialize (Hret (tg_namespace t) (tg_name t)
    (tg_backendURL t) (tg_routingGroup t) (gw_sticky gs)). rewrite <- Hs in Hret.
  unfold chooseTarget. rewrite Hc, Hroute, Hpath, (bool_decide_false _ Hq). unfold stickyBackendForQuery.
  destruct (sticky_Get redisEnabled q (gw_sticky gs1)) as [found w]. simpl in Hret. subst found.
  cbn [sr_BackendURL]. rewrite (bool_decide_false _ Hu).
  change (guards_of (put_sticky w gs1)) with (guards_of gs1).
  replace (findBackendByCoordinatorURL order (tg_backendURL t) (put_sticky w gs1)) with (Some b)
    by (rewrite <- Hfind; unfold findBackendByCoordinatorURL; simpl; by rewrite Hc).
  destruct (isStickyBackendRoutable now' b (guards_of gs1)) as [ok g]. simpl in Hok. by subst ok.
Qed.

End gateway.

(** ** Paths ([pkg/gateway/path_join.go]) *)

Definition singleJoiningSlash (a b : string) : string :=
  match HasSuffix a "/", HasPrefix b "/" with
  | true, true => a +:+ str_drop 1 b
  | false, false => if negb (b ≡? "") then a +:+ "/" +:+ b else a
  | _, _ => a +:+ b
  end.

(** ** Witnesses *)

Definition ex_open : CircuitBreaker :=
  set_LastFailure 0 (set_State CircuitOpen (newBreaker "http://small" 5 2 (30 * Second))).

Definition ex_gateway : GatewayService stores :=
  let '(m, def) := build_index [ex_route] in
  mkGateway (mkCache (<["host:g" := ex_route]> m) def (Some (NewBackendHealthChecker Second Second 3))
               (mkReload zeroTime zeroTime zeroTime "" None 0 0))
    (Some {["http://small" := ex_open]}) (g_queryActivity ex_guards) (∅, ∅).

Definition ex_target : Target := mkTarget "http://small" "small" "n" "g".
Definition ex_resume (_ _ _ : string) : option ResumeResponse := None.


Lemma probe_slot_resolution_witness :
  (breakerGuard (40 * Second) ex_target ex_gateway).1 = Ok tt /\
  halfOpenProbeActive <$> breaker_of (modifyResponse true 0 ex_target 500 None
    (breakerGuard (40 * Second) ex_target ex_gateway).2).2 "http://small" = Some false.
Proof.
  split; [vm_compute; reflexivity|].
  apply (probe_slot_resolution true ex_resume (40 * Second) 0 ex_target ex_gateway ex_open).
  - discriminate.
  - vm_compute. reflexivity.
  - discriminate.
  - vm_compute. reflexivity.
Defined.

Lemma half_open_probe_wedge_witness :
  (breakerGuard (40 * Second) ex_target ex_gateway).1 = Ok tt /\
  (breakerGuard (90 * Hour) ex_target (retry_guard ex_target [50 * Second; Hour]
     (modifyResponse true 0 ex_target 404 None (breakerGuard (40 * Second) ex_target ex_gateway).2).2)).1
  = Err (RespBreakerOpen 30).
Proof.
  split; [vm_compute; reflexivity|].
  apply (half_open_probe_wedge true (40 * Second) 0 ex_target ex_gateway ex_open).
  - discriminate.
  - vm_compute. reflexivity.
  - discriminate.
  - vm_compute. reflexivity.
  - lia.
Defined.

Lemma guard_refuses_unselectable_witness :
  Selectable 1 ex_open = false /\ (breakerGuard 1 ex_target ex_gateway).1 = Err (RespBreakerOpen 30).
Proof.
  split; [vm_compute; reflexivity|].
  apply (guard_refuses_unselectable 1 ex_target ex_gateway ex_open).
  - discriminate.
  - vm_compute. reflexivity.
  - vm_compute. reflexivity.
Defined.

Lemma map_stores_retain q : retains (W := stores) true q.
Proof.
  intros ns n u g w. unfold sticky_Get, sticky_Set. simpl. by rewrite lookup_insert_eq.
Qed.

Lemma query_follows_backend_witness :
  (chooseTarget true ex_resume ex_probe 6 [ex_route]
     (mkRequest "g" "" "/v1/query/20250115_123456_00001_abc12")
     (modifyResponse true 5 (mkTarget "http://big" "big" "n" "g") 200
        (Some ("20250115_123456_00001_abc12", "RUNNING")) ex_gateway).2).1
  = Ok (mkTarget "http://big" "big" "n" "g").
Proof.
  apply (query_follows_backend true ex_resume ex_probe 5 6 [ex_route]
    (mkTarget "http://big" "big" "n" "g") "20250115_123456_00001_abc12" "RUNNING" ex_gateway
    (mkRequest "g" "" "/v1/query/20250115_123456_00001_abc12") ex_route (ex_b "big" StateRunning 8));
    try discriminate; try (vm_compute; reflexivity).
  apply map_stores_retain.
Defined.
