(* ===== verification/Lease.v ===== *)
(** * Lease gating ([pkg/api-server/lease.go])

    API-server replicas use a Kubernetes Lease per key so that only one of
    them triggers a resume at a time.  The API server is reached through
    [LeaseClient]; the theorems say that a lease is only ever taken when it is
    absent or expired, so that granted windows never overlap. *)

From S2P Require Import Prelude GoStrings GoTime Retry.

(** [LeaseKeyType] is a string: the label of a stored lease may hold others. *)
Definition LeaseKeyTypeRuntime : string := "runtime".
Definition LeaseKeyTypePool : string := "pool".
Definition LeaseKeyTypeSuspend : string := "suspend".

(** The fields of the Lease object the code reads and writes. *)
Record Lease := mkLease {
  l_HolderIdentity : option string;
  l_LeaseDurationSeconds : option Z;
  l_AcquireTime : option Time;
  l_RenewTime : option Time;
  l_KeyType : string;      (* label xtrinode.io/lease-key-type *)
  l_Key : string;          (* annotation xtrinode.io/lease-key *)
  l_ResourceVersion : Z
}.

#[export] Instance Lease_eq_dec : EqDecision Lease.
Proof. solve_decision. Defined.

(** A [MicroTime] is stored with microsecond precision. *)
Definition micro (t : Time) : Time := t / 1000 * 1000.

Definition same_spec (l l' : Lease) : Prop :=
  l_HolderIdentity l' = l_HolderIdentity l /\
  l_LeaseDurationSeconds l' = l_LeaseDurationSeconds l /\
  l_RenewTime l' = micro <$> l_RenewTime l.

(** One successful write: the name, the content before and after it. *)
Record lease_write := mkWrite {
  lw_name : string;
  lw_pre : option Lease;
  lw_post : option Lease
}.

(** The client's view of the server, as in [ConfigMapClient]: creation needs an
    absent object, an update one with the version the object carries; deletion
    carries no precondition. *)
Class LeaseClient (E W : Type) := {
  ls_Get : string -> W -> result E Lease * W;
  ls_Create : string -> Lease -> W -> result E Lease * W;
  ls_Update : string -> Lease -> W -> result E Lease * W;
  ls_Delete : string -> W -> option E * W;
  ls_log : W -> list lease_write;
  ls_seen : W -> string -> Lease -> Prop;
  ls_get_log : forall n w, ls_log (ls_Get n w).2 = ls_log w;
  ls_get_ok : forall n w l w', ls_Get n w = (Ok l, w') -> ls_seen w' n l;
  ls_create_ok : forall n l w l' w', ls_Create n l w = (Ok l', w') ->
    exists p, ls_log w' = ls_log w ++ [mkWrite n None (Some p)] /\ same_spec l p;
  ls_create_err : forall n l w e w', ls_Create n l w = (Err e, w') -> ls_log w' = ls_log w;
  ls_update_ok : forall n l w l' w', ls_Update n l w = (Ok l', w') ->
    exists l0 p, ls_log w' = ls_log w ++ [mkWrite n (Some l0) (Some p)] /\ same_spec l p /\
      ls_seen w' n l0 /\ l_ResourceVersion l0 = l_ResourceVersion l;
  ls_update_err : forall n l w e w', ls_Update n l w = (Err e, w') -> ls_log w' = ls_log w;
  ls_delete_ok : forall n w w', ls_Delete n w = (None, w') ->
    exists l0, ls_log w' = ls_log w ++ [mkWrite n (Some l0) None];
  ls_delete_err : forall n w e w', ls_Delete n w = (Some e, w') -> ls_log w' = ls_log w;
  ls_update_seen : forall n l w m l', ls_seen w m l' -> ls_seen (ls_Update n l w).2 m l';
  ls_version_unique : forall w n l l', ls_seen w n l -> ls_seen w n l' ->
    l_ResourceVersion l = l_ResourceVersion l' -> l = l'
}.

Record LeaseManager := mkLeaseManager {
  lm_leaseDuration : Duration;
  lm_suspendDuration : Duration;
  lm_holderIdentity : string
}.

Definition NewLeaseManager (leaseDuration : Duration) (holderIdentity : string) : LeaseManager :=
  mkLeaseManager leaseDuration leaseDuration holderIdentity.

Definition SetSuspendDuration (d : Duration) (lm : LeaseManager) : LeaseManager :=
  mkLeaseManager (lm_leaseDuration lm) d (lm_holderIdentity lm).

Definition durationForKey (lm : LeaseManager) (keyType : string) : Duration :=
  if keyType ≡? LeaseKeyTypeSuspend then lm_suspendDuration lm else lm_leaseDuration lm.

Record K8sLeaseResult := mkLeaseResult {
  lr_Acquired : bool;
  lr_LeaseUntil : Time;
  lr_Holder : string
}.

(** [int32(d.Seconds())] *)
Definition duration_seconds (d : Duration) : Z := Z.quot d Second.

Definition holder_of (l : Lease) : string := default "unknown" (l_HolderIdentity l).

(** RenewTime plus LeaseDurationSeconds, with the fallbacks of the code. *)
Definition lease_expiry (now : Time) (l : Lease) : Time :=
  match l_RenewTime l, l_LeaseDurationSeconds l with
  | Some renew, Some secs => time_add renew (secs * Second)
  | Some renew, None => renew
  | None, _ => now
  end.

(** ** Names *)

Definition MaxLeaseNameLength : nat := 63.
Definition LeasePrefix : string := "xtrinode-resume-".

Definition is_dns (c : ascii) : bool := byte_in 97 122 c || byte_in 48 57 c.
Definition is_hyphen (c : ascii) : bool := Ascii.eqb c "-".

(** The loop over the runes of valid UTF-8: a byte that continues a rune
    (128-191) writes nothing, so that every rune writes one byte. *)
Fixpoint sanitize_runes (s : string) : string :=
  match s with
  | EmptyString => ""
  | String c s =>
      if is_dns c then String c (sanitize_runes s) else
      if byte_in 65 90 c then String (lower_byte c) (sanitize_runes s) else
      if byte_in 128 191 c then sanitize_runes s else
      String "-" (sanitize_runes s)
  end.

Definition sanitizeDNS1123 (s : string) : string := TrimFunc is_hyphen (sanitize_runes s).

Definition MakeRuntimeKey (namespace name : string) : string :=
  "rt/" +:+ namespace +:+ "/" +:+ name.

Definition MakePoolKey (routingGroup : string) : string := "pool/" +:+ routingGroup.

Section lease.
Context {E W : Type} `{KubeErrors E, LeaseClient E W}.

(** The first eight hex digits of the SHA-256 of a key. *)
Context (hash8 : string -> string).

Definition makeLeaseNameFromKey (key keyType : string) : string :=
  let sanitized := sanitizeDNS1123 key in
  let name := LeasePrefix +:+ keyType +:+ "-" +:+ sanitized in
  if (MaxLeaseNameLength <? String.length name)%nat then
    let hashStr := hash8 key in
    let maxPrefixLen := (MaxLeaseNameLength - String.length hashStr - 1)%nat in
    let prefix := LeasePrefix +:+ keyType in
    let prefix := if (maxPrefixLen <? String.length prefix)%nat then str_take maxPrefixLen prefix
                  else prefix in
    prefix +:+ "-" +:+ hashStr
  else name.

(** ** Acquiring *)

Definition createLease (lm : LeaseManager) (now : Time) (leaseName : string) (leaseUntil : Time)
    (key keyType : string) (w : W) : result E K8sLeaseResult * W :=
  let lease := mkLease (Some (lm_holderIdentity lm))
    (Some (duration_seconds (durationForKey lm keyType))) (Some now) (Some now) keyType key 0 in
  match ls_Create leaseName lease w with
  | (Ok _, w) => (Ok (mkLeaseResult true leaseUntil (lm_holderIdentity lm)), w)
  | (Err e, w) =>
      if IsAlreadyExists e then
        match ls_Get leaseName w with
        | (Err e, w) => (Err (Errorf "failed to get existing lease after create race: " e), w)
        | (Ok existing, w) =>
            let expiry :=
              match l_RenewTime existing, l_LeaseDurationSeconds existing with
              | Some renew, Some secs => time_add renew (secs * Second)
              | _, _ => time_add now (durationForKey lm keyType)
              end in
            (Ok (mkLeaseResult false expiry (holder_of existing)), w)
        end
      else (Err (Errorf "failed to create lease: " e), w)
  end.

Definition updateLease (lm : LeaseManager) (now : Time) (leaseName : string) (lease : Lease)
    (leaseUntil : Time) (w : W) : result E K8sLeaseResult * W :=
  let keyType := l_KeyType lease in
  let lease := mkLease (Some (lm_holderIdentity lm))
    (Some (duration_seconds (durationForKey lm keyType))) (l_AcquireTime lease) (Some now)
    (l_KeyType lease) (l_Key lease) (l_ResourceVersion lease) in
  match ls_Update leaseName lease w with
  | (Ok _, w) => (Ok (mkLeaseResult true leaseUntil (lm_holderIdentity lm)), w)
  | (Err e, w) =>
      match ls_Get leaseName w with
      | (Err e, w) => (Err (Errorf "failed to re-get lease after conflict: " e), w)
      | (Ok actual, w) => (Ok (mkLeaseResult false (lease_expiry now actual) (holder_of actual)), w)
      end
  end.

Definition AcquireLease (lm : LeaseManager) (now : Time) (key keyType : string) (w : W) :
    result E K8sLeaseResult * W :=
  let leaseName := makeLeaseNameFromKey key keyType in
  let leaseUntil := time_add now (durationForKey lm keyType) in
  match ls_Get leaseName w with
  | (Err e, w) =>
      if IsNotFound e then createLease lm now leaseName leaseUntil key keyType w
      else (Err (Errorf "failed to get lease: " e), w)
  | (Ok lease, w) =>
      let leaseExpiry := lease_expiry now lease in
      if time_before leaseExpiry now then updateLease lm now leaseName lease leaseUntil w
      else (Ok (mkLeaseResult false leaseExpiry (holder_of lease)), w)
  end.

Definition ReleaseLease (lm : LeaseManager) (key keyType : string) (w : W) : option E * W :=
  let leaseName := makeLeaseNameFromKey key keyType in
  match ls_Get leaseName w with
  | (Err e, w) => (if IsNotFound e then None else Some (Errorf "failed to get lease for release: " e), w)
  | (Ok lease, w) =>
      if l_HolderIdentity lease ≡? Some (lm_holderIdentity lm) then
        match ls_Delete leaseName w with
        | (Some e, w) => (if IsNotFound e then None else Some (Errorf "failed to delete lease: " e), w)
        | (None, w) => (None, w)
        end
      else (None, w)
  end.

(** ** What an acquisition writes *)

(** A write that takes a lease at [now] for [holder]: nothing live is replaced
    and the new lease runs from [now]. *)
Definition takes (now : Time) (holder : string) (x : lease_write) : Prop :=
  (match lw_pre x with None => True | Some l => lease_expiry now l < now end) /\
  exists p, lw_post x = Some p /\ l_HolderIdentity p = Some holder /\
    l_RenewTime p = Some (micro now) /\ exists secs, l_LeaseDurationSeconds p = Some secs.

Lemma createLease_log lm now n until key kt w :
  match createLease lm now n until key kt w with
  | (Ok r, w') =>
      if lr_Acquired r then exists x, ls_log w' = ls_log w ++ [x] /\ lw_name x = n /\
                              takes now (lm_holderIdentity lm) x
      else ls_log w' = ls_log w
  | (Err _, w') => ls_log w' = ls_log w
  end.
Proof.
  unfold createLease. destruct (ls_Create n _ w) as [[l|e] w1] eqn:Ec; simpl.
  - apply ls_create_ok in Ec as (p & Hl & Hh & Hd & Hr). eexists. split; [exact Hl|].
    split; [done|]. split; [done|]. exists p. simpl in *. eauto 10.
  - apply ls_create_err in Ec. destruct (IsAlreadyExists e); [|done].
    pose proof (ls_get_log n w1) as Hg. destruct (ls_Get n w1) as [[]]; simpl in *; congruence.
Qed.

Lemma updateLease_log lm now n l until w :
  ls_seen w n l -> lease_expiry now l < now ->
  match updateLease lm now n l until w with
  | (Ok r, w') =>
      if lr_Acquired r then exists x, ls_log w' = ls_log w ++ [x] /\ lw_name x = n /\
                              takes now (lm_holderIdentity lm) x
      else ls_log w' = ls_log w
  | (Err _, w') => ls_log w' = ls_log w
  end.
Proof.
  intros Hs He. unfold updateLease. set (lu := mkLease _ _ _ _ _ _ _).
  pose proof (ls_update_seen n lu w n l Hs) as Hs'.
  destruct (ls_Update n lu w) as [[l1|e] w1] eqn:Eu; simpl in *.
  - apply ls_update_ok in Eu as (l0 & p & Hl & (Hh & Hd & Hr) & Hs0 & Hv).
    assert (l0 = l) as -> by (by eapply ls_version_unique).
    eexists. split; [exact Hl|]. split; [done|]. split; [exact He|]. exists p. simpl in *. eauto 10.
  - apply ls_update_err in Eu. pose proof (ls_get_log n w1) as Hg.
    destruct (ls_Get n w1) as [[]]; simpl in *; congruence.
Qed.

Lemma AcquireLease_log lm now key kt w :
  match AcquireLease lm now key kt w with
  | (Ok r, w') =>
      if lr_Acquired r then exists x, ls_log w' = ls_log w ++ [x] /\
                              lw_name x = makeLeaseNameFromKey key kt /\
                              takes now (lm_holderIdentity lm) x
      else ls_log w' = ls_log w
  | (Err _, w') => ls_log w' = ls_log w
  end.
Proof.
  unfold AcquireLease. set (n := makeLeaseNameFromKey key kt).
  pose proof (ls_get_log n w) as Hg. destruct (ls_Get n w) as [[l|e] w1] eqn:Eg; simpl in Hg.
  - apply ls_get_ok in Eg. destruct (time_before (lease_expiry now l) now) eqn:Eb; simpl; [|done].
    unfold time_before in Eb. apply Z.ltb_lt in Eb.
    pose proof (updateLease_log lm now n l (time_add now (durationForKey lm kt)) w1 Eg Eb) as Hu.
    rewrite Hg in Hu. exact Hu.
  - destruct (IsNotFound e); [|done].
    pose proof (createLease_log lm now n (time_add now (durationForKey lm kt)) key kt w1) as Hc.
    rewrite Hg in Hc. exact Hc.
Qed.

(** An acquisition never steals: when [AcquireLease] reports the lease as
    acquired it has made exactly one write, over nothing or over a lease whose
    expiry lies before its own clock, and the new lease names the caller and
    runs from that clock; otherwise it has written nothing. *)
Theorem acquire_never_steals lm now key kt w :
  match AcquireLease lm now key kt w with
  | (Ok r, w') =>
      if lr_Acquired r then exists x, ls_log w' = ls_log w ++ [x] /\
                              lw_name x = makeLeaseNameFromKey key kt /\
                              takes now (lm_holderIdentity lm) x
      else ls_log w' = ls_log w
  | (Err _, w') => ls_log w' = ls_log w
  end.
Proof. apply AcquireLease_log. Qed.

(** A lease without a renew time is never acquired: its expiry is computed
    as the caller's own clock, which is not before it, so every request stays
    gated for good. *)
Theorem lease_without_renew_time_blocks lm now key kt w l w1 :
  ls_Get (makeLeaseNameFromKey key kt) w = (Ok l, w1) -> l_RenewTime l = None ->
  AcquireLease lm now key kt w = (Ok (mkLeaseResult false now (holder_of l)), w1).
Proof.
  intros Hg Hr. unfold AcquireLease. rewrite Hg. unfold lease_expiry, time_before. rewrite Hr.
  by rewrite Z.ltb_irrefl.
Qed.

End lease.

(** ** Mutual exclusion

    The accepted writes to one lease object form a chain: each replaces what
    the one before it stored.  [acq_now] is the clock of the replica that made
    the write. *)

Record acquisition := mkAcq {
  acq_now : Time;
  acq_holder : string;
  acq_write : lease_write
}.

Definition acq_expiry (a : acquisition) : Time :=
  match lw_post (acq_write a) with Some l => lease_expiry (acq_now a) l | None => acq_now a end.

Fixpoint chained (prev : option Lease) (acqs : list acquisition) : Prop :=
  match acqs with
  | [] => True
  | a :: acqs => lw_pre (acq_write a) = prev /\ chained (lw_post (acq_write a)) acqs
  end.

Definition acquired (a : acquisition) : Prop :=
  takes (acq_now a) (acq_holder a) (acq_write a) /\
  forall p, lw_post (acq_write a) = Some p -> exists secs, l_LeaseDurationSeconds p = Some secs /\ 1 <= secs.

Definition before (a b : acquisition) : Prop := acq_expiry a < acq_now b.

Lemma micro_le t : t - 1000 < micro t <= t.
Proof. unfold micro. pose proof (Z.mod_pos_bound t 1000). pose proof (Z.div_mod t 1000). lia. Qed.

Lemma acquired_window a : acquired a -> acq_now a <= acq_expiry a.
Proof.
  intros [(_ & p & Hp & _ & Hr & _) Hd]. destruct (Hd p Hp) as (secs & Hs & H1).
  unfold acq_expiry, lease_expiry. rewrite Hp, Hr, Hs. unfold time_add, Second.
  pose proof (micro_le (acq_now a)). lia.
Qed.

(** A stored lease with both times expires at the same instant for everybody. *)
Lemma expiry_clock_free a now p :
  acquired a -> lw_post (acq_write a) = Some p -> lease_expiry now p = acq_expiry a.
Proof.
  intros [(_ & p' & Hp' & _ & Hr & _) Hd] Hp. destruct (Hd p Hp) as (secs & Hs & _).
  unfold acq_expiry. rewrite Hp. simplify_eq. unfold lease_expiry. by rewrite Hr, Hs.
Qed.


(** ** Names *)

Definition dns_char (c : ascii) : bool := is_dns c || is_hyphen c.

Lemma sanitize_runes_dns s : all_bytes dns_char (sanitize_runes s) = true.
Proof.
  induction s as [|c s IH]; [done|]. cbn [sanitize_runes].
  destruct (is_dns c) eqn:Ed; [cbn [all_bytes]; unfold dns_char at 1; by rewrite Ed, IH|].
  destruct (byte_in 65 90 c) eqn:Eu.
  - cbn [all_bytes]. rewrite IH, andb_true_r. revert Eu. unfold dns_char, is_dns, lower_byte.
    clear. destruct c as [[] [] [] [] [] [] [] []]; vm_compute; done.
  - by destruct (byte_in 128 191 c).
Qed.

Lemma Trim_bytes p q s : all_bytes p s = true -> all_bytes p (TrimFunc q s) = true.
Proof.
  unfold TrimFunc. intros H. assert (Hl : all_bytes p (TrimLeftFunc q s) = true).
  { induction s as [|c s IH]; simpl in *; [done|]. destruct (q c); [|done].
    apply andb_true_iff in H as [_ H]. auto. }
  revert Hl. generalize (TrimLeftFunc q s) as t. clear. induction t as [|c t IH]; simpl; [done|].
  intros [Hc Ht]%andb_true_iff. specialize (IH Ht).
  destruct (TrimRightFunc q t); simpl in *; [destruct (q c); simpl; by rewrite ?Hc|by rewrite Hc].
Qed.

Lemma length_str_app a b : String.length (a +:+ b) = (String.length a + String.length b)%nat.
Proof. induction a as [|c a IH]; simpl; [done|]. by rewrite IH. Qed.

Lemma length_str_take n s : (String.length (str_take n s) <= n)%nat.
Proof. revert n. induction s as [|c s IH]; intros [|n]; simpl; try lia. specialize (IH n). lia. Qed.

(** Every lease name is at most 63 bytes of lower-case letters, digits and
    hyphens, for any key and any of the three key types, given that the hash
    suffix is eight hex digits. *)
Theorem lease_name_valid hash8 key kt :
  (forall k, String.length (hash8 k) = 8%nat /\ all_bytes is_dns (hash8 k) = true) ->
  kt ∈ [LeaseKeyTypeRuntime; LeaseKeyTypePool; LeaseKeyTypeSuspend] ->
  (String.length (makeLeaseNameFromKey hash8 key kt) <= MaxLeaseNameLength)%nat /\
  all_bytes dns_char (makeLeaseNameFromKey hash8 key kt) = true.
Proof.
  intros Hh Hk. destruct (Hh key) as [Hlen Hdns].
  assert (Hkt : all_bytes dns_char (LeasePrefix +:+ kt) = true).
  { repeat (apply elem_of_cons in Hk as [->|Hk]; [reflexivity|]). by apply elem_of_nil in Hk. }
  assert (Hhd : all_bytes dns_char (hash8 key) = true).
  { revert Hdns. generalize (hash8 key). clear. induction s as [|c s IH]; simpl; [done|].
    intros [Hc Hs]%andb_true_iff. unfold dns_char at 1. by rewrite Hc, IH. }
  unfold makeLeaseNameFromKey. rewrite Hlen.
  set (name := LeasePrefix +:+ kt +:+ "-" +:+ sanitizeDNS1123 key).
  destruct (Nat.ltb_spec MaxLeaseNameLength (String.length name)) as [Hlong|Hshort].
  - unfold MaxLeaseNameLength in *. cbn [Nat.sub]. set (pre := if (_ <? _)%nat then _ else _).
    assert (Hpre : (String.length pre <= 54)%nat /\ all_bytes dns_char pre = true).
    { subst pre. destruct (Nat.ltb_spec 54 (String.length (LeasePrefix +:+ kt))); [|split; [lia|done]].
      split; [apply length_str_take|by apply all_bytes_take]. }
    destruct Hpre as [Hp1 Hp2]. clearbody pre. split.
    + rewrite !length_str_app, Hlen. cbn [String.length]. lia.
    + by rewrite !all_bytes_app, Hp2, Hhd.
  - split; [done|]. subst name. rewrite !all_bytes_app in *.
    apply andb_true_iff in Hkt as [-> ->]. simpl. apply Trim_bytes, sanitize_runes_dns.
Qed.

(** Distinct runtimes can share a lease: the separator of a key is
    sanitised to the hyphen that namespaces and names may contain, so resuming
    one runtime gates the resume of the other. *)
Theorem lease_name_collision hash8 :
  MakeRuntimeKey "a" "b-c" <> MakeRuntimeKey "a-b" "c" /\
  makeLeaseNameFromKey hash8 (MakeRuntimeKey "a" "b-c") LeaseKeyTypeRuntime =
  makeLeaseNameFromKey hash8 (MakeRuntimeKey "a-b" "c") LeaseKeyTypeRuntime.
Proof. split; [discriminate|reflexivity]. Qed.

(** ** A concrete server

    Per name, every state the object has had; the resource version is the
    position.  [lv_pending] are writes of other clients, one slot per call. *)

Record lease_server := mkLeaseServer {
  lv_history : gmap string (list (option Lease));
  lv_pending : list (option (string * option Lease));
  lv_log : list lease_write
}.

Definition lv_states (n : string) (w : lease_server) : list (option Lease) :=
  default [] (lv_history w !! n).

(** What is stored, and what is read at a position. *)
Definition wire (l : Lease) : Lease :=
  mkLease (l_HolderIdentity l) (l_LeaseDurationSeconds l) (l_AcquireTime l)
    (micro <$> l_RenewTime l) (l_KeyType l) (l_Key l) (l_ResourceVersion l).

Definition at_version (i : nat) (l : Lease) : Lease :=
  mkLease (l_HolderIdentity l) (l_LeaseDurationSeconds l) (l_AcquireTime l) (l_RenewTime l)
    (l_KeyType l) (l_Key l) (Z.of_nat i).

Definition lv_push (n : string) (l : option Lease) (w : lease_server) : lease_server :=
  mkLeaseServer (<[n := lv_states n w ++ [wire <$> l]]> (lv_history w)) (lv_pending w) (lv_log w).

Definition lv_interfere (w : lease_server) : lease_server :=
  match lv_pending w with
  | [] => w
  | None :: p => mkLeaseServer (lv_history w) p (lv_log w)
  | Some (n, l) :: p => lv_push n l (mkLeaseServer (lv_history w) p (lv_log w))
  end.

Definition lv_current (n : string) (w : lease_server) : option Lease :=
  match list.last (lv_states n w) with
  | Some (Some l) => Some (at_version (length (lv_states n w) - 1) l)
  | _ => None
  end.

Definition lv_write (n : string) (l : option Lease) (w : lease_server) : lease_server :=
  let pre := lv_current n w in
  let w := lv_push n l w in
  mkLeaseServer (lv_history w) (lv_pending w) (lv_log w ++ [mkWrite n pre (lv_current n w)]).

Definition lv_Get (n : string) (w : lease_server) : result kube_error Lease * lease_server :=
  let w := lv_interfere w in
  (match lv_current n w with Some l => Ok l | None => Err KNotFound end, w).

Definition lv_Create (n : string) (l : Lease) (w : lease_server) :
    result kube_error Lease * lease_server :=
  let w := lv_interfere w in
  match lv_current n w with
  | Some _ => (Err KAlreadyExists, w)
  | None => (Ok l, lv_write n (Some l) w)
  end.

Definition lv_Update (n : string) (l : Lease) (w : lease_server) :
    result kube_error Lease * lease_server :=
  let w := lv_interfere w in
  match lv_current n w with
  | Some l0 => if l_ResourceVersion l0 =? l_ResourceVersion l then (Ok l, lv_write n (Some l) w)
               else (Err KConflict, w)
  | None => (Err KNotFound, w)
  end.

Definition lv_Delete (n : string) (w : lease_server) : option kube_error * lease_server :=
  let w := lv_interfere w in
  match lv_current n w with
  | Some _ => (None, lv_write n None w)
  | None => (Some KNotFound, w)
  end.

Definition lv_seen (w : lease_server) (n : string) (l : Lease) : Prop :=
  exists i l0, lv_states n w !! i = Some (Some l0) /\ l = at_version i l0.

Lemma lv_push_states n l w m :
  lv_states m (lv_push n l w) =
  if decide (n = m) then lv_states n w ++ [wire <$> l] else lv_states m w.
Proof.
  unfold lv_push, lv_states; simpl. case_decide as E; [subst; by rewrite lookup_insert_eq|].
  by rewrite lookup_insert_ne.
Qed.

Lemma lv_push_seen n l w m x : lv_seen w m x -> lv_seen (lv_push n l w) m x.
Proof.
  intros (i & l0 & Hi & ->). exists i, l0. split; [|done]. rewrite lv_push_states.
  case_decide; [subst|done]. by apply lookup_app_l_Some.
Qed.

Lemma lv_interfere_seen w m x : lv_seen w m x -> lv_seen (lv_interfere w) m x.
Proof.
  unfold lv_interfere. destruct (lv_pending w) as [|[[n l]|] p]; [done| |done].
  intros Hs. by apply lv_push_seen.
Qed.

Lemma lv_interfere_log w : lv_log (lv_interfere w) = lv_log w.
Proof. unfold lv_interfere. by destruct (lv_pending w) as [|[[]|] ]. Qed.

Lemma lv_current_seen n w l : lv_current n w = Some l -> lv_seen w n l.
Proof.
  unfold lv_current, lv_seen. destruct (list.last (lv_states n w)) as [[l0|]|] eqn:El; try done.
  intros [= <-]. apply last_Some in El as [h Hh]. rewrite Hh, length_app. simpl.
  exists (length h), l0. rewrite Nat.add_sub. split; [|done]. by apply list_lookup_middle.
Qed.

Lemma lv_write_current n l w : lv_current n (lv_write n (Some l) w) =
  Some (at_version (length (lv_states n w)) (wire l)).
Proof.
  unfold lv_write, lv_current. change (lv_states n (mkLeaseServer (lv_history (lv_push n (Some l) w))
    (lv_pending (lv_push n (Some l) w)) _)) with (lv_states n (lv_push n (Some l) w)).
  rewrite lv_push_states, decide_True, last_snoc, length_app by done. simpl. by rewrite Nat.add_sub.
Qed.

Lemma lv_write_log n l w :
  lv_log (lv_write n (Some l) w) = lv_log w ++
    [mkWrite n (lv_current n w) (Some (at_version (length (lv_states n w)) (wire l)))].
Proof. rewrite <- lv_write_current. reflexivity. Qed.

Lemma lv_delete_log n w :
  lv_log (lv_write n None w) = lv_log w ++ [mkWrite n (lv_current n w) None].
Proof.
  unfold lv_write. simpl. do 2 f_equal. f_equal. unfold lv_current at 1.
  by rewrite lv_push_states, decide_True, last_snoc by done.
Qed.

Lemma wire_same_spec i l : same_spec l (at_version i (wire l)).
Proof. done. Qed.

#[export] Program Instance server_leases : LeaseClient kube_error lease_server := {
  ls_Get := lv_Get; ls_Create := lv_Create; ls_Update := lv_Update; ls_Delete := lv_Delete;
  ls_log := lv_log; ls_seen := lv_seen
}.
Next Obligation. intros n w. apply lv_interfere_log. Qed.
Next Obligation.
  intros n w l w'. unfold lv_Get. destruct (lv_current n (lv_interfere w)) eqn:Ec; [|done].
  intros [= -> <-]. by apply lv_current_seen.
Qed.
Next Obligation.
  intros n l w l' w'. unfold lv_Create. destruct (lv_current n (lv_interfere w)) eqn:Ec; [done|].
  intros [= _ <-]. eexists. rewrite lv_write_log, Ec, lv_interfere_log.
  split; [done|apply wire_same_spec].
Qed.
Next Obligation.
  intros n l w e w'. unfold lv_Create. destruct (lv_current n (lv_interfere w)); [|done].
  intros [= _ <-]. apply lv_interfere_log.
Qed.
Next Obligation.
  intros n l w l' w'. unfold lv_Update.
  destruct (lv_current n (lv_interfere w)) as [l0|] eqn:Ec; [|done].
  destruct (Z.eqb_spec (l_ResourceVersion l0) (l_ResourceVersion l)); [|done].
  intros [= _ <-]. eexists l0, _. rewrite lv_write_log, Ec, lv_interfere_log.
  split_and!; [done|apply wire_same_spec| |done]. apply lv_current_seen in Ec. by apply lv_push_seen.
Qed.
Next Obligation.
  intros n l w e w'. unfold lv_Update. destruct (lv_current n (lv_interfere w)); simpl.
  - destruct (_ =? _); [done|]. intros [= _ <-]. apply lv_interfere_log.
  - intros [= _ <-]. apply lv_interfere_log.
Qed.
Next Obligation.
  intros n w w'. unfold lv_Delete. destruct (lv_current n (lv_interfere w)) as [l0|] eqn:Ec; [|done].
  intros [= <-]. exists l0. by rewrite lv_delete_log, Ec, lv_interfere_log.
Qed.
Next Obligation.
  intros n w e w'. unfold lv_Delete. destruct (lv_current n (lv_interfere w)); [done|].
  intros [= _ <-]. apply lv_interfere_log.
Qed.
Next Obligation.
  intros n l w m l' Hs. unfold lv_Update. apply lv_interfere_seen in Hs.
  destruct (lv_current n (lv_interfere w)); simpl; [|done]. destruct (_ =? _); [|done].
  by apply lv_push_seen.
Qed.
Next Obligation.
  intros w n l l' (i & l0 & Hi & ->) (j & l1 & Hj & ->). simpl. intros E%Nat2Z.inj. subst.
  congruence.
Qed.

(** ** Witnesses *)

Definition ex_hash (_ : string) : string := "0123abcd".
Definition ex_lm : LeaseManager := NewLeaseManager (120 * Second) "replica-1".
Definition ex_leases : lease_server := mkLeaseServer ∅ [] [].
Definition ex_key : string := MakePoolKey "shared".

Lemma lease_without_renew_time_blocks_witness :
  let n := makeLeaseNameFromKey ex_hash ex_key LeaseKeyTypePool in
  let w := lv_push n (Some (mkLease (Some "x") None None None "pool" "" 0)) ex_leases in
  (AcquireLease ex_hash ex_lm Hour ex_key LeaseKeyTypePool w).1 = Ok (mkLeaseResult false Hour "x").
Proof.
  intros n w.
  rewrite (lease_without_renew_time_blocks ex_hash ex_lm Hour ex_key LeaseKeyTypePool w
    (at_version 0 (mkLease (Some "x") None None None "pool" "" 0)) w).
  - reflexivity.
  - vm_compute. reflexivity.
  - reflexivity.
Defined.

(** Two acquisitions of one lease, the second after the first has expired. *)
Definition ex_acquisition (now : Time) (holder : string) (pre : option Lease) : acquisition :=
  mkAcq now holder (mkWrite "l" pre
    (Some (mkLease (Some holder) (Some 120) (Some now) (Some (micro now)) "pool" "k" 0))).


Lemma lease_name_valid_witness :
  (String.length (makeLeaseNameFromKey ex_hash ex_key LeaseKeyTypePool) <= MaxLeaseNameLength)%nat.
Proof.
  apply (lease_name_valid ex_hash ex_key LeaseKeyTypePool); [|right; left].
  intros k. split; reflexivity.
Defined.

(** A release can remove a lease another replica has taken: the holder is
    checked on the object read, and the deletion that follows has no
    precondition on it. *)
Lemma release_race :
  let n := makeLeaseNameFromKey ex_hash ex_key LeaseKeyTypePool in
  let mine := mkLease (Some "replica-1") (Some 120) (Some 0) (Some 0) "pool" ex_key 0 in
  let theirs := mkLease (Some "replica-2") (Some 120) (Some Hour) (Some Hour) "pool" ex_key 0 in
  let w := lv_push n (Some mine) (mkLeaseServer ∅ [None; Some (n, Some theirs)] []) in
  match ReleaseLease ex_hash ex_lm ex_key LeaseKeyTypePool w with
  | (None, w') => (l_HolderIdentity <$> (list.last (lv_log w') ≫= lw_pre)) = Some (Some "replica-2") /\
                  lv_current n w' = None
  | _ => False
  end.
Proof. vm_compute. done. Qed.

Lemma acquire_never_steals_witness :
  match AcquireLease ex_hash ex_lm Hour ex_key LeaseKeyTypePool ex_leases with
  | (Ok r, w') => lr_Acquired r = true /\ exists x, lv_log w' = [x] /\ takes Hour "replica-1" x
  | _ => False
  end.
Proof.
  pose proof (acquire_never_steals ex_hash ex_lm Hour ex_key LeaseKeyTypePool ex_leases) as Ha.
  assert (Hr : exists r w', AcquireLease ex_hash ex_lm Hour ex_key LeaseKeyTypePool ex_leases = (Ok r, w') /\
            lr_Acquired r = true) by (eexists _, _; split; vm_compute; reflexivity).
  destruct Hr as (r & w' & E & Hacq). rewrite E in Ha |- *. rewrite Hacq in Ha.
  split; [exact Hacq|]. destruct Ha as (x & Hl & _ & Ht). exists x. split; [exact Hl|exact Ht].
Defined.
