(* ===== verification/ApiAuth.v ===== *)
(** * Entry checks of the API server ([pkg/api-server/middleware.go],
    [validation.go], [server.go])

    Bearer authentication and authorisation, the path parser and the
    validation of names, sizes and labels. *)

From S2P Require Import Prelude GoStrings XTrinodeTypes.

(** ** Actions and principals *)

Inductive apiAction :=
| apiActionRuntimeRead
| apiActionRuntimeCreate
| apiActionRuntimeDelete
| apiActionRuntimeResume
| apiActionRuntimeSuspend.

#[export] Instance apiAction_eq_dec : EqDecision apiAction.
Proof. solve_decision. Defined.

Definition action_string (a : apiAction) : string :=
  match a with
  | apiActionRuntimeRead => "runtimes:read"
  | apiActionRuntimeCreate => "runtimes:create"
  | apiActionRuntimeDelete => "runtimes:delete"
  | apiActionRuntimeResume => "runtimes:resume"
  | apiActionRuntimeSuspend => "runtimes:suspend"
  end.

Record bearerAuthConfig := mkBearerAuth {
  AuthEnabled : bool;
  AdminToken : string;
  ResumeOnlyToken : string
}.

Record authPrincipal := mkPrincipal {
  pr_name : string;
  pr_allActions : bool;
  pr_actions : list apiAction
}.

Definition adminPrincipal : authPrincipal := mkPrincipal "admin" true [].
Definition resumeOnlyPrincipal : authPrincipal := mkPrincipal "resume" false [apiActionRuntimeResume].

Definition bearerPrefix : string := "Bearer ".

Definition bearerTokenMatches (headerValue expectedToken : string) : bool :=
  if negb (HasPrefix headerValue bearerPrefix) then false else
  let actualToken := TrimSpace (str_drop (String.length bearerPrefix) headerValue) in
  if (actualToken ≡? "") || negb (Nat.eqb (String.length actualToken) (String.length expectedToken))
  then false
  else actualToken ≡? expectedToken.

Definition authenticateBearerToken (headerValue : string) (cfg : bearerAuthConfig) :
    option authPrincipal :=
  if negb (AdminToken cfg ≡? "") && negb (ResumeOnlyToken cfg ≡? "") &&
     (AdminToken cfg ≡? ResumeOnlyToken cfg) then None else
  if negb (AdminToken cfg ≡? "") && bearerTokenMatches headerValue (AdminToken cfg)
  then Some adminPrincipal else
  if negb (ResumeOnlyToken cfg ≡? "") && bearerTokenMatches headerValue (ResumeOnlyToken cfg)
  then Some resumeOnlyPrincipal else
  None.

(** What the middleware hands to a handler: the request is refused, or passed
    on with the principal stored in its context. *)
Inductive auth_outcome := Unauthorized | Passed (principal : option authPrincipal).

Definition withBearerAuth (cfg : bearerAuthConfig) (authorization : string) : auth_outcome :=
  if negb (AuthEnabled cfg) then Passed None else
  match authenticateBearerToken authorization cfg with
  | None => Unauthorized
  | Some principal => Passed (Some principal)
  end.

Inductive decision := Allow | Deny401 | Deny403 (action : apiAction).

Definition authorize (cfg : bearerAuthConfig) (principal : option authPrincipal) (action : apiAction) :
    decision :=
  if negb (AuthEnabled cfg) then Allow else
  match principal with
  | None => Deny401
  | Some principal =>
      if pr_allActions principal then Allow else
      if existsb (fun a => a ≡? action) (pr_actions principal) then Allow else
      Deny403 action
  end.

(** ** Names, sizes and labels *)

Definition is_lower_alnum (c : ascii) : bool := byte_in 97 122 c || byte_in 48 57 c.
Definition is_alnum (c : ascii) : bool := is_lower_alnum c || byte_in 65 90 c.
Definition is_byte (b c : ascii) : bool := c ≡? b.

Fixpoint last_byte (c : ascii) (s : string) : ascii :=
  match s with EmptyString => c | String d s => last_byte d s end.

(** [^edge(inner*edge)?$] where [edge] implies [inner]. *)
Definition match_label (edge inner : ascii -> bool) (s : string) : bool :=
  match s with
  | EmptyString => false
  | String c t => edge c && all_bytes inner t && edge (last_byte c t)
  end.

Definition k8sNameRegex : string -> bool :=
  match_label is_lower_alnum (fun c => is_lower_alnum c || is_byte "-" c).

Inductive name_error := NameEmpty | NameTooLong | NameMalformed.

Definition validateK8sName (name : string) : option name_error :=
  if name ≡? "" then Some NameEmpty else
  if (253 <? String.length name)%nat then Some NameTooLong else
  if negb (k8sNameRegex name) then Some NameMalformed else None.

Definition validateNamespace : string -> option name_error := validateK8sName.

Definition ValidSizes : list string := ["xs"; "s"; "m"; "l"; "xl"].
Definition validateSize (size : string) : bool := existsb (fun s => s ≡? size) ValidSizes.

(** [strings.Split(s, sep)] *)
Fixpoint Split (sep : ascii) (s : string) : list string :=
  match s with
  | EmptyString => [""]
  | String c s =>
      if c ≡? sep then "" :: Split sep s
      else match Split sep s with
           | part :: parts => String c part :: parts
           | [] => [String c ""]
           end
  end.

Definition label_inner (c : ascii) : bool :=
  is_alnum c || is_byte "-" c || is_byte "_" c || is_byte "." c.

Definition k8sLabelKeyRegex (key : string) : bool :=
  match Split "/" key with
  | [name] => match_label is_alnum label_inner name
  | [prefix; name] =>
      forallb k8sNameRegex (Split "." prefix) && match_label is_alnum label_inner name
  | _ => false
  end.

Definition k8sLabelValueRegex (value : string) : bool :=
  (value ≡? "") || match_label is_alnum label_inner value.

Inductive label_error :=
| LabelKeyTooLong (key : string)
| LabelKeyInvalid (key : string)
| LabelValueTooLong (key : string)
| LabelValueInvalid (value key : string).

(** [labels] in the order in which the map is iterated. *)
Fixpoint validateLabels (labels : list (string * string)) : option label_error :=
  match labels with
  | [] => None
  | (key, value) :: labels =>
      if (253 + 1 + 63 <? String.length key)%nat then Some (LabelKeyTooLong key) else
      if negb (k8sLabelKeyRegex key) then Some (LabelKeyInvalid key) else
      if (63 <? String.length value)%nat then Some (LabelValueTooLong key) else
      if negb (value ≡? "") && negb (k8sLabelValueRegex value) then Some (LabelValueInvalid value key) else
      validateLabels labels
  end.

(** ** Paths *)

(** The components [path.Clean] keeps: empty and dot components vanish and a
    double dot removes the component before it; at the start it stays when the
    path is relative and vanishes when it is rooted.  [acc] is in reverse. *)
Fixpoint clean_segments (rooted : bool) (segs acc : list string) : list string :=
  match segs with
  | [] => rev acc
  | seg :: segs =>
      if (seg ≡? "") || (seg ≡? ".") then clean_segments rooted segs acc else
      if seg ≡? ".." then
        match acc with
        | [] => clean_segments rooted segs (if rooted then [] else [".."])
        | up :: acc' => if up ≡? ".." then clean_segments rooted segs (".." :: acc)
                        else clean_segments rooted segs acc'
        end
      else clean_segments rooted segs (seg :: acc)
  end.

Definition hex_value (c : ascii) : option N :=
  let n := N_of_ascii c in
  if byte_in 48 57 c then Some (n - 48)%N else
  if byte_in 97 102 c then Some (n - 87)%N else
  if byte_in 65 70 c then Some (n - 55)%N else None.

(** [url.PathUnescape] *)
Fixpoint PathUnescape (s : string) : option string :=
  match s with
  | EmptyString => Some ""
  | String "%" (String a (String b s)) =>
      match hex_value a, hex_value b, PathUnescape s with
      | Some x, Some y, Some t => Some (String (ascii_of_N (16 * x + y)) t)
      | _, _, _ => None
      end
  | String "%" _ => None
  | String c s => String c <$> PathUnescape s
  end.

Definition parsePath (urlPath : string) : list string :=
  let rooted := HasPrefix urlPath "/" in
  map (fun part => default part (PathUnescape part))
    (clean_segments rooted (Split "/" urlPath) []).

(** ** Who may do what *)

(** The composition of the middleware and the check in front of a handler. *)
Definition granted (cfg : bearerAuthConfig) (authorization : string) (action : apiAction) : bool :=
  match withBearerAuth cfg authorization with
  | Unauthorized => false
  | Passed principal => match authorize cfg principal action with Allow => true | _ => false end
  end.

(** The token a request presents, without surrounding blanks. *)
Definition presents (authorization token : string) : Prop :=
  token <> "" /\ exists rest, authorization = bearerPrefix +:+ rest /\ TrimSpace rest = token.

Lemma HasPrefix_split s p : HasPrefix s p = true <-> exists rest, s = p +:+ rest.
Proof.
  unfold HasPrefix. revert s. induction p as [|c p IH]; intros s.
  - split; [intros _; by exists s|]. by destruct s.
  - destruct s as [|d s]; simpl.
    + split; [done|by intros [? [=]]].
    + destruct (ascii_dec c d) as [->|Hne].
      * rewrite IH. split; intros [rest H]; exists rest; [by rewrite H|by injection H].
      * split; [done|]. intros [rest [=]]. congruence.
Qed.

Lemma bearerTokenMatches_iff h token : bearerTokenMatches h token = true <-> presents h token.
Proof.
  unfold bearerTokenMatches, presents. destruct (HasPrefix h bearerPrefix) eqn:Ep; cbn [negb].
  - apply HasPrefix_split in Ep as [rest ->]. 
    change (str_drop (String.length bearerPrefix) (bearerPrefix +:+ rest)) with rest. cbv zeta.
    destruct (bool_decide_reflect (TrimSpace rest = "")) as [He|He]; simpl.
    + split; [done|]. intros (Ht & rest' & Hr & Hs). exfalso. apply Ht. rewrite <- Hs.
      apply (inj (String.append bearerPrefix)) in Hr as <-. done.
    + destruct (Nat.eqb_spec (String.length (TrimSpace rest)) (String.length token)) as [Hl|Hl]; simpl.
      * rewrite bool_decide_eq_true. split.
        -- intros <-. split; [done|eauto].
        -- intros (_ & rest' & Hr & Hs). by apply (inj (String.append bearerPrefix)) in Hr as <-.
      * split; [done|]. intros (_ & rest' & Hr & Hs). apply (inj (String.append bearerPrefix)) in Hr as <-.
        congruence.
  - split; [done|]. intros (_ & rest & -> & _).
    assert (HasPrefix (bearerPrefix +:+ rest) bearerPrefix = true) by (apply HasPrefix_split; eauto).
    congruence.
Qed.

Lemma granted_iff cfg h action :
  granted cfg h action = true <->
  AuthEnabled cfg = false \/
  (AuthEnabled cfg = true /\ (AdminToken cfg <> ResumeOnlyToken cfg) /\
   (presents h (AdminToken cfg) \/
    (presents h (ResumeOnlyToken cfg) /\ action = apiActionRuntimeResume))).
Proof.
  unfold granted, withBearerAuth, authorize.
  destruct (AuthEnabled cfg); simpl; [|naive_solver]. unfold authenticateBearerToken.
  rewrite <- !bearerTokenMatches_iff.
  assert (Hemp : bearerTokenMatches h "" = false).
  { destruct (bearerTokenMatches h "") eqn:E; [|done]. apply bearerTokenMatches_iff in E as [[] _]. done. }
  destruct (bool_decide_reflect (AdminToken cfg = "")) as [Ha|Ha];
    destruct (bool_decide_reflect (ResumeOnlyToken cfg = "")) as [Hr|Hr];
    destruct (bool_decide_reflect (AdminToken cfg = ResumeOnlyToken cfg)) as [He|He]; simpl;
    rewrite ?Ha, ?Hr, ?Hemp; simpl; try (split; [done|intros [?|(_ & ? & _)]; congruence]);
    destruct (bearerTokenMatches h (AdminToken cfg)) eqn:Ea;
    destruct (bearerTokenMatches h (ResumeOnlyToken cfg)) eqn:Er; simpl;
    try (destruct action; simpl); split; intros Hx; try done; naive_solver congruence.
Qed.

(** With authentication on, a request is granted an action exactly when
    it presents the configured admin token, or the configured resume token and
    the action is to resume; and nothing at all is granted when the two tokens
    are configured to be the same.  With authentication off everything is. *)
Theorem token_policy cfg h action :
  granted cfg h action = true <->
  AuthEnabled cfg = false \/
  (AuthEnabled cfg = true /\ (AdminToken cfg <> ResumeOnlyToken cfg) /\
   (presents h (AdminToken cfg) \/
    (presents h (ResumeOnlyToken cfg) /\ action = apiActionRuntimeResume))).
Proof. apply granted_iff. Qed.
