(* ===== verification/GatewayAuth.v ===== *)
(** * Authentication at the gateway: API keys
    ([pkg/gateway/auth/auth.go], [config.go], [apikey.go])

    The middleware in front of the gateway, and the authenticator that compares
    the key of a request with those of a Kubernetes Secret it polls. *)

From S2P Require Import Prelude GoStrings XTrinodeTypes ApiAuth.

(** ** Requests and results *)

(** What the authenticators read of a request. *)
Record auth_request := mkAuthRequest { ar_Authorization : string; ar_APIKey : string }.

Record Result := mkResult {
  Authenticated : bool;
  KeyID : string;
  User : string;
  Metadata : gmap string string
}.

Definition refused : Result := mkResult false "" "" ∅.

(** What the middleware makes of a request: it goes on with the result in its
    context, if there is one, or it is answered. *)
Inductive middleware_answer :=
| Next (result : option Result)
| Unauthorized (challenge : string)
| AuthenticationError.

(** [authenticate] is [None] when authentication is off; its result can be nil. *)
Definition Middleware {E} (authenticate : option (result E (option Result))) (r : auth_request) : middleware_answer :=
  match authenticate with
  | None => Next None
  | Some (Err _) => AuthenticationError
  | Some (Ok (Some res)) =>
      if Authenticated res then Next (Some res) else
      Unauthorized (if HasPrefix (ToLower (TrimSpace (ar_Authorization r))) "bearer " then "Bearer" else "X-API-Key")
  | Some (Ok None) =>
      Unauthorized (if HasPrefix (ToLower (TrimSpace (ar_Authorization r))) "bearer " then "Bearer" else "X-API-Key")
  end.

(** ** API keys *)

Definition MinAPIKeyLength : nat := 16.

Record APIKeyConfig := mkAPIKeyConfig { akc_SecretName : string; akc_SecretKey : string; akc_Namespace : string }.

Record APIKeyAuthenticator := mkAPIKeyAuthenticator {
  ak_config : APIKeyConfig;
  validKeys : gmap string string;
  lastReload : option Time;
  lastResourceVersion : string
}.

Definition NewAPIKeyAuthenticator (config : option APIKeyConfig) : result string APIKeyAuthenticator :=
  match config with
  | None => Err "API key config is required"
  | Some config =>
      if akc_SecretName config ≡? "" then Err "secret name is required" else
      if akc_SecretKey config ≡? "" then Err "secret key is required" else
      if akc_Namespace config ≡? "" then Err "namespace is required" else
      Ok (mkAPIKeyAuthenticator config ∅ None "")
  end.

(** [subtle.ConstantTimeCompare] *)
Definition ConstantTimeCompare (a b : string) : bool := a ≡? b.

Definition compare_key (apiKey : string) (acc : string * bool) (candidate : string * string) : string * bool :=
  if ConstantTimeCompare apiKey candidate.1 then (candidate.2, true) else acc.

Definition Authenticate (a : APIKeyAuthenticator) (r : auth_request) : Result :=
  let apiKey := ar_APIKey r in
  if apiKey ≡? "" then refused else
  let apiKey := TrimSpace apiKey in
  if (String.length apiKey <? MinAPIKeyLength)%nat then refused else
  let '(keyID, matched) := fold_left (compare_key apiKey) (map_to_list (validKeys a)) ("", false) in
  if negb matched then refused else mkResult true keyID keyID {[ "auth_type" := "api-key" ]}.

(** *** The keys of a Secret *)

Definition is_quote (c : ascii) : bool := (c ≡? "034"%char) || (c ≡? "'"%char).
Definition line_break : ascii := "010"%char.

Definition add_key (keyID : string) (keys : gmap string string) (key : string) : gmap string string :=
  let key := TrimSpace key in
  if negb (key ≡? "") && (MinAPIKeyLength <=? String.length key)%nat then <[key := keyID]> keys else keys.

Definition add_line (keys : gmap string string) (line : string) : gmap string string :=
  let line := TrimSpace line in
  if (line ≡? "") || HasPrefix line "#" then keys else
  match IndexByte ":" line with
  | None => keys
  | Some colonIdx =>
      let keyID := TrimSpace (str_take colonIdx line) in
      let keyValue := TrimSpace (str_drop (S colonIdx) line) in
      if (keyID ≡? "") || (keyValue ≡? "") then keys else
      let keyValue := TrimFunc is_quote keyValue in
      if (keyID ≡? "") || (keyValue ≡? "") then keys else
      fold_left (add_key keyID) (Split "," keyValue) keys
  end.

Definition parseAPIKeys (data : string) : gmap string string :=
  if data ≡? "" then ∅ else fold_left add_line (Split line_break data) ∅.

(** *** Reloading *)

(** A Secret as it was read. *)
Record secret := mkSecret { sec_ResourceVersion : string; sec_Data : gmap string string }.

Section reload.
Context {E : Type}.

(** Errors of [reloadSecret]: the Secret cannot be read, or lacks the key. *)
Inductive reload_error := SecretUnreadable (e : E) | SecretKeyMissing.

Definition reloadSecret (fetched : result E secret) (now : Time) (a : APIKeyAuthenticator) :
    option reload_error * APIKeyAuthenticator :=
  match fetched with
  | Err e => (Some (SecretUnreadable e), a)
  | Ok s =>
      if negb (lastResourceVersion a ≡? "") && (sec_ResourceVersion s ≡? lastResourceVersion a) then (None, a) else
      match sec_Data s !! akc_SecretKey (ak_config a) with
      | None => (Some SecretKeyMissing, a)
      | Some keysData =>
          (None, mkAPIKeyAuthenticator (ak_config a) (parseAPIKeys keysData) (Some now) (sec_ResourceVersion s))
      end
  end.

(** [Start] and the watch loop: the Secret is read at the start and on every
    tick; an error of a tick is only logged. *)
Definition watch (polls : list (result E secret * Time)) (a : APIKeyAuthenticator) : APIKeyAuthenticator :=
  fold_left (fun a '(fetched, now) => (reloadSecret fetched now a).2) polls a.

(** ** What the keys amount to *)

Lemma compare_keys_lookup apiKey (keys : gmap string string) :
  fold_left (compare_key apiKey) (map_to_list keys) ("", false) =
  match keys !! apiKey with Some id => (id, true) | None => ("", false) end.
Proof.
  assert (forall (l : list (string * string)) acc, NoDup l.*1 ->
    fold_left (compare_key apiKey) l acc =
    match (list_to_map l : gmap string string) !! apiKey with Some id => (id, true) | None => acc end) as Hl.
  { induction l as [|[k v] l IH]; intros acc Hnd; [done|]. simpl in Hnd. apply list.NoDup_cons in Hnd as [Hk Hnd].
    simpl. rewrite IH by done. unfold compare_key, ConstantTimeCompare. simpl.
    destruct (decide (apiKey = k)) as [->|Hne].
    - rewrite lookup_insert_eq, bool_decide_eq_true_2 by done. by rewrite not_elem_of_list_to_map_1.
    - rewrite lookup_insert_ne, bool_decide_eq_false_2 by done. done. }
  rewrite Hl by apply NoDup_fst_map_to_list. by rewrite list_to_map_to_list.
Qed.

(** Keys as they are stored: trimmed and long enough. *)
Definition proper_keys (keys : gmap string string) : Prop :=
  forall key id, keys !! key = Some id -> TrimSpace key = key /\ (MinAPIKeyLength <= String.length key)%nat.

Lemma add_key_proper keyID keys key : proper_keys keys -> proper_keys (add_key keyID keys key).
Proof.
  unfold add_key. intros Hk. destruct (negb _ && _) eqn:Hc; [|done].
  apply andb_true_iff in Hc as [_ Hlen%Nat.leb_le]. intros k id [[<- _]|[_ Hin]]%lookup_insert_Some; [|by eapply Hk].
  split; [apply TrimFunc_idemp|done].
Qed.

Lemma add_line_proper keys line : proper_keys keys -> proper_keys (add_line keys line).
Proof.
  intros Hk. unfold add_line. repeat case_match; try done.
  generalize (Split "," (TrimFunc is_quote (TrimSpace (str_drop (S n) (TrimSpace line))))).
  intros l. revert keys Hk. induction l as [|k l IH]; intros keys Hk; simpl; [done|]. apply IH. by apply add_key_proper.
Qed.

Lemma parseAPIKeys_proper data : proper_keys (parseAPIKeys data).
Proof.
  unfold parseAPIKeys. case_bool_decide; [by intros k id Hk; rewrite lookup_empty in Hk|].
  assert (proper_keys ∅) as H0 by (intros k id Hk; by rewrite lookup_empty in Hk). revert H0.
  generalize (∅ : gmap string string). induction (Split line_break data) as [|l ls IH]; intros keys Hk; simpl; [done|].
  apply IH. by apply add_line_proper.
Qed.

Definition sound_authenticator (a : APIKeyAuthenticator) : Prop := proper_keys (validKeys a).

Lemma reload_sound fetched now a : sound_authenticator a -> sound_authenticator (reloadSecret fetched now a).2.
Proof.
  intros Ha. unfold reloadSecret. destruct fetched as [s|e]; [|done]. destruct (_ && _); [done|].
  destruct (sec_Data s !! _); [|done]. apply parseAPIKeys_proper.
Qed.

Lemma watch_sound polls a : sound_authenticator a -> sound_authenticator (watch polls a).
Proof.
  unfold watch. revert a. induction polls as [|[f now] polls IH]; intros a Ha; simpl; [done|]. apply IH. by apply reload_sound.
Qed.

(** A request is accepted exactly with a stored key. *)
Lemma Authenticate_lookup a r : sound_authenticator a ->
  Authenticate a r =
  match validKeys a !! TrimSpace (ar_APIKey r) with
  | Some id => mkResult true id id {[ "auth_type" := "api-key" ]}
  | None => refused
  end.
Proof.
  intros Ha. unfold Authenticate. case_bool_decide as He.
  { rewrite He. destruct (validKeys a !! _) eqn:Hk; [|done]. apply Ha in Hk as [_ Hlen]. vm_compute in Hlen. lia. }
  destruct (Nat.ltb_spec (String.length (TrimSpace (ar_APIKey r))) MinAPIKeyLength).
  { destruct (validKeys a !! _) eqn:Hk; [|done]. apply Ha in Hk as [_ Hlen]. lia. }
  rewrite compare_keys_lookup. by destruct (validKeys a !! _).
Qed.

(** The keys are those of a Secret that was read, and its version is known. *)
Definition loaded_from (cfg : APIKeyConfig) (polls : list (result E secret * Time)) (a : APIKeyAuthenticator) : Prop :=
  ak_config a = cfg /\
  (lastResourceVersion a = "" \/
   exists s now text, (Ok s, now) ∈ polls /\ sec_ResourceVersion s = lastResourceVersion a /\
     sec_Data s !! akc_SecretKey cfg = Some text /\ validKeys a = parseAPIKeys text).

Lemma loaded_step cfg polls a fetched now :
  loaded_from cfg polls a -> loaded_from cfg (polls ++ [(fetched, now)]) (reloadSecret fetched now a).2.
Proof.
  intros [Hc Hl].
  assert (loaded_from cfg (polls ++ [(fetched, now)]) a) as Ha.
  { split; [done|]. destruct Hl as [Hl|(s & t & text & Hin & Hl)]; [by left|right]. exists s, t, text. set_solver. }
  unfold reloadSecret. destruct fetched as [s|e]; [|done]. destruct (_ && _); [done|].
  destruct (sec_Data s !! _) as [text|] eqn:Hs; [|done]. split; [done|]. right. exists s, now, text. rewrite <- Hc. set_solver.
Qed.

Lemma watch_loaded cfg polls a0 : loaded_from cfg [] a0 -> loaded_from cfg polls (watch polls a0).
Proof.
  intros H0. unfold watch. induction polls as [|[f now] polls IH] using rev_ind; [done|].
  rewrite fold_left_app. by apply loaded_step.
Qed.

(** C17: After the Secret was read, a request passes the middleware exactly with one
    of its keys, and as the owner of that key: a key that was added or removed
    counts from the next poll on.  (The API server changes the version of a Secret
    with its content.) *)
Theorem api_keys_current cfg a0 polls s now text r res :
  NewAPIKeyAuthenticator (Some cfg) = Ok a0 ->
  (forall s1 t1 s2 t2, (Ok s1, t1) ∈ polls ++ [(Ok s, now)] -> (Ok s2, t2) ∈ polls ++ [(Ok s, now)] ->
     sec_ResourceVersion s1 = sec_ResourceVersion s2 -> sec_Data s1 = sec_Data s2) ->
  sec_Data s !! akc_SecretKey cfg = Some text ->
  let a := watch (polls ++ [(Ok s, now)]) a0 in
  Middleware (E := E) (Some (Ok (Some (Authenticate a r)))) r = Next (Some res) <->
  exists id, parseAPIKeys text !! TrimSpace (ar_APIKey r) = Some id /\
    res = mkResult true id id {[ "auth_type" := "api-key" ]}.
Proof.
  intros Hnew Hver Htext a.
  assert (a0 = mkAPIKeyAuthenticator cfg ∅ None "") as ->.
  { unfold NewAPIKeyAuthenticator in Hnew. repeat case_match; by simplify_eq. }
  assert (sound_authenticator a) as Hs.
  { apply watch_sound. intros k id Hk. simpl in Hk. by rewrite lookup_empty in Hk. }
  assert (validKeys a = parseAPIKeys text) as Hk.
  { subst a. unfold watch. rewrite fold_left_app. simpl.
    assert (loaded_from cfg polls (watch polls (mkAPIKeyAuthenticator cfg ∅ None ""))) as [Hc Hl] by (by apply watch_loaded; split; [|left]).
    unfold watch in Hc, Hl. set (b := fold_left _ polls _) in *. rewrite Hc, Htext.
    destruct (bool_decide_reflect (lastResourceVersion b = "")) as [He|He]; simpl; [done|].
    destruct Hl as [Hl|(s' & t' & text' & Hin & Hv & Ht & Hb)]; [done|].
    case_bool_decide as Heq; simpl; [|done]. rewrite Hb. f_equal.
    assert (sec_Data s' = sec_Data s) as Hd by (apply (Hver s' t' s now); [set_solver|set_solver|congruence]).
    rewrite <- Hd in Htext. congruence. }
  rewrite Authenticate_lookup, Hk by done. destruct (parseAPIKeys text !! _) as [id|]; simpl; naive_solver.
Qed.

(** Deleting the Secret does not withdraw its keys: the authenticator keeps what
    it read last. *)
Theorem deleted_secret_keeps_keys a polls :
  Forall (fun p => exists e, p.1 = Err e) polls -> watch polls a = a.
Proof.
  intros Hp. unfold watch. induction Hp as [|[f now] polls [e He] Hp IH]; simpl in *; [done|]. by subst.
Qed.
End reload.

(** A Secret with two keys of one service, and one of another. *)
Definition demo_secret : secret :=
  mkSecret "7" {[ "keys" := "# rotation" +:+ String line_break "svc-1: 0123456789abcdef, fedcba9876543210" +:+ String line_break "svc-2:aaaaaaaaaaaaaaaaaa" ]}.

Lemma api_keys_current_witness :
  let cfg := mkAPIKeyConfig "gateway-keys" "keys" "gw" in
  let a := watch (E := unit) ([] ++ [(Ok demo_secret, 0)]) (mkAPIKeyAuthenticator cfg ∅ None "") in
  let r := mkAuthRequest "" " fedcba9876543210 " in
  Middleware (E := unit) (Some (Ok (Some (Authenticate a r)))) r =
  Next (Some (mkResult true "svc-1" "svc-1" {[ "auth_type" := "api-key" ]})).
Proof.
  apply (api_keys_current (E := unit) (mkAPIKeyConfig "gateway-keys" "keys" "gw") _ [] demo_secret 0
    (default "" (sec_Data demo_secret !! "keys"))); [reflexivity| |reflexivity|].
  - intros s1 t1 s2 t2 [Hin|[]%not_elem_of_nil]%elem_of_cons [Hin2|[]%not_elem_of_nil]%elem_of_cons _. congruence.
  - exists "svc-1". split; vm_compute; reflexivity.
Defined.
