(* ===== verification/BearerAuth.v ===== *)
(** * Authentication at the gateway: bearer tokens ([pkg/gateway/auth/bearer.go])

    Tokens are JSON Web Tokens signed with RSA.  The public keys come from a JWKS
    document, fetched at the start, on a timer and when a token names an unknown
    key.  The JSON decoder, [url.Parse], SHA-2 and RSA are parameters. *)

From S2P Require Import Prelude GoStrings GoTime GoParse XTrinodeTypes RuntimeShape Status Retry CatalogTypes World Shutdown NodePool ApiAuth GatewayAuth.

(** ** base64.RawURLEncoding *)

Definition base64_value (c : ascii) : option N :=
  let n := N_of_ascii c in
  if byte_in 65 90 c then Some (n - 65)%N else
  if byte_in 97 122 c then Some (n - 71)%N else
  if byte_in 48 57 c then Some (n + 4)%N else
  if c ≡? "-"%char then Some 62%N else
  if c ≡? "_"%char then Some 63%N else None.

(** Line breaks are skipped. *)
Fixpoint base64_values (s : string) : option (list N) :=
  match s with
  | EmptyString => Some []
  | String c s =>
      if (c ≡? "010"%char) || (c ≡? "013"%char) then base64_values s else
      v ← base64_value c; vs ← base64_values s; Some (v :: vs)
  end.

(** Four values make three bytes; the bits left over at the end are ignored. *)
Fixpoint base64_bytes (vs : list N) : option string :=
  match vs with
  | [] => Some EmptyString
  | [a; b] => Some (String (ascii_of_N (a * 4 + b / 16)) EmptyString)
  | [a; b; c] => Some (String (ascii_of_N (a * 4 + b / 16)) (String (ascii_of_N ((b mod 16) * 16 + c / 4)) EmptyString))
  | a :: b :: c :: d :: vs =>
      rest ← base64_bytes vs;
      Some (String (ascii_of_N (a * 4 + b / 16)) (String (ascii_of_N ((b mod 16) * 16 + c / 4))
             (String (ascii_of_N ((c mod 4) * 64 + d)) rest)))
  | _ => None
  end.

Definition DecodeString (s : string) : option string := base64_values s ≫= base64_bytes.

Example base64_forms : DecodeString "aGVsbG8" = Some "hello" /\ DecodeString "aGVsbG8=" = None /\ DecodeString "a" = None.
Proof. vm_compute. done. Qed.

(** [big.Int.SetBytes] *)
Fixpoint SetBytes_from (n : Z) (s : string) : Z :=
  match s with
  | EmptyString => n
  | String c s => SetBytes_from (n * 256 + Z.of_N (N_of_ascii c)) s
  end.
Definition SetBytes : string -> Z := SetBytes_from 0.

(** ** Documents *)

Record BearerTokenConfig := mkBearerConfig {
  bt_Issuer : string;
  bt_Audience : string;
  bt_JWKSUrl : string;
  bt_RefreshInterval : Duration
}.

Record jwkKey := mkJwk { Kty : string; Kid : string; jwk_N : string; jwk_E : string }.
Record jwtHeader := mkHeader { hd_Alg : string; hd_Kid : string }.

(** The claims the code reads; times are seconds. *)
Record jwtClaims := mkClaims {
  cl_Issuer : string;
  cl_Subject : string;
  cl_Audience : list string;
  cl_ExpiresAt : Z;
  cl_NotBefore : Z;
  cl_Email : string;
  cl_PreferredUsername : string
}.

Record rsa_PublicKey := mkRSA { rsa_N : Z; rsa_E : Z }.

Inductive crypto_Hash := SHA256 | SHA384 | SHA512.

(** What [url.Parse] says of a URL. *)
Record URL := mkURL { url_Scheme : string; url_Host : string; url_Hostname : string; url_User : bool }.

Definition defaultJWKSRefreshInterval : Duration := 3600 * Second.
Definition defaultJWTClockSkew : Duration := 60 * Second.
Definition maxOAuthHTTPResponseBytes : Z := 2 * 1024 * 1024.

Record BearerTokenAuthenticator := mkBearer {
  bt_config : BearerTokenConfig;
  bt_keys : gmap string rsa_PublicKey;
  bt_jwksURL : string
}.

(** [io.LimitReader] *)
Definition LimitReader (n : Z) (s : string) : string :=
  if Z.of_nat (String.length s) <=? n then s else str_take (Z.to_nat n) s.

Definition RSAPublicKey (k : jwkKey) : result string rsa_PublicKey :=
  match DecodeString (jwk_N k) with
  | None => Err "decode modulus"
  | Some modulusBytes =>
      match DecodeString (jwk_E k) with
      | None => Err "decode exponent"
      | Some exponentBytes =>
          let exponent := wrap64 (SetBytes exponentBytes) in
          if (exponent <=? 0) || (int64_max <? exponent) then Err ("invalid exponent " +:+ fmt_d exponent) else
          Ok (mkRSA (SetBytes modulusBytes) exponent)
      end
  end.

Definition hashJWTSigningInput (sha : crypto_Hash -> string -> string) (alg signingInput : string) :
    result string (crypto_Hash * string) :=
  if alg ≡? "RS256" then Ok (SHA256, sha SHA256 signingInput) else
  if alg ≡? "RS384" then Ok (SHA384, sha SHA384 signingInput) else
  if alg ≡? "RS512" then Ok (SHA512, sha SHA512 signingInput) else
  Err ("unsupported JWT signing algorithm " +:+ quoted alg).

Definition trim_slashes : string -> string := TrimRightFunc (fun c => c ≡? "/"%char).

(** [time.Unix(sec, 0)], which counts seconds from the year 1. *)
Definition time_Unix (sec : Z) : Time := (wrap64 (sec + 62135596800) - 62135596800) * Second.

Definition validateClaims (cfg : BearerTokenConfig) (claims : jwtClaims) (now : Time) : option string :=
  if negb (bt_Issuer cfg ≡? "") && negb (cl_Issuer claims ≡? trim_slashes (bt_Issuer cfg))
  then Some ("issuer mismatch: got " +:+ quoted (cl_Issuer claims)) else
  if negb (bt_Audience cfg ≡? "") && negb (bool_decide (bt_Audience cfg ∈ cl_Audience claims))
  then Some ("audience " +:+ quoted (bt_Audience cfg) +:+ " not present") else
  if cl_ExpiresAt claims =? 0 then Some "exp claim is required" else
  if time_Unix (cl_ExpiresAt claims) + defaultJWTClockSkew <? now then Some "token is expired" else
  if (0 <? cl_NotBefore claims) && (now + defaultJWTClockSkew <? time_Unix (cl_NotBefore claims))
  then Some "token is not yet valid" else
  if cl_Subject claims ≡? "" then Some "sub claim is required" else None.

(** ** The authenticator *)

Section bearer.
Context {E W : Type} `{!World E W, KubeErrors E, !ErrorKinds E}.
Context (url_Parse : string -> result string URL) (IsLoopback : string -> bool).
Context (parse_discovery : string -> result string string) (parse_jwks : string -> result string (list jwkKey))
  (parse_header : string -> result string jwtHeader) (parse_claims : string -> result string jwtClaims).
Context (sha : crypto_Hash -> string -> string).
(** [rsa.VerifyPKCS1v15] *)
Context (VerifyPKCS1v15 : rsa_PublicKey -> crypto_Hash -> string -> string -> bool).

Definition isLoopbackOAuthHost (host : string) : bool := (ToLower host ≡? "localhost") || IsLoopback host.

Definition validateOAuthHTTPURL (rawURL : string) : option string :=
  match url_Parse rawURL with
  | Err e => Some e
  | Ok parsed =>
      if negb (url_Scheme parsed ≡? "https") && negb (url_Scheme parsed ≡? "http")
      then Some ("unsupported scheme " +:+ quoted (url_Scheme parsed)) else
      if url_Host parsed ≡? "" then Some "host is required" else
      if (url_Scheme parsed ≡? "http") && negb (isLoopbackOAuthHost (url_Hostname parsed))
      then Some "http is allowed only for loopback OAuth endpoints" else
      if url_User parsed then Some "userinfo is not allowed" else None
  end.

Definition NewBearerTokenAuthenticator (cfg : option BearerTokenConfig) : result string BearerTokenAuthenticator :=
  match cfg with
  | None => Err "bearer token config is required"
  | Some cfg =>
      if (bt_Issuer cfg ≡? "") && (bt_JWKSUrl cfg ≡? "") then Err "auth-oauth-issuer or auth-oauth-jwks-url is required" else
      if TrimSpace (bt_Audience cfg) ≡? "" then Err "auth-oauth-audience is required" else
      match (if bt_Issuer cfg ≡? "" then None else validateOAuthHTTPURL (bt_Issuer cfg)) with
      | Some e => Err ("invalid auth-oauth-issuer: " +:+ e)
      | None =>
          match (if bt_JWKSUrl cfg ≡? "" then None else validateOAuthHTTPURL (bt_JWKSUrl cfg)) with
          | Some e => Err ("invalid auth-oauth-jwks-url: " +:+ e)
          | None =>
              let interval := if bt_RefreshInterval cfg <=? 0 then defaultJWKSRefreshInterval else bt_RefreshInterval cfg in
              Ok (mkBearer (mkBearerConfig (bt_Issuer cfg) (bt_Audience cfg) (bt_JWKSUrl cfg) interval) ∅ "")
          end
      end
  end.

(** A document fetched with GET and status 200. *)
Definition fetch (what url : string) : M W (result E string) :=
  resp ← perform (HTTPGet false url "" None);
  mret match resp with
       | Err e => Err (Errorf ("fetch " +:+ what +:+ ": ") e)
       | Ok (status, body) =>
           if negb (status =? 200) then Err (errors_New (what +:+ " returned status " +:+ fmt_d status)) else
           match body with
           | Err e => Err (Errorf ("read " +:+ what +:+ ": ") e)
           | Ok text => Ok (LimitReader maxOAuthHTTPResponseBytes text)
           end
       end.

Definition resolveJWKSURL (a : BearerTokenAuthenticator) : M W (result E string) :=
  let cfg := bt_config a in
  if negb (bt_JWKSUrl cfg ≡? "") then mret (Ok (bt_JWKSUrl cfg)) else
  if negb (bt_jwksURL a ≡? "") then mret (Ok (bt_jwksURL a)) else
  let discoveryURL := trim_slashes (bt_Issuer cfg) +:+ "/.well-known/openid-configuration" in
  match validateOAuthHTTPURL discoveryURL with
  | Some e => mret (Err (errors_New ("invalid OIDC discovery URL: " +:+ e)))
  | None =>
      fetched ← fetch "OIDC discovery" discoveryURL;
      mret match fetched with
           | Err e => Err e
           | Ok body =>
               match parse_discovery body with
               | Err e => Err (errors_New ("parse OIDC discovery: " +:+ e))
               | Ok uri =>
                   if uri ≡? "" then Err (errors_New "OIDC discovery did not include jwks_uri") else
                   match validateOAuthHTTPURL uri with
                   | Some e => Err (errors_New ("invalid discovered JWKS URL: " +:+ e))
                   | None => Ok uri
                   end
               end
           end
  end.

(** The usable keys of a document; a later one replaces an earlier of its name. *)
Definition add_jwk (keys : gmap string rsa_PublicKey) (key : jwkKey) : gmap string rsa_PublicKey :=
  if (Kid key ≡? "") || negb (Kty key ≡? "RSA") then keys else
  match RSAPublicKey key with
  | Err _ => keys
  | Ok publicKey => <[Kid key := publicKey]> keys
  end.

Definition refreshKeys (a : BearerTokenAuthenticator) : M W (option E * BearerTokenAuthenticator) :=
  resolved ← resolveJWKSURL a;
  match resolved with
  | Err e => mret (Some e, a)
  | Ok jwksURL =>
      match validateOAuthHTTPURL jwksURL with
      | Some e => mret (Some (errors_New ("invalid JWKS URL: " +:+ e)), a)
      | None =>
          fetched ← fetch "JWKS" jwksURL;
          mret match fetched with
               | Err e => (Some e, a)
               | Ok body =>
                   match parse_jwks body with
                   | Err e => (Some (errors_New ("parse JWKS: " +:+ e)), a)
                   | Ok doc =>
                       let keys := fold_left add_jwk doc ∅ in
                       if bool_decide (keys = ∅) then (Some (errors_New "JWKS did not contain usable RSA keys"), a)
                       else (None, mkBearer (bt_config a) keys jwksURL)
                   end
               end
      end
  end.

(** The key of a name, after another look at the document if it is unknown. *)
Definition getKey (kid : string) (a : BearerTokenAuthenticator) :
    M W (result E rsa_PublicKey * BearerTokenAuthenticator) :=
  match bt_keys a !! kid with
  | Some key => mret (Ok key, a)
  | None =>
      '(refreshErr, a) ← refreshKeys a;
      mret match refreshErr with
           | Some e => (Err (Errorf "refresh JWKS after unknown kid: " e), a)
           | None =>
               match bt_keys a !! kid with
               | Some key => (Ok key, a)
               | None => (Err (errors_New ("no JWKS key found for kid " +:+ quoted kid)), a)
               end
           end
  end.

(** Header, claims, signature and signed text of a token. *)
Definition parse_token (token : string) : result string (jwtHeader * jwtClaims * string * string) :=
  match Split "." token with
  | [p0; p1; p2] =>
      match DecodeString p0, DecodeString p1, DecodeString p2 with
      | Some headerBytes, Some claimsBytes, Some signature =>
          match parse_header headerBytes with
          | Err e => Err ("parse JWT header: " +:+ e)
          | Ok header =>
              if hd_Kid header ≡? "" then Err "JWT kid is required" else
              match parse_claims claimsBytes with
              | Err e => Err ("parse JWT claims: " +:+ e)
              | Ok claims => Ok (header, claims, signature, p0 +:+ "." +:+ p1)
              end
          end
      | None, _, _ => Err "decode JWT header"
      | _, None, _ => Err "decode JWT claims"
      | _, _, None => Err "decode JWT signature"
      end
  | _ => Err "JWT must have three parts"
  end.

Definition validateJWT (token : string) (a : BearerTokenAuthenticator) :
    M W (result E jwtClaims * BearerTokenAuthenticator) :=
  match parse_token token with
  | Err e => mret (Err (errors_New e), a)
  | Ok (header, claims, signature, signingInput) =>
      now ← perform Now;
      match validateClaims (bt_config a) claims now with
      | Some e => mret (Err (errors_New e), a)
      | None =>
          '(key, a) ← getKey (hd_Kid header) a;
          mret match key with
               | Err e => (Err e, a)
               | Ok key =>
                   match hashJWTSigningInput sha (hd_Alg header) signingInput with
                   | Err e => (Err (errors_New e), a)
                   | Ok (hash, hashed) =>
                       if VerifyPKCS1v15 key hash hashed signature then (Ok claims, a)
                       else (Err (errors_New "verify JWT signature"), a)
                   end
               end
      end
  end.

Definition bearer_Authenticate (r : auth_request) (a : BearerTokenAuthenticator) : M W (Result * BearerTokenAuthenticator) :=
  let authHeader := TrimSpace (ar_Authorization r) in
  if authHeader ≡? "" then mret (refused, a) else
  if negb (HasPrefix (ToLower authHeader) "bearer ") then mret (refused, a) else
  let token := TrimSpace (str_drop 7 authHeader) in
  '(validated, a) ← validateJWT token a;
  mret match validated with
       | Err _ => (refused, a)
       | Ok claims =>
           let user := cl_PreferredUsername claims in
           let user := if user ≡? "" then cl_Email claims else user in
           let user := if user ≡? "" then cl_Subject claims else user in
           (mkResult true (cl_Subject claims) user {[ "auth_type" := "oauth"; "issuer" := cl_Issuer claims ]}, a)
       end.

(** The authenticator at work: its timer, and requests. *)
Inductive bearer_event := Refresh | Request (r : auth_request).

Fixpoint serve_bearer (events : list bearer_event) (a : BearerTokenAuthenticator) :
    M W (list (auth_request * middleware_answer) * BearerTokenAuthenticator) :=
  match events with
  | [] => mret ([], a)
  | Refresh :: events => '(_, a) ← refreshKeys a; serve_bearer events a
  | Request r :: events =>
      '(res, a) ← bearer_Authenticate r a;
      '(answers, a) ← serve_bearer events a;
      mret ((r, Middleware (E := E) (Some (Ok (Some res))) r) :: answers, a)
  end.

(** ** Where accepted tokens come from *)

#[local] Notation history_of := (list (happening E)).

Definition discovery_url (cfg : BearerTokenConfig) : string :=
  trim_slashes (bt_Issuer cfg) +:+ "/.well-known/openid-configuration".

(** [url] served [text] with status 200. *)
Definition served (url text : string) (tr : history_of) : Prop :=
  exists body, existT (HTTPGet false url "" None) (Ok (200, Ok body)) ∈ tr /\ text = LimitReader maxOAuthHTTPResponseBytes body.

(** The address of the keys: configured, or named by the issuer's document. *)
Definition key_address (cfg : BearerTokenConfig) (url : string) (tr : history_of) : Prop :=
  (bt_JWKSUrl cfg <> "" /\ url = bt_JWKSUrl cfg) \/
  (bt_JWKSUrl cfg = "" /\ validateOAuthHTTPURL (discovery_url cfg) = None /\
   exists text, served (discovery_url cfg) text tr /\ parse_discovery text = Ok url).

(** [key] is an RSA key of that name in a document served at that address, which
    is HTTPS or on this host. *)
Definition genuine (cfg : BearerTokenConfig) (kid : string) (key : rsa_PublicKey) (tr : history_of) : Prop :=
  exists url text doc jwk, validateOAuthHTTPURL url = None /\ key_address cfg url tr /\ served url text tr /\
  parse_jwks text = Ok doc /\ jwk ∈ doc /\ Kid jwk = kid /\ Kty jwk = "RSA" /\ RSAPublicKey jwk = Ok key.

Definition trusted (cfg : BearerTokenConfig) (a : BearerTokenAuthenticator) (tr : history_of) : Prop :=
  bt_config a = cfg /\ (bt_jwksURL a = "" \/ key_address cfg (bt_jwksURL a) tr) /\
  forall kid key, bt_keys a !! kid = Some key -> genuine cfg kid key tr.

Lemma served_lasting url text : lasting (served url text).
Proof. intros t1 t2 Hs (body & Hin & Hb). exists body. split; [by apply Hs|done]. Qed.

Lemma key_address_lasting cfg url : lasting (key_address cfg url).
Proof.
  intros t1 t2 Hs [Hcfg|(Hc & Hv & text & Ht & Hp)]; [by left|right]. split; [done|]. split; [done|]. exists text.
  split; [by eapply served_lasting|done].
Qed.

Lemma genuine_lasting cfg kid key : lasting (genuine cfg kid key).
Proof.
  intros t1 t2 Hs (url & text & doc & jwk & Hv & Ha & Ht & Hr). exists url, text, doc, jwk. split; [done|].
  split; [by eapply key_address_lasting|]. split; [by eapply served_lasting|done].
Qed.

Lemma trusted_lasting cfg a : lasting (trusted cfg a).
Proof.
  intros t1 t2 Hs (Hc & Hu & Hk). split; [done|]. split.
  - destruct Hu as [Hu|Hu]; [by left|right]. by eapply key_address_lasting.
  - intros kid key Hin. eapply genuine_lasting; eauto.
Qed.

Lemma fetch_runs what url : runs (fetch what url) (fun r tr => forall text, r = Ok text -> served url text tr).
Proof.
  unfold fetch. run_call. intros [[status body]|e]; apply runs_ret; [|done].
  destruct (Z.eqb_spec status 200) as [->|Hne]; simpl; [|done]. destruct body as [body|e]; [|done].
  intros text [= <-]. exists body. split; [by apply elem_of_cons; left|done].
Qed.

Lemma resolveJWKSURL_runs a t0 : trusted (bt_config a) a t0 ->
  runs (resolveJWKSURL a) (fun r tr => forall url, r = Ok url -> key_address (bt_config a) url (t0 ++ tr)).
Proof.
  intros (_ & Hu & _). unfold resolveJWKSURL. case_bool_decide as Hj; simpl.
  - case_bool_decide as Hc; simpl.
    + destruct (validateOAuthHTTPURL _) eqn:Hv; [by apply runs_ret|]. eapply runs_bind; [apply fetch_runs|].
      intros [text|e] t1 Ht; apply runs_ret; [|done]. intros url Hr. right. split; [done|]. split; [done|]. exists text.
      rewrite app_nil_r. split; [apply (served_lasting _ _ t1); [set_solver|by apply Ht]|].
      destruct (parse_discovery text) as [uri|e]; [|done]. case_bool_decide; [done|]. by destruct (validateOAuthHTTPURL uri); simplify_eq.
    + apply runs_ret. intros url [= <-]. destruct Hu as [Hu|Hu]; [done|]. by rewrite app_nil_r.
  - apply runs_ret. intros url [= <-]. by left.
Qed.

Lemma add_jwks_lookup doc kid key : fold_left add_jwk doc ∅ !! kid = Some key ->
  exists jwk, jwk ∈ doc /\ Kid jwk = kid /\ Kty jwk = "RSA" /\ RSAPublicKey jwk = Ok key.
Proof.
  induction doc as [|jwk doc IH] using rev_ind; simpl; [by rewrite lookup_empty|]. rewrite fold_left_app. simpl.
  unfold add_jwk at 1. destruct (bool_decide_reflect (Kid jwk = "")) as [|Hk]; simpl;
    [intros (j & ? & ?)%IH; exists j; set_solver|].
  destruct (bool_decide_reflect (Kty jwk = "RSA")) as [Ht|]; simpl; [|intros (j & ? & ?)%IH; exists j; set_solver].
  destruct (RSAPublicKey jwk) as [pub|] eqn:Hp; [|intros (j & ? & ?)%IH; exists j; set_solver].
  intros [[<- <-]|[_ (j & ? & ?)%IH]]%lookup_insert_Some; [exists jwk|exists j]; set_solver.
Qed.

Lemma refreshKeys_runs cfg a t0 : trusted cfg a t0 ->
  runs (refreshKeys a) (fun r tr => trusted cfg r.2 (t0 ++ tr)).
Proof.
  intros Ht. pose proof Ht as (Hc & Hu & Hk). unfold refreshKeys.
  assert (forall tr, trusted cfg a (t0 ++ tr)) as Ha by (intros tr; eapply trusted_lasting; [|exact Ht]; set_solver).
  eapply runs_bind; [apply (resolveJWKSURL_runs a t0); by rewrite Hc|]. intros [url|e] t1 Hr; [|apply runs_ret; apply Ha].
  destruct (validateOAuthHTTPURL url) eqn:Hv; [apply runs_ret; apply Ha|].
  eapply runs_bind; [apply fetch_runs|]. intros [text|e] t2 Hs; [|apply runs_ret; apply Ha].
  destruct (parse_jwks text) as [doc|e] eqn:Hp; [|apply runs_ret; apply Ha].
  cbv zeta. case_bool_decide; apply runs_ret; [apply Ha|]. rewrite app_nil_r.
  assert (key_address cfg url (t0 ++ t1 ++ t2)) as Haddr.
  { rewrite <- Hc. eapply key_address_lasting; [|by apply Hr]. set_solver. }
  split; [done|]. split; [by right|]. intros kid key (jwk & Hin & Hkid & Hkty & Hpub)%add_jwks_lookup.
  exists url, text, doc, jwk. split; [done|]. split; [done|]. split; [|done].
  eapply served_lasting; [|by apply Hs]. set_solver.
Qed.

Lemma getKey_runs cfg kid a t0 : trusted cfg a t0 ->
  runs (getKey kid a) (fun r tr => trusted cfg r.2 (t0 ++ tr) /\ forall key, r.1 = Ok key -> genuine cfg kid key (t0 ++ tr)).
Proof.
  intros Ht. unfold getKey. destruct (bt_keys a !! kid) as [key|] eqn:Hk.
  - apply runs_ret. rewrite app_nil_r. split; [done|]. intros key' [= <-]. by apply Ht.
  - eapply runs_bind; [by apply refreshKeys_runs|]. intros [err a'] t1 Ha. simpl in Ha. apply runs_ret. rewrite app_nil_r.
    destruct err; [done|]. destruct (bt_keys a' !! kid) as [key|] eqn:Hk'; [|done]. split; [done|].
    intros key' [= <-]. by apply Ha.
Qed.

(** The conditions on the claims. *)
Definition current_claims (cfg : BearerTokenConfig) (claims : jwtClaims) (now : Time) : Prop :=
  (bt_Issuer cfg <> "" -> cl_Issuer claims = trim_slashes (bt_Issuer cfg)) /\
  (bt_Audience cfg <> "" -> bt_Audience cfg ∈ cl_Audience claims) /\
  cl_ExpiresAt claims <> 0 /\ now <= time_Unix (cl_ExpiresAt claims) + defaultJWTClockSkew /\
  (0 < cl_NotBefore claims -> time_Unix (cl_NotBefore claims) <= now + defaultJWTClockSkew) /\
  cl_Subject claims <> "".

Lemma guard_None {A} (c : bool) (e : A) k : (if c then Some e else k) = None <-> c = false /\ k = None.
Proof. destruct c; naive_solver. Qed.

Lemma guarded_false (p q : bool) : negb p && negb q = false <-> (p = false -> q = true).
Proof. destruct p, q; simpl; naive_solver. Qed.

Lemma validateClaims_spec cfg claims now : validateClaims cfg claims now = None <-> current_claims cfg claims now.
Proof.
  unfold validateClaims, current_claims. rewrite !guard_None, !guarded_false, !bool_decide_eq_false, !bool_decide_eq_true.
  rewrite Z.eqb_neq, Z.ltb_ge, andb_false_iff, !Z.ltb_ge.
  assert (forall m n u v : Z, m <= n \/ v <= u <-> (n < m -> v <= u)) as Hnb by lia. rewrite Hnb. tauto.
Qed.

(** A token that was rightly accepted: its claims are current at a time that was
    read, and its signature is that of a genuine key. *)
Definition rightful (cfg : BearerTokenConfig) (token : string) (claims : jwtClaims) (tr : history_of) : Prop :=
  exists header signature input now key hash hashed,
  parse_token token = Ok (header, claims, signature, input) /\
  existT Now now ∈ tr /\ current_claims cfg claims now /\ genuine cfg (hd_Kid header) key tr /\
  hashJWTSigningInput sha (hd_Alg header) input = Ok (hash, hashed) /\ VerifyPKCS1v15 key hash hashed signature = true.

Lemma rightful_lasting cfg token claims : lasting (rightful cfg token claims).
Proof.
  intros t1 t2 Hs (h & sg & i & now & key & hash & hashed & Hp & Hn & Hc & Hg & Hr). exists h, sg, i, now, key, hash, hashed.
  split; [done|]. split; [by apply Hs|]. split; [done|]. split; [by eapply genuine_lasting|done].
Qed.

Lemma validateJWT_runs cfg token a t0 : trusted cfg a t0 ->
  runs (validateJWT token a) (fun r tr => trusted cfg r.2 (t0 ++ tr) /\
    forall claims, r.1 = Ok claims -> rightful cfg token claims (t0 ++ tr)).
Proof.
  intros Ht. pose proof Ht as (Hc & _). unfold validateJWT.
  destruct (parse_token token) as [[[[header claims] signature] input]|e] eqn:Hp; [|apply runs_ret; by rewrite app_nil_r].
  run_call. intros now. destruct (validateClaims (bt_config a) claims now) eqn:Hv.
  { apply runs_ret. split; [|done]. eapply trusted_lasting; [|exact Ht]. set_solver. }
  apply validateClaims_spec in Hv. rewrite Hc in Hv.
  eapply runs_bind; [apply (getKey_runs cfg _ _ (t0 ++ [existT Now now])); eapply trusted_lasting; [|exact Ht]; set_solver|].
  intros [key a'] t1 [Ha Hg]. simpl in Ha, Hg. rewrite <- app_assoc in Ha, Hg. simpl in Ha, Hg. apply runs_ret. rewrite app_nil_r.
  destruct key as [key|e]; [|done]. destruct (hashJWTSigningInput sha (hd_Alg header) input) as [[hash hashed]|] eqn:Hh; [|done].
  destruct (VerifyPKCS1v15 key hash hashed signature) eqn:Hver; [|done]. split; [done|]. intros claims' [= <-].
  exists header, signature, input, now, key, hash, hashed. split; [done|]. split; [set_solver|]. auto.
Qed.

(** The token of a request. *)
Definition request_token (r : auth_request) : string := TrimSpace (str_drop 7 (TrimSpace (ar_Authorization r))).

Definition rightful_answer (cfg : BearerTokenConfig) (r : auth_request) (res : Result) (tr : history_of) : Prop :=
  HasPrefix (ToLower (TrimSpace (ar_Authorization r))) "bearer " = true /\
  exists claims, rightful cfg (request_token r) claims tr /\ KeyID res = cl_Subject claims.

Lemma rightful_answer_lasting cfg r res : lasting (rightful_answer cfg r res).
Proof. intros t1 t2 Hs (Hb & claims & Hr & Hk). split; [done|]. exists claims. split; [by eapply rightful_lasting|done]. Qed.

Lemma bearer_Authenticate_runs cfg r a t0 : trusted cfg a t0 ->
  runs (bearer_Authenticate r a) (fun o tr => trusted cfg o.2 (t0 ++ tr) /\
    (Authenticated o.1 = true -> rightful_answer cfg r o.1 (t0 ++ tr))).
Proof.
  intros Ht. unfold bearer_Authenticate. case_bool_decide; [apply runs_ret; by rewrite app_nil_r|].
  destruct (HasPrefix _ _) eqn:Hb; simpl; [|apply runs_ret; by rewrite app_nil_r].
  eapply runs_bind; [by apply (validateJWT_runs cfg)|]. intros [validated a'] t1 [Ha Hv]. apply runs_ret. rewrite app_nil_r.
  destruct validated as [claims|e]; [|done]. split; [done|]. intros _. split; [done|]. exists claims. split; [by apply Hv|done].
Qed.

Lemma serve_bearer_runs cfg events a t0 : trusted cfg a t0 ->
  runs (serve_bearer events a) (fun o tr => forall r res, (r, Next (Some res)) ∈ o.1 -> rightful_answer cfg r res (t0 ++ tr)).
Proof.
  revert a t0. induction events as [|[|r] events IH]; intros a t0 Ht; simpl.
  - apply runs_ret. intros r res []%not_elem_of_nil.
  - eapply runs_bind; [by apply (refreshKeys_runs cfg)|]. intros [e a'] t1 Ha.
    eapply runs_weaken; [by apply (IH _ (t0 ++ t1))|]. intros o t2 Ho r res Hin. rewrite app_assoc. by apply Ho.
  - eapply runs_bind; [by apply (bearer_Authenticate_runs cfg)|]. intros [res a'] t1 [Ha Hr]. simpl in Ha, Hr.
    eapply runs_bind; [by apply (IH _ (t0 ++ t1))|]. intros [answers a''] t2 Ho. apply runs_ret. rewrite app_nil_r, app_assoc.
    intros r' res' [Heq|Hin]%elem_of_cons; [|by apply Ho].
    destruct (Authenticated res) eqn:Hauth; simplify_eq.
    eapply rightful_answer_lasting; [|by apply Hr]. set_solver.
Qed.

(** C9: A request passes the middleware only with a bearer token whose signature
    verifies, for one of the three RSA algorithms, with a key that the configured
    or discovered address served over HTTPS or from this host, whose issuer and
    audience are the configured ones, which has a subject, and which was neither
    expired nor early by more than a minute; the request goes on as that subject. *)
Theorem bearer_tokens_rightful cfg a events :
  NewBearerTokenAuthenticator (Some cfg) = Ok a ->
  runs (serve_bearer events a) (fun o tr => forall r res, (r, Next (Some res)) ∈ o.1 -> rightful_answer (bt_config a) r res tr).
Proof.
  intros Hnew. assert (bt_jwksURL a = "" /\ bt_keys a = ∅) as [Hu Hk].
  { unfold NewBearerTokenAuthenticator in Hnew. by repeat case_match; simplify_eq. }
  apply (serve_bearer_runs (bt_config a) events a []). split; [done|]. split; [by left|].
  intros kid key Hin. by rewrite Hk, lookup_empty in Hin.
Qed.

(** An issuer whose own name ends in a slash is never accepted. *)
Theorem slash_issuer_refused cfg claims now :
  bt_Issuer cfg <> "" -> cl_Issuer claims = trim_slashes (bt_Issuer cfg) +:+ "/" -> validateClaims cfg claims now <> None.
Proof.
  intros Hi Hc Hv. apply validateClaims_spec in Hv as [Hiss _]. rewrite (Hiss Hi) in Hc.
  apply (f_equal String.length) in Hc. rewrite string_app_length in Hc. simpl in Hc. lia.
Qed.
End bearer.

(** ** An authenticator at work *)

Section demo.
Definition demo_config : BearerTokenConfig := mkBearerConfig "https://idp/" "trino" "https://idp/keys" 0.
Definition demo_url (_ : string) : result string URL := Ok (mkURL "https" "idp" "idp" false).
Definition demo_jwks (_ : string) : result string (list jwkKey) := Ok [mkJwk "RSA" "k1" "AQAB" "AQAB"].
Definition demo_header (_ : string) : result string jwtHeader := Ok (mkHeader "RS256" "k1").
Definition demo_claims (_ : string) : result string jwtClaims :=
  Ok (mkClaims "https://idp" "alice" ["trino"] 1700000100 0 "" "").
Definition demo_verify (_ : rsa_PublicKey) (_ : crypto_Hash) (_ signature : string) : bool := signature ≡? "ok".

Definition demo_answer (c : call) : resp kube_error c :=
  match c with
  | HTTPGet _ _ _ _ => Ok (200, Ok "keys")
  | c => rest_answer ex_blank_keda c
  end.

Definition demo_request (token : string) : bearer_event := Request (mkAuthRequest ("Bearer " +:+ token) "").

Definition demo_bearer : BearerTokenAuthenticator :=
  mkBearer (mkBearerConfig "https://idp/" "trino" "https://idp/keys" defaultJWKSRefreshInterval) ∅ "".

Definition demo_serve : M (scripted kube_error) (list (auth_request * middleware_answer) * BearerTokenAuthenticator) :=
  serve_bearer demo_url (fun _ => false) (fun _ => Err "") demo_jwks demo_header demo_claims (fun _ s => s) demo_verify
    [Refresh; demo_request "aA.aA.b2s"; demo_request "aA.aA.b2"] demo_bearer.

(** The first of two tokens is accepted, and rightly so. *)
Lemma bearer_tokens_rightful_witness :
  let w := mkScripted (fun _ => demo_answer) [] in
  snd <$> (demo_serve w).1.1 =
    [Next (Some (mkResult true "alice" "alice" {[ "auth_type" := "oauth"; "issuer" := "https://idp" ]})); Unauthorized "Bearer"] /\
  exists tr : list (happening kube_error), forall r res, (r, Next (Some res)) ∈ (demo_serve w).1.1 ->
  rightful_answer demo_url (fun _ => false) (fun _ => Err "") demo_jwks demo_header demo_claims (fun _ s => s) demo_verify
    (bt_config demo_bearer) r res tr.
Proof.
  intros w. split; [vm_compute; reflexivity|].
  destruct (bearer_tokens_rightful demo_url (fun _ => false) (fun _ => Err "") demo_jwks demo_header demo_claims (fun _ s => s) demo_verify
    demo_config demo_bearer [Refresh; demo_request "aA.aA.b2s"; demo_request "aA.aA.b2"] eq_refl w) as (tr & _ & Hq).
  exists tr. exact Hq.
Defined.
End demo.
