(* ===== verification/ApiServer.v ===== *)
(** * The API server ([pkg/api-server/server.go], [resume.go])

    Handlers of the REST API: listing, creating and deleting runtimes, and
    resuming or suspending them under a lease.  A handler maps the request and
    the world to a reply, the goroutines it starts and the next world.  The
    Kubernetes client and client-go's conflict retry are interfaces. *)

From S2P Require Import Prelude GoStrings GoTime XTrinodeTypes RuntimeShape Routes Retry Lease ApiAuth.

(** ** Interfaces *)

Definition same_object (x y : XTrinode) : Prop :=
  xt_Namespace x = xt_Namespace y /\ xt_Name x = xt_Name y.

(** Runtimes as objects of the API server, as in [ConfigMapClient].  An update
    stores annotations and specification and leaves the status, which is a
    subresource. *)
Class RuntimeClient (E W : Type) := {
  rt_List : W -> result E (list XTrinode) * W;
  rt_Get : string -> string -> W -> result E XTrinode * W;
  rt_Create : XTrinode -> W -> result E XTrinode * W;
  rt_Update : XTrinode -> W -> option E * W;
  rt_Delete : string -> string -> W -> option E * W;
  rt_now : W -> Time;
  rt_log : W -> list (option XTrinode * option XTrinode);
  rt_seen : W -> XTrinode -> Prop;
  rt_list_log : forall w, rt_log (rt_List w).2 = rt_log w;
  rt_get_log : forall ns n w, rt_log (rt_Get ns n w).2 = rt_log w;
  rt_get_ok : forall ns n w x w', rt_Get ns n w = (Ok x, w') ->
    rt_seen w' x /\ xt_Namespace x = ns /\ xt_Name x = n;
  rt_update_ok : forall x w w', rt_Update x w = (None, w') ->
    exists x0 x1, rt_log w' = rt_log w ++ [(Some x0, Some x1)] /\
      rt_seen w' x0 /\ same_object x0 x /\ xt_ResourceVersion x0 = xt_ResourceVersion x /\
      same_object x1 x /\ xt_Annotations x1 = xt_Annotations x /\ xt_Spec x1 = xt_Spec x /\
      xt_Labels x1 = xt_Labels x /\ xt_Status x1 = xt_Status x0;
  rt_update_err : forall x w e w', rt_Update x w = (Some e, w') -> rt_log w' = rt_log w;
  rt_update_seen : forall x w y, rt_seen w y -> rt_seen (rt_Update x w).2 y;
  rt_version_unique : forall w x y, rt_seen w x -> rt_seen w y -> same_object x y ->
    xt_ResourceVersion x = xt_ResourceVersion y -> x = y
}.

(** Leases and runtimes are different objects. *)
Class ApiWorld (E W : Type) `{LeaseClient E W, RuntimeClient E W} := {
  lease_get_frame : forall n w, rt_log (ls_Get n w).2 = rt_log w;
  lease_create_frame : forall n l w, rt_log (ls_Create n l w).2 = rt_log w;
  lease_update_frame : forall n l w, rt_log (ls_Update n l w).2 = rt_log w;
  lease_delete_frame : forall n w, rt_log (ls_Delete n w).2 = rt_log w;
  rt_list_frame : forall w, ls_log (rt_List w).2 = ls_log w;
  rt_get_frame : forall ns n w, ls_log (rt_Get ns n w).2 = ls_log w;
  rt_update_frame : forall x w, ls_log (rt_Update x w).2 = ls_log w
}.

(** [retry.RetryOnConflict] with [retry.DefaultRetry]: the function is called
    until it returns something other than a conflict, a bounded number of
    times; the last error is returned. *)
Fixpoint conflict_loop {E W} `{KubeErrors E} (n : nat) (fn : W -> option E * W) (w : W) : option E * W :=
  match fn w with
  | (None, w) => (None, w)
  | (Some e, w) =>
      if IsConflict e then match n with O => (Some e, w) | S n => conflict_loop n fn w end
      else (Some e, w)
  end.

Class ConflictRetry (E : Type) `{KubeErrors E} := {
  RetryOnConflict : forall {W}, (W -> option E * W) -> W -> option E * W;
  retry_on_conflict : exists n, forall W (fn : W -> option E * W) w,
    RetryOnConflict fn w = conflict_loop n fn w
}.

(** ** Requests and replies *)

Record CandidateRuntime := mkCandidate { cand_Namespace : string; cand_Name : string }.

Record UnifiedResumeRequest := mkUnified {
  ur_RoutingGroup : string;
  ur_Candidate : option CandidateRuntime;
  ur_Reason : string;
  ur_RouteName : string
}.

Record ResumeRuntimeRequest := mkResumeRequest {
  rr_WakeMinWorkers : option Z;
  rr_WakeTTL : option Duration;
  rr_RequestID : string
}.

Record CreateRuntimeRequest := mkCreate {
  cr_Name : string;
  cr_Namespace : string;
  cr_Size : string;
  cr_Routing : option string;             (* the routing group *)
  cr_Labels : list (string * string)      (* in iteration order *)
}.

Record UnifiedResumeResponse := mkUnifiedResponse {
  rs_Triggered : bool;
  rs_Gated : bool;
  rs_RetryAfter : Z;
  rs_Key : string;
  rs_KeyType : string;
  rs_LeaseUntil : string;
  rs_Error : string;
  rs_Holder : string
}.

Record LeaseInfo := mkLeaseInfo { li_Operation : string; li_Applied : bool; li_Until : string }.

Record AsyncOperationResponse := mkAsync {
  as_Status : string;
  as_Desired : string;
  as_CurrentPhase : string;
  as_PollURL : string;
  as_Lease : LeaseInfo;
  as_RetryAfterSeconds : Z
}.

(** The body of a gated suspend or resume. *)
Record GatedResponse := mkGated {
  ga_operation : string;
  ga_namespace : string;
  ga_name : string;
  ga_retryAfter : Z;
  ga_leaseUntil : string;
  ga_holder : string;
  ga_message : string
}.

Inductive body :=
| BEmpty
| BError (message code details : string)
| BResume (r : UnifiedResumeResponse)
| BGated (r : GatedResponse)
| BAsync (r : AsyncOperationResponse)
| BRuntime (x : XTrinode)
| BRuntimes (l : list XTrinode)
| BStatus (s : XTrinodeStatus).

Record reply := mkReply {
  rp_status : Z;
  rp_headers : list (string * string);
  rp_body : body
}.

(** A goroutine started by [triggerResumeAsync]. *)
Record task := mkTask { tk_namespace : string; tk_name : string; tk_key : string; tk_keyType : string }.

Record ServerConfig := mkServerConfig {
  APIPath : string;
  RetryAfterSeconds : Z;
  sc_auth : bearerAuthConfig;
  CORSAllowedOrigins : list string
}.

Record Server := mkServer { srv_config : ServerConfig; srv_leaseManager : LeaseManager }.

Definition StatusOK : Z := 200.
Definition StatusCreated : Z := 201.
Definition StatusAccepted : Z := 202.
Definition StatusNoContent : Z := 204.
Definition StatusBadRequest : Z := 400.
Definition StatusUnauthorized : Z := 401.
Definition StatusForbidden : Z := 403.
Definition StatusNotFound : Z := 404.
Definition StatusMethodNotAllowed : Z := 405.
Definition StatusConflict : Z := 409.
Definition StatusInternalServerError : Z := 500.
Definition StatusServiceUnavailable : Z := 503.

Definition jsonHeader : string * string := ("Content-Type", "application/json").

Definition writeJSON (status : Z) (headers : list (string * string)) (b : body) : reply :=
  mkReply status (headers ++ [jsonHeader]) b.

Definition writeError (status : Z) (message code : string) : reply :=
  writeJSON status [] (BError message code "").

Definition quoted (s : string) : string := String "034" (s +:+ String "034" "").

Definition writeUnauthorized : reply :=
  mkReply StatusUnauthorized
    [jsonHeader; ("WWW-Authenticate", "Bearer realm=" +:+ quoted "xtrinode-api-server")]
    (BError "Unauthorized" "UNAUTHORIZED" "").

Definition writeForbidden (action : apiAction) : reply :=
  mkReply StatusForbidden [jsonHeader] (BError "Forbidden" "FORBIDDEN" (action_string action)).

Definition name_error_text (e : name_error) : string :=
  match e with
  | NameEmpty => "name cannot be empty"
  | NameTooLong => "name cannot be longer than 253 characters"
  | NameMalformed => "name must consist of lower case alphanumeric characters or '-', and must start and end with an alphanumeric character"
  end.

(** ** Annotations *)

Definition resume_annotations (now : Time) (m : gmap string string) : gmap string string :=
  <[ResumeRequestedAtAnnotation := FormatRFC3339 now]> (<[ResumeRequestedAnnotation := "true"]> m).

Definition suspend_annotations (now : Time) (m : gmap string string) : gmap string string :=
  <[SuspendRequestedAtAnnotation := FormatRFC3339 now]> (<[SuspendRequestedAnnotation := "true"]> m).

Definition wake_annotations (req : ResumeRuntimeRequest) (now : Time) (m : gmap string string) :
    gmap string string :=
  let m := resume_annotations now m in
  let m := match rr_WakeMinWorkers req with
           | Some n => <[WakeMinWorkersAnnotation := fmt_d n]> m | None => m end in
  match rr_WakeTTL req with Some d => <[WakeTTLAnnotation := duration_String d]> m | None => m end.

Section server.
Context {E W : Type} `{KubeErrors E, LeaseClient E W, RuntimeClient E W, !ApiWorld E W, !ConflictRetry E}.
Context `{QuantityParser}.

(** [err.Error()], the digests of lease names and of shapes. *)
Context (ErrorText : E -> string) (hash8 : string -> string) (hash16 : hash_input -> string).

(** The JSON decoder, with unknown fields refused and bodies limited to 1MB,
    at the four request types. *)
Context (decodeUnified : string -> result string UnifiedResumeRequest)
        (decodeResume : string -> result string ResumeRuntimeRequest)
        (decodeSuspend : string -> result string string)
        (decodeCreate : string -> result string CreateRuntimeRequest).

(** ** Choosing a runtime to resume *)

Definition xtrinodeMatchesRoutingGroup (x : XTrinode) (routingGroup : string) : bool :=
  if routingGroup ≡? "" then false else
  match spec_Routing (xt_Spec x) with
  | Some r =>
      if negb (rs_RoutingGroup r ≡? "") then rs_RoutingGroup r ≡? routingGroup
      else DefaultDedicatedRoutingGroup (xt_Namespace x) (xt_Name x) ≡? routingGroup
  | None => DefaultDedicatedRoutingGroup (xt_Namespace x) (xt_Name x) ≡? routingGroup
  end.

(** The loop of [isPoolEmpty] over the listed runtimes. *)
Fixpoint pool_empty (routingGroup : string) (items : list XTrinode) : bool :=
  match items with
  | [] => true
  | t :: items =>
      if xtrinodeMatchesRoutingGroup t routingGroup && (st_Phase (xt_Status t) ≡? "Ready") then false
      else pool_empty routingGroup items
  end.

Definition isPoolEmpty (routingGroup : string) (w : W) : bool * W :=
  match rt_List w with
  | (Err _, w) => (true, w)
  | (Ok items, w) => (pool_empty routingGroup items, w)
  end.

Definition resume_priority (phase : string) : option Z :=
  if phase ≡? "Suspended" then Some 0 else
  if phase ≡? "Reconciling" then Some 1 else None.

(** One round of the candidate loop; [best] carries its priority and capacity. *)
Definition pick_step (routingGroup : string) (best : option (XTrinode * Z * Z)) (t : XTrinode) :
    option (XTrinode * Z * Z) :=
  if negb (xtrinodeMatchesRoutingGroup t routingGroup) then best else
  match resume_priority (st_Phase (xt_Status t)) with
  | None => best
  | Some priority =>
      match Resolve hash16 t with
      | Err _ => best
      | Ok shape =>
          let capacity := sh_CapacityUnits shape in
          match best with
          | None => Some (t, priority, capacity)
          | Some (_, bestPriority, bestCapacity) =>
              if (priority <? bestPriority) || ((priority =? bestPriority) && (capacity <? bestCapacity))
              then Some (t, priority, capacity) else best
          end
      end
  end.

Definition pickCandidateFromRoutes (routingGroup : string) (w : W) : option CandidateRuntime * W :=
  match rt_List w with
  | (Err _, w) => (None, w)
  | (Ok items, w) =>
      (match fold_left (pick_step routingGroup) items None with
       | None => None
       | Some (best, _, _) => Some (mkCandidate (xt_Namespace best) (xt_Name best))
       end, w)
  end.

(** ** Triggering *)

(** The function retried on conflict: read the runtime afresh, set its
    annotations, write it back. *)
Definition annotate (f : Time -> gmap string string -> gmap string string) (namespace name : string)
    (w : W) : option E * W :=
  match rt_Get namespace name w with
  | (Err e, w) => (Some e, w)
  | (Ok x, w) => rt_Update (set_Annotations (f (rt_now w) (xt_Annotations x)) x) w
  end.

Definition triggerResume (namespace name : string) (w : W) : option E * W :=
  match RetryOnConflict (annotate resume_annotations namespace name) w with
  | (None, w) => (None, w)
  | (Some e, w) => (Some (Errorf "failed to update xtrinode: " e), w)
  end.

Definition triggerResumeWithLeaseCleanup (s : Server) (t : task) (w : W) : W :=
  match triggerResume (tk_namespace t) (tk_name t) w with
  | (None, w) => w
  | (Some _, w) => (ReleaseLease hash8 (srv_leaseManager s) (tk_key t) (tk_keyType t) w).2
  end.

Definition getRetryAfter (s : Server) : Z :=
  if 0 <? RetryAfterSeconds (srv_config s) then RetryAfterSeconds (srv_config s) else 30.

Definition APIServerMinRetryAfterSeconds : Z := 1.
Definition APIServerMaxRetryAfterSeconds : Z := 120.

(** [int(time.Until(t).Seconds())]; beyond the exact range of [float64] the
    value is clamped by all callers. *)
Definition seconds_until (now until : Time) : Z := Z.quot (time_sub until now) Second.

Definition calculateRetryAfter (now leaseUntil : Time) : Z :=
  let remaining := seconds_until now leaseUntil in
  if remaining <? APIServerMinRetryAfterSeconds then APIServerMinRetryAfterSeconds else
  if APIServerMaxRetryAfterSeconds <? remaining then APIServerMaxRetryAfterSeconds else remaining.

Definition respondLeaseGated (now : Time) (key keyType : string) (r : K8sLeaseResult) : reply :=
  let remaining := calculateRetryAfter now (lr_LeaseUntil r) in
  let until := FormatRFC3339 (lr_LeaseUntil r) in
  writeJSON StatusServiceUnavailable
    [("Retry-After", fmt_d remaining); ("X-Lease-Gated", "true"); ("X-Lease-Until", until)]
    (BResume (mkUnifiedResponse false true remaining key keyType until "resuming" (lr_Holder r))).

(** The 202 of an acquired lease. *)
Definition respondTriggered (s : Server) (key keyType : string) (r : K8sLeaseResult) : reply :=
  let retryAfter := getRetryAfter s in
  let until := FormatRFC3339 (lr_LeaseUntil r) in
  writeJSON StatusAccepted
    [("Retry-After", fmt_d retryAfter); ("X-Lease-Acquired", "true"); ("X-Lease-Until", until)]
    (BResume (mkUnifiedResponse true false retryAfter key keyType until "" "")).

Definition handleLeaseAcquired (s : Server) (namespace name key keyType : string) (r : K8sLeaseResult) :
    reply * list task :=
  (respondTriggered s key keyType r,
   if negb (namespace ≡? "") && negb (name ≡? "") then [mkTask namespace name key keyType] else []).

(** [None] means the pool is not empty and the caller goes on with a runtime
    lease. *)
Definition tryPoolGate (s : Server) (routingGroup : string) (w : W) :
    option (reply * list task) * W :=
  let key := MakePoolKey routingGroup in
  let keyType := LeaseKeyTypePool in
  match AcquireLease hash8 (srv_leaseManager s) (rt_now w) key keyType w with
  | (Err _, w) =>
      (Some (writeError StatusInternalServerError "Failed to acquire lease" "LEASE_ERROR", []), w)
  | (Ok r, w) =>
      if negb (lr_Acquired r) then (Some (respondLeaseGated (rt_now w) key keyType r, []), w) else
      let '(empty, w) := isPoolEmpty routingGroup w in
      if negb (empty : bool) then (None, (ReleaseLease hash8 (srv_leaseManager s) key keyType w).2) else
      match pickCandidateFromRoutes routingGroup w with
      | (None, w) =>
          (Some (writeError StatusNotFound "No candidate runtime found for pool gate" "NO_CANDIDATE", []),
           (ReleaseLease hash8 (srv_leaseManager s) key keyType w).2)
      | (Some candidate, w) =>
          (Some (respondTriggered s key keyType r,
                 [mkTask (cand_Namespace candidate) (cand_Name candidate) key keyType]), w)
      end
  end.

Definition refusal (d : decision) : option reply :=
  match d with
  | Allow => None
  | Deny401 => Some writeUnauthorized
  | Deny403 action => Some (writeForbidden action)
  end.

(** The runtime lease of [handleUnifiedResume]. *)
Definition runtimeGate (s : Server) (namespace name : string) (w : W) : reply * list task * W :=
  let key := MakeRuntimeKey namespace name in
  let keyType := LeaseKeyTypeRuntime in
  match AcquireLease hash8 (srv_leaseManager s) (rt_now w) key keyType w with
  | (Err _, w) => (writeError StatusInternalServerError "Failed to acquire lease" "LEASE_ERROR", [], w)
  | (Ok r, w) =>
      if lr_Acquired r then let '(rep, ts) := handleLeaseAcquired s namespace name key keyType r in (rep, ts, w)
      else (respondLeaseGated (rt_now w) key keyType r, [], w)
  end.

Definition handleUnifiedResume (s : Server) (method : string) (principal : option authPrincipal)
    (payload : string) (w : W) : reply * list task * W :=
  if negb (method ≡? "POST")
  then (writeError StatusMethodNotAllowed "Resume requires POST method" "METHOD_NOT_ALLOWED", [], w) else
  match refusal (authorize (sc_auth (srv_config s)) principal apiActionRuntimeResume) with
  | Some r => (r, [], w)
  | None =>
  match (if payload ≡? "" then Ok (mkUnified "" None "" "") else decodeUnified payload) with
  | Err e => (writeError StatusBadRequest ("Invalid request body: " +:+ e) "INVALID_REQUEST", [], w)
  | Ok req =>
      match ur_Candidate req with
      | Some c =>
          match validateNamespace (cand_Namespace c) with
          | Some e => (writeError StatusBadRequest ("Invalid namespace: " +:+ name_error_text e)
                         "INVALID_NAMESPACE", [], w)
          | None =>
          match validateK8sName (cand_Name c) with
          | Some e => (writeError StatusBadRequest ("Invalid name: " +:+ name_error_text e)
                         "INVALID_NAME", [], w)
          | None => runtimeGate s (cand_Namespace c) (cand_Name c) w
          end end
      | None =>
          if ur_RoutingGroup req ≡? "" then
            (writeError StatusBadRequest "Either routingGroup or candidate must be provided"
               "INVALID_REQUEST", [], w)
          else
          match tryPoolGate s (ur_RoutingGroup req) w with
          | (Some (rep, ts), w) => (rep, ts, w)
          | (None, w) =>
              match pickCandidateFromRoutes (ur_RoutingGroup req) w with
              | (None, w) => (writeError StatusNotFound "No candidate runtime found for routing group"
                                "NO_CANDIDATE", [], w)
              | (Some c, w) => runtimeGate s (cand_Namespace c) (cand_Name c) w
              end
          end
      end
  end end.

(** ** One runtime *)

Definition gatedRetryAfter (now until : Time) : Z :=
  let remaining := seconds_until now until in
  let remaining := if remaining <? 1 then 30 else remaining in
  if 120 <? remaining then 120 else remaining.

(** What [resumeRuntime] and [suspendRuntime] do once their body is decoded:
    they differ in the lease type, the annotations and the texts. *)
Definition leasedOperation (s : Server) (title operation desired keyType : string)
    (f : Time -> gmap string string -> gmap string string) (namespace name : string) (w : W) :
    reply * W :=
  let lm := srv_leaseManager s in
  let key := MakeRuntimeKey namespace name in
  match AcquireLease hash8 lm (rt_now w) key keyType w with
  | (Err _, w) => (writeError StatusInternalServerError "Failed to acquire lease" "LEASE_ERROR", w)
  | (Ok r, w) =>
      let until := FormatRFC3339 (lr_LeaseUntil r) in
      if negb (lr_Acquired r) then
        let remaining := gatedRetryAfter (rt_now w) (lr_LeaseUntil r) in
        (writeJSON StatusServiceUnavailable
           [("Retry-After", fmt_d remaining); ("X-Lease-Gated", "true"); ("X-Lease-Until", until);
            ("X-Lease-Holder", lr_Holder r)]
           (BGated (mkGated operation namespace name remaining until (lr_Holder r)
              (title +:+ " operation in progress by another request"))), w)
      else
      match RetryOnConflict (annotate f namespace name) w with
      | (Some e, w) =>
          (if IsNotFound e then writeError StatusNotFound "Runtime not found" "NOT_FOUND"
           else writeError StatusInternalServerError ("Failed to trigger " +:+ operation) "UPDATE_FAILED",
           (ReleaseLease hash8 lm key keyType w).2)
      | (None, w) =>
          let retryAfter := getRetryAfter s in
          (writeJSON StatusAccepted
             [("Retry-After", fmt_d retryAfter); ("X-Lease-Acquired", "true"); ("X-Lease-Until", until)]
             (BAsync (mkAsync "accepted" desired ""
                (APIPath (srv_config s) +:+ "/runtimes/" +:+ namespace +:+ "/" +:+ name +:+ "/status")
                (mkLeaseInfo operation true until) retryAfter)), w)
      end
  end.

Definition invalid_body (e : string) : reply :=
  writeError StatusBadRequest ("Invalid request body: " +:+ e) "INVALID_REQUEST".

Definition resumeRuntime (s : Server) (namespace name payload : string) (w : W) : reply * W :=
  match (if payload ≡? "" then Ok (mkResumeRequest None None "") else decodeResume payload) with
  | Err e => (invalid_body e, w)
  | Ok req => leasedOperation s "Resume" "resume" "resumed" LeaseKeyTypeRuntime (wake_annotations req) namespace name w
  end.

Definition suspendRuntime (s : Server) (namespace name payload : string) (w : W) : reply * W :=
  match (if payload ≡? "" then Ok "" else decodeSuspend payload) with
  | Err e => (invalid_body e, w)
  | Ok _ => leasedOperation s "Suspend" "suspend" "suspended" LeaseKeyTypeSuspend suspend_annotations namespace name w
  end.

Definition getFailure (e : E) : reply :=
  if IsNotFound e then writeError StatusNotFound "Runtime not found" "NOT_FOUND"
  else writeError StatusInternalServerError ("Failed to get runtime: " +:+ ErrorText e) "GET_FAILED".

Definition getRuntime (namespace name : string) (w : W) : reply * W :=
  match rt_Get namespace name w with
  | (Err e, w) => (getFailure e, w)
  | (Ok x, w) => (writeJSON StatusOK [] (BRuntime x), w)
  end.

Definition getRuntimeStatus (namespace name : string) (w : W) : reply * W :=
  match rt_Get namespace name w with
  | (Err e, w) => (getFailure e, w)
  | (Ok x, w) => (writeJSON StatusOK [] (BStatus (xt_Status x)), w)
  end.

Definition listRuntimes (w : W) : reply * W :=
  match rt_List w with
  | (Err e, w) => (writeError StatusInternalServerError
                     ("Failed to list runtimes: " +:+ ErrorText e) "LIST_FAILED", w)
  | (Ok items, w) => (writeJSON StatusOK [] (BRuntimes items), w)
  end.

Definition deleteRuntime (namespace name : string) (w : W) : reply * W :=
  match rt_Delete namespace name w with
  | (Some e, w) =>
      (if IsNotFound e then writeError StatusNotFound "Runtime not found" "NOT_FOUND"
       else writeError StatusInternalServerError ("Failed to delete runtime: " +:+ ErrorText e) "DELETE_FAILED", w)
  | (None, w) => (mkReply StatusNoContent [] BEmpty, w)
  end.

Definition label_error_text (e : label_error) : string :=
  match e with
  | LabelKeyTooLong key => "label key " +:+ quoted key +:+ " exceeds maximum length"
  | LabelKeyInvalid key => "label key " +:+ quoted key +:+ " is not a valid Kubernetes label key"
  | LabelValueTooLong key => "label value for key " +:+ quoted key +:+ " exceeds 63 characters"
  | LabelValueInvalid value key =>
      "label value " +:+ quoted value +:+ " for key " +:+ quoted key +:+ " is not a valid Kubernetes label value"
  end.

(** The runtime a create request describes. *)
Definition runtime_of (req : CreateRuntimeRequest) : XTrinode :=
  mkXTrinode (cr_Name req) (cr_Namespace req) 0 0 zeroTime None [] (list_to_map (cr_Labels req)) ∅
    (mkSpec (cr_Size req) None None false None None None None None None
       ((fun group => mkRouting group "" "" "" false None) <$> cr_Routing req) None None None None)
    (status_of_phase "").

(** The checks of [createRuntime] in order. *)
Definition validateCreate (req : CreateRuntimeRequest) : option reply :=
  let bad message code := Some (writeError StatusBadRequest message code) in
  if cr_Name req ≡? "" then bad "Name is required" "MISSING_NAME" else
  if cr_Namespace req ≡? "" then bad "Namespace is required" "MISSING_NAMESPACE" else
  if cr_Size req ≡? "" then bad "Size is required" "MISSING_SIZE" else
  match validateK8sName (cr_Name req) with
  | Some e => bad ("Invalid name: " +:+ name_error_text e) "INVALID_NAME"
  | None =>
  match validateNamespace (cr_Namespace req) with
  | Some e => bad ("Invalid namespace: " +:+ name_error_text e) "INVALID_NAMESPACE"
  | None =>
  if negb (validateSize (cr_Size req))
  then bad ("Invalid size: invalid size: " +:+ cr_Size req +:+ " (must be one of: [xs s m l xl])") "INVALID_SIZE" else
  match validateLabels (cr_Labels req) with
  | Some e => bad ("Invalid labels: " +:+ label_error_text e) "INVALID_LABELS"
  | None => None
  end end end.

Definition createRuntime (payload : string) (w : W) : reply * W :=
  match decodeCreate payload with
  | Err e => (invalid_body e, w)
  | Ok req =>
      match validateCreate req with
      | Some r => (r, w)
      | None =>
          match rt_Create (runtime_of req) w with
          | (Ok x, w) => (writeJSON StatusCreated [] (BRuntime x), w)
          | (Err e, w) =>
              (if IsAlreadyExists e then
                 writeError StatusConflict
                   ("Runtime " +:+ cr_Namespace req +:+ "/" +:+ cr_Name req +:+ " already exists") "ALREADY_EXISTS"
               else writeError StatusInternalServerError "Failed to create runtime" "CREATE_FAILED", w)
          end
      end
  end.

(** ** Dispatch *)

Record request := mkRequest {
  rq_Method : string;
  rq_Path : string;
  rq_Authorization : string;
  rq_Origin : string;
  rq_ID : string;        (* the generated X-Request-ID *)
  rq_Body : string
}.

Definition method_not_allowed (message : string) : reply :=
  writeError StatusMethodNotAllowed message "METHOD_NOT_ALLOWED".

(** A handler behind the authorisation check. *)
Definition guarded (s : Server) (principal : option authPrincipal) (action : apiAction)
    (k : W -> reply * W) (w : W) : reply * W :=
  match refusal (authorize (sc_auth (srv_config s)) principal action) with
  | Some r => (r, w)
  | None => k w
  end.

Definition handleRuntimes (s : Server) (principal : option authPrincipal) (rq : request) (w : W) :
    reply * W :=
  if rq_Method rq ≡? "GET" then guarded s principal apiActionRuntimeRead listRuntimes w else
  if rq_Method rq ≡? "POST" then guarded s principal apiActionRuntimeCreate (createRuntime (rq_Body rq)) w else
  (method_not_allowed "Method not allowed", w).

Definition handleRuntime (s : Server) (principal : option authPrincipal) (rq : request) (w : W) :
    reply * W :=
  let runtimesPrefix := APIPath (srv_config s) +:+ "/runtimes/" in
  match parsePath (str_drop (String.length runtimesPrefix) (rq_Path rq)) with
  | namespace :: name :: rest =>
      let action := match rest with a :: _ => a | [] => "" end in
      match validateNamespace namespace with
      | Some e => (writeError StatusBadRequest ("Invalid namespace: " +:+ name_error_text e) "INVALID_NAMESPACE", w)
      | None =>
      match validateK8sName name with
      | Some e => (writeError StatusBadRequest ("Invalid name: " +:+ name_error_text e) "INVALID_NAME", w)
      | None =>
          if action ≡? "resume" then
            if negb (rq_Method rq ≡? "POST") then (method_not_allowed "Resume requires POST method", w)
            else guarded s principal apiActionRuntimeResume (resumeRuntime s namespace name (rq_Body rq)) w
          else if action ≡? "suspend" then
            if negb (rq_Method rq ≡? "POST") then (method_not_allowed "Suspend requires POST method", w)
            else guarded s principal apiActionRuntimeSuspend (suspendRuntime s namespace name (rq_Body rq)) w
          else if action ≡? "status" then
            if negb (rq_Method rq ≡? "GET") then (method_not_allowed "Status requires GET method", w)
            else guarded s principal apiActionRuntimeRead (getRuntimeStatus namespace name) w
          else if action ≡? "" then
            if rq_Method rq ≡? "GET" then guarded s principal apiActionRuntimeRead (getRuntime namespace name) w else
            if rq_Method rq ≡? "DELETE" then guarded s principal apiActionRuntimeDelete (deleteRuntime namespace name) w else
            (method_not_allowed "Method not allowed", w)
          else (writeError StatusBadRequest "Unknown action" "UNKNOWN_ACTION", w)
      end end
  | _ => (writeError StatusBadRequest
            ("Invalid path. Expected " +:+ APIPath (srv_config s) +:+ "/runtimes/{namespace}/{name}") "INVALID_PATH", w)
  end.

Definition cors_headers (s : Server) (origin : string) : list (string * string) :=
  let allowed := List.filter (fun o => negb (o ≡? "")) (map TrimSpace (CORSAllowedOrigins (srv_config s))) in
  if negb (origin ≡? "") && existsb (fun o => o ≡? origin) allowed then
    [("Access-Control-Allow-Origin", origin); ("Vary", "Origin");
     ("Access-Control-Allow-Methods", "GET, POST, DELETE, OPTIONS");
     ("Access-Control-Allow-Headers", "Content-Type, Authorization")]
  else [].

Definition add_headers (h : list (string * string)) (r : reply) : reply :=
  mkReply (rp_status r) (h ++ rp_headers r) (rp_body r).

(** [apiHandler]: preflight requests are answered at once, then comes the
    bearer check. *)
Definition apiHandler (s : Server) (rq : request)
    (next : option authPrincipal -> W -> reply * list task * W) (w : W) : reply * list task * W :=
  let cors := cors_headers s (rq_Origin rq) in
  if rq_Method rq ≡? "OPTIONS" then (mkReply StatusNoContent cors BEmpty, [], w) else
  let h := cors ++ [("X-Request-ID", rq_ID rq)] in
  match withBearerAuth (sc_auth (srv_config s)) (rq_Authorization rq) with
  | Unauthorized => (add_headers h writeUnauthorized, [], w)
  | Passed principal => let '(r, ts, w) := next principal w in (add_headers h r, ts, w)
  end.

Definition no_tasks (r : reply * W) : reply * list task * W := (r.1, [], r.2).

(** The routes [NewServer] installs for the API. *)
Definition serve (s : Server) (rq : request) (w : W) : reply * list task * W :=
  let base := APIPath (srv_config s) in
  if rq_Path rq ≡? base +:+ "/runtimes" then
    apiHandler s rq (fun p w => no_tasks (handleRuntimes s p rq w)) w
  else if HasPrefix (rq_Path rq) (base +:+ "/runtimes/") then
    apiHandler s rq (fun p w => no_tasks (handleRuntime s p rq w)) w
  else if rq_Path rq ≡? base +:+ "/resume" then
    apiHandler s rq (fun p w => handleUnifiedResume s (rq_Method rq) p (rq_Body rq) w) w
  else (mkReply StatusNotFound [] BEmpty, [], w).

(** ** The candidate *)

Definition eligible (routingGroup : string) (t : XTrinode) : option (XTrinode * Z * Z) :=
  if negb (xtrinodeMatchesRoutingGroup t routingGroup) then None else
  match resume_priority (st_Phase (xt_Status t)), Resolve hash16 t with
  | Some p, Ok shape => Some (t, p, sh_CapacityUnits shape)
  | _, _ => None
  end.

Definition rank : XTrinode * Z * Z -> XTrinode * Z * Z -> comparison :=
  lex (on (fun x => x.1.2) Z.compare) (on (fun x => x.2) Z.compare).

Lemma pick_step_eligible g acc t :
  pick_step g acc t = match eligible g t with Some x => keep_best (cmp_lt rank) acc x | None => acc end.
Proof.
  unfold pick_step, eligible. destruct (xtrinodeMatchesRoutingGroup t g); simpl; [|done].
  destruct (resume_priority _) as [p|]; [|done]. destruct (Resolve hash16 t) as [shape|]; [|done].
  destruct acc as [[[b bp] bc]|]; simpl; [|done]. unfold cmp_lt, rank, lex, on; simpl.
  destruct (Z.compare_spec p bp), (Z.compare_spec (sh_CapacityUnits shape) bc);
    repeat match goal with |- context [?a <? ?b] => destruct (Z.ltb_spec a b) end;
    repeat match goal with |- context [?a =? ?b] => destruct (Z.eqb_spec a b) end; simpl; try done; lia.
Qed.

Lemma pick_fold g items acc :
  fold_left (pick_step g) items acc = fold_left (keep_best (cmp_lt rank)) (omap (eligible g) items) acc.
Proof.
  revert acc. induction items as [|t items IH]; intros acc; simpl; [done|].
  rewrite IH, pick_step_eligible. by destruct (eligible g t).
Qed.

Lemma matches_extract x g :
  xtrinodeMatchesRoutingGroup x g = negb (g ≡? "") && (extractRoutingGroup x ≡? g).
Proof.
  unfold xtrinodeMatchesRoutingGroup, extractRoutingGroup, defaultDedicatedRoutingGroup.
  destruct (bool_decide (g = "")); [done|]. destruct (spec_Routing (xt_Spec x)) as [r|]; [|done].
  by destruct (bool_decide (rs_RoutingGroup r = "")).
Qed.

(** The runtime the API server picks to resume belongs to the very group
    the gateway routes by, is suspended or reconciling with a shape that
    resolves, and no other such runtime comes before it in priority and then
    capacity; none is picked exactly when there is none or the list fails. *)
Theorem candidate_optimal g w :
  match pickCandidateFromRoutes g w with
  | (Some c, w') => exists items t p u, rt_List w = (Ok items, w') /\ t ∈ items /\
      cand_Namespace c = xt_Namespace t /\ cand_Name c = xt_Name t /\
      eligible g t = Some (t, p, u) /\ extractRoutingGroup t = g /\
      forall t' p' u', t' ∈ items -> eligible g t' = Some (t', p', u') -> p < p' \/ (p = p' /\ u <= u')
  | (None, w') => (exists e, rt_List w = (Err e, w')) \/
      exists items, rt_List w = (Ok items, w') /\ forall t, t ∈ items -> eligible g t = None
  end.
Proof.
  unfold pickCandidateFromRoutes. destruct (rt_List w) as [[items|e] w1]; [|eauto].
  rewrite pick_fold. change (fold_left ?f ?l None) with (fold_best (cmp_lt rank) l).
  destruct (fold_best (cmp_lt rank) (omap (eligible g) items)) as [[[t p] u]|] eqn:Ef.
  - apply (fold_best_least rank) in Ef as [Hin Hmin].
    apply list_elem_of_omap in Hin as (t0 & Ht0 & He).
    assert (t0 = t) as ->.
    { unfold eligible in He. repeat case_match; by simplify_eq. }
    exists items, t, p, u. split_and!; try done.
    + unfold eligible in He. destruct (xtrinodeMatchesRoutingGroup t g) eqn:Em; [|done].
      rewrite matches_extract in Em. apply andb_true_iff in Em as [_ Em]. by apply bool_decide_eq_true in Em.
    + intros t' p' u' Ht' He'. rewrite list.Forall_forall in Hmin.
      specialize (Hmin (t', p', u')). unfold rank, lex, on in Hmin; simpl in Hmin.
      assert (Hin : (t', p', u') ∈ omap (eligible g) items) by (apply list_elem_of_omap; eauto).
      specialize (Hmin Hin). destruct (Z.compare_spec p' p); [subst|done|lia].
      destruct (Z.compare_spec u' u); [lia|done|lia].
  - right. exists items. split; [done|]. apply fold_best_None in Ef. intros t Ht.
    destruct (eligible g t) as [x|] eqn:Ee; [|done].
    assert (x ∈ omap (eligible g) items) as Hx by (apply list_elem_of_omap; eauto).
    rewrite Ef in Hx. by apply elem_of_nil in Hx.
Qed.

(** ** Writing annotations *)

(** A write of [annotate]: [x1] is what it stored over [x0]. *)
Definition annotated (f : Time -> gmap string string -> gmap string string) (ns n : string)
    (x0 x1 : XTrinode) : Prop :=
  xt_Namespace x0 = ns /\ xt_Name x0 = n /\ same_object x1 x0 /\
  (exists t, xt_Annotations x1 = f t (xt_Annotations x0)) /\
  xt_Spec x1 = xt_Spec x0 /\ xt_Labels x1 = xt_Labels x0 /\ xt_Status x1 = xt_Status x0.

Definition annotate_effect f ns n (w : W) (r : option E * W) : Prop :=
  ls_log r.2 = ls_log w /\
  match r.1 with
  | None => exists x0 x1, rt_log r.2 = rt_log w ++ [(Some x0, Some x1)] /\ annotated f ns n x0 x1
  | Some _ => rt_log r.2 = rt_log w
  end.

Lemma annotate_spec f ns n w : annotate_effect f ns n w (annotate f ns n w).
Proof.
  unfold annotate, annotate_effect. pose proof (rt_get_log ns n w) as Hg. pose proof (rt_get_frame ns n w) as Hf.
  destruct (rt_Get ns n w) as [[x|e] w1] eqn:Eg; simpl in *; [|done].
  apply rt_get_ok in Eg as (Hs & Hns & Hn). set (y := set_Annotations _ x).
  pose proof (rt_update_seen y w1 x Hs) as Hs'. pose proof (rt_update_frame y w1) as Hfu.
  destruct (rt_Update y w1) as [[e|] w2] eqn:Eu; simpl in *.
  - apply rt_update_err in Eu. split; congruence.
  - apply rt_update_ok in Eu as (x0 & x1 & Hl & Hs0 & Ho & Hv & Ho1 & Ha & Hsp & Hlb & Hst).
    assert (x0 = x) as -> by (by eapply rt_version_unique).
    split; [congruence|]. exists x, x1. rewrite Hl, Hg. split; [done|].
    repeat split; try done; try apply Ho1. eexists. exact Ha.
Qed.

Lemma RetryOnConflict_annotate f ns n w :
  annotate_effect f ns n w (RetryOnConflict (annotate f ns n) w).
Proof.
  destruct retry_on_conflict as [k Hk]. rewrite Hk. revert w. clear Hk.
  induction k as [|k IH]; intros w; simpl; pose proof (annotate_spec f ns n w) as Hs;
    unfold annotate_effect in Hs; destruct (annotate f ns n w) as [[e|] w1]; simpl in Hs;
    try exact Hs; destruct (IsConflict e); try exact Hs.
  destruct Hs as [Hl Hr]. specialize (IH w1). unfold annotate_effect in IH |- *.
  by rewrite Hl, Hr in IH.
Qed.

(** ** Lease effects *)

Lemma AcquireLease_frame lm now key kt w :
  rt_log (AcquireLease hash8 lm now key kt w).2 = rt_log w.
Proof.
  unfold AcquireLease, createLease, updateLease.
  pose proof (lease_get_frame (makeLeaseNameFromKey hash8 key kt) w) as H0'.
  destruct (ls_Get _ w) as [[l|e] w1]; simpl in *.
  - destruct (time_before _ now); simpl; [|done].
    match goal with |- context [ls_Update ?n ?l w1] => pose proof (lease_update_frame n l w1) as Hu;
      destruct (ls_Update n l w1) as [[] w2] end; simpl in *; [congruence|].
    match goal with |- context [ls_Get ?n w2] => pose proof (lease_get_frame n w2) as Hg;
      destruct (ls_Get n w2) as [[] w3] end; simpl in *; congruence.
  - destruct (IsNotFound e); simpl; [|done].
    match goal with |- context [ls_Create ?n ?l w1] => pose proof (lease_create_frame n l w1) as Hu;
      destruct (ls_Create n l w1) as [[|e'] w2] end; simpl in *; [congruence|].
    destruct (IsAlreadyExists e'); simpl; [|congruence].
    match goal with |- context [ls_Get ?n w2] => pose proof (lease_get_frame n w2) as Hg;
      destruct (ls_Get n w2) as [[] w3] end; simpl in *; congruence.
Qed.

(** A release removes at most the lease it names. *)
Lemma ReleaseLease_effect lm key kt w :
  let r := ReleaseLease hash8 lm key kt w in
  rt_log r.2 = rt_log w /\
  (ls_log r.2 = ls_log w \/
   exists l0, ls_log r.2 = ls_log w ++ [mkWrite (makeLeaseNameFromKey hash8 key kt) (Some l0) None]).
Proof.
  unfold ReleaseLease. set (n := makeLeaseNameFromKey hash8 key kt).
  pose proof (lease_get_frame n w) as Hf. pose proof (ls_get_log n w) as Hg.
  destruct (ls_Get n w) as [[l|e] w1]; simpl in *; [|by auto].
  case_bool_decide; simpl; [|by auto].
  pose proof (lease_delete_frame n w1) as Hfd. destruct (ls_Delete n w1) as [[e|] w2] eqn:Ed; simpl in *.
  - apply ls_delete_err in Ed. split; [congruence|left; congruence].
  - apply ls_delete_ok in Ed as [l0 Hl]. split; [congruence|]. right. exists l0. congruence.
Qed.

(** A lease taken at some clock by this replica under the name of a key. *)
Definition taken (s : Server) (key kt : string) (x : lease_write) : Prop :=
  lw_name x = makeLeaseNameFromKey hash8 key kt /\
  exists now, takes now (lm_holderIdentity (srv_leaseManager s)) x.

Lemma acquire_effect s now key kt w :
  match AcquireLease hash8 (srv_leaseManager s) now key kt w with
  | (Ok r, w') => rt_log w' = rt_log w /\
      if lr_Acquired r then exists x, ls_log w' = ls_log w ++ [x] /\ taken s key kt x
      else ls_log w' = ls_log w
  | (Err _, w') => rt_log w' = rt_log w /\ ls_log w' = ls_log w
  end.
Proof.
  pose proof (AcquireLease_log hash8 (srv_leaseManager s) now key kt w) as Hl.
  pose proof (AcquireLease_frame (srv_leaseManager s) now key kt w) as Hf.
  destruct (AcquireLease _ _ _ _ _ _) as [[r|e] w']; simpl in Hf; [|done].
  split; [done|]. destruct (lr_Acquired r); [|done]. destruct Hl as (x & Hx & Hn & Ht).
  exists x. split; [done|]. split; [done|eauto].
Qed.

(** ** Effects of the handlers *)

Definition unchanged (w w' : W) : Prop := rt_log w' = rt_log w /\ ls_log w' = ls_log w.

(** The lease taken for [key] was given back by the call of [ReleaseLease] that
    produced [w']. *)
Definition given_back (s : Server) (key kt : string) (w w' : W) : Prop :=
  exists x w1, ls_log w1 = ls_log w ++ [x] /\ taken s key kt x /\
    w' = (ReleaseLease hash8 (srv_leaseManager s) key kt w1).2.

(** Suspending or resuming one runtime.  A 202 means that this replica
    took the lease of the runtime and wrote the runtime exactly once, setting
    the operation's annotations on the content it replaced and nothing else; a
    503 means nothing was written; any other reply means the runtime was not
    written and a lease that was taken has been given back. *)
Theorem leased_operation_effect s title op desired kt f ns n w r w' :
  leasedOperation s title op desired kt f ns n w = (r, w') ->
  (rp_status r = StatusAccepted /\
     (exists x, ls_log w' = ls_log w ++ [x] /\ taken s (MakeRuntimeKey ns n) kt x) /\
     (exists x0 x1, rt_log w' = rt_log w ++ [(Some x0, Some x1)] /\ annotated f ns n x0 x1)) \/
  (rp_status r = StatusServiceUnavailable /\ unchanged w w') \/
  (rp_status r ∈ [StatusNotFound; StatusInternalServerError] /\ rt_log w' = rt_log w /\
     (unchanged w w' \/ given_back s (MakeRuntimeKey ns n) kt w w')).
Proof.
  unfold leasedOperation. pose proof (acquire_effect s (rt_now w) (MakeRuntimeKey ns n) kt w) as Ha.
  destruct (AcquireLease _ _ _ _ _ _) as [[lr|e] w1].
  - destruct Ha as [Hrt Hls]. destruct (lr_Acquired lr); simpl.
    + destruct Hls as (x & Hx & Htk). pose proof (RetryOnConflict_annotate f ns n w1) as [Hl Hr].
      destruct (RetryOnConflict _ w1) as [[e|] w2]; simpl in *; intros [= <- <-].
      * right; right. split; [destruct (IsNotFound e); [left|right; left]|].
        destruct (ReleaseLease_effect (srv_leaseManager s) (MakeRuntimeKey ns n) kt w2) as [Hrr _].
        split; [congruence|]. right. exists x, w2. split; [congruence|done].
      * left. split; [done|]. split; [exists x; split; [congruence|done]|].
        destruct Hr as (x0 & x1 & Hrl & Han). exists x0, x1. split; [congruence|done].
    + intros [= <- <-]. right; left. done.
  - intros [= <- <-]. right; right. destruct Ha. split; [right; left|]. split; [done|]. by left.
Qed.

(** What the pool gate does to the leases. *)
Lemma tryPoolGate_effect s g w :
  let '(res, w') := tryPoolGate s g w in
  rt_log w' = rt_log w /\
  match res with
  | Some (r, [t]) => rp_status r = StatusAccepted /\ tk_key t = MakePoolKey g /\
      tk_keyType t = LeaseKeyTypePool /\ (exists c, tk_namespace t = cand_Namespace c /\ tk_name t = cand_Name c) /\
      exists x, ls_log w' = ls_log w ++ [x] /\ taken s (tk_key t) (tk_keyType t) x
  | Some (r, _ :: _ :: _) => False
  | Some (r, []) => rp_status r <> StatusAccepted /\
      (ls_log w' = ls_log w \/ given_back s (MakePoolKey g) LeaseKeyTypePool w w')
  | None => given_back s (MakePoolKey g) LeaseKeyTypePool w w'
  end.
Proof.
  unfold tryPoolGate. pose proof (acquire_effect s (rt_now w) (MakePoolKey g) LeaseKeyTypePool w) as Ha.
  destruct (AcquireLease _ _ _ _ _ _) as [[lr|e] w1]; [|destruct Ha; simpl; auto].
  destruct Ha as [Hrt Hls]. destruct (lr_Acquired lr); simpl; [|auto].
  destruct Hls as (x & Hx & Htk). unfold isPoolEmpty, pickCandidateFromRoutes.
  assert (Hrel : forall w2, rt_log w2 = rt_log w1 -> ls_log w2 = ls_log w1 ->
    rt_log (ReleaseLease hash8 (srv_leaseManager s) (MakePoolKey g) LeaseKeyTypePool w2).2 = rt_log w /\
    given_back s (MakePoolKey g) LeaseKeyTypePool w
      (ReleaseLease hash8 (srv_leaseManager s) (MakePoolKey g) LeaseKeyTypePool w2).2).
  { intros w2 Hr Hl. destruct (ReleaseLease_effect (srv_leaseManager s) (MakePoolKey g) LeaseKeyTypePool w2) as [Hrr _].
    split; [congruence|]. exists x, w2. split; [congruence|done]. }
  pose proof (rt_list_log w1) as Hl1. pose proof (rt_list_frame w1) as Hf1.
  destruct (rt_List w1) as [items w2] eqn:E1; simpl in Hl1, Hf1.
  destruct (match items with Ok _ => _ | Err _ => _ end) as [empty w3] eqn:E2.
  assert (w3 = w2) as -> by (destruct items; by simplify_eq).
  destruct empty; simpl; [|by apply Hrel].
  pose proof (rt_list_log w2) as Hl2. pose proof (rt_list_frame w2) as Hf2.
  destruct (rt_List w2) as [items' w4]; simpl in Hl2, Hf2.
  assert (Hnone : rt_log (ReleaseLease hash8 (srv_leaseManager s) (MakePoolKey g) LeaseKeyTypePool w4).2 = rt_log w /\
    given_back s (MakePoolKey g) LeaseKeyTypePool w
      (ReleaseLease hash8 (srv_leaseManager s) (MakePoolKey g) LeaseKeyTypePool w4).2) by (apply Hrel; congruence).
  destruct items' as [items'|e']; [|destruct Hnone; auto].
  destruct (fold_left _ _ _) as [[[best p] u]|]; [|destruct Hnone; auto].
  split; [congruence|]. split_and!; try done.
  - by exists (mkCandidate (xt_Namespace best) (xt_Name best)).
  - exists x. split; [congruence|done].
Qed.

(** A started goroutine holds the lease its key names: the last lease write is
    this replica taking it. *)
Definition holds_lease (s : Server) (t : task) (w w' : W) : Prop :=
  exists pre x, ls_log w' = pre ++ [x] /\ ls_log w `prefix_of` pre /\ taken s (tk_key t) (tk_keyType t) x.

Lemma runtimeGate_effect s ns n w :
  let '(r, ts, w') := runtimeGate s ns n w in
  rt_log w' = rt_log w /\ ls_log w `prefix_of` ls_log w' /\
  match ts with
  | [] => rp_status r = StatusAccepted -> ns = "" \/ n = ""
  | [t] => rp_status r = StatusAccepted /\ t = mkTask ns n (MakeRuntimeKey ns n) LeaseKeyTypeRuntime /\
           holds_lease s t w w'
  | _ => False
  end.
Proof.
  unfold runtimeGate. pose proof (acquire_effect s (rt_now w) (MakeRuntimeKey ns n) LeaseKeyTypeRuntime w) as Ha.
  destruct (AcquireLease _ _ _ _ _ _) as [[lr|e] w1]; [|destruct Ha as [? ->]; simpl; done].
  destruct Ha as [Hrt Hls]. destruct (lr_Acquired lr); simpl; [|by rewrite Hls].
  destruct Hls as (x & Hx & Htk). split; [done|]. split; [rewrite Hx; by apply prefix_app_r|].
  destruct (bool_decide_reflect (ns = "")); simpl; [by auto|].
  destruct (bool_decide_reflect (n = "")); simpl; [by auto|].
  split; [done|]. split; [done|]. by exists (ls_log w), x.
Qed.

Lemma given_back_prefix s key kt w w' : given_back s key kt w w' -> ls_log w `prefix_of` ls_log w'.
Proof.
  intros (x & w1 & Hw1 & _ & ->).
  destruct (ReleaseLease_effect (srv_leaseManager s) key kt w1) as [_ [->|[l0 ->]]]; rewrite Hw1.
  - by apply prefix_app_r.
  - rewrite <- (assoc_L (++)). by apply prefix_app_r.
Qed.

(** At most one goroutine, under a lease just taken, and no runtime written. *)
Definition resume_outcome (s : Server) (w : W) (res : reply * list task * W) : Prop :=
  let '(r, ts, w') := res in
  rt_log w' = rt_log w /\ ls_log w `prefix_of` ls_log w' /\
  (ts = [] \/ exists t, ts = [t] /\ rp_status r = StatusAccepted /\ holds_lease s t w w' /\
     (tk_keyType t = LeaseKeyTypeRuntime /\ tk_key t = MakeRuntimeKey (tk_namespace t) (tk_name t) \/
      tk_keyType t = LeaseKeyTypePool /\ exists g, tk_key t = MakePoolKey g)).


(** A started goroutine either writes its runtime exactly once, setting the
    resume annotations on the content it replaced and nothing else, and keeps
    the lease; or writes no runtime and gives up the lease. *)
Theorem resume_task_effect s t w :
  let w' := triggerResumeWithLeaseCleanup s t w in
  (ls_log w' = ls_log w /\ exists x0 x1, rt_log w' = rt_log w ++ [(Some x0, Some x1)] /\
     annotated resume_annotations (tk_namespace t) (tk_name t) x0 x1) \/
  (rt_log w' = rt_log w /\
     exists w1, unchanged w w1 /\ w' = (ReleaseLease hash8 (srv_leaseManager s) (tk_key t) (tk_keyType t) w1).2).
Proof.
  unfold triggerResumeWithLeaseCleanup, triggerResume.
  pose proof (RetryOnConflict_annotate resume_annotations (tk_namespace t) (tk_name t) w) as [Hl Hr].
  destruct (RetryOnConflict _ w) as [[e|] w1]; simpl in *; [right|left; eauto].
  destruct (ReleaseLease_effect (srv_leaseManager s) (tk_key t) (tk_keyType t) w1) as [Hrr _].
  split; [congruence|]. by exists w1.
Qed.

(** ** Authorisation end to end *)

(** The request asks to resume, through either endpoint. *)
Definition asks_resume (s : Server) (rq : request) : Prop :=
  rq_Method rq = "POST" /\
  (rq_Path rq = APIPath (srv_config s) +:+ "/resume" \/
   exists ns n rest, parsePath (str_drop (String.length (APIPath (srv_config s) +:+ "/runtimes/")) (rq_Path rq)) =
     ns :: n :: "resume" :: rest).

(** What a handler may do for a principal: nothing, or an authorised action. *)
Definition permitted (s : Server) (rq : request) (principal : option authPrincipal)
    (w : W) (res : reply * list task * W) : Prop :=
  (res.1.2 = [] /\ res.2 = w) \/
  exists action, authorize (sc_auth (srv_config s)) principal action = Allow /\
    (action = apiActionRuntimeResume -> asks_resume s rq).

Lemma guarded_permitted s rq principal action k w :
  (action = apiActionRuntimeResume -> asks_resume s rq) ->
  permitted s rq principal w (no_tasks (guarded s principal action k w)).
Proof.
  intros Ha. unfold permitted, guarded. destruct (authorize _ principal action) eqn:Ea; simpl; auto.
  right. eauto.
Qed.

Lemma refused_permitted s rq principal r w : permitted s rq principal w (no_tasks (r, w)).
Proof. by left. Qed.

Lemma handleRuntimes_permitted s rq principal w :
  permitted s rq principal w (no_tasks (handleRuntimes s principal rq w)).
Proof.
  unfold handleRuntimes. case_bool_decide; [by apply guarded_permitted|].
  case_bool_decide; [by apply guarded_permitted|]. apply refused_permitted.
Qed.

Lemma handleRuntime_permitted s rq principal w :
  permitted s rq principal w (no_tasks (handleRuntime s principal rq w)).
Proof.
  unfold handleRuntime. destruct (parsePath _) as [|ns [|n rest]] eqn:Ep; try apply refused_permitted.
  destruct (validateNamespace ns); [apply refused_permitted|].
  destruct (validateK8sName n); [apply refused_permitted|].
  repeat (case_bool_decide; simpl; try apply refused_permitted); try by apply guarded_permitted.
  apply guarded_permitted. intros _. split; [done|]. right. destruct rest as [|a rest]; [done|].
  subst a. eauto.
Qed.

Lemma unified_permitted s rq principal w :
  rq_Path rq = APIPath (srv_config s) +:+ "/resume" ->
  permitted s rq principal w (handleUnifiedResume s (rq_Method rq) principal (rq_Body rq) w).
Proof.
  intros Hp. unfold handleUnifiedResume. case_bool_decide as Hm; simpl; [|by left].
  destruct (authorize _ principal apiActionRuntimeResume) eqn:Ea; simpl; [|by left..].
  right. exists apiActionRuntimeResume. split; [done|]. intros _. split; [done|by left].
Qed.

Lemma apiHandler_permitted s rq next w r ts w' :
  AuthEnabled (sc_auth (srv_config s)) = true ->
  (forall principal, permitted s rq principal w (next principal w)) ->
  apiHandler s rq next w = (r, ts, w') ->
  (ts = [] /\ w' = w) \/
  exists action, granted (sc_auth (srv_config s)) (rq_Authorization rq) action = true /\
    (action = apiActionRuntimeResume -> asks_resume s rq).
Proof.
  intros Hen Hn. unfold apiHandler. case_bool_decide; [intros [= <- <- <-]; auto|].
  destruct (withBearerAuth _ _) as [|principal] eqn:Eb; [intros [= <- <- <-]; auto|].
  specialize (Hn principal). destruct (next principal w) as [[r0 ts0] w0]. intros [= <- <- <-].
  destruct Hn as [[? ?]|(action & Ha & Hr)]; [auto|]. right. exists action. split; [|done].
  unfold granted. by rewrite Eb, Ha.
Qed.

(** C34: With authentication on, a request that changes anything or starts a
    resume presents the admin token, or the resume token on a resume request;
    any other request leaves the cluster as it was. *)
Theorem api_mutations_authorised s rq w r ts w' :
  AuthEnabled (sc_auth (srv_config s)) = true ->
  serve s rq w = (r, ts, w') ->
  (ts = [] /\ w' = w) \/
  (AdminToken (sc_auth (srv_config s)) <> ResumeOnlyToken (sc_auth (srv_config s)) /\
   (presents (rq_Authorization rq) (AdminToken (sc_auth (srv_config s))) \/
    presents (rq_Authorization rq) (ResumeOnlyToken (sc_auth (srv_config s))) /\ asks_resume s rq)).
Proof.
  intros Hen Hs.
  assert (Hg : (ts = [] /\ w' = w) \/
    exists action, granted (sc_auth (srv_config s)) (rq_Authorization rq) action = true /\
      (action = apiActionRuntimeResume -> asks_resume s rq)).
  { unfold serve in Hs.
    case_bool_decide; [eapply apiHandler_permitted; [done| |exact Hs]; intros; apply handleRuntimes_permitted|].
    destruct (HasPrefix _ _); [eapply apiHandler_permitted; [done| |exact Hs]; intros; apply handleRuntime_permitted|].
    case_bool_decide; [eapply apiHandler_permitted; [done| |exact Hs]; intros; by apply unified_permitted|].
    injection Hs as <- <- <-. auto. }
  destruct Hg as [?|(action & Hg & Hr)]; [by left|]. right.
  apply granted_iff in Hg as [?|(_ & Hne & Hp)]; [congruence|]. split; [done|].
  destruct Hp as [Hp|[Hp ->]]; [by left|right; auto].
Qed.

(** ** Retry-After *)

(** Every gated reply tells the client to wait between 1 and 120 seconds,
    the time left on the lease when that lies in the range, in the header and
    in the body alike. *)
Theorem gated_retry_after_bounds now until key kt holder :
  let r := respondLeaseGated now key kt (mkLeaseResult false until holder) in
  exists n, 1 <= n <= 120 /\ ("Retry-After", fmt_d n) ∈ rp_headers r /\
    (forall b, rp_body r = BResume b -> rs_RetryAfter b = n) /\
    (Second <= until - now < 121 * Second -> n = (until - now) / Second).
Proof.
  unfold respondLeaseGated; simpl. exists (calculateRetryAfter now until).
  unfold calculateRetryAfter, APIServerMinRetryAfterSeconds, APIServerMaxRetryAfterSeconds.
  split; [destruct (Z.ltb_spec (seconds_until now until) 1); [lia|]; destruct (Z.ltb_spec 120 (seconds_until now until)); lia|].
  split; [left|]. split; [intros b [= <-]; done|]. intros Hr.
  assert (Hs : seconds_until now until = (until - now) / Second).
  { unfold seconds_until. rewrite Z.quot_div_nonneg; unfold time_sub, int64_min, int64_max, Second in *; [f_equal; lia|lia..]. }
  rewrite Hs. assert (1 <= (until - now) / Second < 121).
  { unfold Second in *. split; [apply Z.div_le_lower_bound; lia|apply Z.div_lt_upper_bound; lia]. }
  destruct (Z.ltb_spec ((until - now) / Second) 1); [lia|].
  destruct (Z.ltb_spec 120 ((until - now) / Second)); lia.
Qed.

End server.

(** ** A concrete cluster

    Leases as in [lease_server]; every state a runtime has had, in order, the
    resource version being the position.  [aw_pending] are writes of other
    clients, one slot per call that reads or writes runtimes. *)

Record cluster := mkCluster {
  aw_leases : lease_server;
  aw_history : list (XTrinode * bool);       (* false: deleted *)
  aw_pending : list (option XTrinode);
  aw_log : list (option XTrinode * option XTrinode);
  aw_clock : Time
}.

Definition on_leases {A} (f : lease_server -> A * lease_server) (w : cluster) : A * cluster :=
  let '(a, l) := f (aw_leases w) in
  (a, mkCluster l (aw_history w) (aw_pending w) (aw_log w) (aw_clock w)).

Definition set_version (i : nat) : XTrinode -> XTrinode := set_ResourceVersion (Z.of_nat i).

Definition push (x : XTrinode) (alive : bool) (w : cluster) : cluster :=
  mkCluster (aw_leases w) (aw_history w ++ [(x, alive)]) (aw_pending w) (aw_log w) (aw_clock w).

Definition interfere (w : cluster) : cluster :=
  match aw_pending w with
  | [] => w
  | o :: p =>
      let w := mkCluster (aw_leases w) (aw_history w) p (aw_log w) (aw_clock w) in
      match o with Some x => push x true w | None => w end
  end.

Fixpoint latest (ns n : string) (i : nat) (h : list (XTrinode * bool)) (acc : option XTrinode) :
    option XTrinode :=
  match h with
  | [] => acc
  | (x, alive) :: h =>
      latest ns n (S i) h
        (if (xt_Namespace x ≡? ns) && (xt_Name x ≡? n)
         then (if (alive : bool) then Some (set_version i x) else None) else acc)
  end.

Definition current (ns n : string) (w : cluster) : option XTrinode := latest ns n 0 (aw_history w) None.

Definition logged (pre post : option XTrinode) (w : cluster) : cluster :=
  mkCluster (aw_leases w) (aw_history w) (aw_pending w) (aw_log w ++ [(pre, post)]) (aw_clock w).

Definition aw_List (w : cluster) : result kube_error (list XTrinode) * cluster :=
  (Ok (omap (fun '(i, (x, _)) =>
         match current (xt_Namespace x) (xt_Name x) w with
         | Some y => if xt_ResourceVersion y =? Z.of_nat i then Some y else None
         | None => None
         end) (imap pair (aw_history w))), w).

Definition aw_Get (ns n : string) (w : cluster) : result kube_error XTrinode * cluster :=
  let w := interfere w in
  (match current ns n w with Some x => Ok x | None => Err KNotFound end, w).

Definition aw_Create (x : XTrinode) (w : cluster) : result kube_error XTrinode * cluster :=
  let w := interfere w in
  match current (xt_Namespace x) (xt_Name x) w with
  | Some _ => (Err KAlreadyExists, w)
  | None => (Ok x, logged None (Some x) (push x true w))
  end.

Definition aw_Update (x : XTrinode) (w : cluster) : option kube_error * cluster :=
  let w := interfere w in
  match current (xt_Namespace x) (xt_Name x) w with
  | None => (Some KNotFound, w)
  | Some x0 =>
      if xt_ResourceVersion x0 =? xt_ResourceVersion x then
        let x1 := set_Status (xt_Status x0) x in (None, logged (Some x0) (Some x1) (push x1 true w))
      else (Some KConflict, w)
  end.

Definition aw_Delete (ns n : string) (w : cluster) : option kube_error * cluster :=
  let w := interfere w in
  match current ns n w with
  | Some x0 => (None, logged (Some x0) None (push x0 false w))
  | None => (Some KNotFound, w)
  end.

Definition aw_seen (w : cluster) (x : XTrinode) : Prop :=
  exists i x0, aw_history w !! i = Some (x0, true) /\ x = set_version i x0.

Lemma push_seen x b w y : aw_seen w y -> aw_seen (push x b w) y.
Proof. intros (i & x0 & Hi & ->). exists i, x0. split; [|done]. by apply lookup_app_l_Some. Qed.

Lemma interfere_seen w y : aw_seen w y -> aw_seen (interfere w) y.
Proof. unfold interfere. destruct (aw_pending w) as [|[x|] p]; [done| |done]. intros Hs. by apply push_seen. Qed.

Lemma interfere_frame w : aw_log (interfere w) = aw_log w /\ aw_leases (interfere w) = aw_leases w.
Proof. unfold interfere. by destruct (aw_pending w) as [|[x|] p]. Qed.

Lemma latest_seen ns n i h acc x :
  latest ns n i h acc = Some x ->
  acc = Some x \/ exists j x0, h !! j = Some (x0, true) /\ x = set_version (i + j) x0 /\
    xt_Namespace x0 = ns /\ xt_Name x0 = n.
Proof.
  revert i acc. induction h as [|[y alive] h IH]; intros i acc; simpl; [by left|].
  intros Hl. apply IH in Hl as [Hl|(j & x0 & Hj & -> & Ho)].
  - destruct (bool_decide_reflect (xt_Namespace y = ns)) as [Hns|]; [|by left].
    destruct (bool_decide_reflect (xt_Name y = n)) as [Hn|]; [|by left]. simpl in Hl.
    destruct alive; [|done]. injection Hl as <-. right. exists 0%nat, y. by rewrite Nat.add_0_r.
  - right. exists (S j), x0. split; [done|]. by rewrite Nat.add_succ_r.
Qed.

Lemma current_seen ns n w x :
  current ns n w = Some x -> aw_seen w x /\ xt_Namespace x = ns /\ xt_Name x = n.
Proof.
  intros [?|(j & x0 & Hj & -> & Hns & Hn)]%latest_seen; [done|]. split; [by exists j, x0|done].
Qed.

#[export] Program Instance cluster_runtimes : RuntimeClient kube_error cluster := {
  rt_List := aw_List; rt_Get := aw_Get; rt_Create := aw_Create; rt_Update := aw_Update;
  rt_Delete := aw_Delete; rt_now := aw_clock; rt_log := aw_log; rt_seen := aw_seen
}.
Next Obligation. done. Qed.
Next Obligation. intros ns n w. apply interfere_frame. Qed.
Next Obligation.
  intros ns n w x w'. unfold aw_Get. destruct (current ns n (interfere w)) eqn:Ec; [|done].
  intros [= -> <-]. by apply current_seen.
Qed.
Next Obligation.
  intros x w w'. unfold aw_Update. destruct (current _ _ (interfere w)) as [x0|] eqn:Ec; [|done].
  destruct (Z.eqb_spec (xt_ResourceVersion x0) (xt_ResourceVersion x)); [|done]. intros [= <-].
  apply current_seen in Ec as (Hs & Hns & Hn). eexists x0, _. simpl.
  rewrite (proj1 (interfere_frame w)). split; [done|]. split; [by apply (push_seen _ true)|]. done.
Qed.
Next Obligation.
  intros x w e w'. unfold aw_Update. destruct (current _ _ (interfere w)); simpl.
  - destruct (_ =? _); [done|]. intros [= _ <-]. apply interfere_frame.
  - intros [= _ <-]. apply interfere_frame.
Qed.
Next Obligation.
  intros x w y Hs. unfold aw_Update. apply interfere_seen in Hs.
  destruct (current _ _ (interfere w)); simpl; [|done]. destruct (_ =? _); [|done]. by apply (push_seen _ true).
Qed.
Next Obligation.
  intros w x y (i & x0 & Hi & ->) (j & y0 & Hj & ->) _. simpl. intros E%Nat2Z.inj. subst. congruence.
Qed.

#[export] Program Instance cluster_leases : LeaseClient kube_error cluster := {
  ls_Get := fun n => on_leases (lv_Get n);
  ls_Create := fun n l => on_leases (lv_Create n l);
  ls_Update := fun n l => on_leases (lv_Update n l);
  ls_Delete := fun n => on_leases (lv_Delete n);
  ls_log := fun w => lv_log (aw_leases w);
  ls_seen := fun w => lv_seen (aw_leases w)
}.
Next Obligation.
  intros n w. pose proof (@ls_get_log _ _ server_leases n (aw_leases w)) as H. simpl in H |- *. unfold on_leases.
  by destruct (lv_Get n (aw_leases w)).
Qed.
Next Obligation.
  intros n w l w' H. unfold on_leases in H. destruct (lv_Get n (aw_leases w)) as [r lw] eqn:E.
  injection H as -> <-. by apply (@ls_get_ok _ _ server_leases n (aw_leases w) l lw).
Qed.
Next Obligation.
  intros n l w l' w' H. unfold on_leases in H. destruct (lv_Create n l (aw_leases w)) as [r lw] eqn:E.
  injection H as -> <-. by apply (@ls_create_ok _ _ server_leases n l (aw_leases w) l' lw).
Qed.
Next Obligation.
  intros n l w e w' H. unfold on_leases in H. destruct (lv_Create n l (aw_leases w)) as [r lw] eqn:E.
  injection H as -> <-. by apply (@ls_create_err _ _ server_leases n l (aw_leases w) e lw).
Qed.
Next Obligation.
  intros n l w l' w' H. unfold on_leases in H. destruct (lv_Update n l (aw_leases w)) as [r lw] eqn:E.
  injection H as -> <-. by apply (@ls_update_ok _ _ server_leases n l (aw_leases w) l' lw).
Qed.
Next Obligation.
  intros n l w e w' H. unfold on_leases in H. destruct (lv_Update n l (aw_leases w)) as [r lw] eqn:E.
  injection H as -> <-. by apply (@ls_update_err _ _ server_leases n l (aw_leases w) e lw).
Qed.
Next Obligation.
  intros n w w' H. unfold on_leases in H. destruct (lv_Delete n (aw_leases w)) as [r lw] eqn:E.
  injection H as -> <-. by apply (@ls_delete_ok _ _ server_leases n (aw_leases w) lw).
Qed.
Next Obligation.
  intros n w e w' H. unfold on_leases in H. destruct (lv_Delete n (aw_leases w)) as [r lw] eqn:E.
  injection H as -> <-. by apply (@ls_delete_err _ _ server_leases n (aw_leases w) e lw).
Qed.
Next Obligation.
  intros n l w m l' Hs. unfold on_leases. pose proof (@ls_update_seen _ _ server_leases n l (aw_leases w) m l' Hs) as H.
  simpl in H. by destruct (lv_Update n l (aw_leases w)).
Qed.
Next Obligation. intros w n l l'. apply (@ls_version_unique _ _ server_leases (aw_leases w)). Qed.

#[export] Instance cluster_world : ApiWorld kube_error cluster.
Proof.
  assert (Hf : forall A (f : lease_server -> A * lease_server) w, aw_log (on_leases f w).2 = aw_log w).
  { intros A f w. unfold on_leases. by destruct (f (aw_leases w)). }
  split; intros; simpl; try apply Hf; try done.
  - by rewrite (proj2 (interfere_frame w)).
  - unfold aw_Update. destruct (current _ _ _); simpl; [destruct (_ =? _); simpl|];
      by rewrite (proj2 (interfere_frame w)).
Qed.

#[export] Instance five_tries : ConflictRetry kube_error.
Proof. refine {| RetryOnConflict := fun W fn w => conflict_loop 4 fn w |}. by exists 4%nat. Defined.

(** ** Witnesses *)

Definition ex_sleeping (name : string) (annotations : gmap string string) : XTrinode :=
  mkXTrinode name "a" 1 0 0 None [] ∅ annotations
    (mkSpec "s" None None true None None None None None None
       (Some (mkRouting "pool" "" "" "" false None)) None None None None)
    (status_of_phase "Suspended").

(** Another client annotates the runtime between the read and the write. *)
Definition ex_cluster : cluster :=
  mkCluster ex_leases [(ex_sleeping "x" ∅, true)]
    [None; Some (ex_sleeping "x" {["note" := "kept"]})] [] Hour.

Definition ex_api_server : Server :=
  mkServer (mkServerConfig "/api/v1" 0 (mkBearerAuth true "admin-token" "resume-token") []) ex_lm.

Definition ex_operation : reply * cluster :=
  leasedOperation ex_hash ex_api_server "Suspend" "suspend" "suspended" LeaseKeyTypeSuspend suspend_annotations
    "a" "x" ex_cluster.

Lemma leased_operation_effect_witness :
  rp_status ex_operation.1 = StatusAccepted /\
  (list.last (rt_log ex_operation.2) ≫= fun p => p.2 ≫= fun x => xt_Annotations x !! "note") = Some "kept" /\
  exists x, ls_log ex_operation.2 = [x] /\
    taken ex_hash ex_api_server (MakeRuntimeKey "a" "x") LeaseKeyTypeSuspend x.
Proof.
  split; [vm_compute; reflexivity|]. split; [vm_compute; reflexivity|].
  destruct (leased_operation_effect ex_hash ex_api_server "Suspend" "suspend" "suspended" LeaseKeyTypeSuspend
    suspend_annotations "a" "x" ex_cluster ex_operation.1 ex_operation.2 (surjective_pairing _))
    as [(_ & Hx & _)|[[Hs _]|[Hs _]]].
  - exact Hx.
  - vm_compute in Hs. discriminate Hs.
  - exfalso. vm_compute in Hs. apply list_elem_of_In in Hs. simpl in Hs.
    destruct Hs as [Hs|[Hs|Hs]]; [discriminate Hs|discriminate Hs|exact Hs].
Defined.

Definition ex_decode (s : string) : result string UnifiedResumeRequest := Ok (mkUnified s None "" "").

Definition ex_unified : reply * list task * cluster :=
  handleUnifiedResume ex_hash ex_hash16 ex_decode ex_api_server "POST" (Some resumeOnlyPrincipal) "pool" ex_cluster.


Definition ex_request (token : string) : request :=
  mkRequest "POST" "/api/v1/runtimes/a/x/suspend" ("Bearer " +:+ token) "" "id" "".

Definition ex_serve (token : string) : reply * list task * cluster :=
  serve (fun _ => "") ex_hash ex_hash16 ex_decode (fun _ => Err "") (fun _ => Err "") (fun _ => Err "")
    ex_api_server (ex_request token) ex_cluster.

(** The resume token cannot suspend. *)
Lemma api_mutations_authorised_witness :
  rp_status (ex_serve "admin-token").1.1 = StatusAccepted /\
  rp_status (ex_serve "resume-token").1.1 = StatusForbidden /\
  ((ex_serve "resume-token").1.2 = [] /\ (ex_serve "resume-token").2 = ex_cluster \/
   "admin-token" <> "resume-token").
Proof.
  split; [vm_compute; reflexivity|]. split; [vm_compute; reflexivity|].
  destruct (api_mutations_authorised (fun _ => "") ex_hash ex_hash16 ex_decode (fun _ => Err "")
    (fun _ => Err "") (fun _ => Err "") ex_api_server (ex_request "resume-token") ex_cluster
    (ex_serve "resume-token").1.1 (ex_serve "resume-token").1.2 (ex_serve "resume-token").2) as [Hn|[Hne _]].
  - reflexivity.
  - rewrite <- !surjective_pairing. reflexivity.
  - left. exact Hn.
  - right. exact Hne.
Defined.

Definition ex_task : task := mkTask "a" "x" (MakePoolKey "pool") LeaseKeyTypePool.

Lemma resume_task_effect_witness :
  let w' := triggerResumeWithLeaseCleanup ex_hash ex_api_server ex_task ex_cluster in
  ls_log w' = [] /\ exists x0 x1, rt_log w' = [(Some x0, Some x1)] /\
    annotated resume_annotations "a" "x" x0 x1.
Proof.
  destruct (resume_task_effect ex_hash ex_api_server ex_task ex_cluster) as [H|[H _]].
  - exact H.
  - exfalso. vm_compute in H. discriminate H.
Defined.
