(* ===== verification/WakeRequest.v ===== *)
(** * A wake request from the API to the operator

    The API server writes a resume request into annotations and the operator
    reads it back out: the two sides share only the text. *)

From S2P Require Import Prelude GoStrings GoTime GoParse XTrinodeTypes RuntimeShape Status Commands Resume ApiServer.

(** What a request may ask for: nothing, or a 32-bit number of workers and a
    duration, neither negative; a parameter not asked for is not left over from
    an earlier request. *)
Definition well_formed (req : ResumeRuntimeRequest) (m : gmap string string) : Prop :=
  match rr_WakeMinWorkers req with Some n => 0 <= n <= int32_max | None => m !! WakeMinWorkersAnnotation = None end /\
  match rr_WakeTTL req with Some d => 0 <= d <= int64_max | None => m !! WakeTTLAnnotation = None end.

(** No suspend is pending, or it is older. *)
Definition outranks_suspend (now : Time) (m : gmap string string) : Prop :=
  requested m SuspendRequestedAnnotation = true ->
  parseTimestamp (annotation m SuspendRequestedAtAnnotation) < now / Second * Second.

Lemma annotation_insert k v m : annotation (<[k := v]> m) k = v.
Proof. unfold annotation. by rewrite lookup_insert_eq. Qed.

Lemma annotation_insert_ne k k' v m : k <> k' -> annotation (<[k := v]> m) k' = annotation m k'.
Proof. intros Hk. unfold annotation. by rewrite lookup_insert_ne. Qed.

Lemma requested_insert_ne k k' v m : k <> k' -> requested (<[k := v]> m) k' = requested m k'.
Proof. intros Hk. unfold requested. by rewrite lookup_insert_ne. Qed.

Ltac other_key := first
  [ rewrite annotation_insert_ne by (intros [=]) | rewrite requested_insert_ne by (intros [=])
  | rewrite annotation_insert ].

Lemma wake_annotations_other req now m k :
  k <> WakeMinWorkersAnnotation -> k <> WakeTTLAnnotation ->
  wake_annotations req now m !! k = resume_annotations now m !! k.
Proof.
  intros H1 H2. unfold wake_annotations.
  destruct (rr_WakeMinWorkers req), (rr_WakeTTL req); rewrite ?lookup_insert_ne by congruence; done.
Qed.

Lemma fmt_d_nonempty n : 0 <= n <= int32_max -> fmt_d n <> "".
Proof.
  intros Hn Heq. assert (Hp : ParseInt 32 (fmt_d n) = Some n) by (apply ParseInt_fmt_d; unfold int32_min, int32_max in *; lia).
  by rewrite Heq in Hp.
Qed.

Lemma duration_String_nonempty d : in_int64 d -> duration_String d <> "".
Proof. intros Hd Heq. pose proof (ParseDuration_String d Hd) as Hp. by rewrite Heq in Hp. Qed.

(** The two parameters, as written. *)
Lemma wake_workers_text req now m :
  well_formed req m ->
  annotation (wake_annotations req now m) WakeMinWorkersAnnotation = from_option fmt_d "" (rr_WakeMinWorkers req).
Proof.
  intros [Hw _]. unfold wake_annotations, resume_annotations.
  destruct (rr_WakeMinWorkers req) as [n|], (rr_WakeTTL req); simpl; repeat other_key; try done;
    unfold annotation; by rewrite Hw.
Qed.

Lemma wake_ttl_text req now m :
  well_formed req m ->
  annotation (wake_annotations req now m) WakeTTLAnnotation = from_option duration_String "" (rr_WakeTTL req).
Proof.
  intros [_ Ht]. unfold wake_annotations, resume_annotations.
  destruct (rr_WakeMinWorkers req) as [n|], (rr_WakeTTL req); simpl; repeat other_key; try done;
    unfold annotation; by rewrite Ht.
Qed.

Lemma wake_decided req now m :
  printable now -> outranks_suspend now m -> decide_commands (wake_annotations req now m) = DoResume.
Proof.
  intros Hnow Hs. unfold decide_commands, requested, annotation.
  rewrite !wake_annotations_other by done. unfold resume_annotations.
  rewrite lookup_insert_ne, lookup_insert_eq by done. rewrite bool_decide_eq_true_2 by done.
  rewrite lookup_insert_eq, !lookup_insert_ne by done.
  change (m !! SuspendRequestedAnnotation ≡? Some "true") with (requested m SuspendRequestedAnnotation).
  destruct (requested m SuspendRequestedAnnotation) eqn:Er; [|done].
  specialize (Hs Er). unfold annotation in Hs. simpl.
  unfold parseTimestamp at 2. rewrite ParseRFC3339_Format by done. simpl.
  destruct (FormatRFC3339 now ≡? "") eqn:Ef.
  - apply bool_decide_eq_true in Ef. pose proof (ParseRFC3339_Format now Hnow) as Hp. by rewrite Ef in Hp.
  - destruct (Z.ltb_spec (parseTimestamp (default "" (m !! SuspendRequestedAtAnnotation))) (now / Second * Second)); [done|lia].
Qed.

(** The operator's reading of a map that carries these texts. *)
Lemma params_read req m x :
  well_formed req m ->
  annotation (xt_Annotations x) WakeMinWorkersAnnotation = from_option fmt_d "" (rr_WakeMinWorkers req) ->
  annotation (xt_Annotations x) WakeTTLAnnotation = from_option duration_String "" (rr_WakeTTL req) ->
  parseWakeParams x =
    (default (default 0 (spec_WakeMinWorkers (xt_Spec x))) (rr_WakeMinWorkers req),
     default (default (5 * Minute) (spec_WakeTTL (xt_Spec x))) (rr_WakeTTL req)).
Proof.
  intros [Hw Ht] Ew Et. unfold parseWakeParams. rewrite Ew, Et. f_equal.
  - destruct (rr_WakeMinWorkers req) as [n|]; simpl; [|done].
    rewrite bool_decide_eq_false_2 by (by apply fmt_d_nonempty).
    rewrite ParseInt_fmt_d by (unfold int32_min, int32_max in *; lia). simpl.
    by destruct (Z.leb_spec 0 n); [|lia].
  - destruct (rr_WakeTTL req) as [d|]; simpl; [|done].
    assert (Hd : in_int64 d) by (unfold in_int64, int64_min, int64_max in *; lia).
    rewrite bool_decide_eq_false_2 by (by apply duration_String_nonempty).
    rewrite ParseDuration_String by done. simpl. by destruct (Z.leb_spec 0 d); [|lia].
Qed.

Lemma params_acceptable req m m' :
  well_formed req m ->
  annotation m' WakeMinWorkersAnnotation = from_option fmt_d "" (rr_WakeMinWorkers req) ->
  annotation m' WakeTTLAnnotation = from_option duration_String "" (rr_WakeTTL req) ->
  acceptable m'.
Proof.
  intros [Hw Ht] Ew Et. unfold acceptable. rewrite Ew, Et. split.
  - destruct (rr_WakeMinWorkers req) as [n|]; [|by left]. right. exists n. split; [|lia].
    apply ParseInt_fmt_d. unfold int32_min, int32_max in *. lia.
  - destruct (rr_WakeTTL req) as [d|]; [|by left]. right. exists d. split; [|lia].
    apply ParseDuration_String. unfold in_int64, int64_min, int64_max in *. lia.
Qed.

(** C39: A wake request survives the trip through the annotations.  When the
    API server annotates a runtime with a well-formed request that is not older than a
    pending suspend, the operator decides to resume, accepts the parameters,
    and, with the command carried out, reads exactly the workers and the time
    that were asked for, and the specification's defaults where nothing was. *)
Theorem wake_request_roundtrip req now t t' :
  well_formed req (xt_Annotations t) -> printable now -> outranks_suspend now (xt_Annotations t) ->
  let m := wake_annotations req now (xt_Annotations t) in
  obeys m DoResume (set_Annotations m t) t' ->
  decide_commands m = DoResume /\ acceptable m /\
  parseWakeParams t' =
    (default (default 0 (spec_WakeMinWorkers (xt_Spec t))) (rr_WakeMinWorkers req),
     default (default (5 * Minute) (spec_WakeTTL (xt_Spec t))) (rr_WakeTTL req)).
Proof.
  intros Hwf Hnow Hs m (m' & -> & Hm').
  assert (Hkeep : forall k, k ∈ [WakeMinWorkersAnnotation; WakeTTLAnnotation] -> annotation m' k = annotation m k).
  { intros k Hk. unfold annotation. rewrite Hm'. destruct (decide (k ∈ cleared m DoResume)) as [Hin|]; [|done].
    exfalso. unfold cleared in Hin. repeat (case_match; simpl in *); set_solver. }
  split; [by apply wake_decided|]. split.
  - apply (params_acceptable req (xt_Annotations t)); [done|by apply wake_workers_text|by apply wake_ttl_text].
  - rewrite (params_read req (xt_Annotations t)); [done|done| |]; simpl; rewrite Hkeep by set_solver;
      [by apply wake_workers_text|by apply wake_ttl_text].
Qed.

(** ** Witness *)

(** A suspended runtime with an older suspend request is asked for two workers
    and ninety seconds. *)
Definition ex_pending : XTrinode :=
  set_Annotations (<[SuspendRequestedAnnotation := "true"]>
    (<[SuspendRequestedAtAnnotation := "2023-11-14T22:13:19Z"]> ∅)) (ex_runtime "s" None).

Definition ex_request : ResumeRuntimeRequest := mkResumeRequest (Some 2) (Some (90 * Second)) "".

Definition ex_now : Time := 1700000000 * Second.
Definition ex_annotations : gmap string string := wake_annotations ex_request ex_now (xt_Annotations ex_pending).

Definition ex_obeyed : XTrinode :=
  set_Suspended false (set_Annotations
    (foldr delete ex_annotations (cleared ex_annotations DoResume)) (set_Annotations ex_annotations ex_pending)).

Lemma wake_request_roundtrip_witness :
  decide_commands ex_annotations = DoResume /\ parseWakeParams ex_obeyed = (2, 90 * Second).
Proof.
  destruct (wake_request_roundtrip ex_request ex_now ex_pending ex_obeyed) as (Hd & _ & Hp).
  - vm_compute. repeat split; congruence.
  - vm_compute. split; congruence.
  - intros _. vm_compute. reflexivity.
  - eexists. split; [done|]. intros k. destruct (decide _);
      [by apply lookup_foldr_delete|by apply lookup_foldr_delete_not_elem_of].
  - split; [exact Hd|exact Hp].
Defined.
