(* ===== verification/Admission.v ===== *)
(** * Admission of runtimes: defaults and validation
    ([api/v1/xtrinode_webhook.go], [xtrinode_nodepool_validation.go],
    [xtrinode_validation_policy.go], [internal/trino/controlauth])

    The mutating webhook fills in defaults, the validating webhook collects the
    errors of a specification.  [AdmissionUpdate] adds what an update and a
    privileged change need. *)

From S2P Require Import Prelude GoStrings GoTime GoParse XTrinodeTypes RuntimeShape DataSize NodePool ApiAuth.

(** ** Field errors

    The offending value a [field.Error] echoes is left out; a path is its text. *)

Inductive error_type := ErrRequired | ErrInvalid | ErrForbidden | ErrNotSupported | ErrInternal.

Record field_error := mkFieldError {
  fe_Type : error_type;
  fe_Field : string;
  fe_Detail : string
}.

Definition Child (path : string) (names : list string) : string :=
  fold_left (fun p n => p +:+ "." +:+ n) names path.
Definition Key (path key : string) : string := path +:+ "[" +:+ key +:+ "]".
Definition Index (path : string) (i : nat) : string := path +:+ "[" +:+ fmt_d (Z.of_nat i) +:+ "]".

Definition NotSupported (path : string) (valid : list string) : field_error :=
  mkFieldError ErrNotSupported path ("supported values: " +:+ Join ", " (quoted <$> valid)).

(** An error appended under a condition. *)
Definition report (bad : bool) (e : field_error) : list field_error := if bad then [e] else [].

Lemma report_nil bad e : report bad e = [] <-> bad = false.
Proof. by destruct bad. Qed.

Lemma app_nil_iff {A} (l1 l2 : list A) : l1 ++ l2 = [] <-> l1 = [] /\ l2 = [].
Proof. split; [apply app_eq_nil|by intros [-> ->]]. Qed.

(** ** Strings and tables *)

Definition normalizeString (s : string) : string := ToLower (TrimSpace s).

Definition member (l : list string) (s : string) : bool := existsb (fun x => x ≡? s) l.

Definition ValidProviders : list string := ["azure"; "aws"; "gcp"].
Definition validScalerTypes : list string := ["prometheus"; "http"].
Definition validScalingMetrics : list string := ["query"; "memory"; "cpu"].
Definition validAccessControlTypes : list string := ["configmap"; "properties"].
Definition validFaultTolerantRetryPolicies : list string := ["task"; "query"].

Definition ContainsAny (s chars : string) : bool :=
  negb (all_bytes (fun c => IndexByte c chars ≡? None) s).

(** [strings.Cut(s, "=")] *)
Definition Cut (sep : ascii) (s : string) : option (string * string) :=
  match IndexByte sep s with
  | None => None
  | Some i => Some (str_take i s, str_drop (S i) s)
  end.

(** ** Values of an overlay *)

Definition as_object (v : json) : option (list (string * json)) :=
  match v with JObject m => Some m | _ => None end.
Definition as_string (v : json) : option string := match v with JString s => Some s | _ => None end.
Definition as_array (v : json) : option (list json) := match v with JArray l => Some l | _ => None end.

(** [_, ok := m[k]] *)
Definition json_has (m : list (string * json)) (k : string) : bool := existsb (fun kv => kv.1 ≡? k) m.

Definition boolValue (value : json) : bool := match value with JBool b => b | _ => false end.

(** ** Recommended machine types *)

Section recommendation.
Context `{QuantityParser}.

Definition workerResourcesFromPresetForRecommendation (preset : SizePreset) : option ResourceRequirements :=
  cpuRequest ← ParseQuantity (WorkerCPUReq preset);
  memoryRequest ← ParseQuantity (WorkerMemReq preset);
  cpuLimit ← ParseQuantity (WorkerCPULim preset);
  memoryLimit ← ParseQuantity (WorkerMemLim preset);
  Some (mkResources {[ ResourceCPU := cpuRequest; ResourceMemory := memoryRequest ]}
          {[ ResourceCPU := cpuLimit; ResourceMemory := memoryLimit ]}).

Definition runtimeRecommendationSourcePreset : string := "preset".
Definition runtimeRecommendationSourceTyped : string := "typed".

Definition resolvedWorkerResourcesForMachineRecommendation (t : XTrinode) : option (ResourceRequirements * string) :=
  let size := normalizeString (spec_Size (xt_Spec t)) in
  preset ← GetPreset size;
  resources ← workerResourcesFromPresetForRecommendation preset;
  match spec_Resources (xt_Spec t) ≫= rr_Worker with
  | Some typed => Some (typed, runtimeRecommendationSourceTyped)
  | None => Some (resources, runtimeRecommendationSourcePreset)
  end.

Definition applyLargerQuantity (current candidate : Quantity) : Quantity :=
  if (0 <? q_Sign candidate) && (q_Cmp candidate current ≡? Gt) then candidate else current.

Definition recommendationResourceNeed (r : ResourceRequirements) : option (Quantity * Quantity) :=
  let of_ (m : gmap string Quantity) k := default zeroQuantity (m !! k) in
  let cpu := applyLargerQuantity zeroQuantity (of_ (res_Requests r) ResourceCPU) in
  let cpu := applyLargerQuantity cpu (of_ (res_Limits r) ResourceCPU) in
  let memory := applyLargerQuantity zeroQuantity (of_ (res_Requests r) ResourceMemory) in
  let memory := applyLargerQuantity memory (of_ (res_Limits r) ResourceMemory) in
  if (0 <? q_Sign cpu) || (0 <? q_Sign memory) then Some (cpu, memory) else None.

Definition preset_suffices (needCPU needMemory : Quantity) (presetName : string) : bool :=
  match preset ← GetPreset presetName;
        presetResources ← workerResourcesFromPresetForRecommendation preset;
        recommendationResourceNeed presetResources with
  | Some (presetCPU, presetMemory) =>
      negb (q_Cmp presetCPU needCPU ≡? Lt) && negb (q_Cmp presetMemory needMemory ≡? Lt)
  | None => false
  end.

Definition recommendedPresetForWorkerResources (r : ResourceRequirements) : string :=
  match recommendationResourceNeed r with
  | None => ""
  | Some (needCPU, needMemory) =>
      default "xl" (find_first (preset_suffices needCPU needMemory) ["xs"; "s"; "m"; "l"; "xl"])
  end.

(** The machine type and what it was recommended for. *)
Definition recommendedNodePoolMachineType (t : XTrinode) (provider : string) : string * string :=
  let provider := normalizeString provider in
  let size := normalizeString (spec_Size (xt_Spec t)) in
  let fallback := GetRecommendedMachineType size provider in
  let fallbackSource := "size '" +:+ spec_Size (xt_Spec t) +:+ "'" in
  match resolvedWorkerResourcesForMachineRecommendation t with
  | None => (fallback, fallbackSource)
  | Some (resources, source) =>
      let recommendationSize := recommendedPresetForWorkerResources resources in
      if recommendationSize ≡? "" then (fallback, fallbackSource) else
      let recommendation := GetRecommendedMachineType recommendationSize provider in
      if recommendation ≡? "" then (fallback, fallbackSource) else
      if (source ≡? runtimeRecommendationSourcePreset) && (recommendationSize ≡? size)
      then (recommendation, fallbackSource)
      else (recommendation, "resolved worker resources")
  end.

(** ** Defaults *)

(** Field assignments of the mutating webhook. *)
Definition with_MinWorkers (n : option Z) (x : XTrinode) : XTrinode :=
  let s := xt_Spec x in
  set_Spec (mkSpecFull (spec_Size s) (spec_MaxWorkers s) n (spec_Suspended s) (spec_AutoSuspendAfter s)
    (spec_WakeMinWorkers s) (spec_WakeTTL s) (spec_Resources s) (spec_Placement s) (spec_NodePool s)
    (spec_Routing s) (spec_ValuesOverlay s) (spec_KEDA s) (spec_TrinoControlAuth s)
    (spec_OperatorNodePoolDefaults s) (spec_CatalogSelector s) (spec_ResourceGroupsProfile s)
    (spec_CustomConfigMaps s) (spec_Limits s) (spec_FaultTolerantExecution s) (spec_TLS s)
    (spec_HelmChartConfig s) (spec_RolloutPolicy s)) x.

Definition with_AutoSuspendAfter (d : option Duration) (x : XTrinode) : XTrinode :=
  let s := xt_Spec x in
  set_Spec (mkSpecFull (spec_Size s) (spec_MaxWorkers s) (spec_MinWorkers s) (spec_Suspended s) d
    (spec_WakeMinWorkers s) (spec_WakeTTL s) (spec_Resources s) (spec_Placement s) (spec_NodePool s)
    (spec_Routing s) (spec_ValuesOverlay s) (spec_KEDA s) (spec_TrinoControlAuth s)
    (spec_OperatorNodePoolDefaults s) (spec_CatalogSelector s) (spec_ResourceGroupsProfile s)
    (spec_CustomConfigMaps s) (spec_Limits s) (spec_FaultTolerantExecution s) (spec_TLS s)
    (spec_HelmChartConfig s) (spec_RolloutPolicy s)) x.

(** The pool with other names and machine types. *)
Definition repool (np : NodePoolSpec) (nm policy : string) (azure : option AzureNodePoolSpec)
    (aws : option AWSNodePoolSpec) (gcp : option GCPNodePoolSpec) : NodePoolSpec :=
  mkNodePoolFull nm (np_Provider np) (np_MinNodes np) (np_MaxNodes np) (np_SchedulePods np)
    (np_ProviderMode np) (np_ScaleDownOnSuspend np) policy azure aws gcp (np_OSDiskGB np)
    (np_ClusterName np) (np_ResourceNotFoundRequeueInterval np) (np_StatusNotAvailableRequeueInterval np)
    (np_NoNodesReadyRequeueInterval np) (np_NodesReadyRequeueInterval np) (np_ErrorRequeueInterval np)
    (np_MinRequiredReplicasWhenMinNodesZero np) (np_Zones np) (np_Spot np) (np_NodeLabels np)
    (np_NodeTaints np) (np_ResourceTags np) (np_Prewarm np) (np_ProvisioningTimeout np)
    (np_KubernetesVersion np) (np_BootstrapConfigRef np) (np_AutoscalerEnabled np).

Definition default_machine (provider machine : string) (np : NodePoolSpec) : NodePoolSpec :=
  let keep := repool np (np_Name np) (np_DeletionPolicy np) in
  if provider ≡? "azure" then
    let a := default (mkAzureNodePool "" "") (np_Azure np) in
    keep (Some (if az_VMSize a ≡? "" then mkAzureNodePool machine (az_OSDiskType a) else a)) (np_AWS np) (np_GCP np)
  else if provider ≡? "aws" then
    let a := default (mkAWSNodePool "" "") (np_AWS np) in
    keep (np_Azure np) (Some (if aws_InstanceType a ≡? "" then mkAWSNodePool machine (aws_VolumeType a) else a)) (np_GCP np)
  else if provider ≡? "gcp" then
    let a := default (mkGCPNodePool "" "") (np_GCP np) in
    keep (np_Azure np) (np_AWS np) (Some (if gcp_MachineType a ≡? "" then mkGCPNodePool machine (gcp_DiskType a) else a))
  else np.

Definition default_pool (t : XTrinode) (np : NodePoolSpec) : NodePoolSpec :=
  let nm := if np_Name np ≡? "" then xt_Name t +:+ "-pool" else np_Name np in
  let policy := if np_DeletionPolicy np ≡? "" then NodePoolDeletionPolicyDelete else np_DeletionPolicy np in
  let np := repool np nm policy (np_Azure np) (np_AWS np) (np_GCP np) in
  if spec_Size (xt_Spec t) ≡? "" then np else
  let provider := ToLower (np_Provider np) in
  let '(machine, _) := recommendedNodePoolMachineType t provider in
  if machine ≡? "" then np else default_machine provider machine np.

Definition Default (t : XTrinode) : XTrinode :=
  let t := match spec_MinWorkers (xt_Spec t) with None => with_MinWorkers (Some 0) t | Some _ => t end in
  let t := match spec_AutoSuspendAfter (xt_Spec t) with
           | None => with_AutoSuspendAfter (Some (5 * Minute)) t | Some _ => t end in
  XTrinodeTypes.set_NodePool (default_pool t <$> spec_NodePool (xt_Spec t)) t.

End recommendation.

(** ** Routing, resources and placement *)

Definition validateRouting (fldPath : string) (r : RoutingSpec) : list field_error :=
  let hasSelector := negb (rs_Header r ≡? "") || negb (rs_Hostname r ≡? "") ||
                     negb (rs_HostnameDomain r ≡? "") || rs_Default r in
  report (negb hasSelector && (rs_CapacityUnits r ≡? None))
    (mkFieldError ErrInvalid fldPath
       "routing must specify at least one selector: header, hostname, hostnameDomain, or default=true") ++
  report (negb (rs_Hostname r ≡? "") && negb (rs_HostnameDomain r ≡? ""))
    (mkFieldError ErrInvalid fldPath
       "hostname and hostnameDomain should not both be set (hostname overrides auto-generation)") ++
  report (from_option (fun units => units <? 1) false (rs_CapacityUnits r))
    (mkFieldError ErrInvalid (Child fldPath ["capacityUnits"]) "capacityUnits must be at least 1").

Definition resource_errors (requirements : ResourceRequirements) (fldPath resourceName : string) : list field_error :=
  let request := res_Requests requirements !! resourceName in
  let limit := res_Limits requirements !! resourceName in
  report (from_option (fun q => q_Sign q <? 0) false request)
    (mkFieldError ErrInvalid (Key (Child fldPath ["requests"]) resourceName) "resource request must be non-negative") ++
  report (from_option (fun q => q_Sign q <? 0) false limit)
    (mkFieldError ErrInvalid (Key (Child fldPath ["limits"]) resourceName) "resource limit must be non-negative") ++
  match request, limit with
  | Some request, Some limit =>
      report (q_Cmp limit request ≡? Lt)
        (mkFieldError ErrInvalid (Key (Child fldPath ["limits"]) resourceName)
           ("resource limit must be greater than or equal to request " +:+ q_text request))
  | _, _ => []
  end.

Definition requirement_errors (requirements : ResourceRequirements) (fldPath : string) : list field_error :=
  resource_errors requirements fldPath ResourceCPU ++ resource_errors requirements fldPath ResourceMemory.

Definition validateRuntimeResources (fldPath : string) (resources : RuntimeResourcesSpec) : list field_error :=
  from_option (fun r => requirement_errors r (Child fldPath ["coordinator"])) [] (rr_Coordinator resources) ++
  from_option (fun r => requirement_errors r (Child fldPath ["worker"])) [] (rr_Worker resources).

(** Both selector checks: a selector that has the key must have the value. *)
Definition selector_conflict (selector : option (gmap string string)) (key value fldPath message : string) :
    list field_error :=
  match selector with
  | None => []
  | Some selector =>
      match selector !! key with
      | None => []
      | Some existing =>
          report (negb (existing ≡? value)) (mkFieldError ErrInvalid (Key fldPath key) message)
      end
  end.

Definition validateExistingNodePoolSelectorConflict (selector : option (gmap string string))
    (key value fldPath : string) : list field_error :=
  selector_conflict selector key value fldPath
    ("must match existingNodePool selector value " +:+ quoted value).

Definition validateNodePoolSelectorConflict (selector : option (gmap string string))
    (poolName fldPath : string) : list field_error :=
  selector_conflict selector NodePoolSchedulingLabel poolName fldPath
    ("must match nodePool name " +:+ quoted poolName +:+ " when nodePool.schedulePods is true").

Definition validateRolePlacement (placement : RolePlacementSpec) (fldPath : string) : list field_error :=
  concat (imap (fun i c =>
    report (tsc_TopologyKey c ≡? "")
      (mkFieldError ErrRequired (Child (Index (Child fldPath ["topologySpreadConstraints"]) i) ["topologyKey"])
         "topologyKey is required")) (default [] (rp_TopologySpreadConstraints placement))).

Definition on_role (role : option RolePlacementSpec) (f : RolePlacementSpec -> list field_error) :
    list field_error := from_option f [] role.

Definition validatePlacement (fldPath : string) (placement : PlacementSpec) : list field_error :=
  match pl_ExistingNodePool placement with
  | None => []
  | Some np =>
      (if TrimSpace (enp_Provider np) ≡? "" then
         [mkFieldError ErrRequired (Child fldPath ["existingNodePool"; "provider"]) "provider is required"]
       else report (ExistingNodePoolSelector (enp_Provider np) "placeholder" ≡? None)
              (NotSupported (Child fldPath ["existingNodePool"; "provider"]) ["azure"; "aws"; "gcp"])) ++
      report (TrimSpace (enp_Name np) ≡? "")
        (mkFieldError ErrRequired (Child fldPath ["existingNodePool"; "name"]) "name is required") ++
      match ExistingNodePoolSelector (enp_Provider np) (enp_Name np) with
      | None => []
      | Some (key, value) =>
          let conflict selector path := validateExistingNodePoolSelectorConflict selector key value (Child fldPath path) in
          conflict (pl_NodeSelector placement) ["nodeSelector"] ++
          on_role (pl_Coordinator placement) (fun r => conflict (rp_NodeSelector r) ["coordinator"; "nodeSelector"]) ++
          on_role (pl_Worker placement) (fun r => conflict (rp_NodeSelector r) ["worker"; "nodeSelector"])
      end
  end ++
  on_role (pl_Coordinator placement) (fun r => validateRolePlacement r (Child fldPath ["coordinator"])) ++
  on_role (pl_Worker placement) (fun r => validateRolePlacement r (Child fldPath ["worker"])).

Definition validateNodePoolSchedulePlacement (fldPath : string) (t : XTrinode) : list field_error :=
  match spec_NodePool (xt_Spec t) with
  | None => []
  | Some np =>
      if negb (np_SchedulePods np) then [] else
      let both := report (from_option (fun p => negb (pl_ExistingNodePool p ≡? None)) false (spec_Placement (xt_Spec t)))
        (mkFieldError ErrForbidden (Child fldPath ["placement"; "existingNodePool"])
           "cannot combine spec.nodePool.schedulePods with spec.placement.existingNodePool; use the managed node-pool binding or an existing pool selector, not both") in
      let poolName := if np_Name np ≡? "" then xt_Name t +:+ NodePoolNameSuffix else np_Name np in
      if poolName ≡? "" then
        [mkFieldError ErrRequired (Child fldPath ["nodePool"; "name"])
           "nodePool.schedulePods requires spec.nodePool.name or metadata.name for the generated pool name"]
      else
        both ++
        match spec_Placement (xt_Spec t) with
        | None => []
        | Some placement =>
            validateNodePoolSelectorConflict (pl_NodeSelector placement) poolName
              (Child fldPath ["placement"; "nodeSelector"]) ++
            on_role (pl_Coordinator placement) (fun r =>
              validateNodePoolSelectorConflict (rp_NodeSelector r) poolName
                (Child fldPath ["placement"; "coordinator"; "nodeSelector"])) ++
            on_role (pl_Worker placement) (fun r =>
              validateNodePoolSelectorConflict (rp_NodeSelector r) poolName
                (Child fldPath ["placement"; "worker"; "nodeSelector"]))
        end
  end.

(** ** Node pools *)

Section pools.
Context `{QuantityParser} (Getenv : string -> string).

Definition provider_required (t : XTrinode) (fldPath provider field : string) (machine : string) : list field_error :=
  if machine ≡? "" then
    let '(recommendation, source) := recommendedNodePoolMachineType t provider in
    let base := provider +:+ "." +:+ field +:+ " is required when provider is " +:+ provider in
    [mkFieldError ErrRequired (Child fldPath [provider; field])
       (if recommendation ≡? "" then base
        else base +:+ " (recommended for " +:+ source +:+ ": " +:+ recommendation +:+ ")")]
  else [].

Definition validateNodePoolProviderConfig (t : XTrinode) (np : NodePoolSpec) (fldPath : string) : list field_error :=
  let provider := normalizeString (np_Provider np) in
  if provider ≡? "azure" then provider_required t fldPath "azure" "vmSize" (from_option az_VMSize "" (np_Azure np)) else
  if provider ≡? "aws" then provider_required t fldPath "aws" "instanceType" (from_option aws_InstanceType "" (np_AWS np)) else
  if provider ≡? "gcp" then provider_required t fldPath "gcp" "machineType" (from_option gcp_MachineType "" (np_GCP np)) else
  [].

Definition effectiveNodePoolMinNodes (t : XTrinode) (fldPath : string) : Z * string :=
  match spec_NodePool (xt_Spec t) ≫= np_MinNodes with
  | Some n => (n, Child fldPath ["minNodes"])
  | None =>
      match spec_OperatorNodePoolDefaults (xt_Spec t) ≫= ond_DefaultMinNodes with
      | Some n => (n, "spec.operatorNodePoolDefaults.defaultMinNodes")
      | None => (nd_MinNodes (NodePoolDefaultValuesFromEnv Getenv), Child fldPath ["minNodes"])
      end
  end.

Definition effectiveNodePoolMaxNodes (t : XTrinode) (fldPath : string) : Z * string :=
  match spec_NodePool (xt_Spec t) ≫= np_MaxNodes with
  | Some n => (n, Child fldPath ["maxNodes"])
  | None =>
      match spec_OperatorNodePoolDefaults (xt_Spec t) ≫= ond_DefaultMaxNodes with
      | Some n => (n, "spec.operatorNodePoolDefaults.defaultMaxNodes")
      | None => (nd_MaxNodes (NodePoolDefaultValuesFromEnv Getenv), Child fldPath ["maxNodes"])
      end
  end.

Definition NodePoolDeletionPolicyRetain : string := "Retain".
Definition NodePoolDeletionPolicyScaleToZero : string := "ScaleToZero".
Definition deletion_policies : list string :=
  [NodePoolDeletionPolicyDelete; NodePoolDeletionPolicyRetain; NodePoolDeletionPolicyScaleToZero].

Definition at_least (field : string) (bound : Z) (path : string) (value : option Z) : list field_error :=
  report (from_option (fun n => n <? bound) false value)
    (mkFieldError ErrInvalid path (field +:+ " must be at least " +:+ fmt_d bound)).
Definition at_most (field : string) (bound : Z) (path : string) (value : option Z) : list field_error :=
  report (from_option (fun n => bound <? n) false value)
    (mkFieldError ErrInvalid path (field +:+ " must be at most " +:+ fmt_d bound)).

Definition above (lo hi : option Z) : bool :=
  match lo, hi with Some a, Some b => b <? a | _, _ => false end.

Definition validateNodePool (fldPath : string) (t : XTrinode) (np : NodePoolSpec) : list field_error :=
  (if np_Provider np ≡? "" then
     [mkFieldError ErrRequired (Child fldPath ["provider"]) "provider is required"]
   else report (negb (member ValidProviders (ToLower (np_Provider np))))
          (mkFieldError ErrInvalid (Child fldPath ["provider"]) "provider must be one of: [azure aws gcp]")) ++
  validateNodePoolProviderConfig t np fldPath ++
  (let providerMode := normalizeString (np_ProviderMode np) in
   let providerMode := if providerMode ≡? "" then "self-managed" else providerMode in
   report ((providerMode ≡? "self-managed") && negb (default [] (np_NodeTaints np) ≡? []))
     (mkFieldError ErrForbidden (Child fldPath ["nodeTaints"])
        "self-managed node taints must be configured in the referenced bootstrap template's nodeRegistration.taints; managed node pools may use spec.nodePool.nodeTaints")) ++
  report (negb (np_DeletionPolicy np ≡? "") && negb (member deletion_policies (np_DeletionPolicy np)))
    (NotSupported (Child fldPath ["deletionPolicy"]) deletion_policies) ++
  (let bounds := NodePoolValidationBoundsFromEnv Getenv in
   at_least "minNodes" (nb_MinNodesMin bounds) (Child fldPath ["minNodes"]) (np_MinNodes np) ++
   report (above (np_MinNodes np) (np_MaxNodes np))
     (mkFieldError ErrInvalid (Child fldPath ["minNodes"]) "minNodes must be less than or equal to maxNodes") ++
   at_least "maxNodes" (nb_MaxNodesMin bounds) (Child fldPath ["maxNodes"]) (np_MaxNodes np) ++
   at_most "maxNodes" (nb_MaxNodesMax bounds) (Child fldPath ["maxNodes"]) (np_MaxNodes np) ++
   at_least "osDiskGB" (nb_OSDiskGBMin bounds) (Child fldPath ["osDiskGB"]) (np_OSDiskGB np) ++
   at_most "osDiskGB" (nb_OSDiskGBMax bounds) (Child fldPath ["osDiskGB"]) (np_OSDiskGB np)) ++
  (let '(effectiveMinNodes, minNodesPath) := effectiveNodePoolMinNodes t fldPath in
   let '(effectiveMaxNodes, _) := effectiveNodePoolMaxNodes t fldPath in
   report ((0 <=? effectiveMinNodes) && (1 <=? effectiveMaxNodes) && (effectiveMaxNodes <? effectiveMinNodes))
     (mkFieldError ErrInvalid minNodesPath
        ("effective minNodes must be less than or equal to effective maxNodes (" +:+ fmt_d effectiveMaxNodes +:+ ")"))) ++
  (if np_SchedulePods np then
     let poolName := if np_Name np ≡? "" then xt_Name t +:+ NodePoolNameSuffix else np_Name np in
     match np_NodeLabels np ≫= (fun m => m !! NodePoolSchedulingLabel) with
     | Some existing =>
         report (negb (existing ≡? poolName))
           (mkFieldError ErrInvalid (Key (Child fldPath ["nodeLabels"]) NodePoolSchedulingLabel)
              ("must match nodePool name " +:+ quoted poolName +:+ " when schedulePods is true"))
     | None => []
     end
   else []).

Definition validateOperatorNodePoolDefaults (fldPath : string) (d : OperatorNodePoolDefaultsSpec) : list field_error :=
  let bounds := NodePoolValidationBoundsFromEnv Getenv in
  at_least "defaultMinNodes" (nb_MinNodesMin bounds) (Child fldPath ["defaultMinNodes"]) (ond_DefaultMinNodes d) ++
  at_least "defaultMaxNodes" (nb_MaxNodesMin bounds) (Child fldPath ["defaultMaxNodes"]) (ond_DefaultMaxNodes d) ++
  at_most "defaultMaxNodes" (nb_MaxNodesMax bounds) (Child fldPath ["defaultMaxNodes"]) (ond_DefaultMaxNodes d) ++
  at_least "defaultOSDiskGB" (nb_OSDiskGBMin bounds) (Child fldPath ["defaultOSDiskGB"]) (ond_DefaultOSDiskGB d) ++
  at_most "defaultOSDiskGB" (nb_OSDiskGBMax bounds) (Child fldPath ["defaultOSDiskGB"]) (ond_DefaultOSDiskGB d) ++
  report (above (ond_DefaultMinNodes d) (ond_DefaultMaxNodes d))
    (mkFieldError ErrInvalid (Child fldPath ["defaultMinNodes"])
       "defaultMinNodes must be less than or equal to defaultMaxNodes").

(** ** Warnings about a pool *)

Definition placementNodePoolSelectorValues (placement : option PlacementSpec) : list string :=
  match placement with
  | None => []
  | Some p =>
      let value (m : option (gmap string string)) := option_list (m ≫= (fun m => m !! NodePoolSchedulingLabel)) in
      value (pl_NodeSelector p) ++ value (pl_Coordinator p ≫= rp_NodeSelector) ++
      value (pl_Worker p ≫= rp_NodeSelector)
  end.

Definition nodePoolPlacementWarnings (t : XTrinode) : list string :=
  match spec_NodePool (xt_Spec t) with
  | None => []
  | Some np =>
      if np_SchedulePods np then [] else
      let poolName := if (np_Name np ≡? "") && negb (xt_Name t ≡? "") then xt_Name t +:+ NodePoolNameSuffix
                      else np_Name np in
      if poolName ≡? "" then [] else
      match placementNodePoolSelectorValues (spec_Placement (xt_Spec t)) with
      | [] => ["spec.nodePool provisions node pool " +:+ quoted poolName +:+
               ", but runtime pods are not bound to it; set spec.nodePool.schedulePods=true or target " +:+
               NodePoolSchedulingLabel +:+ " in placement"]
      | (first :: _) as values =>
          if member values poolName then [] else
          ["placement targets node pool label " +:+ quoted first +:+ " while spec.nodePool provisions " +:+
           quoted poolName +:+ "; use spec.nodePool.schedulePods=true or align placement with the provisioned pool"]
      end
  end.

(** The webhook's copies of [configuredNodePoolMachineType] and
    [nodePoolMachineRank] agree with those of the controllers. *)
Definition nodePoolFitWarnings (t : XTrinode) : list string :=
  match spec_NodePool (xt_Spec t) with
  | None => []
  | Some np =>
      let provider := normalizeString (np_Provider np) in
      let configured := configuredNodePoolMachineType np in
      if (provider ≡? "") || (configured ≡? "") then [] else
      let '(recommended, source) := recommendedNodePoolMachineType t provider in
      if recommended ≡? "" then [] else
      match nodePoolMachineRank provider configured, nodePoolMachineRank provider recommended with
      | Some configuredRank, Some recommendedRank =>
          if recommendedRank <=? configuredRank then [] else
          ["node pool machine type " +:+ quoted configured +:+
           " may not fit resolved worker resources; recommended for " +:+ source +:+ " is " +:+ quoted recommended]
      | _, _ => []
      end
  end.
End pools.

(** ** Autoscaling *)

Definition kedaAutoscalingActive (k : option KEDASpec) : bool :=
  match k with
  | None => false
  | Some k =>
      match keda_Enabled k with
      | Some true =>
          negb (keda_ScalerType k ≡? "") || negb (keda_ScalingMetric k ≡? "") ||
          set_nonblank (keda_PrometheusServer k) || set_nonblank (keda_PrometheusQuery k) ||
          set_nonblank (keda_HTTPEndpoint k)
      | _ => false
      end
  end.

Definition validateKEDA (fldPath : string) (k : KEDASpec) : list field_error :=
  report (negb (keda_ScalerType k ≡? "") && negb (member validScalerTypes (normalizeString (keda_ScalerType k))))
    (mkFieldError ErrInvalid (Child fldPath ["scalerType"]) "scalerType must be one of: prometheus, http") ++
  report (negb (keda_ScalingMetric k ≡? "") && negb (member validScalingMetrics (normalizeString (keda_ScalingMetric k))))
    (mkFieldError ErrInvalid (Child fldPath ["scalingMetric"]) "scalingMetric must be one of: query, memory, cpu") ++
  let scalerType := normalizeString (keda_ScalerType k) in
  match keda_HTTPEndpoint k with
  | None => []
  | Some endpoint =>
      let httpEndpoint := normalizeString endpoint in
      report (((scalerType ≡? "") || (scalerType ≡? "http")) && (httpEndpoint ≡? "jmx") &&
              negb (from_option jmx_Enabled false (keda_JMXExporter k)))
        (mkFieldError ErrInvalid fldPath "when httpEndpoint is jmx, jmxExporter.enabled must be true") ++
      report (httpEndpoint ≡? "aggregator")
        (mkFieldError ErrInvalid (Child fldPath ["httpEndpoint"])
           "httpEndpoint aggregator is no longer supported; use prometheusQuery for custom metrics or a concrete custom URL")
  end.

Definition nativeHPAEnabled (valuesMap : option (list (string * json))) : bool :=
  match m ← valuesMap; server ← as_object (json_get m "server"); as_object (json_get server "autoscaling") with
  | Some autoscaling => boolValue (json_get autoscaling "enabled")
  | None => false
  end.

Definition validateAutoscalerOwnership (fldPath : string) (t : XTrinode) : list field_error :=
  report (kedaAutoscalingActive (spec_KEDA (xt_Spec t)) && nativeHPAEnabled (GetValuesOverlayMap (xt_Spec t)))
    (mkFieldError ErrForbidden (Child fldPath ["valuesOverlay"; "server"; "autoscaling"; "enabled"])
       "native HPA and spec.keda cannot both manage worker replicas; choose one autoscaler").

(** ** The overlay policy *)

Definition forbidValuesOverlayKey (values : list (string * json)) (fldPath key message : string) : list field_error :=
  report (json_has values key) (mkFieldError ErrForbidden (Child fldPath [key]) message).

Definition placement_keys : list string := ["nodeSelector"; "tolerations"; "affinity"; "topologySpreadConstraints"].
Definition host_keys : list string := ["hostNetwork"; "hostPID"; "hostIPC"].

Definition validateValuesOverlayContainerSecurityContext (securityContext : list (string * json)) (fldPath : string) :
    list field_error :=
  report (boolValue (json_get securityContext "privileged"))
    (mkFieldError ErrForbidden (Child fldPath ["privileged"]) "privileged containers are not allowed through valuesOverlay") ++
  report (boolValue (json_get securityContext "allowPrivilegeEscalation"))
    (mkFieldError ErrForbidden (Child fldPath ["allowPrivilegeEscalation"]) "privilege escalation is not allowed through valuesOverlay") ++
  match capabilities ← as_object (json_get securityContext "capabilities"); as_array (json_get capabilities "add") with
  | Some adds =>
      report (0 <? length adds)%nat
        (mkFieldError ErrForbidden (Child fldPath ["capabilities"; "add"])
           "added Linux capabilities are not allowed through valuesOverlay")
  | None => []
  end.

Definition validateValuesOverlayAdditionalVolumes (roleMap : list (string * json)) (fldPath : string) : list field_error :=
  match as_array (json_get roleMap "additionalVolumes") with
  | None => []
  | Some volumes =>
      concat (imap (fun i volume =>
        match as_object volume with
        | None => []
        | Some volumeMap =>
            report (json_has volumeMap "hostPath")
              (mkFieldError ErrForbidden (Child (Index (Child fldPath ["additionalVolumes"]) i) ["hostPath"])
                 "hostPath volumes are not allowed through valuesOverlay")
        end) volumes)
  end.

Definition overlay_role_errors (values : list (string * json)) (fldPath role : string) : list field_error :=
  match as_object (json_get values role) with
  | None => []
  | Some roleMap =>
      forbidValuesOverlayKey roleMap (Child fldPath [role]) "resources"
        ("use spec.resources." +:+ role +:+ " for pod resources") ++
      (placement_keys ≫= (fun key =>
        forbidValuesOverlayKey roleMap (Child fldPath [role]) key "use spec.placement for scheduler constraints")) ++
      match as_object (json_get roleMap "deployment") with
      | None => []
      | Some deployment =>
          forbidValuesOverlayKey deployment (Child fldPath [role; "deployment"]) "strategy"
            "use spec.rolloutPolicy.rollingUpdateStrategy for rollout strategy" ++
          forbidValuesOverlayKey deployment (Child fldPath [role; "deployment"]) "revisionHistoryLimit"
            "use spec.rolloutPolicy.revisionHistoryLimit"
      end ++
      validateValuesOverlayAdditionalVolumes roleMap (Child fldPath [role])
  end.

Definition validateValuesOverlayPolicy (fldPath : string) (t : XTrinode) : list field_error :=
  match GetValuesOverlayMap (xt_Spec t) with
  | None | Some [] => []
  | Some values =>
      forbidValuesOverlayKey values fldPath "resources"
        "use spec.resources.coordinator or spec.resources.worker for pod resources" ++
      (placement_keys ≫= (fun key =>
        forbidValuesOverlayKey values fldPath key "use spec.placement for scheduler constraints")) ++
      (host_keys ≫= (fun key =>
        forbidValuesOverlayKey values fldPath key "host namespace settings are not allowed through valuesOverlay")) ++
      forbidValuesOverlayKey values fldPath "sidecarContainers"
        "sidecar containers are not allowed through valuesOverlay by default" ++
      forbidValuesOverlayKey values fldPath "envFrom"
        "use spec.helmChartConfig.envFrom with privileged admission instead of valuesOverlay.envFrom" ++
      match service ← as_object (json_get values "service"); as_string (json_get service "type") with
      | Some serviceType =>
          let ty := ToLower (TrimSpace serviceType) in
          report ((ty ≡? "loadbalancer") || (ty ≡? "nodeport"))
            (mkFieldError ErrForbidden (Child fldPath ["service"; "type"])
               "externally exposed service types are not allowed through valuesOverlay")
      | None => []
      end ++
      match as_object (json_get values "containerSecurityContext") with
      | Some securityContext =>
          validateValuesOverlayContainerSecurityContext securityContext (Child fldPath ["containerSecurityContext"])
      | None => []
      end ++
      (["coordinator"; "worker"] ≫= overlay_role_errors values fldPath)
  end.

(** ** TLS, limits, fault tolerance, rollouts, charts *)

Definition validateTLS (fldPath : string) (tls : TLSSpec) : list field_error :=
  let hasServer := negb (tls_ServerSecretClass tls ≡? "") in
  let hasInternal := negb (tls_InternalSecretClass tls ≡? "") in
  report (negb (eqb hasServer hasInternal))
    (mkFieldError ErrInvalid fldPath "serverSecretClass and internalSecretClass should both be set or both be empty") ++
  report hasServer
    (mkFieldError ErrForbidden (Child fldPath ["serverSecretClass"])
       "Trino TLS server mode disables HTTP, but XTrinode gateway routing and lifecycle control currently use HTTP-only coordinator URLs; configure TLS termination outside Trino until HTTPS control endpoint support is implemented").

Definition memory_setting `{QuantityParser} (path name value : string) : list field_error :=
  if value ≡? "" then [] else
  if TrimSpace value ≡? "" then
    [mkFieldError ErrInvalid path (name +:+ " must not be empty or whitespace-only")]
  else report (parseTrinoDataSizeBytes value ≡? None)
    (mkFieldError ErrInvalid path (name +:+ " must be a valid Trino data size such as 4GB or 512MB")).

Definition validateLimits `{QuantityParser} (fldPath : string) (l : LimitsSpec) : list field_error :=
  at_least "hardConcurrencyPerGroup" 1 (Child fldPath ["hardConcurrencyPerGroup"]) (lim_HardConcurrencyPerGroup l) ++
  at_least "maxQueuedPerGroup" 0 (Child fldPath ["maxQueuedPerGroup"]) (lim_MaxQueuedPerGroup l) ++
  match lim_Session l with
  | None => []
  | Some s =>
      memory_setting (Child fldPath ["session"; "maxQueryMemory"]) "maxQueryMemory" (sl_MaxQueryMemory s) ++
      memory_setting (Child fldPath ["session"; "maxTotalMemoryPerNode"]) "maxTotalMemoryPerNode"
        (sl_MaxTotalMemoryPerNode s)
  end.

(** Carriage return and line feed. *)
Definition CR : string := String (ascii_of_nat 13) EmptyString.
Definition LF : string := String (ascii_of_nat 10) EmptyString.

Definition validateTrinoPropertyKey (fldPath key : string) : list field_error :=
  report ((TrimSpace key ≡? "") || negb (TrimSpace key ≡? key) || ContainsAny key (CR +:+ LF +:+ "="))
    (mkFieldError ErrInvalid fldPath
       "property keys must not be empty, have surrounding whitespace, or contain newlines or '='").

Definition validateTrinoPropertyValue (fldPath value message : string) : list field_error :=
  report ((TrimSpace value ≡? "") || negb (TrimSpace value ≡? value) || ContainsAny value (CR +:+ LF))
    (mkFieldError ErrInvalid fldPath message).

(** The loop over the properties visits them in some order. *)
Definition validateFaultTolerantExecution (fldPath : string) (fte : FaultTolerantExecutionSpec) : list field_error :=
  report (negb (fte_RetryPolicy fte ≡? "") &&
          negb (member validFaultTolerantRetryPolicies (normalizeString (fte_RetryPolicy fte))))
    (mkFieldError ErrInvalid (Child fldPath ["retryPolicy"]) "retryPolicy must be one of: TASK, QUERY") ++
  let retryPolicy := normalizeString (fte_RetryPolicy fte) in
  let retryPolicy := if retryPolicy ≡? "" then "task" else retryPolicy in
  match fte_ExchangeManager fte with
  | None => []
  | Some em =>
      report ((em_Enabled em ≡? Some false) && (retryPolicy ≡? "task"))
        (mkFieldError ErrInvalid (Child fldPath ["exchangeManager"; "enabled"])
           "exchangeManager must be enabled when retryPolicy is TASK") ++
      (if em_Name em ≡? "" then [] else
       validateTrinoPropertyValue (Child fldPath ["exchangeManager"; "name"]) (em_Name em)
         "name must not be empty, whitespace-only, or contain newlines") ++
      concat (imap (fun i dir =>
        let path := Index (Child fldPath ["exchangeManager"; "baseDirectories"]) i in
        validateTrinoPropertyValue path dir
          "baseDirectories entries must not be empty, whitespace-only, or contain newlines" ++
        report (Contains dir ",") (mkFieldError ErrInvalid path "baseDirectories entries must not contain commas"))
        (default [] (em_BaseDirectories em))) ++
      (map_to_list (default ∅ (em_Properties em)) ≫= (fun '(key, value) =>
        let keyPath := Key (Child fldPath ["exchangeManager"; "properties"]) key in
        if (key ≡? "exchange-manager.name") || (key ≡? "exchange.base-directories") then
          [mkFieldError ErrForbidden keyPath
             "use exchangeManager.name or exchangeManager.baseDirectories for this property"]
        else
          validateTrinoPropertyKey keyPath key ++
          validateTrinoPropertyValue keyPath value
            "property values must not be empty, whitespace-only, or contain newlines"))
  end.

(** [strconv.Atoi] is [ParseInt] at the width of [int]. *)
Definition Atoi (s : string) : option Z := ParseInt 64 s.

Definition TrimSuffix (s suffix : string) : string :=
  if HasSuffix s suffix then str_take (String.length s - String.length suffix) s else s.

Definition validateIntOrPercent (fldPath : string) (value : option IntOrString) : list field_error :=
  match value with
  | None => []
  | Some value =>
      if ios_Type value =? intstr_Int then
        report (ios_IntVal value <? 0) (mkFieldError ErrInvalid fldPath "must be a non-negative integer")
      else if ios_Type value =? intstr_String then
        let strValue := TrimSpace (ios_StrVal value) in
        if HasSuffix strValue "%" then
          report (from_option (fun parsed => (parsed <? 0) || (100 <? parsed)) true (Atoi (TrimSuffix strValue "%")))
            (mkFieldError ErrInvalid fldPath "percentage must be between 0% and 100%")
        else
          report (from_option (fun parsed => parsed <? 0) true (Atoi strValue))
            (mkFieldError ErrInvalid fldPath "must be a non-negative integer or percentage string")
      else [mkFieldError ErrInvalid fldPath "must be an integer or percentage string"]
  end.

Definition intOrPercentIsExplicitZero (value : option IntOrString) : bool :=
  match value with
  | None => false
  | Some value =>
      if ios_Type value =? intstr_Int then ios_IntVal value =? 0
      else if ios_Type value =? intstr_String then
        let strValue := TrimSpace (ios_StrVal value) in (strValue ≡? "0") || (strValue ≡? "0%")
      else false
  end.

Definition validateRolloutPolicy (fldPath : string) (rp : RolloutPolicySpec) : list field_error :=
  report (from_option (fun n => (n <? 0) || (100 <? n)) false (rp_RevisionHistoryLimit rp))
    (mkFieldError ErrInvalid (Child fldPath ["revisionHistoryLimit"]) "revisionHistoryLimit must be between 0 and 100") ++
  match rp_RollingUpdateStrategy rp with
  | None => []
  | Some strategy =>
      let strategyPath := Child fldPath ["rollingUpdateStrategy"] in
      validateIntOrPercent (Child strategyPath ["maxSurge"]) (ru_MaxSurge strategy) ++
      validateIntOrPercent (Child strategyPath ["maxUnavailable"]) (ru_MaxUnavailable strategy) ++
      report (intOrPercentIsExplicitZero (ru_MaxSurge strategy) && intOrPercentIsExplicitZero (ru_MaxUnavailable strategy))
        (mkFieldError ErrInvalid strategyPath "maxSurge and maxUnavailable cannot both be zero")
  end.

Definition validateHelmChartConfig (fldPath : string) (hcc : HelmChartConfigSpec) : list field_error :=
  match hc_AccessControl hcc with
  | None => []
  | Some ac =>
      report (negb (member validAccessControlTypes (normalizeString (ac_Type ac))))
        (mkFieldError ErrInvalid (Child fldPath ["accessControl"; "type"])
           "accessControl.type must be one of: configmap, properties") ++
      report ((normalizeString (ac_Type ac) ≡? "configmap") && (ac_ConfigFile ac ≡? ""))
        (mkFieldError ErrRequired (Child fldPath ["accessControl"; "configFile"])
           "configFile is required when type is configmap")
  end ++
  match hc_Ingress hcc with
  | Some ing =>
      if negb (ing_Enabled ing) then [] else
      report (length (default [] (ing_Hosts ing)) =? 0)%nat
        (mkFieldError ErrRequired (Child fldPath ["ingress"; "hosts"]) "hosts is required when ingress is enabled") ++
      concat (imap (fun i host =>
        report (ih_Host host ≡? "")
          (mkFieldError ErrRequired (Child (Index (Child fldPath ["ingress"; "hosts"]) i) ["host"]) "host is required"))
        (default [] (ing_Hosts ing)))
  | None => []
  end ++
  match hc_Worker hcc ≫= wh_GracefulShutdown with
  | Some gs =>
      report (gs_Enabled gs && (gs_GracePeriodSeconds gs <=? 0))
        (mkFieldError ErrInvalid (Child fldPath ["worker"; "gracefulShutdown"; "gracePeriodSeconds"])
           "gracePeriodSeconds must be greater than 0 when graceful shutdown is enabled")
  | None => []
  end.

(** ** Control credentials and the HTTP listener *)

Definition validateTrinoControlAuth (fldPath : string) (auth : TrinoControlAuthSpec) : list field_error :=
  report (Contains (ca_Username auth) ":")
    (mkFieldError ErrInvalid (Child fldPath ["username"]) "username must not contain ':'") ++
  report (negb (TrimSpace (ca_Username auth) ≡? ca_Username auth))
    (mkFieldError ErrInvalid (Child fldPath ["username"]) "username must not have leading or trailing whitespace") ++
  match ca_PasswordSecret auth with
  | None =>
      [mkFieldError ErrRequired (Child fldPath ["passwordSecret"])
         "passwordSecret is required when trinoControlAuth is set"]
  | Some (secretName, secretKey) =>
      report (TrimSpace secretName ≡? "")
        (mkFieldError ErrRequired (Child fldPath ["passwordSecret"; "name"]) "Secret name must be set") ++
      report (TrimSpace secretKey ≡? "")
        (mkFieldError ErrRequired (Child fldPath ["passwordSecret"; "key"]) "Secret key must be set")
  end.

(** A configuration line [name = value]; comments and other lines have none. *)
Definition configPropertyValue (line key : string) : option string :=
  let line := TrimSpace line in
  if (line ≡? "") || HasPrefix line "#" then None else
  match Cut "=" line with
  | None => None
  | Some (name, value) => if negb (TrimSpace name ≡? key) then None else Some (TrimSpace value)
  end.

Definition configPropertyValuesFromText (text key : string) : list string :=
  omap (fun line => configPropertyValue line key) (Split (ascii_of_nat 10) text).

Record valuesOverlayConfigSetting := mkSetting { cs_value : string; cs_path : string }.

Definition valuesOverlayConfigPropertySettings (values : option (list (string * json))) (key fldPath : string) :
    list valuesOverlayConfigSetting :=
  match values with
  | None => []
  | Some values =>
      omap (fun prop =>
        s ← as_string prop; value ← configPropertyValue s key;
        Some (mkSetting value (Child fldPath ["valuesOverlay"; "additionalConfigProperties"])))
        (default [] (as_array (json_get values "additionalConfigProperties"))) ++
      match as_object (json_get values "server") with
      | None => []
      | Some server =>
          ["coordinatorExtraConfig"; "workerExtraConfig"] ≫= (fun extraConfigField =>
            match as_string (json_get server extraConfigField) with
            | None => []
            | Some extraConfig =>
                (fun value => mkSetting value (Child fldPath ["valuesOverlay"; "server"; extraConfigField])) <$>
                configPropertyValuesFromText extraConfig key
            end)
      end
  end.

Definition valuesOverlayAuthenticationSettings (values : option (list (string * json))) (fldPath : string) :
    list valuesOverlayConfigSetting :=
  match values with
  | None => []
  | Some m =>
      option_list (server ← as_object (json_get m "server"); cfg ← as_object (json_get server "config");
        authType ← as_string (json_get cfg "authenticationType");
        Some (mkSetting authType (Child fldPath ["valuesOverlay"; "server"; "config"; "authenticationType"]))) ++
      valuesOverlayConfigPropertySettings values "http-server.authentication.type" fldPath
  end.

Definition valuesOverlayHasConfigProperty (values : option (list (string * json))) (key : string) : bool :=
  match values with
  | None => false
  | Some m =>
      existsb (fun prop =>
        match s ← as_string prop; Cut "=" s with
        | Some (name, value) => (TrimSpace name ≡? key) && negb (TrimSpace value ≡? "")
        | None => false
        end) (default [] (as_array (json_get m "additionalConfigProperties")))
  end.

(** [strings.FieldsFunc]: the non-empty pieces between separators. *)
Fixpoint pieces (p : ascii -> bool) (s : string) : list string :=
  match s with
  | EmptyString => [""]
  | String c s =>
      if p c then "" :: pieces p s
      else match pieces p s with part :: parts => String c part :: parts | [] => [String c ""] end
  end.

Definition FieldsFunc (p : ascii -> bool) (s : string) : list string :=
  filterb (fun part => negb (part ≡? "")) (pieces p s).

Definition auth_separator (c : ascii) : bool :=
  (c ≡? ","%char) || (c ≡? " "%char) || (c ≡? ascii_of_nat 9) || (c ≡? ascii_of_nat 10).

Definition splitTrinoAuthenticationTypes (authType : string) : list string :=
  filterb (fun s => negb (s ≡? "")) ((fun part => ToUpper (TrimSpace part)) <$> FieldsFunc auth_separator authType).

Definition validateTrinoLifecycleAuthCompatibility (fldPath : string) (t : XTrinode) : list field_error :=
  let overlay := GetValuesOverlayMap (xt_Spec t) in
  let authSettings := valuesOverlayAuthenticationSettings overlay fldPath in
  let unsupported := authSettings ≫= (fun setting =>
    splitTrinoAuthenticationTypes (cs_value setting) ≫= (fun typ =>
      report (negb (typ ≡? "PASSWORD")) (NotSupported (cs_path setting) ["PASSWORD"]))) in
  let hasAuth := existsb (fun setting => negb (splitTrinoAuthenticationTypes (cs_value setting) ≡? [])) authSettings in
  let hasPassword := existsb (fun setting => member (splitTrinoAuthenticationTypes (cs_value setting)) "PASSWORD") authSettings in
  if negb hasAuth then unsupported else
  unsupported ++
  report (spec_TrinoControlAuth (xt_Spec t) ≫= ca_PasswordSecret ≡? None)
    (mkFieldError ErrRequired (Child fldPath ["trinoControlAuth"])
       "trinoControlAuth with passwordSecret is required when Trino HTTP authentication is enabled") ++
  report (hasPassword && negb (valuesOverlayHasConfigProperty overlay "internal-communication.shared-secret"))
    (mkFieldError ErrRequired (Child fldPath ["valuesOverlay"; "additionalConfigProperties"])
       "internal-communication.shared-secret is required when Trino HTTP authentication is enabled").

Definition validateTrinoLifecycleHTTPCompatibility (fldPath : string) (t : XTrinode) : list field_error :=
  let overlay := GetValuesOverlayMap (xt_Spec t) in
  (valuesOverlayConfigPropertySettings overlay "http-server.http.enabled" fldPath ≫= (fun setting =>
     report (ToLower (TrimSpace (cs_value setting)) ≡? "false")
       (mkFieldError ErrForbidden (cs_path setting)
          "Trino HTTP listener must stay enabled because XTrinode gateway routing and lifecycle control currently use HTTP coordinator service URLs"))) ++
  ((fun setting => mkFieldError ErrForbidden (cs_path setting)
      "do not override http-server.http.port directly; configure valuesOverlay.service.port so generated Services, status URLs, and lifecycle control use the same HTTP port") <$>
   valuesOverlayConfigPropertySettings overlay "http-server.http.port" fldPath).

(** [controlauth]: does the configuration turn on HTTP authentication? *)
Definition httpAuthenticationTypeProperty : string := "http-server.authentication.type".

Definition HasPasswordSecret (t : XTrinode) : bool :=
  negb (spec_TrinoControlAuth (xt_Spec t) ≫= ca_PasswordSecret ≡? None).

Definition HTTPAuthenticationConfigured (t : XTrinode) : bool :=
  match GetValuesOverlayMap (xt_Spec t) with
  | None => false
  | Some values =>
      let sets line := match configPropertyValue line httpAuthenticationTypeProperty with
                       | Some value => negb (value ≡? "") | None => false end in
      match as_object (json_get values "server") with
      | None => false
      | Some server =>
          match cfg ← as_object (json_get server "config"); as_string (json_get cfg "authenticationType") with
          | Some authType => negb (TrimSpace authType ≡? "")
          | None => false
          end ||
          existsb (fun extraConfigField =>
            match as_string (json_get server extraConfigField) with
            | None => false
            | Some extraConfig => existsb sets (Split (ascii_of_nat 10) extraConfig)
            end) ["coordinatorExtraConfig"; "workerExtraConfig"]
      end ||
      existsb (fun prop => from_option sets false (as_string prop))
        (default [] (as_array (json_get values "additionalConfigProperties")))
  end.

(** ** The whole validation *)

Section validation.
Context `{QuantityParser} (Getenv : string -> string).

Definition workerMemoryLimitBytes (t : XTrinode) : option Z :=
  '(resources, _) ← resolvedWorkerResourcesForMachineRecommendation t;
  match res_Limits resources !! ResourceMemory with
  | Some limit => if 0 <? q_Sign limit then Some (q_Value limit) else
      match res_Requests resources !! ResourceMemory with
      | Some request => if 0 <? q_Sign request then Some (q_Value request) else None
      | None => None
      end
  | None =>
      match res_Requests resources !! ResourceMemory with
      | Some request => if 0 <? q_Sign request then Some (q_Value request) else None
      | None => None
      end
  end.

Definition validateTrinoDataSizeAtMost (fldPath value : string) (maxBytes : Z) (message : string) : list field_error :=
  match parseTrinoDataSizeBytes value with
  | None => [mkFieldError ErrInvalid fldPath "must be a valid Trino data size such as 4GB or 512MB"]
  | Some parsed => report (maxBytes <? parsed) (mkFieldError ErrInvalid fldPath message)
  end.

Definition validateTrinoMemoryAgainstRuntimeShape (fldPath : string) (t : XTrinode) : list field_error :=
  match workerMemoryLimitBytes t with
  | None => []
  | Some workerLimit =>
      if workerLimit <=? 0 then [] else
      match spec_Limits (xt_Spec t) ≫= lim_Session with
      | Some s =>
          if sl_MaxTotalMemoryPerNode s ≡? "" then [] else
          validateTrinoDataSizeAtMost (Child fldPath ["limits"; "session"; "maxTotalMemoryPerNode"])
            (sl_MaxTotalMemoryPerNode s) workerLimit
            "maxTotalMemoryPerNode must not exceed resolved worker memory limit"
      | None => []
      end ++
      (["query.max-memory-per-node"; "query.max-total-memory-per-node"] ≫= (fun key =>
        valuesOverlayConfigPropertySettings (GetValuesOverlayMap (xt_Spec t)) key fldPath ≫= (fun setting =>
          validateTrinoDataSizeAtMost (cs_path setting) (cs_value setting) workerLimit
            (key +:+ " must not exceed resolved worker memory limit"))))
  end.

(** Validation of an optional part. *)
Definition part {A} (o : option A) (f : A -> list field_error) : list field_error := from_option f [] o.

Definition validateXTrinode (t : XTrinode) : list field_error :=
  let s := xt_Spec t in
  (if spec_Size s ≡? "" then [mkFieldError ErrRequired "spec.size" "size is required"]
   else report (negb (member ValidSizes (ToLower (spec_Size s))))
          (mkFieldError ErrInvalid "spec.size" "size must be one of: [xs s m l xl]")) ++
  at_least "maxWorkers" 0 "spec.maxWorkers" (spec_MaxWorkers s) ++
  at_most "maxWorkers" 500 "spec.maxWorkers" (spec_MaxWorkers s) ++
  at_least "minWorkers" 0 "spec.minWorkers" (spec_MinWorkers s) ++
  report (above (spec_MinWorkers s) (spec_MaxWorkers s))
    (mkFieldError ErrInvalid "spec.minWorkers" "minWorkers must be less than or equal to maxWorkers") ++
  part (spec_NodePool s) (validateNodePool Getenv "spec.nodePool" t) ++
  part (spec_Routing s) (validateRouting "spec.routing") ++
  part (spec_Resources s) (validateRuntimeResources "spec.resources") ++
  part (spec_Placement s) (validatePlacement "spec.placement") ++
  validateNodePoolSchedulePlacement "spec" t ++
  part (spec_KEDA s) (fun k =>
    validateKEDA "spec.keda" k ++
    report (kedaAutoscalingActive (Some k) && from_option (fun n => n <? 1) false (spec_MaxWorkers s))
      (mkFieldError ErrInvalid "spec.maxWorkers" "maxWorkers must be at least 1 when KEDA autoscaling is active")) ++
  part (spec_TLS s) (validateTLS "spec.tls") ++
  part (spec_Limits s) (validateLimits "spec.limits") ++
  part (spec_FaultTolerantExecution s) (validateFaultTolerantExecution "spec.faultTolerantExecution") ++
  part (spec_OperatorNodePoolDefaults s) (validateOperatorNodePoolDefaults Getenv "spec.operatorNodePoolDefaults") ++
  part (spec_RolloutPolicy s) (validateRolloutPolicy "spec.rolloutPolicy") ++
  part (spec_HelmChartConfig s) (validateHelmChartConfig "spec.helmChartConfig") ++
  part (spec_TrinoControlAuth s) (validateTrinoControlAuth "spec.trinoControlAuth") ++
  validateValuesOverlayPolicy "spec.valuesOverlay" t ++
  validateAutoscalerOwnership "spec" t ++
  validateTrinoLifecycleAuthCompatibility "spec" t ++
  validateTrinoLifecycleHTTPCompatibility "spec" t ++
  validateTrinoMemoryAgainstRuntimeShape "spec" t.
End validation.
