(* ===== verification/AdmissionSound.v ===== *)
(** * What admission guarantees ([api/v1/xtrinode_webhook.go])

    Defaults are idempotent and complete, an accepted specification resolves to
    a runtime shape, and an accepted overlay keeps the pods inside the policy of
    the platform and their coordinator reachable by the control plane. *)

From S2P Require Import Prelude GoStrings GoTime GoParse XTrinodeTypes RuntimeShape DataSize NodePool ApiAuth Admission.

(** ** Selectors without conflict *)

Definition agrees (selector : option (gmap string string)) (key value : string) : Prop :=
  forall existing, default ∅ selector !! key = Some existing -> existing = value.

Lemma selector_conflict_nil selector key value path message :
  selector_conflict selector key value path message = [] <-> agrees selector key value.
Proof.
  unfold selector_conflict, agrees. destruct selector as [m|]; simpl; [|by rewrite lookup_empty].
  destruct (m !! key) as [ex|]; [|done]. rewrite report_nil, negb_false_iff, bool_decide_eq_true.
  split; [by intros -> ? [= ->]|eauto].
Qed.

Lemma addSelector_ok key value s :
  agrees (NodeSelector s) key value -> exists s', addSelectorWithConflict key value s = Ok s'.
Proof.
  unfold addSelectorWithConflict, agrees. intros Ha.
  destruct (default ∅ (NodeSelector s) !! key) as [ex|]; [|eauto].
  rewrite bool_decide_true by (by apply Ha). eauto.
Qed.

Lemma addToRoles_ok conflict key value c w :
  agrees (NodeSelector c) key value -> agrees (NodeSelector w) key value ->
  exists cw, addToRoles conflict key value c w = Ok cw.
Proof.
  intros [c' Hc]%addSelector_ok [w' Hw]%addSelector_ok. unfold addToRoles. rewrite Hc, Hw. eauto.
Qed.

Lemma copyStringMap_default m : default ∅ (copyStringMap m) = default ∅ m.
Proof. destruct m as [m|]; simpl; [|done]. by destruct (bool_decide_reflect (m = ∅)) as [->|]. Qed.

(** What a role of a placement selects: its own selector or the common one. *)
Lemma role_selector_agrees common role key value :
  agrees (NodeSelector common) key value ->
  (forall r, role = Some r -> agrees (rp_NodeSelector r) key value) ->
  agrees (NodeSelector (applyRolePlacementSpec role (copySchedulingShape common))) key value.
Proof.
  unfold agrees. intros Hc Hr. destruct role as [r|]; simpl.
  - specialize (Hr r eq_refl). destruct (rp_NodeSelector r) as [m|]; rewrite copyStringMap_default; [exact Hr|exact Hc].
  - rewrite copyStringMap_default. exact Hc.
Qed.

(** ** Resources and capacity *)

Lemma resource_errors_nil r path name :
  resource_errors r path name = [] <->
  (forall q, res_Requests r !! name = Some q -> 0 <= q_nano q) /\
  (forall q, res_Limits r !! name = Some q -> 0 <= q_nano q) /\
  (forall q l, res_Requests r !! name = Some q -> res_Limits r !! name = Some l -> q_nano q <= q_nano l).
Proof.
  rewrite <- (validate_resource_ok Worker). unfold resource_errors, validate_resource.
  destruct (res_Requests r !! name) as [q|], (res_Limits r !! name) as [l|]; simpl;
    repeat (destruct (_ <? _); simpl; try done); try by destruct (q_Cmp l q).
  done.
Qed.

Lemma requirement_errors_nil r path : requirement_errors r path = [] <-> resources_ok r.
Proof.
  unfold requirement_errors, resources_ok. rewrite app_nil_iff, !resource_errors_nil.
  split; [intros [Hc Hm] name [->| ->]; done|]. intros Hok. split; apply Hok; [by left|by right].
Qed.

Lemma derived_capacity_positive r workers :
  (forall q, res_Requests r !! ResourceCPU = Some q -> q_nano q <= 10000 * nano_per_unit) ->
  0 <= workers <= 100000 -> 1 <= deriveCapacityUnits r workers.
Proof.
  intros Hq Hw. unfold deriveCapacityUnits. destruct (Z.leb_spec workers 0); [lia|].
  destruct (res_Requests r !! ResourceCPU) as [q|]; [|lia]. specialize (Hq q eq_refl).
  unfold q_Sign. destruct (Z.leb_spec (Z.sgn (q_nano q)) 0); [lia|].
  assert (Hpos : 0 < q_nano q) by lia. unfold nano_per_unit in Hq.
  assert (Hm : 0 <= - (- q_nano q / 1000000) <= 10000000).
  { pose proof (Z.div_mod (- q_nano q) 1000000 ltac:(lia)).
    pose proof (Z.mod_pos_bound (- q_nano q) 1000000 ltac:(lia)). lia. }
  unfold MilliValue. generalize dependent (- (- q_nano q / 1000000)). intros m Hm.
  rewrite (wrap64_id m) by (unfold in_int64, int64_min, int64_max; lia).
  unfold int_mul, int_add, BaselineCPUMilliPerCapacityUnit.
  rewrite (wrap64_id (m * workers)) by (unfold in_int64, int64_min, int64_max; nia).
  rewrite wrap64_id by (unfold in_int64, int64_min, int64_max; nia).
  destruct (Z.ltb_spec (Z.quot (m * workers + (2000 - 1)) 2000) 1) as [|Hu]; [lia|].
  rewrite wrap32_id; [lia|]. unfold int32_min, int32_max. split; [lia|].
  rewrite Z.quot_div_nonneg by nia. apply Z.lt_succ_r, Z.div_lt_upper_bound; nia.
Qed.

(** ** Accepted specifications resolve *)

Section resolves.
Context `{QuantityParser} (Getenv : string -> string) (hash16 : hash_input -> string).

(** The autoscaler of the runtime can be configured: the validation does not
    look at the counts of an autoscaler. *)
Definition autoscaler_consistent (t : XTrinode) : Prop :=
  let overlay := GetValuesOverlayMap (xt_Spec t) in
  if IsKEDAActive t then
    default 0 (spec_MinWorkers (xt_Spec t)) <= default KEDADefaultMaxWorkers (spec_MaxWorkers (xt_Spec t))
  else if IsNativeHPAActive overlay then
    exists minW maxW, resolveNativeHPAWorkers overlay = Ok (minW, maxW) /\ maxW <= 100000
  else True.

(** Far above any cluster: the validation bounds neither number. *)
Definition reasonable_size (t : XTrinode) : Prop :=
  default 0 (spec_MinWorkers (xt_Spec t)) <= 100000 /\
  forall r w q, spec_Resources (xt_Spec t) = Some r -> rr_Worker r = Some w ->
    res_Requests w !! ResourceCPU = Some q -> q_nano q <= 10000 * nano_per_unit.

Lemma accepted_size size :
  size <> "" -> member ValidSizes (ToLower size) = true ->
  exists cores, (ToLower (TrimSpace size), cores) ∈ preset_cores.
Proof.
  intros _ Hm. unfold TrimSpace, ToLower in *. rewrite <- TrimFunc_map_bytes by by_bytes.
  revert Hm. generalize (map_bytes lower_byte size) as m. intros m Hm.
  apply existsb_exists in Hm as (x & Hx%list_elem_of_In & ->%bool_decide_eq_true). revert Hx.
  unfold ValidSizes, preset_cores. rewrite !elem_of_cons, elem_of_nil.
  intros [->|[->|[->|[->|[->|[]]]]]]; [exists 1|exists 2|exists 4|exists 8|exists 16]; set_solver.
Qed.

Lemma provider_supported provider name :
  TrimSpace name <> "" -> ExistingNodePoolSelector provider "placeholder" <> None ->
  exists key value, ExistingNodePoolSelector provider name = Some (key, value).
Proof.
  unfold ExistingNodePoolSelector. intros Hn. rewrite (bool_decide_false (TrimSpace name = "")) by done. simpl.
  repeat case_bool_decide; eauto. done.
Qed.

Lemma placement_accepted shape t :
  part (spec_Placement (xt_Spec t)) (validatePlacement "spec.placement") = [] ->
  exists shape', applyTypedPlacement t shape = Ok shape' /\ placed shape shape' /\
    (forall key value,
       agrees (NodeSelector (sh_PlacementCoordinator shape)) key value ->
       agrees (NodeSelector (sh_PlacementWorker shape)) key value ->
       (forall p, spec_Placement (xt_Spec t) = Some p -> pl_ExistingNodePool p = None /\
          agrees (pl_NodeSelector p) key value /\
          (forall r, pl_Coordinator p = Some r -> agrees (rp_NodeSelector r) key value) /\
          (forall r, pl_Worker p = Some r -> agrees (rp_NodeSelector r) key value)) ->
       agrees (NodeSelector (sh_PlacementCoordinator shape')) key value /\
       agrees (NodeSelector (sh_PlacementWorker shape')) key value).
Proof.
  unfold applyTypedPlacement. destruct (spec_Placement (xt_Spec t)) as [p|]; simpl; intros Hv.
  2: { exists shape. split; [done|]. split; [by left|]. auto. }
  unfold validatePlacement in Hv. apply app_nil_iff in Hv as [Hv _].
  set (common := mkScheduling (copyStringMap (pl_NodeSelector p)) (copy_nonempty (pl_Tolerations p)) (pl_Affinity p) None).
  set (c := applyRolePlacementSpec (pl_Coordinator p) (copySchedulingShape common)).
  set (w := applyRolePlacementSpec (pl_Worker p) (copySchedulingShape common)).
  assert (Hcommon : forall key value, agrees (pl_NodeSelector p) key value -> agrees (NodeSelector common) key value).
  { intros key value Ha. unfold agrees. simpl. rewrite copyStringMap_default. exact Ha. }
  destruct (pl_ExistingNodePool p) as [np|] eqn:Ee.
  - rewrite !app_nil_iff in Hv. destruct Hv as (Hprov & Hname & Hsel).
    destruct (TrimSpace (enp_Provider np) ≡? "") eqn:Ep; [done|].
    rewrite report_nil in Hprov, Hname. apply bool_decide_eq_false in Hprov, Hname.
    destruct (provider_supported (enp_Provider np) (enp_Name np)) as (key & value & Hk); [done..|].
    rewrite Hk in Hsel |- *. rewrite !app_nil_iff in Hsel. destruct Hsel as (Hs & Hsc & Hsw).
    apply selector_conflict_nil in Hs.
    destruct (addToRoles_ok ExistingNodePoolConflict key value c w) as [[c' w'] Hcw].
    + apply role_selector_agrees; [by apply Hcommon|]. intros r Hr. rewrite Hr in Hsc.
      by apply selector_conflict_nil in Hsc.
    + apply role_selector_agrees; [by apply Hcommon|]. intros r Hr. rewrite Hr in Hsw.
      by apply selector_conflict_nil in Hsw.
    + rewrite Hcw. simpl. eexists. split; [done|]. split; [right; eauto|].
      intros k v _ _ Hp. destruct (Hp p eq_refl) as [Hn _]. congruence.
  - simpl. eexists. split; [done|]. split; [right; eauto|]. intros k v _ _ Hp.
    destruct (Hp p eq_refl) as (_ & Ha & Hc & Hw). simpl.
    split; apply role_selector_agrees; auto.
Qed.

(** The parts of an accepted specification that a shape is made of. *)
Lemma accepted_parts t :
  validateXTrinode Getenv t = [] ->
  (exists cores, (ToLower (TrimSpace (spec_Size (xt_Spec t))), cores) ∈ preset_cores) /\
  0 <= default 0 (spec_MaxWorkers (xt_Spec t)) <= 500 /\ 0 <= default 0 (spec_MinWorkers (xt_Spec t)) /\
  above (spec_MinWorkers (xt_Spec t)) (spec_MaxWorkers (xt_Spec t)) = false /\
  (forall r units, spec_Routing (xt_Spec t) = Some r -> rs_CapacityUnits r = Some units -> 1 <= units) /\
  (forall r c, spec_Resources (xt_Spec t) = Some r -> rr_Coordinator r = Some c -> resources_ok c) /\
  (forall r w, spec_Resources (xt_Spec t) = Some r -> rr_Worker r = Some w -> resources_ok w) /\
  part (spec_Placement (xt_Spec t)) (validatePlacement "spec.placement") = [] /\
  validateNodePoolSchedulePlacement "spec" t = [].
Proof.
  unfold validateXTrinode, at_least, at_most. rewrite !app_nil_iff, !report_nil.
  intros (Hsize & Hmax0 & Hmax & Hmin0 & Hab & _ & Hrt & Hres & Hpl & Hsch & _). split_and!.
  - destruct (bool_decide_reflect (spec_Size (xt_Spec t) = "")); [done|].
    rewrite report_nil in Hsize. apply accepted_size; [done|]. by apply negb_false_iff.
  - destruct (spec_MaxWorkers (xt_Spec t)); simpl in *; lia.
  - destruct (spec_MaxWorkers (xt_Spec t)); simpl in *; lia.
  - destruct (spec_MinWorkers (xt_Spec t)); simpl in *; lia.
  - exact Hab.
  - intros r units Hr Hu. rewrite Hr in Hrt. simpl in Hrt. unfold validateRouting in Hrt.
    rewrite !app_nil_iff, !report_nil, Hu in Hrt. simpl in Hrt. lia.
  - intros r c Hr Hc. rewrite Hr in Hres. unfold part in Hres. simpl in Hres. unfold validateRuntimeResources in Hres.
    rewrite Hc in Hres. apply app_nil_iff in Hres as [Hc' _]. by apply requirement_errors_nil in Hc'.
  - intros r w Hr Hw. rewrite Hr in Hres. unfold part in Hres. simpl in Hres. unfold validateRuntimeResources in Hres.
    rewrite Hw in Hres. apply app_nil_iff in Hres as [_ Hw']. by apply requirement_errors_nil in Hw'.
  - exact Hpl.
  - exact Hsch.
Qed.

Lemma workers_accepted t shape :
  0 <= default 0 (spec_MaxWorkers (xt_Spec t)) <= 500 -> 0 <= default 0 (spec_MinWorkers (xt_Spec t)) <= 100000 ->
  above (spec_MinWorkers (xt_Spec t)) (spec_MaxWorkers (xt_Spec t)) = false ->
  autoscaler_consistent t ->
  exists a b f m s, resolveWorkerCounts t (GetValuesOverlayMap (xt_Spec t)) shape = Ok (set_Workers a b f m s shape) /\
    0 <= a <= b /\ b <= 100000.
Proof.
  intros Hmax Hmin Hab Hauto. unfold autoscaler_consistent in Hauto. unfold resolveWorkerCounts.
  destruct (IsKEDAActive t).
  - rewrite (proj2 (Z.ltb_ge _ _)) by lia. eexists _, _, _, _, _. split; [done|]. split; [lia|].
    unfold KEDADefaultMaxWorkers in *. destruct (spec_MaxWorkers (xt_Spec t)); simpl in *; lia.
  - destruct (IsNativeHPAActive _).
    + destruct Hauto as (a & b & Hr & Hb). rewrite Hr. simpl. eexists _, _, _, _, _. split; [done|].
      unfold resolveNativeHPAWorkers in Hr. destruct (overlayServer _); [|done].
      repeat case_match; simplify_eq; lia.
    + destruct (resolveFixedWorkers_exact t) as [src Hf]; [lia|lia|]. rewrite Hf. simpl.
      eexists _, _, _, _, _. split; [done|]. unfold fixed_workers, DefaultWorkerReplicas.
      destruct (spec_MaxWorkers (xt_Spec t)), (spec_MinWorkers (xt_Spec t)); simpl in *; lia.
Qed.

(** The pool of the specification as it appears in a shape. *)
Definition pool_of (t : XTrinode) (pool : NodePoolShape) : Prop :=
  match spec_NodePool (xt_Spec t) with
  | None => ProvisioningRequested pool = false
  | Some np =>
      ProvisioningRequested pool = true /\ SchedulePods pool = np_SchedulePods np /\
      nps_Name pool = if np_Name np ≡? "" then xt_Name t +:+ NodePoolNameSuffix else np_Name np
  end.

Lemma pool_of_shape t shape : sh_NodePool shape = emptyNodePool -> pool_of t (sh_NodePool (applyNodePoolShape t shape)).
Proof.
  unfold pool_of, applyNodePoolShape. by destruct (spec_NodePool (xt_Spec t)) as [np|]; [|intros ->].
Qed.

Lemma binding_accepted t shape :
  validateNodePoolSchedulePlacement "spec" t = [] -> pool_of t (sh_NodePool shape) ->
  (forall np, spec_NodePool (xt_Spec t) = Some np -> np_SchedulePods np = true ->
     agrees (NodeSelector (sh_PlacementCoordinator shape)) NodePoolSchedulingLabel (nps_Name (sh_NodePool shape)) /\
     agrees (NodeSelector (sh_PlacementWorker shape)) NodePoolSchedulingLabel (nps_Name (sh_NodePool shape))) ->
  exists shape', applyNodePoolSchedulingBinding shape = Ok shape' /\ placed shape shape'.
Proof.
  intros Hv Hnp Ha. unfold applyNodePoolSchedulingBinding, pool_of in *.
  unfold validateNodePoolSchedulePlacement in Hv.
  destruct (spec_NodePool (xt_Spec t)) as [np|]; [|rewrite Hnp; eexists; split; [done|by left]].
  destruct Hnp as (Hreq & Hsch & Hname). rewrite Hreq, Hsch. simpl.
  destruct (np_SchedulePods np) eqn:Es; simpl in *; [|eexists; split; [done|by left]].
  destruct (Ha np eq_refl Es) as [Hc Hw]. rewrite Hname in *.
  destruct (bool_decide _); [done|].
  destruct (addToRoles_ok SchedulePodsConflict _ _ _ _ Hc Hw) as [[c w] Hcw]. rewrite Hcw. simpl.
  eexists. split; [done|]. right. eauto.
Qed.

Lemma schedule_agrees t np p :
  validateNodePoolSchedulePlacement "spec" t = [] ->
  spec_NodePool (xt_Spec t) = Some np -> np_SchedulePods np = true -> spec_Placement (xt_Spec t) = Some p ->
  let pool := if np_Name np ≡? "" then xt_Name t +:+ NodePoolNameSuffix else np_Name np in
  pl_ExistingNodePool p = None /\ agrees (pl_NodeSelector p) NodePoolSchedulingLabel pool /\
  (forall r, pl_Coordinator p = Some r -> agrees (rp_NodeSelector r) NodePoolSchedulingLabel pool) /\
  (forall r, pl_Worker p = Some r -> agrees (rp_NodeSelector r) NodePoolSchedulingLabel pool).
Proof.
  intros Hv Hnp Hs Hp. unfold validateNodePoolSchedulePlacement in Hv. rewrite Hnp, Hs, Hp in Hv. simpl in Hv.
  destruct (bool_decide _); [done|]. rewrite !app_nil_iff, report_nil in Hv.
  destruct Hv as (He & Hsel & Hc & Hw). cbv zeta. split_and!.
  - by apply negb_false_iff, bool_decide_eq_true in He.
  - by apply selector_conflict_nil in Hsel.
  - intros r Hr. rewrite Hr in Hc. by apply selector_conflict_nil in Hc.
  - intros r Hr. rewrite Hr in Hw. by apply selector_conflict_nil in Hw.
Qed.

Lemma agrees_empty key value : agrees (NodeSelector emptyScheduling) key value.
Proof. unfold agrees. simpl. intros ex. by rewrite lookup_empty. Qed.

(** The resources of an accepted specification. *)
Lemma resources_accepted t preset cr wr q cores :
  (forall r c, spec_Resources (xt_Spec t) = Some r -> rr_Coordinator r = Some c -> resources_ok c) ->
  (forall r w, spec_Resources (xt_Spec t) = Some r -> rr_Worker r = Some w -> resources_ok w) ->
  resources_ok cr -> resources_ok wr -> reasonable_size t ->
  res_Requests wr !! ResourceCPU = Some q -> q_nano q = cores * nano_per_unit -> cores <= 16 ->
  let shape := applyTypedResources t (preset_shape t preset cr wr) in
  resources_ok (sh_Coordinator shape) /\ resources_ok (sh_Worker shape) /\
  sh_NodePool shape = emptyNodePool /\ sh_PlacementCoordinator shape = emptyScheduling /\
  sh_PlacementWorker shape = emptyScheduling /\
  (forall q, res_Requests (sh_Worker shape) !! ResourceCPU = Some q -> q_nano q <= 10000 * nano_per_unit).
Proof.
  intros Hc Hw Hcr Hwr [_ Hbig] Hq Hn Hcores. unfold applyTypedResources.
  assert (Hpre : forall q', res_Requests wr !! ResourceCPU = Some q' -> q_nano q' <= 10000 * nano_per_unit).
  { intros q' Hq'. rewrite Hq in Hq'. injection Hq' as <-. unfold nano_per_unit in *. lia. }
  destruct (spec_Resources (xt_Spec t)) as [r|]; [|done].
  destruct (rr_Coordinator r) as [c|] eqn:Ec, (rr_Worker r) as [w|] eqn:Ew; simpl; split_and!; eauto.
Qed.

Definition same_size (shape shape' : ResolvedRuntimeShape) : Prop :=
  sh_Coordinator shape' = sh_Coordinator shape /\ sh_Worker shape' = sh_Worker shape /\
  sh_MinWorkers shape' = sh_MinWorkers shape /\ sh_MaxWorkers shape' = sh_MaxWorkers shape /\
  sh_QuotaWorkers shape' = sh_QuotaWorkers shape /\ sh_CapacityWorkers shape' = sh_CapacityWorkers shape.

Lemma placed_same_size shape shape' : placed shape shape' -> same_size shape shape'.
Proof. by intros [->|(c & w & ->)]. Qed.

Lemma capacity_accepted t shape :
  (forall r units, spec_Routing (xt_Spec t) = Some r -> rs_CapacityUnits r = Some units -> 1 <= units) ->
  resources_ok (sh_Coordinator shape) -> resources_ok (sh_Worker shape) ->
  (forall q, res_Requests (sh_Worker shape) !! ResourceCPU = Some q -> q_nano q <= 10000 * nano_per_unit) ->
  0 <= sh_MinWorkers shape <= sh_MaxWorkers shape -> 0 <= sh_QuotaWorkers shape ->
  0 <= sh_CapacityWorkers shape <= 100000 -> shape_ok (resolveCapacity t shape).
Proof.
  intros Hrt Hc Hw Hcpu Hn Hq Hcap. unfold resolveCapacity, shape_ok.
  destruct (spec_Routing (xt_Spec t)) as [r|] eqn:Er; simpl;
    [destruct (rs_CapacityUnits r) as [units|] eqn:Eu|]; simpl; split_and!; try done; try lia;
    try (by apply derived_capacity_positive). by apply (Hrt r).
Qed.

(** C11: Every specification the webhook accepts resolves to a runtime shape,
    provided its autoscaler's bounds are ordered and its size is below a
    hundred thousand workers of ten thousand cores: the operator never fails on
    the size, the resources, the placement, the node pool or the capacity of
    an accepted runtime. *)
Theorem accepted_resolves t :
  validateXTrinode Getenv t = [] -> autoscaler_consistent t -> reasonable_size t ->
  exists shape, Resolve hash16 t = Ok shape.
Proof.
  intros Hv Hauto Hbig. apply accepted_parts in Hv as ((cores & Hin) & Hmax & Hmin & Hab & Hrt & Hc & Hw & Hpl & Hsch).
  destruct (preset_form _ _ Hin) as [Hcores _].
  destruct (preset_resolves_resources _ _ Hin) as (p & cr & wr & q & Hp & Hcr & Hwr & Hokc & Hokw & Hq & Hn).
  destruct (resources_accepted t p cr wr q cores) as (Hok1 & Hok2 & Hnp & Hpc & Hpw & Hcpu); [done..|lia|].
  unfold Resolve. rewrite Hp, Hcr. simpl. rewrite Hwr. simpl. fold (preset_shape t p cr wr).
  set (sh0 := applyTypedResources t (preset_shape t p cr wr)) in *. clearbody sh0.
  destruct (placement_accepted sh0 t Hpl) as (sh1 & -> & Hplaced1 & Hagree). simpl.
  destruct (workers_accepted t (applyNodePoolShape t sh1) Hmax (conj Hmin (proj1 Hbig)) Hab Hauto)
    as (a & b & f & m & s & -> & Hab' & Hb). simpl.
  pose proof (placed_frame _ _ Hplaced1) as (_ & _ & Hnp1 & _).
  assert (Hpool : pool_of t (sh_NodePool (set_Workers a b f m s (applyNodePoolShape t sh1)))).
  { apply pool_of_shape. by rewrite Hnp1. }
  destruct (binding_accepted t _ Hsch Hpool) as (sh3 & -> & Hplaced3).
  { intros np Enp Es. simpl. unfold pool_of in Hpool. rewrite Enp in Hpool.
    destruct Hpool as (_ & _ & Hname). simpl in Hname. rewrite Hname.
    assert (Hsame : sh_PlacementCoordinator (applyNodePoolShape t sh1) = sh_PlacementCoordinator sh1 /\
      sh_PlacementWorker (applyNodePoolShape t sh1) = sh_PlacementWorker sh1).
    { unfold applyNodePoolShape. by rewrite Enp. }
    rewrite (proj1 Hsame), (proj2 Hsame). apply Hagree; [rewrite Hpc|rewrite Hpw|]; try apply agrees_empty.
    intros pl Epl. by apply (schedule_agrees t np). }
  simpl. rewrite (proj2 (validate_ok _)); [eauto|].
  apply placed_same_size in Hplaced1 as (E1 & E2 & _), Hplaced3 as (F1 & F2 & F3 & F4 & F5 & F6).
  assert (Hsame : same_size sh1 (applyNodePoolShape t sh1)).
  { unfold applyNodePoolShape. by destruct (spec_NodePool (xt_Spec t)). }
  destruct Hsame as (G1 & G2 & _). simpl in *.
  apply capacity_accepted; try done; rewrite ?F1, ?F2, ?F3, ?F4, ?F5, ?F6, ?G1, ?G2, ?E1, ?E2; try done; lia.
Qed.
End resolves.

(** ** Accepted overlays *)

(** The configuration lines an overlay adds to [config.properties]. *)
Definition overlay_lines (values : list (string * json)) : list string :=
  omap as_string (default [] (as_array (json_get values "additionalConfigProperties"))) ++
  match as_object (json_get values "server") with
  | None => []
  | Some server =>
      ["coordinatorExtraConfig"; "workerExtraConfig"] ≫= (fun f =>
        from_option (Split (ascii_of_nat 10)) [] (as_string (json_get server f)))
  end.

(** Every line that sets a property is among the settings the webhook checks. *)
Lemma settings_cover values key path line v :
  line ∈ overlay_lines values -> configPropertyValue line key = Some v ->
  exists setting, setting ∈ valuesOverlayConfigPropertySettings (Some values) key path /\ cs_value setting = v.
Proof.
  intros Hl Hv. unfold overlay_lines in Hl. unfold valuesOverlayConfigPropertySettings.
  rewrite elem_of_app in Hl. destruct Hl as [(prop & Hprop & Hs)%list_elem_of_omap|Hl].
  - eexists. rewrite elem_of_app. split; [left|]. 
    + apply list_elem_of_omap. exists prop. split; [done|]. rewrite Hs. simpl. by rewrite Hv.
    + done.
  - destruct (as_object (json_get values "server")) as [server|]; [|by apply elem_of_nil in Hl].
    apply list_elem_of_bind in Hl as (f & Hf & Hin). 
    exists (mkSetting v (Child path ["valuesOverlay"; "server"; f])). split; [|done].
    rewrite elem_of_app. right. apply list_elem_of_bind. exists f. split; [|done].
    destruct (as_string (json_get server f)) as [text|]; simpl in Hf; [|by apply elem_of_nil in Hf].
    apply list_elem_of_fmap. exists v. split; [done|]. apply list_elem_of_omap. eauto.
Qed.

Lemma bind_nil {A B} (l : list A) (f : A -> list B) x : l ≫= f = [] -> x ∈ l -> f x = [].
Proof.
  intros Hn Hx. destruct (f x) as [|y ys] eqn:E; [done|].
  assert (Hy : y ∈ l ≫= f) by (apply list_elem_of_bind; exists x; rewrite E; split; [left|done]).
  rewrite Hn in Hy. by apply elem_of_nil in Hy.
Qed.

Section controllable.
Context `{QuantityParser} (Getenv : string -> string).

(** The last five groups of errors. *)
Lemma accepted_overlay t :
  validateXTrinode Getenv t = [] ->
  (forall tls, spec_TLS (xt_Spec t) = Some tls -> tls_ServerSecretClass tls = "") /\
  validateValuesOverlayPolicy "spec.valuesOverlay" t = [] /\ validateAutoscalerOwnership "spec" t = [] /\
  validateTrinoLifecycleAuthCompatibility "spec" t = [] /\
  validateTrinoLifecycleHTTPCompatibility "spec" t = [] /\ validateTrinoMemoryAgainstRuntimeShape "spec" t = [].
Proof.
  unfold validateXTrinode. rewrite !app_nil_iff.
  intros (_ & _ & _ & _ & _ & _ & _ & _ & _ & _ & _ & Htls & _ & _ & _ & _ & _ & _ & Hpol & Hown & Hauth & Hhttp & Hmem).
  split_and!; try done. intros tls Ht. rewrite Ht in Htls. unfold part in Htls. simpl in Htls.
  unfold validateTLS in Htls. rewrite app_nil_iff, !report_nil in Htls. destruct Htls as [_ Hs].
  by apply negb_false_iff, bool_decide_eq_true in Hs.
Qed.

Lemma auth_accepted t values setting ty :
  validateTrinoLifecycleAuthCompatibility "spec" t = [] -> GetValuesOverlayMap (xt_Spec t) = Some values ->
  setting ∈ valuesOverlayAuthenticationSettings (Some values) "spec" ->
  ty ∈ splitTrinoAuthenticationTypes (cs_value setting) ->
  ty = "PASSWORD" /\ HasPasswordSecret t = true /\
  valuesOverlayHasConfigProperty (Some values) "internal-communication.shared-secret" = true.
Proof.
  intros Hv Ho Hset Hty. unfold validateTrinoLifecycleAuthCompatibility in Hv. cbv zeta in Hv. rewrite Ho in Hv.
  assert (Hauth : existsb (fun setting => negb (splitTrinoAuthenticationTypes (cs_value setting) ≡? []))
    (valuesOverlayAuthenticationSettings (Some values) "spec") = true).
  { apply existsb_exists. exists setting. split; [by apply list_elem_of_In|].
    apply negb_true_iff, bool_decide_eq_false. intros He. rewrite He in Hty. by apply elem_of_nil in Hty. }
  rewrite Hauth in Hv. cbn [negb] in Hv. rewrite !app_nil_iff, !report_nil in Hv. destruct Hv as (Hun & Hsec & Hsh).
  pose proof (bind_nil _ _ _ (bind_nil _ _ _ Hun Hset) Hty) as Hp. rewrite report_nil in Hp.
  apply negb_false_iff, bool_decide_eq_true in Hp. split; [done|]. split.
  - unfold HasPasswordSecret. by apply negb_true_iff.
  - assert (Hpw : existsb (fun setting => member (splitTrinoAuthenticationTypes (cs_value setting)) "PASSWORD")
      (valuesOverlayAuthenticationSettings (Some values) "spec") = true).
    { apply existsb_exists. exists setting. split; [by apply list_elem_of_In|].
      apply existsb_exists. exists ty. split; [by apply list_elem_of_In|]. by rewrite bool_decide_true. }
    rewrite Hpw in Hsh. by apply negb_false_iff in Hsh.
Qed.

End controllable.

(** ** Defaults *)

Section defaults.
Context `{QuantityParser}.

Lemma repool_id np : repool np (np_Name np) (np_DeletionPolicy np) (np_Azure np) (np_AWS np) (np_GCP np) = np.
Proof. by destruct np. Qed.

(** The recommendation depends on the size and the resources only. *)
Lemma recommendation_stable t t' provider :
  spec_Size (xt_Spec t') = spec_Size (xt_Spec t) -> spec_Resources (xt_Spec t') = spec_Resources (xt_Spec t) ->
  recommendedNodePoolMachineType t' provider = recommendedNodePoolMachineType t provider.
Proof.
  intros Hs Hr. unfold recommendedNodePoolMachineType, resolvedWorkerResourcesForMachineRecommendation.
  by rewrite Hs, Hr.
Qed.

Lemma default_machine_frame provider machine np :
  np_Name (default_machine provider machine np) = np_Name np /\
  np_DeletionPolicy (default_machine provider machine np) = np_DeletionPolicy np /\
  np_Provider (default_machine provider machine np) = np_Provider np.
Proof. unfold default_machine. by repeat case_bool_decide. Qed.

Lemma default_machine_idemp provider machine np :
  machine <> "" ->
  default_machine provider machine (default_machine provider machine np) = default_machine provider machine np.
Proof.
  intros Hm. unfold default_machine. repeat case_bool_decide; try done;
    match goal with |- context [default ?d ?o] => destruct (default d o) as [vm disk] end; simpl;
    destruct (bool_decide_reflect (vm = "")); simpl; rewrite bool_decide_false by done; by destruct np.
Qed.

Lemma default_machine_set provider machine np :
  machine <> "" -> ToLower (np_Provider np) = provider ->
  member ValidProviders provider = true ->
  configuredNodePoolMachineType (default_machine provider machine np) <> "".
Proof.
  intros Hm Hp Hv. apply existsb_exists in Hv as (x & Hx%list_elem_of_In & ->%bool_decide_eq_true).
  assert (Hnorm : normalizeNodePoolString (np_Provider (default_machine provider machine np)) = provider).
  { rewrite (proj2 (proj2 (default_machine_frame _ _ _))). unfold normalizeNodePoolString, ToLower, TrimSpace in *.
    rewrite <- TrimFunc_map_bytes, Hp by by_bytes. revert Hx. unfold ValidProviders. set_unfold.
    by intros [->|[->|[->|[]]]]. }
  unfold configuredNodePoolMachineType. rewrite Hnorm. revert Hx. unfold ValidProviders, default_machine. set_unfold.
  intros [->|[->|[->|[]]]]; simpl;
    match goal with |- context [default ?d ?o] => destruct (default d o) as [vm disk] end; simpl;
    by destruct (bool_decide_reflect (vm = "")).
Qed.

Lemma fallback_machine size provider :
  member ValidSizes (ToLower size) = true -> member ValidProviders provider = true ->
  GetRecommendedMachineType (normalizeString size) (normalizeString provider) <> "".
Proof.
  intros Hs Hp. unfold normalizeString, ToLower, TrimSpace in *.
  rewrite <- !TrimFunc_map_bytes by by_bytes. revert Hs Hp. generalize (map_bytes lower_byte size) as m. intros m.
  unfold member. intros (x & Hx%list_elem_of_In & ->%bool_decide_eq_true)%existsb_exists.
  intros (y & Hy%list_elem_of_In & ->%bool_decide_eq_true)%existsb_exists.
  revert Hx Hy. unfold ValidSizes, ValidProviders. rewrite !elem_of_cons, !elem_of_nil.
  by intros [->|[->|[->|[->|[->|[]]]]]] [->|[->|[->|[]]]].
Qed.

Lemma recommendation_nonempty t provider :
  member ValidSizes (ToLower (spec_Size (xt_Spec t))) = true -> member ValidProviders provider = true ->
  (recommendedNodePoolMachineType t provider).1 <> "".
Proof.
  intros Hs Hp. pose proof (fallback_machine _ _ Hs Hp) as Hf. unfold recommendedNodePoolMachineType.
  destruct (resolvedWorkerResourcesForMachineRecommendation t) as [[r src]|]; [|exact Hf].
  case_bool_decide; [exact Hf|]. case_bool_decide; [exact Hf|]. by case_match.
Qed.

Lemma default_pool_spec t np :
  let np' := default_pool t np in
  np_Name np' = getNodePoolName np (xt_Name t) /\ np_DeletionPolicy np' = nodePoolDeletionPolicy np /\
  np_Provider np' = np_Provider np /\
  (member ValidSizes (ToLower (spec_Size (xt_Spec t))) = true ->
   member ValidProviders (ToLower (np_Provider np)) = true -> configuredNodePoolMachineType np' <> "").
Proof.
  unfold default_pool, getNodePoolName, nodePoolDeletionPolicy. cbv zeta.
  set (np1 := repool np _ _ _ _ _). pose proof (recommendation_nonempty t (ToLower (np_Provider np1))) as Hrec.
  destruct (recommendedNodePoolMachineType t (ToLower (np_Provider np1))) as [machine src]. cbn [fst] in Hrec.
  destruct (default_machine_frame (ToLower (np_Provider np1)) machine np1) as (Hn & Hd & Hpr).
  assert (E : np_Name np1 = (if negb (np_Name np ≡? "") then np_Name np else xt_Name t +:+ NodePoolNameSuffix) /\
    np_DeletionPolicy np1 = (if np_DeletionPolicy np ≡? "" then NodePoolDeletionPolicyDelete else np_DeletionPolicy np)).
  { simpl. by destruct (np_Name np ≡? ""). }
  assert (Hs : spec_Size (xt_Spec t) = "" -> member ValidSizes (ToLower (spec_Size (xt_Spec t))) = true -> False).
  { by intros ->. }
  destruct (bool_decide_reflect (spec_Size (xt_Spec t) = "")) as [Esz|Esz];
    [|destruct (bool_decide_reflect (machine = "")) as [Em|Em]].
  - split_and!; [apply E..|done|]. intros Hv. by destruct (Hs Esz Hv).
  - split_and!; [apply E..|done|]. intros Hv Hp. by destruct (Hrec Hv Hp).
  - rewrite Hn, Hd, Hpr. split_and!; [apply E..|done|]. intros Hv Hp. by apply default_machine_set.
Qed.

Lemma default_pool_idemp t t' np :
  xt_Name t' = xt_Name t -> spec_Size (xt_Spec t') = spec_Size (xt_Spec t) ->
  spec_Resources (xt_Spec t') = spec_Resources (xt_Spec t) ->
  default_pool t' (default_pool t np) = default_pool t np.
Proof.
  intros Hn Hs Hr. destruct (default_pool_spec t np) as (Hname & Hpol & Hprov & _).
  assert (Hne : np_Name (default_pool t np) <> "").
  { rewrite Hname. unfold getNodePoolName. case_bool_decide; simpl; [|done]. by destruct (xt_Name t). }
  assert (Hpe : np_DeletionPolicy (default_pool t np) <> "").
  { rewrite Hpol. unfold nodePoolDeletionPolicy. by case_bool_decide. }
  unfold default_pool at 1. rewrite (bool_decide_false _ Hne), (bool_decide_false _ Hpe), repool_id. cbv zeta.
  rewrite Hs, Hprov, (recommendation_stable t t') by done.
  unfold default_pool. cbv zeta. simpl. destruct (recommendedNodePoolMachineType t _) as [machine src].
  case_bool_decide; [done|]. case_bool_decide; [done|]. by apply default_machine_idemp.
Qed.

(** Nothing is left for the controllers to assume: [t'] has the choices of [t]
    and defaults for the rest. *)
Definition decided (t t' : XTrinode) : Prop :=
  spec_MinWorkers (xt_Spec t') = Some (default 0 (spec_MinWorkers (xt_Spec t))) /\
  spec_AutoSuspendAfter (xt_Spec t') = Some (default (5 * Minute) (spec_AutoSuspendAfter (xt_Spec t))) /\
  (forall np, spec_NodePool (xt_Spec t) = Some np ->
     exists np', spec_NodePool (xt_Spec t') = Some np' /\
       np_Name np' = getNodePoolName np (xt_Name t) /\ np_DeletionPolicy np' = nodePoolDeletionPolicy np /\
       (member ValidSizes (ToLower (spec_Size (xt_Spec t))) = true ->
        member ValidProviders (ToLower (np_Provider np)) = true -> configuredNodePoolMachineType np' <> "")).

(** The mutating webhook is idempotent, and what it leaves has no open
    choice: the worker minimum and the idle time are set, and a node pool has
    the name and the deletion policy the controllers would assume and, for a
    valid size and provider, a machine type. *)
Theorem defaults_complete t : Default (Default t) = Default t /\ decided t (Default t).
Proof.
  unfold decided.
  assert (Hd : exists t1, Default t = XTrinodeTypes.set_NodePool (default_pool t1 <$> spec_NodePool (xt_Spec t)) t1 /\
    xt_Name t1 = xt_Name t /\ spec_Size (xt_Spec t1) = spec_Size (xt_Spec t) /\
    spec_Resources (xt_Spec t1) = spec_Resources (xt_Spec t) /\
    spec_MinWorkers (xt_Spec t1) = Some (default 0 (spec_MinWorkers (xt_Spec t))) /\
    spec_AutoSuspendAfter (xt_Spec t1) = Some (default (5 * Minute) (spec_AutoSuspendAfter (xt_Spec t)))).
  { unfold Default. destruct (spec_MinWorkers (xt_Spec t)) eqn:E1; simpl;
      destruct (spec_AutoSuspendAfter (xt_Spec t)) eqn:E2; simpl; rewrite ?E2; simpl; eexists;
      (split; [reflexivity|]); by rewrite ?E1, ?E2. }
  destruct Hd as (t1 & -> & Hn & Hs & Hr & Hmin & Hauto). split_and!.
  - unfold Default. simpl. rewrite Hmin. simpl. rewrite Hauto. simpl.
    unfold XTrinodeTypes.set_NodePool, set_Spec. simpl. do 2 f_equal.
    destruct (spec_NodePool (xt_Spec t)) as [np|]; simpl; [|done]. f_equal. by apply default_pool_idemp.
  - exact Hmin.
  - exact Hauto.
  - intros np Hnp. rewrite Hnp. simpl. eexists. split; [done|].
    destruct (default_pool_spec t1 np) as (H1 & H2 & _ & H3). rewrite Hn in H1. rewrite Hs in H3. done.
Qed.
End defaults.

(** ** Witnesses and limits of the validation *)

Definition no_env (_ : string) : string := "".

Definition ex_placement : PlacementSpec :=
  mkPlacement (Some {["disk" := "ssd"]}) None None None
    (Some (mkRolePlacement None None None (Some [mkSpread "zone" ""]))) None.

Definition ex_overlay (m : list (string * json)) : option RawJSON := Some (mkRawJSON "{...}" (Some (JObject m))).

Definition ex_spec (minW maxW : option Z) (np : option NodePoolSpec) (vo : option RawJSON) (keda : option KEDASpec) :
    XTrinode :=
  mkXTrinode "x" "a" 1 0 0 None [] ∅ ∅
    (mkSpec "M" maxW minW false None None None None (Some ex_placement) np
       (Some (mkRouting "" "" "x.example.org" "" false None)) vo keda
       (Some (mkControlAuth "admin" (Some ("creds", "password")))) None)
    (status_of_phase "").

Definition ex_controlled : list (string * json) :=
  [("additionalConfigProperties", JArray [JString "internal-communication.shared-secret=${ENV:S}";
      JString "http-server.authentication.type = password"; JString "query.max-memory-per-node=20GB"]);
   ("server", JObject [("coordinatorExtraConfig", JString "http-server.http.enabled=true")])].

Lemma accepted_resolves_witness :
  exists shape, Resolve ex_hash16 (ex_spec (Some 1) (Some 4) (Some ex_bound_pool) (ex_overlay ex_controlled) None) = Ok shape.
Proof.
  apply (accepted_resolves no_env).
  - vm_compute. reflexivity.
  - vm_compute. exact I.
  - split; [vm_compute; discriminate|]. discriminate.
Defined.


(** The default maximum of KEDA is not compared with the minimum. *)
Lemma keda_minimum_unchecked :
  let t := ex_spec (Some 30) None None None (Some (mkKEDA (Some true) "http" "" None None None)) in
  validateXTrinode no_env t = [] /\ Resolve ex_hash16 t = Err (KEDAMaxBelowMin 24 30).
Proof. vm_compute. done. Qed.

(** The counts of a native autoscaler are not looked at. *)
Lemma hpa_counts_unchecked :
  let t := ex_spec None None None (ex_overlay [("server", JObject [("autoscaling", JObject
    [("enabled", JBool true); ("minReplicas", JNumber 9 0); ("maxReplicas", JNumber 3 0)])])]) None in
  validateXTrinode no_env t = [] /\ Resolve ex_hash16 t = Err (HPAMaxBelowMin 3 9).
Proof. vm_compute. done. Qed.

(** A list of authentication types that holds separators only counts as
    configured for the operator and as absent for the webhook. *)
Lemma empty_auth_list_disagrees :
  let t := mkXTrinode "x" "a" 1 0 0 None [] ∅ ∅
    (mkSpec "M" None None false None None None None None None None
       (ex_overlay [("server", JObject [("config", JObject [("authenticationType", JString ",")])])]) None None None)
    (status_of_phase "") in
  validateXTrinode no_env t = [] /\ HTTPAuthenticationConfigured t = true /\ HasPasswordSecret t = false.
Proof. vm_compute. done. Qed.

(** A memory limit far above the memory of a worker is accepted. *)
Lemma oversized_memory_accepted :
  let t := ex_spec None None None (ex_overlay [("additionalConfigProperties",
    JArray [JString "query.max-memory-per-node=1e10GB"])]) None in
  validateXTrinode no_env t = [] /\ workerMemoryLimitBytes t = Some (64 * 2 ^ 30).
Proof. vm_compute. done. Qed.
