(* ===== verification/AdmissionUpdate.v ===== *)
(** * Admission of updates and privileged changes
    ([api/v1/xtrinode_webhook.go], [xtrinode_update_checks.go],
    [xtrinode_validation_diff.go], [xtrinode_validation_policy.go],
    [xtrinode_validation_warnings.go])

    An update is validated like a creation; in addition, changes that break
    clients or destroy nodes need a break-glass annotation, and changes of
    privileged fields need an authorised user. *)

From S2P Require Import Prelude GoStrings GoTime GoParse XTrinodeTypes RuntimeShape DataSize NodePool ApiAuth Admission.

(** ** [reflect.DeepEqual] *)

#[export] Instance JMXExporterSpec_eq_dec : EqDecision JMXExporterSpec.
Proof. solve_decision. Defined.
#[export] Instance SpotSpec_eq_dec : EqDecision SpotSpec.
Proof. solve_decision. Defined.
#[export] Instance PrewarmSpec_eq_dec : EqDecision PrewarmSpec.
Proof. solve_decision. Defined.
#[export] Instance SessionLimits_eq_dec : EqDecision SessionLimits.
Proof. solve_decision. Defined.
#[export] Instance LimitsSpec_eq_dec : EqDecision LimitsSpec.
Proof. solve_decision. Defined.
#[export] Instance ExchangeManagerSpec_eq_dec : EqDecision ExchangeManagerSpec.
Proof. solve_decision. Defined.
#[export] Instance FaultTolerantExecutionSpec_eq_dec : EqDecision FaultTolerantExecutionSpec.
Proof. solve_decision. Defined.
#[export] Instance TLSSpec_eq_dec : EqDecision TLSSpec.
Proof. solve_decision. Defined.
#[export] Instance OperatorNodePoolDefaultsSpec_eq_dec : EqDecision OperatorNodePoolDefaultsSpec.
Proof. solve_decision. Defined.
#[export] Instance AccessControlSpec_eq_dec : EqDecision AccessControlSpec.
Proof. solve_decision. Defined.
#[export] Instance SecretMountSpec_eq_dec : EqDecision SecretMountSpec.
Proof. solve_decision. Defined.
#[export] Instance ServiceAccountSpec_eq_dec : EqDecision ServiceAccountSpec.
Proof. solve_decision. Defined.
#[export] Instance IngressPathSpec_eq_dec : EqDecision IngressPathSpec.
Proof. solve_decision. Defined.
#[export] Instance IngressHostSpec_eq_dec : EqDecision IngressHostSpec.
Proof. solve_decision. Defined.
#[export] Instance IngressTLSSpec_eq_dec : EqDecision IngressTLSSpec.
Proof. solve_decision. Defined.
#[export] Instance IngressSpec_eq_dec : EqDecision IngressSpec.
Proof. solve_decision. Defined.
#[export] Instance NetworkPolicySpec_eq_dec : EqDecision NetworkPolicySpec.
Proof. solve_decision. Defined.
#[export] Instance ServiceMonitorRoleSpec_eq_dec : EqDecision ServiceMonitorRoleSpec.
Proof. solve_decision. Defined.
#[export] Instance ServiceMonitorSpec_eq_dec : EqDecision ServiceMonitorSpec.
Proof. solve_decision. Defined.
#[export] Instance CoordinatorHelmConfigSpec_eq_dec : EqDecision CoordinatorHelmConfigSpec.
Proof. solve_decision. Defined.
#[export] Instance GracefulShutdownSpec_eq_dec : EqDecision GracefulShutdownSpec.
Proof. solve_decision. Defined.
#[export] Instance TopologySpreadConstraint_eq_dec : EqDecision TopologySpreadConstraint.
Proof. solve_decision. Defined.
#[export] Instance WorkerHelmConfigSpec_eq_dec : EqDecision WorkerHelmConfigSpec.
Proof. solve_decision. Defined.
#[export] Instance EnvVar_eq_dec : EqDecision EnvVar.
Proof. solve_decision. Defined.
#[export] Instance EnvFromSource_eq_dec : EqDecision EnvFromSource.
Proof. solve_decision. Defined.
#[export] Instance HelmChartConfigSpec_eq_dec : EqDecision HelmChartConfigSpec.
Proof. solve_decision. Defined.

(** On decoded JSON: numbers by value, arrays in order, objects as maps. *)
Definition float_eqb (m1 e1 m2 e2 : Z) : bool :=
  let e := Z.min e1 e2 in m1 * 2 ^ (e1 - e) =? m2 * 2 ^ (e2 - e).

Fixpoint json_equal (a b : json) {struct a} : bool :=
  match a, b with
  | JNull, JNull => true
  | JBool x, JBool y => eqb x y
  | JNumber m e, JNumber m' e' => float_eqb m e m' e'
  | JString s, JString s' => s ≡? s'
  | JArray l, JArray l' =>
      (fix go (l : list json) (l' : list json) {struct l} : bool :=
         match l, l' with
         | [], [] => true
         | x :: l, y :: l' => json_equal x y && go l l'
         | _, _ => false
         end) l l'
  | JObject m, JObject m' =>
      (length m =? length m')%nat &&
      (fix go (m : list (string * json)) : bool :=
         match m with
         | [] => true
         | (k, v) :: m => existsb (fun kv => (kv.1 ≡? k) && json_equal v kv.2) m' && go m
         end) m
  | _, _ => false
  end.

(** ** Differences ([xtrinode_validation_diff.go]) *)

Definition AnnotationAllowBreakingUpdate : string := "xtrinode.analytics.xtrinode.io/allow-breaking-spec-update".

Definition hasBreakGlassAnnotation (t : XTrinode) : bool :=
  default "" (xt_Annotations t !! AnnotationAllowBreakingUpdate) ≡? "true".

Definition comparePointerInt32 (old newVal : option Z) : bool :=
  match old, newVal with
  | None, None => false
  | Some a, Some b => negb (a =? b)
  | _, _ => true
  end.

Definition comparePointerBool (old newVal : option bool) : bool :=
  match old, newVal with
  | None, None => false
  | Some a, Some b => negb (eqb a b)
  | _, _ => true
  end.

(** A nil slice or map has no elements. *)
Definition compareStringSlices (old newVal : option (list string)) : bool :=
  let old := default [] old in
  let newVal := default [] newVal in
  negb (length old =? length newVal)%nat ||
  existsb (fun ab => negb (ab.1 ≡? ab.2)) (zip old newVal).

(** [newVal[k]] reads as the empty string when [k] is missing. *)
Definition compareStringMaps (old newVal : option (gmap string string)) : bool :=
  let old := default ∅ old in
  let newVal := default ∅ newVal in
  negb (size old =? size newVal)%nat ||
  existsb (fun kv => negb (default "" (newVal !! kv.1) ≡? kv.2)) (map_to_list old).

(** [json.Unmarshal] into a map: an object, or the nil map for [null]. *)
Definition unmarshal_map (r : RawJSON) : option (option (list (string * json))) :=
  match raw_value r with
  | Some (JObject m) => Some (Some m)
  | Some JNull => Some None
  | _ => None
  end.

Definition compareValuesOverlay (old newVal : option RawJSON) : bool :=
  match old, newVal with
  | None, None => false
  | None, Some _ | Some _, None => true
  | Some old, Some newVal =>
      if raw_Raw old ≡? raw_Raw newVal then false else
      match unmarshal_map old, unmarshal_map newVal with
      | Some (Some m), Some (Some m') => negb (json_equal (JObject m) (JObject m'))
      | Some None, Some None => false
      | Some _, Some _ => true
      | _, _ => true
      end
  end.

Definition present {A} (o : option A) : bool := match o with Some _ => true | None => false end.

Definition nodePoolPresenceChanged (old newVal : XTrinode) : bool :=
  negb (eqb (present (spec_NodePool (xt_Spec old))) (present (spec_NodePool (xt_Spec newVal)))).
Definition routingPresenceChanged (old newVal : XTrinode) : bool :=
  negb (eqb (present (spec_Routing (xt_Spec old))) (present (spec_Routing (xt_Spec newVal)))).
Definition kedaPresenceChanged (old newVal : XTrinode) : bool :=
  negb (eqb (present (spec_KEDA (xt_Spec old))) (present (spec_KEDA (xt_Spec newVal)))).
Definition helmChartConfigPresenceChanged (old newVal : XTrinode) : bool :=
  negb (eqb (present (spec_HelmChartConfig (xt_Spec old))) (present (spec_HelmChartConfig (xt_Spec newVal)))).

Definition routingIdentityChanged (old newVal : XTrinode) : bool :=
  match spec_Routing (xt_Spec old), spec_Routing (xt_Spec newVal) with
  | None, None => false
  | Some oldR, Some newR =>
      negb (rs_RoutingGroup oldR ≡? rs_RoutingGroup newR) || negb (rs_Hostname oldR ≡? rs_Hostname newR) ||
      negb (rs_HostnameDomain oldR ≡? rs_HostnameDomain newR) || negb (rs_Header oldR ≡? rs_Header newR) ||
      negb (eqb (rs_Default oldR) (rs_Default newR))
  | _, _ => true
  end.

Definition nodePoolIdentityChanged (old newVal : XTrinode) : bool :=
  match spec_NodePool (xt_Spec old), spec_NodePool (xt_Spec newVal) with
  | None, None => false
  | Some oldNP, Some newNP =>
      negb (normalizeString (np_Provider oldNP) ≡? normalizeString (np_Provider newNP)) ||
      negb (np_Name oldNP ≡? np_Name newNP) || negb (np_ClusterName oldNP ≡? np_ClusterName newNP)
  | _, _ => true
  end.

Definition nodePoolShapeChanged (old newVal : XTrinode) : bool :=
  match spec_NodePool (xt_Spec old), spec_NodePool (xt_Spec newVal) with
  | Some oldNP, Some newNP =>
      if comparePointerInt32 (np_OSDiskGB oldNP) (np_OSDiskGB newNP) then true else
      if negb (np_Spot oldNP ≡? np_Spot newNP) then true else
      let provider := normalizeString (np_Provider newNP) in
      if provider ≡? "azure" then
        match np_Azure oldNP, np_Azure newNP with
        | Some a, Some b => negb (az_VMSize a ≡? az_VMSize b) || negb (az_OSDiskType a ≡? az_OSDiskType b)
        | _, _ => false
        end
      else if provider ≡? "aws" then
        match np_AWS oldNP, np_AWS newNP with
        | Some a, Some b => negb (aws_InstanceType a ≡? aws_InstanceType b) || negb (aws_VolumeType a ≡? aws_VolumeType b)
        | _, _ => false
        end
      else if provider ≡? "gcp" then
        match np_GCP oldNP, np_GCP newNP with
        | Some a, Some b => negb (gcp_MachineType a ≡? gcp_MachineType b) || negb (gcp_DiskType a ≡? gcp_DiskType b)
        | _, _ => false
        end
      else false
  | _, _ => false
  end.

Definition nodePoolSchedulingChanged (old newVal : XTrinode) : bool :=
  match spec_NodePool (xt_Spec old), spec_NodePool (xt_Spec newVal) with
  | Some oldNP, Some newNP =>
      compareStringSlices (np_Zones oldNP) (np_Zones newNP) ||
      compareStringMaps (np_NodeLabels oldNP) (np_NodeLabels newNP) ||
      compareStringMaps (np_ResourceTags oldNP) (np_ResourceTags newNP) ||
      negb (np_NodeTaints oldNP ≡? np_NodeTaints newNP)
  | _, _ => false
  end.

Definition normalizeNodePoolDeletionPolicy (np : NodePoolSpec) : string :=
  if np_DeletionPolicy np ≡? "" then NodePoolDeletionPolicyDelete else np_DeletionPolicy np.

Definition nodePoolDeletionPolicyChanged (old newVal : XTrinode) : bool :=
  match spec_NodePool (xt_Spec old), spec_NodePool (xt_Spec newVal) with
  | Some oldNP, Some newNP =>
      negb (normalizeNodePoolDeletionPolicy oldNP ≡? normalizeNodePoolDeletionPolicy newNP)
  | _, _ => false
  end.

(** The quotient of two 32-bit integers differs from 2 and 1/2 by more than the
    precision of a float, so the comparisons are exact. *)
Definition ratio_gt2 (n d : Z) : bool := if 0 <? d then 2 * d <? n else n <? 2 * d.
Definition ratio_lt_half (n d : Z) : bool := if 0 <? d then 2 * n <? d else d <? 2 * n.

Definition workerScalingChanged (old newXTrinode : XTrinode) : bool :=
  match spec_MaxWorkers (xt_Spec old), spec_MaxWorkers (xt_Spec newXTrinode) with
  | Some oldVal, Some newVal =>
      if oldVal =? 0 then 0 <? newVal else ratio_gt2 newVal oldVal || ratio_lt_half newVal oldVal
  | _, _ => false
  end.

(** ** Sizes ([xtrinode_validation_policy.go]) *)

Definition SizeOrder : gmap string Z := {[ "xs" := 1; "s" := 2; "m" := 3; "l" := 4; "xl" := 5 ]}.
Definition getSizeOrder (size : string) : Z := default 0 (SizeOrder !! normalizeString size).
Definition isSizeUpgrade (oldSize newSize : string) : bool := getSizeOrder oldSize <? getSizeOrder newSize.
Definition isSizeDowngrade (oldSize newSize : string) : bool := getSizeOrder newSize <? getSizeOrder oldSize.

(** ** Warnings ([xtrinode_validation_warnings.go]) *)

Definition buildSizeUpgradeWarning (oldSize newSize : string) : string :=
  "size change from " +:+ oldSize +:+ " to " +:+ newSize +:+ " will roll out new pods; expect coordinator/worker restarts".
Definition buildSizeDowngradeWarning (oldSize newSize : string) : string :=
  "size downgrade from " +:+ oldSize +:+ " to " +:+ newSize +:+
  " can cause resource pressure; prefer drain+replace; break-glass accepted".
Definition buildRoutingIdentityChangeWarning (fields : list string) : string :=
  "routing selector change (" +:+ Join ", " fields +:+ ") can break clients and reroute traffic; break-glass accepted".
Definition buildNodePoolIdentityChangeWarning (fields : list string) : string :=
  "node pool identity change (" +:+ Join ", " fields +:+ ") triggers infra re-provisioning; break-glass accepted".
Definition buildNodePoolShapeChangeWarning : string :=
  "node pool shape change likely triggers node replacement; break-glass accepted".
Definition buildNodePoolPresenceChangeWarning (added : bool) : string :=
  if added then "adding node pool changes infra ownership; break-glass accepted"
  else "removing node pool releases infra ownership; break-glass accepted".
Definition buildRoutingPresenceChangeWarning (added : bool) : string :=
  if added then "adding routing changes how clients must target the runtime; break-glass accepted"
  else "removing routing can make the route unreachable; break-glass accepted".
Definition buildValuesOverlayChangeWarning : string :=
  "valuesOverlay is privileged input that can alter pod security, volumes, images, networking, and rollout behavior; review carefully".
Definition buildWorkerScalingWarning (oldMax newMax : Z) : string :=
  "maxWorkers change from " +:+ fmt_d oldMax +:+ " to " +:+ fmt_d newMax +:+
  " (>2x) changes quota/limits and can amplify blast radius".
Definition buildCatalogSelectorChangeWarning : string :=
  "catalogSelector change can trigger mounts/config changes and a rollout".
Definition buildResourceGroupsProfileChangeWarning : string := "resourceGroupsProfile change likely triggers rollout".
Definition buildCustomConfigMapsChangeWarning : string := "customConfigMaps change likely triggers rollout".
Definition buildLimitsChangeWarning : string := "limits change alters runtime guardrails".
Definition buildFaultTolerantChangeWarning : string :=
  "fault-tolerant execution changes can materially change cluster behavior/perf characteristics".
Definition buildKEDAPresenceChangeWarning (added : bool) : string :=
  if added then "adding KEDA creates autoscaling resources; behavior shift expected"
  else "removing KEDA deletes autoscaling resources; behavior shift expected".
Definition buildKEDAConfigChangeWarning (field : string) : string :=
  "KEDA " +:+ field +:+ " change alters autoscaling behavior".
Definition buildTLSChangeWarning : string :=
  "TLS change usually forces restarts and can break connectivity if misconfigured".
Definition buildHelmChartConfigChangeWarning : string := "helmChartConfig change can trigger rollouts".
Definition buildNodePoolSchedulingChangeWarning (field : string) : string :=
  "node pool " +:+ field +:+ " change often triggers node replacement/rebalancing".
Definition buildNodePoolPrewarmChangeWarning : string := "node pool prewarm change alters node provisioning behavior".
Definition buildNodePoolDeletionPolicyChangeWarning : string :=
  "nodePool deletionPolicy change affects whether provider node-pool resources are deleted or retained during finalization".
Definition buildSuspendedChangeWarning : string := "suspending runtime implies service disruption".
Definition buildBreakGlassNotNeededWarning : string := "break-glass annotation present but no gated changes detected".
Definition buildOperatorNodePoolDefaultsChangeWarning : string :=
  "operatorNodePoolDefaults change can affect node pool defaults and infra outcomes".

(** ** Update checks ([xtrinode_update_checks.go])

    [breakGlassReq] is a map used as a set of reasons. *)

Record updateCtx := mkUpdateCtx {
  uc_breakGlassEnabled : bool;
  uc_breakGlassReq : gset string;
  uc_warnings : list string
}.

Definition newUpdateCtx (newObj : XTrinode) : updateCtx := mkUpdateCtx (hasBreakGlassAnnotation newObj) ∅ [].

Definition warn (w : string) (c : updateCtx) : updateCtx :=
  mkUpdateCtx (uc_breakGlassEnabled c) (uc_breakGlassReq c) (uc_warnings c ++ [w]).
Definition requireBreakGlass (reason : string) (c : updateCtx) : updateCtx :=
  mkUpdateCtx (uc_breakGlassEnabled c) ({[reason]} ∪ uc_breakGlassReq c) (uc_warnings c).

(** A step under a condition. *)
Definition when (b : bool) (f : updateCtx -> updateCtx) (c : updateCtx) : updateCtx := if b then f c else c.

(** A gated change: it needs the annotation and warns when it is there. *)
Definition gate (reason warning : string) (c : updateCtx) : updateCtx :=
  let c := requireBreakGlass reason c in when (uc_breakGlassEnabled c) (warn warning) c.

Definition updateCheck := XTrinode -> XTrinode -> updateCtx -> updateCtx.

Definition checkSizeChange : updateCheck := fun oldObj newObj c =>
  let a := spec_Size (xt_Spec oldObj) in
  let b := spec_Size (xt_Spec newObj) in
  if a ≡? b then c else
  if isSizeUpgrade a b then warn (buildSizeUpgradeWarning a b) c else
  if isSizeDowngrade a b then gate "spec.size (downgrade)" (buildSizeDowngradeWarning a b) c else c.

Definition checkWorkerScaling : updateCheck := fun oldObj newObj c =>
  if workerScalingChanged oldObj newObj then
    match spec_MaxWorkers (xt_Spec oldObj), spec_MaxWorkers (xt_Spec newObj) with
    | Some a, Some b => warn (buildWorkerScalingWarning a b) c
    | _, _ => c
    end
  else c.

Definition checkSuspended : updateCheck := fun oldObj newObj =>
  when (negb (eqb (spec_Suspended (xt_Spec oldObj)) (spec_Suspended (xt_Spec newObj))) && spec_Suspended (xt_Spec newObj))
    (warn buildSuspendedChangeWarning).

(** The names of the fields that differ. *)
Definition changed_fields (l : list (bool * string)) : list string := snd <$> filterb fst l.

(** The three gates on the pool, in the order of the code. *)
Definition pool_gates : updateCheck := fun oldObj newObj c =>
  let oldNP := spec_NodePool (xt_Spec oldObj) in
  let newNP := spec_NodePool (xt_Spec newObj) in
  let c := when (nodePoolPresenceChanged oldObj newObj)
    (gate "spec.nodePool (presence)" (buildNodePoolPresenceChangeWarning (present newNP))) c in
  let c := when (nodePoolIdentityChanged oldObj newObj)
    (gate "spec.nodePool identity" (buildNodePoolIdentityChangeWarning
       (match oldNP, newNP with
        | Some a, Some b =>
            changed_fields
              [(negb (normalizeString (np_Provider a) ≡? normalizeString (np_Provider b)), "provider");
               (negb (np_Name a ≡? np_Name b), "name"); (negb (np_ClusterName a ≡? np_ClusterName b), "clusterName")]
        | _, _ => []
        end))) c in
  when (nodePoolShapeChanged oldObj newObj) (gate "spec.nodePool shape" buildNodePoolShapeChangeWarning) c.

Definition pool_scheduling (a b : NodePoolSpec) (changed : bool) (c : updateCtx) : updateCtx :=
  if changed then
    let c := when (compareStringSlices (np_Zones a) (np_Zones b)) (warn (buildNodePoolSchedulingChangeWarning "zones")) c in
    let c := when (compareStringMaps (np_NodeLabels a) (np_NodeLabels b)) (warn (buildNodePoolSchedulingChangeWarning "node labels")) c in
    let c := when (compareStringMaps (np_ResourceTags a) (np_ResourceTags b)) (warn (buildNodePoolSchedulingChangeWarning "resource tags")) c in
    when (negb (np_NodeTaints a ≡? np_NodeTaints b)) (warn (buildNodePoolSchedulingChangeWarning "node taints")) c
  else c.

Definition pool_policy (a b : NodePoolSpec) (changed : bool) (c : updateCtx) : updateCtx :=
  if changed then
    let oldPolicy := normalizeNodePoolDeletionPolicy a in
    let newPolicy := normalizeNodePoolDeletionPolicy b in
    let c := when (negb (oldPolicy ≡? NodePoolDeletionPolicyDelete) && (newPolicy ≡? NodePoolDeletionPolicyDelete))
      (requireBreakGlass "spec.nodePool.deletionPolicy") c in
    warn buildNodePoolDeletionPolicyChangeWarning c
  else c.

Definition checkNodePoolChanges : updateCheck := fun oldObj newObj c =>
  let c := pool_gates oldObj newObj c in
  match spec_NodePool (xt_Spec oldObj), spec_NodePool (xt_Spec newObj) with
  | Some a, Some b =>
      let c := pool_scheduling a b (nodePoolSchedulingChanged oldObj newObj) c in
      let c := when (negb (np_Prewarm a ≡? np_Prewarm b)) (warn buildNodePoolPrewarmChangeWarning) c in
      pool_policy a b (nodePoolDeletionPolicyChanged oldObj newObj) c
  | _, _ => c
  end.

Definition checkRoutingChanges : updateCheck := fun oldObj newObj c =>
  let oldR := spec_Routing (xt_Spec oldObj) in
  let newR := spec_Routing (xt_Spec newObj) in
  let c := when (routingPresenceChanged oldObj newObj)
    (gate "spec.routing (presence)" (buildRoutingPresenceChangeWarning (present newR))) c in
  when (routingIdentityChanged oldObj newObj)
    (gate "spec.routing identity" (buildRoutingIdentityChangeWarning
       (match oldR, newR with
        | Some a, Some b =>
            changed_fields
              [(negb (rs_RoutingGroup a ≡? rs_RoutingGroup b), "routingGroup"); (negb (rs_Hostname a ≡? rs_Hostname b), "hostname");
               (negb (rs_HostnameDomain a ≡? rs_HostnameDomain b), "hostnameDomain"); (negb (rs_Header a ≡? rs_Header b), "header");
               (negb (eqb (rs_Default a) (rs_Default b)), "default")]
        | _, _ => []
        end))) c.

Definition checkCatalogSelector : updateCheck := fun oldObj newObj =>
  when (negb (spec_CatalogSelector (xt_Spec oldObj) ≡? spec_CatalogSelector (xt_Spec newObj)))
    (warn buildCatalogSelectorChangeWarning).
Definition checkResourceGroupsProfile : updateCheck := fun oldObj newObj =>
  when (negb (spec_ResourceGroupsProfile (xt_Spec oldObj) ≡? spec_ResourceGroupsProfile (xt_Spec newObj)))
    (warn buildResourceGroupsProfileChangeWarning).
Definition checkCustomConfigMaps : updateCheck := fun oldObj newObj =>
  when (compareStringSlices (spec_CustomConfigMaps (xt_Spec oldObj)) (spec_CustomConfigMaps (xt_Spec newObj)))
    (warn buildCustomConfigMapsChangeWarning).
Definition checkLimits : updateCheck := fun oldObj newObj =>
  when (negb (spec_Limits (xt_Spec oldObj) ≡? spec_Limits (xt_Spec newObj))) (warn buildLimitsChangeWarning).
Definition checkValuesOverlay : updateCheck := fun oldObj newObj =>
  when (compareValuesOverlay (spec_ValuesOverlay (xt_Spec oldObj)) (spec_ValuesOverlay (xt_Spec newObj)))
    (warn buildValuesOverlayChangeWarning).
Definition checkFaultTolerantExecution : updateCheck := fun oldObj newObj =>
  when (negb (spec_FaultTolerantExecution (xt_Spec oldObj) ≡? spec_FaultTolerantExecution (xt_Spec newObj)))
    (warn buildFaultTolerantChangeWarning).

Definition checkKEDAChanges : updateCheck := fun oldObj newObj c =>
  let c := when (kedaPresenceChanged oldObj newObj)
    (warn (buildKEDAPresenceChangeWarning (present (spec_KEDA (xt_Spec newObj))))) c in
  match spec_KEDA (xt_Spec oldObj), spec_KEDA (xt_Spec newObj) with
  | Some a, Some b =>
      fold_left (fun c f => warn (buildKEDAConfigChangeWarning f) c)
        (changed_fields
          [(negb (keda_ScalerType a ≡? keda_ScalerType b), "scalerType");
           (negb (keda_ScalingMetric a ≡? keda_ScalingMetric b), "scalingMetric");
           (comparePointerBool (keda_Enabled a) (keda_Enabled b), "enabled");
           (negb (keda_Threshold a ≡? keda_Threshold b), "threshold");
           (negb (keda_PrometheusServer a ≡? keda_PrometheusServer b), "prometheusServer");
           (negb (keda_PrometheusQuery a ≡? keda_PrometheusQuery b), "prometheusQuery");
           (negb (keda_HTTPEndpoint a ≡? keda_HTTPEndpoint b), "httpEndpoint");
           (negb (keda_HTTPValueLocation a ≡? keda_HTTPValueLocation b), "httpValueLocation");
           (negb (keda_ScaleDownCooldown a ≡? keda_ScaleDownCooldown b), "scaleDownCooldown");
           (negb (keda_ScaleUpCooldown a ≡? keda_ScaleUpCooldown b), "scaleUpCooldown");
           (negb (keda_JMXExporter a ≡? keda_JMXExporter b), "jmxExporter")]) c
  | _, _ => c
  end.

Definition checkTLSChanges : updateCheck := fun oldObj newObj =>
  when (negb (spec_TLS (xt_Spec oldObj) ≡? spec_TLS (xt_Spec newObj))) (warn buildTLSChangeWarning).

Definition checkHelmChartConfigChanges : updateCheck := fun oldObj newObj c =>
  if helmChartConfigPresenceChanged oldObj newObj then warn buildHelmChartConfigChangeWarning c else
  when (negb (spec_HelmChartConfig (xt_Spec oldObj) ≡? spec_HelmChartConfig (xt_Spec newObj)))
    (warn buildHelmChartConfigChangeWarning) c.

Definition checkOperatorNodePoolDefaults : updateCheck := fun oldObj newObj =>
  when (negb (spec_OperatorNodePoolDefaults (xt_Spec oldObj) ≡? spec_OperatorNodePoolDefaults (xt_Spec newObj)))
    (warn buildOperatorNodePoolDefaultsChangeWarning).

Definition update_checks : list updateCheck :=
  [checkSizeChange; checkWorkerScaling; checkSuspended; checkNodePoolChanges; checkRoutingChanges;
   checkCatalogSelector; checkResourceGroupsProfile; checkCustomConfigMaps; checkLimits; checkValuesOverlay;
   checkFaultTolerantExecution; checkKEDAChanges; checkTLSChanges; checkHelmChartConfigChanges;
   checkOperatorNodePoolDefaults].

Definition run_checks (oldObj newObj : XTrinode) (c : updateCtx) : updateCtx :=
  fold_left (fun c chk => chk oldObj newObj c) update_checks c.

(** ** The webhooks *)

Inductive admission_error :=
| Rejected (name : string) (errs : list field_error)
| WrongType (text : string).

(** A [runtime.Object] is the expected kind or some other Go type. *)
Inductive runtime_object := AnXTrinode (t : XTrinode) | AnotherObject (go_type : string).

(** [authenticationv1.UserInfo] of an admission request. *)
Record UserInfo := mkUserInfo {
  ui_Username : string;
  ui_UID : string;
  ui_Groups : list string;
  ui_Extra : gmap string (list string)
}.

Definition authorizer := UserInfo -> string -> result string (bool * string).

(** [SubjectAccessReview]: who may do what, and the answer of the API server. *)
Record sar_spec := mkSAR {
  sar_User : UserInfo;
  sar_Namespace : string;
  sar_Verb : string;
  sar_Group : string;
  sar_Resource : string;
  sar_Subresource : string
}.

Record sar_status := mkSARStatus {
  sar_Allowed : bool;
  sar_Reason : string;
  sar_EvaluationError : string
}.

Definition valuesOverlayRBACResource : string := "xtrinodes/valuesoverlay".

Definition sar_authorizer (create : option (sar_spec -> result string sar_status)) : authorizer :=
  fun user namespace =>
  match create with
  | None => Ok (false, "valuesOverlay admission authorizer is not configured")
  | Some create =>
      match create (mkSAR user namespace "update" "analytics.xtrinode.io" "xtrinodes" "valuesoverlay") with
      | Err e => Err ("failed to evaluate valuesOverlay authorization: " +:+ e)
      | Ok st =>
          if sar_Allowed st then Ok (true, "") else
          if negb (sar_Reason st ≡? "") then Ok (false, sar_Reason st) else
          if negb (sar_EvaluationError st ≡? "") then Ok (false, sar_EvaluationError st) else
          Ok (false, "user lacks update permission on analytics.xtrinode.io/" +:+ valuesOverlayRBACResource)
      end
  end.

Definition valuesOverlayChanged (oldObj : option XTrinode) (newObj : XTrinode) : bool :=
  match oldObj with
  | None => present (spec_ValuesOverlay (xt_Spec newObj))
  | Some oldObj => compareValuesOverlay (spec_ValuesOverlay (xt_Spec oldObj)) (spec_ValuesOverlay (xt_Spec newObj))
  end.

Definition privilegedHelmChartConfigChanged (oldObj : option XTrinode) (newObj : XTrinode) : bool :=
  match oldObj with
  | None => present (spec_HelmChartConfig (xt_Spec newObj))
  | Some oldObj => negb (spec_HelmChartConfig (xt_Spec oldObj) ≡? spec_HelmChartConfig (xt_Spec newObj))
  end.

Definition privilegedSpecChangeReasons (oldObj : option XTrinode) (newObj : XTrinode) : list string :=
  (if valuesOverlayChanged oldObj newObj then ["spec.valuesOverlay"] else []) ++
  (if privilegedHelmChartConfigChanged oldObj newObj then ["spec.helmChartConfig"] else []).

Section webhook.
Context `{QuantityParser} (Getenv : string -> string).

(** The user of the admission request, and [valuesOverlayAuthorizer]; either
    may be missing. *)
Context (request : option UserInfo) (allowed : option authorizer).

Definition validatePrivilegedSpecAdmission (oldObj : option XTrinode) (newObj : XTrinode) : option admission_error :=
  match privilegedSpecChangeReasons oldObj newObj with
  | [] => None
  | reasons =>
      let fields := "privileged fields (" +:+ Join ", " reasons +:+ ")" in
      let refuse kind message := Some (Rejected (xt_Name newObj) [mkFieldError kind "spec" message]) in
      match request with
      | None => refuse ErrForbidden (fields +:+ " require admission request user info")
      | Some user =>
          match allowed with
          | None => refuse ErrForbidden (fields +:+ " require admission authorization, but it is not configured")
          | Some allow =>
              match allow user (xt_Namespace newObj) with
              | Err e => refuse ErrInternal e
              | Ok (true, _) => None
              | Ok (false, reason) =>
                  let message := fields +:+ " require update permission on analytics.xtrinode.io/" +:+
                                 valuesOverlayRBACResource in
                  refuse ErrForbidden (if TrimSpace reason ≡? "" then message else message +:+ ": " +:+ reason)
              end
          end
      end
  end.

Definition validateCreateWarnings (t : XTrinode) : list string :=
  (if present (spec_ValuesOverlay (xt_Spec t)) then [buildValuesOverlayChangeWarning] else []) ++
  nodePoolPlacementWarnings t ++ nodePoolFitWarnings t.

(** [validateXTrinode] as an error. *)
Definition invalid (t : XTrinode) : option admission_error :=
  match validateXTrinode Getenv t with [] => None | errs => Some (Rejected (xt_Name t) errs) end.

Definition validateXTrinodeUpdate (t old : XTrinode) : list string * option admission_error :=
  match invalid t with
  | Some e => ([], Some e)
  | None =>
      let c := run_checks old t (newUpdateCtx t) in
      let reasons := elements (uc_breakGlassReq c) in
      if (0 <? length reasons)%nat && negb (uc_breakGlassEnabled c) then
        (uc_warnings c, Some (Rejected (xt_Name t) [mkFieldError ErrForbidden "spec"
           ("the following changes require break-glass annotation (" +:+ AnnotationAllowBreakingUpdate +:+ "=" +:+
            quoted "true" +:+ "): " +:+ Join ", " reasons)]))
      else
        let c := when (uc_breakGlassEnabled c && (length reasons =? 0)%nat) (warn buildBreakGlassNotNeededWarning) c in
        (uc_warnings c ++ nodePoolPlacementWarnings t ++ nodePoolFitWarnings t, None)
  end.

(** [Default] of the webhook changes the object it is given. *)
Definition webhook_Default (obj : runtime_object) : result string runtime_object :=
  match obj with
  | AnXTrinode t => Ok (AnXTrinode (Default t))
  | AnotherObject ty => Err ("expected XTrinode, got " +:+ ty)
  end.

Definition webhook_ValidateCreate (obj : runtime_object) : list string * option admission_error :=
  match obj with
  | AnotherObject ty => ([], Some (WrongType ("expected XTrinode, got " +:+ ty)))
  | AnXTrinode t =>
      let warnings := validateCreateWarnings t in
      match invalid t with
      | Some e => (warnings, Some e)
      | None => (warnings, validatePrivilegedSpecAdmission None t)
      end
  end.

Definition webhook_ValidateUpdate (oldObj newObj : runtime_object) : list string * option admission_error :=
  match newObj with
  | AnotherObject ty => ([], Some (WrongType ("expected new XTrinode, got " +:+ ty)))
  | AnXTrinode t =>
      match oldObj with
      | AnotherObject _ => ([], Some (WrongType "expected old object to be of type XTrinode"))
      | AnXTrinode old =>
          match validateXTrinodeUpdate t old with
          | (warnings, Some e) => (warnings, Some e)
          | (warnings, None) => (warnings, validatePrivilegedSpecAdmission (Some old) t)
          end
      end
  end.

Definition webhook_ValidateDelete (obj : runtime_object) : list string * option admission_error :=
  match obj with
  | AnotherObject ty => ([], Some (WrongType ("expected XTrinode, got " +:+ ty)))
  | AnXTrinode _ => ([], None)
  end.

(** ** Gated changes *)

(** What an update may not do without the annotation, in terms of the two
    specifications. *)
Definition breaking_size (old new : XTrinode) : Prop :=
  getSizeOrder (spec_Size (xt_Spec new)) < getSizeOrder (spec_Size (xt_Spec old)).

Definition breaking_pool (old new : NodePoolSpec) : Prop :=
  normalizeString (np_Provider old) <> normalizeString (np_Provider new) \/
  np_Name old <> np_Name new \/ np_ClusterName old <> np_ClusterName new \/
  np_OSDiskGB old <> np_OSDiskGB new \/ np_Spot old <> np_Spot new \/
  (normalizeString (np_Provider new) = "azure" /\ exists a b, np_Azure old = Some a /\ np_Azure new = Some b /\ a <> b) \/
  (normalizeString (np_Provider new) = "aws" /\ exists a b, np_AWS old = Some a /\ np_AWS new = Some b /\ a <> b) \/
  (normalizeString (np_Provider new) = "gcp" /\ exists a b, np_GCP old = Some a /\ np_GCP new = Some b /\ a <> b) \/
  (nodePoolDeletionPolicy old <> NodePoolDeletionPolicyDelete /\
   nodePoolDeletionPolicy new = NodePoolDeletionPolicyDelete).

Definition breaking_route (old new : RoutingSpec) : Prop :=
  rs_RoutingGroup old <> rs_RoutingGroup new \/ rs_Hostname old <> rs_Hostname new \/
  rs_HostnameDomain old <> rs_HostnameDomain new \/ rs_Header old <> rs_Header new \/ rs_Default old <> rs_Default new.

(** Added, removed, or changed in a breaking way. *)
Definition breaking_part {A} (R : A -> A -> Prop) (old new : option A) : Prop :=
  match old, new with
  | None, None => False
  | Some a, Some b => R a b
  | _, _ => True
  end.

Definition breaking (old new : XTrinode) : Prop :=
  breaking_size old new \/
  breaking_part breaking_pool (spec_NodePool (xt_Spec old)) (spec_NodePool (xt_Spec new)) \/
  breaking_part breaking_route (spec_Routing (xt_Spec old)) (spec_Routing (xt_Spec new)).
End webhook.

(** What a step does to the context: it keeps the annotation flag, adds the
    reasons [R], drops no warning, and warns about a reason it adds when the
    annotation is there. *)
Record effect (f : updateCtx -> updateCtx) (R : list string) : Prop := mkEffect {
  eff_enabled : forall c, uc_breakGlassEnabled (f c) = uc_breakGlassEnabled c;
  eff_reasons : forall c x, x ∈ uc_breakGlassReq (f c) <-> x ∈ R \/ x ∈ uc_breakGlassReq c;
  eff_warnings : forall c, exists ws, uc_warnings (f c) = uc_warnings c ++ ws /\
    (R <> [] -> uc_breakGlassEnabled c = true -> ws <> [])
}.

Create HintDb effects.

Lemma effect_id : effect (fun c => c) [].
Proof. split; [done|set_solver|]. intros c. exists []. by rewrite app_nil_r. Qed.

Lemma effect_warn w : effect (warn w) [].
Proof. split; [done|simpl; set_solver|]. intros c. by exists [w]. Qed.

Lemma effect_gate r w : effect (gate r w) [r].
Proof.
  unfold gate, when. split; intros c; simpl; destruct (uc_breakGlassEnabled c) eqn:E; simpl; try done.
  - set_solver.
  - set_solver.
  - by exists [w].
  - exists []. rewrite app_nil_r. split; [done|congruence].
Qed.

Lemma effect_require_warn (b : bool) r w :
  effect (fun c => warn w (when b (requireBreakGlass r) c)) (if b then [r] else []).
Proof. destruct b; split; intros c; simpl; try done; try (intros x; set_solver); by exists [w]. Qed.

Lemma effect_when b f R : effect f R -> effect (when b f) (if b then R else []).
Proof. intros Hf. destruct b; [exact Hf|exact effect_id]. Qed.

Lemma effect_comp f g R S : effect f R -> effect g S -> effect (fun c => g (f c)) (R ++ S).
Proof.
  intros [Ef Rf Wf] [Eg Rg Wg]. split.
  - intros c. by rewrite Eg, Ef.
  - intros c x. rewrite Rg, Rf, elem_of_app. tauto.
  - intros c. destruct (Wf c) as (w1 & H1 & N1), (Wg (f c)) as (w2 & H2 & N2).
    exists (w1 ++ w2). rewrite H2, H1, <- app_assoc. split; [done|]. intros Hne Hen Hnil.
    apply app_eq_nil in Hnil as [-> ->]. destruct R as [|r R]; [|by apply N1].
    apply N2; [done| |done]. by rewrite Ef.
Qed.

Lemma effect_ext f g R : (forall c, f c = g c) -> effect f R -> effect g R.
Proof. intros Hfg [E Rr W]. split; intros c; rewrite <- !Hfg; auto. Qed.

#[export] Hint Resolve effect_id effect_warn effect_gate effect_require_warn effect_when : effects.

Lemma effect_warn_when b w : effect (when b (warn w)) [].
Proof. destruct b; [apply effect_warn|apply effect_id]. Qed.

Lemma effect_warn_then f w b R : effect f R -> effect (fun c => when b (warn w) (f c)) R.
Proof. intros Hf. rewrite <- (app_nil_r R). apply (effect_comp f (when b (warn w))); [done|apply effect_warn_when]. Qed.

Lemma effect_fold_warn {A} (f : A -> string) (l : list A) : effect (fold_left (fun c x => warn (f x) c) l) [].
Proof.
  induction l as [|x l IH]; [exact effect_id|]. simpl.
  exact (effect_comp (warn (f x)) _ [] [] (effect_warn _) IH).
Qed.

(** The reasons each check can give. *)
Definition size_reasons (old new : XTrinode) : list string :=
  if isSizeDowngrade (spec_Size (xt_Spec old)) (spec_Size (xt_Spec new)) then ["spec.size (downgrade)"] else [].

Lemma checkSizeChange_effect old new : effect (checkSizeChange old new) (size_reasons old new).
Proof.
  unfold checkSizeChange, size_reasons, isSizeUpgrade, isSizeDowngrade.
  destruct (bool_decide_reflect (spec_Size (xt_Spec old) = spec_Size (xt_Spec new))) as [->|].
  - rewrite Z.ltb_irrefl. apply effect_id.
  - destruct (Z.ltb_spec (getSizeOrder (spec_Size (xt_Spec old))) (getSizeOrder (spec_Size (xt_Spec new)))).
    + rewrite (proj2 (Z.ltb_ge _ _)) by lia. apply effect_warn.
    + destruct (_ <? _); [apply effect_gate|apply effect_id].
Qed.

Definition policy_reasons (old new : XTrinode) : list string :=
  match spec_NodePool (xt_Spec old), spec_NodePool (xt_Spec new) with
  | Some a, Some b =>
      if negb (normalizeNodePoolDeletionPolicy a ≡? NodePoolDeletionPolicyDelete) &&
         (normalizeNodePoolDeletionPolicy b ≡? NodePoolDeletionPolicyDelete)
      then ["spec.nodePool.deletionPolicy"] else []
  | _, _ => []
  end.

Definition pool_reasons (old new : XTrinode) : list string :=
  ((if nodePoolPresenceChanged old new then ["spec.nodePool (presence)"] else []) ++
   (if nodePoolIdentityChanged old new then ["spec.nodePool identity"] else []) ++
   (if nodePoolShapeChanged old new then ["spec.nodePool shape"] else [])) ++ policy_reasons old new.

Lemma pool_gates_effect old new : effect (pool_gates old new)
  ((if nodePoolPresenceChanged old new then ["spec.nodePool (presence)"] else []) ++
   (if nodePoolIdentityChanged old new then ["spec.nodePool identity"] else []) ++
   (if nodePoolShapeChanged old new then ["spec.nodePool shape"] else [])).
Proof.
  rewrite app_assoc. unfold pool_gates. cbv zeta.
  apply (effect_comp (fun c => when _ _ (when _ _ c))); [apply (effect_comp (when _ _))|]; auto with effects.
Qed.

Lemma pool_scheduling_effect a b changed : effect (pool_scheduling a b changed) [].
Proof.
  unfold pool_scheduling. destruct changed; [|apply effect_id]. cbv zeta.
  repeat apply effect_warn_then. apply effect_id.
Qed.

Lemma pool_policy_effect a b changed :
  effect (pool_policy a b changed)
    (if changed && (negb (normalizeNodePoolDeletionPolicy a ≡? NodePoolDeletionPolicyDelete) &&
                    (normalizeNodePoolDeletionPolicy b ≡? NodePoolDeletionPolicyDelete))
     then ["spec.nodePool.deletionPolicy"] else []).
Proof. unfold pool_policy. destruct changed; [apply effect_require_warn|apply effect_id]. Qed.

Lemma checkNodePoolChanges_effect old new : effect (checkNodePoolChanges old new) (pool_reasons old new).
Proof.
  unfold checkNodePoolChanges, pool_reasons, policy_reasons.
  destruct (spec_NodePool (xt_Spec old)) as [a|] eqn:Ea; [|rewrite app_nil_r; apply pool_gates_effect].
  destruct (spec_NodePool (xt_Spec new)) as [b|] eqn:Eb; [|rewrite app_nil_r; apply pool_gates_effect].
  cbv zeta. apply (effect_comp (fun c => when _ _ (pool_scheduling a b _ (pool_gates old new c))) (pool_policy a b _)).
  - apply effect_warn_then. rewrite <- (app_nil_r (_ ++ _)).
    apply (effect_comp (pool_gates old new)); [apply pool_gates_effect|apply pool_scheduling_effect].
  - pose proof (pool_policy_effect a b (nodePoolDeletionPolicyChanged old new)) as He.
    unfold nodePoolDeletionPolicyChanged in He. rewrite Ea, Eb in He.
    unfold nodePoolDeletionPolicyChanged. rewrite Ea, Eb. revert He.
    destruct (bool_decide_reflect (normalizeNodePoolDeletionPolicy a = normalizeNodePoolDeletionPolicy b)) as [E|E]; [|done].
    rewrite E. by destruct (_ ≡? _).
Qed.

Definition route_reasons (old new : XTrinode) : list string :=
  (if routingPresenceChanged old new then ["spec.routing (presence)"] else []) ++
  (if routingIdentityChanged old new then ["spec.routing identity"] else []).

Lemma checkRoutingChanges_effect old new : effect (checkRoutingChanges old new) (route_reasons old new).
Proof. unfold checkRoutingChanges. cbv zeta. apply (effect_comp (when _ _)); auto with effects. Qed.

(** The remaining checks only warn. *)
Definition warns_only (chk : updateCheck) : Prop := forall old new, effect (chk old new) [].

Lemma other_checks :
  Forall warns_only [checkWorkerScaling; checkSuspended] /\
  Forall warns_only [checkCatalogSelector; checkResourceGroupsProfile; checkCustomConfigMaps; checkLimits;
    checkValuesOverlay; checkFaultTolerantExecution; checkKEDAChanges; checkTLSChanges;
    checkHelmChartConfigChanges; checkOperatorNodePoolDefaults].
Proof.
  split; repeat (apply List.Forall_cons; [|]); try apply List.Forall_nil; try (intros old new; apply effect_warn_when).
  - intros old new. unfold checkWorkerScaling. destruct (workerScalingChanged old new); [|apply effect_id].
    repeat case_match; auto with effects.
  - intros old new. unfold checkKEDAChanges. cbv zeta.
    destruct (spec_KEDA (xt_Spec old)); [|apply effect_warn_when].
    destruct (spec_KEDA (xt_Spec new)); [|apply effect_warn_when].
    exact (effect_comp (when _ _) _ [] [] (effect_warn_when _ _) (effect_fold_warn _ _)).
  - intros old new. unfold checkHelmChartConfigChanges.
    destruct (helmChartConfigPresenceChanged old new); [apply effect_warn|apply effect_warn_when].
Qed.

Lemma warns_only_run chks old new :
  Forall warns_only chks -> effect (fold_left (fun c chk => chk old new c) chks) [].
Proof.
  induction 1 as [|chk chks Hc _ IH]; [exact effect_id|]. exact (effect_comp (chk old new) _ [] [] (Hc old new) IH).
Qed.

Lemma run_checks_effect old new :
  effect (run_checks old new) (size_reasons old new ++ pool_reasons old new ++ route_reasons old new).
Proof.
  destruct other_checks as [H1 H2]. apply (warns_only_run _ old new) in H1, H2.
  pose proof (effect_comp _ _ _ _ (checkSizeChange_effect old new) H1) as E1.
  pose proof (effect_comp _ _ _ _ E1 (checkNodePoolChanges_effect old new)) as E2.
  pose proof (effect_comp _ _ _ _ E2 (checkRoutingChanges_effect old new)) as E3.
  pose proof (effect_comp _ _ _ _ E3 H2) as E4. rewrite !app_nil_r, <- app_assoc in E4. exact E4.
Qed.

(** ** The gate in terms of the specifications *)

Lemma reason_if (b : bool) (r : string) : (if b then [r] else []) <> [] <-> b = true.
Proof. by destruct b. Qed.

Lemma reasons_app (l1 l2 : list string) : l1 ++ l2 <> [] <-> l1 <> [] \/ l2 <> [].
Proof. destruct l1; simpl; naive_solver. Qed.

Lemma comparePointerInt32_true a b : comparePointerInt32 a b = true <-> a <> b.
Proof.
  destruct a as [x|], b as [y|]; simpl; try naive_solver.
  rewrite negb_true_iff, Z.eqb_neq. naive_solver.
Qed.

Lemma differs {A} `{EqDecision A} (a b : A) : negb (a ≡? b) = true <-> a <> b.
Proof. by rewrite negb_true_iff, bool_decide_eq_false. Qed.

Lemma eqb_differs a b : negb (eqb a b) = true <-> a <> b.
Proof. rewrite negb_true_iff, eqb_false_iff. done. Qed.

Lemma shape_changed_iff old new a b :
  spec_NodePool (xt_Spec old) = Some a -> spec_NodePool (xt_Spec new) = Some b ->
  nodePoolShapeChanged old new = true <->
  np_OSDiskGB a <> np_OSDiskGB b \/ np_Spot a <> np_Spot b \/
  (normalizeString (np_Provider b) = "azure" /\ exists x y, np_Azure a = Some x /\ np_Azure b = Some y /\ x <> y) \/
  (normalizeString (np_Provider b) = "aws" /\ exists x y, np_AWS a = Some x /\ np_AWS b = Some y /\ x <> y) \/
  (normalizeString (np_Provider b) = "gcp" /\ exists x y, np_GCP a = Some x /\ np_GCP b = Some y /\ x <> y).
Proof.
  intros Ha Hb. unfold nodePoolShapeChanged. rewrite Ha, Hb. clear Ha Hb.
  rewrite <- comparePointerInt32_true. destruct (comparePointerInt32 _ _); [naive_solver|].
  rewrite <- (differs (np_Spot a)). destruct (negb _); [naive_solver|].
  assert (Haz : forall x y : AzureNodePoolSpec, x <> y <-> az_VMSize x <> az_VMSize y \/ az_OSDiskType x <> az_OSDiskType y).
  { intros [x1 x2] [y1 y2]. simpl. destruct (decide (x1 = y1)), (decide (x2 = y2)); naive_solver. }
  assert (Haw : forall x y : AWSNodePoolSpec, x <> y <-> aws_InstanceType x <> aws_InstanceType y \/ aws_VolumeType x <> aws_VolumeType y).
  { intros [x1 x2] [y1 y2]. simpl. destruct (decide (x1 = y1)), (decide (x2 = y2)); naive_solver. }
  assert (Hgc : forall x y : GCPNodePoolSpec, x <> y <-> gcp_MachineType x <> gcp_MachineType y \/ gcp_DiskType x <> gcp_DiskType y).
  { intros [x1 x2] [y1 y2]. simpl. destruct (decide (x1 = y1)), (decide (x2 = y2)); naive_solver. }
  generalize (normalizeString (np_Provider b)) as provider. intros provider.
  repeat case_bool_decide; simplify_eq;
    [destruct (np_Azure a), (np_Azure b)|destruct (np_AWS a), (np_AWS b)|destruct (np_GCP a), (np_GCP b)|];
    rewrite ?orb_true_iff, ?differs, <- ?Haz, <- ?Haw, <- ?Hgc; naive_solver.
Qed.

Lemma pool_breaking old new :
  pool_reasons old new <> [] <-> breaking_part breaking_pool (spec_NodePool (xt_Spec old)) (spec_NodePool (xt_Spec new)).
Proof.
  unfold pool_reasons. rewrite !reasons_app, !reason_if.
  unfold nodePoolPresenceChanged, nodePoolIdentityChanged, policy_reasons.
  destruct (spec_NodePool (xt_Spec old)) as [a|] eqn:Ea, (spec_NodePool (xt_Spec new)) as [b|] eqn:Eb; simpl;
    [|naive_solver|naive_solver|].
  - rewrite (shape_changed_iff old new a b), reason_if, andb_true_iff, !orb_true_iff, !differs, bool_decide_eq_true by done.
    unfold breaking_pool. change normalizeNodePoolDeletionPolicy with nodePoolDeletionPolicy.
    assert (false = true <-> False) as -> by done. tauto.
  - unfold nodePoolShapeChanged. rewrite Ea. naive_solver.
Qed.

Lemma route_breaking old new :
  route_reasons old new <> [] <-> breaking_part breaking_route (spec_Routing (xt_Spec old)) (spec_Routing (xt_Spec new)).
Proof.
  unfold route_reasons, routingPresenceChanged, routingIdentityChanged. rewrite !reasons_app, !reason_if.
  destruct (spec_Routing (xt_Spec old)) as [a|], (spec_Routing (xt_Spec new)) as [b|]; simpl; [|naive_solver..].
  rewrite !orb_true_iff, !differs, eqb_differs. unfold breaking_route. naive_solver.
Qed.

Lemma reasons_breaking old new :
  size_reasons old new ++ pool_reasons old new ++ route_reasons old new <> [] <-> breaking old new.
Proof.
  rewrite !reasons_app, pool_breaking, route_breaking. unfold breaking, size_reasons, breaking_size, isSizeDowngrade.
  rewrite reason_if, Z.ltb_lt. done.
Qed.

Section gate_theorems.
Context `{QuantityParser} (Getenv : string -> string).

(** C10: An update is let through by the specification checks exactly when the
    new specification is valid and either breaks nothing - the size does not
    shrink, and neither the node pool nor the routing is added, removed,
    renamed, reshaped or put back under deletion - or carries the break-glass
    annotation; a breaking update that is let through always warns. *)
Theorem update_gate old new :
  ((validateXTrinodeUpdate Getenv new old).2 = None <->
     validateXTrinode Getenv new = [] /\ (breaking old new -> hasBreakGlassAnnotation new = true)) /\
  (breaking old new -> (validateXTrinodeUpdate Getenv new old).2 = None ->
     (validateXTrinodeUpdate Getenv new old).1 <> []).
Proof.
  unfold validateXTrinodeUpdate, invalid.
  destruct (validateXTrinode Getenv new) as [|e errs]; [|simpl; naive_solver].
  pose proof (run_checks_effect old new) as [He Hr Hw]. rewrite <- reasons_breaking.
  set (R := size_reasons old new ++ pool_reasons old new ++ route_reasons old new) in *.
  set (c := run_checks old new (newUpdateCtx new)).
  assert (Hen : uc_breakGlassEnabled c = hasBreakGlassAnnotation new) by apply He.
  assert (HR : elements (uc_breakGlassReq c) <> [] <-> R <> []).
  { split; intros Hne Heq; apply Hne.
    - apply elements_empty_iff. intros x. rewrite elem_of_empty. unfold c. rewrite Hr, Heq. set_solver.
    - destruct R as [|r R']; [done|]. assert (Hin : r ∈ uc_breakGlassReq c) by (apply Hr; left; left).
      apply elem_of_elements in Hin. rewrite Heq in Hin. by apply elem_of_nil in Hin. }
  destruct (Hw (newUpdateCtx new)) as (ws & Hws & Hne). fold c in Hws. simpl in Hws.
  cbv zeta. rewrite Hen. destruct (elements (uc_breakGlassReq c)) as [|r rs]; simpl.
  - split; [|intros Hb; by destruct (proj2 HR Hb)]. split; [|done]. intros _. split; [done|]. intros Hb. by destruct (proj2 HR Hb).
  - assert (HRne : R <> []) by (by apply HR). destruct (hasBreakGlassAnnotation new) eqn:Eb; simpl; [|naive_solver].
    split; [naive_solver|]. intros _ _ Hnil. apply app_eq_nil in Hnil as [Hnil _].
    rewrite Hws in Hnil. by apply Hne.
Qed.

(** ** Privileged changes *)

(** A change of the overlay's content or of the chart settings; a new runtime
    changes what it sets. *)
Definition overlay_differs (old new : option RawJSON) : Prop :=
  match old, new with
  | None, None => False
  | Some a, Some b => raw_Raw a <> raw_Raw b /\
      (forall m m', unmarshal_map a = Some (Some m) -> unmarshal_map b = Some (Some m') ->
         json_equal (JObject m) (JObject m') = false) /\
      ~ (unmarshal_map a = Some None /\ unmarshal_map b = Some None)
  | _, _ => True
  end.

Definition privileged_change (old : option XTrinode) (new : XTrinode) : Prop :=
  overlay_differs (old ≫= (fun o => spec_ValuesOverlay (xt_Spec o))) (spec_ValuesOverlay (xt_Spec new)) \/
  (old ≫= (fun o => spec_HelmChartConfig (xt_Spec o))) <> spec_HelmChartConfig (xt_Spec new).

Definition admission (request : option UserInfo) (allowed : option authorizer) (old : option XTrinode)
    (new : XTrinode) : list string * option admission_error :=
  match old with
  | None => webhook_ValidateCreate Getenv request allowed (AnXTrinode new)
  | Some old => webhook_ValidateUpdate Getenv request allowed (AnXTrinode old) (AnXTrinode new)
  end.

Lemma privileged_reasons old new : privileged_change old new -> privilegedSpecChangeReasons old new <> [].
Proof.
  unfold privilegedSpecChangeReasons. rewrite reasons_app, !reason_if. intros [Ho|Hh].
  - left. unfold valuesOverlayChanged. destruct old as [o|]; simpl in Ho.
    + unfold overlay_differs in Ho. unfold compareValuesOverlay.
      destruct (spec_ValuesOverlay (xt_Spec o)) as [a|], (spec_ValuesOverlay (xt_Spec new)) as [b|]; try done.
      destruct Ho as (Hraw & Heq & Hnull). rewrite bool_decide_false by done.
      destruct (unmarshal_map a) as [[m|]|] eqn:Ea, (unmarshal_map b) as [[m'|]|] eqn:Eb; try done.
      * by rewrite (Heq m m').
      * by destruct Hnull.
    + by destruct (spec_ValuesOverlay (xt_Spec new)).
  - right. unfold privilegedHelmChartConfigChanged. destruct old as [o|]; simpl in Hh.
    + by apply differs.
    + by destruct (spec_HelmChartConfig (xt_Spec new)).
Qed.

Lemma privileged_allowed request allowed old new :
  validatePrivilegedSpecAdmission request allowed old new = None -> privilegedSpecChangeReasons old new <> [] ->
  exists user allow reason, request = Some user /\ allowed = Some allow /\
    allow user (xt_Namespace new) = Ok (true, reason).
Proof.
  unfold validatePrivilegedSpecAdmission. destruct (privilegedSpecChangeReasons old new) as [|r rs]; [done|].
  destruct request as [user|]; [|done]. destruct allowed as [allow|]; [|done].
  destruct (allow user (xt_Namespace new)) as [[[] reason]|] eqn:E; try done. intros _ _.
  by exists user, allow, reason.
Qed.

(** C23: A creation or an update that changes the values overlay or the chart
    settings is admitted only for a request whose user the configured
    authoriser allowed to do so in the namespace of the runtime; with the
    access-review authoriser, the API server answered that this user may
    update [xtrinodes/valuesoverlay] there. *)
Theorem privileged_changes_authorised request allowed old new :
  (admission request allowed old new).2 = None -> privileged_change old new ->
  exists user allow reason, request = Some user /\ allowed = Some allow /\
    allow user (xt_Namespace new) = Ok (true, reason) /\
    (forall client, allow = sar_authorizer client ->
       exists create st, client = Some create /\ sar_Allowed st = true /\
         create (mkSAR user (xt_Namespace new) "update" "analytics.xtrinode.io" "xtrinodes" "valuesoverlay") = Ok st).
Proof.
  intros Ha Hp. assert (Hv : validatePrivilegedSpecAdmission request allowed old new = None).
  { unfold admission in Ha. destruct old as [o|]; simpl in Ha.
    - by destruct (validateXTrinodeUpdate Getenv new o) as [ws [e|]].
    - by destruct (invalid Getenv new). }
  destruct (privileged_allowed _ _ _ _ Hv (privileged_reasons _ _ Hp)) as (user & allow & reason & Hu & Hal & Hok).
  exists user, allow, reason. split_and!; try done. intros client ->.
  unfold sar_authorizer in Hok. destruct client as [create|]; [|done].
  destruct (create _) as [st|e] eqn:Ec; [|done]. exists create, st. split; [done|].
  destruct (sar_Allowed st); [done|]. by repeat case_match.
Qed.
End gate_theorems.

(** ** Witnesses and limits of the gate *)

Definition update_env (_ : string) : string := "".

Definition chart : HelmChartConfigSpec :=
  mkHelm None None None None None None None None None (Some [mkEnvVarSpec "TRINO_HOME" None None "/data"]) None None.

Definition ex_pool (mode : string) (aws : option AWSNodePoolSpec) (labels : gmap string string) : NodePoolSpec :=
  mkNodePoolFull "p" "aws" None None false mode None "" None aws None None "" None None None None None None
    None None (Some labels) None None None None "" None None.

Definition ex_update (hcc : option HelmChartConfigSpec) (np : option NodePoolSpec) : XTrinode :=
  mkXTrinode "x" "a" 1 0 0 None [] ∅ ∅
    (mkSpecFull "s" None None false None None None None None np None None None None None
       None "" None None None None hcc None) (status_of_phase "").

Definition admins_only : authorizer := fun user _ => Ok (member (ui_Groups user) "admins", "").

Lemma privileged_changes_authorised_witness :
  exists reason, admins_only (mkUserInfo "eve" "1" ["admins"] ∅) "a" = Ok (true, reason).
Proof.
  destruct (privileged_changes_authorised update_env (Some (mkUserInfo "eve" "1" ["admins"] ∅)) (Some admins_only)
    (Some (ex_update None None)) (ex_update (Some chart) None)) as (user & allow & reason & Hu & Ha & Hok & _).
  - vm_compute. reflexivity.
  - right. discriminate.
  - exists reason. injection Hu as <-. injection Ha as <-. exact Hok.
Defined.

(** Replacing a key with the empty value goes unnoticed. *)
Lemma empty_label_replaced_silently :
  (validateXTrinodeUpdate update_env (ex_update None (Some (ex_pool "managed" (Some (mkAWSNodePool "m5.large" "")) {["b" := "x"]})))
     (ex_update None (Some (ex_pool "managed" (Some (mkAWSNodePool "m5.large" "")) {["a" := ""]})))) =
  (validateXTrinodeUpdate update_env (ex_update None (Some (ex_pool "managed" (Some (mkAWSNodePool "m5.large" "")) {["a" := ""]})))
     (ex_update None (Some (ex_pool "managed" (Some (mkAWSNodePool "m5.large" "")) {["a" := ""]})))).
Proof. vm_compute. reflexivity. Qed.

(** Moving a pool between the machine types of two API kinds is not gated. *)
Lemma provider_mode_not_gated :
  let old := ex_pool "managed" (Some (mkAWSNodePool "m5.large" "")) ∅ in
  let new := ex_pool "" (Some (mkAWSNodePool "m5.large" "")) ∅ in
  (validateXTrinodeUpdate update_env (ex_update None (Some new)) (ex_update None (Some old))).2 = None /\
  isMachinePoolProvider old = true /\ isMachinePoolProvider new = false.
Proof. vm_compute. done. Qed.
