(* ===== verification/CatalogAdmission.v ===== *)
(** * Admission of catalogs ([api/v1/xtrinodecatalog_webhook.go])

    The errors of a catalog resource, and the review of the Secrets it refers to.
    Where the code ranges over a Go map, the order of the errors is that of
    [map_to_list]. *)

From S2P Require Import Prelude GoStrings GoTime GoParse CatalogTypes NodePool Admission AdmissionUpdate.

(** ** Single values *)

Definition appendRequiredString (path value : string) : list field_error :=
  report (TrimSpace value ≡? "") (mkFieldError ErrRequired path "must be set").

Definition validateSecretKeySelector (path : string) (ref : option SecretKeySelector) : list field_error :=
  match ref with
  | None => []
  | Some r =>
      report (TrimSpace (sk_Name r) ≡? "") (mkFieldError ErrRequired (Child path ["name"]) "Secret name must be set") ++
      report (TrimSpace (sk_Key r) ≡? "") (mkFieldError ErrRequired (Child path ["key"]) "Secret key must be set")
  end.

Definition dash_byte (c : ascii) : ascii := if c ≡? "_"%char then "-"%char else c.

Definition normalizeCatalogPropertyKey (key : string) : string := map_bytes dash_byte (ToLower (TrimSpace key)).

Definition normalizeGeneratedCatalogType (catalogType : string) : string := ToLower (TrimSpace catalogType).

(** What a [strings.NewReplacer] does that deletes single bytes. *)
Fixpoint drop_bytes (p : ascii -> bool) (s : string) : string :=
  match s with
  | EmptyString => EmptyString
  | String c s => if p c then drop_bytes p s else String c (drop_bytes p s)
  end.

Definition isSensitiveCatalogPropertyKey (normalizedKey : string) : bool :=
  let compactKey := drop_bytes (fun c => (c ≡? "-"%char) || (c ≡? "."%char) || (c ≡? "_"%char)) normalizedKey in
  existsb (Contains compactKey)
    ["password"; "secret"; "accesskey"; "privatekey"; "apikey"; "token"; "keytab"; "credential"].

Definition looksLikeCredentialJSON (value : string) : bool :=
  let normalized := ToLower (TrimSpace value) in
  Contains normalized "private_key" || Contains normalized "client_secret" ||
  Contains normalized "-----begin private key-----".

Definition sensitiveCatalogPropertyReplacement (normalizedKey : string) : option string :=
  snd <$> find_first (fun r => r.1 ≡? normalizedKey)
    [("connection-password", "connectionPasswordSecret"); ("snowflake.password", "passwordSecret");
     ("s3.aws-access-key", "s3AccessKeySecret"); ("s3.aws-secret-key", "s3SecretKeySecret");
     ("hive.s3.aws-access-key", "s3AccessKeySecret"); ("hive.s3.aws-secret-key", "s3SecretKeySecret");
     ("s3.access-key", "s3AccessKeySecret"); ("s3.secret-key", "s3SecretKeySecret");
     ("hive.s3.access-key", "s3AccessKeySecret"); ("hive.s3.secret-key", "s3SecretKeySecret");
     ("hive.s3.aws.access-key", "s3AccessKeySecret"); ("hive.s3.aws.secret-key", "s3SecretKeySecret");
     ("s3.aws.access-key", "s3AccessKeySecret"); ("s3.aws.secret-key", "s3SecretKeySecret")].

Definition control_bytes : string :=
  String (ascii_of_nat 0) (String (ascii_of_nat 13) (String (ascii_of_nat 10) EmptyString)).
Definition line_bytes : string := String (ascii_of_nat 13) (String (ascii_of_nat 10) "=").

Definition validateMountedCredentialFilePath (path value : string) : list field_error :=
  if value ≡? "" then [] else
  if negb (TrimSpace value ≡? value) then
    [mkFieldError ErrInvalid path "credentials file path must not have leading or trailing whitespace"]
  else if ContainsAny value control_bytes then
    [mkFieldError ErrInvalid path "credentials file path must not contain control characters or newlines"]
  else if looksLikeCredentialJSON value then
    [mkFieldError ErrForbidden path "inline credential material must use propertySecretRefs instead of credentialsFile"]
  else if negb (HasPrefix value "/") then
    [mkFieldError ErrInvalid path "credentials file path must be an absolute mounted file path"]
  else [].

Definition hasCatalogPropertySecretRef (refs : PropertySecretRefs) (normalizedKey : string) : bool :=
  existsb (fun '(propertyName, _) => normalizeCatalogPropertyKey propertyName ≡? normalizedKey) (map_to_list refs).

(** ** Required settings *)

Definition validateHiveCatalog (path : string) (hive : HiveCatalogSpec) : list field_error :=
  appendRequiredString (Child path ["metastoreURI"]) (hv_MetastoreURI hive) ++
  report (negb (eqb (is_set (hv_S3AccessKeySecret hive)) (is_set (hv_S3SecretKeySecret hive))))
    (mkFieldError ErrInvalid path "s3AccessKeySecret and s3SecretKeySecret must be set together") ++
  validateSecretKeySelector (Child path ["s3AccessKeySecret"]) (hv_S3AccessKeySecret hive) ++
  validateSecretKeySelector (Child path ["s3SecretKeySecret"]) (hv_S3SecretKeySecret hive).

Definition validateBigQueryCatalog (path : string) (bigQuery : BigQueryCatalogSpec) : list field_error :=
  appendRequiredString (Child path ["projectID"]) (bq_ProjectID bigQuery) ++
  validateMountedCredentialFilePath (Child path ["credentialsFile"]) (bq_CredentialsFile bigQuery) ++
  report (negb (bq_CredentialsFile bigQuery ≡? "") &&
          hasCatalogPropertySecretRef (bq_PropertySecretRefs bigQuery) "bigquery.credentials-key")
    (mkFieldError ErrForbidden (Child path ["credentialsFile"])
       "use either credentialsFile or propertySecretRefs[bigquery.credentials-key], not both").

Definition validateCommonCatalogConnector (path : string) (c : XTrinodeCatalogConnector) : option (list field_error) :=
  first_some
    [validateBigQueryCatalog (Child path ["bigQuery"]) <$> c_BigQuery c;
     (fun s => appendRequiredString (Child path ["cassandra"; "contactPoints"]) (cas_ContactPoints s)) <$> c_Cassandra c;
     (fun s => appendRequiredString (Child path ["clickHouse"; "connectionURL"]) (jdbc_ConnectionURL s)) <$> c_ClickHouse c;
     (fun s => appendRequiredString (Child path ["custom"; "connectorName"]) (cu_ConnectorName s)) <$> c_Custom c;
     (fun s => appendRequiredString (Child path ["deltaLake"; "catalogType"]) (dl_CatalogType s) ++
                 appendRequiredString (Child path ["deltaLake"; "warehouseURI"]) (dl_WarehouseURI s)) <$> c_DeltaLake c;
     (fun s => appendRequiredString (Child path ["druid"; "brokerURL"]) (dr_BrokerURL s)) <$> c_Druid c;
     (fun s => appendRequiredString (Child path ["elasticsearch"; "host"]) (els_Host s)) <$> c_Elasticsearch c;
     (fun s => appendRequiredString (Child path ["exasol"; "connectionURL"]) (jdbc_ConnectionURL s)) <$> c_Exasol c;
     (fun s => appendRequiredString (Child path ["googleSheets"; "credentialsFilePath"]) (gs_CredentialsFilePath s)) <$> c_GoogleSheets c;
     validateHiveCatalog (Child path ["hive"]) <$> c_Hive c;
     (fun s => appendRequiredString (Child path ["hudi"; "metastoreURI"]) (hu_MetastoreURI s)) <$> c_Hudi c;
     (fun s => appendRequiredString (Child path ["iceberg"; "catalogType"]) (ic_CatalogType s) ++
                 appendRequiredString (Child path ["iceberg"; "warehouseURI"]) (ic_WarehouseURI s)) <$> c_Iceberg c;
     (fun s => appendRequiredString (Child path ["ignite"; "connectionURL"]) (jdbc_ConnectionURL s)) <$> c_Ignite c;
     (fun s => report (is_empty (kf_KafkaNodes s)) (mkFieldError ErrRequired (Child path ["kafka"; "kafkaNodes"])
                 "at least one Kafka node is required")) <$> c_Kafka c;
     (fun s => appendRequiredString (Child path ["lakehouse"; "catalogType"]) (lh_CatalogType s)) <$> c_Lakehouse c].

Definition validateAdditionalCatalogConnector (path : string) (c : XTrinodeCatalogConnector) : option (list field_error) :=
  first_some
    [(fun s => appendRequiredString (Child path ["loki"; "uri"]) (lk_URI s)) <$> c_Loki c;
     (fun s => appendRequiredString (Child path ["mariaDB"; "connectionURL"]) (jdbc_ConnectionURL s)) <$> c_MariaDB c;
     (fun s => appendRequiredString (Child path ["mongodb"; "connectionURI"]) (mo_ConnectionURI s)) <$> c_MongoDB c;
     (fun s => appendRequiredString (Child path ["mysql"; "connectionURL"]) (jdbc_ConnectionURL s)) <$> c_MySQL c;
     (fun s => appendRequiredString (Child path ["openSearch"; "host"]) (os_Host s)) <$> c_OpenSearch c;
     (fun s => appendRequiredString (Child path ["oracle"; "connectionURL"]) (jdbc_ConnectionURL s)) <$> c_Oracle c;
     (fun s => appendRequiredString (Child path ["pinot"; "controllerURLs"]) (pi_ControllerURLs s)) <$> c_Pinot c;
     (fun s => appendRequiredString (Child path ["postgres"; "connectionURL"]) (jdbc_ConnectionURL s)) <$> c_Postgres c;
     (fun s => appendRequiredString (Child path ["prometheus"; "uri"]) (pr_URI s)) <$> c_Prometheus c;
     (fun s => appendRequiredString (Child path ["redis"; "nodes"]) (rd_Nodes s)) <$> c_Redis c;
     (fun s => appendRequiredString (Child path ["redshift"; "connectionURL"]) (jdbc_ConnectionURL s)) <$> c_Redshift c;
     (fun s => appendRequiredString (Child path ["singleStore"; "connectionURL"]) (jdbc_ConnectionURL s)) <$> c_SingleStore c;
     (fun s => appendRequiredString (Child path ["snowflake"; "accountURL"]) (sf_AccountURL s) ++
                 appendRequiredString (Child path ["snowflake"; "user"]) (sf_User s)) <$> c_Snowflake c;
     (fun s => appendRequiredString (Child path ["sqlServer"; "connectionURL"]) (jdbc_ConnectionURL s)) <$> c_SQLServer c;
     (fun s => appendRequiredString (Child path ["thrift"; "host"]) (th_Host s) ++
                 report (th_Port s <=? 0) (mkFieldError ErrInvalid (Child path ["thrift"; "port"]) "must be greater than zero")) <$> c_Thrift c;
     (fun s => appendRequiredString (Child path ["vertica"; "connectionURL"]) (jdbc_ConnectionURL s)) <$> c_Vertica c].

Definition validateCatalogConnector (path : string) (c : XTrinodeCatalogConnector) : list field_error :=
  match validateCommonCatalogConnector path c with
  | Some allErrs => allErrs
  | None => default [] (validateAdditionalCatalogConnector path c)
  end.

(** ** Properties *)

(** The map of a connector that is set, when it is not empty. *)
Definition append_map {A V} (path name field : string) (get : A -> gmap string V) (o : option A) :
    list (string * gmap string V) :=
  match o with
  | Some s => if bool_decide (get s = ∅) then [] else [(Child path [name; field], get s)]
  | None => []
  end.

Definition catalogPropertyMaps (path : string) (c : XTrinodeCatalogConnector) : list (string * Properties) :=
  append_map path "bigQuery" "properties" bq_Properties (c_BigQuery c) ++
  append_map path "blackHole" "properties" pl_Properties (c_BlackHole c) ++
  append_map path "cassandra" "properties" cas_Properties (c_Cassandra c) ++
  append_map path "clickHouse" "properties" jdbc_Properties (c_ClickHouse c) ++
  append_map path "custom" "properties" cu_Properties (c_Custom c) ++
  append_map path "deltaLake" "properties" dl_Properties (c_DeltaLake c) ++
  append_map path "druid" "properties" dr_Properties (c_Druid c) ++
  append_map path "duckDB" "properties" dd_Properties (c_DuckDB c) ++
  append_map path "elasticsearch" "properties" els_Properties (c_Elasticsearch c) ++
  append_map path "exasol" "properties" jdbc_Properties (c_Exasol c) ++
  append_map path "faker" "properties" fk_Properties (c_Faker c) ++
  append_map path "googleSheets" "properties" gs_Properties (c_GoogleSheets c) ++
  append_map path "hive" "properties" hv_Properties (c_Hive c) ++
  append_map path "hudi" "properties" hu_Properties (c_Hudi c) ++
  append_map path "iceberg" "properties" ic_Properties (c_Iceberg c) ++
  append_map path "ignite" "properties" jdbc_Properties (c_Ignite c) ++
  append_map path "jmx" "properties" pl_Properties (c_JMX c) ++
  append_map path "kafka" "properties" kf_Properties (c_Kafka c) ++
  append_map path "lakehouse" "properties" lh_Properties (c_Lakehouse c) ++
  append_map path "loki" "properties" lk_Properties (c_Loki c) ++
  append_map path "mariaDB" "properties" jdbc_Properties (c_MariaDB c) ++
  append_map path "memory" "properties" mm_Properties (c_Memory c) ++
  append_map path "mongodb" "properties" mo_Properties (c_MongoDB c) ++
  append_map path "mysql" "properties" jdbc_Properties (c_MySQL c) ++
  append_map path "openSearch" "properties" os_Properties (c_OpenSearch c) ++
  append_map path "oracle" "properties" jdbc_Properties (c_Oracle c) ++
  append_map path "pinot" "properties" pi_Properties (c_Pinot c) ++
  append_map path "postgres" "properties" jdbc_Properties (c_Postgres c) ++
  append_map path "prometheus" "properties" pr_Properties (c_Prometheus c) ++
  append_map path "redis" "properties" rd_Properties (c_Redis c) ++
  append_map path "redshift" "properties" jdbc_Properties (c_Redshift c) ++
  append_map path "singleStore" "properties" jdbc_Properties (c_SingleStore c) ++
  append_map path "snowflake" "properties" sf_Properties (c_Snowflake c) ++
  append_map path "sqlServer" "properties" jdbc_Properties (c_SQLServer c) ++
  append_map path "system" "properties" pl_Properties (c_System c) ++
  append_map path "thrift" "properties" th_Properties (c_Thrift c) ++
  append_map path "tpcds" "properties" pl_Properties (c_TPCDS c) ++
  append_map path "tpch" "properties" pl_Properties (c_TPCH c) ++
  append_map path "vertica" "properties" jdbc_Properties (c_Vertica c).

Definition catalogPropertySecretRefMaps (path : string) (c : XTrinodeCatalogConnector) : list (string * PropertySecretRefs) :=
  append_map path "bigQuery" "propertySecretRefs" bq_PropertySecretRefs (c_BigQuery c) ++
  append_map path "blackHole" "propertySecretRefs" pl_PropertySecretRefs (c_BlackHole c) ++
  append_map path "cassandra" "propertySecretRefs" cas_PropertySecretRefs (c_Cassandra c) ++
  append_map path "clickHouse" "propertySecretRefs" jdbc_PropertySecretRefs (c_ClickHouse c) ++
  append_map path "custom" "propertySecretRefs" cu_PropertySecretRefs (c_Custom c) ++
  append_map path "deltaLake" "propertySecretRefs" dl_PropertySecretRefs (c_DeltaLake c) ++
  append_map path "druid" "propertySecretRefs" dr_PropertySecretRefs (c_Druid c) ++
  append_map path "duckDB" "propertySecretRefs" dd_PropertySecretRefs (c_DuckDB c) ++
  append_map path "elasticsearch" "propertySecretRefs" els_PropertySecretRefs (c_Elasticsearch c) ++
  append_map path "exasol" "propertySecretRefs" jdbc_PropertySecretRefs (c_Exasol c) ++
  append_map path "faker" "propertySecretRefs" fk_PropertySecretRefs (c_Faker c) ++
  append_map path "googleSheets" "propertySecretRefs" gs_PropertySecretRefs (c_GoogleSheets c) ++
  append_map path "hive" "propertySecretRefs" hv_PropertySecretRefs (c_Hive c) ++
  append_map path "hudi" "propertySecretRefs" hu_PropertySecretRefs (c_Hudi c) ++
  append_map path "iceberg" "propertySecretRefs" ic_PropertySecretRefs (c_Iceberg c) ++
  append_map path "ignite" "propertySecretRefs" jdbc_PropertySecretRefs (c_Ignite c) ++
  append_map path "jmx" "propertySecretRefs" pl_PropertySecretRefs (c_JMX c) ++
  append_map path "kafka" "propertySecretRefs" kf_PropertySecretRefs (c_Kafka c) ++
  append_map path "lakehouse" "propertySecretRefs" lh_PropertySecretRefs (c_Lakehouse c) ++
  append_map path "loki" "propertySecretRefs" lk_PropertySecretRefs (c_Loki c) ++
  append_map path "mariaDB" "propertySecretRefs" jdbc_PropertySecretRefs (c_MariaDB c) ++
  append_map path "memory" "propertySecretRefs" mm_PropertySecretRefs (c_Memory c) ++
  append_map path "mongodb" "propertySecretRefs" mo_PropertySecretRefs (c_MongoDB c) ++
  append_map path "mysql" "propertySecretRefs" jdbc_PropertySecretRefs (c_MySQL c) ++
  append_map path "openSearch" "propertySecretRefs" os_PropertySecretRefs (c_OpenSearch c) ++
  append_map path "oracle" "propertySecretRefs" jdbc_PropertySecretRefs (c_Oracle c) ++
  append_map path "pinot" "propertySecretRefs" pi_PropertySecretRefs (c_Pinot c) ++
  append_map path "postgres" "propertySecretRefs" jdbc_PropertySecretRefs (c_Postgres c) ++
  append_map path "prometheus" "propertySecretRefs" pr_PropertySecretRefs (c_Prometheus c) ++
  append_map path "redis" "propertySecretRefs" rd_PropertySecretRefs (c_Redis c) ++
  append_map path "redshift" "propertySecretRefs" jdbc_PropertySecretRefs (c_Redshift c) ++
  append_map path "singleStore" "propertySecretRefs" jdbc_PropertySecretRefs (c_SingleStore c) ++
  append_map path "snowflake" "propertySecretRefs" sf_PropertySecretRefs (c_Snowflake c) ++
  append_map path "sqlServer" "propertySecretRefs" jdbc_PropertySecretRefs (c_SQLServer c) ++
  append_map path "system" "propertySecretRefs" pl_PropertySecretRefs (c_System c) ++
  append_map path "thrift" "propertySecretRefs" th_PropertySecretRefs (c_Thrift c) ++
  append_map path "tpcds" "propertySecretRefs" pl_PropertySecretRefs (c_TPCDS c) ++
  append_map path "tpch" "propertySecretRefs" pl_PropertySecretRefs (c_TPCH c) ++
  append_map path "vertica" "propertySecretRefs" jdbc_PropertySecretRefs (c_Vertica c).

Definition validateNoPlaintextSensitiveCatalogProperties (path : string) (properties : Properties) : list field_error :=
  '(key, value) ← map_to_list properties;
  let normalizedKey := normalizeCatalogPropertyKey key in
  match sensitiveCatalogPropertyReplacement normalizedKey with
  | Some replacement =>
      [mkFieldError ErrForbidden (Key path key) ("use " +:+ replacement +:+ " instead of plaintext catalog properties")]
  | None =>
      report (isSensitiveCatalogPropertyKey normalizedKey || looksLikeCredentialJSON value)
        (mkFieldError ErrForbidden (Key path key)
           "sensitive catalog properties must use typed Secret references or an operator-managed Secret injection path instead of plaintext ConfigMap properties")
  end.

Definition validateCatalogPlaintextSensitiveProperties (path : string) (c : XTrinodeCatalogConnector) : list field_error :=
  '(p, properties) ← catalogPropertyMaps path c; validateNoPlaintextSensitiveCatalogProperties p properties.

(** *** Generated properties *)

Definition add_if (condition : bool) (key : string) : list string := if condition then [key] else [].

Definition addJDBC (s : JDBCSpec) : list string :=
  ["connection-url"] ++ add_if (negb (jdbc_ConnectionUser s ≡? "")) "connection-user" ++
  add_if (is_set (jdbc_ConnectionPasswordSecret s)) "connection-password".

(** The keys the typed fields of the connector produce. *)
Definition generated_keys (c : XTrinodeCatalogConnector) : list string :=
  default [] (first_some
    [(fun s => ["bigquery.project-id"] ++ add_if (negb (bq_ParentProjectID s ≡? "")) "bigquery.parent-project-id" ++ add_if (negb (bq_CredentialsFile s ≡? "")) "bigquery.credentials-file") <$> c_BigQuery c;
     (fun s => ["cassandra.contact-points"] ++ add_if (0 <? cas_Port s) "cassandra.native-protocol-port") <$> c_Cassandra c;
     addJDBC <$> c_ClickHouse c;
     (fun s => match normalizeGeneratedCatalogType (dl_CatalogType s) with
                 | "glue" => ["hive.metastore"]
                 | "hive" | "hive_metastore" => add_if (negb (dl_WarehouseURI s ≡? "")) "hive.metastore.uri"
                 | _ => []
                 end) <$> c_DeltaLake c;
     (fun s => ["connection-url"]) <$> c_Druid c;
     (fun s => add_if (negb (dd_DatabasePath s ≡? "")) "connection-url") <$> c_DuckDB c;
     (fun s => ["elasticsearch.host"] ++ add_if (0 <? els_Port s) "elasticsearch.port" ++ add_if (negb (els_DefaultSchema s ≡? "")) "elasticsearch.default-schema-name") <$> c_Elasticsearch c;
     addJDBC <$> c_Exasol c;
     (fun s => add_if (0 <? fk_DefaultLimit s) "faker.default-limit" ++ add_if (float_positive (fk_NullProbability s)) "faker.null-probability") <$> c_Faker c;
     (fun s => ["gsheets.credentials-path"] ++ add_if (negb (gs_MetadataSheetID s ≡? "")) "gsheets.metadata-sheet-id") <$> c_GoogleSheets c;
     (fun s => ["hive.metastore.uri"] ++ add_if (negb (hv_S3Endpoint s ≡? "")) "s3.endpoint" ++
                 add_if (negb (hv_S3Endpoint s ≡? "") || is_set (hv_S3AccessKeySecret s) || is_set (hv_S3SecretKeySecret s)) "fs.native-s3.enabled" ++
                 add_if (is_set (hv_S3AccessKeySecret s)) "s3.aws-access-key" ++ add_if (is_set (hv_S3SecretKeySecret s)) "s3.aws-secret-key") <$> c_Hive c;
     (fun s => ["hive.metastore.uri"]) <$> c_Hudi c;
     (fun s => ["iceberg.catalog.type"]) <$> c_Iceberg c;
     addJDBC <$> c_Ignite c;
     (fun s => ["kafka.nodes"]) <$> c_Kafka c;
     (fun s => ["lakehouse.table-type"] ++ add_if (negb (lh_MetastoreURI s ≡? "")) "hive.metastore" ++ add_if (negb (lh_MetastoreURI s ≡? "")) "hive.metastore.uri") <$> c_Lakehouse c;
     (fun s => ["loki.uri"]) <$> c_Loki c;
     addJDBC <$> c_MariaDB c;
     (fun s => add_if (negb (mm_MaxDataPerNode s ≡? "")) "memory.max-data-per-node") <$> c_Memory c;
     (fun s => ["mongodb.connection-url"]) <$> c_MongoDB c;
     addJDBC <$> c_MySQL c;
     (fun s => ["opensearch.host"] ++ add_if (0 <? os_Port s) "opensearch.port" ++ add_if (negb (os_DefaultSchema s ≡? "")) "opensearch.default-schema-name") <$> c_OpenSearch c;
     addJDBC <$> c_Oracle c;
     (fun s => ["pinot.controller-urls"]) <$> c_Pinot c;
     addJDBC <$> c_Postgres c;
     (fun s => ["prometheus.uri"]) <$> c_Prometheus c;
     (fun s => ["redis.nodes"] ++ add_if (0 <? rd_Database s) "redis.database-index") <$> c_Redis c;
     addJDBC <$> c_Redshift c;
     addJDBC <$> c_SingleStore c;
     (fun s => ["connection-url"; "connection-user"; "snowflake.account"] ++ add_if (negb (sf_Database s ≡? "")) "snowflake.database" ++
                 add_if (negb (sf_Role s ≡? "")) "snowflake.role" ++ add_if (negb (sf_Warehouse s ≡? "")) "snowflake.warehouse" ++
                 add_if (is_set (sf_PasswordSecret s)) "connection-password") <$> c_Snowflake c;
     addJDBC <$> c_SQLServer c;
     (fun s => ["trino.thrift.client.addresses"]) <$> c_Thrift c;
     addJDBC <$> c_Vertica c]).

Definition reserved_message : string :=
  "property is generated from typed connector fields; use the typed XTrinodeCatalog field instead".

Definition generatedCatalogPropertyKeys (c : XTrinodeCatalogConnector) : gmap string string :=
  fold_left (fun reserved key => <[normalizeCatalogPropertyKey key := reserved_message]> reserved) (generated_keys c)
    {[ "connector.name" := "connector.name is generated from the selected connector type" ]}.

Definition validateNoReservedCatalogPropertyNames (path : string) (names : list string) (reserved : gmap string string) :
    list field_error :=
  name ← names;
  match reserved !! normalizeCatalogPropertyKey name with
  | Some message => [mkFieldError ErrForbidden (Key path name) message]
  | None => []
  end.

Definition mapKeys {V} (values : gmap string V) : list string := fst <$> map_to_list values.

Definition validateCatalogGeneratedPropertyCollisions (path : string) (c : XTrinodeCatalogConnector) : list field_error :=
  let reserved := generatedCatalogPropertyKeys c in
  ('(p, properties) ← catalogPropertyMaps path c; validateNoReservedCatalogPropertyNames p (mapKeys properties) reserved) ++
  ('(p, refs) ← catalogPropertySecretRefMaps path c; validateNoReservedCatalogPropertyNames p (mapKeys refs) reserved).

Definition validate_ref (path propertyName : string) (ref : SecretKeySelector) : list field_error :=
  let propertyPath := Key path propertyName in
  let trimmedProperty := TrimSpace propertyName in
  (if trimmedProperty ≡? "" then [mkFieldError ErrRequired propertyPath "property name must be set"]
   else if negb (trimmedProperty ≡? propertyName) then
     [mkFieldError ErrInvalid propertyPath "property name must not have leading or trailing whitespace"]
   else report (ContainsAny propertyName line_bytes)
          (mkFieldError ErrInvalid propertyPath "property name must not contain newlines or '='")) ++
  validateSecretKeySelector propertyPath (Some ref).

Definition validateCatalogPropertySecretRefs (path : string) (c : XTrinodeCatalogConnector) : list field_error :=
  '(p, refs) ← catalogPropertySecretRefMaps path c; '(propertyName, ref) ← map_to_list refs; validate_ref p propertyName ref.

(** ** A catalog *)

Section catalog.
(** [IsQualifiedName] and [IsValidLabelValue] of [k8s.io/apimachinery]: what is
    wrong with a text. *)
Context (IsQualifiedName IsValidLabelValue : string -> list string).

Definition validateCatalogSpecLabels (path : string) (values : gmap string string) : list field_error :=
  '(key, value) ← map_to_list values;
  report (negb (is_empty (IsQualifiedName key))) (mkFieldError ErrInvalid (Key path key) (Join "; " (IsQualifiedName key))) ++
  report (negb (is_empty (IsValidLabelValue value))) (mkFieldError ErrInvalid (Key path key) (Join "; " (IsValidLabelValue value))).

Definition validateXTrinodeCatalog (c : XTrinodeCatalog) : list field_error :=
  let connectorPath := "spec.connector" in
  let connector := cat_Connector c in
  validateCatalogSpecLabels "spec.labels" (cat_Labels c) ++
  match catalogConnectorFields connector with
  | [] => [mkFieldError ErrRequired connectorPath "exactly one connector field must be set"]
  | [_] => validateCatalogConnector connectorPath connector
  | _ => [mkFieldError ErrInvalid connectorPath "exactly one connector field must be set"]
  end ++
  validateCatalogPlaintextSensitiveProperties connectorPath connector ++
  validateCatalogGeneratedPropertyCollisions connectorPath connector ++
  validateCatalogPropertySecretRefs connectorPath connector.

Definition catalogConnectorIdentity (c : XTrinodeCatalogConnector) : string :=
  match catalogConnectorFields c with
  | [field] =>
      match c_Custom c with
      | Some custom => if field ≡? "custom" then "custom:" +:+ cu_ConnectorName custom else field
      | None => field
      end
  | fields => Join "," fields
  end.

Definition validateXTrinodeCatalogUpdate (c old : XTrinodeCatalog) : list field_error :=
  let oldIdentity := catalogConnectorIdentity (cat_Connector old) in
  let newIdentity := catalogConnectorIdentity (cat_Connector c) in
  report (negb (oldIdentity ≡? newIdentity))
    (mkFieldError ErrForbidden "spec.connector"
       ("connector identity is immutable (old: " +:+ oldIdentity +:+ ", new: " +:+ newIdentity +:+ ")")).

(** ** Secrets a catalog refers to *)

Definition append_ref (path : string) (ref : option SecretKeySelector) : list (string * string) :=
  match ref with
  | Some r => if TrimSpace (sk_Name r) ≡? "" then [] else [(path, sk_Name r)]
  | None => []
  end.

(** Path and Secret name of each reference. *)
Definition catalogSecretReferenceFields (catalog : XTrinodeCatalog) : list (string * string) :=
  let c := cat_Connector catalog in
  let base := "spec.connector" in
  ('(p, refs) ← catalogPropertySecretRefMaps base c;
   '(propertyName, ref) ← map_to_list refs; append_ref (Key p propertyName) (Some ref)) ++
  append_ref (Child base ["hive"; "s3AccessKeySecret"]) (c_Hive c ≫= hv_S3AccessKeySecret) ++
  append_ref (Child base ["hive"; "s3SecretKeySecret"]) (c_Hive c ≫= hv_S3SecretKeySecret) ++
  append_ref (Child base ["postgres"; "connectionPasswordSecret"]) (c_Postgres c ≫= jdbc_ConnectionPasswordSecret) ++
  append_ref (Child base ["mysql"; "connectionPasswordSecret"]) (c_MySQL c ≫= jdbc_ConnectionPasswordSecret) ++
  append_ref (Child base ["clickHouse"; "connectionPasswordSecret"]) (c_ClickHouse c ≫= jdbc_ConnectionPasswordSecret) ++
  append_ref (Child base ["exasol"; "connectionPasswordSecret"]) (c_Exasol c ≫= jdbc_ConnectionPasswordSecret) ++
  append_ref (Child base ["ignite"; "connectionPasswordSecret"]) (c_Ignite c ≫= jdbc_ConnectionPasswordSecret) ++
  append_ref (Child base ["mariaDB"; "connectionPasswordSecret"]) (c_MariaDB c ≫= jdbc_ConnectionPasswordSecret) ++
  append_ref (Child base ["oracle"; "connectionPasswordSecret"]) (c_Oracle c ≫= jdbc_ConnectionPasswordSecret) ++
  append_ref (Child base ["redshift"; "connectionPasswordSecret"]) (c_Redshift c ≫= jdbc_ConnectionPasswordSecret) ++
  append_ref (Child base ["singleStore"; "connectionPasswordSecret"]) (c_SingleStore c ≫= jdbc_ConnectionPasswordSecret) ++
  append_ref (Child base ["snowflake"; "passwordSecret"]) (c_Snowflake c ≫= sf_PasswordSecret) ++
  append_ref (Child base ["sqlServer"; "connectionPasswordSecret"]) (c_SQLServer c ≫= jdbc_ConnectionPasswordSecret) ++
  append_ref (Child base ["vertica"; "connectionPasswordSecret"]) (c_Vertica c ≫= jdbc_ConnectionPasswordSecret).

(** [catalogSecretAuthorizer]: may the user read the Secret of that name? *)
Definition secret_authorizer := UserInfo -> string -> string -> result string (bool * string).

Record secret_review := mkSecretReview {
  rev_User : UserInfo;
  rev_Namespace : string;
  rev_Verb : string;
  rev_Group : string;
  rev_Resource : string;
  rev_Name : string
}.

Definition CanGet (create : option (secret_review -> result string sar_status)) : secret_authorizer :=
  fun user namespace secretName =>
  match create with
  | None => Ok (false, "catalog Secret admission authorizer is not configured")
  | Some create =>
      match create (mkSecretReview user namespace "get" "" "secrets" secretName) with
      | Err e => Err ("failed to evaluate catalog Secret authorization: " +:+ e)
      | Ok st =>
          if sar_Allowed st then Ok (true, "") else
          if negb (sar_Reason st ≡? "") then Ok (false, sar_Reason st) else
          if negb (sar_EvaluationError st ≡? "") then Ok (false, sar_EvaluationError st) else
          Ok (false, "user lacks get permission on Secret " +:+ quoted secretName)
      end
  end.

(** The user of the admission request, and [secretAuthorizer]. *)
Context (request : option UserInfo) (secretAuthorizer : option secret_authorizer).

Definition review_reference (allow : secret_authorizer) (user : UserInfo) (namespace : string) (ref : string * string) :
    list field_error :=
  let '(path, secretName) := ref in
  match allow user namespace secretName with
  | Err e => [mkFieldError ErrInternal path e]
  | Ok (true, _) => []
  | Ok (false, reason) =>
      let message := "referenced Secret " +:+ quoted secretName +:+ " requires get permission on secrets in namespace " +:+
                     quoted namespace in
      [mkFieldError ErrForbidden path (if TrimSpace reason ≡? "" then message else message +:+ ": " +:+ reason)]
  end.

Definition validateSecretReferenceAdmission (catalog : XTrinodeCatalog) : list field_error :=
  match catalogSecretReferenceFields catalog with
  | [] => []
  | refs =>
      match request with
      | None => [mkFieldError ErrForbidden "spec.connector" "catalog Secret references require admission request user info"]
      | Some user =>
          match secretAuthorizer with
          | None => [mkFieldError ErrForbidden "spec.connector"
                       "catalog Secret references require admission authorization, but it is not configured"]
          | Some allow => refs ≫= review_reference allow user (cat_Namespace catalog)
          end
      end
  end.

(** The errors of the first stage that has any. *)
Definition first_errors (stages : list (list field_error)) : list field_error :=
  default [] (find_first (fun errs => negb (is_empty errs)) stages).

Definition ValidateCreate (c : XTrinodeCatalog) : list field_error :=
  first_errors [validateXTrinodeCatalog c; validateSecretReferenceAdmission c].

Definition ValidateUpdate (old c : XTrinodeCatalog) : list field_error :=
  first_errors [validateXTrinodeCatalog c; validateXTrinodeCatalogUpdate c old; validateSecretReferenceAdmission c].
End catalog.
