(* ===== verification/Connectors.v ===== *)
(** * Connectors and their properties files
    ([controllers/connector_registry.go], [xtrinodecatalog_controller.go])

    Each connector has an extractor that turns its typed settings into Trino
    properties.  The controller writes them, with the user's own properties and
    references to Secrets, into the catalog's properties file. *)

From S2P Require Import Prelude GoStrings GoTime GoParse CatalogTypes NodePool Admission AdmissionUpdate CatalogAdmission.

(** [%f] of [fmt]: six decimals of the exact value, ties to even. *)
Definition fmt_f (x : float64) : string :=
  let '(m, e) := x in
  let '(a, b) := scaled (m * 10 ^ 6) 1 (- e) in
  let n := round_half_even a b in
  fmt_d (n / 10 ^ 6) +:+ "." +:+ str_drop 1 (fmt_d (10 ^ 6 + n mod 10 ^ 6)).

Example fmt_f_forms : fmt_f (float_div (1, 0) (4, 0)) = "0.250000" /\ fmt_f (float_div (1, 0) (3, 0)) = "0.333333" /\
  fmt_f (3, 1) = "6.000000".
Proof. vm_compute. done. Qed.

(** ** Extractors *)

Record ConnectorExtractor := mkExtractor {
  Match : XTrinodeCatalogConnector -> bool;
  ConnectorName : XTrinodeCatalogConnector -> string;
  BuildProps : XTrinodeCatalogConnector -> string -> Properties
}.

(** [ensurePropertiesMap] copies the map, so that the object is not changed. *)
Definition ensurePropertiesMap (props : Properties) : Properties := props.

Definition put_if (condition : bool) (key value : string) (props : Properties) : Properties :=
  if condition then <[key := value]> props else props.

Definition buildJDBCProps (base : Properties) (connectionURL connectionUser catalogName : string)
    (passwordSecret : option SecretKeySelector) : Properties :=
  let props := <["connection-url" := connectionURL]> (ensurePropertiesMap base) in
  let props := put_if (negb (connectionUser ≡? "")) "connection-user" connectionUser props in
  put_if (is_set passwordSecret) "connection-password" (env_ref catalogName "connection-password") props.

(** An extractor builds properties only for a connector it matches. *)
Definition extractor {A} (get : XTrinodeCatalogConnector -> option A) (name : string) (build : A -> string -> Properties) :
    ConnectorExtractor :=
  mkExtractor (fun c => is_set (get c)) (fun _ => name)
    (fun c catalogName => from_option (fun s => build s catalogName) ∅ (get c)).

Definition jdbc_extractor (get : XTrinodeCatalogConnector -> option JDBCSpec) (name : string) : ConnectorExtractor :=
  extractor get name (fun s catalogName =>
    buildJDBCProps (jdbc_Properties s) (jdbc_ConnectionURL s) (jdbc_ConnectionUser s) catalogName
      (jdbc_ConnectionPasswordSecret s)).

Definition plain_extractor (get : XTrinodeCatalogConnector -> option PlainSpec) (name : string) : ConnectorExtractor :=
  extractor get name (fun s _ => ensurePropertiesMap (pl_Properties s)).

Definition slash : ascii -> bool := fun c => c ≡? "/"%char.

Definition druidConnectionURL (brokerURL : string) : string :=
  let trimmed := TrimSpace brokerURL in
  if HasPrefix (ToLower trimmed) "jdbc:" then trimmed else
  let base := TrimRightFunc slash trimmed in
  let base := if HasSuffix base "/druid/v2/sql/avatica" then base else base +:+ "/druid/v2/sql/avatica" in
  "jdbc:avatica:remote:url=" +:+ base +:+ "/".

Definition duckDBConnectionURL (databasePath : string) : string :=
  let trimmed := TrimSpace databasePath in
  if HasPrefix (ToLower trimmed) "jdbc:duckdb:" then trimmed else "jdbc:duckdb:" +:+ trimmed.

Definition normalizeMetastoreCatalogType (catalogType : string) : string := ToLower (TrimSpace catalogType).

Definition normalizeIcebergCatalogType (catalogType : string) : string :=
  let normalized := normalizeMetastoreCatalogType catalogType in
  if (normalized ≡? "") || (normalized ≡? "hive") then "hive_metastore" else normalized.

Definition normalizeLakehouseTableType (catalogType : string) : string :=
  let normalized := ToUpper (TrimSpace catalogType) in
  if normalized ≡? "DELTA_LAKE" then "DELTA" else normalized.

(** *** Snowflake addresses *)

(** [strings.Index] *)
Fixpoint index_of (s sub : string) : option nat :=
  if HasPrefix s sub then Some O else
  match s with
  | EmptyString => None
  | String _ s => S <$> index_of s sub
  end.

Definition stripCaseInsensitivePrefix (value prefix : string) : option string :=
  if HasPrefix (ToLower value) (ToLower prefix) then Some (str_drop (String.length prefix) value) else None.

Definition before_byte (c : ascii) (s : string) : string :=
  match IndexByte c s with Some i => str_take i s | None => s end.

Definition hostFromSnowflakeURLRemainder (remainder : string) : string :=
  before_byte "?"%char (before_byte "/"%char remainder).

Definition snowflakeAccountFromHost (host : string) : string :=
  let host := before_byte ":"%char (TrimSpace host) in
  let host := TrimSuffix host "." in
  match index_of (ToLower host) ".snowflakecomputing.com" with
  | Some (S i) => str_take (S i) host
  | _ => host
  end.

Section registry.
(** [url.Parse]: host, escaped path and raw query of a text it accepts. *)
Context (url_Parse : string -> option (string * string * string)).

Definition snowflakeConnectionURLAndAccount (accountURL : string) : string * string :=
  let trimmed := TrimSpace accountURL in
  if trimmed ≡? "" then ("", "") else
  match stripCaseInsensitivePrefix trimmed "jdbc:snowflake://" with
  | Some value => (trimmed, snowflakeAccountFromHost (hostFromSnowflakeURLRemainder value))
  | None =>
      let plain :=
        let host := if Contains trimmed "." then trimmed else trimmed +:+ ".snowflakecomputing.com" in
        ("jdbc:snowflake://" +:+ host, snowflakeAccountFromHost host) in
      match url_Parse trimmed with
      | Some (host, path, query) =>
          if host ≡? "" then plain else
          let pathAndQuery := if query ≡? "" then path else path +:+ "?" +:+ query in
          ("jdbc:snowflake://" +:+ host +:+ pathAndQuery, snowflakeAccountFromHost host)
      | None => plain
      end
  end.

(** *** One per connector *)

Definition bigQueryExtractor : ConnectorExtractor := extractor c_BigQuery "bigquery" (fun s _ =>
  let props := ensurePropertiesMap (bq_Properties s) in
  let props := <["bigquery.project-id" := bq_ProjectID s]> props in
  let props := put_if (negb (bq_ParentProjectID s ≡? "")) "bigquery.parent-project-id" (bq_ParentProjectID s) props in
  put_if (negb (bq_CredentialsFile s ≡? "")) "bigquery.credentials-file" (bq_CredentialsFile s) props).

Definition blackHoleExtractor : ConnectorExtractor := plain_extractor c_BlackHole "blackhole".

Definition cassandraExtractor : ConnectorExtractor := extractor c_Cassandra "cassandra" (fun s _ =>
  let props := <["cassandra.contact-points" := cas_ContactPoints s]> (ensurePropertiesMap (cas_Properties s)) in
  put_if (0 <? cas_Port s) "cassandra.native-protocol-port" (fmt_d (cas_Port s)) props).

Definition clickHouseExtractor : ConnectorExtractor := jdbc_extractor c_ClickHouse "clickhouse".

Definition deltaLakeExtractor : ConnectorExtractor := extractor c_DeltaLake "delta_lake" (fun s _ =>
  let props := ensurePropertiesMap (dl_Properties s) in
  match normalizeMetastoreCatalogType (dl_CatalogType s) with
  | "glue" => <["hive.metastore" := "glue"]> props
  | "hive" | "hive_metastore" => put_if (negb (dl_WarehouseURI s ≡? "")) "hive.metastore.uri" (dl_WarehouseURI s) props
  | _ => props
  end).

Definition druidExtractor : ConnectorExtractor := extractor c_Druid "druid" (fun s _ =>
  <["connection-url" := druidConnectionURL (dr_BrokerURL s)]> (ensurePropertiesMap (dr_Properties s))).

Definition duckDBExtractor : ConnectorExtractor := extractor c_DuckDB "duckdb" (fun s _ =>
  put_if (negb (dd_DatabasePath s ≡? "")) "connection-url" (duckDBConnectionURL (dd_DatabasePath s))
    (ensurePropertiesMap (dd_Properties s))).

Definition elasticsearchExtractor : ConnectorExtractor := extractor c_Elasticsearch "elasticsearch" (fun s _ =>
  let props := <["elasticsearch.host" := els_Host s]> (ensurePropertiesMap (els_Properties s)) in
  let props := put_if (0 <? els_Port s) "elasticsearch.port" (fmt_d (els_Port s)) props in
  put_if (negb (els_DefaultSchema s ≡? "")) "elasticsearch.default-schema-name" (els_DefaultSchema s) props).

Definition exasolExtractor : ConnectorExtractor := jdbc_extractor c_Exasol "exasol".

Definition fakerExtractor : ConnectorExtractor := extractor c_Faker "faker" (fun s _ =>
  let props := ensurePropertiesMap (fk_Properties s) in
  let props := put_if (0 <? fk_DefaultLimit s) "faker.default-limit" (fmt_d (fk_DefaultLimit s)) props in
  put_if (float_positive (fk_NullProbability s)) "faker.null-probability" (fmt_f (fk_NullProbability s)) props).

Definition googleSheetsExtractor : ConnectorExtractor := extractor c_GoogleSheets "gsheets" (fun s _ =>
  let props := <["gsheets.credentials-path" := gs_CredentialsFilePath s]> (ensurePropertiesMap (gs_Properties s)) in
  put_if (negb (gs_MetadataSheetID s ≡? "")) "gsheets.metadata-sheet-id" (gs_MetadataSheetID s) props).

Definition hiveExtractor : ConnectorExtractor := extractor c_Hive "hive" (fun s catalogName =>
  let props := <["hive.metastore.uri" := hv_MetastoreURI s]> (ensurePropertiesMap (hv_Properties s)) in
  let props := if negb (hv_S3Endpoint s ≡? "")
               then <["s3.endpoint" := hv_S3Endpoint s]> (<["fs.native-s3.enabled" := "true"]> props) else props in
  let props := if is_set (hv_S3AccessKeySecret s)
               then <["s3.aws-access-key" := env_ref catalogName "s3.aws-access-key"]> (<["fs.native-s3.enabled" := "true"]> props)
               else props in
  if is_set (hv_S3SecretKeySecret s)
  then <["s3.aws-secret-key" := env_ref catalogName "s3.aws-secret-key"]> (<["fs.native-s3.enabled" := "true"]> props)
  else props).

Definition hudiExtractor : ConnectorExtractor := extractor c_Hudi "hudi" (fun s _ =>
  <["hive.metastore.uri" := hu_MetastoreURI s]> (ensurePropertiesMap (hu_Properties s))).

Definition icebergExtractor : ConnectorExtractor := extractor c_Iceberg "iceberg" (fun s _ =>
  <["iceberg.catalog.type" := normalizeIcebergCatalogType (ic_CatalogType s)]> (ensurePropertiesMap (ic_Properties s))).

Definition igniteExtractor : ConnectorExtractor := jdbc_extractor c_Ignite "ignite".

Definition jmxExtractor : ConnectorExtractor := plain_extractor c_JMX "jmx".

Definition kafkaExtractor : ConnectorExtractor := extractor c_Kafka "kafka" (fun s _ =>
  <["kafka.nodes" := Join "," (kf_KafkaNodes s)]> (ensurePropertiesMap (kf_Properties s))).

Definition lakehouseExtractor : ConnectorExtractor := extractor c_Lakehouse "lakehouse" (fun s _ =>
  let props := <["lakehouse.table-type" := normalizeLakehouseTableType (lh_CatalogType s)]> (ensurePropertiesMap (lh_Properties s)) in
  if negb (lh_MetastoreURI s ≡? "")
  then <["hive.metastore.uri" := lh_MetastoreURI s]> (<["hive.metastore" := "thrift"]> props) else props).

Definition lokiExtractor : ConnectorExtractor := extractor c_Loki "loki" (fun s _ =>
  <["loki.uri" := lk_URI s]> (ensurePropertiesMap (lk_Properties s))).

Definition mariaDBExtractor : ConnectorExtractor := jdbc_extractor c_MariaDB "mariadb".

Definition memoryExtractor : ConnectorExtractor := extractor c_Memory "memory" (fun s _ =>
  put_if (negb (mm_MaxDataPerNode s ≡? "")) "memory.max-data-per-node" (mm_MaxDataPerNode s)
    (ensurePropertiesMap (mm_Properties s))).

Definition mongoDBExtractor : ConnectorExtractor := extractor c_MongoDB "mongodb" (fun s _ =>
  <["mongodb.connection-url" := mo_ConnectionURI s]> (ensurePropertiesMap (mo_Properties s))).

Definition mysqlExtractor : ConnectorExtractor := jdbc_extractor c_MySQL "mysql".

Definition openSearchExtractor : ConnectorExtractor := extractor c_OpenSearch "opensearch" (fun s _ =>
  let props := <["opensearch.host" := os_Host s]> (ensurePropertiesMap (os_Properties s)) in
  let props := put_if (0 <? os_Port s) "opensearch.port" (fmt_d (os_Port s)) props in
  put_if (negb (os_DefaultSchema s ≡? "")) "opensearch.default-schema-name" (os_DefaultSchema s) props).

Definition oracleExtractor : ConnectorExtractor := jdbc_extractor c_Oracle "oracle".

Definition pinotExtractor : ConnectorExtractor := extractor c_Pinot "pinot" (fun s _ =>
  <["pinot.controller-urls" := pi_ControllerURLs s]> (ensurePropertiesMap (pi_Properties s))).

Definition postgresExtractor : ConnectorExtractor := jdbc_extractor c_Postgres "postgresql".

Definition prometheusExtractor : ConnectorExtractor := extractor c_Prometheus "prometheus" (fun s _ =>
  <["prometheus.uri" := pr_URI s]> (ensurePropertiesMap (pr_Properties s))).

Definition redisExtractor : ConnectorExtractor := extractor c_Redis "redis" (fun s _ =>
  let props := <["redis.nodes" := rd_Nodes s]> (ensurePropertiesMap (rd_Properties s)) in
  put_if (0 <? rd_Database s) "redis.database-index" (fmt_d (rd_Database s)) props).

Definition redshiftExtractor : ConnectorExtractor := jdbc_extractor c_Redshift "redshift".

Definition singleStoreExtractor : ConnectorExtractor := jdbc_extractor c_SingleStore "singlestore".

Definition snowflakeExtractor : ConnectorExtractor := extractor c_Snowflake "snowflake" (fun s catalogName =>
  let props := ensurePropertiesMap (sf_Properties s) in
  let '(connectionURL, account) := snowflakeConnectionURLAndAccount (sf_AccountURL s) in
  let props := <["connection-user" := sf_User s]> (<["connection-url" := connectionURL]> props) in
  let props := put_if (negb (account ≡? "")) "snowflake.account" account props in
  let props := put_if (negb (sf_Database s ≡? "")) "snowflake.database" (sf_Database s) props in
  let props := put_if (negb (sf_Role s ≡? "")) "snowflake.role" (sf_Role s) props in
  let props := put_if (negb (sf_Warehouse s ≡? "")) "snowflake.warehouse" (sf_Warehouse s) props in
  put_if (is_set (sf_PasswordSecret s)) "connection-password" (env_ref catalogName "connection-password") props).

Definition sqlServerExtractor : ConnectorExtractor := jdbc_extractor c_SQLServer "sqlserver".

Definition systemExtractor : ConnectorExtractor := plain_extractor c_System "system".

Definition thriftExtractor : ConnectorExtractor := extractor c_Thrift "trino_thrift" (fun s _ =>
  <["trino.thrift.client.addresses" := th_Host s +:+ ":" +:+ fmt_d (th_Port s)]> (ensurePropertiesMap (th_Properties s))).

Definition tpcdsExtractor : ConnectorExtractor := plain_extractor c_TPCDS "tpcds".

Definition tpchExtractor : ConnectorExtractor := plain_extractor c_TPCH "tpch".

Definition verticaExtractor : ConnectorExtractor := jdbc_extractor c_Vertica "vertica".

Definition customExtractor : ConnectorExtractor :=
  mkExtractor (fun c => is_set (c_Custom c)) (fun c => from_option cu_ConnectorName "" (c_Custom c))
    (fun c _ => from_option (fun s => ensurePropertiesMap (cu_Properties s)) ∅ (c_Custom c)).

Definition connectorRegistry : list ConnectorExtractor :=
  [bigQueryExtractor; blackHoleExtractor; cassandraExtractor; clickHouseExtractor;
   deltaLakeExtractor; druidExtractor; duckDBExtractor; elasticsearchExtractor;
   exasolExtractor; fakerExtractor; googleSheetsExtractor; hiveExtractor;
   hudiExtractor; icebergExtractor; igniteExtractor; jmxExtractor;
   kafkaExtractor; lakehouseExtractor; lokiExtractor; mariaDBExtractor;
   memoryExtractor; mongoDBExtractor; mysqlExtractor; openSearchExtractor;
   oracleExtractor; pinotExtractor; postgresExtractor; prometheusExtractor;
   redisExtractor; redshiftExtractor; singleStoreExtractor; snowflakeExtractor;
   sqlServerExtractor; systemExtractor; thriftExtractor; tpcdsExtractor;
   tpchExtractor; verticaExtractor; customExtractor].

(** ** Resolving a connector *)

Definition apply_ref (catalogName : string) (props : Properties) (propertyName : string) : Properties :=
  let trimmedProperty := TrimSpace propertyName in
  if trimmedProperty ≡? "" then props else <[trimmedProperty := env_ref catalogName trimmedProperty]> props.

Definition applyPropertySecretRefs (props : Properties) (refs : PropertySecretRefs) (catalogName : string) : Properties :=
  fold_left (apply_ref catalogName) (mapKeys refs) props.

Definition resolveConnector (c : XTrinodeCatalogConnector) (catalogName : string) : result string (string * Properties) :=
  match filter (fun ext => Match ext c = true) connectorRegistry with
  | [] => Err ("no connector specified in XTrinodeCatalog " +:+ quoted catalogName +:+ ": exactly one connector field must be set")
  | [ext] =>
      Ok (ConnectorName ext c,
          applyPropertySecretRefs (BuildProps ext c catalogName) (GenericPropertySecretRefs c) catalogName)
  | matched =>
      Err ("multiple connectors specified in XTrinodeCatalog " +:+ quoted catalogName +:+ " (" +:+
           Join ", " ((fun ext => ConnectorName ext c) <$> matched) +:+ "): exactly one connector field must be set")
  end.

(** ** The properties file *)

Definition newline : string := String (ascii_of_nat 10) EmptyString.

Definition property_line (key value : string) : string := key +:+ "=" +:+ value +:+ newline.

Definition buildPropertiesString (connectorName : string) (props : Properties) : string :=
  property_line "connector.name" connectorName +:+
  foldr (fun key text => property_line key (default "" (props !! key)) +:+ text) EmptyString (SortStrings (mapKeys props)).

(** Labels, validation and the error texts of the webhook. *)
Context (IsQualifiedName IsValidLabelValue : string -> list string) (invalid_text : string -> list field_error -> string).

Definition generateProperties (catalog : XTrinodeCatalog) : result string string :=
  match validateXTrinodeCatalog IsQualifiedName IsValidLabelValue catalog with
  | (_ :: _) as errs => Err ("invalid XTrinodeCatalog spec: " +:+ invalid_text (cat_Name catalog) errs)
  | [] =>
      match resolveConnector (cat_Connector catalog) (TrimPrefix (cat_Name catalog) CatalogConfigMapPrefix) with
      | Err e => Err e
      | Ok (connectorName, props) => Ok (buildPropertiesString connectorName props)
      end
  end.

Record CatalogConfigMap := mkCatalogConfigMap {
  ccm_Name : string;
  ccm_Namespace : string;
  ccm_Labels : gmap string string;
  ccm_Data : gmap string string
}.

Definition catalogConfigMapLabels (catalog : XTrinodeCatalog) : gmap string string :=
  <["xtrinode-catalog-generated" := "true"]> (<["xtrinode-catalog" := cat_Name catalog]>
    (<["app" := "trino"]> (cat_Labels catalog))).

Definition generateConfigMap (catalog : XTrinodeCatalog) : result string CatalogConfigMap :=
  let catalogName := TrimPrefix (cat_Name catalog) CatalogConfigMapPrefix in
  match generateProperties catalog with
  | Err e => Err ("failed to generate properties: " +:+ e)
  | Ok properties =>
      Ok (mkCatalogConfigMap (CatalogConfigMapPrefix +:+ catalogName) (cat_Namespace catalog)
            (catalogConfigMapLabels catalog) {[ catalogName +:+ ".properties" := properties ]})
  end.
End registry.
