(* ===== verification/ConnectorUnion.v ===== *)
(** * The union of connectors

    A connector with one field set, taken apart: the settings its typed fields
    produce, the properties of the user, and the references to Secrets. *)

From S2P Require Import Prelude GoStrings GoTime GoParse CatalogTypes World Catalogs NodePool Admission AdmissionUpdate CatalogAdmission Connectors.

(** ** Typed settings *)

(** The typed settings alone. *)
Definition stripped (k : Connector) : Connector :=
  match k with
  | ABigQuery s => ABigQuery (mkBigQuery ∅ (bq_ProjectID s) (bq_ParentProjectID s) (bq_CredentialsFile s) ∅)
  | ABlackHole s => ABlackHole (mkPlain ∅ ∅)
  | ACassandra s => ACassandra (mkCassandra ∅ (cas_ContactPoints s) (cas_Port s) ∅)
  | AClickHouse s => AClickHouse (mkJDBC ∅ (jdbc_ConnectionURL s) (jdbc_ConnectionUser s) (jdbc_ConnectionPasswordSecret s) ∅)
  | ADeltaLake s => ADeltaLake (mkDeltaLake ∅ (dl_CatalogType s) (dl_WarehouseURI s) ∅)
  | ADruid s => ADruid (mkDruid ∅ (dr_BrokerURL s) ∅)
  | ADuckDB s => ADuckDB (mkDuckDB ∅ (dd_DatabasePath s) ∅)
  | AElasticsearch s => AElasticsearch (mkElasticsearch ∅ (els_Host s) (els_Port s) (els_DefaultSchema s) ∅)
  | AExasol s => AExasol (mkJDBC ∅ (jdbc_ConnectionURL s) (jdbc_ConnectionUser s) (jdbc_ConnectionPasswordSecret s) ∅)
  | AFaker s => AFaker (mkFaker ∅ (fk_DefaultLimit s) (fk_NullProbability s) ∅)
  | AGoogleSheets s => AGoogleSheets (mkGoogleSheets ∅ (gs_CredentialsFilePath s) (gs_MetadataSheetID s) ∅)
  | AHive s => AHive (mkHive ∅ (hv_MetastoreURI s) (hv_S3Endpoint s) (hv_S3AccessKeySecret s) (hv_S3SecretKeySecret s) ∅)
  | AHudi s => AHudi (mkHudi ∅ (hu_MetastoreURI s) ∅)
  | AIceberg s => AIceberg (mkIceberg ∅ (ic_CatalogType s) (ic_WarehouseURI s) ∅)
  | AIgnite s => AIgnite (mkJDBC ∅ (jdbc_ConnectionURL s) (jdbc_ConnectionUser s) (jdbc_ConnectionPasswordSecret s) ∅)
  | AJMX s => AJMX (mkPlain ∅ ∅)
  | AKafka s => AKafka (mkKafka ∅ (kf_KafkaNodes s) ∅)
  | ALakehouse s => ALakehouse (mkLakehouse ∅ (lh_CatalogType s) (lh_MetastoreURI s) ∅)
  | ALoki s => ALoki (mkLoki ∅ (lk_URI s) ∅)
  | AMariaDB s => AMariaDB (mkJDBC ∅ (jdbc_ConnectionURL s) (jdbc_ConnectionUser s) (jdbc_ConnectionPasswordSecret s) ∅)
  | AMemory s => AMemory (mkMemory ∅ (mm_MaxDataPerNode s) ∅)
  | AMongoDB s => AMongoDB (mkMongoDB ∅ (mo_ConnectionURI s) ∅)
  | AMySQL s => AMySQL (mkJDBC ∅ (jdbc_ConnectionURL s) (jdbc_ConnectionUser s) (jdbc_ConnectionPasswordSecret s) ∅)
  | AOpenSearch s => AOpenSearch (mkOpenSearch ∅ (os_Host s) (os_Port s) (os_DefaultSchema s) ∅)
  | AOracle s => AOracle (mkJDBC ∅ (jdbc_ConnectionURL s) (jdbc_ConnectionUser s) (jdbc_ConnectionPasswordSecret s) ∅)
  | APinot s => APinot (mkPinot ∅ (pi_ControllerURLs s) ∅)
  | APostgres s => APostgres (mkJDBC ∅ (jdbc_ConnectionURL s) (jdbc_ConnectionUser s) (jdbc_ConnectionPasswordSecret s) ∅)
  | APrometheus s => APrometheus (mkPrometheus ∅ (pr_URI s) ∅)
  | ARedis s => ARedis (mkRedis ∅ (rd_Nodes s) (rd_Database s) ∅)
  | ARedshift s => ARedshift (mkJDBC ∅ (jdbc_ConnectionURL s) (jdbc_ConnectionUser s) (jdbc_ConnectionPasswordSecret s) ∅)
  | ASingleStore s => ASingleStore (mkJDBC ∅ (jdbc_ConnectionURL s) (jdbc_ConnectionUser s) (jdbc_ConnectionPasswordSecret s) ∅)
  | ASnowflake s => ASnowflake (mkSnowflake ∅ (sf_AccountURL s) (sf_User s) (sf_Database s) (sf_Role s) (sf_Warehouse s) (sf_PasswordSecret s) ∅)
  | ASQLServer s => ASQLServer (mkJDBC ∅ (jdbc_ConnectionURL s) (jdbc_ConnectionUser s) (jdbc_ConnectionPasswordSecret s) ∅)
  | ASystem s => ASystem (mkPlain ∅ ∅)
  | AThrift s => AThrift (mkThrift ∅ (th_Host s) (th_Port s) ∅)
  | ATPCDS s => ATPCDS (mkPlain ∅ ∅)
  | ATPCH s => ATPCH (mkPlain ∅ ∅)
  | AVertica s => AVertica (mkJDBC ∅ (jdbc_ConnectionURL s) (jdbc_ConnectionUser s) (jdbc_ConnectionPasswordSecret s) ∅)
  | ACustom s => ACustom (mkCustom ∅ (cu_ConnectorName s) ∅)
  end.

(** The Secrets of the typed settings, by the property they feed. *)
Definition typed_secrets (k : Connector) : list (string * option SecretKeySelector) :=
  match k with
  | AClickHouse s => [("connection-password", jdbc_ConnectionPasswordSecret s)]
  | AExasol s => [("connection-password", jdbc_ConnectionPasswordSecret s)]
  | AHive s => [("s3.aws-access-key", hv_S3AccessKeySecret s); ("s3.aws-secret-key", hv_S3SecretKeySecret s)]
  | AIgnite s => [("connection-password", jdbc_ConnectionPasswordSecret s)]
  | AMariaDB s => [("connection-password", jdbc_ConnectionPasswordSecret s)]
  | AMySQL s => [("connection-password", jdbc_ConnectionPasswordSecret s)]
  | AOracle s => [("connection-password", jdbc_ConnectionPasswordSecret s)]
  | APostgres s => [("connection-password", jdbc_ConnectionPasswordSecret s)]
  | ARedshift s => [("connection-password", jdbc_ConnectionPasswordSecret s)]
  | ASingleStore s => [("connection-password", jdbc_ConnectionPasswordSecret s)]
  | ASnowflake s => [("connection-password", sf_PasswordSecret s)]
  | ASQLServer s => [("connection-password", jdbc_ConnectionPasswordSecret s)]
  | AVertica s => [("connection-password", jdbc_ConnectionPasswordSecret s)]
  | _ => []
  end.

Section connectors.
Context (url_Parse : string -> option (string * string * string)).

Definition extractor_of (k : Connector) : ConnectorExtractor :=
  match k with
  | ABigQuery _ => bigQueryExtractor
  | ABlackHole _ => blackHoleExtractor
  | ACassandra _ => cassandraExtractor
  | AClickHouse _ => clickHouseExtractor
  | ADeltaLake _ => deltaLakeExtractor
  | ADruid _ => druidExtractor
  | ADuckDB _ => duckDBExtractor
  | AElasticsearch _ => elasticsearchExtractor
  | AExasol _ => exasolExtractor
  | AFaker _ => fakerExtractor
  | AGoogleSheets _ => googleSheetsExtractor
  | AHive _ => hiveExtractor
  | AHudi _ => hudiExtractor
  | AIceberg _ => icebergExtractor
  | AIgnite _ => igniteExtractor
  | AJMX _ => jmxExtractor
  | AKafka _ => kafkaExtractor
  | ALakehouse _ => lakehouseExtractor
  | ALoki _ => lokiExtractor
  | AMariaDB _ => mariaDBExtractor
  | AMemory _ => memoryExtractor
  | AMongoDB _ => mongoDBExtractor
  | AMySQL _ => mysqlExtractor
  | AOpenSearch _ => openSearchExtractor
  | AOracle _ => oracleExtractor
  | APinot _ => pinotExtractor
  | APostgres _ => postgresExtractor
  | APrometheus _ => prometheusExtractor
  | ARedis _ => redisExtractor
  | ARedshift _ => redshiftExtractor
  | ASingleStore _ => singleStoreExtractor
  | ASnowflake _ => snowflakeExtractor url_Parse
  | ASQLServer _ => sqlServerExtractor
  | ASystem _ => systemExtractor
  | AThrift _ => thriftExtractor
  | ATPCDS _ => tpcdsExtractor
  | ATPCH _ => tpchExtractor
  | AVertica _ => verticaExtractor
  | ACustom _ => customExtractor
  end.

Definition build (k : Connector) (catalogName : string) : Properties := BuildProps (extractor_of k) (only k) catalogName.

Lemma resolve_only k n :
  resolveConnector url_Parse (only k) n =
  Ok (ConnectorName (extractor_of k) (only k), applyPropertySecretRefs (build k n) (connector_refs k) n).
Proof. destruct k; reflexivity. Qed.

Lemma fields_only k : length (catalogConnectorFields (only k)) = 1%nat.
Proof. destruct k; reflexivity. Qed.
End connectors.

Lemma maps_only path k : exists p, catalogPropertyMaps path (only k) =
  if bool_decide (connector_properties k = ∅) then [] else [(p, connector_properties k)].
Proof. destruct k; eexists; unfold catalogPropertyMaps; simpl; repeat case_bool_decide; done. Qed.

Lemma ref_maps_only path k : exists p, catalogPropertySecretRefMaps path (only k) =
  if bool_decide (connector_refs k = ∅) then [] else [(p, connector_refs k)].
Proof. destruct k; eexists; unfold catalogPropertySecretRefMaps; simpl; repeat case_bool_decide; done. Qed.

(** ** Typed settings against user properties *)

Section build.
Context (url_Parse : string -> option (string * string * string)).

Lemma union_insert key value (m m0 u : Properties) : m = m0 ∪ u -> <[key := value]> m = <[key := value]> m0 ∪ u.
Proof. intros ->. apply insert_union_l. Qed.

Lemma union_put b key value (m m0 u : Properties) : m = m0 ∪ u -> put_if b key value m = put_if b key value m0 ∪ u.
Proof. unfold put_if. destruct b; auto using union_insert. Qed.

Lemma union_if (b : bool) (m1 m2 n1 n2 u : Properties) :
  m1 = n1 ∪ u -> m2 = n2 ∪ u -> (if b then m1 else m2) = (if b then n1 else n2) ∪ u.
Proof. by destruct b. Qed.

Lemma union_start (u : Properties) : u = ∅ ∪ u.
Proof. by rewrite (left_id_L ∅ (∪)). Qed.

Ltac union_step :=
  lazymatch goal with
  | |- _ = ∅ ∪ _ => apply union_start
  | |- _ = <[_ := _]> _ ∪ _ => apply union_insert
  | |- _ = put_if _ _ _ _ ∪ _ => apply union_put
  | |- _ = (if _ then _ else _) ∪ _ => apply union_if
  | |- context [snowflakeConnectionURLAndAccount ?u ?a] => destruct (snowflakeConnectionURLAndAccount u a)
  end.

(** A typed setting wins over a property of the user. *)
Lemma build_union k n : build url_Parse k n = build url_Parse (stripped k) n ∪ connector_properties k.
Proof.
  unfold build. destruct k; simpl; unfold buildJDBCProps, ensurePropertiesMap.
  5: repeat case_match.
  all: repeat union_step.
Qed.

Definition within (m : Properties) (keys : list string) : Prop := forall p v, m !! p = Some v -> p ∈ keys.

Lemma within_empty keys : within ∅ keys.
Proof. intros p v Hp. by rewrite lookup_empty in Hp. Qed.

Lemma within_insert key value m keys : key ∈ keys -> within m keys -> within (<[key := value]> m) keys.
Proof. intros Hk Hm p v [[<- _]|[_ Hp]]%lookup_insert_Some; [done|by eapply Hm]. Qed.

Lemma within_put b key value m keys : (b = true -> key ∈ keys) -> within m keys -> within (put_if b key value m) keys.
Proof. unfold put_if. destruct b; auto using within_insert. Qed.

Lemma within_if (b : bool) m1 m2 keys : (b = true -> within m1 keys) -> within m2 keys -> within (if b then m1 else m2) keys.
Proof. destruct b; auto. Qed.

Lemma elem_of_add_if p b key : p ∈ add_if b key <-> b = true /\ p = key.
Proof. unfold add_if. destruct b; set_solver. Qed.

Ltac found :=
  lazymatch goal with
  | |- _ \/ _ => first [left; found|right; found]
  | |- _ /\ _ => split; found
  | |- @eq string _ _ => reflexivity
  | |- _ = true => match goal with H : ?b = true |- _ => rewrite H, ?orb_true_r; reflexivity end
  end.

Ltac within_step :=
  lazymatch goal with
  | |- within ∅ _ => apply within_empty
  | |- within (<[_ := _]> _) _ => apply within_insert
  | |- within (put_if _ _ _ _) _ => apply within_put; [intros ?|]
  | |- within (if _ then _ else _) _ => apply within_if; [intros ?|]
  | |- within match snowflakeConnectionURLAndAccount ?u ?a with _ => _ end _ => destruct (snowflakeConnectionURLAndAccount u a)
  | |- _ ∈ _ => repeat rewrite ?elem_of_app, ?elem_of_cons, ?elem_of_add_if; found
  end.

Lemma typed_within k n : within (build url_Parse (stripped k) n) (generated_keys (only k)).
Proof.
  unfold build, generated_keys. destruct k; simpl; unfold buildJDBCProps, addJDBC, ensurePropertiesMap.
  all: unfold normalizeMetastoreCatalogType, normalizeGeneratedCatalogType.
  5: repeat case_match.
  all: repeat within_step.
Qed.

(** ** The reserved names *)

Lemma Forall_add_if (P : string -> Prop) b key : P key -> Forall P (add_if b key).
Proof. unfold add_if. destruct b; auto. Qed.

(** No typed field produces [connector.name]. *)
Lemma typed_not_name k : Forall (fun key => key <> "connector.name") (generated_keys (only k)).
Proof.
  unfold generated_keys. destruct k; simpl; unfold addJDBC;
    repeat first [apply Forall_app_2|apply Forall_add_if|apply list.Forall_cons_2|apply list.Forall_nil_2|discriminate|case_match].
Qed.

Lemma fold_insert_lookup {V} (f : string -> string) (v : V) keys (m : gmap string V) key :
  is_Some (m !! f key) \/ key ∈ keys ->
  is_Some (fold_left (fun m key => <[f key := v]> m) keys m !! f key).
Proof.
  revert m. induction keys as [|key' keys IH]; intros m Hk; simpl.
  - destruct Hk as [Hk|Hk]; [done|by apply not_elem_of_nil in Hk].
  - apply IH. rewrite elem_of_cons in Hk. destruct (decide (f key' = f key)) as [->|Hne].
    + left. by rewrite lookup_insert_eq.
    + rewrite lookup_insert_ne by done. destruct Hk as [Hk|[Hk|Hk]]; [by left|congruence|by right].
Qed.

Lemma reserved_typed c key :
  key ∈ generated_keys c \/ key = "connector.name" -> is_Some (generatedCatalogPropertyKeys c !! normalizeCatalogPropertyKey key).
Proof.
  intros Hk. apply fold_insert_lookup. destruct Hk as [Hk| ->]; [by right|left]. vm_compute. eauto.
Qed.

Lemma put_set {A} (o : option A) a p v m : Some a = o -> put_if (is_set o) p v m !! p = Some v.
Proof. intros <-. apply lookup_insert_eq. Qed.

Lemma hive_secret_built s n p sel :
  (p, Some sel) ∈ typed_secrets (AHive s) -> build url_Parse (stripped (AHive s)) n !! p = Some (env_ref n p).
Proof.
  unfold build. simpl. rewrite !elem_of_cons, elem_of_nil.
  intros [Hp|[Hp|[]]]; injection Hp as -> <-; simpl;
    repeat case_match; by rewrite ?lookup_insert_ne, ?lookup_insert_eq by done.
Qed.

(** The properties that stand for a Secret of a typed field. *)
Lemma typed_secret_built k n p sel :
  (p, Some sel) ∈ typed_secrets k -> build url_Parse (stripped k) n !! p = Some (env_ref n p).
Proof.
  destruct k; try (apply hive_secret_built); unfold build; simpl; rewrite ?elem_of_cons, ?elem_of_nil; try tauto;
    intros [Hp|[]]; injection Hp as -> Hs; try case_match; by eapply put_set.
Qed.
End build.
