(* ===== verification/CatalogSound.v ===== *)
(** * What an accepted catalog amounts to

    Proofs about [CatalogAdmission], [Connectors] and [Catalogs]: the properties
    of an accepted catalog are its typed settings, the user's properties and
    references to Secrets, none of them lost; every reference is delivered to the
    pods, and was one its author may read. *)

From S2P Require Import Prelude GoStrings GoTime GoParse CatalogTypes World Catalogs NodePool Admission AdmissionUpdate CatalogAdmission Connectors ConnectorUnion.

(** ** Empty reports *)

Lemma each_nil {A B} (l : list A) (f : A -> list B) : l ≫= f = [] <-> forall a, a ∈ l -> f a = [].
Proof.
  induction l as [|a l IH]; simpl; [split; [intros _ a Ha; by apply not_elem_of_nil in Ha|done]|].
  rewrite app_nil. setoid_rewrite elem_of_cons. setoid_rewrite IH. split.
  - intros [Ha Hl] b [->|Hb]; auto.
  - intros H. split; auto.
Qed.

Lemma unreported b e : report b e = [] <-> b = false.
Proof. by destruct b. Qed.

Lemma not_blank b : negb b = false -> b = true.
Proof. by destruct b. Qed.

(** ** What the webhook accepts *)

Section accepted.
Context (IsQualifiedName IsValidLabelValue : string -> list string).

(** Nothing in the clear that has the name of a credential or looks like one. *)
Definition public (p v : string) : Prop :=
  sensitiveCatalogPropertyReplacement (normalizeCatalogPropertyKey p) = None /\
  isSensitiveCatalogPropertyKey (normalizeCatalogPropertyKey p) = false /\ looksLikeCredentialJSON v = false.

(** A property name that no typed field of the connector produces, however it is
    spelled. *)
Definition free_name (k : Connector) (p : string) : Prop :=
  forall q, q ∈ generated_keys (only k) \/ q = "connector.name" ->
  normalizeCatalogPropertyKey p <> normalizeCatalogPropertyKey q.

Definition good_ref (p : string) (sel : SecretKeySelector) : Prop :=
  p <> "" /\ TrimSpace p = p /\ ContainsAny p line_bytes = false /\ TrimSpace (sk_Name sel) <> "" /\ TrimSpace (sk_Key sel) <> "".

Record sound_connector (k : Connector) : Prop := {
  sc_public : forall p v, connector_properties k !! p = Some v -> public p v;
  sc_free : forall p v, connector_properties k !! p = Some v -> free_name k p;
  sc_free_ref : forall p sel, connector_refs k !! p = Some sel -> free_name k p;
  sc_ref : forall p sel, connector_refs k !! p = Some sel -> good_ref p sel
}.

Lemma accepted_public path k p v :
  validateCatalogPlaintextSensitiveProperties path (only k) = [] -> connector_properties k !! p = Some v -> public p v.
Proof.
  unfold validateCatalogPlaintextSensitiveProperties. destruct (maps_only path k) as [q ->].
  case_bool_decide as He; [by rewrite He, lookup_empty|]. simpl. rewrite app_nil_r.
  intros Hall Hp. pose proof (proj1 (each_nil _ _) Hall (p, v)) as H.
  rewrite elem_of_map_to_list in H. specialize (H Hp). simpl in H. unfold public.
  destruct (sensitiveCatalogPropertyReplacement _); [done|]. apply unreported, orb_false_iff in H. tauto.
Qed.

Lemma free_of_unreserved k p :
  generatedCatalogPropertyKeys (only k) !! normalizeCatalogPropertyKey p = None -> free_name k p.
Proof. intros Hn q Hq Heq. apply reserved_typed in Hq as [m Hq]. by rewrite <- Heq, Hn in Hq. Qed.

Lemma unreserved_names {V} path k (m : gmap string V) p v :
  validateNoReservedCatalogPropertyNames path (mapKeys m) (generatedCatalogPropertyKeys (only k)) = [] ->
  m !! p = Some v -> free_name k p.
Proof.
  intros Hall Hp. assert (p ∈ mapKeys m) as Hin.
  { apply list_elem_of_fmap. exists (p, v). by rewrite elem_of_map_to_list. }
  pose proof (proj1 (each_nil _ _) Hall p Hin) as H. simpl in H. apply free_of_unreserved. by case_match.
Qed.

Lemma accepted_free path k :
  validateCatalogGeneratedPropertyCollisions path (only k) = [] ->
  (forall p v, connector_properties k !! p = Some v -> free_name k p) /\
  (forall p sel, connector_refs k !! p = Some sel -> free_name k p).
Proof.
  unfold validateCatalogGeneratedPropertyCollisions. intros [H1 H2]%app_nil. split.
  - intros p v Hp. destruct (maps_only path k) as [q Hq]. rewrite Hq in H1.
    case_bool_decide as He; [by rewrite He, lookup_empty in Hp|]. simpl in H1. rewrite app_nil_r in H1. by eapply unreserved_names.
  - intros p v Hp. destruct (ref_maps_only path k) as [q Hq]. rewrite Hq in H2.
    case_bool_decide as He; [by rewrite He, lookup_empty in Hp|]. simpl in H2. rewrite app_nil_r in H2. by eapply unreserved_names.
Qed.

Lemma accepted_refs path k p sel :
  validateCatalogPropertySecretRefs path (only k) = [] -> connector_refs k !! p = Some sel -> good_ref p sel.
Proof.
  unfold validateCatalogPropertySecretRefs. destruct (ref_maps_only path k) as [q ->].
  case_bool_decide as He; [by rewrite He, lookup_empty|]. simpl. rewrite app_nil_r.
  intros Hall Hp. pose proof (proj1 (each_nil _ _) Hall (p, sel)) as H.
  rewrite elem_of_map_to_list in H. specialize (H Hp). simpl in H.
  apply app_nil in H as [Hn [Hs Hk]%app_nil]. apply unreported, bool_decide_eq_false in Hs, Hk.
  case_bool_decide as Hb; [done|]. destruct (bool_decide _) eqn:Ht; simpl in Hn; [|done].
  apply unreported in Hn. apply bool_decide_eq_true in Ht. repeat split; congruence.
Qed.

Lemma accepted_connector c :
  validateXTrinodeCatalog IsQualifiedName IsValidLabelValue c = [] ->
  exists k, cat_Connector c = only k /\ sound_connector k.
Proof.
  unfold validateXTrinodeCatalog. intros [_ [Hf [Hp [Hg Hr]%app_nil]%app_nil]%app_nil]%app_nil.
  assert (length (catalogConnectorFields (cat_Connector c)) = 1%nat) as Hl.
  { destruct (catalogConnectorFields _) as [|f [|g l]]; simpl in Hf |- *; done. }
  apply one_connector in Hl as [k Hk]. rewrite Hk in *. exists k. split; [done|].
  apply accepted_free in Hg as [Hg1 Hg2]. split; eauto using accepted_public, accepted_refs.
Qed.
End accepted.

(** ** The properties of a catalog *)

Section properties.
Context (url_Parse : string -> option (string * string * string)).

Lemma apply_refs_lookup n (names : list string) props p :
  Forall (fun q => q <> "" /\ TrimSpace q = q) names ->
  fold_left (apply_ref n) names props !! p = if bool_decide (p ∈ names) then Some (env_ref n p) else props !! p.
Proof.
  intros Hn. revert props. induction Hn as [|q names [Hq Ht] Hn IH]; intros props; [done|]. cbn [fold_left]. rewrite IH. unfold apply_ref. rewrite Ht, (bool_decide_eq_false_2 (q = "")) by done.
  destruct (decide (p ∈ names)) as [Hin|Hin].
  - rewrite !bool_decide_eq_true_2 by (rewrite ?elem_of_cons; auto). done.
  - rewrite (bool_decide_eq_false_2 (p ∈ names)) by done. destruct (decide (p = q)) as [->|Hne].
    + rewrite lookup_insert_eq, bool_decide_eq_true_2 by (apply elem_of_cons; auto). done.
    + rewrite lookup_insert_ne by done. by rewrite bool_decide_eq_false_2 by (rewrite elem_of_cons; tauto).
Qed.

Lemma mapKeys_elem {V} (m : gmap string V) p : p ∈ mapKeys m <-> is_Some (m !! p).
Proof.
  unfold mapKeys. rewrite list_elem_of_fmap. split.
  - intros ([q v] & -> & Hq%elem_of_map_to_list). eauto.
  - intros [v Hv]. exists (p, v). by rewrite elem_of_map_to_list.
Qed.

(** What Trino is told about property [p]: a reference to a Secret, else a typed
    setting, else the user's property. *)
Definition property_of (k : Connector) (n p : string) : option string :=
  match connector_refs k !! p with
  | Some _ => Some (env_ref n p)
  | None =>
      match build url_Parse (stripped k) n !! p with
      | Some v => Some v
      | None => connector_properties k !! p
      end
  end.

Lemma resolved k n : sound_connector k ->
  exists props, resolveConnector url_Parse (only k) n = Ok (ConnectorName (extractor_of url_Parse k) (only k), props) /\
  forall p, props !! p = property_of k n p.
Proof.
  intros Hk. eexists. split; [apply resolve_only|]. intros p. unfold applyPropertySecretRefs, property_of.
  rewrite apply_refs_lookup.
  - rewrite build_union, lookup_union. destruct (connector_refs k !! p) eqn:Hp.
    + rewrite bool_decide_eq_true_2; [done|]. apply mapKeys_elem. eauto.
    + rewrite bool_decide_eq_false_2; [by destruct (build _ _ _ !! p), (connector_properties k !! p)|].
      rewrite mapKeys_elem, Hp. by intros [? ?].
  - apply Forall_forall. intros q Hq%list_elem_of_In%mapKeys_elem. destruct Hq as [sel Hq].
    destruct (sc_ref _ Hk _ _ Hq) as (? & ? & _). done.
Qed.

(** A typed setting hides nothing the user gave. *)
Lemma typed_disjoint k n p v : sound_connector k -> build url_Parse (stripped k) n !! p = Some v ->
  connector_refs k !! p = None /\ connector_properties k !! p = None.
Proof.
  intros Hk Hp%typed_within. split; apply eq_None_not_Some; intros [w Hw].
  - by apply (sc_free_ref _ Hk _ _ Hw p); [left|].
  - by apply (sc_free _ Hk _ _ Hw p); [left|].
Qed.

Lemma no_connector_name k n : sound_connector k -> property_of k n "connector.name" = None.
Proof.
  intros Hk. unfold property_of.
  destruct (connector_refs k !! _) eqn:Hr; [by destruct (sc_free_ref _ Hk _ _ Hr "connector.name"); [right|]|].
  destruct (build _ _ _ !! _) eqn:Hb.
  - apply typed_within in Hb. pose proof (typed_not_name k) as Hn. rewrite list.Forall_forall in Hn. by destruct (Hn _ Hb).
  - apply eq_None_not_Some. intros [w Hw]. by destruct (sc_free _ Hk _ _ Hw "connector.name"); [right|].
Qed.
End properties.

(** ** The Secrets of a catalog *)

(** The Secret of property [p], of the user or of a typed field. *)
Definition secret_of (k : Connector) (p : string) (sel : SecretKeySelector) : Prop :=
  connector_refs k !! p = Some sel \/ (p, Some sel) ∈ typed_secrets k.

Lemma generic_only k : GenericPropertySecretRefs (only k) = connector_refs k.
Proof. by destruct k. Qed.

Lemma extract_only c k n : cat_Connector c = only k ->
  extractSecretReferencesFromConnector c n =
  genericPropertySecretReferences c n ++ (typed_secrets k ≫= fun s => reference_of c n s.1 s.2).
Proof. intros Hk. unfold extractSecretReferencesFromConnector. f_equal. rewrite Hk. destruct k; simpl; by rewrite ?app_nil_r. Qed.

Lemma reference_of_elem c n p o ref : ref ∈ reference_of c n p o <-> exists sel, o = Some sel /\ ref = reference c n p sel.
Proof. destruct o as [r|]; simpl; [rewrite list_elem_of_singleton; naive_solver|rewrite elem_of_nil; naive_solver]. Qed.

Lemma SortStrings_elem p l : p ∈ SortStrings l <-> p ∈ l.
Proof. unfold SortStrings. by rewrite (sorting.merge_sort_Permutation str_le). Qed.

Lemma generic_elem c k n ref : cat_Connector c = only k -> sound_connector k ->
  ref ∈ genericPropertySecretReferences c n <-> exists p sel, connector_refs k !! p = Some sel /\ ref = reference c n p sel.
Proof.
  intros Hk Hs. unfold genericPropertySecretReferences. rewrite Hk, generic_only, list_elem_of_omap.
  setoid_rewrite SortStrings_elem. setoid_rewrite list_elem_of_filter.
  change (fst <$> map_to_list (connector_refs k)) with (mapKeys (connector_refs k)). setoid_rewrite mapKeys_elem.
  split.
  - intros (p & [_ [sel Hp]] & Href). rewrite Hp in Href. simplify_eq/=.
    destruct (sc_ref _ Hs _ _ Hp) as (_ & -> & _). eauto.
  - intros (p & sel & Hp & ->). exists p. destruct (sc_ref _ Hs _ _ Hp) as (Hne & Ht & _). rewrite Hp, Ht. eauto.
Qed.

(** The references the pods get are those of the catalog. *)
Lemma extract_elem c k n ref : cat_Connector c = only k -> sound_connector k ->
  ref ∈ extractSecretReferencesFromConnector c n <-> exists p sel, secret_of k p sel /\ ref = reference c n p sel.
Proof.
  intros Hk Hs. rewrite (extract_only _ _ _ Hk), elem_of_app, (generic_elem _ _ _ _ Hk Hs), list_elem_of_bind. unfold secret_of.
  setoid_rewrite reference_of_elem. split.
  - intros [(p & sel & Hp & ->)|([p o] & (sel & Ho & ->) & Hin)]; [eauto|]. simpl in Ho. subst. eauto 6.
  - intros (p & sel & [Hp|Hin] & ->); [eauto|]. right. exists (p, Some sel). simpl. eauto.
Qed.

(** ... and those the webhook reviews, save a blank name. *)
Lemma fields_generic c k p sel : cat_Connector c = only k -> connector_refs k !! p = Some sel ->
  TrimSpace (sk_Name sel) <> "" -> exists path, (path, sk_Name sel) ∈ catalogSecretReferenceFields c.
Proof.
  intros Hk Hp Hn. unfold catalogSecretReferenceFields. rewrite Hk. destruct (ref_maps_only "spec.connector" k) as [q ->].
  case_bool_decide as He; [by rewrite He, lookup_empty in Hp|]. exists (Key q p). apply elem_of_app. left. simpl.
  rewrite app_nil_r. apply list_elem_of_bind. exists (p, sel). split; [|by apply elem_of_map_to_list].
  unfold append_ref. rewrite bool_decide_eq_false_2 by done. by apply list_elem_of_singleton.
Qed.

Lemma append_elem path sel : TrimSpace (sk_Name sel) <> "" -> (path, sk_Name sel) ∈ append_ref path (Some sel).
Proof. intros Hn. unfold append_ref. rewrite bool_decide_eq_false_2 by done. apply elem_of_cons. by left. Qed.

Lemma fields_typed c k p sel : cat_Connector c = only k -> (p, Some sel) ∈ typed_secrets k ->
  TrimSpace (sk_Name sel) <> "" -> exists path, (path, sk_Name sel) ∈ catalogSecretReferenceFields c.
Proof.
  intros Hk Hin Hn. unfold catalogSecretReferenceFields. rewrite Hk. clear Hk.
  destruct k; simpl in Hin; rewrite ?elem_of_cons, ?elem_of_nil in Hin; try tauto.
  all: repeat (destruct Hin as [Hin|Hin]; [injection Hin as -> Hs|]); try done.
  all: eexists; apply elem_of_app; right; simpl; rewrite <- Hs;
    first [by apply append_elem|apply elem_of_app; left; by apply append_elem
          |apply elem_of_app; right; apply elem_of_app; left; by apply append_elem].
Qed.

Lemma fields_complete c k p sel : cat_Connector c = only k -> secret_of k p sel ->
  TrimSpace (sk_Name sel) <> "" -> exists path, (path, sk_Name sel) ∈ catalogSecretReferenceFields c.
Proof. intros Hk [Hp|Hp]; eauto using fields_generic, fields_typed. Qed.

(** ** Admission of the Secrets *)

Lemma first_errors_nil stages : first_errors stages = [] <-> Forall (fun errs => errs = []) stages.
Proof.
  unfold first_errors. induction stages as [|errs stages IH]; simpl; [by split|].
  rewrite list.Forall_cons. destruct errs; simpl; [rewrite IH; naive_solver|naive_solver].
Qed.

(** An accepted reference was one the user may read. *)
Lemma reviewed request authorizer c path name :
  validateSecretReferenceAdmission request authorizer c = [] -> (path, name) ∈ catalogSecretReferenceFields c ->
  exists user allow reason, request = Some user /\ authorizer = Some allow /\
  allow user (cat_Namespace c) name = Ok (true, reason).
Proof.
  unfold validateSecretReferenceAdmission. intros Hv Hin.
  destruct (catalogSecretReferenceFields c) as [|r refs] eqn:Hf; [by apply not_elem_of_nil in Hin|].
  destruct request as [user|]; [|done]. destruct authorizer as [allow|]; [|done].
  pose proof (proj1 (each_nil _ _) Hv _ Hin) as H. simpl in H.
  destruct (allow _ _ _) as [[[] reason]|e] eqn:Ha; try done. eauto 6.
Qed.

Lemma CanGet_allowed create user ns name reason : CanGet create user ns name = Ok (true, reason) ->
  exists sar st, create = Some sar /\ sar (mkSecretReview user ns "get" "" "secrets" name) = Ok st /\ sar_Allowed st = true.
Proof.
  unfold CanGet. destruct create as [sar|]; [|done]. destruct (sar _) as [st|e] eqn:Hs; [|done].
  destruct (sar_Allowed st) eqn:Ha; [eauto|]. repeat case_match; done.
Qed.

Section claims.
Context (IsQualifiedName IsValidLabelValue : string -> list string).

(** C6: A catalog is accepted, on creation or update, only when the user of the
    request may read every Secret its pods would be given: for each reference
    with a name a [SubjectAccessReview] for [get] on that Secret, in the
    catalog's namespace and as that user, was allowed. *)
Theorem catalog_secrets_authorised request create c n ref :
  let authorizer := Some (CanGet create) in
  ValidateCreate IsQualifiedName IsValidLabelValue request authorizer c = [] \/
  (exists old, ValidateUpdate IsQualifiedName IsValidLabelValue request authorizer old c = []) ->
  ref ∈ extractSecretReferencesFromConnector c n ->
  let name := sk_Name (sr_SecretKeySelector ref) in
  TrimSpace name <> "" ->
  exists user sar st, request = Some user /\ create = Some sar /\
  sar (mkSecretReview user (cat_Namespace c) "get" "" "secrets" name) = Ok st /\ sar_Allowed st = true.
Proof.
  intros authorizer Hv Hin name Hn.
  assert (validateXTrinodeCatalog IsQualifiedName IsValidLabelValue c = [] /\
          validateSecretReferenceAdmission request authorizer c = []) as [Hc Ha].
  { destruct Hv as [Hv|[old Hv]]; apply first_errors_nil in Hv; rewrite !list.Forall_cons in Hv; tauto. }
  destruct (accepted_connector _ _ c Hc) as (k & Hk & Hs).
  apply (extract_elem _ k) in Hin as (p & sel & Hp & ->); [|done..].
  destruct (fields_complete _ _ _ _ Hk Hp Hn) as [path Hf].
  destruct (reviewed _ _ _ _ _ Ha Hf) as (user & allow & reason & -> & [= <-] & Hok).
  apply CanGet_allowed in Hok as (sar & st & Hc' & Hst & Hal). eauto 7.
Qed.

Context (url_Parse : string -> option (string * string * string)).

(** C14: The properties of an accepted catalog resolve: it has exactly one
    connector [k], and its file holds, for each property, the reference to the
    Secret, the typed setting or the user's value.  A typed setting hides no
    property or reference of the user, [connector.name] is not among them, and no
    value the user wrote in the clear has the name of a credential or looks like
    one. *)
Theorem catalog_properties c n :
  validateXTrinodeCatalog IsQualifiedName IsValidLabelValue c = [] ->
  exists k props, cat_Connector c = only k /\
  resolveConnector url_Parse (cat_Connector c) n = Ok (ConnectorName (extractor_of url_Parse k) (only k), props) /\
  (forall p, props !! p = property_of url_Parse k n p) /\
  (forall p v, build url_Parse (stripped k) n !! p = Some v ->
     props !! p = Some v /\ connector_refs k !! p = None /\ connector_properties k !! p = None) /\
  props !! "connector.name" = None /\
  (forall p v, connector_properties k !! p = Some v -> public p v).
Proof.
  intros Hc. destruct (accepted_connector _ _ c Hc) as (k & Hk & Hs). destruct (resolved url_Parse k n Hs) as (props & Hr & Hp).
  exists k, props. rewrite Hk. do 3 (split; [done|]). split; [|split].
  - intros p v Hv. destruct (typed_disjoint _ _ _ _ _ Hs Hv) as [Hn Hu]. rewrite Hp. unfold property_of. by rewrite Hn, Hv.
  - rewrite Hp. by apply no_connector_name.
  - intros p v Hv. by eapply sc_public.
Qed.

End claims.

(** ** A catalog *)

Definition any_name : string -> list string := fun _ => [].
Definition no_url : string -> option (string * string * string) := fun _ => None.

(** A PostgreSQL catalog with a password, a property and a reference of its own. *)
Definition sales_connector : Connector :=
  APostgres (mkJDBC {[ "keystore-password" := mkSecretKey "db-keys" "keystore" None ]} "jdbc:postgresql://db:5432/sales" "trino"
    (Some (mkSecretKey "db-login" "password" None)) {[ "postgresql.array-mapping" := "AS_ARRAY" ]}).
Definition sales : XTrinodeCatalog :=
  mkCatalog "trino-catalog-sales" "team-a" (only sales_connector) {[ "team" := "a" ]} (mkCatalogStatus "" "" "" None).

Definition alice : UserInfo := mkUserInfo "alice" "" [] ∅.
Definition allow_all : secret_review -> result string sar_status := fun _ => Ok (mkSARStatus true "" "").

Lemma catalog_properties_witness :
  validateXTrinodeCatalog any_name any_name sales = [] /\
  exists k props, cat_Connector sales = only k /\
  resolveConnector no_url (cat_Connector sales) "sales" = Ok (ConnectorName (extractor_of no_url k) (only k), props) /\
  (forall p, props !! p = property_of no_url k "sales" p) /\
  (forall p v, build no_url (stripped k) "sales" !! p = Some v ->
     props !! p = Some v /\ connector_refs k !! p = None /\ connector_properties k !! p = None) /\
  props !! "connector.name" = None /\
  (forall p v, connector_properties k !! p = Some v -> public p v).
Proof. split; [reflexivity|]. apply (catalog_properties any_name any_name no_url sales "sales"). reflexivity. Defined.

Lemma catalog_secrets_authorised_witness :
  exists user sar st, Some alice = Some user /\ Some allow_all = Some sar /\
  sar (mkSecretReview user "team-a" "get" "" "secrets" "db-keys") = Ok st /\ sar_Allowed st = true.
Proof.
  apply (catalog_secrets_authorised any_name any_name (Some alice) (Some allow_all) sales "sales"
    (reference sales "sales" "keystore-password" (mkSecretKey "db-keys" "keystore" None))).
  - left. reflexivity.
  - apply elem_of_cons. left. reflexivity.
  - discriminate.
Defined.


(** The pieces for this catalog. *)
Example sales_file :
  resolveConnector no_url (only sales_connector) "sales" =
  Ok ("postgresql", {[ "connection-password" := "${ENV:CATALOG_SALES_CONNECTION_PASSWORD}"; "connection-url" := "jdbc:postgresql://db:5432/sales";
    "connection-user" := "trino"; "keystore-password" := "${ENV:CATALOG_SALES_KEYSTORE_PASSWORD}";
    "postgresql.array-mapping" := "AS_ARRAY" ]}) /\
  secret_env [sales] =
    [mkEnvVar "CATALOG_SALES_KEYSTORE_PASSWORD" (mkSecretKey "db-keys" "keystore" None);
     mkEnvVar "CATALOG_SALES_CONNECTION_PASSWORD" (mkSecretKey "db-login" "password" None)].
Proof. split; vm_compute; reflexivity. Qed.

(** ** Limits of the checks *)

Definition plain (properties : Properties) (refs : PropertySecretRefs) : XTrinodeCatalogConnector := only (ATPCH (mkPlain refs properties)).
Definition named (name : string) (c : XTrinodeCatalogConnector) : XTrinodeCatalog :=
  mkCatalog name "team-a" c ∅ (mkCatalogStatus "" "" "" None).

(** A password Secret without a name is accepted, and is not reviewed. *)
Theorem blank_secret_accepted :
  let c := named "db" (only (AMySQL (mkJDBC ∅ "jdbc:mysql://db" "u" (Some (mkSecretKey "" "" None)) ∅))) in
  ValidateCreate any_name any_name None None c = [] /\
  secret_env [c] = [mkEnvVar "CATALOG_DB_CONNECTION_PASSWORD" (mkSecretKey "" "" None)].
Proof. split; vm_compute; reflexivity. Qed.

(** With the prefix twice in its name, a catalog refers to a variable its pods do
    not get. *)
Theorem doubled_prefix_undelivered :
  let sel := mkSecretKey "s" "k" None in
  let c := named "trino-catalog-trino-catalog-x" (plain ∅ {[ "a.token" := sel ]}) in
  validateXTrinodeCatalog any_name any_name c = [] /\
  resolveConnector no_url (cat_Connector c) (catalog_name c) = Ok ("tpch", {[ "a.token" := "${ENV:CATALOG_X_A_TOKEN}" ]}) /\
  secret_env [c] = [mkEnvVar "CATALOG_TRINO_CATALOG_X_A_TOKEN" sel].
Proof. repeat split; vm_compute; reflexivity. Qed.

(** Two properties, of one catalog or of two, can share a variable; the pods then
    get it twice, with two Secrets. *)
Theorem variables_coincide :
  let one := mkSecretKey "one" "k" None in
  let two := mkSecretKey "two" "k" None in
  let same := named "c" (plain ∅ {[ "a.b" := one; "a-b" := two ]}) in
  let left := named "a" (plain ∅ {[ "b.c" := one ]}) in
  let right := named "a-b" (plain ∅ {[ "c" := two ]}) in
  Forall (fun c => validateXTrinodeCatalog any_name any_name c = []) [same; left; right] /\
  ev_Name <$> secret_env [same] = ["CATALOG_C_A_B"; "CATALOG_C_A_B"] /\
  secret_env [left; right] = [mkEnvVar "CATALOG_A_B_C" one; mkEnvVar "CATALOG_A_B_C" two].
Proof. split; [repeat constructor|split; vm_compute; reflexivity]. Qed.

(** The warehouse of an Iceberg catalog must be set and is not used. *)
Theorem iceberg_warehouse_unused path refs t w properties n :
  build no_url (AIceberg (mkIceberg refs t w properties)) n = build no_url (AIceberg (mkIceberg refs t "" properties)) n /\
  validateCatalogConnector path (only (AIceberg (mkIceberg refs t "" properties))) <> [].
Proof. split; [done|]. unfold validateCatalogConnector. simpl. rewrite app_nil. by intros [_ ?]. Qed.
