(* ===== verification/CatalogFile.v ===== *)
(** * The properties file of a catalog

    The file [Connectors] writes, read back line by line, and what a line break in a
    value does to it. *)

From S2P Require Import Prelude GoStrings GoTime GoParse CatalogTypes World Catalogs NodePool Admission AdmissionUpdate CatalogAdmission Connectors ConnectorUnion CatalogSound.

(** ** Reading a file *)

Definition line_feed : ascii := ascii_of_nat 10.

Fixpoint file_lines (s : string) : list string :=
  match s with
  | EmptyString => []
  | String c s =>
      if c ≡? line_feed then "" :: file_lines s else
      match file_lines s with
      | [] => [String c ""]
      | l :: ls => String c l :: ls
      end
  end.

(** Name and value of a line: what is before and after its first [=]. *)
Definition read_property (line : string) : option (string * string) :=
  (fun i => (str_take i line, str_drop (S i) line)) <$> IndexByte "=" line.

Definition read_properties (text : string) : list (string * string) := omap read_property (file_lines text).

Lemma file_lines_cons line s : IndexByte line_feed line = None -> file_lines (line +:+ String line_feed s) = line :: file_lines s.
Proof.
  induction line as [|c line IH]; simpl; [done|]. case_bool_decide as Hc; [done|]. rewrite fmap_None.
  intros Hl. by rewrite IH.
Qed.

Lemma IndexByte_first c s t : IndexByte c s = None -> IndexByte c (s +:+ String c t) = Some (String.length s).
Proof.
  induction s as [|a s IH]; simpl; [by rewrite bool_decide_eq_true_2|].
  case_bool_decide; [done|]. rewrite fmap_None. intros Hs. by rewrite IH.
Qed.

Lemma read_property_line key value : IndexByte "=" key = None -> read_property (key +:+ "=" +:+ value) = Some (key, value).
Proof.
  intros Hk. unfold read_property. change ("=" +:+ value) with (String "=" value). rewrite IndexByte_first by done.
  cbn [fmap option_fmap option_map].
  by rewrite str_take_app, str_drop_app.
Qed.

(** A name and a value that fit on a line. *)
Definition one_line (key value : string) : Prop :=
  IndexByte "=" key = None /\ IndexByte line_feed key = None /\ IndexByte line_feed value = None.

Lemma read_line key value text : one_line key value ->
  read_properties (property_line key value +:+ text) = (key, value) :: read_properties text.
Proof.
  intros (He & Hk & Hv). unfold property_line, read_properties.
  assert ((key +:+ "=" +:+ value +:+ newline) +:+ text = (key +:+ "=" +:+ value) +:+ String line_feed text) as ->.
  { rewrite !str_app_assoc. done. }
  rewrite file_lines_cons.
  - simpl. by rewrite (read_property_line key value).
  - apply IndexByte_app. split; [done|]. by apply IndexByte_app.
Qed.

Lemma sorted_keys {V} (m : gmap string V) : SortStrings (mapKeys m) ≡ₚ mapKeys m.
Proof. apply sorting.merge_sort_Permutation. Qed.

Lemma entries (props : Properties) :
  (fun key => (key, default "" (props !! key))) <$> SortStrings (mapKeys props) ≡ₚ map_to_list props.
Proof.
  rewrite sorted_keys. unfold mapKeys. rewrite <- list_fmap_compose.
  assert (forall l : list (string * string), l ⊆ map_to_list props ->
            ((fun key => (key, default "" (props !! key))) ∘ fst) <$> l = l) as Hl; [|by rewrite Hl].
  induction l as [|[key v] l IH]; intros Hsub; [done|]. rewrite fmap_cons, IH by set_solver. simpl.
  assert ((key, v) ∈ map_to_list props) as ->%elem_of_map_to_list by set_solver. done.
Qed.

(** C33: The file of a connector, read back line by line, gives its name and its
    properties, in the order of their names, when names and values fit on a
    line. *)
Theorem catalog_file_roundtrip connectorName props :
  one_line "connector.name" connectorName -> (forall key value, props !! key = Some value -> one_line key value) ->
  exists l, read_properties (buildPropertiesString connectorName props) = ("connector.name", connectorName) :: l /\
  l.*1 = SortStrings (mapKeys props) /\ list_to_map l = props.
Proof.
  intros Hn Hp. exists ((fun key => (key, default "" (props !! key))) <$> SortStrings (mapKeys props)). split; [|split].
  - unfold buildPropertiesString. rewrite read_line by done. f_equal.
    assert (forall key, key ∈ SortStrings (mapKeys props) -> one_line key (default "" (props !! key))) as Hk.
    { intros key Hk. rewrite sorted_keys in Hk. apply list_elem_of_fmap in Hk as ([k v] & -> & Hk%elem_of_map_to_list).
      simpl. rewrite Hk. by apply Hp. }
    induction (SortStrings (mapKeys props)) as [|key keys IH]; simpl; [done|].
    rewrite read_line by (apply Hk; set_solver). f_equal. apply IH. intros key' Hin. apply Hk. set_solver.
  - rewrite <- list_fmap_compose. by rewrite list_fmap_id.
  - rewrite <- (list_to_map_to_list props) at 2. apply list_to_map_proper; [|apply entries].
    rewrite <- list_fmap_compose, list_fmap_id, sorted_keys. apply NoDup_fst_map_to_list.
Qed.

Lemma catalog_file_roundtrip_witness :
  exists l, read_properties (buildPropertiesString "tpch" {[ "b" := "x=y"; "a" := "1" ]}) = ("connector.name", "tpch") :: l /\
  l.*1 = SortStrings (mapKeys ({[ "b" := "x=y"; "a" := "1" ]} : Properties)) /\ list_to_map l = ({[ "b" := "x=y"; "a" := "1" ]} : Properties).
Proof.
  apply (catalog_file_roundtrip "tpch" {[ "b" := "x=y"; "a" := "1" ]}); [repeat split|].
  intros key value [[<- <-]|[_ Hk]]%lookup_insert_Some; [repeat split|].
  apply lookup_singleton_Some in Hk as [<- <-]. repeat split.
Defined.

(** A line break in a value is accepted, and adds properties: here a second
    [connector.name] and a password in the clear. *)
Theorem line_break_injects :
  let value := "4" +:+ newline +:+ "connector.name=memory" +:+ newline +:+ "connection-password=hunter2" in
  let c := named "t" (plain {[ "tpch.splits-per-node" := value ]} ∅) in
  validateXTrinodeCatalog any_name any_name c = [] /\
  exists text, generateProperties no_url any_name any_name (fun _ _ => "") c = Ok text /\
  read_properties text =
    [("connector.name", "tpch"); ("tpch.splits-per-node", "4"); ("connector.name", "memory"); ("connection-password", "hunter2")].
Proof. split; [vm_compute; reflexivity|]. eexists. split; vm_compute; reflexivity. Qed.
