(* ===== verification/CatalogController.v ===== *)
(** * The catalog controller
    ([controllers/xtrinodecatalog_controller.go], [xtrinodecatalog_pipeline.go])

    Keeps the ConfigMap of a catalog and its status.  A pass runs three steps,
    each of which may end it. *)

From S2P Require Import Prelude GoStrings GoTime GoParse XTrinodeTypes Status Retry CatalogTypes World Shutdown Operator NodePool Admission AdmissionUpdate CatalogAdmission Connectors.

Definition catalogHashAnnotation : string := "xtrinode.analytics.xtrinode.io/catalog-hash".

Definition set_cat_Status (s : XTrinodeCatalogStatus) (c : XTrinodeCatalog) : XTrinodeCatalog :=
  mkCatalog (cat_Name c) (cat_Namespace c) (cat_Connector c) (cat_Labels c) s.

(** The ConfigMap the steps hand on. *)
Record CatalogReconciliationState := mkCatalogState { crs_ConfigMap : option CatalogConfigMap }.

Section controller.
Context {E W : Type} `{!World E W, KubeErrors E, !ErrorKinds E, WaitBackoff E}.
Context (url_Parse : string -> option (string * string * string)).
Context (IsQualifiedName IsValidLabelValue : string -> list string) (invalid_text : string -> list field_error -> string).
(** Hexadecimal SHA-256, and [controllerutil.SetControllerReference], which fails
    when the object has another controller. *)
Context (sha256_hex : string -> string) (SetControllerReference : XTrinodeCatalog -> ConfigMapObject -> option ConfigMapObject).

#[local] Notation generateConfigMap := (generateConfigMap url_Parse IsQualifiedName IsValidLabelValue invalid_text).

(** ** The status *)

(** The four fields of the captured status replace the stored ones. *)
Definition catalog_updateStatus (catalog : XTrinodeCatalog) : M W (option E) :=
  '(err, _) ← retry_local
    (fun _ : unit => fresh ← perform (GetXTrinodeCatalog (cat_Namespace catalog) (cat_Name catalog));
       mret (match fresh with Err e => Some e | Ok _ => None end, tt))
    (fun _ : unit => fresh ← perform (GetXTrinodeCatalog (cat_Namespace catalog) (cat_Name catalog));
       match fresh with
       | Err e => mret (Some e, tt)
       | Ok c =>
           r ← perform (UpdateXTrinodeCatalogStatus (set_cat_Status (cat_Status catalog) c));
           mret (match r with Err e => Some e | Ok _ => None end, tt)
       end) tt;
  mret err.

(** A failure to store the status is only logged. *)
Definition catalog_handleError (catalog : XTrinodeCatalog) (err : E) : M W (option E) :=
  let s := cat_Status catalog in
  let catalog := set_cat_Status (mkCatalogStatus "Error" (error_text err) (cs_ConfigMapName s) (cs_LastUpdated s)) catalog in
  _ ← catalog_updateStatus catalog;
  mret (Some err).

Definition updateStatusToReady (catalog : XTrinodeCatalog) (configMapName : string) : M W (option E) :=
  now ← perform Now;
  catalog_updateStatus
    (set_cat_Status (mkCatalogStatus "Ready" ("ConfigMap " +:+ configMapName +:+ " applied successfully") configMapName (Some now)) catalog).

(** ** The ConfigMap *)

Definition catalogDataHash (data : gmap string string) : string :=
  str_take 16 (sha256_hex (foldr (fun k text => property_line k (default "" (data !! k)) +:+ text) EmptyString
                             (SortStrings (mapKeys data)))).

(** What [ensureConfigMap] makes of the ConfigMap it finds, or of an empty one. *)
Definition desired_config_map (catalog : XTrinodeCatalog) (desired : CatalogConfigMap) (existing : ConfigMapObject) :
    option ConfigMapObject :=
  let annotations := <[catalogHashAnnotation := catalogDataHash (ccm_Data desired)]> (co_Annotations existing) in
  let existing := mkConfigMapObject (co_Name existing) (ccm_Labels desired) annotations (co_Controller existing) (co_Data existing) in
  match SetControllerReference catalog existing with
  | None => None
  | Some existing =>
      if co_Data existing ≡? ccm_Data desired then Some existing
      else Some (mkConfigMapObject (co_Name existing) (co_Labels existing) (co_Annotations existing) (co_Controller existing)
                   (ccm_Data desired))
  end.

Definition ensureConfigMap (catalog : XTrinodeCatalog) (desired : CatalogConfigMap) : M W (option E) :=
  let name := ccm_Namespace desired +:+ "/" +:+ ccm_Name desired in
  result ← perform (CreateOrPatchConfigMap (ccm_Namespace desired) (ccm_Name desired) (desired_config_map catalog desired));
  match result with
  | Err e =>
      _ ← recordEvent (Warning "ResourceApplyFailed" ("Failed to ensure ConfigMap " +:+ name +:+ ": " +:+ error_text e));
      mret (Some e)
  | Ok OperationResultCreated => _ ← recordEvent (Normal "ResourceCreated" ("Created ConfigMap " +:+ name)); mret None
  | Ok OperationResultUpdated => _ ← recordEvent (Normal "ResourceUpdated" ("Updated ConfigMap " +:+ name)); mret None
  | Ok OperationResultNone => mret None
  end.

(** ** Steps *)

(** What [Execute] of a step returns: when to try again, whether to go on, an
    error; and the state. *)
Record catalog_outcome := mkCatalogOutcome {
  co_RequeueAfter : Duration;
  co_continue : bool;
  co_err : option E;
  co_state : CatalogReconciliationState
}.

Definition go_on (state : CatalogReconciliationState) : catalog_outcome := mkCatalogOutcome 0 true None state.
Definition stop_with (err : option E) (state : CatalogReconciliationState) : catalog_outcome :=
  mkCatalogOutcome 0 false err state.

Definition not_generated (catalog : XTrinodeCatalog) : E :=
  errors_New ("internal error: ConfigMap was not generated for XTrinodeCatalog " +:+ cat_Namespace catalog +:+ "/" +:+ cat_Name catalog).

Definition catalog_step : Type := XTrinodeCatalog -> CatalogReconciliationState -> M W catalog_outcome.

Definition generateConfigMapStep : catalog_step := fun catalog state =>
  match generateConfigMap catalog with
  | Err text =>
      let genErr := errors_New text in
      _ ← recordEvent (Warning "ReconcileError" ("Failed to generate ConfigMap: " +:+ error_text genErr));
      handleErr ← catalog_handleError catalog genErr;
      mret (stop_with handleErr state)
  | Ok configMap => mret (go_on (mkCatalogState (Some configMap)))
  end.

Definition ensureConfigMapStep : catalog_step := fun catalog state =>
  match crs_ConfigMap state with
  | None =>
      handleErr ← catalog_handleError catalog (not_generated catalog);
      mret (stop_with handleErr state)
  | Some configMap =>
      err ← ensureConfigMap catalog configMap;
      match err with
      | Some ensureErr =>
          _ ← recordEvent (Warning "ResourceApplyFailed" ("Failed to ensure ConfigMap: " +:+ error_text ensureErr));
          handleErr ← catalog_handleError catalog ensureErr;
          mret (stop_with handleErr state)
      | None => mret (go_on state)
      end
  end.

Definition updateStatusStep : catalog_step := fun catalog state =>
  match crs_ConfigMap state with
  | None => mret (stop_with (Some (not_generated catalog)) state)
  | Some configMap =>
      err ← updateStatusToReady catalog (ccm_Name configMap);
      match err with
      | Some statusErr => mret (stop_with (Some statusErr) state)
      | None => mret (go_on state)
      end
  end.

Definition NewCatalogReconciliationPipeline : list catalog_step :=
  [generateConfigMapStep; ensureConfigMapStep; updateStatusStep].

Fixpoint execute_steps (steps : list catalog_step) (catalog : XTrinodeCatalog) (state : CatalogReconciliationState) :
    M W (Duration * option E) :=
  match steps with
  | [] => mret (0, None)
  | step :: steps =>
      o ← step catalog state;
      match co_err o with
      | Some e => mret (co_RequeueAfter o, Some e)
      | None =>
          if negb (co_continue o) || (0 <? co_RequeueAfter o) then mret (co_RequeueAfter o, None)
          else execute_steps steps catalog (co_state o)
      end
  end.

Definition catalog_Execute (catalog : XTrinodeCatalog) : M W (Duration * option E) :=
  execute_steps NewCatalogReconciliationPipeline catalog (mkCatalogState None).

Definition catalog_Reconcile (namespace name : string) : M W (Duration * option E) :=
  fetched ← perform (GetXTrinodeCatalog namespace name);
  match fetched with
  | Err e => mret (0, if IsNotFound e then None else Some e)
  | Ok catalog =>
      _ ← (if cs_Phase (cat_Status catalog) ≡? ""
           then recordEvent (Normal "Created" ("XTrinodeCatalog " +:+ cat_Namespace catalog +:+ "/" +:+ cat_Name catalog +:+ " created"))
           else mret tt);
      '(result, err) ← catalog_Execute catalog;
      match err with
      | Some e => _ ← recordEvent (Warning "ReconcileError" ("Reconciliation failed: " +:+ error_text e)); mret (result, Some e)
      | None => _ ← recordEvent (Normal "ReconcileComplete" "XTrinodeCatalog reconciled successfully"); mret (result, None)
      end
  end.

(** ** What a pass does *)

#[local] Notation history_of := (list (happening E)).

Definition stores_ready (h : happening E) : Prop :=
  exists y, projT1 h = UpdateXTrinodeCatalogStatus y /\ cs_Phase (cat_Status y) = "Ready".

(** Reads, events, and a status that is not ready. *)
Definition reserved_act (h : happening E) : Prop :=
  match projT1 h with
  | RecordEvent _ => True
  | UpdateXTrinodeCatalogStatus y => cs_Phase (cat_Status y) = "Error"
  | c => read_only c = true
  end.

(** The ConfigMap generated from the catalog that was read has been written. *)
Definition config_map_applied (catalog : XTrinodeCatalog) (tr : history_of) : Prop :=
  exists configMap r, generateConfigMap catalog = Ok configMap /\
  existT (CreateOrPatchConfigMap (ccm_Namespace configMap) (ccm_Name configMap) (desired_config_map catalog configMap)) (Ok r) ∈ tr.

Lemma config_map_applied_lasting catalog : lasting (config_map_applied catalog).
Proof. intros t1 t2 Hs (cm & r & Hg & Hin). exists cm, r. split; [done|]. by apply Hs. Qed.

Lemma reserved_not_ready h : reserved_act h -> ~ stores_ready h.
Proof.
  unfold reserved_act. intros Hr (y & Hy & Hp). rewrite Hy in Hr. congruence.
Qed.

Lemma catalog_updateStatus_emits (P : happening E -> Prop) catalog :
  (forall h, read_only (projT1 h) = true -> P h) ->
  (forall y r, cat_Status y = cat_Status catalog -> P (existT (UpdateXTrinodeCatalogStatus y) r)) ->
  emits P (catalog_updateStatus catalog) (fun _ => True).
Proof.
  intros Hget Hput. eapply emits_bind; [apply (emits_retry _ _ _ tt (fun _ => True) (fun _ => True)); [done|]|].
  - intros _ _. emit_call; [intros r; by apply Hget|]. intros [x|e]; apply emits_ret; [|done].
    emit_call; [intros r; by apply Hget|]. intros [y|e]; [|by apply emits_ret].
    emit_call; [by intros r; apply Hput|]. intros [t|e]; by apply emits_ret.
  - intros [e l] _. by apply emits_ret.
Qed.

Lemma catalog_updateStatus_stores catalog : runs (catalog_updateStatus catalog) (fun r tr => r = None ->
  exists y y', cat_Status y = cat_Status catalog /\ existT (UpdateXTrinodeCatalogStatus y) (Ok y') ∈ tr).
Proof.
  unfold catalog_updateStatus. eapply runs_bind.
  { apply (runs_retry _ _ tt (fun _ _ => True) (fun _ tr =>
      exists y y', cat_Status y = cat_Status catalog /\ existT (UpdateXTrinodeCatalogStatus y) (Ok y') ∈ tr)); [done|].
    intros _ t _. run_call. intros [a|e]; apply runs_ret; [|done].
    run_call. intros [b|e]; [|by apply runs_ret]. run_call. intros [y'|e]; apply runs_ret; [|done].
    exists (set_cat_Status (cat_Status catalog) b), y'. split; [done|set_solver]. }
  intros [e l] t1 Ht1. apply runs_ret. rewrite app_nil_r. by destruct e.
Qed.

Lemma catalog_handleError_emits catalog err :
  emits reserved_act (catalog_handleError catalog err) (fun r => r = Some err).
Proof.
  unfold catalog_handleError. eapply emits_bind; [apply (catalog_updateStatus_emits reserved_act)|].
  - intros [c r] Hr. unfold reserved_act. simpl in *. destruct c; done.
  - intros y r Hy. unfold reserved_act. simpl. by rewrite Hy.
  - intros r _. by apply emits_ret.
Qed.

Lemma recordEvent_emits ev : emits reserved_act (recordEvent ev) (fun _ => True).
Proof. by apply (emits_perform _ (RecordEvent ev)). Qed.

(** The act of applying the ConfigMap is neither. *)
Definition no_ready (h : happening E) : Prop := ~ stores_ready h.

Lemma reserved_no_ready {A} (m : M W A) R : emits reserved_act m R -> emits no_ready m R.
Proof. intros Hm. eapply emits_weaken; [exact Hm|apply reserved_not_ready|done]. Qed.

Lemma ensureConfigMap_runs catalog configMap : generateConfigMap catalog = Ok configMap ->
  runs (ensureConfigMap catalog configMap) (fun err tr => Forall no_ready tr /\ (err = None -> config_map_applied catalog tr)).
Proof.
  intros Hg. unfold ensureConfigMap, recordEvent. run_call. intros r.
  assert (forall c (a : resp E c), (forall y, c <> UpdateXTrinodeCatalogStatus y) -> no_ready (existT c a)) as Hnr.
  { intros c a Hc (y & Hy & _). by apply (Hc y). }
  assert (forall r t, existT (CreateOrPatchConfigMap (ccm_Namespace configMap) (ccm_Name configMap)
            (desired_config_map catalog configMap)) (Ok r) ∈ t -> config_map_applied catalog t) as Happ.
  { intros r' t Hin. by exists configMap, r'. }
  destruct r as [[]|e]; [apply runs_ret|run_call; intros []; apply runs_ret..]; (split; [repeat constructor; by apply Hnr|]);
    intros Herr; try done; eapply Happ; apply elem_of_cons; by left.
Qed.

(** A status [Ready] that names the ConfigMap has been stored. *)
Definition ready_stored (configMapName : string) (tr : history_of) : Prop :=
  exists y y', existT (UpdateXTrinodeCatalogStatus y) (Ok y') ∈ tr /\
  cs_Phase (cat_Status y) = "Ready" /\ cs_ConfigMapName (cat_Status y) = configMapName.

Lemma updateStatusToReady_runs catalog name :
  runs (updateStatusToReady catalog name) (fun r tr => r = None -> ready_stored name tr).
Proof.
  unfold updateStatusToReady. run_call. intros now. eapply runs_weaken; [apply catalog_updateStatus_stores|].
  intros a tr Ha Hn. destruct (Ha Hn) as (y & y' & Hs & Hin). exists y, y'. rewrite Hs. set_solver.
Qed.

(** What a pass over [catalog] guarantees: the ConfigMap is applied before a
    status [Ready] is stored, and both have happened when it succeeds. *)
Definition honest (catalog : XTrinodeCatalog) (r : Duration * option E) (tr : history_of) : Prop :=
  r.1 = 0 /\ before (config_map_applied catalog) stores_ready tr /\
  (r.2 = None -> exists configMap, generateConfigMap catalog = Ok configMap /\ config_map_applied catalog tr /\
     ready_stored (ccm_Name configMap) tr).

Lemma honest_failure catalog e tr : Forall no_ready tr -> honest catalog (0, Some e) tr.
Proof. intros Ht. split; [done|]. split; [by apply before_never|done]. Qed.

Lemma execute_cons step steps catalog state (Q : Duration * option E -> history_of -> Prop) :
  runs (step catalog state) (fun o t1 => co_RequeueAfter o = 0 /\
    match co_err o with
    | Some e => Q (0, Some e) t1
    | None => co_continue o = true /\ runs (execute_steps steps catalog (co_state o)) (fun r t2 => Q r (t1 ++ t2))
    end) -> runs (execute_steps (step :: steps) catalog state) Q.
Proof.
  intros Hs. simpl. eapply runs_bind; [exact Hs|]. intros o t1 [Hz Ho]. rewrite Hz. destruct (co_err o).
  - apply runs_ret. by rewrite app_nil_r.
  - destruct Ho as [-> Ho]. exact Ho.
Qed.

(** A step that ends the pass with the error [m] returns. *)
Lemma stop_runs (m : M W (option E)) e state : emits no_ready m (fun r => r = Some e) ->
  runs (r ← m; mret (stop_with r state)) (fun o tr => o = stop_with (Some e) state /\ Forall no_ready tr).
Proof. intros Hm. eapply runs_bind; [exact Hm|]. intros r t1 [H1 ->]. apply runs_ret. by rewrite app_nil_r. Qed.

Lemma note_runs ev (m : M W catalog_outcome) (Q : catalog_outcome -> Prop) :
  runs m (fun o tr => Q o /\ Forall no_ready tr) -> runs (_ ← recordEvent ev; m) (fun o tr => Q o /\ Forall no_ready tr).
Proof.
  intros Hm. eapply runs_bind; [apply reserved_no_ready, recordEvent_emits|]. intros a t1 [H1 _].
  eapply runs_weaken; [exact Hm|]. intros o t2 [Ho H2]. split; [done|]. by apply Forall_app.
Qed.

Lemma updateStatusStep_runs catalog configMap :
  runs (updateStatusStep catalog (mkCatalogState (Some configMap))) (fun o tr => co_RequeueAfter o = 0 /\
    (co_err o = None -> co_continue o = true /\ ready_stored (ccm_Name configMap) tr)).
Proof.
  unfold updateStatusStep. simpl. eapply runs_bind; [apply updateStatusToReady_runs|]. intros err t1 Ht.
  destruct err as [e|]; apply runs_ret; [done|]. rewrite app_nil_r. split; [done|]. intros _. split; auto.
Qed.

Lemma ensureConfigMapStep_runs catalog configMap : generateConfigMap catalog = Ok configMap ->
  let state := mkCatalogState (Some configMap) in
  runs (ensureConfigMapStep catalog state) (fun o tr => Forall no_ready tr /\
    ((exists e, o = stop_with (Some e) state) \/ (o = go_on state /\ config_map_applied catalog tr))).
Proof.
  intros Hg state. unfold ensureConfigMapStep. simpl. eapply runs_bind; [by apply ensureConfigMap_runs|].
  intros err t1 [Hn Ha]. destruct err as [e|].
  - eapply runs_weaken; [apply note_runs, stop_runs, reserved_no_ready, catalog_handleError_emits|].
    intros o t2 [-> H2]. split; [by apply Forall_app|eauto].
  - apply runs_ret. rewrite app_nil_r. auto.
Qed.

Lemma generateConfigMapStep_runs catalog state :
  runs (generateConfigMapStep catalog state) (fun o tr => Forall no_ready tr /\
    match generateConfigMap catalog with
    | Ok configMap => o = go_on (mkCatalogState (Some configMap))
    | Err _ => exists e, o = stop_with (Some e) state
    end).
Proof.
  unfold generateConfigMapStep. destruct (generateConfigMap catalog) as [cm|text]; [by apply runs_ret|].
  eapply runs_weaken; [apply note_runs, stop_runs, reserved_no_ready, catalog_handleError_emits|].
  intros o t2 [-> H2]. eauto.
Qed.

Lemma ready_runs catalog configMap t0 : generateConfigMap catalog = Ok configMap ->
  Forall no_ready t0 -> config_map_applied catalog t0 ->
  runs (execute_steps [updateStatusStep] catalog (mkCatalogState (Some configMap))) (fun r tr => honest catalog r (t0 ++ tr)).
Proof.
  intros Hg Hn Ha. assert (forall tr, before (config_map_applied catalog) stores_ready (t0 ++ tr)) as Hb.
  { intros tr. apply before_established; auto using config_map_applied_lasting. }
  apply execute_cons. eapply runs_weaken; [apply updateStatusStep_runs|]. intros o t1 [Hz Ho]. split; [done|].
  destruct (co_err o) as [e|]; [by repeat split|]. destruct (Ho eq_refl) as [Hc Hr]. split; [done|]. apply runs_ret.
  rewrite app_nil_r. split; [done|]. split; [done|]. intros _. exists configMap. split; [done|].
  split; [by apply lasting_l; [apply config_map_applied_lasting|]|]. destruct Hr as (y & y' & Hin & Hr). exists y, y'.
  split; [set_solver|done].
Qed.

Lemma catalog_Execute_runs catalog : runs (catalog_Execute catalog) (honest catalog).
Proof.
  apply execute_cons. eapply runs_weaken; [apply generateConfigMapStep_runs|]. intros o t1 [H1 Ho].
  destruct (generateConfigMap catalog) as [cm|text] eqn:Hg; [|destruct Ho as [e ->]; split; [done|by apply honest_failure]].
  subst o. split; [done|]. split; [done|]. apply execute_cons.
  eapply runs_weaken; [by apply ensureConfigMapStep_runs|]. intros o t2 [H2 [[e ->]|[-> Ha]]]; (split; [done|]); simpl.
  - apply honest_failure. by apply Forall_app.
  - split; [done|]. eapply runs_weaken; [apply (ready_runs _ cm (t1 ++ t2)); [done|by apply Forall_app|]|].
    + by apply lasting_r; [apply config_map_applied_lasting|].
    + intros r t3. by rewrite app_assoc.
Qed.

(** A catalog that cannot be rendered leaves its ConfigMap alone. *)
Lemma catalog_Execute_invalid catalog text : generateConfigMap catalog = Err text ->
  emits reserved_act (catalog_Execute catalog) (fun r => r = (0, Some (errors_New text))).
Proof.
  intros Hg. unfold catalog_Execute, NewCatalogReconciliationPipeline. cbn [execute_steps]. unfold generateConfigMapStep. rewrite Hg.
  apply (emits_bind _ _ _ (fun o => o = stop_with (Some (errors_New text)) (mkCatalogState None)));
    [eapply emits_bind; [apply recordEvent_emits|]|].
  - intros _ _. eapply emits_bind; [apply catalog_handleError_emits|]. intros r ->. by apply emits_ret.
  - intros o ->. by apply emits_ret.
Qed.

(** What is written keeps nothing of the old data and labels, when setting the
    controller does nothing else. *)
Lemma desired_config_map_spec catalog configMap existing o :
  (forall a b, SetControllerReference catalog a = Some b -> co_Data b = co_Data a /\ co_Labels b = co_Labels a) ->
  desired_config_map catalog configMap existing = Some o ->
  co_Data o = ccm_Data configMap /\ co_Labels o = ccm_Labels configMap.
Proof.
  intros Hset. unfold desired_config_map. destruct (SetControllerReference _ _) as [b|] eqn:Hb; [|done].
  apply Hset in Hb as [Hd Hl]. simpl in *. case_bool_decide; intros [= <-]; done.
Qed.

(** All of it: an unrenderable catalog is reported, and nothing else is done. *)
Definition faithful_pass (catalog : XTrinodeCatalog) (r : Duration * option E) (tr : history_of) : Prop :=
  honest catalog r tr /\
  forall text, generateConfigMap catalog = Err text -> Forall reserved_act tr /\ r.2 = Some (errors_New text).

Lemma faithful_around catalog r t0 t t1 : Forall reserved_act t0 -> Forall reserved_act t1 ->
  faithful_pass catalog r t -> faithful_pass catalog r (t0 ++ t ++ t1).
Proof.
  intros H0' H1 [(Hz & Hb & Hr) Hinv].
  assert (Forall no_ready t0 /\ Forall no_ready t1) as [Hn0 Hn1]
    by (split; (eapply Forall_impl; [|eassumption]); exact reserved_not_ready).
  split; [split; [done|split]|].
  - apply before_shift; [apply config_map_applied_lasting|done|]. by apply before_never_app.
  - intros Hn. destruct (Hr Hn) as (cm & Hg & Ha & y & y' & Hin & Hy). exists cm. split; [done|].
    split; [eapply config_map_applied_lasting; [|exact Ha]; set_solver|]. exists y, y'. split; [set_solver|done].
  - intros text Ht. destruct (Hinv text Ht) as [Hq Hr2]. split; [|done]. by rewrite !Forall_app.
Qed.

Lemma catalog_Execute_faithful catalog : runs (catalog_Execute catalog) (faithful_pass catalog).
Proof.
  destruct (generateConfigMap catalog) as [cm|text] eqn:Hg.
  - eapply runs_weaken; [apply catalog_Execute_runs|]. intros r tr Hh. split; [done|]. congruence.
  - eapply runs_weaken; [apply runs_and; [apply catalog_Execute_runs|exact (catalog_Execute_invalid _ _ Hg)]|].
    intros r tr [Hh [Hq ->]]. split; [done|]. intros text' Ht. rewrite Hg in Ht. by injection Ht as <-.
Qed.

(** A pass of the catalog controller never asks to run again, and stores the
    status [Ready] only after the ConfigMap generated from the catalog it read has
    been applied; a pass that succeeds has done both, or found no catalog.  For a
    catalog that cannot be rendered it stores nothing but the status [Error], and
    fails. *)
Theorem catalog_ready namespace name :
  runs (catalog_Reconcile namespace name) (fun r tr =>
    (exists catalog, existT (GetXTrinodeCatalog namespace name) (Ok catalog) ∈ tr /\ faithful_pass catalog r tr) \/
    (exists e, tr = [existT (GetXTrinodeCatalog namespace name) (Err e)] /\ r = (0, if IsNotFound e then None else Some e))).
Proof.
  unfold catalog_Reconcile. run_call. intros [catalog|e]; [|apply runs_ret; right; eauto].
  assert (emits reserved_act (if cs_Phase (cat_Status catalog) ≡? ""
     then recordEvent (Normal "Created" ("XTrinodeCatalog " +:+ cat_Namespace catalog +:+ "/" +:+ cat_Name catalog +:+ " created"))
     else mret tt) (fun _ => True)) as Hev.
  { case_bool_decide; [apply recordEvent_emits|by apply emits_ret]. }
  eapply runs_bind; [exact Hev|]. intros _ t1 [H1 _]. eapply runs_bind; [apply catalog_Execute_faithful|].
  intros [d err] t2 Hh.
  destruct err as [e|]; (eapply runs_bind; [apply recordEvent_emits|]; intros _ t3 [H3 _]; apply runs_ret; left; exists catalog;
    split; [apply elem_of_cons; by left|]; rewrite app_nil_r;
    apply (faithful_around _ _ (existT (GetXTrinodeCatalog namespace name) (Ok catalog) :: t1)); [by constructor|done|done]).
Qed.
End controller.
