(* ===== verification/Rollout.v ===== *)
(** * Rollout hashes ([internal/digest/digest.go], [internal/rollout/rollout.go],
    [internal/trino/resources/rollout_hash.go])

    The hash on the pod template of a role covers the rendered template, and
    digests of what the pods read from outside it: catalogs, access control,
    session properties, Secrets and ConfigMaps.  A new hash rolls the pods.
    SHA-256 and the JSON encoder are parameters. *)

From S2P Require Import Prelude GoStrings GoTime GoParse XTrinodeTypes RuntimeShape Status Retry CatalogTypes World Shutdown Catalogs NodePool Admission AdmissionUpdate CatalogAdmission Connectors ConnectorUnion CatalogSound CatalogFile.

(** ** Digests *)

Definition NUL : ascii := "000"%char.

(** A digest collects bytes: names and values, each followed by a NUL. *)
Notation entry := (string * string)%type.

Definition add_bytes (h : string) (e : entry) : string := h +:+ e.1 +:+ String NUL (e.2 +:+ String NUL EmptyString).
Definition digest_bytes (es : list entry) : string := fold_left add_bytes es EmptyString.

(** The names of the annotations. *)
Definition CoordinatorRolloutHashKey : string := "trino.io/rollout-hash-coordinator".
Definition WorkerRolloutHashKey : string := "trino.io/rollout-hash-worker".

Section digest.
Context (sha256_hex : string -> string).

Definition Sum12 (es : list entry) : string := str_take 12 (sha256_hex (digest_bytes es)).

Definition data_entries (data : gmap string string) : list entry :=
  (fun k => (k, default "" (data !! k))) <$> SortStrings (mapKeys data).

(** [SecretDataDigest] and [ConfigMapDataDigest] *)
Definition DataDigest (data : gmap string string) : string :=
  if bool_decide (data = ∅) then "" else Sum12 (data_entries data).

(** ** The pod templates *)

Record roleRolloutDigests := mkRoleDigests {
  rd_Catalog : string;
  rd_AccessControl : string;
  rd_SessionProps : string;
  rd_Secret : string
}.

Definition RevisionAnnotationKey : string := "xtrinode.io/revision".

(** [corev1.PodTemplateSpec]: its annotations and the rest. *)
Context {P : Type}.
Record PodTemplateSpec := mkTemplate {
  pt_Annotations : option (gmap string string);
  pt_rest : P
}.

(** [json.Marshal] of a template. *)
Context (json_Marshal_template : PodTemplateSpec -> string).

Definition rendered_annotations (annotations : gmap string string) : option (gmap string string) :=
  let annotations := delete WorkerRolloutHashKey (delete CoordinatorRolloutHashKey (delete RevisionAnnotationKey annotations)) in
  if bool_decide (annotations = ∅) then None else Some annotations.

Definition renderedTemplate (template : PodTemplateSpec) : PodTemplateSpec :=
  mkTemplate (pt_Annotations template ≫= rendered_annotations) (pt_rest template).

Definition pod_entries (template : PodTemplateSpec) (rolloutHashKey : string) (includeCatalog : bool) (d : roleRolloutDigests) : list entry :=
  [("rolloutHashKey", rolloutHashKey); ("podTemplate", json_Marshal_template (renderedTemplate template));
   ("access", rd_AccessControl d); ("session", rd_SessionProps d); ("secret", rd_Secret d)] ++
  (if includeCatalog then [("catalog", rd_Catalog d)] else []).

Definition podRolloutHash (template : PodTemplateSpec) (rolloutHashKey : string) (includeCatalog : bool) (d : roleRolloutDigests) : string :=
  Sum12 (pod_entries template rolloutHashKey includeCatalog d).

Definition coordinatorPodRolloutHash (template : PodTemplateSpec) (d : roleRolloutDigests) : string :=
  podRolloutHash template CoordinatorRolloutHashKey true d.

Definition workerPodRolloutHash (template : PodTemplateSpec) (includeCatalog : bool) (d : roleRolloutDigests) : string :=
  podRolloutHash template WorkerRolloutHashKey includeCatalog d.

Definition StampRolloutHash (template : PodTemplateSpec) (key hash : string) : PodTemplateSpec :=
  mkTemplate (Some (<[key := hash]> (default ∅ (pt_Annotations template)))) (pt_rest template).

(** ** Digests of the specification *)

Context (json_Marshal_rules : gmap string string -> string).

Definition access_entries (ac : AccessControlSpec) : list entry :=
  [("type", ac_Type ac); ("refreshPeriod", ac_RefreshPeriod ac); ("configFile", ac_ConfigFile ac)] ++
  match ac_Rules ac with
  | Some rules => if bool_decide (rules = ∅) then [] else [("rules", json_Marshal_rules rules)]
  | None => []
  end ++
  (if ac_Properties ac ≡? "" then [] else [("properties", ac_Properties ac)]).

Definition ComputeAccessControlDigest (x : XTrinode) : string :=
  match spec_HelmChartConfig (xt_Spec x) ≫= hc_AccessControl with
  | None => ""
  | Some ac => Sum12 (access_entries ac)
  end.

Definition as_object (v : json) : option (list (string * json)) := match v with JObject m => Some m | _ => None end.
Definition as_array (v : json) : list json := match v with JArray l => l | _ => [] end.
Definition as_string (v : json) : option string := match v with JString s => Some s | _ => None end.

Definition session_entries (sessionProps : list (string * json)) : list entry :=
  match as_string (json_get sessionProps "type") with
  | None => []
  | Some sessionType =>
      ("type", sessionType) ::
      (if sessionType ≡? "configmap" then
         match as_string (json_get sessionProps "sessionPropertiesConfig") with Some s => [("sessionPropertiesConfig", s)] | None => [] end
       else if sessionType ≡? "properties" then
         match as_string (json_get sessionProps "properties") with Some s => [("properties", s)] | None => [] end
       else [])
  end.

Definition ComputeSessionPropsDigest (x : XTrinode) : string :=
  match GetValuesOverlayMap (xt_Spec x) ≫= fun valuesMap => as_object (json_get valuesMap "sessionProperties") with
  | None => ""
  | Some sessionProps => Sum12 (session_entries sessionProps)
  end.

(** ** References of the specification *)

Definition nonempty (s : string) : list string := if s ≡? "" then [] else [s].
Definition string_ref (v : json) : list string := match v with JString s => nonempty s | _ => [] end.
Definition objects (v : json) : list (list (string * json)) := omap as_object (as_array v).

Definition nestedString (parent : list (string * json)) (childKey nameKey : string) : list string :=
  match as_object (json_get parent childKey) with
  | Some child => string_ref (json_get child nameKey)
  | None => []
  end.

Definition jmxExporterConfigMapReference (x : XTrinode) : string :=
  match spec_KEDA (xt_Spec x) ≫= keda_JMXExporter with
  | Some jmx => if jmx_Enabled jmx then jmx_ConfigMap jmx else ""
  | None => ""
  end.

Definition some_name (o : option string) : list string := match o with Some s => nonempty s | None => [] end.

Definition helmEnvConfigMapReferences (cfg : option HelmChartConfigSpec) : list string :=
  match cfg with
  | None => []
  | Some cfg =>
      (default [] (hc_EnvFrom cfg) ≫= fun e => some_name (ef_ConfigMapRef e)) ++
      (default [] (hc_Env cfg) ≫= fun e => some_name (env_ConfigMapKeyRef e))
  end.

Definition helmEnvFromSecretReferences (cfg : option HelmChartConfigSpec) : list string :=
  match cfg with
  | None => []
  | Some cfg => default [] (hc_EnvFrom cfg) ≫= fun e => some_name (ef_SecretRef e)
  end.

Definition authSecretReferences (valuesMap : list (string * json)) : list string :=
  match as_object (json_get valuesMap "auth") with
  | Some auth => string_ref (json_get auth "passwordAuthSecret") ++ string_ref (json_get auth "groupsAuthSecret")
  | None => []
  end.

Definition overlayMountReferences (raw : json) (refKey : string) : list string :=
  objects raw ≫= fun item => string_ref (json_get item refKey).

Definition roles (valuesMap : list (string * json)) : list (list (string * json)) :=
  omap (fun role => as_object (json_get valuesMap role)) ["coordinator"; "worker"].

Definition overlayRoleMountReferences (valuesMap : list (string * json)) (listKey refKey : string) : list string :=
  roles valuesMap ≫= fun role => overlayMountReferences (json_get role listKey) refKey.

Definition overlayEnvFromReferences (valuesMap : list (string * json)) (refKey : string) : list string :=
  objects (json_get valuesMap "envFrom") ≫= fun item => nestedString item refKey "name".

Definition overlayEnvValueFromReferences (valuesMap : list (string * json)) (refKey : string) : list string :=
  objects (json_get valuesMap "env") ≫= fun item =>
  match as_object (json_get item "valueFrom") with
  | Some valueFrom => nestedString valueFrom refKey "name"
  | None => []
  end.

Definition projectedVolumeReferences (volume : list (string * json)) (volumeKey nameKey : string) : list string :=
  match as_object (json_get volume "projected") with
  | Some projected => objects (json_get projected "sources") ≫= fun source => nestedString source volumeKey nameKey
  | None => []
  end.

Definition overlayAdditionalVolumeReferences (valuesMap : list (string * json)) (volumeKey nameKey : string) : list string :=
  roles valuesMap ≫= fun role => objects (json_get role "additionalVolumes") ≫= fun volume =>
  nestedString volume volumeKey nameKey ++ projectedVolumeReferences volume volumeKey nameKey.

Definition externalConfigMapReferences (x : XTrinode) : list string :=
  let s := xt_Spec x in
  nonempty (spec_ResourceGroupsProfile s) ++ nonempty (jmxExporterConfigMapReference x) ++ default [] (spec_CustomConfigMaps s) ++
  helmEnvConfigMapReferences (spec_HelmChartConfig s) ++
  match GetValuesOverlayMap s with
  | None => []
  | Some m =>
      overlayMountReferences (json_get m "configMounts") "configMap" ++
      overlayRoleMountReferences m "configMounts" "configMap" ++ overlayEnvValueFromReferences m "configMapKeyRef" ++
      overlayEnvFromReferences m "configMapRef" ++ overlayAdditionalVolumeReferences m "configMap" "name"
  end.

Definition externalSecretReferences (x : XTrinode) : list string :=
  let s := xt_Spec x in
  helmEnvFromSecretReferences (spec_HelmChartConfig s) ++
  match GetValuesOverlayMap s with
  | None => []
  | Some m =>
      authSecretReferences m ++ overlayMountReferences (json_get m "secretMounts") "secretName" ++
      overlayRoleMountReferences m "secretMounts" "secretName" ++ overlayEnvValueFromReferences m "secretKeyRef" ++
      overlayEnvFromReferences m "secretRef" ++ overlayAdditionalVolumeReferences m "secret" "secretName" ++
      overlayAdditionalVolumeReferences m "secret" "name"
  end.

(** Empty names and duplicates are dropped. *)
Definition sortedUniqueStrings (values : list string) : list string :=
  SortStrings (remove_dups (filter (fun v => v <> "") values)).

(** ** Digests of what the pods read *)

(** What reads of Secrets and ConfigMaps of the namespace, and of the selected
    catalogs, return. *)
Context {E : Type} `{KubeErrors E}.
Record cluster := mkCluster {
  cl_Secret : string -> result E (gmap string string);
  cl_ConfigMap : string -> result E (gmap string string);
  cl_CatalogEnv : result E (list EnvVar)
}.
Context (c : cluster).

(** A step of a digest: whether it found external data, and what it adds. *)
Definition step : Type := result E (bool * list entry).
Definition skip : step := Ok (false, []).
Definition added (r : result E (list entry)) : step :=
  match r with Ok es => Ok (true, es) | Err e => Err e end.
Definition add_then (a b : step) : step :=
  match a with
  | Err e => Err e
  | Ok (f, es) => match b with Err e => Err e | Ok (g, fs) => Ok (f || g, es ++ fs) end
  end.
Definition add_each {A} (f : A -> step) : list A -> step := foldr (fun a => add_then (f a)) skip.

Definition hashData (get : string -> result E (gmap string string)) (message name prefix : string) : result E (list entry) :=
  match get name with
  | Err e => if IsNotFound e then Ok [] else Err (Errorf (message +:+ name +:+ ": ") e)
  | Ok data => Ok [(prefix, DataDigest data)]
  end.

Definition hashSecretData : string -> string -> result E (list entry) := hashData (cl_Secret c) "failed to fetch secret ".
Definition hashConfigMapData : string -> string -> result E (list entry) := hashData (cl_ConfigMap c) "failed to fetch configmap ".

Definition hashSecretKeyData (prefix secretName key : string) : result E (list entry) :=
  let es := [(prefix +:+ "-secret", secretName); (prefix +:+ "-key", key)] in
  match cl_Secret c secretName with
  | Err e => if IsNotFound e then Ok es else Err (Errorf ("failed to fetch catalog secret " +:+ secretName +:+ ": ") e)
  | Ok data => Ok (es ++ match data !! key with Some value => [(prefix +:+ "-value", value)] | None => [] end)
  end.

Definition named (digestKey name : string) (r : result E (list entry)) : result E (list entry) :=
  match r with Ok es => Ok ((digestKey, name) :: es) | Err e => Err e end.

Definition addTLSSecretDigests (tls : option TLSSpec) : step :=
  match tls with
  | None => skip
  | Some tls =>
      add_each (fun '(digestKey, name, prefix) =>
          if name ≡? "" then skip else added (named digestKey name (hashSecretData name prefix)))
        [("tls-server-secret-name", tls_ServerSecretClass tls, "tls-server-secret");
         ("tls-internal-secret-name", tls_InternalSecretClass tls, "tls-internal-secret")]
  end.

Definition addImagePullSecretRefs (cfg : option HelmChartConfigSpec) : step :=
  add_each (fun ips => added (Ok [("imagePullSecret", ips)])) (default [] (cfg ≫= hc_ImagePullSecrets)).

(** Global mounts, then those of the coordinator and of the workers. *)
Definition mountGroups (cfg : HelmChartConfigSpec) : list (string * SecretMountSpec) :=
  (pair "global-" <$> default [] (hc_SecretMounts cfg)) ++
  (pair "coord-" <$> default [] (hc_Coordinator cfg ≫= ch_SecretMounts)) ++
  (pair "worker-" <$> default [] (hc_Worker cfg ≫= wh_SecretMounts)).

Definition addHelmSecretMountDigests (cfg : option HelmChartConfigSpec) : step :=
  match cfg with
  | None => skip
  | Some cfg => add_each (fun '(prefix, m) => added (hashSecretData (sm_SecretName m) (prefix +:+ sm_Name m))) (mountGroups cfg)
  end.

Definition addAuthSecretDigests (valuesMap : option (list (string * json))) : step :=
  match valuesMap ≫= fun valuesMap => as_object (json_get valuesMap "auth") with
  | None => skip
  | Some auth =>
      add_each (fun '(key, digestKey) =>
          match as_string (json_get auth key) with
          | Some secretName =>
              if secretName ≡? "" then skip else added (named digestKey secretName (hashSecretData secretName (digestKey +:+ "-data")))
          | None => skip
          end)
        [("passwordAuthSecret", "auth-password-secret"); ("groupsAuthSecret", "auth-groups-secret")]
  end.

Definition addTrinoControlAuthSecretDigest (x : XTrinode) : step :=
  match spec_TrinoControlAuth (xt_Spec x) ≫= ca_PasswordSecret with
  | None => skip
  | Some (name, key) => added (hashSecretKeyData "trino-control-auth" name key)
  end.

Definition addHelmEnvSecretDigests (cfg : option HelmChartConfigSpec) : step :=
  add_each (fun e =>
      match env_SecretKeyRef e with
      | Some (name, key) => if name ≡? "" then skip else added (hashSecretKeyData ("helm-env-" +:+ env_Name e) name key)
      | None => skip
      end)
    (default [] (cfg ≫= hc_Env)).

Definition addConfiguredSecretDigests (x : XTrinode) : step :=
  let s := xt_Spec x in
  add_then (addTLSSecretDigests (spec_TLS s))
    (add_then (addImagePullSecretRefs (spec_HelmChartConfig s))
    (add_then (addHelmSecretMountDigests (spec_HelmChartConfig s))
    (add_then (addAuthSecretDigests (GetValuesOverlayMap s))
    (add_then (addTrinoControlAuthSecretDigest x)
    (addHelmEnvSecretDigests (spec_HelmChartConfig s)))))).

Definition addMountedResourceDigests (x : XTrinode) : step :=
  add_then
    (add_each (fun name => added (named "mounted-configmap-name" name (hashConfigMapData name ("mounted-configmap-" +:+ name))))
      (sortedUniqueStrings (externalConfigMapReferences x)))
    (add_each (fun name => added (named "mounted-secret-name" name (hashSecretData name ("mounted-secret-" +:+ name))))
      (sortedUniqueStrings (externalSecretReferences x))).

(** By name, then Secret, then key. *)
Definition env_le (l r : EnvVar) : Prop :=
  if decide (ev_Name l = ev_Name r) then
    if decide (sk_Name (ev_SecretKeyRef l) = sk_Name (ev_SecretKeyRef r)) then str_le (sk_Key (ev_SecretKeyRef l)) (sk_Key (ev_SecretKeyRef r))
    else str_le (sk_Name (ev_SecretKeyRef l)) (sk_Name (ev_SecretKeyRef r))
  else str_le (ev_Name l) (ev_Name r).
#[export] Instance env_le_dec : RelDecision env_le.
Proof. intros l r. unfold env_le. destruct (decide _); [destruct (decide _)|]; apply _. Defined.

Definition addCatalogSecretDigests : step :=
  match cl_CatalogEnv c with
  | Err e => Err (Errorf "failed to extract catalog secret references: " e)
  | Ok catalogEnvVars =>
      add_each (fun e => added (hashSecretKeyData (ev_Name e) (sk_Name (ev_SecretKeyRef e)) (sk_Key (ev_SecretKeyRef e))))
        (sorting.merge_sort env_le catalogEnvVars)
  end.

Definition secret_step (x : XTrinode) : step :=
  add_then (addConfiguredSecretDigests x) (add_then (addMountedResourceDigests x) addCatalogSecretDigests).

Definition ComputeSecretDigest (x : XTrinode) : result E string :=
  match secret_step x with
  | Err e => Err e
  | Ok (hasExternalData, es) => Ok (if hasExternalData then Sum12 es else "")
  end.

(** Catalogs without a ConfigMap are skipped. *)
Fixpoint catalog_maps (catalogs : list string) : result E (list (string * gmap string string)) :=
  match catalogs with
  | [] => Ok []
  | catalogName :: catalogs =>
      let name := CatalogConfigMapPrefix +:+ catalogName in
      match cl_ConfigMap c name with
      | Err e =>
          if IsNotFound e then catalog_maps catalogs
          else Err (Errorf ("failed to fetch catalog ConfigMap " +:+ catalogName +:+ ": ") e)
      | Ok data => match catalog_maps catalogs with Ok cms => Ok ((name, data) :: cms) | Err e => Err e end
      end
  end.

Definition list_entries (cms : list (string * gmap string string)) : list entry :=
  cms ≫= fun '(name, data) => [("name", name); ("digest", DataDigest data)].

Definition ConfigMapListDigest (cms : list (string * gmap string string)) : string :=
  if bool_decide (cms = []) then "" else Sum12 (list_entries cms).

Definition ComputeCatalogDigest (catalogs : list string) : result E string :=
  match catalog_maps catalogs with Err e => Err e | Ok cms => Ok (ConfigMapListDigest cms) end.

(** The digests [BuildTrinoResourceSet] gives both roles. *)
Definition rolloutDigests (x : XTrinode) (catalogs : list string) : result E roleRolloutDigests :=
  match ComputeCatalogDigest (SortStrings catalogs) with
  | Err e => Err (Errorf "failed to compute catalog digest: " e)
  | Ok catalogDigest =>
      match ComputeSecretDigest x with
      | Err e => Err (Errorf "failed to compute secret digest: " e)
      | Ok secretDigest => Ok (mkRoleDigests catalogDigest (ComputeAccessControlDigest x) (ComputeSessionPropsDigest x) secretDigest)
      end
  end.

(** The hashes of both roles; workers roll on a change of a catalog, too. *)
Definition rolloutHashes (x : XTrinode) (catalogs : list string) (coordinator worker : PodTemplateSpec) : result E (string * string) :=
  match rolloutDigests x catalogs with
  | Err e => Err e
  | Ok d => Ok (coordinatorPodRolloutHash coordinator d, workerPodRolloutHash worker true d)
  end.
End digest.
