(* ===== verification/RolloutSound.v ===== *)
(** * What a rollout hash covers

    When the hash of a role stays the same, its template and everything its pods
    read from Secrets, ConfigMaps and catalogs stayed the same, up to collisions of
    the hash function on the inputs at hand. *)

From S2P Require Import Prelude GoStrings GoTime GoParse XTrinodeTypes RuntimeShape Status Retry CatalogTypes World Shutdown Catalogs NodePool Admission AdmissionUpdate CatalogAdmission Connectors ConnectorUnion CatalogSound CatalogFile Rollout.

(** ** Bytes of a digest *)

Definition not_nul (c : ascii) : bool := negb (c ≡? NUL).
(** Text without a NUL. *)
Notation plain s := (all_bytes not_nul s = true).

Lemma split_nul a b s t : plain a -> plain b -> a +:+ String NUL s = b +:+ String NUL t -> a = b /\ s = t.
Proof.
  revert b. induction a as [|c a IH]; intros [|c' b]; simpl.
  - by intros _ _ [= ->].
  - intros _ Hb [= <- _]. done.
  - intros Ha _ [= -> _]. done.
  - intros [_ Ha]%andb_true_iff [_ Hb]%andb_true_iff [= -> Heq]. by destruct (IH b Ha Hb Heq) as [-> ->].
Qed.

Lemma str_app_nil s : s +:+ "" = s.
Proof. induction s as [|c s IH]; [done|]. change (String c (s +:+ "") = String c s). by f_equal. Qed.

Lemma str_app_inj_l a s t : a +:+ s = a +:+ t -> s = t.
Proof. induction a as [|c a IH]; simpl; [done|]. intros [= Heq]. by apply IH. Qed.

Lemma add_bytes_acc es h : fold_left add_bytes es h = h +:+ digest_bytes es.
Proof.
  unfold digest_bytes. revert h. induction es as [|e es IH]; intros h; simpl; [by rewrite str_app_nil|].
  rewrite IH, (IH (add_bytes "" e)). unfold add_bytes. by rewrite !str_app_assoc.
Qed.

Lemma digest_bytes_cons k v es : digest_bytes ((k, v) :: es) = k +:+ String NUL (v +:+ String NUL (digest_bytes es)).
Proof.
  change (digest_bytes ((k, v) :: es)) with (fold_left add_bytes es (add_bytes "" (k, v))). rewrite add_bytes_acc.
  change ((k +:+ String NUL (v +:+ String NUL "")) +:+ digest_bytes es = k +:+ String NUL (v +:+ String NUL (digest_bytes es))).
  rewrite str_app_assoc. f_equal.
  change (String NUL ((v +:+ String NUL "") +:+ digest_bytes es) = String NUL (v +:+ String NUL (digest_bytes es))).
  by rewrite str_app_assoc.
Qed.

(** Entries with the same names, whose values are text unless they are equal. *)
Definition comparable_entry (a b : entry) : Prop := a.1 = b.1 /\ (a.2 = b.2 \/ plain a.2 /\ plain b.2).

Lemma aligned_inj es fs : Forall2 comparable_entry es fs -> digest_bytes es = digest_bytes fs -> es = fs.
Proof.
  induction 1 as [|[k v] [k' w] es fs [Hk Hv] _ IH]; [done|]. simpl in *. subst k'. rewrite !digest_bytes_cons.
  intros [= Heq]%str_app_inj_l. destruct Hv as [->|[Hv Hw]].
  - apply str_app_inj_l in Heq. injection Heq as Heq. by rewrite IH.
  - apply split_nul in Heq as [-> Heq]; [|done..]. by rewrite IH.
Qed.

Lemma plain_inj es fs :
  Forall (fun e => plain e.1 /\ plain e.2) es -> Forall (fun e => plain e.1 /\ plain e.2) fs -> digest_bytes es = digest_bytes fs -> es = fs.
Proof.
  intros He. revert fs. induction He as [|[k v] es [Hk Hv] _ IH]; intros [|[k' w] fs] Hf; rewrite ?digest_bytes_cons; [done|..].
  - by destruct k'.
  - by destruct k.
  - apply list.Forall_cons in Hf as [[Hk' Hw] Hf]. simpl in *.
    intros [-> [-> Heq]%split_nul]%split_nul; [|done..]. by rewrite (IH fs).
Qed.

Lemma data_entries_inj d1 d2 : data_entries d1 = data_entries d2 -> d1 = d2.
Proof.
  intros Heq. apply map_to_list_inj. rewrite <- !(entries _). unfold data_entries in Heq. by rewrite Heq.
Qed.

(** A map of text. *)
Definition text_data (d : gmap string string) : Prop := map_Forall (fun k v => plain k /\ plain v) d.

Lemma text_entries d : text_data d -> Forall (fun e => plain e.1 /\ plain e.2) (data_entries d).
Proof.
  intros Hd. unfold data_entries. rewrite (entries d). apply list.Forall_forall. intros [k v] Hin%elem_of_map_to_list.
  exact (Hd k v Hin).
Qed.

(** ** Comparing two states of a cluster *)

Section sound.
Context {E P : Type} `{KubeErrors E}.
Context (sha256_hex : string -> string) (json_Marshal_template : @PodTemplateSpec P -> string) (json_Marshal_rules : gmap string string -> string).

Notation data := (gmap string string).
Notation rolloutHashes := (rolloutHashes sha256_hex json_Marshal_template json_Marshal_rules).
Notation rolloutDigests := (rolloutDigests sha256_hex json_Marshal_rules).
Notation secret_step := (secret_step sha256_hex).
Notation DataDigest := (DataDigest sha256_hex).
Notation Sum12 := (Sum12 sha256_hex).

(** Different texts among [inputs] have different digests. *)
Definition no_collision (inputs : list string) : Prop :=
  Forall (fun a => Forall (fun b => str_take 12 (sha256_hex a) = str_take 12 (sha256_hex b) -> a = b) inputs) inputs.

(** Secrets the pods read as a whole. *)
Definition tls_secrets (tls : option TLSSpec) : list string :=
  match tls with Some tls => nonempty (tls_ServerSecretClass tls) ++ nonempty (tls_InternalSecretClass tls) | None => [] end.
Definition mount_secrets (cfg : option HelmChartConfigSpec) : list string :=
  match cfg with Some cfg => (fun m => sm_SecretName m.2) <$> mountGroups cfg | None => [] end.
Definition whole_secrets (x : XTrinode) : list string :=
  tls_secrets (spec_TLS (xt_Spec x)) ++ mount_secrets (spec_HelmChartConfig (xt_Spec x)) ++
  sortedUniqueStrings (externalSecretReferences x).

(** Secrets the pods read one key of. *)
Definition control_keys (x : XTrinode) : list (string * string) :=
  match spec_TrinoControlAuth (xt_Spec x) ≫= ca_PasswordSecret with Some r => [r] | None => [] end.
Definition env_keys (x : XTrinode) : list (string * string) :=
  filter (fun r => r.1 <> "") (omap env_SecretKeyRef (default [] (spec_HelmChartConfig (xt_Spec x) ≫= hc_Env))).
Definition catalog_keys (c : @cluster E) : list (string * string) :=
  match cl_CatalogEnv c with
  | Ok env => (fun e => (sk_Name (ev_SecretKeyRef e), sk_Key (ev_SecretKeyRef e))) <$> env
  | Err _ => []
  end.
Definition secret_keys (c : @cluster E) (x : XTrinode) : list (string * string) := control_keys x ++ env_keys x ++ catalog_keys c.

(** ConfigMaps the pods read. *)
Definition config_maps (x : XTrinode) (catalogs : list string) : list string :=
  sortedUniqueStrings (externalConfigMapReferences x) ++ (append CatalogConfigMapPrefix <$> catalogs).

Definition found (r : result E data) : list data := match r with Ok d => [d] | Err _ => [] end.
Definition data_read (c : @cluster E) (x : XTrinode) (catalogs : list string) : list data :=
  (whole_secrets x ≫= fun n => found (cl_Secret c n)) ++ (config_maps x catalogs ≫= fun n => found (cl_ConfigMap c n)).

(** Everything hashed for the hash [rolloutHashKey] of [template]. *)
Definition hashed (c : @cluster E) (x : XTrinode) (catalogs : list string) (rolloutHashKey : string) (template : PodTemplateSpec) : list string :=
  match rolloutDigests c x catalogs with
  | Ok d => [digest_bytes (pod_entries json_Marshal_template template rolloutHashKey true d)]
  | Err _ => []
  end ++
  match secret_step c x with Ok (_, es) => [digest_bytes es] | Err _ => [] end ++
  match catalog_maps c (SortStrings catalogs) with Ok cms => [digest_bytes (list_entries sha256_hex cms)] | Err _ => [] end ++
  ((fun d => digest_bytes (data_entries d)) <$> data_read c x catalogs).

(** The same objects are there, with text in them. *)
Definition same_object (r1 r2 : result E data) : Prop :=
  match r1, r2 with
  | Ok d1, Ok d2 => text_data d1 /\ text_data d2
  | Err _, Err _ => True
  | _, _ => False
  end.
Definition same_key (r1 r2 : result E data) (key : string) : Prop :=
  match r1, r2 with Ok d1, Ok d2 => is_Some (d1 !! key) <-> is_Some (d2 !! key) | _, _ => True end.

Record same_objects (c1 c2 : cluster) (x : XTrinode) (catalogs : list string) : Prop := mkSameObjects {
  so_env : cl_CatalogEnv c1 = cl_CatalogEnv c2;
  so_secrets : Forall (fun n => same_object (cl_Secret c1 n) (cl_Secret c2 n)) (whole_secrets x ++ (secret_keys c1 x).*1);
  so_keys : Forall (fun r => same_key (cl_Secret c1 r.1) (cl_Secret c2 r.1) r.2) (secret_keys c1 x);
  so_maps : Forall (fun n => same_object (cl_ConfigMap c1 n) (cl_ConfigMap c2 n)) (config_maps x catalogs)
}.

(** Contents that did not change. *)
Definition unchanged (r1 r2 : result E data) : Prop := forall d1 d2, r1 = Ok d1 -> r2 = Ok d2 -> d1 = d2.
Definition unchanged_key (r1 r2 : result E data) (key : string) : Prop :=
  forall d1 d2, r1 = Ok d1 -> r2 = Ok d2 -> d1 !! key = d2 !! key.

(** What SHA-256 and the JSON encoder are known to return: 64 hexadecimal digits,
    and text without control characters. *)
Definition hex_output : Prop := forall s, String.length (sha256_hex s) = 64%nat /\ plain (sha256_hex s).
Definition json_output : Prop := forall t, plain (json_Marshal_template t).

Section hashing.
Context (Hhex : hex_output).

Lemma Sum12_plain es : plain (Sum12 es).
Proof. unfold Rollout.Sum12. apply all_bytes_take. by destruct (Hhex (digest_bytes es)). Qed.

Lemma Sum12_nonempty es : Sum12 es <> "".
Proof.
  unfold Rollout.Sum12. destruct (Hhex (digest_bytes es)) as [Hl _]. by destruct (sha256_hex (digest_bytes es)).
Qed.

Lemma DataDigest_plain d : plain (DataDigest d).
Proof. unfold Rollout.DataDigest. case_bool_decide; [done|]. apply Sum12_plain. Qed.

Section pair.
Context (inputs : list string) (Hc : no_collision inputs).

Lemma Sum12_inj es fs : digest_bytes es ∈ inputs -> digest_bytes fs ∈ inputs -> Sum12 es = Sum12 fs -> digest_bytes es = digest_bytes fs.
Proof.
  unfold no_collision in Hc. rewrite list.Forall_forall in Hc. intros He Hf.
  specialize (Hc _ He). rewrite list.Forall_forall in Hc. by apply Hc.
Qed.

Lemma DataDigest_inj d1 d2 : text_data d1 -> text_data d2 -> digest_bytes (data_entries d1) ∈ inputs ->
  digest_bytes (data_entries d2) ∈ inputs -> DataDigest d1 = DataDigest d2 -> d1 = d2.
Proof.
  intros Ht1 Ht2 Hi1 Hi2. unfold Rollout.DataDigest. repeat case_bool_decide; [congruence|..].
  - intros Hs. by apply eq_sym, Sum12_nonempty in Hs.
  - intros Hs. by apply Sum12_nonempty in Hs.
  - intros Hs%Sum12_inj; [|done..]. by apply data_entries_inj, plain_inj; [apply text_entries..|].
Qed.

(** Two runs of a step add comparable entries; equal ones mean [C]. *)
Definition covers (C : Prop) (es fs : list entry) : Prop := Forall2 comparable_entry es fs /\ (es = fs -> C).
Definition covers_result (C : Prop) (r1 r2 : result E (list entry)) : Prop :=
  forall es fs, r1 = Ok es -> r2 = Ok fs -> covers C es fs.
Definition covers_step (C : Prop) (s1 s2 : @step E) : Prop :=
  forall f es g fs, s1 = Ok (f, es) -> s2 = Ok (g, fs) -> f = g /\ (f = false -> es = fs) /\ covers C es fs.

Lemma covers_mono (C D : Prop) s1 s2 : (C -> D) -> covers_step C s1 s2 -> covers_step D s1 s2.
Proof. intros HCD Hs f es g fs H1 H2. destruct (Hs f es g fs H1 H2) as (? & ? & ? & ?). unfold covers. split_and!; auto. Qed.

Lemma covers_skip : covers_step True skip skip.
Proof. intros f es g fs [= <- <-] [= <- <-]. repeat split; constructor. Qed.

Lemma covers_added C r1 r2 : covers_result C r1 r2 -> covers_step C (added r1) (added r2).
Proof.
  intros Hr f es g fs. destruct r1 as [es'|e1]; [|done]. destruct r2 as [fs'|e2]; [|done].
  intros [= <- <-] [= <- <-]. split; [done|]. split; [done|]. by apply Hr.
Qed.

Lemma covers_named C k n r1 r2 : covers_result C r1 r2 -> covers_result C (named k n r1) (named k n r2).
Proof.
  intros Hr es fs. destruct r1 as [es'|e1]; [|done]. destruct r2 as [fs'|e2]; [|done].
  intros [= <-] [= <-]. destruct (Hr es' fs') as [Ha HC]; [done..|]. split.
  - constructor; [|done]. split; auto.
  - intros [= ->]. auto.
Qed.

Lemma covers_then C D a1 a2 b1 b2 :
  covers_step C a1 a2 -> covers_step D b1 b2 -> covers_step (C /\ D) (add_then a1 b1) (add_then a2 b2).
Proof.
  intros Ha Hb f es g fs. destruct a1 as [[fa ea]|]; [|done]. destruct a2 as [[ga ga']|]; [|done].
  destruct b1 as [[fb eb]|]; [|done]. destruct b2 as [[gb gb']|]; [|done]. intros [= <- <-] [= <- <-].
  destruct (Ha _ _ _ _ eq_refl eq_refl) as (-> & Ha0 & Haa & HC).
  destruct (Hb _ _ _ _ eq_refl eq_refl) as (-> & Hb0 & Hba & HD).
  split; [done|]. split; [intros [? ?]%orb_false_iff; by rewrite Ha0, Hb0|].
  split; [by apply Forall2_app|]. intros [Hea Heb]%app_inj_1; [auto|]. by eapply Forall2_length.
Qed.

Lemma covers_each {A} (C : A -> Prop) f1 f2 (l : list A) :
  Forall (fun a => covers_step (C a) (f1 a) (f2 a)) l -> covers_step (Forall C l) (add_each f1 l) (add_each f2 l).
Proof.
  induction 1 as [|a l Ha _ IH]; [apply (covers_mono True); [constructor|apply covers_skip]|].
  apply (covers_mono (C a /\ Forall C l)); [by intros [? ?]; constructor|]. by apply covers_then.
Qed.

(** ** One object *)

Definition input_data (r : result E data) : Prop := forall d, r = Ok d -> digest_bytes (data_entries d) ∈ inputs.

Lemma covers_hash (g1 g2 : string -> result E data) m n p :
  same_object (g1 n) (g2 n) -> input_data (g1 n) -> input_data (g2 n) ->
  covers_result (unchanged (g1 n) (g2 n)) (hashData sha256_hex g1 m n p) (hashData sha256_hex g2 m n p).
Proof.
  unfold hashData. intros Hs H1 H2 es fs. destruct (g1 n) as [d1|e1], (g2 n) as [d2|e2]; try done.
  - intros [= <-] [= <-]. destruct Hs. split.
    + constructor; [|constructor]. split; [done|]. right. split; apply DataDigest_plain.
    + intros [= Heq] ? ? [= <-] [= <-]. apply DataDigest_inj in Heq; auto.
  - destruct (IsNotFound e1); [|done]. destruct (IsNotFound e2); [|done]. intros [= <-] [= <-]. split; [constructor|done].
Qed.

Lemma covers_key c1 c2 p n k :
  same_object (cl_Secret c1 n) (cl_Secret c2 n) -> same_key (cl_Secret c1 n) (cl_Secret c2 n) k ->
  covers_result (unchanged_key (cl_Secret c1 n) (cl_Secret c2 n) k) (hashSecretKeyData c1 p n k) (hashSecretKeyData c2 p n k).
Proof.
  unfold hashSecretKeyData. intros Hs Hk es fs. destruct (cl_Secret c1 n) as [d1|e1], (cl_Secret c2 n) as [d2|e2]; try done.
  - intros [= <-] [= <-]. destruct Hs as [Ht1 Ht2]. simpl in Hk. split.
    + repeat (constructor; [split; auto|]).
      destruct (d1 !! k) as [v1|] eqn:H1, (d2 !! k) as [v2|] eqn:H2; [|naive_solver..|constructor].
      constructor; [|constructor]. split; [done|]. right. split; [by destruct (Ht1 _ _ H1)|by destruct (Ht2 _ _ H2)].
    + intros [= Heq] ? ? [= <-] [= <-]. destruct (d1 !! k), (d2 !! k); naive_solver.
  - destruct (IsNotFound e1); [|done]. destruct (IsNotFound e2); [|done]. intros [= <-] [= <-]. split; [|done].
    repeat (constructor; [split; auto|]). constructor.
Qed.

(** ** One runtime *)

Context (c1 c2 : cluster) (x : XTrinode) (catalogs : list string) (Hso : same_objects c1 c2 x catalogs).
Context (Hi1 : forall d, d ∈ data_read c1 x catalogs -> digest_bytes (data_entries d) ∈ inputs).
Context (Hi2 : forall d, d ∈ data_read c2 x catalogs -> digest_bytes (data_entries d) ∈ inputs).

Notation same_secret n := (unchanged (cl_Secret c1 n) (cl_Secret c2 n)).
Notation same_map n := (unchanged (cl_ConfigMap c1 n) (cl_ConfigMap c2 n)).
Notation same_value n k := (unchanged_key (cl_Secret c1 n) (cl_Secret c2 n) k).

Lemma secret_input c n : n ∈ whole_secrets x -> (forall d, d ∈ data_read c x catalogs -> digest_bytes (data_entries d) ∈ inputs) ->
  input_data (cl_Secret c n).
Proof.
  intros Hn Hi d Hd. apply Hi. apply elem_of_app. left. apply list_elem_of_bind. exists n. split; [|done]. rewrite Hd. by left.
Qed.

Lemma map_input c n : n ∈ config_maps x catalogs -> (forall d, d ∈ data_read c x catalogs -> digest_bytes (data_entries d) ∈ inputs) ->
  input_data (cl_ConfigMap c n).
Proof.
  intros Hn Hi d Hd. apply Hi. apply elem_of_app. right. apply list_elem_of_bind. exists n. split; [|done]. rewrite Hd. by left.
Qed.

Lemma covers_secret n p : n ∈ whole_secrets x ->
  covers_result (same_secret n) (hashSecretData sha256_hex c1 n p) (hashSecretData sha256_hex c2 n p).
Proof.
  intros Hn. apply covers_hash; [|by apply secret_input..].
  destruct Hso as [_ Hs _ _]. rewrite list.Forall_forall in Hs. apply Hs. set_solver.
Qed.

Lemma covers_map n p : n ∈ config_maps x catalogs ->
  covers_result (same_map n) (hashConfigMapData sha256_hex c1 n p) (hashConfigMapData sha256_hex c2 n p).
Proof.
  intros Hn. apply covers_hash; [|by apply map_input..].
  destruct Hso as [_ _ _ Hm]. rewrite list.Forall_forall in Hm. by apply Hm.
Qed.

Lemma covers_ref p n k : (n, k) ∈ secret_keys c1 x -> covers_result (same_value n k) (hashSecretKeyData c1 p n k) (hashSecretKeyData c2 p n k).
Proof.
  intros Hr. destruct Hso as [_ Hs Hk _]. rewrite list.Forall_forall in Hs. rewrite list.Forall_forall in Hk. apply covers_key.
  - apply Hs. apply elem_of_app. right. apply list_elem_of_fmap. by exists (n, k).
  - exact (Hk _ Hr).
Qed.

Lemma sortedUnique_elem n l : n ∈ sortedUniqueStrings l <-> n <> "" /\ n ∈ l.
Proof. unfold sortedUniqueStrings. by rewrite SortStrings_elem, elem_of_remove_dups, list_elem_of_filter. Qed.

Lemma covers_tls : covers_step (forall n, n ∈ tls_secrets (spec_TLS (xt_Spec x)) -> same_secret n)
  (addTLSSecretDigests sha256_hex c1 (spec_TLS (xt_Spec x))) (addTLSSecretDigests sha256_hex c2 (spec_TLS (xt_Spec x))).
Proof.
  unfold addTLSSecretDigests. destruct (spec_TLS (xt_Spec x)) as [tls|] eqn:Ht;
    [|apply (covers_mono True); [by intros _ n Hn%elem_of_nil|apply covers_skip]].
  eapply covers_mono; [|apply (covers_each (fun t : string * string * string => t.1.2 <> "" -> same_secret t.1.2))].
  - intros [Hs [Hi _]%list.Forall_cons]%list.Forall_cons n. simpl. unfold nonempty.
    repeat case_bool_decide; set_solver.
  - assert (forall n, n <> "" -> n ∈ [tls_ServerSecretClass tls; tls_InternalSecretClass tls] -> n ∈ whole_secrets x) as Hw.
    { intros n Hne Hn. apply elem_of_app. left. rewrite Ht. simpl. unfold nonempty. repeat case_bool_decide; set_solver. }
    repeat (constructor; [case_bool_decide; [by apply (covers_mono True); [|apply covers_skip]|]|]); [..|constructor];
      (eapply covers_mono; [|apply covers_added, covers_named, covers_secret, Hw; [done|set_solver]]); done.
Qed.

Lemma covers_pulls cfg : covers_step True (addImagePullSecretRefs cfg : @step E) (addImagePullSecretRefs cfg).
Proof.
  eapply covers_mono; [|apply (covers_each (fun _ => True))]; [done|]. apply list.Forall_forall. intros n _.
  apply covers_added. intros es fs [= <-] [= <-]. split; [|done]. constructor; [|constructor]. split; auto.
Qed.

Lemma covers_mounts : covers_step (forall n, n ∈ mount_secrets (spec_HelmChartConfig (xt_Spec x)) -> same_secret n)
  (addHelmSecretMountDigests sha256_hex c1 (spec_HelmChartConfig (xt_Spec x)))
  (addHelmSecretMountDigests sha256_hex c2 (spec_HelmChartConfig (xt_Spec x))).
Proof.
  unfold addHelmSecretMountDigests. destruct (spec_HelmChartConfig (xt_Spec x)) as [cfg|] eqn:Hcfg;
    [|apply (covers_mono True); [by intros _ n Hn%elem_of_nil|apply covers_skip]].
  eapply covers_mono; [|apply (covers_each (fun m : string * SecretMountSpec => same_secret (sm_SecretName m.2)))].
  - intros Hall n (m & -> & Hm)%list_elem_of_fmap. rewrite list.Forall_forall in Hall. exact (Hall m Hm).
  - apply list.Forall_forall. intros [p m] Hm. apply covers_added, covers_secret.
    apply elem_of_app. right. apply elem_of_app. left. rewrite Hcfg. apply list_elem_of_fmap. by exists (p, m).
Qed.

Lemma covers_auth : covers_step True (addAuthSecretDigests sha256_hex c1 (GetValuesOverlayMap (xt_Spec x)))
  (addAuthSecretDigests sha256_hex c2 (GetValuesOverlayMap (xt_Spec x))).
Proof.
  unfold addAuthSecretDigests. destruct (GetValuesOverlayMap (xt_Spec x)) as [m|] eqn:Hm; [|apply covers_skip]. cbn [mbind option_bind].
  destruct (as_object (json_get m "auth")) as [auth|] eqn:Ha; [|apply covers_skip].
  assert (forall key n, key ∈ ["passwordAuthSecret"; "groupsAuthSecret"] -> as_string (json_get auth key) = Some n -> n <> "" ->
    n ∈ whole_secrets x) as Hw.
  { intros key n Hkey Hn Hne. apply elem_of_app. right. apply elem_of_app. right. apply sortedUnique_elem. split; [done|].
    apply elem_of_app. right. rewrite Hm. apply elem_of_app. left. unfold authSecretReferences. rewrite Ha.
    assert (n ∈ string_ref (json_get auth key)).
    { destruct (json_get auth key); try done. injection Hn as ->. simpl. unfold nonempty. case_bool_decide; [done|by left]. }
    apply elem_of_app. rewrite !list_elem_of_In in Hkey. destruct Hkey as [<-|[<-|[]]]; auto. }
  eapply covers_mono; [|apply (covers_each (fun _ => True))]; [done|].
  apply list.Forall_forall. intros [key dk] Hin.
  assert (key ∈ ["passwordAuthSecret"; "groupsAuthSecret"]) as Hkey by set_solver.
  destruct (as_string (json_get auth key)) as [n|] eqn:Hn; [|apply covers_skip]. case_bool_decide; [apply covers_skip|].
  by eapply covers_mono; [|by apply covers_added, covers_named, covers_secret, (Hw key n)].
Qed.

Lemma covers_control : covers_step (forall n k, (n, k) ∈ control_keys x -> same_value n k)
  (addTrinoControlAuthSecretDigest c1 x) (addTrinoControlAuthSecretDigest c2 x).
Proof.
  unfold addTrinoControlAuthSecretDigest, control_keys.
  destruct (spec_TrinoControlAuth (xt_Spec x) ≫= ca_PasswordSecret) as [[n k]|] eqn:Hca;
    [|apply (covers_mono True); [by intros _ n k Hn%elem_of_nil|apply covers_skip]].
  eapply covers_mono; [|apply covers_added, covers_ref].
  - intros Hs n' k' [= -> ->]%list_elem_of_singleton. exact Hs.
  - apply elem_of_app. left. unfold control_keys. rewrite Hca. by left.
Qed.

Lemma covers_env : covers_step (forall n k, (n, k) ∈ env_keys x -> same_value n k)
  (addHelmEnvSecretDigests c1 (spec_HelmChartConfig (xt_Spec x))) (addHelmEnvSecretDigests c2 (spec_HelmChartConfig (xt_Spec x))).
Proof.
  unfold addHelmEnvSecretDigests.
  eapply covers_mono; [|apply (covers_each (fun e => forall n k, env_SecretKeyRef e = Some (n, k) -> n <> "" -> same_value n k))].
  - intros Hall n k [Hne (e & He & Hr)%list_elem_of_omap]%list_elem_of_filter. rewrite list.Forall_forall in Hall. by apply (Hall e He).
  - apply list.Forall_forall. intros e He. destruct (env_SecretKeyRef e) as [[n k]|] eqn:Hr;
      [|by apply (covers_mono True); [|apply covers_skip]].
    case_bool_decide as Hn; [apply (covers_mono True); [|apply covers_skip]; intros _ n' k' [= <- <-]; done|].
    eapply covers_mono; [|apply covers_added, covers_ref].
    + intros Hs n' k' [= <- <-] _. exact Hs.
    + apply elem_of_app. right. apply elem_of_app. left. apply list_elem_of_filter. split; [done|]. apply list_elem_of_omap. eauto.
Qed.

Lemma covers_mounted : covers_step ((forall n, n ∈ sortedUniqueStrings (externalConfigMapReferences x) -> same_map n) /\
    (forall n, n ∈ sortedUniqueStrings (externalSecretReferences x) -> same_secret n))
  (addMountedResourceDigests sha256_hex c1 x) (addMountedResourceDigests sha256_hex c2 x).
Proof.
  apply covers_then.
  - eapply covers_mono; [|apply (covers_each (fun n => same_map n))]; [by rewrite list.Forall_forall|].
    apply list.Forall_forall. intros n Hn. apply covers_added, covers_named, covers_map. apply elem_of_app. by left.
  - eapply covers_mono; [|apply (covers_each (fun n => same_secret n))]; [by rewrite list.Forall_forall|].
    apply list.Forall_forall. intros n Hn. apply covers_added, covers_named, covers_secret.
    apply elem_of_app. right. apply elem_of_app. by right.
Qed.

Lemma covers_catalog_env : covers_step (forall n k, (n, k) ∈ catalog_keys c1 -> same_value n k)
  (addCatalogSecretDigests c1) (addCatalogSecretDigests c2).
Proof.
  unfold addCatalogSecretDigests. rewrite <- (so_env _ _ _ _ Hso). destruct (cl_CatalogEnv c1) as [env|] eqn:He; [|done].
  eapply covers_mono; [|apply (covers_each (fun e => same_value (sk_Name (ev_SecretKeyRef e)) (sk_Key (ev_SecretKeyRef e))))].
  - intros Hall n k. unfold catalog_keys. rewrite He. intros (e & [= -> ->] & Hin)%list_elem_of_fmap.
    rewrite list.Forall_forall in Hall. apply (Hall e). by rewrite (sorting.merge_sort_Permutation env_le).
  - apply list.Forall_forall. intros e Hin. rewrite (sorting.merge_sort_Permutation env_le) in Hin. apply covers_added, covers_ref.
    apply elem_of_app. right. apply elem_of_app. right. unfold catalog_keys. rewrite He. apply list_elem_of_fmap. eauto.
Qed.

(** The Secrets and ConfigMaps of a runtime, in one step. *)
Lemma covers_secret_step : covers_step ((forall n, n ∈ whole_secrets x -> same_secret n) /\
    (forall n, n ∈ sortedUniqueStrings (externalConfigMapReferences x) -> same_map n) /\
    (forall n k, (n, k) ∈ secret_keys c1 x -> same_value n k))
  (secret_step c1 x) (secret_step c2 x).
Proof.
  eapply covers_mono; [|apply covers_then; [|apply covers_then; [apply covers_mounted|apply covers_catalog_env]]].
  2: { apply covers_then; [apply covers_tls|]. apply covers_then; [apply covers_pulls|].
       apply covers_then; [apply covers_mounts|]. apply covers_then; [apply covers_auth|].
       apply covers_then; [apply covers_control|apply covers_env]. }
  intros ((Htls & _ & Hm & _ & Hctl & Henv) & (Hcm & Hs) & Hcat). split; [|split; [done|]].
  - intros n [Hn|[Hn|Hn]%elem_of_app]%elem_of_app; auto.
  - intros n k [Hn|[Hn|Hn]%elem_of_app]%elem_of_app; auto.
Qed.

Lemma covers_catalogs l m1 m2 : l ⊆ catalogs -> catalog_maps c1 l = Ok m1 -> catalog_maps c2 l = Ok m2 ->
  m1.*1 = m2.*1 /\ covers (forall n, n ∈ l -> same_map (CatalogConfigMapPrefix +:+ n)) (list_entries sha256_hex m1) (list_entries sha256_hex m2).
Proof.
  revert m1 m2. induction l as [|n l IH]; intros m1 m2 Hsub.
  { intros [= <-] [= <-]. split; [done|]. split; [constructor|]. by intros _ n Hn%elem_of_nil. }
  assert (CatalogConfigMapPrefix +:+ n ∈ config_maps x catalogs) as Hn.
  { apply elem_of_app. right. apply list_elem_of_fmap. exists n. split; [done|]. set_solver. }
  pose proof (covers_map _ "digest" Hn) as Hone. cbn [catalog_maps]. unfold hashConfigMapData, hashData in Hone.
  pose proof (so_maps _ _ _ _ Hso) as Hm. rewrite list.Forall_forall in Hm. specialize (Hm _ Hn).
  destruct (cl_ConfigMap c1 _) as [d1|e1] eqn:H1, (cl_ConfigMap c2 _) as [d2|e2] eqn:H2; try done.
  - destruct (catalog_maps c1 l) as [k1|]; [|done]. destruct (catalog_maps c2 l) as [k2|]; [|done].
    intros [= <-] [= <-]. destruct (IH k1 k2) as [Hk [Hal Hc']]; [set_solver|done..|].
    destruct (Hone _ _ eq_refl eq_refl) as [Hd HC]. split; [by cbn; f_equal|]. split.
    + constructor; [split; auto|].
      change (Forall2 comparable_entry ([("digest", DataDigest d1)] ++ list_entries sha256_hex k1)
                ([("digest", DataDigest d2)] ++ list_entries sha256_hex k2)). by apply Forall2_app.
    + intros [= Hd' Hes] n' Hin. apply elem_of_cons in Hin as [->|Hin]; [|by apply Hc'].
      rewrite H1, H2. apply HC. by rewrite Hd'.
  - destruct (IsNotFound e1); [|done]. destruct (IsNotFound e2); [|done]. intros Hm1 Hm2.
    destruct (IH m1 m2) as [Hk [Hal Hc']]; [set_solver|done..|]. split; [done|]. split; [done|].
    intros Hes n' [->|Hin]%elem_of_cons; [|by apply Hc']. rewrite H1. by intros ? ?.
Qed.
End pair.

(** Everything the pods read stayed the same. *)
Definition all_unchanged (c1 c2 : cluster) (x : XTrinode) (catalogs : list string) : Prop :=
  (forall n, n ∈ whole_secrets x -> unchanged (cl_Secret c1 n) (cl_Secret c2 n)) /\
  (forall n, n ∈ config_maps x catalogs -> unchanged (cl_ConfigMap c1 n) (cl_ConfigMap c2 n)) /\
  (forall n k, (n, k) ∈ secret_keys c1 x -> unchanged_key (cl_Secret c1 n) (cl_Secret c2 n) k).

Lemma digest_bytes_hashed c x catalogs key t d : d ∈ data_read c x catalogs ->
  digest_bytes (data_entries d) ∈ hashed c x catalogs key t.
Proof. intros Hd. unfold hashed. rewrite !elem_of_app. do 3 right. apply list_elem_of_fmap. eauto. Qed.

Lemma list_digest_inj inputs m1 m2 : no_collision inputs -> digest_bytes (list_entries sha256_hex m1) ∈ inputs ->
  digest_bytes (list_entries sha256_hex m2) ∈ inputs -> m1.*1 = m2.*1 ->
  Forall2 comparable_entry (list_entries sha256_hex m1) (list_entries sha256_hex m2) ->
  ConfigMapListDigest sha256_hex m1 = ConfigMapListDigest sha256_hex m2 -> list_entries sha256_hex m1 = list_entries sha256_hex m2.
Proof.
  intros Hc H1 H2 Hm Ha. unfold ConfigMapListDigest. repeat case_bool_decide; simplify_eq; [done|..].
  - by destruct m2.
  - by destruct m1.
  - intros Hs%(Sum12_inj inputs); [|done..]. by apply aligned_inj.
Qed.

Lemma ConfigMapListDigest_plain cms : plain (ConfigMapListDigest sha256_hex cms).
Proof. unfold ConfigMapListDigest. case_bool_decide; [done|]. apply Sum12_plain. Qed.

(** One role. *)
Lemma role_covers c1 c2 x catalogs key t1 t2 d1 d2 : json_output -> same_objects c1 c2 x catalogs ->
  no_collision (hashed c1 x catalogs key t1 ++ hashed c2 x catalogs key t2) ->
  rolloutDigests c1 x catalogs = Ok d1 -> rolloutDigests c2 x catalogs = Ok d2 ->
  podRolloutHash sha256_hex json_Marshal_template t1 key true d1 = podRolloutHash sha256_hex json_Marshal_template t2 key true d2 ->
  json_Marshal_template (renderedTemplate t1) = json_Marshal_template (renderedTemplate t2) /\ all_unchanged c1 c2 x catalogs.
Proof.
  intros Hj Hso Hc Hd1 Hd2 Hh. set (inputs := hashed c1 x catalogs key t1 ++ hashed c2 x catalogs key t2) in *.
  assert (forall b, b ∈ hashed c1 x catalogs key t1 -> b ∈ inputs) as Hin1 by (intros; apply elem_of_app; by left).
  assert (forall b, b ∈ hashed c2 x catalogs key t2 -> b ∈ inputs) as Hin2 by (intros; apply elem_of_app; by right).
  apply (Sum12_inj inputs) in Hh; [|done|apply Hin1; unfold hashed; rewrite Hd1; by left|apply Hin2; unfold hashed; rewrite Hd2; by left].
  unfold Rollout.rolloutDigests, ComputeCatalogDigest, ComputeSecretDigest in Hd1, Hd2.
  destruct (catalog_maps c1 _) as [m1|] eqn:Hm1; [|done]. destruct (catalog_maps c2 _) as [m2|] eqn:Hm2; [|done].
  destruct (secret_step c1 x) as [[f1 e1]|] eqn:Hs1; [|done]. destruct (secret_step c2 x) as [[f2 e2]|] eqn:Hs2; [|done].
  injection Hd1 as <-. injection Hd2 as <-.
  destruct (covers_secret_step inputs Hc c1 c2 x catalogs Hso) with (f := f1) (es := e1) (g := f2) (fs := e2) as (<- & Hf & Ha & HC);
    [intros; apply Hin1; by apply digest_bytes_hashed|intros; apply Hin2; by apply digest_bytes_hashed|done..|].
  destruct (covers_catalogs inputs Hc c1 c2 x catalogs Hso) with (l := SortStrings catalogs) (m1 := m1) (m2 := m2) as (Hm & Hma & HMC);
    [intros; apply Hin1; by apply digest_bytes_hashed|intros; apply Hin2; by apply digest_bytes_hashed|
     intros n Hn; by apply (proj1 (SortStrings_elem _ _))|done..|].
  apply aligned_inj in Hh.
  2: { repeat (constructor; [split; [done|]; try (by left); right; split|]); try apply Hj; try apply ConfigMapListDigest_plain;
       [..|constructor]; destruct f1; try done; apply Sum12_plain. }
  injection Hh as Ht Hs Hcat. split; [done|].
  assert (e1 = e2) as Hes.
  { destruct f1; [|by apply Hf]. apply aligned_inj; [done|]. apply (Sum12_inj inputs); [done|apply Hin1|apply Hin2|done];
      unfold hashed; rewrite ?Hs1, ?Hs2, !elem_of_app; right; left; by left. }
  assert (list_entries sha256_hex m1 = list_entries sha256_hex m2) as Hms.
  { apply (list_digest_inj inputs); [done|apply Hin1|apply Hin2|done..];
      unfold hashed; rewrite ?Hm1, ?Hm2, !elem_of_app; do 2 right; left; by left. }
  destruct (HC Hes) as (Hw & Hx & Hk). split; [done|]. split; [|done].
  intros n [Hn|(n' & -> & Hn)%list_elem_of_fmap]%elem_of_app; [auto|]. apply HMC; [done|]. by apply SortStrings_elem.
Qed.
End hashing.

Lemma stamped_rendered (t : @PodTemplateSpec P) key hash : key ∈ [RevisionAnnotationKey; CoordinatorRolloutHashKey; WorkerRolloutHashKey] ->
  renderedTemplate (StampRolloutHash t key hash) = renderedTemplate t.
Proof.
  intros Hk. unfold renderedTemplate, StampRolloutHash. cbn. f_equal.
  assert (rendered_annotations (<[key := hash]> (default ∅ (pt_Annotations t))) = rendered_annotations (default ∅ (pt_Annotations t))) as ->.
  { unfold rendered_annotations.
    assert (delete WorkerRolloutHashKey (delete CoordinatorRolloutHashKey (delete RevisionAnnotationKey (<[key := hash]> (default ∅ (pt_Annotations t))))) =
            delete WorkerRolloutHashKey (delete CoordinatorRolloutHashKey (delete RevisionAnnotationKey (default ∅ (pt_Annotations t))))) as ->; [|done].
    apply map_eq. intros k. rewrite !lookup_delete. repeat case_decide; try done. rewrite lookup_insert_ne; [done|]. set_solver. }
  by destruct (pt_Annotations t).
Qed.

End sound.

(** ** An example *)

Definition digit_of (z : Z) : ascii := match String.get (Z.to_nat z) "0123456789abcdef" with Some c => c | None => "0"%char end.
Fixpoint digits_of (n : nat) (z : Z) : string :=
  match n with O => EmptyString | S n => String (digit_of (z mod 16)) (digits_of n (z / 16)) end.
Definition byte_sum (s : string) : Z := foldl (fun a b => (a * 257 + Z.of_nat (nat_of_ascii b) + 1) mod 16 ^ 12) 7 (list_ascii_of_string s).
Definition example_hash (s : string) : string := digits_of 64 (byte_sum s).

Lemma digit_plain z : not_nul (digit_of z) = true.
Proof. unfold digit_of. generalize (Z.to_nat z). intros n. do 16 (destruct n as [|n]; [done|]). done. Qed.

Lemma example_hash_output : hex_output example_hash.
Proof.
  intros s. unfold example_hash. generalize (byte_sum s). generalize 64%nat. intros n.
  induction n as [|n IH]; intros z; [done|]. destruct (IH (z / 16)) as [Hl Hp]. cbn [digits_of String.length all_bytes].
  by rewrite digit_plain, Hl.
Qed.

Definition tls_runtime : XTrinode :=
  mkXTrinode "x" "a" 1 0 0 None [] ∅ ∅
    (mkSpecFull "s" None None false None None None None None None None None None None None None "" None None None
       (Some (mkTLS "cert" "")) None None) (status_of_phase "").

Definition with_cert (cert : string) : @cluster kube_error :=
  mkCluster (fun n => if n ≡? "cert" then Ok {[ "tls.crt" := cert ]} else Err KNotFound)
    (fun n => if n ≡? "trino-catalog-sales" then Ok {[ "sales.properties" := "connector.name=tpch" ]} else Err KNotFound) (Ok []).


(** A NUL in a value makes different contents look the same. *)
Lemma nul_hides_a_key sha256_hex :
  DataDigest sha256_hex {[ "a" := "x" +:+ String NUL ("b" +:+ String NUL "y") ]} = DataDigest sha256_hex {[ "a" := "x"; "b" := "y" ]}.
Proof. vm_compute. reflexivity. Qed.
