(* ===== verification/ResourceSet.v ===== *)
(** * The objects of a runtime ([internal/trino/resources])

    The operator builds the set of Kubernetes objects a runtime needs, applies
    them in order, removes old revisions of its ConfigMaps and prunes what is no
    longer wanted; a deletion removes the set.  The cluster is the map of its
    objects; any call may fail.  How server-side apply merges an object is the API
    server's ([ssa]). *)

From S2P Require Import Prelude GoStrings GoTime XTrinodeTypes RuntimeShape ControlEndpoint Status Retry World Shutdown Operator Resume.

(** ** Objects *)

Inductive ObjectKind :=
| KDeployment | KService | KServiceAccount | KConfigMap | KSecret | KPodDisruptionBudget
| KIngress | KNetworkPolicy | KHorizontalPodAutoscaler | KServiceMonitor.

#[export] Instance ObjectKind_eq_dec : EqDecision ObjectKind.
Proof. solve_decision. Defined.
Definition kind_code (k : ObjectKind) : nat :=
  match k with
  | KDeployment => 0 | KService => 1 | KServiceAccount => 2 | KConfigMap => 3 | KSecret => 4 | KPodDisruptionBudget => 5
  | KIngress => 6 | KNetworkPolicy => 7 | KHorizontalPodAutoscaler => 8 | KServiceMonitor => 9
  end.
#[export] Instance ObjectKind_countable : Countable ObjectKind.
Proof.
  refine (inj_countable' kind_code (fun n => nth n [KDeployment; KService; KServiceAccount; KConfigMap; KSecret;
    KPodDisruptionBudget; KIngress; KNetworkPolicy; KHorizontalPodAutoscaler; KServiceMonitor] KDeployment) _).
  by intros [].
Defined.

Record OwnerReference := mkOwner { ow_APIVersion : string; ow_Kind : string; ow_Name : string; ow_UID : string }.

(** The replica count is that of a Deployment. *)
Record object := mkObject {
  ob_Kind : ObjectKind;
  ob_Namespace : string;
  ob_Name : string;
  ob_Labels : gmap string string;
  ob_Owners : list OwnerReference;
  ob_Created : Time;
  ob_Replicas : option Z;
  ob_Content : string
}.

#[export] Instance OwnerReference_eq_dec : EqDecision OwnerReference.
Proof. solve_decision. Defined.
#[export] Instance object_eq_dec : EqDecision object.
Proof. solve_decision. Defined.

Notation object_key := (ObjectKind * string * string)%type.
Definition key_of (o : object) : object_key := (ob_Kind o, ob_Namespace o, ob_Name o).

Record TrinoResourceSet := mkResourceSet {
  rs_CoordinatorDeployment : option object;
  rs_WorkerDeployment : option object;
  rs_CoordinatorService : option object;
  rs_WorkerService : option object;
  rs_CoordinatorMetricsService : option object;
  rs_WorkerMetricsService : option object;
  rs_Ingress : option object;
  rs_NetworkPolicy : option object;
  rs_HorizontalPodAutoscaler : option object;
  rs_CoordinatorServiceMonitor : option object;
  rs_WorkerServiceMonitor : option object;
  rs_CoordinatorConfigMap : option object;
  rs_WorkerConfigMap : option object;
  rs_CatalogConfigMap : option object;
  rs_ServiceAccount : option object;
  rs_SessionPropertyConfigMap : option object;
  rs_KafkaSchemasConfigMapCoord : option object;
  rs_KafkaSchemasConfigMapWorker : option object;
  rs_PasswordAuthSecret : option object;
  rs_GroupsAuthSecret : option object;
  rs_CoordinatorPDB : option object;
  rs_WorkerPDB : option object;
  rs_CoordinatorJMXExporterConfigMap : option object;
  rs_WorkerJMXExporterConfigMap : option object;
  rs_AccessControlConfigMapCoord : option object;
  rs_AccessControlConfigMapWorker : option object;
  rs_ResourceGroupsConfigMapCoord : option object;
  rs_ResourceGroupsConfigMapWorker : option object
}.

(** ** Names and labels *)

Definition AppNameLabel : string := "app.kubernetes.io/name".
Definition AppInstanceLabel : string := "app.kubernetes.io/instance".
Definition AppManagedByLabel : string := "app.kubernetes.io/managed-by".
Definition ManagedByValue : string := "xtrinode-operator".
Definition GroupVersion : string := "analytics.xtrinode.io/v1".
Definition MaxRevisionHistory : nat := 3.

Definition coordinatorConfigMapName (x : XTrinode) (revision : string) : string :=
  BuildCoordinatorServiceName (xt_Name x) +:+ "-coordinator-" +:+ revision.
Definition workerConfigMapName (x : XTrinode) (revision : string) : string :=
  BuildWorkerServiceName (xt_Name x) +:+ "-worker-" +:+ revision.
Definition workerDeploymentName (x : XTrinode) : string := "trino-" +:+ xt_Name x +:+ "-worker".
Definition workerServiceName (x : XTrinode) : string := BuildWorkerServiceName (xt_Name x).
Definition coordinatorMetricsServiceName (x : XTrinode) : string := ServiceNamePrefix +:+ xt_Name x +:+ "-metrics".
Definition workerMetricsServiceName (x : XTrinode) : string := ServiceNamePrefix +:+ xt_Name x +:+ "-worker-metrics".
Definition coordinatorPDBName (x : XTrinode) : string := xt_Name x +:+ "-coordinator-pdb".
Definition workerPDBName (x : XTrinode) : string := xt_Name x +:+ "-worker-pdb".
Definition ingressName (x : XTrinode) : string := BuildCoordinatorServiceName (xt_Name x).

Definition serviceAccountName (x : XTrinode) : string :=
  match spec_HelmChartConfig (xt_Spec x) ≫= hc_ServiceAccount with
  | Some sa => if sa_Name sa ≡? "" then "trino-" +:+ xt_Name x else sa_Name sa
  | None => "trino-" +:+ xt_Name x
  end.

Definition jmxExporterConfigMapName (x : XTrinode) (role : string) : string :=
  match spec_KEDA (xt_Spec x) ≫= keda_JMXExporter with
  | Some jmx => if jmx_ConfigMap jmx ≡? "" then "trino-" +:+ xt_Name x +:+ "-jmx-exporter-config-" +:+ role else jmx_ConfigMap jmx
  | None => "trino-" +:+ xt_Name x +:+ "-jmx-exporter-config-" +:+ role
  end.

(** At most 63 characters, without trailing dashes. *)
Definition trim_name (name : string) : string :=
  TrimRightFunc (fun c => c ≡? "-"%char) (if 63 <? Z.of_nat (String.length name) then str_take 63 name else name).

Definition overlay_auth (x : XTrinode) (key : string) : option string :=
  match GetValuesOverlayMap (xt_Spec x) with
  | Some values =>
      match json_get values "auth" with
      | JObject auth => match json_get auth key with JString s => if s ≡? "" then None else Some s | _ => None end
      | _ => None
      end
  | None => None
  end.

Definition passwordSecretName (x : XTrinode) : string :=
  match overlay_auth x "passwordAuthSecret" with
  | Some name => trim_name name
  | None => trim_name ("trino-" +:+ xt_Name x +:+ "-password-file")
  end.

Definition groupsSecretName (x : XTrinode) : string :=
  match overlay_auth x "groupsAuthSecret" with
  | Some name => name
  | None => trim_name ("trino-" +:+ xt_Name x +:+ "-groups-file")
  end.

(** ** Autoscaling

    The package parses an overlay number through [int64]. *)

Definition float_int64 (mantissa exponent : Z) : Z :=
  let t := float_trunc mantissa exponent in
  if (int64_min <=? t) && (t <=? int64_max) then t else int64_min.
Definition resources_ParseInt32 (val : json) : option Z :=
  match val with JNumber m e => Some (wrap32 (float_int64 m e)) | _ => None end.
Definition resources_target (val : json) (dflt : Z) : Z :=
  match resources_ParseInt32 val with
  | Some parsed => parsed
  | None => match val with JString s => if s ≡? "" then 0 else dflt | _ => dflt end
  end.

Definition resources_isNativeHPAEnabled (x : XTrinode) : bool :=
  match GetValuesOverlayMap (xt_Spec x) with
  | None => false
  | Some values =>
      match json_get values "server" with
      | JObject server =>
          match json_get server "autoscaling" with
          | JObject autoscaling =>
              match json_get autoscaling "enabled" with
              | JBool true =>
                  (0 <? resources_target (json_get autoscaling "targetCPUUtilizationPercentage") DefaultHPACPUTargetPercentage) ||
                  (0 <? resources_target (json_get autoscaling "targetMemoryUtilizationPercentage") DefaultHPAMemoryTargetPercentage)
              | _ => false
              end
          | _ => false
          end
      | _ => false
      end
  end.

(** The package's [isKEDAEnabled] reads as that of the controllers. *)
Definition autoscalingEnabled (x : XTrinode) : bool := controllers_isKEDAEnabled x || resources_isNativeHPAEnabled x.

(** ** The cluster *)

Section lifecycle.
Context {E : Type} `{KubeErrors E, !ErrorKinds E}.
(** The error of a missing object; [meta.IsNoMatchError]. *)
Context (not_found : E) (IsNoMatchError : E -> bool).
(** Server-side apply: the stored object, and what is applied to it. *)
Context (ssa : option object -> object -> object).

(** The objects, and for each coming call whether it fails. *)
Record kube := mkKube { objects : gmap object_key object; faults : list (option E) }.

Definition next_fault (s : kube) : option E * kube :=
  match faults s with [] => (None, s) | f :: fs => (f, mkKube (objects s) fs) end.
Definition set_objects (m : gmap object_key object) (s : kube) : kube := mkKube m (faults s).

Definition k_Apply (o : object) : kube -> option E * kube := fun s =>
  let '(f, s) := next_fault s in
  match f with
  | Some e => (Some e, s)
  | None => (None, set_objects (<[key_of o := ssa (objects s !! key_of o) o]> (objects s)) s)
  end.

Definition k_Get (k : object_key) : kube -> result E object * kube := fun s =>
  let '(f, s) := next_fault s in
  match f with
  | Some e => (Err e, s)
  | None => (match objects s !! k with Some o => Ok o | None => Err not_found end, s)
  end.

Definition k_List (namespace : string) (selector : gmap string string) : kube -> result E (list object) * kube := fun s =>
  let '(f, s) := next_fault s in
  match f with
  | Some e => (Err e, s)
  | None => (Ok (filter (fun o => ob_Kind o = KConfigMap /\ ob_Namespace o = namespace /\ selector ⊆ ob_Labels o)
                   (snd <$> map_to_list (objects s))), s)
  end.

Definition k_Delete (k : object_key) : kube -> option E * kube := fun s =>
  let '(f, s) := next_fault s in
  match f with
  | Some e => (Some e, s)
  | None => match objects s !! k with
            | Some _ => (None, set_objects (delete k (objects s)) s)
            | None => (Some not_found, s)
            end
  end.

(** Steps one after the other, up to the first error. *)
Fixpoint steps (l : list (kube -> option E * kube)) : kube -> option E * kube := fun s =>
  match l with
  | [] => (None, s)
  | f :: l => match f s with (Some e, s) => (Some e, s) | (None, s) => steps l s end
  end.

(** [if err := ...; err != nil { return fmt.Errorf(...) }] *)
Definition or_fail (message : string) (f : kube -> option E * kube) : kube -> option E * kube := fun s =>
  let '(err, s) := f s in (Errorf message <$> err, s).

(** ** Applying *)

Definition no_such_kind (e : E) : bool := IsNoMatchError e || Contains (error_text e) "no matches for kind".

Definition applyOptionalCRDObject (o : object) : kube -> option E * kube := fun s =>
  let '(err, s) := k_Apply o s in
  (match err with Some e => if no_such_kind e then None else Some e | None => None end, s).

Definition apply_slot (name : string) (o : option object) : kube -> option E * kube :=
  match o with
  | Some o => or_fail ("failed to apply " +:+ name +:+ ": ") (k_Apply o)
  | None => fun s => (None, s)
  end.
Definition apply_optional_slot (name : string) (o : option object) : kube -> option E * kube :=
  match o with
  | Some o => or_fail ("failed to apply " +:+ name +:+ ": ") (applyOptionalCRDObject o)
  | None => fun s => (None, s)
  end.

(** The autoscaler owns the replicas of the workers. *)
Definition without_replicas (o : object) : object :=
  mkObject (ob_Kind o) (ob_Namespace o) (ob_Name o) (ob_Labels o) (ob_Owners o) (ob_Created o) None (ob_Content o).
Definition applied_worker (x : XTrinode) (r : TrinoResourceSet) : option object :=
  (if autoscalingEnabled x then without_replicas else id) <$> rs_WorkerDeployment r.

Definition slots_before (r : TrinoResourceSet) : list (string * option object) :=
 [("ServiceAccount", rs_ServiceAccount r); ("CoordinatorConfigMap", rs_CoordinatorConfigMap r);
   ("WorkerConfigMap", rs_WorkerConfigMap r); ("CatalogConfigMap", rs_CatalogConfigMap r);
   ("SessionPropertyConfigMap", rs_SessionPropertyConfigMap r); ("KafkaSchemasConfigMapCoord", rs_KafkaSchemasConfigMapCoord r);
   ("KafkaSchemasConfigMapWorker", rs_KafkaSchemasConfigMapWorker r);
   ("CoordinatorJMXExporterConfigMap", rs_CoordinatorJMXExporterConfigMap r);
   ("WorkerJMXExporterConfigMap", rs_WorkerJMXExporterConfigMap r);
   ("AccessControlConfigMapCoord", rs_AccessControlConfigMapCoord r);
   ("AccessControlConfigMapWorker", rs_AccessControlConfigMapWorker r);
   ("ResourceGroupsConfigMapCoord", rs_ResourceGroupsConfigMapCoord r);
   ("ResourceGroupsConfigMapWorker", rs_ResourceGroupsConfigMapWorker r); ("PasswordAuthSecret", rs_PasswordAuthSecret r);
   ("GroupsAuthSecret", rs_GroupsAuthSecret r); ("CoordinatorService", rs_CoordinatorService r);
   ("WorkerService", rs_WorkerService r); ("CoordinatorMetricsService", rs_CoordinatorMetricsService r);
   ("WorkerMetricsService", rs_WorkerMetricsService r)].
Definition slots_deployments (x : XTrinode) (r : TrinoResourceSet) : list (string * option object) :=
 [("CoordinatorDeployment", rs_CoordinatorDeployment r); ("WorkerDeployment", applied_worker x r)].
Definition slots_after (r : TrinoResourceSet) : list (string * option object) :=
 [("CoordinatorPDB", rs_CoordinatorPDB r); ("WorkerPDB", rs_WorkerPDB r); ("Ingress", rs_Ingress r);
   ("NetworkPolicy", rs_NetworkPolicy r); ("HorizontalPodAutoscaler", rs_HorizontalPodAutoscaler r)].
Definition slots_optional (r : TrinoResourceSet) : list (string * option object) :=
 [("CoordinatorServiceMonitor", rs_CoordinatorServiceMonitor r); ("WorkerServiceMonitor", rs_WorkerServiceMonitor r)].

Definition AllResources (r : TrinoResourceSet) : list object :=
 omap id
 [rs_ServiceAccount r; rs_CoordinatorConfigMap r; rs_WorkerConfigMap r; rs_CatalogConfigMap r; rs_SessionPropertyConfigMap r;
   rs_KafkaSchemasConfigMapCoord r; rs_KafkaSchemasConfigMapWorker r; rs_PasswordAuthSecret r; rs_GroupsAuthSecret r;
   rs_CoordinatorService r; rs_WorkerService r; rs_CoordinatorMetricsService r; rs_WorkerMetricsService r; rs_Ingress r;
   rs_NetworkPolicy r; rs_HorizontalPodAutoscaler r; rs_CoordinatorServiceMonitor r; rs_WorkerServiceMonitor r;
   rs_CoordinatorDeployment r; rs_WorkerDeployment r; rs_CoordinatorPDB r; rs_WorkerPDB r; rs_CoordinatorJMXExporterConfigMap r;
   rs_WorkerJMXExporterConfigMap r; rs_AccessControlConfigMapCoord r; rs_AccessControlConfigMapWorker r;
   rs_ResourceGroupsConfigMapCoord r; rs_ResourceGroupsConfigMapWorker r].

(** ** Old revisions *)

Definition revision_labels (x : XTrinode) : gmap string string :=
  {[ AppNameLabel := "trino"; AppInstanceLabel := xt_Name x; AppManagedByLabel := ManagedByValue ]}.

(** ConfigMaps of a role that are not its current revision. *)
Definition old_revision (prefix current : string) (o : object) : bool :=
  HasPrefix (ob_Name o) prefix &&
  negb (TrimPrefix (ob_Name o) prefix ≡? "") && negb (TrimPrefix (ob_Name o) prefix ≡? current).

Definition older (a b : object) : Prop := ob_Created a <= ob_Created b.
#[export] Instance older_dec : RelDecision older.
Proof. intros a b. unfold older. apply _. Defined.
#[export] Instance older_trans : Transitive older.
Proof. unfold older. intros a b d. lia. Qed.
#[export] Instance older_total : Total older.
Proof. unfold older. intros a b. lia. Qed.

Definition delete_revision (o : object) : kube -> option E * kube := fun s =>
  let '(err, s) := k_Delete (key_of o) s in
  (match err with
   | Some e => if IsNotFound e then None else Some (Errorf ("failed to delete old ConfigMap " +:+ ob_Name o +:+ ": ") e)
   | None => None
   end, s).

Definition cleanupOldRevisions (revisions : list object) (keepCount : nat) : kube -> option E * kube :=
  steps (delete_revision <$> take (length revisions - keepCount) (sorting.merge_sort older revisions)).

Definition CleanupOldConfigMapRevisionsForRoles (x : XTrinode) (currentCoordinatorRevision currentWorkerRevision : string)
  : kube -> option E * kube := fun s =>
  let '(listed, s) := k_List (xt_Namespace x) (revision_labels x) s in
  match listed with
  | Err e => (Some (Errorf "failed to list ConfigMaps: " e), s)
  | Ok items =>
      let coordinatorPrefix := coordinatorConfigMapName x "" in
      let workerPrefix := workerConfigMapName x "" in
      let coordinatorCMs := filter (fun o => old_revision coordinatorPrefix currentCoordinatorRevision o = true) items in
      let workerCMs := filter (fun o => HasPrefix (ob_Name o) coordinatorPrefix = false /\
                                 old_revision workerPrefix currentWorkerRevision o = true) items in
      steps [or_fail "failed to cleanup coordinator ConfigMaps: " (cleanupOldRevisions coordinatorCMs MaxRevisionHistory);
             or_fail "failed to cleanup worker ConfigMaps: " (cleanupOldRevisions workerCMs MaxRevisionHistory)] s
  end.

Definition configMapRevisionFromName (x : XTrinode) (role name : string) : string :=
  let revision prefix := if HasPrefix name prefix then TrimPrefix name prefix else "" in
  if role ≡? "coordinator" then revision (coordinatorConfigMapName x "") else
  if role ≡? "worker" then revision (workerConfigMapName x "") else "".

(** ** Pruning *)

Definition isOwnedByXTrinode (x : XTrinode) (uid : string) (o : object) : bool :=
  match find (fun ow => (ow_APIVersion ow ≡? GroupVersion) && (ow_Kind ow ≡? "XTrinode") && (ow_Name ow ≡? xt_Name x)) (ob_Owners o) with
  | Some ow => (uid ≡? "") || (ow_UID ow ≡? uid)
  | None => false
  end.

Definition unknown_kind (e : E) : bool :=
  IsNotFound e || IsNoMatchError e || Contains (error_text e) "no kind is registered".

Definition delete_stale (message : string) (k : object_key) : kube -> option E * kube := fun s =>
  let '(err, s) := k_Delete k s in
  (match err with Some e => if IsNotFound e then None else Some (Errorf message e) | None => None end, s).

Definition deleteOwnedObjectIfPresent (x : XTrinode) (uid : string) (k : object_key) : kube -> option E * kube := fun s =>
  let '(got, s) := k_Get k s in
  match got with
  | Err e => (if unknown_kind e then None else Some (Errorf "failed to get stale resource: " e), s)
  | Ok o => if isOwnedByXTrinode x uid o then delete_stale "failed to delete stale resource: " k s else (None, s)
  end.

Definition deleteOwnedConfigMapsWithPrefix (x : XTrinode) (uid prefix : string) : kube -> option E * kube := fun s =>
  let '(listed, s) := k_List (xt_Namespace x) ∅ s in
  match listed with
  | Err e => (Some (Errorf "failed to list ConfigMaps for pruning: " e), s)
  | Ok items =>
      steps ((fun o => delete_stale "failed to delete stale ConfigMap: " (key_of o)) <$>
             filter (fun o => HasPrefix (ob_Name o) prefix = true /\ isOwnedByXTrinode x uid o = true) items) s
  end.

Definition named (x : XTrinode) (k : ObjectKind) (name : string) : object_key := (k, xt_Namespace x, name).
Definition suffixed (x : XTrinode) (suffix : string) : string := "trino-" +:+ xt_Name x +:+ suffix.
Definition worker_monitor_name (x : XTrinode) : string := BuildCoordinatorServiceName (xt_Name x) +:+ "-worker".

Definition worker_stack (x : XTrinode) : list object_key :=
  [named x KDeployment (workerDeploymentName x); named x KService (workerServiceName x);
   named x KService (workerMetricsServiceName x); named x KPodDisruptionBudget (workerPDBName x);
   named x KConfigMap (suffixed x "-schemas-volume-worker"); named x KConfigMap (jmxExporterConfigMapName x "worker");
   named x KConfigMap (suffixed x "-access-control-volume-worker"); named x KConfigMap (suffixed x "-resource-groups-volume-worker");
   named x KServiceMonitor (worker_monitor_name x)].

Definition pruneWorkerStack (x : XTrinode) (uid : string) : kube -> option E * kube :=
  steps ((deleteOwnedObjectIfPresent x uid <$> worker_stack x) ++
         [deleteOwnedConfigMapsWithPrefix x uid (suffixed x "-worker-")]).

(** What is pruned when a slot is empty. *)
Definition stale_of (o : option object) (k : object_key) : list object_key := match o with Some _ => [] | None => [k] end.

Definition staleObjects (x : XTrinode) (r : TrinoResourceSet) : list object_key :=
  stale_of (rs_ServiceAccount r) (named x KServiceAccount (serviceAccountName x)) ++
  stale_of (rs_CoordinatorMetricsService r) (named x KService (coordinatorMetricsServiceName x)) ++
  stale_of (rs_WorkerMetricsService r) (named x KService (workerMetricsServiceName x)) ++
  stale_of (rs_SessionPropertyConfigMap r) (named x KConfigMap (suffixed x "-session-property-config")) ++
  stale_of (rs_PasswordAuthSecret r) (named x KSecret (passwordSecretName x)) ++
  stale_of (rs_GroupsAuthSecret r) (named x KSecret (groupsSecretName x)) ++
  stale_of (rs_CoordinatorPDB r) (named x KPodDisruptionBudget (coordinatorPDBName x)) ++
  stale_of (rs_WorkerPDB r) (named x KPodDisruptionBudget (workerPDBName x)) ++
  stale_of (rs_Ingress r) (named x KIngress (ingressName x)) ++
  stale_of (rs_NetworkPolicy r) (named x KNetworkPolicy (BuildCoordinatorServiceName (xt_Name x))) ++
  stale_of (rs_HorizontalPodAutoscaler r) (named x KHorizontalPodAutoscaler (BuildWorkerServiceName (xt_Name x))) ++
  stale_of (rs_CoordinatorJMXExporterConfigMap r) (named x KConfigMap (jmxExporterConfigMapName x "coordinator")) ++
  stale_of (rs_WorkerJMXExporterConfigMap r) (named x KConfigMap (jmxExporterConfigMapName x "worker")) ++
  stale_of (rs_AccessControlConfigMapCoord r) (named x KConfigMap (suffixed x "-access-control-volume-coordinator")) ++
  stale_of (rs_AccessControlConfigMapWorker r) (named x KConfigMap (suffixed x "-access-control-volume-worker")) ++
  stale_of (rs_ResourceGroupsConfigMapCoord r) (named x KConfigMap (suffixed x "-resource-groups-volume-coordinator")) ++
  stale_of (rs_ResourceGroupsConfigMapWorker r) (named x KConfigMap (suffixed x "-resource-groups-volume-worker")).

Definition stale_monitors (x : XTrinode) (r : TrinoResourceSet) : list object_key :=
  stale_of (rs_CoordinatorServiceMonitor r) (named x KServiceMonitor (BuildCoordinatorServiceName (xt_Name x))) ++
  stale_of (rs_WorkerServiceMonitor r) (named x KServiceMonitor (worker_monitor_name x)).

Definition pruneDisabledTrinoResources (x : XTrinode) (uid : string) (r : TrinoResourceSet) : kube -> option E * kube :=
  steps ((match rs_WorkerDeployment r with None => [pruneWorkerStack x uid] | Some _ => [] end) ++
         (deleteOwnedObjectIfPresent x uid <$> staleObjects x r) ++
         (deleteOwnedObjectIfPresent x uid <$> stale_monitors x r)).

(** A failed cleanup of revisions is only logged. *)
Definition cleanup_revisions (x : XTrinode) (r : TrinoResourceSet) : kube -> option E * kube := fun s =>
  let revision role (o : option object) := match o with Some o => configMapRevisionFromName x role (ob_Name o) | None => "" end in
  let coordinator := revision "coordinator" (rs_CoordinatorConfigMap r) in
  let worker := revision "worker" (rs_WorkerConfigMap r) in
  if (coordinator ≡? "") && (worker ≡? "") then (None, s)
  else (None, (CleanupOldConfigMapRevisionsForRoles x coordinator worker s).2).

Definition ApplyTrinoResources (x : XTrinode) (uid : string) (r : TrinoResourceSet) : kube -> option E * kube :=
  steps ((uncurry apply_slot <$> slots_before r ++ slots_deployments x r ++ slots_after r) ++
         (uncurry apply_optional_slot <$> slots_optional r) ++
         [cleanup_revisions x r;
          or_fail "failed to prune disabled Trino resources: " (pruneDisabledTrinoResources x uid r)]).

(** ** Deleting *)

Definition delete_slot (optional : bool) (name : string) (o : option object) : kube -> option E * kube := fun s =>
  match o with
  | None => (None, s)
  | Some o =>
      let '(err, s) := k_Delete (key_of o) s in
      (match err with
       | Some e => if IsNotFound e || (optional && no_such_kind e) then None
                   else Some (Errorf ("failed to delete " +:+ name +:+ ": ") e)
       | None => None
       end, s)
  end.

Definition delete_slots (r : TrinoResourceSet) : list (string * option object) :=
 [("WorkerDeployment", rs_WorkerDeployment r); ("CoordinatorDeployment", rs_CoordinatorDeployment r);
   ("WorkerMetricsService", rs_WorkerMetricsService r); ("CoordinatorMetricsService", rs_CoordinatorMetricsService r);
   ("WorkerService", rs_WorkerService r); ("CoordinatorService", rs_CoordinatorService r);
   ("CatalogConfigMap", rs_CatalogConfigMap r); ("WorkerConfigMap", rs_WorkerConfigMap r);
   ("CoordinatorConfigMap", rs_CoordinatorConfigMap r); ("ServiceAccount", rs_ServiceAccount r);
   ("SessionPropertyConfigMap", rs_SessionPropertyConfigMap r); ("KafkaSchemasConfigMapCoord", rs_KafkaSchemasConfigMapCoord r);
   ("KafkaSchemasConfigMapWorker", rs_KafkaSchemasConfigMapWorker r);
   ("CoordinatorJMXExporterConfigMap", rs_CoordinatorJMXExporterConfigMap r);
   ("WorkerJMXExporterConfigMap", rs_WorkerJMXExporterConfigMap r);
   ("AccessControlConfigMapCoord", rs_AccessControlConfigMapCoord r);
   ("AccessControlConfigMapWorker", rs_AccessControlConfigMapWorker r);
   ("ResourceGroupsConfigMapCoord", rs_ResourceGroupsConfigMapCoord r);
   ("ResourceGroupsConfigMapWorker", rs_ResourceGroupsConfigMapWorker r); ("PasswordAuthSecret", rs_PasswordAuthSecret r);
   ("GroupsAuthSecret", rs_GroupsAuthSecret r); ("Ingress", rs_Ingress r); ("NetworkPolicy", rs_NetworkPolicy r);
   ("HorizontalPodAutoscaler", rs_HorizontalPodAutoscaler r)].
Definition delete_last_slots (r : TrinoResourceSet) : list (string * option object) :=
 [("WorkerPDB", rs_WorkerPDB r); ("CoordinatorPDB", rs_CoordinatorPDB r)].

Definition DeleteTrinoResources (r : TrinoResourceSet) : kube -> option E * kube :=
  steps ((uncurry (delete_slot false) <$> delete_slots r) ++ (uncurry (delete_slot true) <$> slots_optional r) ++
         (uncurry (delete_slot false) <$> delete_last_slots r)).
End lifecycle.
