(* ===== verification/ResourceSound.v ===== *)
(** * What applying and deleting the objects of a runtime does

    Applying touches only objects of the set, objects the runtime owns and its old
    ConfigMap revisions; afterwards the set is there and nothing stale is left.
    Deleting removes the set and nothing else. *)

From S2P Require Import Prelude GoStrings GoTime XTrinodeTypes RuntimeShape ControlEndpoint Status Retry World Shutdown Operator Resume ResourceSet.

(** Steps that succeed. *)
Lemma steps_app {E} l1 l2 (s : @kube E) s' : steps (l1 ++ l2) s = (None, s') <-> exists s1, steps l1 s = (None, s1) /\ steps l2 s1 = (None, s').
Proof.
  revert s. induction l1 as [|f l1 IH]; intros s; simpl; [naive_solver|]. destruct (f s) as [[e|] s1]; [naive_solver|]. apply IH.
Qed.

Lemma steps_cons {E} f l (s : @kube E) s' : steps (f :: l) s = (None, s') <-> exists s1, f s = (None, s1) /\ steps l s1 = (None, s').
Proof. simpl. destruct (f s) as [[e|] s1]; naive_solver. Qed.

Section sound.
Context {E : Type} `{KubeErrors E, !ErrorKinds E}.
Context (not_found : E) (IsNoMatchError : E -> bool) (ssa : option object -> object -> object).
(** Server-side apply keeps kind, namespace and name. *)
Context (Hssa : forall old o, key_of (ssa old o) = key_of o).
(** What failed calls may answer. *)
Context (answers : option E -> Prop).

Notation kube := (@kube E).
Notation op := (kube -> option E * kube).

(** Objects are stored under their own key. *)
Definition wf (s : kube) : Prop := map_Forall (fun k o => key_of o = k) (objects s) /\ Forall answers (faults s).

(** [f] keeps an object stored under [k] that satisfies [Q]. *)
Definition keeps (Q : object -> Prop) (k : object_key) (f : op) : Prop :=
  forall s, wf s -> wf (f s).2 /\ forall o, Q o -> objects s !! k = Some o -> objects (f s).2 !! k = Some o.

Section one_key.
Context (Q : object -> Prop) (k : object_key).

Lemma keeps_answered err : keeps Q k (fun s => (err, s)).
Proof. by intros s Hs. Qed.

Lemma keeps_steps l : Forall (keeps Q k) l -> keeps Q k (steps l).
Proof.
  induction 1 as [|f l Hf _ IH]; [apply keeps_answered|]. intros s Hs. simpl. destruct (Hf s Hs) as [Hw Hk].
  destruct (f s) as [[e|] s1]; [done|]. simpl in *. destruct (IH s1 Hw) as [Hw' Hk']. split; [done|]. auto.
Qed.

Lemma keeps_or_fail message f : keeps Q k f -> keeps Q k (or_fail message f).
Proof. intros Hf s Hs. unfold or_fail. specialize (Hf s Hs). by destruct (f s). Qed.

(** Changing what an operation answers. *)
Lemma keeps_answer (f g : op) : (forall s, (g s).2 = (f s).2) -> keeps Q k f -> keeps Q k g.
Proof. intros Hg Hf s Hs. rewrite Hg. by apply Hf. Qed.

Lemma wf_next s : wf s -> wf (next_fault s).2 /\ objects (next_fault s).2 = objects s.
Proof.
  intros [Hm Hf]. unfold next_fault, wf. destruct (faults s) as [|f fs] eqn:Hfs; simpl.
  - by rewrite Hfs.
  - apply list.Forall_cons in Hf as [_ Hf]. done.
Qed.

Lemma keeps_Apply o : key_of o <> k -> keeps Q k (k_Apply ssa o).
Proof.
  intros Hne s Hs. unfold k_Apply. destruct (wf_next s Hs) as [Hw Ho]. destruct (next_fault s) as [[e|] s1]; simpl in *.
  - by rewrite Ho.
  - split.
    + destruct Hw as [Hm Hf]. split; [|done]. apply map_Forall_insert_2; [apply Hssa|done].
    + intros o' _ Hk. simpl. rewrite lookup_insert_ne by done. by rewrite Ho.
Qed.

Lemma keeps_Delete k' : k' <> k -> keeps Q k (k_Delete not_found k').
Proof.
  intros Hne s Hs. unfold k_Delete. destruct (wf_next s Hs) as [Hw Ho]. destruct (next_fault s) as [[e|] s1]; simpl in *.
  - by rewrite Ho.
  - destruct (objects s1 !! k'); simpl; [|by rewrite Ho]. split.
    + destruct Hw as [Hm Hf]. split; [|done]. by apply map_Forall_delete.
    + intros o' _ Hk. rewrite lookup_delete_ne by done. by rewrite Ho.
Qed.

Lemma keeps_delete_stale message k' : k' <> k -> keeps Q k (delete_stale not_found message k').
Proof.
  intros Hne. apply (keeps_answer (k_Delete not_found k')); [|by apply keeps_Delete].
  intros s. unfold delete_stale. by destruct (k_Delete not_found k' s).
Qed.

Lemma keeps_delete_revision o : key_of o <> k -> keeps Q k (delete_revision not_found o).
Proof.
  intros Hne. apply (keeps_answer (k_Delete not_found (key_of o))); [|by apply keeps_Delete].
  intros s. unfold delete_revision. by destruct (k_Delete not_found (key_of o) s).
Qed.

Lemma keeps_delete_slot optional name o : (forall o', o = Some o' -> key_of o' <> k) ->
  keeps Q k (delete_slot not_found IsNoMatchError optional name o).
Proof.
  intros Hne. destruct o as [o|]; [|apply keeps_answered].
  apply (keeps_answer (k_Delete not_found (key_of o))); [|by apply keeps_Delete, Hne].
  intros s. unfold delete_slot. by destruct (k_Delete not_found (key_of o) s).
Qed.

Lemma keeps_apply_slot name o : (forall o', o = Some o' -> key_of o' <> k) -> keeps Q k (apply_slot ssa name o).
Proof. intros Hne. destruct o as [o|]; [|apply keeps_answered]. by apply keeps_or_fail, keeps_Apply, Hne. Qed.

Lemma keeps_apply_optional_slot name o : (forall o', o = Some o' -> key_of o' <> k) ->
  keeps Q k (apply_optional_slot IsNoMatchError ssa name o).
Proof.
  intros Hne. destruct o as [o|]; [|apply keeps_answered]. apply keeps_or_fail.
  apply (keeps_answer (k_Apply ssa o)); [|by apply keeps_Apply, Hne].
  intros s. unfold applyOptionalCRDObject. by destruct (k_Apply ssa o s).
Qed.

(** Objects of a list are stored under their keys. *)
Lemma List_spec namespace selector s items : wf s -> (k_List namespace selector s).1 = Ok items ->
  forall o, o ∈ items <-> objects s !! key_of o = Some o /\ ob_Kind o = KConfigMap /\ ob_Namespace o = namespace /\ selector ⊆ ob_Labels o.
Proof.
  intros Hs. unfold k_List. destruct (wf_next s Hs) as [[Hm _] Ho]. destruct (next_fault s) as [[e|] s1]; simpl in *; [done|].
  intros [= <-] o. rewrite list_elem_of_filter, list_elem_of_fmap. split.
  - intros [Hc ([k' o'] & -> & Hin%elem_of_map_to_list)]. simpl in *. rewrite <- Ho. by rewrite (Hm _ _ Hin).
  - intros [Hk Hc]. split; [done|]. exists (key_of o, o). split; [done|]. apply elem_of_map_to_list. by rewrite Ho.
Qed.

Lemma List_state namespace selector s : wf s ->
  wf (k_List namespace selector s).2 /\ objects (k_List namespace selector s).2 = objects s.
Proof.
  intros Hs. unfold k_List. pose proof (wf_next s Hs) as Hn. destruct (next_fault s) as [[e|] s1]; done.
Qed.

Lemma Get_spec k' s : wf s -> wf (k_Get not_found k' s).2 /\ objects (k_Get not_found k' s).2 = objects s /\
  (forall o, (k_Get not_found k' s).1 = Ok o -> objects s !! k' = Some o).
Proof.
  intros Hs. unfold k_Get. destruct (wf_next s Hs) as [Hw Ho]. destruct (next_fault s) as [[e|] s1]; simpl in *; [done|].
  split; [done|]. split; [done|]. intros o. rewrite <- Ho. by destruct (objects s1 !! k') as [o'|]; intros [= <-].
Qed.
End one_key.

(** Operations that only delete. *)
Definition good (f : op) : Prop := forall s, wf s -> wf (f s).2 /\ objects (f s).2 ⊆ objects s.

Lemma good_steps l : Forall good l -> good (steps l).
Proof.
  induction 1 as [|f l Hf _ IH]; [by intros s Hs|]. intros s Hs. simpl. destruct (Hf s Hs) as [Hw Ho].
  destruct (f s) as [[e|] s1]; [done|]. simpl in *. destruct (IH s1 Hw) as [Hw' Ho']. split; [done|]. by transitivity (objects s1).
Qed.

Lemma good_or_fail message f : good f -> good (or_fail message f).
Proof. intros Hf s Hs. unfold or_fail. specialize (Hf s Hs). by destruct (f s). Qed.

Lemma good_answer (f g : op) : (forall s, (g s).2 = (f s).2) -> good f -> good g.
Proof. intros Hg Hf s Hs. rewrite Hg. by apply Hf. Qed.

Lemma good_Delete k : good (k_Delete not_found k).
Proof.
  intros s Hs. unfold k_Delete. destruct (wf_next s Hs) as [Hw Ho]. destruct (next_fault s) as [[e|] s1]; simpl in *.
  - by rewrite Ho.
  - destruct (objects s1 !! k); simpl; rewrite <- Ho; [|done]. split; [|apply delete_subseteq].
    destruct Hw as [Hm Hf]. split; [|done]. by apply map_Forall_delete.
Qed.

Lemma good_delete_stale message k : good (delete_stale not_found message k).
Proof.
  apply (good_answer (k_Delete not_found k)); [|apply good_Delete]. intros s. unfold delete_stale. by destruct (k_Delete not_found k s).
Qed.

Lemma good_delete_revision o : good (delete_revision not_found o).
Proof.
  apply (good_answer (k_Delete not_found (key_of o))); [|apply good_Delete].
  intros s. unfold delete_revision. by destruct (k_Delete not_found (key_of o) s).
Qed.

(** ** Pruning *)

Context (x : XTrinode) (uid : string).

Lemma good_owned k : good (deleteOwnedObjectIfPresent not_found IsNoMatchError x uid k).
Proof.
  intros s Hs. unfold deleteOwnedObjectIfPresent. destruct (Get_spec k s Hs) as (Hw & Ho & _).
  destruct (k_Get not_found k s) as [[o|e] s1]; simpl in *; [|by rewrite Ho].
  destruct (isOwnedByXTrinode x uid o); [|by simpl; rewrite Ho]. rewrite <- Ho. by apply good_delete_stale.
Qed.

Lemma keeps_owned Q k k' : (k' = k -> forall o, Q o -> isOwnedByXTrinode x uid o = false) ->
  keeps Q k (deleteOwnedObjectIfPresent not_found IsNoMatchError x uid k').
Proof.
  intros Hq s Hs. destruct (good_owned k' s Hs) as [Hw _]. split; [done|]. intros o HQ Hk. unfold deleteOwnedObjectIfPresent.
  destruct (Get_spec k' s Hs) as (Hw1 & Ho & Hg). destruct (k_Get not_found k' s) as [[o'|e] s1]; simpl in *; [|by rewrite Ho].
  destruct (isOwnedByXTrinode x uid o') eqn:Hown; [|by simpl; rewrite Ho].
  assert (k' <> k) as Hne. { intros ->. specialize (Hg o' eq_refl). rewrite Hk in Hg. injection Hg as <-. by rewrite (Hq eq_refl o HQ) in Hown. }
  apply (keeps_delete_stale Q k _ k' Hne s1 Hw1); [done|by rewrite Ho].
Qed.

Lemma good_prefix prefix : good (deleteOwnedConfigMapsWithPrefix not_found x uid prefix).
Proof.
  intros s Hs. unfold deleteOwnedConfigMapsWithPrefix. destruct (List_state (xt_Namespace x) ∅ s Hs) as [Hw Ho].
  destruct (k_List _ _ s) as [[items|e] s1]; simpl in *; [|by rewrite Ho]. rewrite <- Ho. apply good_steps; [|done].
  apply Forall_fmap, list.Forall_forall. intros o _. apply good_delete_stale.
Qed.

Lemma keeps_prefix Q k prefix :
  (forall o, Q o -> key_of o = k -> ob_Kind o = KConfigMap -> HasPrefix (ob_Name o) prefix = true -> isOwnedByXTrinode x uid o = false) ->
  keeps Q k (deleteOwnedConfigMapsWithPrefix not_found x uid prefix).
Proof.
  intros Hq s Hs. destruct (good_prefix prefix s Hs) as [Hw _]. split; [done|]. intros o HQ Hk. unfold deleteOwnedConfigMapsWithPrefix.
  pose proof (List_spec (xt_Namespace x) ∅ s) as Hl. destruct (List_state (xt_Namespace x) ∅ s Hs) as [Hw1 Ho].
  destruct (k_List _ _ s) as [[items|e] s1]; simpl in *; [|by rewrite Ho].
  apply (keeps_steps Q k); [|done|done|by rewrite Ho]. apply Forall_fmap, list.Forall_forall.
  intros o' [[Hp Hown] Hin]%list_elem_of_filter. apply keeps_delete_stale. intros <-.
  apply (Hl items Hs eq_refl) in Hin as (Hk' & Hkind & _). rewrite Hk in Hk'. injection Hk' as <-.
  by rewrite (Hq o HQ eq_refl Hkind Hp) in Hown.
Qed.

(** ** Old revisions *)

Lemma good_cleanup revisions n : good (cleanupOldRevisions not_found revisions n).
Proof. apply good_steps, Forall_fmap, list.Forall_forall. intros o _. apply good_delete_revision. Qed.

Lemma keeps_cleanup_list Q k revisions n : (forall o, o ∈ revisions -> key_of o <> k) -> keeps Q k (cleanupOldRevisions not_found revisions n).
Proof.
  intros Hne. apply keeps_steps, Forall_fmap, list.Forall_forall. intros o Ho. apply keeps_delete_revision, Hne.
  apply (subseteq_take (length revisions - n)) in Ho. by rewrite (sorting.merge_sort_Permutation older) in Ho.
Qed.

Notation Cleanup c w := (CleanupOldConfigMapRevisionsForRoles not_found x c w).

Lemma good_revisions c w : good (Cleanup c w).
Proof.
  intros s Hs. unfold CleanupOldConfigMapRevisionsForRoles. destruct (List_state (xt_Namespace x) (revision_labels x) s Hs) as [Hw Ho].
  destruct (k_List _ _ s) as [[items|e] s1]; cbn [fst snd] in *; [|by rewrite Ho]. rewrite <- Ho. apply good_steps; [|done].
  repeat (apply list.Forall_cons; split); [apply good_or_fail, good_cleanup..|constructor].
Qed.

(** An old revision of a role. *)
Definition old_revision_of (c w : string) (o : object) : Prop :=
  old_revision (coordinatorConfigMapName x "") c o = true \/ old_revision (workerConfigMapName x "") w o = true.

Lemma keeps_revisions Q k c w :
  (forall o, Q o -> key_of o = k -> ob_Kind o = KConfigMap -> revision_labels x ⊆ ob_Labels o -> ~ old_revision_of c w o) ->
  keeps Q k (Cleanup c w).
Proof.
  intros Hq s Hs. destruct (good_revisions c w s Hs) as [Hw _]. split; [done|]. intros o HQ Hk. unfold CleanupOldConfigMapRevisionsForRoles.
  pose proof (List_spec (xt_Namespace x) (revision_labels x) s) as Hl.
  destruct (List_state (xt_Namespace x) (revision_labels x) s Hs) as [Hw1 Ho].
  destruct (k_List _ _ s) as [[items|e] s1]; cbn [fst snd] in *; [|by rewrite Ho].
  assert (forall o', o' ∈ items -> key_of o' = k -> ~ old_revision_of c w o') as Hold.
  { intros o' Hin <-. apply (Hl items Hs eq_refl) in Hin as (Hk' & Hkind & _ & Hlab). rewrite Hk in Hk'. injection Hk' as <-. by apply Hq. }
  apply (keeps_steps Q k); [|done|done|by rewrite Ho].
  repeat (apply list.Forall_cons; split); [| |constructor]; apply keeps_or_fail, keeps_cleanup_list; intros o' Ho' Hkey;
    apply list_elem_of_filter in Ho' as [Hr Hin]; apply (Hold o' Hin Hkey); [by left|right; tauto].
Qed.

(** ** Both *)

Definition current_revision (role : string) (o : option object) : string :=
  match o with Some o => configMapRevisionFromName x role (ob_Name o) | None => "" end.

Context (r : TrinoResourceSet).
Notation coordinator_revision := (current_revision "coordinator" (rs_CoordinatorConfigMap r)).
Notation worker_revision := (current_revision "worker" (rs_WorkerConfigMap r)).

Lemma good_cleanup_revisions : good (cleanup_revisions not_found x r).
Proof.
  intros s Hs. unfold cleanup_revisions. destruct (_ && _); [done|]. by apply good_revisions.
Qed.

Lemma keeps_cleanup_revisions Q k :
  (forall o, Q o -> key_of o = k -> ob_Kind o = KConfigMap -> revision_labels x ⊆ ob_Labels o ->
     ~ old_revision_of coordinator_revision worker_revision o) ->
  keeps Q k (cleanup_revisions not_found x r).
Proof.
  intros Hq s Hs. unfold cleanup_revisions. destruct (_ && _); [done|]. by apply (keeps_revisions Q k _ _ Hq).
Qed.

(** What pruning looks at by name. *)
Definition pruned_keys : list object_key :=
  match rs_WorkerDeployment r with None => worker_stack x | Some _ => [] end ++ staleObjects x r ++ stale_monitors x r.
Definition pruned_prefix (k : object_key) : Prop :=
  rs_WorkerDeployment r = None /\ k.1.1 = KConfigMap /\ HasPrefix k.2 (suffixed x "-worker-") = true.

Lemma good_prune : good (pruneDisabledTrinoResources not_found IsNoMatchError x uid r).
Proof.
  apply good_steps. apply list.Forall_app. split; [|apply list.Forall_app; split; apply Forall_fmap, list.Forall_forall; intros; apply good_owned].
  destruct (rs_WorkerDeployment r); [constructor|]. apply list.Forall_singleton, good_steps, list.Forall_app. split.
  - apply Forall_fmap, list.Forall_forall. intros. apply good_owned.
  - apply list.Forall_singleton, good_prefix.
Qed.

Lemma keeps_prune Q k : ((k ∈ pruned_keys \/ pruned_prefix k) -> forall o, Q o -> isOwnedByXTrinode x uid o = false) ->
  keeps Q k (pruneDisabledTrinoResources not_found IsNoMatchError x uid r).
Proof.
  intros Hq. unfold pruned_keys, pruned_prefix in Hq. apply keeps_steps.
  assert (forall l, (forall k', k' ∈ l -> k' = k -> forall o, Q o -> isOwnedByXTrinode x uid o = false) ->
    Forall (keeps Q k) (deleteOwnedObjectIfPresent not_found IsNoMatchError x uid <$> l)) as Hl.
  { intros l Hl. apply Forall_fmap, list.Forall_forall. intros k' Hk'. apply keeps_owned. by apply Hl. }
  apply list.Forall_app. split; [|apply list.Forall_app; split].
  - destruct (rs_WorkerDeployment r); [constructor|]. apply list.Forall_singleton, keeps_steps, list.Forall_app. split.
    + apply Hl. intros k' Hk' ->. apply Hq. left. apply elem_of_app. by left.
    + apply list.Forall_singleton, keeps_prefix. intros o HQ Hk Hkind Hp. apply Hq; [|done]. right. subst k. done.
  - apply Hl. intros k' Hk' ->. apply Hq. left. rewrite !elem_of_app. auto.
  - apply Hl. intros k' Hk' ->. apply Hq. left. rewrite !elem_of_app. auto.
Qed.

(** ** A whole pass *)

Definition required_slots : list (string * option object) := slots_before r ++ slots_deployments x r ++ slots_after r.
Definition set_keys : list object_key := key_of <$> omap snd (required_slots ++ slots_optional r).

Notation Apply := (ApplyTrinoResources not_found IsNoMatchError ssa x uid r).

Definition slot_ops : list op :=
  (uncurry (apply_slot ssa) <$> required_slots) ++ (uncurry (apply_optional_slot IsNoMatchError ssa) <$> slots_optional r).
Definition tidy_ops : list op :=
  [cleanup_revisions not_found x r;
   or_fail "failed to prune disabled Trino resources: " (pruneDisabledTrinoResources not_found IsNoMatchError x uid r)].

Lemma Apply_ops : Apply = steps (slot_ops ++ tidy_ops).
Proof. unfold ApplyTrinoResources, slot_ops, required_slots. by rewrite <- app_assoc. Qed.

Lemma slot_key (name : string) o (slots : list (string * option object)) : (name, Some o) ∈ slots -> key_of o ∈ key_of <$> omap snd slots.
Proof. intros Hin. apply list_elem_of_fmap. exists o. split; [done|]. apply list_elem_of_omap. by exists (name, Some o). Qed.

Lemma keeps_slots Q k l : k ∉ key_of <$> omap snd l ->
  Forall (keeps Q k) (uncurry (apply_slot ssa) <$> l) /\ Forall (keeps Q k) (uncurry (apply_optional_slot IsNoMatchError ssa) <$> l).
Proof.
  intros Hk. split; apply Forall_fmap, list.Forall_forall; intros [name o] Hin; simpl;
    [apply keeps_apply_slot|apply keeps_apply_optional_slot]; intros o' -> Heq; apply Hk; rewrite <- Heq; by eapply slot_key.
Qed.

Lemma keeps_slot_ops Q k : k ∉ set_keys -> Forall (keeps Q k) slot_ops.
Proof.
  unfold set_keys, slot_ops. rewrite omap_app, fmap_app, not_elem_of_app. intros [H1 H2]. apply list.Forall_app.
  split; [by apply (keeps_slots Q) in H1 as [? _]|by apply (keeps_slots Q) in H2 as [_ ?]].
Qed.

(** An object that is not of the set, not owned and not labelled as a revision. *)
Definition foreign (o : object) : Prop := isOwnedByXTrinode x uid o = false /\ ~ revision_labels x ⊆ ob_Labels o.

Lemma keeps_tidy Q k :
  (forall o, Q o -> key_of o = k -> ob_Kind o = KConfigMap -> revision_labels x ⊆ ob_Labels o ->
     ~ old_revision_of coordinator_revision worker_revision o) ->
  ((k ∈ pruned_keys \/ pruned_prefix k) -> forall o, Q o -> isOwnedByXTrinode x uid o = false) ->
  Forall (keeps Q k) tidy_ops.
Proof.
  intros H1 H2. repeat (apply list.Forall_cons; split); [by apply keeps_cleanup_revisions| |constructor].
  by apply keeps_or_fail, keeps_prune.
Qed.

Lemma Apply_foreign k : k ∉ set_keys -> keeps foreign k Apply.
Proof.
  intros Hk. rewrite Apply_ops. apply keeps_steps, list.Forall_app. split; [by apply keeps_slot_ops|].
  apply keeps_tidy; [by intros o [_ Ho]|by intros _ o [Ho _]].
Qed.

(** The names of the set are told apart from each other and from what is pruned. *)
Record well_named : Prop := mkWellNamed {
  wn_nodup : NoDup set_keys;
  wn_pruned : Forall (fun k => k ∉ pruned_keys) set_keys;
  wn_prefix : Forall (fun k => ~ pruned_prefix k) set_keys;
  wn_revisions : Forall (fun o => ~ old_revision_of coordinator_revision worker_revision o) (omap snd (required_slots ++ slots_optional r))
}.

Definition applied (o : object) (s : kube) : Prop := exists old, objects s !! key_of o = Some (ssa old o).

Lemma slot_applied name o (s s' : kube) : wf s -> apply_slot ssa name (Some o) s = (None, s') -> applied o s' /\ wf s'.
Proof.
  intros Hs. unfold apply_slot, or_fail, k_Apply. destruct (wf_next s Hs) as [Hw Ho].
  destruct (next_fault s) as [[e|] s1]; simpl in *; intros [= <-]. split.
  - exists (objects s1 !! key_of o). unfold set_objects. simpl. by rewrite lookup_insert_eq.
  - destruct Hw as [Hm Hf]. split; [|done]. apply map_Forall_insert_2; [apply Hssa|done].
Qed.

Lemma wf_steps l (s : kube) : (exists Q k, Forall (keeps Q k) l) -> wf s -> wf (steps l s).2.
Proof. intros (Q & k & Hl) Hs. by apply (keeps_steps Q k l Hl). Qed.

Lemma fresh_key (l : list object_key) : exists k, k ∉ l.
Proof.
  exists (KSecret, "", fresh ((fun k : object_key => k.2) <$> l)). intros Hin.
  apply (infinite_is_fresh ((fun k : object_key => k.2) <$> l)). apply list_elem_of_fmap. eexists. split; [|exact Hin]. done.
Qed.

Lemma wf_slot_ops l1 l2 (s : kube) : slot_ops = l1 ++ l2 -> wf s -> wf (steps l1 s).2.
Proof.
  intros Hl. destruct (fresh_key set_keys) as [k Hk]. apply wf_steps. exists (fun _ => True), k.
  pose proof (keeps_slot_ops (fun _ => True) k Hk) as Hf. rewrite Hl in Hf. by apply list.Forall_app in Hf as [? _].
Qed.

Lemma Apply_applied (s s' : kube) name o : wf s -> well_named -> Apply s = (None, s') -> (name, Some o) ∈ required_slots -> applied o s'.
Proof.
  intros Hs Hn. rewrite Apply_ops. intros (s3 & Hs3 & Htidy)%steps_app Hin.
  apply list_elem_of_split in Hin as (a & b & Hab).
  assert (slot_ops = (uncurry (apply_slot ssa) <$> a) ++ apply_slot ssa name (Some o) ::
            (uncurry (apply_slot ssa) <$> b) ++ (uncurry (apply_optional_slot IsNoMatchError ssa) <$> slots_optional r)) as Hops.
  { unfold slot_ops. by rewrite Hab, fmap_app, fmap_cons, <- app_assoc. }
  rewrite Hops in Hs3. apply steps_app in Hs3 as (s1 & Hs1 & (s2 & Hs2 & Hs3)%steps_cons).
  pose proof (wf_slot_ops _ _ s Hops Hs) as Hw1. rewrite Hs1 in Hw1. destruct (slot_applied _ _ _ _ Hw1 Hs2) as [(old & Ho) Hw2].
  destruct Hn as [Hnd Hp Hpre Hrev]. unfold set_keys in Hnd, Hp, Hpre. rewrite Hab in Hnd, Hp, Hpre, Hrev.
  rewrite omap_app, fmap_app, omap_app, fmap_app in Hnd. change (omap snd ((name, Some o) :: b)) with (o :: omap snd b) in Hnd.
  assert (key_of o ∉ (key_of <$> omap snd b) /\ key_of o ∉ (key_of <$> omap snd (slots_optional r))) as [Hb Hopt].
  { rewrite <- app_assoc in Hnd. apply list.NoDup_app in Hnd as (_ & _ & Hnd). rewrite fmap_cons in Hnd. apply list.NoDup_cons in Hnd as [Hnd _].
    by apply not_elem_of_app in Hnd. }
  assert (o ∈ omap snd ((a ++ (name, Some o) :: b) ++ slots_optional r)) as Hino.
  { apply list_elem_of_omap. exists (name, Some o). split; [|done]. set_solver. }
  assert (key_of o ∈ key_of <$> omap snd ((a ++ (name, Some o) :: b) ++ slots_optional r)) as Hink by (apply list_elem_of_fmap; eauto).
  rewrite list.Forall_forall in Hp. rewrite list.Forall_forall in Hpre. rewrite list.Forall_forall in Hrev.
  assert (keeps (fun _ => True) (key_of o) (steps (((uncurry (apply_slot ssa) <$> b) ++
            (uncurry (apply_optional_slot IsNoMatchError ssa) <$> slots_optional r)) ++ tidy_ops))) as Hk.
  { apply keeps_steps, list.Forall_app. split; [apply list.Forall_app; split; by apply keeps_slots|]. apply keeps_tidy.
    - intros o' _ Hkey _ _ Hold. apply (Hrev o Hino). unfold old_revision_of, old_revision in *. injection Hkey as _ _ <-. done.
    - intros [Hin|Hin]; [by destruct (Hp _ Hink)|by destruct (Hpre _ Hink)]. }
  assert (steps (((uncurry (apply_slot ssa) <$> b) ++ (uncurry (apply_optional_slot IsNoMatchError ssa) <$> slots_optional r)) ++ tidy_ops) s2 = (None, s')) as Hrun.
  { apply steps_app. eauto. }
  exists old. destruct (Hk s2 Hw2) as [_ Hk']. rewrite Hrun in Hk'. by apply Hk'.
Qed.

(** ** What is no longer wanted *)

Section stale.
(** Calls do not fail as if an object or its kind were missing. *)
Context (Hans : forall e, answers (Some e) -> unknown_kind IsNoMatchError e = false).

Lemma next_honest (s : kube) e s1 : wf s -> next_fault s = (Some e, s1) -> unknown_kind IsNoMatchError e = false.
Proof.
  intros [_ Hf]. unfold next_fault. destruct (faults s) as [|f fs]; [done|]. intros [= -> _]. apply list.Forall_cons in Hf as [Ha _]. auto.
Qed.

Lemma unknown_not_found e : unknown_kind IsNoMatchError e = false -> IsNotFound e = false.
Proof. unfold unknown_kind. intros Hu. apply orb_false_iff in Hu as [Hu _]. by apply orb_false_iff in Hu as [Hu _]. Qed.

Lemma Delete_gone k (s s' : kube) err : wf s -> k_Delete not_found k s = (err, s') ->
  objects s' !! k = None \/ exists e, err = Some e /\ answers (Some e).
Proof.
  intros [_ Hf]. unfold k_Delete, next_fault. destruct (faults s) as [|[e|] fs]; simpl.
  - destruct (objects s !! k) eqn:Hk; intros [= <- <-]; left; [unfold set_objects; simpl; apply lookup_delete_eq|done].
  - intros [= <- <-]. right. apply list.Forall_cons in Hf as [Ha _]. eauto.
  - destruct (objects s !! k) eqn:Hk; intros [= <- <-]; left; [unfold set_objects; simpl; apply lookup_delete_eq|done].
Qed.

Lemma owned_gone k (s s' : kube) : wf s -> deleteOwnedObjectIfPresent not_found IsNoMatchError x uid k s = (None, s') ->
  forall o, objects s' !! k = Some o -> isOwnedByXTrinode x uid o = false.
Proof.
  intros Hs. unfold deleteOwnedObjectIfPresent. destruct (Get_spec k s Hs) as (Hw & Ho & Hg).
  destruct (k_Get not_found k s) as [[o'|e] s1] eqn:Hget; cbn [fst snd] in *.
  - specialize (Hg o' eq_refl). destruct (isOwnedByXTrinode x uid o') eqn:Hown.
    + unfold delete_stale. destruct (k_Delete not_found k s1) as [err s2] eqn:Hd. intros [= Herr <-] o Hk.
      destruct (Delete_gone k s1 s2 err Hw Hd) as [Hnone|(e & -> & Ha)]; [by rewrite Hnone in Hk|].
      by rewrite (unknown_not_found e (Hans e Ha)) in Herr.
    + intros [= <-] o. rewrite Ho, Hg. by intros [= <-].
  - unfold k_Get in Hget. destruct (next_fault s) as [[e'|] s0] eqn:Hn.
    + injection Hget as -> ->. rewrite (next_honest _ _ _ Hs Hn). done.
    + destruct (objects s0 !! k) eqn:Hk; [done|]. injection Hget as <- ->. destruct (unknown_kind _ _); [|done].
      intros [= <-] o. by rewrite Hk.
Qed.

Lemma gone_after k l1 l2 (s s' : kube) : wf s -> Forall good l1 -> Forall good l2 ->
  steps (l1 ++ deleteOwnedObjectIfPresent not_found IsNoMatchError x uid k :: l2) s = (None, s') ->
  forall o, objects s' !! k = Some o -> isOwnedByXTrinode x uid o = false.
Proof.
  intros Hs Hl1 Hl2 (s1 & H1 & (s2 & H2 & H3)%steps_cons)%steps_app o Hk.
  destruct (good_steps l1 Hl1 s Hs) as [Hw1 _]. rewrite H1 in Hw1. destruct (good_owned k s1 Hw1) as [Hw2 _]. rewrite H2 in Hw2.
  destruct (good_steps l2 Hl2 s2 Hw2) as [_ Hsub]. rewrite H3 in Hsub.
  apply (owned_gone k s1 s2 Hw1 H2). by apply (lookup_weaken _ _ _ _ Hk).
Qed.

Lemma pruned_gone k (s s' : kube) : wf s -> pruneDisabledTrinoResources not_found IsNoMatchError x uid r s = (None, s') -> k ∈ pruned_keys ->
  forall o, objects s' !! k = Some o -> isOwnedByXTrinode x uid o = false.
Proof.
  assert (forall l, Forall good (deleteOwnedObjectIfPresent not_found IsNoMatchError x uid <$> l)) as Hgood.
  { intros l. apply Forall_fmap, list.Forall_forall. intros. apply good_owned. }
  assert (good (pruneWorkerStack not_found IsNoMatchError x uid)) as Hstack.
  { apply good_steps, list.Forall_app. split; [apply Hgood|apply list.Forall_singleton, good_prefix]. }
  intros Hs. unfold pruneDisabledTrinoResources, pruned_keys. rewrite <- fmap_app. intros (s1 & H1 & H2)%steps_app Hk.
  assert (wf s1) as Hw1.
  { destruct (rs_WorkerDeployment r); [by injection H1 as <-|]. apply steps_cons in H1 as (s1' & H1 & [= <-]).
    destruct (Hstack s Hs) as [Hw _]. by rewrite H1 in Hw. }
  apply elem_of_app in Hk as [Hk|Hk].
  - destruct (rs_WorkerDeployment r); [by apply elem_of_nil in Hk|]. apply steps_cons in H1 as (s1' & H1 & [= <-]).
    apply list_elem_of_split in Hk as (a & b & Hab). unfold pruneWorkerStack in H1. rewrite Hab, fmap_app, fmap_cons, <- app_assoc in H1.
    intros o Ho. destruct (good_steps _ (Hgood (staleObjects x r ++ stale_monitors x r)) s1' Hw1) as [_ Hsub]. rewrite H2 in Hsub.
    eapply (gone_after k); [exact Hs| | |exact H1|by apply (lookup_weaken _ _ _ _ Ho)]; [apply Hgood|].
    apply list.Forall_app. split; [apply Hgood|apply list.Forall_singleton, good_prefix].
  - apply list_elem_of_split in Hk as (a & b & Hab). rewrite Hab, fmap_app, fmap_cons in H2. eapply (gone_after k); [exact Hw1| | |exact H2]; apply Hgood.
Qed.

Lemma Apply_stale (s s' : kube) k o : wf s -> Apply s = (None, s') -> k ∈ pruned_keys -> objects s' !! k = Some o ->
  isOwnedByXTrinode x uid o = false.
Proof.
  intros Hs. rewrite Apply_ops. intros (s1 & H1 & (s2 & H2 & (s3 & H3 & [= <-])%steps_cons)%steps_cons)%steps_app Hk Ho.
  pose proof (wf_slot_ops slot_ops [] s (eq_sym (app_nil_r _)) Hs) as Hw1. rewrite H1 in Hw1.
  destruct (good_cleanup_revisions s1 Hw1) as [Hw2 _]. rewrite H2 in Hw2.
  unfold or_fail in H3. destruct (pruneDisabledTrinoResources _ _ x uid r s2) as [err s3'] eqn:Hp. destruct err; [done|]. injection H3 as ->.
  by eapply (pruned_gone k s2 s3).
Qed.

Lemma slot_deleted optional name o (s s' : kube) : wf s -> (optional = true -> forall e, answers (Some e) -> no_such_kind IsNoMatchError e = false) ->
  delete_slot not_found IsNoMatchError optional name (Some o) s = (None, s') -> objects s' !! key_of o = None.
Proof.
  intros Hs Hopt. unfold delete_slot. destruct (k_Delete not_found (key_of o) s) as [err s1] eqn:Hd. intros [= Herr <-].
  destruct (Delete_gone _ s s1 err Hs Hd) as [Hnone|(e & -> & Ha)]; [done|].
  rewrite (unknown_not_found e (Hans e Ha)) in Herr. destruct optional; [|done]. by rewrite (Hopt eq_refl e Ha) in Herr.
Qed.
End stale.
End sound.

(** ** The theorems *)

Section theorems.
Context {E : Type} `{KubeErrors E, !ErrorKinds E}.
Context (not_found : E) (IsNoMatchError : E -> bool).

(** Objects are stored under their own keys. *)
Definition stored (s : @kube E) : Prop := map_Forall (fun k o => key_of o = k) (objects s).

(** No call fails as if an object, or its kind, were missing. *)
Definition honest (f : option E) : Prop :=
  match f with Some e => unknown_kind IsNoMatchError e = false /\ no_such_kind IsNoMatchError e = false | None => True end.

Lemma any_answers (s : @kube E) : stored s -> wf (fun _ => True) s.
Proof. intros Hs. split; [done|]. by apply list.Forall_forall. Qed.


(** ** Deleting *)

Lemma good_delete_slot answers optional name o : good answers (delete_slot not_found IsNoMatchError optional name o).
Proof.
  destruct o as [o|]; [|by intros s Hs]. apply (good_answer answers (k_Delete not_found (key_of o))); [|apply good_Delete].
  intros s. unfold delete_slot. by destruct (k_Delete not_found (key_of o) s).
Qed.

Definition delete_ops (r : TrinoResourceSet) : list (bool * string * option object) :=
  ((fun '(name, o) => (false, name, o)) <$> delete_slots r) ++ ((fun '(name, o) => (true, name, o)) <$> slots_optional r) ++
  ((fun '(name, o) => (false, name, o)) <$> delete_last_slots r).
Definition run_delete (d : bool * string * option object) : @kube E -> option E * @kube E :=
  let '(optional, name, o) := d in delete_slot not_found IsNoMatchError optional name o.

Lemma Delete_ops r : DeleteTrinoResources not_found IsNoMatchError r = steps (run_delete <$> delete_ops r).
Proof. reflexivity. Qed.

Lemma all_deleted r o : o ∈ AllResources r <-> exists optional name, (optional, name, Some o) ∈ delete_ops r.
Proof.
  unfold AllResources, delete_ops. rewrite list_elem_of_omap. split.
  - intros (o' & Hin & Ho). simpl in Ho. subst o'. cbn [fmap list_fmap delete_slots delete_last_slots slots_optional app].
    rewrite list_elem_of_In in Hin. simpl in Hin.
    repeat (destruct Hin as [<-|Hin]; [do 2 eexists; rewrite list_elem_of_In; simpl; eauto 60|]). done.
  - intros (optional & name & Hin). exists (Some o). split; [|done]. cbn [fmap list_fmap delete_slots delete_last_slots slots_optional app] in Hin.
    rewrite list_elem_of_In in Hin. rewrite list_elem_of_In. simpl in Hin |- *.
    repeat (destruct Hin as [[= _ _ <-]|Hin]; [eauto 60|]). done.
Qed.

(** Deleting the set of a runtime: when it succeeds, no object of the set is left,
    and objects outside the set stay as they are, whether it succeeds or not. *)
Theorem delete_exact r s err s' : stored s -> DeleteTrinoResources not_found IsNoMatchError r s = (err, s') ->
  (forall k, k ∉ key_of <$> AllResources r -> objects s' !! k = objects s !! k) /\
  (err = None -> Forall honest (faults s) -> forall o, o ∈ AllResources r -> objects s' !! key_of o = None).
Proof.
  intros Hs. rewrite Delete_ops. intros Hr.
  assert (forall answers l, Forall (good answers) (run_delete <$> l)) as Hgood.
  { intros answers l. apply Forall_fmap, list.Forall_forall. intros [[b n] o] _. apply good_delete_slot. }
  split.
  - intros k Hk. destruct (objects s !! k) as [o|] eqn:Ho.
    + assert (keeps (fun _ => True) (fun _ => True) k (steps (run_delete <$> delete_ops r))) as Hkeep.
      { apply keeps_steps, Forall_fmap, list.Forall_forall. intros [[b n] o'] Hin. apply keeps_delete_slot. intros o'' -> <-.
        apply Hk. apply list_elem_of_fmap. exists o''. split; [done|]. apply all_deleted. eauto. }
      destruct (Hkeep s (any_answers s Hs)) as [_ Hkeep']. specialize (Hkeep' o I Ho). by rewrite Hr in Hkeep'.
    + destruct (good_steps (fun _ => True) _ (Hgood _ (delete_ops r)) s (any_answers s Hs)) as [_ Hsub]. rewrite Hr in Hsub.
      destruct (objects s' !! k) eqn:Hk'; [|done]. by rewrite (lookup_weaken _ _ _ _ Hk' Hsub) in Ho.
  - intros -> Hh o (b & n & (l1 & l2 & Hl)%list_elem_of_split)%all_deleted. rewrite Hl, fmap_app, fmap_cons in Hr.
    apply steps_app in Hr as (s1 & H1 & (s2 & H2 & H3)%steps_cons).
    destruct (good_steps honest _ (Hgood _ l1) s (conj Hs Hh)) as [Hw1 _]. rewrite H1 in Hw1.
    pose proof (good_delete_slot honest b n (Some o) s1 Hw1) as [Hw2 _]. change (run_delete (b, n, Some o) s1 = (None, s2)) in H2.
    cbn [run_delete] in H2. rewrite H2 in Hw2. destruct (good_steps honest _ (Hgood _ l2) s2 Hw2) as [_ Hsub]. rewrite H3 in Hsub.
    destruct (objects s' !! key_of o) eqn:Ho; [|done].
    assert (objects s2 !! key_of o = None) as Hnone.
    { eapply (slot_deleted not_found IsNoMatchError honest); [by intros e []|exact Hw1|by intros _ e []|exact H2]. }
    by rewrite (lookup_weaken _ _ _ _ Ho Hsub) in Hnone.
Qed.

(** ** The history of revisions *)

Lemma List_nodup ns sel (s : @kube E) items : stored s -> (k_List ns sel s).1 = Ok items -> NoDup items.
Proof.
  intros Hs. unfold k_List. destruct (wf_next (fun _ => True) s (any_answers s Hs)) as [_ Ho].
  destruct (next_fault s) as [[e|] s1]; simpl in *; [done|]. intros [= <-]. apply list.NoDup_filter. rewrite Ho.
  assert (NoDup (key_of <$> (snd <$> map_to_list (objects s)))) as Hnd; [|by apply list.NoDup_fmap_1 in Hnd].
  assert (key_of <$> (snd <$> map_to_list (objects s)) = fst <$> map_to_list (objects s)) as ->; [|apply NoDup_fst_map_to_list].
  rewrite <- list_fmap_compose. apply list_fmap_ext. intros i [k o] Hi. simpl. apply Hs.
  apply elem_of_map_to_list. by eapply list_elem_of_lookup_2.
Qed.

(** Deleting the oldest of a list of stored objects. *)
Lemma cleanup_history revisions n (s s' : @kube E) o : stored s -> NoDup revisions ->
  (forall o', o' ∈ revisions -> objects s !! key_of o' = Some o') -> Forall honest (faults s) ->
  cleanupOldRevisions not_found revisions n s = (None, s') -> objects s !! key_of o = Some o -> objects s' !! key_of o = None ->
  o ∈ revisions /\ exists kept, NoDup kept /\ length kept = n /\
    forall o', o' ∈ kept -> o' ∈ revisions /\ objects s' !! key_of o' = Some o' /\ older o o'.
Proof.
  intros Hs Hnd Hst Hh Hr Ho Hgone. set (m := (length revisions - n)%nat). set (l := sorting.merge_sort older revisions).
  assert (Hperm : l ≡ₚ revisions) by apply sorting.merge_sort_Permutation.
  assert (forall o', objects s !! key_of o' = Some o' -> ~ o' ∈ take m l -> objects s' !! key_of o' = Some o') as Hkept.
  { intros o' Ho' Hnin. assert (keeps (fun _ => True) (fun _ => True) (key_of o') (cleanupOldRevisions not_found revisions n)) as Hk.
    { apply keeps_steps, Forall_fmap, list.Forall_forall. intros o2 Ho2. apply keeps_delete_revision. intros Heq. apply Hnin.
      assert (o2 ∈ revisions) as Hin2. { rewrite <- Hperm. by apply (subseteq_take m) in Ho2. }
      specialize (Hst o2 Hin2). rewrite Heq, Ho' in Hst. injection Hst as ->. exact Ho2. }
    destruct (Hk s (any_answers s Hs)) as [_ Hk']. specialize (Hk' o' I Ho'). by rewrite Hr in Hk'. }
  destruct (decide (o ∈ take m l)) as [Hin|Hnin]; [|by rewrite (Hkept o Ho Hnin) in Hgone].
  split. { rewrite <- Hperm. by apply (subseteq_take m) in Hin. }
  assert (NoDup (take m l ++ drop m l)) as Hnd2 by (rewrite take_drop; by rewrite Hperm).
  apply list.NoDup_app in Hnd2 as (_ & Hdisj & Hnd2). exists (drop m l). split; [done|]. split.
  - assert (0 < m)%nat. { destruct m; [by rewrite take_0 in Hin; apply elem_of_nil in Hin|lia]. }
    rewrite length_drop. pose proof (Permutation_length Hperm). unfold m in *. lia.
  - intros o' Ho'. assert (o' ∈ revisions) as Hin'. { rewrite <- Hperm. by apply (subseteq_drop m) in Ho'. }
    split; [done|]. split; [apply Hkept; [by apply Hst|]; intros Hin2; by apply (Hdisj o')|].
    pose proof (sorting.StronglySorted_merge_sort older revisions) as Hsort. fold l in Hsort. rewrite <- (take_drop m l) in Hsort.
    by apply (sorting.StronglySorted_app_1_elem_of older _ _ _ _ Hsort).
Qed.

Lemma or_fail_ok message (f : @kube E -> option E * @kube E) s s' : or_fail message f s = (None, s') -> f s = (None, s').
Proof. unfold or_fail. destruct (f s) as [[e|] s1]; [done|]. by intros [= ->]. Qed.

(** Cleaning up keeps what is not in its list. *)
Lemma cleanup_keeps revisions n (s s' : @kube E) o : stored s -> cleanupOldRevisions not_found revisions n s = (None, s') ->
  (forall o', o' ∈ revisions -> key_of o' <> key_of o) -> objects s !! key_of o = Some o -> objects s' !! key_of o = Some o.
Proof.
  intros Hs Hr Hne Ho. destruct (keeps_cleanup_list not_found (fun _ => True) (fun _ => True) (key_of o) revisions n Hne s (any_answers s Hs)) as [_ Hk].
  specialize (Hk o I Ho). by rewrite Hr in Hk.
Qed.

(** Cleaning up revisions deletes a ConfigMap only if it is labelled as a revision of
    the runtime and is not the current one of its role, and only when three other
    old revisions of that role, none of them older, are kept. *)
Theorem revision_history x c w s s' k o : stored s -> Forall honest (faults s) ->
  CleanupOldConfigMapRevisionsForRoles not_found x c w s = (None, s') -> objects s !! k = Some o -> objects s' !! k = None ->
  exists prefix current, (prefix, current) ∈ [(coordinatorConfigMapName x "", c); (workerConfigMapName x "", w)] /\
    ob_Namespace o = xt_Namespace x /\ revision_labels x ⊆ ob_Labels o /\ old_revision prefix current o = true /\
    exists kept, NoDup kept /\ length kept = MaxRevisionHistory /\
      forall o', o' ∈ kept -> old_revision prefix current o' = true /\ objects s' !! key_of o' = Some o' /\ ob_Created o <= ob_Created o'.
Proof.
  intros Hs Hh. unfold CleanupOldConfigMapRevisionsForRoles. intros Hr Hk Hgone. pose proof (Hs _ _ Hk) as <-.
  pose proof (List_spec (fun _ => True) (xt_Namespace x) (revision_labels x) s) as Hl. pose proof (List_nodup (xt_Namespace x) (revision_labels x) s) as Hnd.
  destruct (List_state honest (xt_Namespace x) (revision_labels x) s (conj Hs Hh)) as [[Hs1 Hh1] Ho].
  destruct (k_List _ _ s) as [[items|e] s1]; cbn [fst snd] in *; [|done].
  specialize (Hl items (any_answers s Hs) eq_refl). specialize (Hnd items Hs eq_refl). rewrite <- Ho in Hk, Hl.
  apply steps_cons in Hr as (s2 & H2%or_fail_ok & (s3 & H3%or_fail_ok & [= <-])%steps_cons).
  pose proof (good_cleanup not_found honest (filter (fun o => old_revision (coordinatorConfigMapName x "") c o = true) items)
                MaxRevisionHistory s1 (conj Hs1 Hh1)) as [[Hs2 Hh2] Hsub]. rewrite H2 in Hs2, Hh2, Hsub. cbn [snd] in Hs2, Hh2, Hsub.
  assert (forall o1 o2, o1 ∈ items -> o2 ∈ items -> key_of o1 = key_of o2 -> o1 = o2) as Hinj.
  { intros o1 o2 [H1 _]%Hl [H1' _]%Hl Heq. rewrite Heq, H1' in H1. by injection H1. }
  destruct (objects s2 !! key_of o) as [o2|] eqn:Ho2.
  - assert (o2 = o) as ->.
    { pose proof (lookup_weaken _ _ _ _ Ho2 Hsub) as Heq. rewrite Hk in Heq. by injection Heq. }
    destruct (fun N S => cleanup_history _ _ s2 s3 o Hs2 N S Hh2 H3 Ho2 Hgone) as [Hin (kept & Hkn & Hkl & Hkept)]; [by apply list.NoDup_filter| |].
    { intros o' [[Hp Hold] Hin]%list_elem_of_filter. eapply cleanup_keeps; [exact Hs1|exact H2| |by apply Hl].
      intros o1 [Hold1 Hin1]%list_elem_of_filter Heq. rewrite (Hinj o1 o' Hin1 Hin Heq) in Hold1. unfold old_revision in Hold1. by rewrite Hp in Hold1. }
    apply list_elem_of_filter in Hin as [[Hp Hold] Hin]. exists (workerConfigMapName x ""), w. split; [set_solver|].
    apply Hl in Hin as (_ & _ & Hns & Hlab). do 3 (split; [done|]). exists kept. do 2 (split; [done|]).
    intros o' Ho'. destruct (Hkept o' Ho') as ([[_ Hold'] _]%list_elem_of_filter & Hin' & Hage). done.
  - destruct (fun N S => cleanup_history _ _ s1 s2 o Hs1 N S Hh1 H2 Hk Ho2) as [Hin (kept & Hkn & Hkl & Hkept)]; [by apply list.NoDup_filter| |].
    { intros o' [_ Hin]%list_elem_of_filter. by apply Hl. }
    apply list_elem_of_filter in Hin as [Hold Hin]. exists (coordinatorConfigMapName x ""), c. split; [set_solver|].
    apply Hl in Hin as (_ & _ & Hns & Hlab). do 3 (split; [done|]). exists kept. do 2 (split; [done|]).
    intros o' Ho'. destruct (Hkept o' Ho') as ([Hold' Hin']%list_elem_of_filter & Hst' & Hage). split; [done|]. split; [|done].
    eapply cleanup_keeps; [exact Hs2|exact H3| |done]. intros o1 [[Hp1 _] Hin1]%list_elem_of_filter Heq.
    rewrite (Hinj o1 o' Hin1 Hin' Heq) in Hp1. unfold old_revision in Hold'. by rewrite Hp1 in Hold'.
Qed.
End theorems.

(** ** Examples *)

Definition ex_runtime (overlay : option RawJSON) : XTrinode :=
  mkXTrinode "x" "a" 1 0 0 None [] ∅ ∅
    (mkSpecFull "s" None None false None None None None None None None overlay None None None None "" None None None None None None)
    (status_of_phase "").

Definition ex_object (kind : ObjectKind) (name : string) (created : Time) (replicas : option Z) : object :=
  mkObject kind "a" name {[ AppNameLabel := "trino"; AppInstanceLabel := "x"; AppManagedByLabel := ManagedByValue ]}
    [mkOwner GroupVersion "XTrinode" "x" "u"] created replicas "".
Definition ex_foreign : object := mkObject KSecret "a" "user" ∅ [] 0 None "secret".

Definition ex_set (worker accessControl : option object) : TrinoResourceSet :=
  mkResourceSet (Some (ex_object KDeployment "trino-x-coordinator" 0 (Some 1))) worker None None None None None None None None None
    (Some (ex_object KConfigMap "trino-x-coordinator-r5" 0 None)) None None None None None None None None None None None None None
    accessControl None None.

Definition ex_kube (l : list object) : @kube kube_error := mkKube (list_to_map ((fun o => (key_of o, o)) <$> l)) [].
Definition ex_ssa (_ : option object) (o : object) : object := o.
Definition ex_revisions : list object :=
  [ex_object KConfigMap "trino-x-coordinator-r1" 1 None; ex_object KConfigMap "trino-x-coordinator-r2" 2 None;
   ex_object KConfigMap "trino-x-coordinator-r3" 3 None; ex_object KConfigMap "trino-x-coordinator-r4" 4 None;
   ex_object KConfigMap "trino-x-coordinator-r5" 5 None].

Notation ex_apply x r s := (ApplyTrinoResources KNotFound (fun _ => false) ex_ssa x "u" r s).


Lemma revision_history_witness :
  exists prefix current, (prefix, current) ∈ [(coordinatorConfigMapName (ex_runtime None) "", "r5"); (workerConfigMapName (ex_runtime None) "", "")] /\
    exists kept, NoDup kept /\ length kept = MaxRevisionHistory /\
      forall o', o' ∈ kept -> old_revision prefix current o' = true /\ 1 <= ob_Created o'.
Proof.
  destruct (CleanupOldConfigMapRevisionsForRoles KNotFound (ex_runtime None) "r5" "" (ex_kube ex_revisions)) as [[e|] s'] eqn:Hrun;
    [vm_compute in Hrun; discriminate|].
  destruct (revision_history KNotFound (fun _ => false) (ex_runtime None) "r5" "" (ex_kube ex_revisions) s' (KConfigMap, "a", "trino-x-coordinator-r1")
    (ex_object KConfigMap "trino-x-coordinator-r1" 1 None)) as (p & cur & Hp & _ & _ & _ & kept & Hn & Hl & Hk).
  - apply (bool_decide_unpack _); vm_compute; exact I.
  - constructor.
  - exact Hrun.
  - vm_compute. reflexivity.
  - pose proof (f_equal (fun p => objects p.2 !! (KConfigMap, "a", "trino-x-coordinator-r1")) Hrun) as Hs. cbn [snd] in Hs.
    rewrite <- Hs. vm_compute. reflexivity.
  - exists p, cur. split; [exact Hp|]. exists kept. split; [exact Hn|]. split; [exact Hl|].
    intros o' Ho'. destruct (Hk o' Ho') as (H1 & _ & H2). split; [exact H1|exact H2].
Defined.

Lemma delete_exact_witness :
  let r := ex_set None None in
  exists s', DeleteTrinoResources KNotFound (fun _ => false) r (ex_kube (ex_foreign :: AllResources r)) = (None, s') /\
    objects s' !! key_of ex_foreign = Some ex_foreign /\ forall o, o ∈ AllResources r -> objects s' !! key_of o = None.
Proof.
  intros r. destruct (DeleteTrinoResources KNotFound (fun _ => false) r (ex_kube (ex_foreign :: AllResources r))) as [[e|] s'] eqn:Hrun;
    [vm_compute in Hrun; discriminate|]. exists s'. split; [done|].
  destruct (delete_exact KNotFound (fun _ => false) r (ex_kube (ex_foreign :: AllResources r)) None s') as [Hk Hg];
    [apply (bool_decide_unpack _); vm_compute; exact I|exact Hrun|]. split.
  - rewrite Hk; [vm_compute; reflexivity|apply (bool_decide_unpack _); vm_compute; exact I].
  - intros o Ho. apply Hg; [done|constructor|done].
Defined.

(** A runtime without workers but with graceful shutdown: its access control
    ConfigMap for workers is applied and pruned in the same pass. *)
Lemma worker_access_control_flaps :
  let cm := ex_object KConfigMap "trino-x-access-control-volume-worker" 0 None in
  let '(err, s') := ex_apply (ex_runtime None) (ex_set None (Some cm)) (ex_kube []) in
  err = None /\ objects s' !! key_of cm = None.
Proof. vm_compute. split; reflexivity. Qed.

(** The generated password Secret stays when a Secret of the user takes its place. *)
Lemma replaced_password_secret_stays :
  let x := ex_runtime (Some (mkRawJSON "" (Some (JObject [("auth", JObject [("passwordAuthSecret", JString "mine")])])))) in
  let generated := ex_object KSecret (passwordSecretName (ex_runtime None)) 0 None in
  let '(err, s') := ex_apply x (ex_set None None) (ex_kube [generated]) in
  err = None /\ objects s' !! key_of generated = Some generated.
Proof. vm_compute. split; reflexivity. Qed.
