(* ===== verification/Keda.v ===== *)
(** * Autoscaling of workers with KEDA ([internal/keda/keda.go])

    The ScaledObject of a runtime, its trigger, and the TriggerAuthentication with
    its Secret that a query trigger needs.  The cluster is the map of these objects;
    any call may fail.  How server-side apply merges a ScaledObject is the API
    server's ([ssa]); the two authentication objects have no other writer. *)

From S2P Require Import Prelude GoStrings GoTime GoParse XTrinodeTypes RuntimeShape ControlEndpoint Status Retry World Shutdown Operator Commands Resume Admission.

(** ** Objects *)

Record ScaleTriggers := mkTrigger {
  tr_Type : string;
  tr_MetricType : string;
  tr_Metadata : gmap string string;
  tr_AuthenticationRef : option string
}.

Record Fallback := mkFallback { fb_FailureThreshold : Z; fb_Replicas : Z }.

(** The stabilisation windows of the horizontal autoscaler. *)
Record ScalingBehavior := mkBehavior { sb_ScaleDown : option Z; sb_ScaleUp : option Z }.

Record ScaledObject := mkScaledObject {
  so_Name : string;
  so_Namespace : string;
  so_Annotations : option (gmap string string);
  so_ScaleTarget : string;
  so_MinReplicaCount : option Z;
  so_MaxReplicaCount : option Z;
  so_Triggers : list ScaleTriggers;
  so_CooldownPeriod : option Z;
  so_Behavior : option ScalingBehavior;
  so_Fallback : option Fallback
}.

(** Parameter, Secret and key. *)
Record AuthSecretTargetRef := mkAuthRef { at_Parameter : string; at_Name : string; at_Key : string }.

(** ** Names and keywords *)

Definition BuildWorkerDeploymentName (xtrinodeName : string) : string := BuildReleaseName xtrinodeName +:+ "-worker".
Definition MetricsPath : string := "/metrics".
Definition PrometheusDefaultURL : string := "http://prometheus-operated.monitoring.svc.cluster.local:9090".
Definition KEDADefaultMemoryThreshold : string := "80".
Definition KEDADefaultQueryThreshold : string := "1".
Definition JMXExporterPort : Z := 5556.
Definition TrinoUserHeader : string := "X-Trino-User".
Definition ForwardedProtoHeader : string := "X-Forwarded-Proto".
Definition ForwardedProtoHTTPS : string := "https".
Definition WakeTimeAnnotation : string := "xtrinode.analytics.xtrinode.io/wake-time".

Definition service_url (xtrinodeName namespace : string) (port : Z) (path : string) : string :=
  BuildCoordinatorURLWithPort xtrinodeName namespace port +:+ path.
Definition BuildCoordinatorMetricsURL (xtrinodeName namespace : string) : string :=
  service_url xtrinodeName namespace TrinoPortHTTP MetricsPath.
Definition BuildCoordinatorQueryAPIURL (xtrinodeName namespace : string) : string :=
  service_url xtrinodeName namespace TrinoPortHTTP "/v1/query".
Definition BuildJMXMetricsURL (xtrinodeName namespace : string) (jmxPort : Z) : string :=
  service_url xtrinodeName namespace jmxPort MetricsPath.

Definition normalizeKEDAKeyword (value : string) : string := ToLower (TrimSpace value).

Definition isKEDAResourceMetric (metric : string) : bool :=
  let metric := normalizeKEDAKeyword metric in (metric ≡? "memory") || (metric ≡? "cpu").

Definition buildMetricsAPIAuthName (releaseName : string) : string := releaseName +:+ "-keda-metrics-auth".

(** [strings.ReplaceAll] for a text that is not empty; each step takes a byte. *)
Fixpoint replace_all (fuel : nat) (s old new : string) : string :=
  match fuel with
  | O => s
  | S fuel =>
      match s with
      | EmptyString => EmptyString
      | String c t => if HasPrefix s old then new +:+ replace_all fuel (str_drop (String.length old) s) old new
                      else String c (replace_all fuel t old new)
      end
  end.
Definition ReplaceAll (s old new : string) : string := replace_all (String.length s) s old new.

(** ** Queries and endpoints *)

Definition renderPrometheusQueryTemplate (queryTemplate releaseName namespace xtrinodeName : string) : string :=
  let query := ReplaceAll queryTemplate "{releaseName}" releaseName in
  let query := ReplaceAll query "{namespace}" namespace in
  ReplaceAll query "{xtrinodeName}" xtrinodeName.

Section keda.
Context {E : Type} `{KubeErrors E, !ErrorKinds E, QuantityParser}.
Context (hash16 : hash_input -> string) (shape_error_text : shape_error -> string).
(** [strconv.Quote], the [%q] verb. *)
Context (Quote : string -> string).

Definition buildPrometheusQueryForMetric (releaseName namespace metric : string) : string :=
  let metric := normalizeKEDAKeyword metric in
  let pods := "{pod=~" +:+ Quote (releaseName +:+ "-worker-.*") +:+ ",namespace=" +:+ Quote namespace +:+ "}" in
  if metric ≡? "memory" then
    "(sum(trino_memory_allocated_bytes" +:+ pods +:+ ") / 1024 / 1024 / 1024) / max(count(kube_pod_labels" +:+ pods +:+ "), 1)"
  else if metric ≡? "cpu" then
    "(sum(rate(container_cpu_usage_seconds_total" +:+ pods +:+ "[5m])) * 100) / max(count(kube_pod_labels" +:+ pods +:+ "), 1)"
  else if metric ≡? "query" then
    let xtrinodeName := TrimPrefix releaseName "trino-" in
    "sum(xtrinode_gateway_inflight_queries{exported_namespace=" +:+ Quote namespace +:+ ",xtrinode=" +:+ Quote xtrinodeName +:+
    "}) or sum(xtrinode_gateway_inflight_queries{namespace=" +:+ Quote namespace +:+ ",xtrinode=" +:+ Quote xtrinodeName +:+ "})"
  else "".

Definition buildJMXEndpoint (x : XTrinode) : string :=
  BuildJMXMetricsURL (xt_Name x) (xt_Namespace x)
    match spec_KEDA (xt_Spec x) ≫= keda_JMXExporter with Some jmx => default JMXExporterPort (jmx_Port jmx) | None => JMXExporterPort end.

Definition buildDefaultEndpoint (x : XTrinode) (scalingMetric : string) : string :=
  let metric := normalizeKEDAKeyword scalingMetric in
  if metric ≡? "query" then BuildCoordinatorQueryAPIURL (xt_Name x) (xt_Namespace x)
  else if (metric ≡? "memory") || (metric ≡? "cpu") then ""
  else BuildCoordinatorMetricsURL (xt_Name x) (xt_Namespace x).

Definition buildHTTPScalerEndpoint (x : XTrinode) (scalingMetric httpEndpoint : string) : string :=
  let endpoint := normalizeKEDAKeyword httpEndpoint in
  if endpoint ≡? "" then buildDefaultEndpoint x scalingMetric
  else if endpoint ≡? "coordinator" then
    if normalizeKEDAKeyword scalingMetric ≡? "query" then BuildCoordinatorQueryAPIURL (xt_Name x) (xt_Namespace x)
    else BuildCoordinatorMetricsURL (xt_Name x) (xt_Namespace x)
  else if endpoint ≡? "jmx" then buildJMXEndpoint x
  else TrimSpace httpEndpoint.

Definition dquote : string := String "034"%char "".

Definition buildHTTPValueLocation (scalingMetric httpValueLocation : string) : string :=
  if negb (httpValueLocation ≡? "") then httpValueLocation else
  let metric := normalizeKEDAKeyword scalingMetric in
  if metric ≡? "query" then "#(state!=" +:+ dquote +:+ "FINISHED" +:+ dquote +:+ ")#|#(state!=" +:+ dquote +:+ "FAILED" +:+ dquote +:+ ")#|#"
  else if metric ≡? "memory" then "trino_memory_allocated_bytes\{[^}]*\}\s+([0-9.]+)"
  else if metric ≡? "cpu" then "container_cpu_usage_seconds_total\{[^}]*\}\s+([0-9.]+)"
  else "#".

Definition buildHTTPFormat (scalingMetric httpEndpoint : string) : string :=
  if (normalizeKEDAKeyword scalingMetric ≡? "query") && HasSuffix (TrimSpace httpEndpoint) "/v1/query" then "json" else "prometheus".

Definition buildHTTPScalerConfig (x : XTrinode) (scalingMetric httpEndpoint httpValueLocation : string) : string * string :=
  if isKEDAResourceMetric scalingMetric then ("", "")
  else (buildHTTPScalerEndpoint x scalingMetric httpEndpoint, buildHTTPValueLocation scalingMetric httpValueLocation).

(** ** The trigger *)

(** What [EnsureScaledObject] derives from the specification. *)
Record scaler := mkScaler {
  sc_Type : string;
  sc_Metric : string;
  sc_Threshold : string;
  sc_PrometheusServer : string;
  sc_PrometheusQuery : string;
  sc_HTTPEndpoint : string;
  sc_HTTPValueLocation : string;
  sc_HTTPFormat : string
}.

Definition nonblank (o : option string) : bool := match o with Some s => negb (TrimSpace s ≡? "") | None => false end.

Definition plan_scaler (x : XTrinode) : result E scaler :=
  let keda := spec_KEDA (xt_Spec x) in
  let releaseName := BuildReleaseName (xt_Name x) in
  let scalerType := match keda with Some k => normalizeKEDAKeyword (keda_ScalerType k) | None => "" end in
  let scalingMetric := match keda with Some k => normalizeKEDAKeyword (keda_ScalingMetric k) | None => "" end in
  let prometheusServer := default PrometheusDefaultURL (keda ≫= keda_PrometheusServer) in
  let prometheusQuery := match keda ≫= keda_PrometheusQuery with
                         | Some q => renderPrometheusQueryTemplate q releaseName (xt_Namespace x) (xt_Name x)
                         | None => ""
                         end in
  let httpEndpoint := match keda ≫= keda_HTTPEndpoint with Some e => TrimSpace e | None => "" end in
  let httpValueLocation := default "" (keda ≫= keda_HTTPValueLocation) in
  if bool_decide (is_Some keda) && (normalizeKEDAKeyword httpEndpoint ≡? "aggregator") then
    Err (errors_New "failed to configure KEDA metrics-api scaler: httpEndpoint aggregator is no longer supported")
  else
  let scalerType :=
    if negb (scalerType ≡? "") then scalerType
    else if negb (prometheusQuery ≡? "") || nonblank (keda ≫= keda_PrometheusServer) then "prometheus" else "http" in
  let scalingMetric :=
    if negb (scalingMetric ≡? "") then scalingMetric else if scalerType ≡? "prometheus" then "query" else "memory" in
  let http := (scalerType ≡? "http") && negb (isKEDAResourceMetric scalingMetric) in
  let '(httpEndpoint, httpValueLocation) :=
    if http then buildHTTPScalerConfig x scalingMetric httpEndpoint httpValueLocation else (httpEndpoint, httpValueLocation) in
  let httpFormat := if http then buildHTTPFormat scalingMetric httpEndpoint else "prometheus" in
  let prometheusQuery :=
    if negb http && (scalerType ≡? "prometheus") && (prometheusQuery ≡? "")
    then buildPrometheusQueryForMetric releaseName (xt_Namespace x) scalingMetric else prometheusQuery in
  if (scalerType ≡? "prometheus") && (TrimSpace prometheusQuery ≡? "") then
    Err (errors_New ("failed to configure KEDA Prometheus scaler: no query for scalingMetric " +:+ Quote scalingMetric))
  else if http && (TrimSpace httpEndpoint ≡? "") then
    Err (errors_New ("failed to configure KEDA metrics-api scaler: no endpoint for scalingMetric " +:+ Quote scalingMetric))
  else
  let threshold :=
    match keda ≫= keda_Threshold with
    | Some t => t
    | None => if scalingMetric ≡? "query" then KEDADefaultQueryThreshold else KEDADefaultMemoryThreshold
    end in
  Ok (mkScaler scalerType scalingMetric threshold prometheusServer prometheusQuery httpEndpoint httpValueLocation httpFormat).

Definition buildKEDATriggers (sc : scaler) (authName : string) : list ScaleTriggers :=
  if sc_Type sc ≡? "http" then
    if isKEDAResourceMetric (sc_Metric sc) then
      [mkTrigger (normalizeKEDAKeyword (sc_Metric sc)) "Utilization" {[ "value" := sc_Threshold sc ]} None]
    else
      [mkTrigger "metrics-api" ""
         {[ "url" := sc_HTTPEndpoint sc; "format" := sc_HTTPFormat sc; "valueLocation" := sc_HTTPValueLocation sc;
            "targetValue" := sc_Threshold sc; "unsafeSsl" := "false" ]}
         (if authName ≡? "" then None else Some authName)]
  else
    [mkTrigger "prometheus" ""
       {[ "serverAddress" := sc_PrometheusServer sc; "query" := sc_PrometheusQuery sc; "threshold" := sc_Threshold sc ]} None].

Definition shouldUseTrinoQueryAuth (x : XTrinode) (sc : scaler) : bool :=
  (sc_Type sc ≡? "http") && (normalizeKEDAKeyword (sc_Metric sc) ≡? "query") &&
  (TrimSpace (sc_HTTPEndpoint sc) ≡? BuildCoordinatorQueryAPIURL (xt_Name x) (xt_Namespace x)).

(** ** The ScaledObject *)

Definition buildScaledObjectSpec (x : XTrinode) (minReplicas maxReplicas : Z) (sc : scaler) (authName : string) : ScaledObject :=
  mkScaledObject (BuildScaledObjectName (xt_Name x)) (xt_Namespace x) None (BuildWorkerDeploymentName (xt_Name x))
    (Some minReplicas) (Some maxReplicas) (buildKEDATriggers sc authName) None None None.

(** [int32(d.Seconds())]; the floating-point sum is exact below 2^22 seconds. *)
Definition cooldown_seconds (d : Duration) : Z :=
  let t := Z.quot d Second in if (int32_min <=? t) && (t <=? int32_max) then t else int32_min.

Definition applyKEDACooldownConfig (k : KEDASpec) (so : ScaledObject) : ScaledObject :=
  mkScaledObject (so_Name so) (so_Namespace so) (so_Annotations so) (so_ScaleTarget so) (so_MinReplicaCount so) (so_MaxReplicaCount so)
    (so_Triggers so)
    (match keda_ScaleDownCooldown k with Some d => Some (cooldown_seconds d) | None => so_CooldownPeriod so end)
    (Some (mkBehavior (cooldown_seconds <$> keda_ScaleDownCooldown k) (cooldown_seconds <$> keda_ScaleUpCooldown k)))
    (so_Fallback so).

Definition extractFallbackConfig (fallback : list (string * json)) : option Fallback :=
  let failureThreshold := default 0 (parseOverlayInt32 (json_get fallback "failureThreshold")) in
  let replicas := default 0 (parseOverlayInt32 (json_get fallback "replicas")) in
  if (0 <? failureThreshold) && (0 <? replicas) then Some (mkFallback failureThreshold replicas) else None.

Definition overlay_object (values : option (list (string * json))) (key : string) : option (list (string * json)) :=
  match values with
  | Some values => match json_get values key with JObject m => Some m | _ => None end
  | None => None
  end.

Definition set_Fallback (f : Fallback) (so : ScaledObject) : ScaledObject :=
  mkScaledObject (so_Name so) (so_Namespace so) (so_Annotations so) (so_ScaleTarget so) (so_MinReplicaCount so) (so_MaxReplicaCount so)
    (so_Triggers so) (so_CooldownPeriod so) (so_Behavior so) (Some f).

Definition applyKEDAFallbackConfig (x : XTrinode) (so : ScaledObject) : ScaledObject :=
  let server := overlay_object (GetValuesOverlayMap (xt_Spec x)) "server" in
  match overlay_object (overlay_object server "keda") "fallback" ≫= extractFallbackConfig with
  | Some f => set_Fallback f so
  | None => so
  end.

Definition applyKEDAAdvancedConfig (x : XTrinode) (so : ScaledObject) : ScaledObject :=
  match spec_KEDA (xt_Spec x) with
  | None => so
  | Some k =>
      let so := match keda_ScaleDownCooldown k, keda_ScaleUpCooldown k with
                | None, None => so
                | _, _ => applyKEDACooldownConfig k so
                end in
      applyKEDAFallbackConfig x so
  end.

(** ** Authentication of the trigger *)

Definition buildMetricsAPIAuthDataAndRefs (x : XTrinode) (authName : string) : gmap string string * list AuthSecretTargetRef :=
  let own parameter := mkAuthRef parameter authName parameter in
  match spec_TrinoControlAuth (xt_Spec x) ≫= ca_PasswordSecret with
  | Some (name, key) =>
      if HTTPAuthenticationConfigured x then
        ({[ "authModes" := "basic,apiKey"; "username" := Username x; "apiKey" := ForwardedProtoHTTPS; "method" := "header";
            "keyParamName" := ForwardedProtoHeader ]},
         [own "authModes"; own "username"; mkAuthRef "password" name key; own "apiKey"; own "method"; own "keyParamName"])
      else
        ({[ "authModes" := "apiKey"; "apiKey" := "xtrinode-keda"; "method" := "header"; "keyParamName" := TrinoUserHeader ]},
         [own "authModes"; own "apiKey"; own "method"; own "keyParamName"])
  | None =>
      ({[ "authModes" := "apiKey"; "apiKey" := "xtrinode-keda"; "method" := "header"; "keyParamName" := TrinoUserHeader ]},
       [own "authModes"; own "apiKey"; own "method"; own "keyParamName"])
  end.

(** ** The cluster *)

(** Namespace and name. *)
Notation object_key := (string * string)%type.

Record keda_cluster := mkCluster {
  kc_ScaledObjects : gmap object_key ScaledObject;
  kc_Authentications : gmap object_key (list AuthSecretTargetRef);
  kc_Secrets : gmap object_key (gmap string string);
  kc_faults : list (option E)
}.

Context (not_found : E) (ssa : option ScaledObject -> ScaledObject -> ScaledObject).

Definition set_ScaledObjects m (s : keda_cluster) := mkCluster m (kc_Authentications s) (kc_Secrets s) (kc_faults s).
Definition set_Authentications m (s : keda_cluster) := mkCluster (kc_ScaledObjects s) m (kc_Secrets s) (kc_faults s).
Definition set_Secrets m (s : keda_cluster) := mkCluster (kc_ScaledObjects s) (kc_Authentications s) m (kc_faults s).

(** A call that fails, or does what it is asked to. *)
Definition call {A} (failed : E -> A) (f : keda_cluster -> A * keda_cluster) (s : keda_cluster) : A * keda_cluster :=
  match kc_faults s with
  | [] => f s
  | fault :: fs =>
      let s := mkCluster (kc_ScaledObjects s) (kc_Authentications s) (kc_Secrets s) fs in
      match fault with Some e => (failed e, s) | None => f s end
  end.

Definition key_of (so : ScaledObject) : object_key := (so_Namespace so, so_Name so).

Definition GetDeployment_call : keda_cluster -> option E * keda_cluster := call Some (fun s => (None, s)).
Definition Get_call (k : object_key) : keda_cluster -> result E ScaledObject * keda_cluster :=
  call Err (fun s => (match kc_ScaledObjects s !! k with Some so => Ok so | None => Err not_found end, s)).
Definition Apply_call (so : ScaledObject) : keda_cluster -> option E * keda_cluster :=
  call Some (fun s => (None, set_ScaledObjects (<[key_of so := ssa (kc_ScaledObjects s !! key_of so) so]> (kc_ScaledObjects s)) s)).
(** A write of the whole object; it must exist. *)
Definition Update_call (so : ScaledObject) : keda_cluster -> option E * keda_cluster :=
  call Some (fun s => match kc_ScaledObjects s !! key_of so with
                      | Some _ => (None, set_ScaledObjects (<[key_of so := so]> (kc_ScaledObjects s)) s)
                      | None => (Some not_found, s)
                      end).
Definition Delete_call (k : object_key) : keda_cluster -> option E * keda_cluster :=
  call Some (fun s => match kc_ScaledObjects s !! k with
                      | Some _ => (None, set_ScaledObjects (delete k (kc_ScaledObjects s)) s)
                      | None => (Some not_found, s)
                      end).
Definition ApplySecret_call (k : object_key) (data : gmap string string) : keda_cluster -> option E * keda_cluster :=
  call Some (fun s => (None, set_Secrets (<[k := data]> (kc_Secrets s)) s)).
Definition ApplyAuthentication_call (k : object_key) (refs : list AuthSecretTargetRef) : keda_cluster -> option E * keda_cluster :=
  call Some (fun s => (None, set_Authentications (<[k := refs]> (kc_Authentications s)) s)).
Definition DeleteSecret_call (k : object_key) : keda_cluster -> option E * keda_cluster :=
  call Some (fun s => match kc_Secrets s !! k with
                      | Some _ => (None, set_Secrets (delete k (kc_Secrets s)) s)
                      | None => (Some not_found, s)
                      end).
Definition DeleteAuthentication_call (k : object_key) : keda_cluster -> option E * keda_cluster :=
  call Some (fun s => match kc_Authentications s !! k with
                      | Some _ => (None, set_Authentications (delete k (kc_Authentications s)) s)
                      | None => (Some not_found, s)
                      end).

Definition ensureMetricsAPIAuth (x : XTrinode) (authName : string) : M keda_cluster (option E) :=
  let '(authData, authRefs) := buildMetricsAPIAuthDataAndRefs x authName in
  err ← ApplySecret_call (xt_Namespace x, authName) authData;
  match err with
  | Some e => mret (Some (Errorf "failed to create/update KEDA metrics-api auth Secret: " e))
  | None =>
      err ← ApplyAuthentication_call (xt_Namespace x, authName) authRefs;
      mret (Errorf "failed to create/update KEDA metrics-api TriggerAuthentication: " <$> err)
  end.

Definition unless_missing (message : string) (err : option E) : option E :=
  match err with Some e => if IsNotFound e then None else Some (Errorf message e) | None => None end.

Definition cleanupMetricsAPIAuth (releaseName namespace : string) : M keda_cluster (option E) :=
  let authName := buildMetricsAPIAuthName releaseName in
  err ← DeleteAuthentication_call (namespace, authName);
  match unless_missing "failed to delete stale KEDA metrics-api TriggerAuthentication: " err with
  | Some e => mret (Some e)
  | None =>
      err ← DeleteSecret_call (namespace, authName);
      mret (unless_missing "failed to delete stale KEDA metrics-api auth Secret: " err)
  end.

(** What the reads of the Deployment and of the old ScaledObject find is only
    logged and counted. *)
Definition EnsureScaledObject (x : XTrinode) : M keda_cluster (option E) :=
  let releaseName := BuildReleaseName (xt_Name x) in
  _ ← GetDeployment_call;
  match Resolve hash16 x with
  | Err e => mret (Some (Errorf "failed to resolve runtime shape for KEDA ScaledObject: " (errors_New (shape_error_text e))))
  | Ok shape =>
      match plan_scaler x with
      | Err e => mret (Some e)
      | Ok sc =>
          let authName := if shouldUseTrinoQueryAuth x sc then buildMetricsAPIAuthName releaseName else "" in
          err ← (if shouldUseTrinoQueryAuth x sc then ensureMetricsAPIAuth x authName
                 else cleanupMetricsAPIAuth releaseName (xt_Namespace x));
          match err with
          | Some e => mret (Some e)
          | None =>
              let scaledObject := applyKEDAAdvancedConfig x
                (buildScaledObjectSpec x (sh_MinWorkers shape) (sh_MaxWorkers shape) sc authName) in
              _ ← Get_call (key_of scaledObject);
              err ← Apply_call scaledObject;
              mret (Errorf "failed to create/update KEDA ScaledObject: " <$> err)
          end
      end
  end.

Definition DisableScaledObject (x : XTrinode) : M keda_cluster (option E) :=
  let k := (xt_Namespace x, BuildReleaseName (xt_Name x) +:+ "-workers") in
  got ← Get_call k;
  match got with
  | Err e => mret (if IsNotFound e then None else Some (Errorf "failed to get KEDA ScaledObject: " e))
  | Ok _ => err ← Delete_call k; mret (unless_missing "failed to disable KEDA ScaledObject: " err)
  end.

Definition set_MinWorkers_spec (n : Z) (x : XTrinode) : XTrinode :=
  let s := xt_Spec x in
  mkXTrinode (xt_Name x) (xt_Namespace x) (xt_Generation x) (xt_ResourceVersion x) (xt_CreationTimestamp x) (xt_DeletionTimestamp x)
    (xt_Finalizers x) (xt_Labels x) (xt_Annotations x)
    (mkSpecFull (spec_Size s) (spec_MaxWorkers s) (Some n) (spec_Suspended s) (spec_AutoSuspendAfter s) (spec_WakeMinWorkers s)
       (spec_WakeTTL s) (spec_Resources s) (spec_Placement s) (spec_NodePool s) (spec_Routing s) (spec_ValuesOverlay s) (spec_KEDA s)
       (spec_TrinoControlAuth s) (spec_OperatorNodePoolDefaults s) (spec_CatalogSelector s) (spec_ResourceGroupsProfile s)
       (spec_CustomConfigMaps s) (spec_Limits s) (spec_FaultTolerantExecution s) (spec_TLS s) (spec_HelmChartConfig s) (spec_RolloutPolicy s))
    (xt_Status x).

Definition wake_object (now : Time) (x : XTrinode) (wakeMinWorkers maxReplicas : Z) (so : ScaledObject) : ScaledObject :=
  let annotations := <[WakeTimeAnnotation := FormatRFC3339 now]> (default ∅ (so_Annotations so)) in
  let annotations := match spec_WakeTTL (xt_Spec x) with
                     | Some d => <[WakeTTLAnnotation := duration_String d]> annotations
                     | None => annotations
                     end in
  mkScaledObject (so_Name so) (so_Namespace so) (Some annotations) (so_ScaleTarget so) (Some wakeMinWorkers) (Some maxReplicas)
    (so_Triggers so) (so_CooldownPeriod so) (so_Behavior so) (so_Fallback so).

(** A ScaledObject that a suspend removed is created again, with the wake floor as
    the minimum. *)
Definition EnableScaledObjectWithWakeMinWorkers (now : Time) (x : XTrinode) (wakeMinWorkers : Z) : M keda_cluster (option E) :=
  got ← Get_call (xt_Namespace x, BuildReleaseName (xt_Name x) +:+ "-workers");
  match got with
  | Err e =>
      if IsNotFound e then EnsureScaledObject (set_MinWorkers_spec wakeMinWorkers x)
      else mret (Some (Errorf "failed to get KEDA ScaledObject: " e))
  | Ok so =>
      match Resolve hash16 x with
      | Err e => mret (Some (Errorf "failed to resolve runtime shape for KEDA wake scaling: " (errors_New (shape_error_text e))))
      | Ok shape =>
          err ← Update_call (wake_object now x wakeMinWorkers (sh_MaxWorkers shape) so);
          mret (Errorf "failed to enable KEDA ScaledObject: " <$> err)
      end
  end.

(** An object that is already gone ends the deletion. *)
Definition DeleteScaledObject (x : XTrinode) : M keda_cluster (option E) :=
  let releaseName := BuildReleaseName (xt_Name x) in
  err ← Delete_call (xt_Namespace x, releaseName +:+ "-workers");
  match err with
  | Some e => mret (if IsNotFound e then None else Some (Errorf "failed to delete KEDA ScaledObject: " e))
  | None => cleanupMetricsAPIAuth releaseName (xt_Namespace x)
  end.
End keda.
