(* ===== verification/KedaSound.v ===== *)
(** * What the autoscaling objects of a runtime are

    A ScaledObject that was ensured has the replicas of the resolved shape and one
    trigger whose authentication is there; a wake raises its minimum to the wake
    floor, a suspend removes it. *)

From S2P Require Import Prelude GoStrings GoTime GoParse XTrinodeTypes RuntimeShape ControlEndpoint Status Retry World Shutdown Operator Commands Resume Admission Keda.

Section sound.
Context {E : Type} `{KubeErrors E, !ErrorKinds E, QuantityParser}.
Context (hash16 : hash_input -> string) (shape_error_text : shape_error -> string) (Quote : string -> string).
Context (not_found : E) (ssa : option ScaledObject -> ScaledObject -> ScaledObject).

Notation cluster := (@keda_cluster E).
Notation Ensure := (EnsureScaledObject hash16 shape_error_text Quote not_found ssa).

(** Server-side apply writes the fields of what is applied. *)
Definition applies : Prop := forall old new,
  so_ScaleTarget (ssa old new) = so_ScaleTarget new /\ so_MinReplicaCount (ssa old new) = so_MinReplicaCount new /\
  so_MaxReplicaCount (ssa old new) = so_MaxReplicaCount new /\ so_Triggers (ssa old new) = so_Triggers new.

(** Calls do not fail as if an object were missing. *)
Definition honest (s : cluster) : Prop := Forall (fun f => match f with Some e => IsNotFound e = false | None => True end) (kc_faults s).

(** The same objects, after some more calls. *)
Definition later (s s0 : cluster) : Prop :=
  kc_ScaledObjects s0 = kc_ScaledObjects s /\ kc_Authentications s0 = kc_Authentications s /\ kc_Secrets s0 = kc_Secrets s /\
  (honest s -> honest s0).

(** ** Calls *)

Lemma call_cases {A} (failed : E -> A) f (s : cluster) r s' : call failed f s = (r, s') ->
  (exists s0, later s s0 /\ f s0 = (r, s')) \/ (exists e, r = failed e /\ later s s' /\ (honest s -> IsNotFound e = false)).
Proof.
  unfold call. destruct (kc_faults s) as [|[e|] fs] eqn:Hf.
  - intros Hr. left. exists s. split; [|done]. by repeat split.
  - intros [= <- <-]. right. exists e. unfold later, honest. rewrite Hf. simpl. split; [done|].
    split; [repeat split; intros Hh|intros Hh]; by apply list.Forall_cons in Hh as [? ?].
  - intros Hr. left. eexists. split; [|exact Hr]. unfold later, honest. rewrite Hf. simpl. repeat split.
    intros Hh. by apply list.Forall_cons in Hh as [? ?].
Qed.

Lemma call_ok f (s : cluster) s' : call Some f s = (None, s') -> exists s0, later s s0 /\ f s0 = (None, s').
Proof. intros [Hc|(e & [=] & _)]%call_cases. exact Hc. Qed.

Lemma later_refl s : later s s.
Proof. by repeat split. Qed.
Lemma later_trans s1 s2 s3 : later s1 s2 -> later s2 s3 -> later s1 s3.
Proof. intros (Ha1 & Hb1 & Hc1 & H1) (Ha2 & Hb2 & Hc2 & H2). repeat split; try congruence. auto. Qed.

Lemma read_later {A} (failed : E -> A) g (s : cluster) r s' : call failed (fun s => (g s, s)) s = (r, s') -> later s s'.
Proof. intros [(s0 & Hl & [= _ <-])|(e & _ & Hl & _)]%call_cases; exact Hl. Qed.

(** A deletion that reports success or a missing object has removed it. *)
Lemma delete_gone {V} (get : cluster -> gmap (string * string) V) (set : gmap (string * string) V -> cluster -> cluster) k err (s s' : cluster) :
  (forall m s, get (set m s) = m) -> (forall s s0, later s s0 -> get s0 = get s) ->
  call Some (fun s => match get s !! k with Some _ => (None, set (delete k (get s)) s) | None => (Some not_found, s) end) s = (err, s') ->
  honest s -> (forall e, err = Some e -> IsNotFound e = true) -> get s' = delete k (get s).
Proof.
  intros Hgs Hgl [(s0 & Hl & Hr)|(e & -> & _ & Hh)]%call_cases Hs He.
  - rewrite <- (Hgl _ _ Hl). destruct (get s0 !! k) eqn:Hk; injection Hr as <- <-; [by rewrite Hgs|]. by rewrite delete_id.
  - specialize (He e eq_refl). by rewrite Hh in He.
Qed.

(** ** Authentication *)

Lemma ensure_auth x a (s s' : cluster) : ensureMetricsAPIAuth x a s = (None, s') ->
  kc_ScaledObjects s' = kc_ScaledObjects s /\
  kc_Secrets s' = <[(xt_Namespace x, a) := (buildMetricsAPIAuthDataAndRefs x a).1]> (kc_Secrets s) /\
  kc_Authentications s' = <[(xt_Namespace x, a) := (buildMetricsAPIAuthDataAndRefs x a).2]> (kc_Authentications s).
Proof.
  unfold ensureMetricsAPIAuth. destruct (buildMetricsAPIAuthDataAndRefs x a) as [data refs]. unfold mbind, M_bind.
  destruct (ApplySecret_call _ _ s) as [err s1] eqn:H1. destruct err as [e|]; [done|].
  apply call_ok in H1 as (s0 & (Hso & Ha & Hsec & _) & [= <-]).
  destruct (ApplyAuthentication_call _ _ _) as [err s2] eqn:H2. destruct err as [e|]; [done|]. intros [= <-].
  apply call_ok in H2 as (s3 & (Hso' & Ha' & Hsec' & _) & [= <-]). simpl in *. by rewrite Hso', Ha', Hsec', Hso, Ha, Hsec.
Qed.

Lemma auth_refs x a : Forall (fun r => (at_Name r = a /\ is_Some ((buildMetricsAPIAuthDataAndRefs x a).1 !! at_Key r)) \/
  (at_Parameter r = "password" /\ spec_TrinoControlAuth (xt_Spec x) ≫= ca_PasswordSecret = Some (at_Name r, at_Key r)))
  (buildMetricsAPIAuthDataAndRefs x a).2.
Proof.
  unfold buildMetricsAPIAuthDataAndRefs. destruct (spec_TrinoControlAuth (xt_Spec x) ≫= ca_PasswordSecret) as [[n k]|];
    [destruct (HTTPAuthenticationConfigured x)|]; cbn [fst snd]; apply list.Forall_forall; intros r Hr;
    rewrite list_elem_of_In in Hr; cbn [In] in Hr;
    repeat (destruct Hr as [<-|Hr]; [cbn [at_Name at_Key at_Parameter];
      first [right; split; reflexivity|left; split; [reflexivity|eexists; reflexivity]]|]); done.
Qed.

Lemma cleanup_auth release ns (s s' : cluster) : honest s -> cleanupMetricsAPIAuth not_found release ns s = (None, s') ->
  kc_ScaledObjects s' = kc_ScaledObjects s /\
  kc_Secrets s' = delete (ns, buildMetricsAPIAuthName release) (kc_Secrets s) /\
  kc_Authentications s' = delete (ns, buildMetricsAPIAuthName release) (kc_Authentications s).
Proof.
  intros Hs. unfold cleanupMetricsAPIAuth, mbind, M_bind. set (k := (ns, buildMetricsAPIAuthName release)).
  destruct (DeleteAuthentication_call not_found k s) as [err s1] eqn:H1.
  destruct (unless_missing _ err) as [e|] eqn:Hm1; [done|].
  destruct (DeleteSecret_call not_found k s1) as [err2 s2] eqn:H2. intros [= Hm2 <-].
  assert (forall message err, unless_missing message err = None -> forall e, err = Some e -> IsNotFound e = true) as Hmiss.
  { intros message [e'|] Hu e; [|done]. intros [= ->]. simpl in Hu. by destruct (IsNotFound e). }
  assert (kc_Authentications s1 = delete k (kc_Authentications s)) as Ha.
  { by eapply (delete_gone kc_Authentications set_Authentications k err s s1); [..|exact H1|exact Hs|exact (Hmiss _ _ Hm1)]; [|intros ? ? (_ & ? & _)]. }
  assert (honest s1 /\ kc_ScaledObjects s1 = kc_ScaledObjects s /\ kc_Secrets s1 = kc_Secrets s) as (Hs1 & Hso & Hsec).
  { apply call_cases in H1 as [(s0 & (Hso & _ & Hsec & Hh) & Hr)|(e & -> & (Hso & _ & Hsec & Hh) & _)]; [|by repeat split; auto].
    destruct (kc_Authentications s0 !! k); injection Hr as <- <-; repeat split; auto. }
  assert (kc_Secrets s2 = delete k (kc_Secrets s1)) as Hsec2.
  { by eapply (delete_gone kc_Secrets set_Secrets k err2 s1 s2); [..|exact H2|exact Hs1|exact (Hmiss _ _ Hm2)]; [|intros ? ? (_ & _ & ? & _)]. }
  assert (kc_ScaledObjects s2 = kc_ScaledObjects s1 /\ kc_Authentications s2 = kc_Authentications s1) as [Hso2 Ha2].
  { apply call_cases in H2 as [(s0 & (Hso' & Ha' & _) & Hr)|(e & -> & (Hso' & Ha' & _) & _)]; [|done].
    destruct (kc_Secrets s0 !! k); injection Hr as <- <-; by rewrite ?Hso', ?Ha'. }
  by rewrite Hso2, Hso, Hsec2, Hsec, Ha2, Ha.
Qed.

(** ** Triggers *)

Lemma advanced_fields x so : let so' := applyKEDAAdvancedConfig x so in
  key_of so' = key_of so /\ so_ScaleTarget so' = so_ScaleTarget so /\ so_MinReplicaCount so' = so_MinReplicaCount so /\
  so_MaxReplicaCount so' = so_MaxReplicaCount so /\ so_Triggers so' = so_Triggers so.
Proof.
  unfold applyKEDAAdvancedConfig, applyKEDAFallbackConfig. destruct (spec_KEDA (xt_Spec x)) as [k|]; [|done].
  destruct (_ ≫= extractFallbackConfig); destruct (keda_ScaleDownCooldown k), (keda_ScaleUpCooldown k); done.
Qed.

Lemma one_trigger x sc a : a <> "" -> exists t,
  buildKEDATriggers sc (if shouldUseTrinoQueryAuth x sc then a else "") = [t] /\
  tr_AuthenticationRef t = (if shouldUseTrinoQueryAuth x sc then Some a else None).
Proof.
  intros Ha. unfold buildKEDATriggers. destruct (shouldUseTrinoQueryAuth x sc) eqn:Hu.
  - unfold shouldUseTrinoQueryAuth in Hu. apply andb_true_iff in Hu as [[Ht Hq]%andb_true_iff _]. rewrite Ht.
    apply bool_decide_eq_true in Hq. unfold isKEDAResourceMetric. rewrite Hq. simpl. eexists. split; [reflexivity|]. simpl.
    by rewrite bool_decide_eq_false_2.
  - destruct (sc_Type sc ≡? "http"); [destruct (isKEDAResourceMetric (sc_Metric sc))|]; eexists; (split; [reflexivity|]); done.
Qed.

Lemma auth_name_nonempty release : buildMetricsAPIAuthName release <> "".
Proof. unfold buildMetricsAPIAuthName. by destruct release. Qed.

(** ** The ScaledObject *)

(** What an ensured ScaledObject is. *)
Record ensured (x : XTrinode) (s s' : cluster) (shape : ResolvedRuntimeShape) (t : ScaleTriggers) (so : ScaledObject) : Prop := mkEnsured {
  en_shape : Resolve hash16 x = Ok shape;
  en_objects : kc_ScaledObjects s' = <[(xt_Namespace x, BuildScaledObjectName (xt_Name x)) := so]> (kc_ScaledObjects s);
  en_target : so_ScaleTarget so = BuildWorkerDeploymentName (xt_Name x);
  en_min : so_MinReplicaCount so = Some (sh_MinWorkers shape);
  en_max : so_MaxReplicaCount so = Some (sh_MaxWorkers shape);
  en_trigger : so_Triggers so = [t];
  en_auth : let auth := (xt_Namespace x, buildMetricsAPIAuthName (BuildReleaseName (xt_Name x))) in
    match tr_AuthenticationRef t with
    | Some a =>
        auth = (xt_Namespace x, a) /\
        exists data refs, kc_Secrets s' = <[auth := data]> (kc_Secrets s) /\ kc_Authentications s' = <[auth := refs]> (kc_Authentications s) /\
        data !! "password" = None /\
        Forall (fun r => (at_Name r = a /\ is_Some (data !! at_Key r)) \/
                         (at_Parameter r = "password" /\ spec_TrinoControlAuth (xt_Spec x) ≫= ca_PasswordSecret = Some (at_Name r, at_Key r))) refs
    | None => kc_Secrets s' = delete auth (kc_Secrets s) /\ kc_Authentications s' = delete auth (kc_Authentications s)
    end
}.

Lemma auth_without_password x a : (buildMetricsAPIAuthDataAndRefs x a).1 !! "password" = None.
Proof.
  unfold buildMetricsAPIAuthDataAndRefs. destruct (spec_TrinoControlAuth (xt_Spec x) ≫= ca_PasswordSecret) as [[n k]|];
    [destruct (HTTPAuthenticationConfigured x)|]; reflexivity.
Qed.

Lemma ensure_spec x (s s' : cluster) : applies -> honest s -> Ensure x s = (None, s') -> exists shape t so, ensured x s s' shape t so.
Proof.
  intros Happ Hs. unfold EnsureScaledObject, mbind, M_bind.
  destruct (GetDeployment_call s) as [err s1] eqn:H1. assert (Hl1 : later s s1) by exact (read_later Some (fun _ => None) _ _ _ H1). clear H1.
  destruct (Resolve hash16 x) as [shape|] eqn:Hshape; [|done]. destruct (plan_scaler Quote x) as [sc|]; [|done].
  set (a := buildMetricsAPIAuthName (BuildReleaseName (xt_Name x))).
  destruct (one_trigger x sc a (auth_name_nonempty _)) as (t & Ht & Hta).
  set (base := buildScaledObjectSpec x (sh_MinWorkers shape) (sh_MaxWorkers shape) sc (if shouldUseTrinoQueryAuth x sc then a else "")).
  destruct (advanced_fields x base) as (Hkey & Htgt & Hmin & Hmax & Htr).
  set (so := applyKEDAAdvancedConfig x base) in *.
  destruct (_ s1) as [[e|] s2] eqn:H2; [done|].
  destruct (Get_call not_found (key_of so) s2) as [got s3] eqn:H3. assert (Hl3 : later s2 s3) by (unfold Get_call in H3; by apply read_later in H3). clear H3.
  destruct (Apply_call ssa so s3) as [[e|] s4] eqn:H4; [done|]. intros [= <-].
  apply call_ok in H4 as (s5 & Hl5 & [= <-]). pose proof (later_trans _ _ _ Hl3 Hl5) as (Hso & Ha & Hsec & _).
  destruct Hl1 as (Hso1 & Ha1 & Hsec1 & Hh1). destruct (Happ (kc_ScaledObjects s5 !! key_of so) so) as (Ptgt & Pmin & Pmax & Ptr).
  assert (key_of so = (xt_Namespace x, BuildScaledObjectName (xt_Name x))) as Hk by (rewrite Hkey; reflexivity).
  assert (kc_ScaledObjects s2 = kc_ScaledObjects s1) as Hso2.
  { destruct (shouldUseTrinoQueryAuth x sc); [by apply ensure_auth in H2 as [? _]|apply cleanup_auth in H2 as [? _]; auto]. }
  exists shape, t, (ssa (kc_ScaledObjects s5 !! key_of so) so). constructor; cbn [kc_ScaledObjects kc_Authentications kc_Secrets set_ScaledObjects].
  - done.
  - by rewrite Hk, Hso, Hso2, Hso1.
  - by rewrite Ptgt, Htgt.
  - by rewrite Pmin, Hmin.
  - by rewrite Pmax, Hmax.
  - rewrite Ptr, Htr. exact Ht.
  - rewrite Hta, Ha, Hsec. fold a. destruct (shouldUseTrinoQueryAuth x sc).
    + apply ensure_auth in H2 as (_ & Hs2 & Ha2). split; [done|]. do 2 eexists. rewrite Hs2, Ha2, Hsec1, Ha1.
      split; [reflexivity|]. split; [reflexivity|]. split; [apply auth_without_password|]. apply auth_refs.
    + apply cleanup_auth in H2 as (_ & Hs2 & Ha2); [|auto]. by rewrite Hs2, Ha2, Hsec1, Ha1.
Qed.

(** C16: Ensuring the ScaledObject of a runtime: one with the replicas of its resolved
    shape, for its worker Deployment, with one trigger.  When the trigger asks for
    authentication, that is there, and takes its values from its own Secret, which
    never holds the password, or from the password Secret of the runtime;
    otherwise no authentication is left.  No other object changes. *)
Theorem scaled_object_sound x (s s' : cluster) : applies -> honest s -> Ensure x s = (None, s') ->
  exists shape t so, ensured x s s' shape t so.
Proof. apply ensure_spec. Qed.

(** ** Suspend and wake *)

Lemma keda_counts x shape : Resolve hash16 x = Ok shape -> IsKEDAActive x = true ->
  sh_MinWorkers shape = default 0 (spec_MinWorkers (xt_Spec x)) /\ sh_MaxWorkers shape = default KEDADefaultMaxWorkers (spec_MaxWorkers (xt_Spec x)).
Proof.
  intros (preset & cr & wr & sh1 & sh2 & sh3 & _ & _ & H2 & H3 & _ & ->)%resolve_stages Hk.
  unfold resolveWorkerCounts in H2. rewrite Hk in H2. destruct (_ <? _); [done|]. injection H2 as <-.
  apply binding_spec in H3 as [Hpl _]. destruct (resolveCapacity_spec x sh3) as (u & v & -> & _).
  destruct Hpl as [->|(? & ? & ->)]; done.
Qed.

(** The key of the ScaledObject of a runtime. *)
Notation scaled_key x := (xt_Namespace x, BuildScaledObjectName (xt_Name x)).

(** A suspend leaves no ScaledObject behind.  A wake that finds one raises its
    minimum and keeps its trigger; one that finds none creates it; either way the
    minimum is the wake floor and the maximum that of the specification. *)
Theorem wake_floor_scaled now x n (s s' : cluster) : applies -> honest s ->
  map_Forall (fun k so => key_of so = k) (kc_ScaledObjects s) -> IsKEDAActive x = true -> IsNotFound not_found = true ->
  (DisableScaledObject not_found x s = (None, s') -> kc_ScaledObjects s' = delete (scaled_key x) (kc_ScaledObjects s)) /\
  (EnableScaledObjectWithWakeMinWorkers hash16 shape_error_text Quote not_found ssa now x n s = (None, s') ->
     exists so, kc_ScaledObjects s' = <[scaled_key x := so]> (kc_ScaledObjects s) /\ so_MinReplicaCount so = Some n /\
       so_MaxReplicaCount so = Some (default KEDADefaultMaxWorkers (spec_MaxWorkers (xt_Spec x))) /\
       forall old, kc_ScaledObjects s !! scaled_key x = Some old -> so_Triggers so = so_Triggers old).
Proof.
  intros Happ Hs Hkeys Hactive Hnf. change (xt_Namespace x, BuildReleaseName (xt_Name x) +:+ "-workers") with (scaled_key x).
  unfold DisableScaledObject, EnableScaledObjectWithWakeMinWorkers, mbind, M_bind.
  change (xt_Namespace x, BuildReleaseName (xt_Name x) +:+ "-workers") with (scaled_key x).
  destruct (Get_call not_found (scaled_key x) s) as [got s1] eqn:Hget. assert (Hl : later s s1) by (unfold Get_call in Hget; by apply read_later in Hget).
  assert (got = match kc_ScaledObjects s !! scaled_key x with Some so => Ok so | None => Err not_found end \/
          exists e, got = Err e /\ IsNotFound e = false) as Hgot.
  { apply call_cases in Hget as [(s0 & (Hso & _) & [= <- _])|(e & -> & _ & He)]; [left; by rewrite Hso|right; eauto]. }
  pose proof Hl as (Hso1 & _ & _ & Hh1). split.
  - destruct got as [so|e].
    + destruct (Delete_call not_found (scaled_key x) s1) as [err s2] eqn:Hd. intros [= Hm <-]. rewrite <- Hso1.
      eapply (delete_gone kc_ScaledObjects set_ScaledObjects _ err s1 s2); [done|by intros ? ? (? & _)|exact Hd|auto|].
      intros e ->. simpl in Hm. by destruct (IsNotFound e).
    + destruct (IsNotFound e) eqn:He; [|done]. intros [= <-]. rewrite Hso1.
      destruct Hgot as [Hgot|(e' & [= <-] & Hf)]; [|congruence].
      destruct (kc_ScaledObjects s !! scaled_key x) eqn:Hk; [done|]. by rewrite delete_id.
  - destruct got as [so|e].
    + destruct Hgot as [Hgot|(e & [=] & _)]. destruct (kc_ScaledObjects s !! scaled_key x) as [so'|] eqn:Hk; [|done]. injection Hgot as <-.
      destruct (Resolve hash16 x) as [shape|] eqn:Hr; [|done].
      destruct (Update_call not_found _ s1) as [[e|] s2] eqn:Hu; [done|]. intros [= <-]. apply call_ok in Hu as (s0 & (Hso0 & _) & Hu).
      assert (key_of (wake_object now x n (sh_MaxWorkers shape) so) = scaled_key x) as Hkey.
      { rewrite <- (Hkeys _ _ Hk). reflexivity. }
      rewrite Hkey in Hu. destruct (kc_ScaledObjects s0 !! scaled_key x); [|done]. injection Hu as <-.
      eexists. cbn [kc_ScaledObjects set_ScaledObjects]. rewrite Hso0, Hso1. split; [reflexivity|]. split; [done|]. split.
      * destruct (keda_counts x shape Hr Hactive) as [_ Hmax]. simpl. by rewrite Hmax.
      * by intros old [= <-].
    + destruct (IsNotFound e) eqn:He; [|done]. destruct Hgot as [Hgot|(e' & [= <-] & Hf)]; [|congruence].
      destruct (kc_ScaledObjects s !! scaled_key x) eqn:Hk; [done|]. intros Hens.
      apply (ensure_spec (set_MinWorkers_spec n x)) in Hens as (shape & t & so & [Hshape Hobj _ Hmin Hmax _ _]); [|done|auto].
      destruct (keda_counts (set_MinWorkers_spec n x) shape Hshape Hactive) as [Hcmin Hcmax].
      exists so. rewrite <- Hso1. split; [exact Hobj|]. split; [by rewrite Hmin, Hcmin|]. split; [by rewrite Hmax, Hcmax|]. done.
Qed.
End sound.

(** ** Examples *)

Definition query_runtime (overlay : option RawJSON) : XTrinode :=
  mkXTrinode "x" "a" 1 0 0 None [] ∅ ∅
    (mkSpecFull "s" (Some 5) (Some 1) false None None None None None None None overlay
       (Some (mkKEDA (Some true) "http" "query" None None None)) None None None "" None None None None None None)
    (status_of_phase "").

Definition ex_ssa (_ : option ScaledObject) (so : ScaledObject) : ScaledObject := so.
Definition no_objects : @keda_cluster kube_error := mkCluster ∅ ∅ ∅ [].
Notation ex_ensure x s := (EnsureScaledObject ex_hash16 (fun _ => "") id KNotFound ex_ssa x s).

Lemma scaled_object_sound_witness : exists s' shape t so,
  ensured ex_hash16 (query_runtime None) no_objects s' shape t so /\ so_MinReplicaCount so = Some 1.
Proof.
  destruct (ex_ensure (query_runtime None) no_objects) as [[e|] s'] eqn:Hrun; [vm_compute in Hrun; discriminate|].
  destruct (scaled_object_sound ex_hash16 (fun _ => "") id KNotFound ex_ssa (query_runtime None) no_objects s')
    as (shape & t & so & Hen); [by intros old new|constructor|exact Hrun|].
  exists s', shape, t, so. split; [exact Hen|]. rewrite (en_min _ _ _ _ _ _ _ Hen).
  pose proof (en_shape _ _ _ _ _ _ _ Hen) as Hr. destruct (keda_counts ex_hash16 _ _ Hr eq_refl) as [Hmin _]. by rewrite Hmin.
Defined.

Lemma wake_floor_scaled_witness : exists (s' : @keda_cluster kube_error) so,
  kc_ScaledObjects s' !! ("a", "trino-x-workers") = Some so /\ so_MinReplicaCount so = Some 3 /\ so_MaxReplicaCount so = Some 5.
Proof.
  destruct (EnableScaledObjectWithWakeMinWorkers ex_hash16 (fun _ => "") id KNotFound ex_ssa 0 (query_runtime None) 3 no_objects)
    as [[e|] s'] eqn:Hrun; [vm_compute in Hrun; discriminate|].
  destruct (wake_floor_scaled ex_hash16 (fun _ => "") id KNotFound ex_ssa 0 (query_runtime None) 3 no_objects s') as [_ Hwake];
    [by intros old new|constructor|apply map_Forall_empty|reflexivity|reflexivity|].
  destruct (Hwake Hrun) as (so & Hs & Hmin & Hmax & _). exists s', so. split; [|split; [exact Hmin|exact Hmax]].
  rewrite Hs. apply lookup_insert_eq.
Defined.

(** The endpoint of a query trigger has the default port, not that of the
    coordinator's service. *)
Lemma query_endpoint_ignores_port :
  let x := query_runtime (Some (mkRawJSON "" (Some (JObject [("service", JObject [("port", JNumber 9090 0)])])))) in
  (exists sc, plan_scaler (E := kube_error) id x = Ok sc /\ sc_HTTPEndpoint sc = "http://trino-x.a.svc.cluster.local:8080/v1/query") /\
  CoordinatorURL x = "http://trino-x.a.svc.cluster.local:9090".
Proof. split; [eexists; split|]; vm_compute; reflexivity. Qed.

(** When the ScaledObject is gone already, a deletion leaves the authentication. *)
Lemma deletion_leaves_authentication :
  let auth := ("a", buildMetricsAPIAuthName "trino-x") in
  let s := mkCluster ∅ {[ auth := [] ]} {[ auth := ∅ ]} [] in
  DeleteScaledObject KNotFound (query_runtime None) s = (@None kube_error, s).
Proof. vm_compute. reflexivity. Qed.

(** A ScaledObject created by a wake has no wake annotations. *)
Lemma wake_creation_unannotated : exists s' so,
  EnableScaledObjectWithWakeMinWorkers ex_hash16 (fun _ => "") id KNotFound ex_ssa 0 (query_runtime None) 3 no_objects = (None, s') /\
  kc_ScaledObjects s' !! ("a", "trino-x-workers") = Some so /\ so_Annotations so = None.
Proof. do 2 eexists. split; [|split]; vm_compute; reflexivity. Qed.
